(* ===== verification/_CoqProject ===== *)
-Q . S2P
Prelude.v
Machine.v
Spinlock.v
Printf.v
Bytes.v
Queue.v
Kalloc.v
Vm.v
Pagetable.v
VmSpec.v
UserMem.v
UserCopy.v
UserFree.v
VmProps.v
KernelMap.v
Block.v
Kernel.v
Discipline.v
Balance.v
Proc.v
ProcFacts.v
Sleeplock.v
Virtio.v
Bio.v
Log.v
Fs.v
Console.v
Pipe.v
File.v
Fork.v
Exec.v
Sysfile.v
Trap.v
KernelInv.v
KernelBalance.v
Examples.v
KernelProps.v
Scheduler.v
Mlfq.v
ProcProps.v
ProcMem.v
PipeProps.v
System.v
Grep.v
BioProps.v
Ulib.v
Uprogs.v
Shell.v
ShellProps.v
ShellRun.v
Umalloc.v
UmallocProps.v
Storage.v
BlockIO.v
DiskExamples.v
LogProps.v
Transaction.v
FsDisk.v
FsBlocks.v
FsInode.v
FsFile.v
FsProps.v
FsExamples.v
InodeLock.v
FileWrite.v
UserInit.v
Csr.v
Boot.v
BootProps.v
Asm.v
AsmProps.v
