(* ===== verification/Prelude.v ===== *)
(** * xv6 for RISC-V with tracing and four schedulers

    A model of the kernel under src/kernel, of parts of the programs under src/user, and
    of how they behave.

    ** The program

    The kernel runs on several harts. A hart is in user space, in a trap on behalf of a
    process, or in scheduler(), which chooses a process by one of four policies (round
    robin, first come first served, priorities, multi-level feedback queue) and switches
    to it; the process gives the CPU back through sched(). System calls reach processes,
    memory, pipes and files; files rest on inodes, these on the log, the log on the
    buffer cache, and that on the disk driver. The kernel is protected by spin locks
    (interrupts off while one is held) and by sleep locks.

    ** How it is modelled

    A C function is a computation of the monad [K] of Machine over a state [S]: it takes
    the hart that runs it and the state and gives an [outcome]: [Done] with a result,
    [Panic], [Switch] (swtch.S: the hart goes to the scheduler, the rest of the thread is
    the continuation), or [NoFuel]. Integers are [Z] with the wrap-around of their C type
    written out (Prelude). Physical memory, page tables and the free list of pages are
    bytes; the kernel's tables are records and lists (Kernel), a pointer into a table is
    an index, a null pointer is [None]. [panic] stops the machine. An access that C leaves
    undefined (a null pointer, an index outside an array) is [Panic "fault"].

    - Prelude, Machine: integers, tactics, the hart and the monad.
    - Spinlock: spinlock.c, as a caller sees it and, in [Module Contention], instruction
      by instruction with several harts racing for a lock.
    - Printf, Bytes, Queue, Kalloc, Block: printf.c, string.c, queue.c, kalloc.c, fields of
      blocks; each with its properties.
    - Vm: vm.c. Pagetable, VmSpec, UserMem, UserCopy, UserFree, VmProps: the address space
      a page table stands for and what the functions of vm.c do to it.
    - Kernel: struct proc and all other global data, as one record.
    - Proc, Fork: proc.c. Sleeplock, Virtio, Bio, Log, Fs, File, Pipe, Console, Exec:
      the files of these names (and uart.c in Console). Sysfile: syscall.c (arguments),
      sysproc.c, sysfile.c. Trap: trap.c and the dispatcher of syscall.c.
    - Discipline, Balance, KernelInv, KernelBalance, KernelProps: a program logic for lock
      contexts and invariants across switches, and every function of the kernel in it.
    - ProcFacts, Scheduler, Mlfq, ProcProps, ProcMem, PipeProps, BioProps: what processes,
      schedulers, pipes and the buffer cache do.
    - System: all harts together, as a step relation.
    - Grep: user/grep.c.
    - Examples: the concrete kernels that the examples after the theorems run on.

    ** What is shown

    - Locks (Spinlock): mutual exclusion and absence of panics in every interleaving; the
      sequential view of a lock refines the racing one; push_off and pop_off nest.
    - The whole kernel (KernelProps): every trap, on every path, keeps the type invariant
      of the tables ([kwf]) and the lock discipline, and gives up the CPU only as sched()
      demands; interrupts of kernel code are invisible to it; scheduler() never returns.
    - The machine (System): a process runs on at most one hart and is RUNNING exactly when
      it does, by induction on the steps.
    - Memory (Kalloc, VmProps, ProcMem): no page is handed out twice or lost, also when
      memory runs out half way; what mappages, uvmalloc, uvmcopy, copyout, copyin,
      allocproc and freeproc do to address spaces and pages.
    - Processes and schedulers (ProcProps, Scheduler, Mlfq, Queue): sleep and wakeup lose no
      wakeup; what each policy chooses; a runnable process is found within NPROC rounds.
    - Pipes, the buffer cache, the scheduler queues: refinement of a bounded byte queue, of
      a list in order of use, of a bounded queue.
    - Text (Printf, Bytes, Grep): printed numbers read back; the string functions; grep's
      matcher accepts exactly the language of the pattern.

    ** Bounds

    Loops over tables and numbers are bounded by the table or number they run over. Loops
    that wait ([while (cond) sleep()]) take [wait_fuel] (class [WaitFuel]), an arbitrary
    number: they give [NoFuel] when they are woken more often than that, and theorems that
    promise a result do not depend on it or need it to be positive. Searches along links
    (free_chain, find_cached, freewalk) run with the size of the structure, and [NoFuel]
    or [Panic "fault"] is shown not to occur where the structure is well formed.

    ** Granularity

    Between two switches the code of one hart is run without interleaving: the model relies
    on the locks for that, whose mutual exclusion is proved at instruction level, and does
    not show that data outside critical sections is free of races. System interleaves whole
    traps, scheduler rounds and interrupts up to the next switch.

    ** Not modelled

    The assembly (swtch.S and the trampoline appear as the outcome [Switch] and as the
    boundary of usertrap); start.c, main.c and plic.c, which set machine registers and call
    the initialisers; the registers of the UART, of the disk and of the interrupt controller;
    the TLB; ramdisk.c, which is not built; the user programs other than grep; mkfs. The
    disk and the UART are outside: what they return is an input of the code that reads it.
    Uninitialised locals that the code reads are parameters (classes [Uninit] and
    [UninitTrace]), as are the addresses the linker chooses ([Layout], [Symbols]). *)
From Stdlib Require Import ZArith Lia List.
From stdpp Require Import base tactics list numbers gmap strings.

(** ** Scopes and numeric conventions *)

Declare Scope xv6_scope.
Delimit Scope xv6_scope with xv6.
Global Open Scope Z_scope.

(** ** Machine integers

    A C integer of width [w] is a [Z]; the wrap-around is written out with the
    functions below. [u8], [u16], [u32], [u64] are the unsigned types of
    kernel/types.h, [i16] and [i32] are [short] and [int] (two's complement, as
    the RISC-V compiler produces it). *)
Definition u8 (x : Z) : Z := x mod 2 ^ 8.
Definition u16 (x : Z) : Z := x mod 2 ^ 16.
Definition u32 (x : Z) : Z := x mod 2 ^ 32.
Definition u64 (x : Z) : Z := x mod 2 ^ 64.
Definition i16 (x : Z) : Z := (x + 2 ^ 15) mod 2 ^ 16 - 2 ^ 15.
Definition i32 (x : Z) : Z := (x + 2 ^ 31) mod 2 ^ 32 - 2 ^ 31.

(** Signed 32-bit division of the RISC-V [divw] instruction: truncation towards
    zero, all ones for a zero divisor. *)
Definition divw (a b : Z) : Z := if b =? 0 then -1 else i32 (Z.quot a b).

(** C truth values. *)
Definition truthy (x : Z) : bool := negb (x =? 0).
Definition b2z (b : bool) : Z := if b then 1 else 0.

(** ** Tactics *)

Create HintDb xv6 discriminated.

(** Turn boolean comparisons of hypotheses and goal into propositions. *)
Ltac bool_to_prop :=
  repeat match goal with
  | H : andb _ _ = true |- _ => apply andb_true_iff in H as [? ?]
  | H : andb _ _ = false |- _ => apply andb_false_iff in H
  | H : orb _ _ = false |- _ => apply orb_false_iff in H as [? ?]
  | H : orb _ _ = true |- _ => apply orb_true_iff in H
  | H : negb _ = true |- _ => apply negb_true_iff in H
  | H : negb _ = false |- _ => apply negb_false_iff in H
  | H : (_ =? _) = true |- _ => apply Z.eqb_eq in H
  | H : (_ =? _) = false |- _ => apply Z.eqb_neq in H
  | H : (_ <? _) = true |- _ => apply Z.ltb_lt in H
  | H : (_ <? _) = false |- _ => apply Z.ltb_ge in H
  | H : (_ <=? _) = true |- _ => apply Z.leb_le in H
  | H : (_ <=? _) = false |- _ => apply Z.leb_gt in H
  | H : bool_decide _ = true |- _ => apply bool_decide_eq_true in H
  | H : bool_decide _ = false |- _ => apply bool_decide_eq_false in H
  end.

(** Case analysis on the condition of the first [if] of the goal. *)
Ltac case_if :=
  match goal with
  | |- context [if ?b then _ else _] =>
      let E := fresh "E" in destruct b eqn:E; bool_to_prop
  end.

(** [lia] that also knows the defining equations of [mod] and [/]. *)
Ltac zlia := Z.to_euclidean_division_equations; lia.

(** ** Facts about machine integers *)

Section ints.

Lemma u8_range x : 0 <= u8 x < 256.
Proof. apply Z.mod_pos_bound; lia. Qed.

Lemma u8_id x : 0 <= x < 256 -> u8 x = x.
Proof. intros. apply Z.mod_small; lia. Qed.

Lemma u32_range x : 0 <= u32 x < 2 ^ 32.
Proof. apply Z.mod_pos_bound; lia. Qed.

Lemma u32_id x : 0 <= x < 2 ^ 32 -> u32 x = x.
Proof. intros. apply Z.mod_small; lia. Qed.

Lemma u64_range x : 0 <= u64 x < 2 ^ 64.
Proof. apply Z.mod_pos_bound; lia. Qed.

Lemma u64_id x : 0 <= x < 2 ^ 64 -> u64 x = x.
Proof. intros. apply Z.mod_small; lia. Qed.

Lemma i32_range x : - 2 ^ 31 <= i32 x < 2 ^ 31.
Proof. unfold i32. pose proof (Z.mod_pos_bound (x + 2 ^ 31) (2 ^ 32)). lia. Qed.

Lemma i32_id x : - 2 ^ 31 <= x < 2 ^ 31 -> i32 x = x.
Proof. intros. unfold i32. rewrite Z.mod_small; lia. Qed.

Lemma i32_add_l x y : i32 (i32 x + y) = i32 (x + y).
Proof.
  unfold i32.
  replace ((x + 2 ^ 31) mod 2 ^ 32 - 2 ^ 31 + y + 2 ^ 31)
    with ((x + 2 ^ 31) mod 2 ^ 32 + y) by lia.
  rewrite Zplus_mod_idemp_l. do 2 f_equal; lia.
Qed.

Lemma i32_idemp x : i32 (i32 x) = i32 x.
Proof. apply i32_id, i32_range. Qed.

Lemma u32_add_l x y : u32 (u32 x + y) = u32 (x + y).
Proof. apply Zplus_mod_idemp_l. Qed.

Lemma u32_sub_l x y : u32 (u32 x - y) = u32 (x - y).
Proof. apply Zminus_mod_idemp_l. Qed.

Lemma u32_sub_r x y : u32 (x - u32 y) = u32 (x - y).
Proof. apply Zminus_mod_idemp_r. Qed.

End ints.

#[export] Hint Resolve u8_range u32_range u64_range i32_range : xv6.
Create Rewrite HintDb ints.
#[export] Hint Rewrite i32_add_l i32_idemp u32_add_l u32_sub_l u32_sub_r : ints.

(** ** Loops

    [upto n] is the index sequence of [for (i = 0; i < n; i++)]. *)
Definition upto (n : nat) : list nat := seq 0 n.
#[global] Arguments upto : simpl never.

Lemma elem_of_upto i n : i ∈ upto n <-> (i < n)%nat.
Proof. unfold upto. rewrite elem_of_seq. lia. Qed.

Lemma NoDup_upto n : NoDup (upto n).
Proof. apply NoDup_seq. Qed.

(** The first index that satisfies a decidable predicate. *)
Lemma least_index (P : nat -> Prop) `{forall d, Decision (P d)} d :
  P d -> exists k, (k <= d)%nat /\ P k /\ forall e, (e < k)%nat -> ~ P e.
Proof.
  induction d as [d IH] using lt_wf_ind. intros Hd. destruct (decide (Exists P (upto d))) as [He|He].
  - apply Exists_exists in He as (e & Hed%elem_of_upto & He). destruct (IH e Hed He) as (k & Hk & Hr).
    exists k. split; [lia|done].
  - exists d. split_and!; [lia|done|]. intros e Hed Hp. apply He, Exists_exists. exists e.
    by rewrite elem_of_upto.
Qed.

(** ** Lists as arrays *)

Section arrays.
Context {A : Type}.
Implicit Types (l : list A).

(** [alter] at one index touches no other index. *)
Lemma alter_lookup_ne (f : A -> A) l i j :
  i <> j -> alter f i l !! j = l !! j.
Proof. intros. by apply list_lookup_alter_ne. Qed.

Lemma imap_lookup_eq (f : nat -> A -> A) l i x :
  l !! i = Some x -> imap f l !! i = Some (f i x).
Proof. intros E. by rewrite list_lookup_imap, E. Qed.

Lemma singleton_sub (x : A) l : x ∈ l -> [x] ⊆ l.
Proof. intros Hx y Hy. by apply list_elem_of_singleton in Hy as ->. Qed.

Lemma imap_length (f : nat -> A -> A) l : length (imap f l) = length l.
Proof. apply length_imap. Qed.

Lemma filter_all (P : A -> Prop) `{forall x, Decision (P x)} l :
  (forall x, x ∈ l -> P x) -> filter P l = l.
Proof.
  induction l as [|x l IH]; intros Hp; [done|].
  rewrite filter_cons_True by (apply Hp; constructor). f_equal. apply IH. intros y Hy. apply Hp. by constructor.
Qed.

(** Deleting one element of a list without duplicates. *)
Lemma delete_filter `{EqDecision A} l j p :
  NoDup l -> l !! j = Some p -> delete j l = filter (fun i => i <> p) l.
Proof.
  revert j. induction l as [|a l IH]; intros j Hnd Hj; [done|].
  apply NoDup_cons in Hnd as [Ha Hnd]. destruct j as [|j]; simpl in Hj.
  - simplify_eq. rewrite filter_cons_False by tauto. simpl. symmetry. apply filter_all. by intros x Hx ->.
  - simpl. rewrite filter_cons_True; [f_equal; by apply IH|].
    intros ->. apply Ha. by eapply list_elem_of_lookup_2.
Qed.

End arrays.

(** ** flat_map *)

Section flatmap.
Context {A B : Type}.
Implicit Types (f : A -> list B).

Lemma elem_of_flat_map f l y : y ∈ flat_map f l <-> exists x, x ∈ l /\ y ∈ f x.
Proof.
  rewrite list_elem_of_In, in_flat_map.
  split; intros (x & Hx & Hy); exists x; rewrite ?list_elem_of_In in *; done.
Qed.

Lemma flat_map_ext_in f g l : (forall x, x ∈ l -> f x = g x) -> flat_map f l = flat_map g l.
Proof.
  induction l as [|x l IH]; intros E; [done|]. simpl.
  rewrite (E x) by constructor. f_equal. apply IH. intros y Hy. apply E. by constructor.
Qed.

Lemma NoDup_flat_map f l :
  NoDup l -> (forall x, x ∈ l -> NoDup (f x)) ->
  (forall x y z, x ∈ l -> y ∈ l -> z ∈ f x -> z ∈ f y -> x = y) -> NoDup (flat_map f l).
Proof.
  induction l as [|x l IH]; intros Hl Hf Hd; [constructor|]. simpl.
  apply NoDup_cons in Hl as [Hx Hl]. apply NoDup_app. split_and!.
  - apply Hf. constructor.
  - intros z Hz Hz'. apply elem_of_flat_map in Hz' as (y & Hy & Hzy). apply Hx.
    rewrite (Hd x y z); [done|constructor|by constructor|done|done].
  - apply IH; [done| |].
    + intros y Hy. apply Hf. by constructor.
    + intros y y' z Hy Hy'. apply Hd; by constructor.
Qed.

End flatmap.
