(* ===== verification/Machine.v ===== *)
(** * Machine

    The hart (struct cpu of kernel/proc.h, the interrupt-enable bit of sstatus
    and the spin locks this hart holds) and the monad in which the kernel's C
    functions are written: state passing, [panic] and the switch to the
    scheduler as outcomes. *)
From Stdlib Require Import FunctionalExtensionality.
From stdpp Require Import base tactics list sets numbers strings.
From S2P Require Import Prelude.

(** ** Lock identities

    One constructor per [struct spinlock] variable of the kernel. *)
Inductive lockid :=
| L_kmem | L_pid | L_wait | L_ticks | L_ftable | L_itable | L_bcache | L_log
| L_cons | L_uart | L_pr | L_vdisk
| L_proc (i : nat)     (* proc[i].lock *)
| L_pipe (pi : Z)      (* ((struct pipe* )pi)->lock *)
| L_buf (i : nat)      (* bcache.buf[i].lock.lk *)
| L_inode (i : nat).   (* itable.inode[i].lock.lk *)

#[export] Instance lockid_eq_dec : EqDecision lockid.
Proof. solve_decision. Defined.

(** ** The hart

    [h_tp] is the tp register (the hart id), [h_proc] cpu->proc (an index into
    the process table), [h_noff] and [h_intena] the fields of struct cpu,
    [h_sie] the SIE bit of sstatus, [h_held] the spin locks whose
    [lk->locked && lk->cpu == mycpu()] holds. *)
Record hart := Hart {
  h_tp : Z;
  h_proc : option nat;
  h_noff : Z;
  h_intena : bool;
  h_sie : bool;
  h_held : list lockid;
}.

#[export] Instance hart_eq_dec : EqDecision hart.
Proof. solve_decision. Defined.

Definition set_h_proc (v : option nat) (h : hart) : hart :=
  Hart (h_tp h) v (h_noff h) (h_intena h) (h_sie h) (h_held h).
Definition set_h_noff (v : Z) (h : hart) : hart :=
  Hart (h_tp h) (h_proc h) v (h_intena h) (h_sie h) (h_held h).
Definition set_h_intena (v : bool) (h : hart) : hart :=
  Hart (h_tp h) (h_proc h) (h_noff h) v (h_sie h) (h_held h).
Definition set_h_sie (v : bool) (h : hart) : hart :=
  Hart (h_tp h) (h_proc h) (h_noff h) (h_intena h) v (h_held h).
Definition set_h_held (v : list lockid) (h : hart) : hart :=
  Hart (h_tp h) (h_proc h) (h_noff h) (h_intena h) (h_sie h) v.

(** ** Outcomes and the kernel monad *)

(** - [Done a h s]: the call returned [a];
    - [Panic msg]: it called [panic(msg)], which never returns;
    - [Switch h s k]: it gave the CPU to the scheduler through [swtch]; [k] is the
      saved context, run on whichever hart the thread is resumed;
    - [NoFuel]: a loop of the model used up its fuel. *)
Inductive outcome (S A : Type) :=
| Done (a : A) (h : hart) (s : S)
| Panic (msg : string)
| Switch (h : hart) (s : S) (k : hart -> S -> outcome S A)
| NoFuel.
Arguments Done {S A} _ _ _.
Arguments Panic {S A} _.
Arguments Switch {S A} _ _ _.
Arguments NoFuel {S A}.

Definition K (S A : Type) : Type := hart -> S -> outcome S A.

Section monad.
Context {S : Type}.

Definition ret {A} (a : A) : K S A := fun h s => Done a h s.

(** What follows a computation also follows its resumptions. *)
Fixpoint obind {A B} (f : A -> K S B) (o : outcome S A) : outcome S B :=
  match o with
  | Done a h s => f a h s
  | Panic msg => Panic msg
  | Switch h s k => Switch h s (fun h' s' => obind f (k h' s'))
  | NoFuel => NoFuel
  end.

Definition bind {A B} (m : K S A) (f : A -> K S B) : K S B := fun h s => obind f (m h s).

Definition panic {A} (msg : string) : K S A := fun _ _ => Panic msg.
Definition nofuel {A} : K S A := fun _ _ => NoFuel.
Definition get_hart : K S hart := fun h s => Done h h s.
Definition put_hart (h : hart) : K S unit := fun _ s => Done tt h s.
Definition gets {A} (f : S -> A) : K S A := fun h s => Done (f s) h s.
Definition modify (f : S -> S) : K S unit := fun h s => Done tt h (f s).
(** Give up the CPU; returns when the scheduler resumes this thread. *)
Definition swtch : K S unit := fun h s => Switch h s (fun h' s' => Done tt h' s').

(** Dereference of a pointer into a table: a null or wild pointer has no
    behaviour in C, the model stops with [Panic "fault"]. *)
Definition deref {A} (o : option A) : K S A :=
  match o with Some a => ret a | None => panic "fault" end.

(** [for (x : l) body], without an early exit. *)
Fixpoint forM {X} (l : list X) (body : X -> K S unit) : K S unit :=
  match l with
  | [] => ret tt
  | x :: l' => bind (body x) (fun _ => forM l' body)
  end.

(** [for (x : l) body], where [body] may leave the loop with a value. *)
Fixpoint forM_exit {X R} (l : list X) (body : X -> K S (option R))
    : K S (option R) :=
  match l with
  | [] => ret None
  | x :: l' =>
      bind (body x) (fun r =>
        match r with Some _ => ret r | None => forM_exit l' body end)
  end.

(** [if (b) m] *)
Definition when (b : bool) (m : K S unit) : K S unit := if b then m else ret tt.

End monad.

Notation "x <- m ;; k" := (bind m (fun x => k))
  (at level 100, m at next level, right associativity) : xv6_scope.
Notation "m ;; k" := (bind m (fun _ => k))
  (at level 100, right associativity) : xv6_scope.
Global Open Scope xv6_scope.

(** A component's computation inside a larger state. *)
Fixpoint ozoom {S T A} (get : S -> T) (put : T -> S -> S) (s : S) (o : outcome T A) : outcome S A :=
  match o with
  | Done a h t => Done a h (put t s)
  | Panic msg => Panic msg
  | Switch h t k => Switch h (put t s) (fun h' s' => ozoom get put s' (k h' (get s')))
  | NoFuel => NoFuel
  end.

Definition zoom {S T A} (get : S -> T) (put : T -> S -> S) (m : K T A) : K S A :=
  fun h s => ozoom get put s (m h (get s)).

(** ** Rewriting with known outcomes *)

Section monad_facts.
Context {S : Type}.

Lemma bind_done {A B} (m : K S A) (f : A -> K S B) h s a h' s' :
  m h s = Done a h' s' -> bind m f h s = f a h' s'.
Proof. unfold bind. by intros ->. Qed.

Lemma bind_panic {A B} (m : K S A) (f : A -> K S B) h s msg :
  m h s = Panic msg -> bind m f h s = Panic msg.
Proof. unfold bind. by intros ->. Qed.

Lemma bind_switch {A B} (m : K S A) (f : A -> K S B) h s h' s' k :
  m h s = Switch h' s' k -> bind m f h s = Switch h' s' (bind k f).
Proof. unfold bind. by intros ->. Qed.

Lemma obind_assoc {A B C} (o : outcome S A) (f : A -> K S B) (g : B -> K S C) :
  obind g (obind f o) = obind (fun a => bind (f a) g) o.
Proof.
  induction o as [| |h s k IH|]; simpl; try done. f_equal.
  apply functional_extensionality. intros h'. apply functional_extensionality. intros s'. apply IH.
Qed.

Lemma obind_ret {A} (o : outcome S A) : obind ret o = o.
Proof.
  induction o as [| |h s k IH|]; simpl; try done. f_equal.
  apply functional_extensionality. intros h'. apply functional_extensionality. intros s'. apply IH.
Qed.

Lemma bind_assoc {A B C} (m : K S A) (f : A -> K S B) (g : B -> K S C) h s :
  bind (bind m f) g h s = bind m (fun a => bind (f a) g) h s.
Proof. apply obind_assoc. Qed.

Lemma bind_swtch {B} (f : unit -> K S B) h s : bind swtch f h s = Switch h s (f tt).
Proof. done. Qed.

Lemma bind_ret {A B} (a : A) (f : A -> K S B) h s : bind (ret a) f h s = f a h s.
Proof. done. Qed.
Lemma bind_gets {A B} (g : S -> A) (f : A -> K S B) h s :
  bind (gets g) f h s = f (g s) h s.
Proof. done. Qed.
Lemma bind_modify {B} (g : S -> S) (f : unit -> K S B) h s :
  bind (modify g) f h s = f tt h (g s).
Proof. done. Qed.
Lemma bind_get_hart {B} (f : hart -> K S B) h s : bind get_hart f h s = f h h s.
Proof. done. Qed.
Lemma bind_put_hart {B} h' (f : unit -> K S B) h s : bind (put_hart h') f h s = f tt h' s.
Proof. done. Qed.
Lemma bind_deref_Some {A B} (a : A) (f : A -> K S B) h s :
  bind (deref (Some a)) f h s = f a h s.
Proof. done. Qed.
Lemma bind_panic_l {A B} msg (f : A -> K S B) h s : bind (panic msg) f h s = Panic msg.
Proof. done. Qed.
Lemma bind_if {A B} (b : bool) (m1 m2 : K S A) (f : A -> K S B) h s :
  bind (if b then m1 else m2) f h s = if b then bind m1 f h s else bind m2 f h s.
Proof. by destruct b. Qed.
Lemma bind_when {B} (b : bool) m (f : unit -> K S B) h s :
  bind (when b m) f h s = if b then bind m f h s else f tt h s.
Proof. by destruct b. Qed.
Lemma ret_run {A} (a : A) h s : @ret S A a h s = Done a h s.
Proof. done. Qed.

Lemma bind_inv {A B} (m : K S A) (f : A -> K S B) h s b h' s' :
  bind m f h s = Done b h' s' ->
  exists a h1 s1, m h s = Done a h1 s1 /\ f a h1 s1 = Done b h' s'.
Proof. unfold bind. destruct (m h s); naive_solver. Qed.

Lemma bind_eq {A B} (m m' : K S A) (f : A -> K S B) h s h' s' :
  m h s = m' h' s' -> bind m f h s = bind m' f h' s'.
Proof. intros E. unfold bind. by rewrite E. Qed.

(** Two continuations that agree on every state can be exchanged under [bind]. *)
Lemma bind_ext {A B} (m : K S A) (f g : A -> K S B) h s :
  (forall a h' s', f a h' s' = g a h' s') -> bind m f h s = bind m g h s.
Proof.
  intros E. assert (f = g) as ->; [|done].
  do 3 (apply functional_extensionality; intros ?). apply E.
Qed.

Lemma forM_app {X} (l1 l2 : list X) (body : X -> K S unit) h s :
  forM (l1 ++ l2) body h s = bind (forM l1 body) (fun _ => forM l2 body) h s.
Proof.
  revert h s. induction l1 as [|x l1 IH]; intros h s; [done|].
  simpl. rewrite bind_assoc. apply bind_ext. intros. apply IH.
Qed.

(** A loop whose body always returns and preserves an invariant indexed by the
    processed prefix returns and establishes it for the whole list. *)
Lemma forM_spec {X} (I : list X -> hart -> S -> Prop) (l : list X) body h s :
  I [] h s ->
  (forall pre x post h s, l = pre ++ x :: post -> I pre h s ->
     exists h' s', body x h s = Done tt h' s' /\ I (pre ++ [x]) h' s') ->
  exists h' s', forM l body h s = Done tt h' s' /\ I l h' s'.
Proof.
  intros H0 Hstep.
  cut (forall post pre h s, l = pre ++ post -> I pre h s ->
    exists h' s', forM post body h s = Done tt h' s' /\ I l h' s').
  { intros Hc. apply (Hc l []); auto. }
  clear h s H0. induction post as [|x post IH]; intros pre h s -> HI.
  - rewrite app_nil_r. eauto.
  - destruct (Hstep pre x post h s) as (h1 & s1 & E1 & HI1); auto.
    destruct (IH (pre ++ [x]) h1 s1) as (h2 & s2 & E2 & HI2); auto.
    { by rewrite <-app_assoc. }
    exists h2, s2. simpl. by rewrite (bind_done _ _ _ _ _ _ _ E1).
Qed.

(** The same for a loop with an early exit: either no iteration leaves the
    loop, or the first one that does determines the result. *)
Lemma forM_exit_none {X R} (l : list X) (body : X -> K S (option R)) h s :
  (forall x, x ∈ l -> body x h s = Done None h s) ->
  forM_exit l body h s = Done None h s.
Proof.
  induction l as [|x l IH]; intros E; [done|]. simpl.
  rewrite (bind_done _ _ _ _ _ _ _ (E x ltac:(set_solver))).
  apply IH. set_solver.
Qed.

End monad_facts.

Create Rewrite HintDb kmonad.
#[export] Hint Rewrite @bind_ret @bind_gets @bind_modify @bind_get_hart @bind_put_hart
  @bind_deref_Some @bind_panic_l @bind_when @bind_assoc @bind_swtch @ret_run : kmonad.

(** Run the leading state accesses of the goal. *)
Ltac ksimpl := autorewrite with kmonad.

(** Run one bind of the goal whose first computation has a known outcome. *)
Ltac krun H := first
  [ rewrite (bind_done _ _ _ _ _ _ _ H) | rewrite (bind_panic _ _ _ _ _ H)
  | rewrite (bind_switch _ _ _ _ _ _ _ H) ].

(** Split a hypothesis [m h s = Done ..] along its binds. *)
Ltac kinv H :=
  repeat match type of H with
  | bind _ _ _ _ = Done _ _ _ =>
      let E := fresh "E" in apply bind_inv in H as (? & ? & ? & E & H)
  end.
