(* ===== verification/Spinlock.v ===== *)
(** * Spinlock

    kernel/spinlock.c. The first part gives the operations as every other
    component calls them: they act on the hart of the caller. The second part
    ([Module Contention]) is the instruction-level machine in which several harts
    race for one [struct spinlock]; mutual exclusion is proved there, and the
    first part is shown to be what one hart of that machine observes. *)
From stdpp Require Import base tactics list numbers strings sets relations.
From S2P Require Import Prelude Machine.

(** ** Interrupt control (kernel/riscv.h) and struct cpu *)

Section ops.
Context {S : Type}.

Definition cpuid : K S Z := h <- get_hart;; ret (h_tp h).
Definition intr_on : K S unit := h <- get_hart;; put_hart (set_h_sie true h).
Definition intr_off : K S unit := h <- get_hart;; put_hart (set_h_sie false h).
Definition intr_get : K S bool := h <- get_hart;; ret (h_sie h).

Definition push_off : K S unit :=
  old <- intr_get;;
  intr_off;;
  h <- get_hart;;
  when (h_noff h =? 0) (put_hart (set_h_intena old h));;
  h <- get_hart;;
  put_hart (set_h_noff (h_noff h + 1) h).

Definition pop_off : K S unit :=
  ie <- intr_get;;
  if ie then panic "pop_off - interruptible" else
  h <- get_hart;;
  if h_noff h <? 1 then panic "pop_off" else
  put_hart (set_h_noff (h_noff h - 1) h);;
  h <- get_hart;;
  when ((h_noff h =? 0) && h_intena h) intr_on.

(** [lk->locked && lk->cpu == mycpu()] *)
Definition holding (lk : lockid) : K S bool :=
  h <- get_hart;; ret (bool_decide (lk ∈ h_held h)).

(** The test-and-set loop returns when no other hart holds the lock; the
    interleaving with other harts is [Module Contention] below. *)
Definition acquire (lk : lockid) : K S unit :=
  push_off;;
  r <- holding lk;;
  if r then panic "acquire" else
  h <- get_hart;;
  put_hart (set_h_held (lk :: h_held h) h).

Definition release (lk : lockid) : K S unit :=
  r <- holding lk;;
  if negb r then panic "release" else
  h <- get_hart;;
  put_hart (set_h_held (filter (.≠ lk) (h_held h)) h);;
  pop_off.

End ops.

(** ** The hart's lock discipline *)

(** Interrupts are off while the hart is inside a [push_off]; every lock held
    accounts for one [push_off]. *)
Record hart_wf (h : hart) : Prop := {
  wf_noff : Z.of_nat (length (h_held h)) <= h_noff h;
  wf_sie : 0 < h_noff h -> h_sie h = false;
  wf_nodup : NoDup (h_held h);
}.

(** The hart inside [push_off], and the hart after a matched pair: only the
    saved [intena] of an outermost pair is overwritten. *)
Definition pushed (h : hart) : hart :=
  Hart (h_tp h) (h_proc h) (h_noff h + 1)
    (if h_noff h =? 0 then h_sie h else h_intena h) false (h_held h).

Definition locked (lk : lockid) (h : hart) : hart :=
  set_h_held (lk :: h_held h) (pushed h).

Definition settle (h : hart) : hart :=
  if h_noff h =? 0 then set_h_intena (h_sie h) h else h.

Section facts.
Context {S : Type}.
Implicit Types (h : hart) (s : S) (lk : lockid).

Lemma push_off_run h s : push_off h s = Done tt (pushed h) s.
Proof.
  unfold push_off, intr_get, intr_off, get_hart, put_hart, bind, when, ret; simpl.
  unfold pushed. destruct (h_noff h =? 0); reflexivity.
Qed.

Lemma noff_nonneg h : hart_wf h -> 0 <= h_noff h.
Proof. intros [? _ _]. lia. Qed.

Lemma pop_off_pushed h s :
  hart_wf h -> pop_off (pushed h) s = Done tt (settle h) s.
Proof.
  intros Hwf. pose proof (noff_nonneg h Hwf). destruct Hwf as [_ Hs _].
  unfold pop_off, intr_get, intr_on, get_hart, put_hart, bind, when, ret; simpl.
  case_if; [lia|]. replace (h_noff h + 1 - 1) with (h_noff h) by lia.
  unfold settle, pushed. destruct h as [tp pr noff ie sie held]; simpl in *.
  destruct (Z.eqb_spec noff 0) as [->|Hn]; simpl.
  - by destruct sie.
  - unfold set_h_noff; simpl. by rewrite Hs by lia.
Qed.

Lemma holding_run lk h s :
  holding lk h s = Done (bool_decide (lk ∈ h_held h)) h s.
Proof. done. Qed.

Lemma acquire_run lk h s :
  lk ∉ h_held h -> acquire lk h s = Done tt (locked lk h) s.
Proof.
  intros Hn. unfold acquire. krun (push_off_run h s).
  unfold bind, holding, get_hart, ret, put_hart; simpl.
  by rewrite bool_decide_eq_false_2.
Qed.

Lemma acquire_reentrant lk h s :
  lk ∈ h_held h -> acquire lk h s = Panic "acquire".
Proof.
  intros Hn. unfold acquire. krun (push_off_run h s).
  unfold bind, holding, get_hart, ret, put_hart; simpl.
  by rewrite bool_decide_eq_true_2.
Qed.

Lemma filter_held_notin lk (l : list lockid) :
  lk ∉ l -> filter (.≠ lk) l = l.
Proof. intros Hn. apply filter_all. by intros x Hx ->. Qed.

Lemma release_locked lk h s :
  hart_wf h -> lk ∉ h_held h ->
  release lk (locked lk h) s = Done tt (settle h) s.
Proof.
  intros Hwf Hn. unfold release, holding, get_hart, put_hart, bind, ret; simpl.
  rewrite bool_decide_eq_true_2 by set_solver. simpl.
  rewrite filter_cons_False by (intros Hc; by apply Hc).
  rewrite filter_held_notin by done.
  change (pop_off (set_h_held (h_held h) (locked lk h)) s = Done tt (settle h) s).
  by apply (pop_off_pushed h s).
Qed.

Lemma release_not_held lk h s :
  lk ∉ h_held h -> release lk h s = Panic "release".
Proof.
  intros Hn. unfold release, holding, get_hart, put_hart, bind, ret; simpl.
  by rewrite bool_decide_eq_false_2.
Qed.

Lemma wf_pushed h : hart_wf h -> hart_wf (pushed h).
Proof. intros [? ? ?]. constructor; simpl; auto; lia. Qed.

Lemma wf_locked lk h : hart_wf h -> lk ∉ h_held h -> hart_wf (locked lk h).
Proof. intros [? ? ?] ?. constructor; simpl; auto; [lia|]. by constructor. Qed.

Lemma wf_settle h : hart_wf h -> hart_wf (settle h).
Proof. intros [? ? ?]. unfold settle. case_if; constructor; simpl; auto. Qed.

Lemma settle_idemp h : settle (settle h) = settle h.
Proof. unfold settle. destruct (h_noff h =? 0) eqn:E; simpl; by rewrite ?E. Qed.

Lemma settle_held h : h_held (settle h) = h_held h.
Proof. unfold settle. by case_if. Qed.
Lemma settle_noff h : h_noff (settle h) = h_noff h.
Proof. unfold settle. by case_if. Qed.
Lemma settle_sie h : h_sie (settle h) = h_sie h.
Proof. unfold settle. by case_if. Qed.
Lemma settle_proc h : h_proc (settle h) = h_proc h.
Proof. unfold settle. by case_if. Qed.
Lemma settle_tp h : h_tp (settle h) = h_tp h.
Proof. unfold settle. by case_if. Qed.

Lemma pushed_settle h : pushed (settle h) = pushed h.
Proof.
  unfold settle, pushed. destruct (h_noff h =? 0) eqn:E; simpl; rewrite ?E; done.
Qed.

Lemma locked_settle lk h : locked lk (settle h) = locked lk h.
Proof. unfold locked. by rewrite pushed_settle, settle_held. Qed.

Lemma locked_noff lk h : hart_wf h -> settle (locked lk h) = locked lk h.
Proof.
  intros Hwf. pose proof (noff_nonneg h Hwf). unfold settle; simpl.
  case_if; [lia|done].
Qed.

End facts.

(** The hart a function that only takes matched pairs returns with. *)
Definition calm (h h' : hart) : Prop := h' = h \/ h' = settle h.

Lemma calm_refl h : calm h h.
Proof. by left. Qed.
Lemma calm_settle h : calm h (settle h).
Proof. by right. Qed.
Lemma calm_trans h1 h2 h3 : calm h1 h2 -> calm h2 h3 -> calm h1 h3.
Proof.
  unfold calm. intros [-> | ->] [-> | ->]; rewrite ?settle_idemp; auto.
Qed.
Lemma calm_wf h h' : calm h h' -> hart_wf h -> hart_wf h'.
Proof. intros [-> | ->]; auto using wf_settle. Qed.
Lemma calm_held h h' : calm h h' -> h_held h' = h_held h.
Proof. intros [-> | ->]; [done|apply settle_held]. Qed.
Lemma calm_notin lk h h' : calm h h' -> lk ∉ h_held h -> lk ∉ h_held h'.
Proof. intros Hc. by rewrite (calm_held h h' Hc). Qed.

Create Rewrite HintDb hart.
#[export] Hint Rewrite settle_idemp settle_held settle_noff settle_sie settle_proc
  settle_tp pushed_settle locked_settle : hart.
#[export] Hint Resolve wf_pushed wf_locked wf_settle calm_refl calm_settle calm_trans calm_wf
  calm_notin : xv6.

(** Side conditions of the rules above. *)
Ltac solve_hart :=
  autorewrite with hart; simpl; eauto with xv6; try set_solver.

(** ** The lock under contention

    One [struct spinlock] and the harts that use it. Each hart is at a program
    point of [acquire] or [release]; one step is one shared-memory access (or
    the interrupt bookkeeping, which is local to the hart). *)
Module Contention.

(** struct spinlock of kernel/spinlock.h; [sl_cpu] is the hart id stored in
    [lk->cpu], [None] for the null pointer. *)
Record spinlock := SpinLock { sl_locked : Z; sl_name : string; sl_cpu : option nat }.

Definition initlock (name : string) : spinlock := SpinLock 0 name None.

(** Program points: outside; after [push_off] of acquire; in the test-and-set
    loop; the swap returned 0; acquire has returned; release passed its check;
    [lk->cpu] cleared; [lk->locked] cleared; stopped in [panic]. *)
Inductive pc := Out | Pushed | Spin | Swapped | Inside | Checked | CpuClear | Unlocked | Stopped.

Definition config : Type := spinlock * list (pc * hart).

Definition holding_at (lk : spinlock) (i : nat) : bool :=
  truthy (sl_locked lk) && bool_decide (sl_cpu lk = Some i).

(** pop_off on the hart alone: [None] is its panic. *)
Definition pop_hart (h : hart) : option hart :=
  match @pop_off unit h tt with Done _ h' _ => Some h' | _ => None end.

Inductive step : config -> config -> Prop :=
| step_push lk hs i h :
    hs !! i = Some (Out, h) ->
    step (lk, hs) (lk, <[i := (Pushed, pushed h)]> hs)
| step_check_panic lk hs i h :
    hs !! i = Some (Pushed, h) -> holding_at lk i = true ->
    step (lk, hs) (lk, <[i := (Stopped, h)]> hs)
| step_check lk hs i h :
    hs !! i = Some (Pushed, h) -> holding_at lk i = false ->
    step (lk, hs) (lk, <[i := (Spin, h)]> hs)
| step_swap_fail lk hs i h :
    hs !! i = Some (Spin, h) -> sl_locked lk <> 0 ->
    step (lk, hs) (SpinLock 1 (sl_name lk) (sl_cpu lk), hs)
| step_swap_ok lk hs i h :
    hs !! i = Some (Spin, h) -> sl_locked lk = 0 ->
    step (lk, hs) (SpinLock 1 (sl_name lk) (sl_cpu lk), <[i := (Swapped, h)]> hs)
| step_setcpu lk hs i h :
    hs !! i = Some (Swapped, h) ->
    step (lk, hs) (SpinLock (sl_locked lk) (sl_name lk) (Some i), <[i := (Inside, h)]> hs)
| step_rel_panic lk hs i h :
    hs !! i = Some (Inside, h) -> holding_at lk i = false ->
    step (lk, hs) (lk, <[i := (Stopped, h)]> hs)
| step_rel_check lk hs i h :
    hs !! i = Some (Inside, h) -> holding_at lk i = true ->
    step (lk, hs) (lk, <[i := (Checked, h)]> hs)
| step_clearcpu lk hs i h :
    hs !! i = Some (Checked, h) ->
    step (lk, hs) (SpinLock (sl_locked lk) (sl_name lk) None, <[i := (CpuClear, h)]> hs)
| step_unlock lk hs i h :
    hs !! i = Some (CpuClear, h) ->
    step (lk, hs) (SpinLock 0 (sl_name lk) (sl_cpu lk), <[i := (Unlocked, h)]> hs)
| step_pop lk hs i h h' :
    hs !! i = Some (Unlocked, h) -> pop_hart h = Some h' ->
    step (lk, hs) (lk, <[i := (Out, h')]> hs)
| step_pop_panic lk hs i h :
    hs !! i = Some (Unlocked, h) -> pop_hart h = None ->
    step (lk, hs) (lk, <[i := (Stopped, h)]> hs).

(** The hart owns the lock word: the swap returned 0 and it was not cleared. *)
Definition owns (p : pc) : bool :=
  match p with Swapped | Inside | Checked | CpuClear => true | _ => false end.
Definition named (p : pc) : bool :=
  match p with Inside | Checked => true | _ => false end.
Definition outside (p : pc) : bool := match p with Out => true | _ => false end.

(** Booted harts: outside, interrupt bookkeeping consistent. *)
Definition initial (c : config) : Prop :=
  (exists name, c.1 = initlock name) /\
  forall i p h, c.2 !! i = Some (p, h) -> p = Out /\ hart_wf h.

Definition reachable (c : config) : Prop := exists c0, initial c0 /\ rtc step c0 c.

Record inv (c : config) : Prop := {
  inv_word : sl_locked c.1 = 0 \/ sl_locked c.1 = 1;
  inv_free : sl_locked c.1 = 0 ->
    forall i p h, c.2 !! i = Some (p, h) -> owns p = false;
  inv_excl : forall i j p q h h',
    c.2 !! i = Some (p, h) -> c.2 !! j = Some (q, h') ->
    owns p = true -> owns q = true -> i = j;
  inv_cpu : forall i, sl_cpu c.1 = Some i ->
    exists p h, c.2 !! i = Some (p, h) /\ named p = true;
  inv_named : forall i p h, c.2 !! i = Some (p, h) -> named p = true ->
    sl_cpu c.1 = Some i;
  inv_hart : forall i p h, c.2 !! i = Some (p, h) ->
    p <> Stopped /\ exists g, hart_wf g /\ h = (if outside p then g else pushed g);
}.

Lemma inv_initial c : initial c -> inv c.
Proof.
  intros [[name Hn] Ho]. constructor; rewrite ?Hn; simpl; auto.
  - intros _ i p h E. by destruct (Ho _ _ _ E) as [-> _].
  - intros i j p q h h' E _. by destruct (Ho _ _ _ E) as [-> _].
  - done.
  - intros i p h E. by destruct (Ho _ _ _ E) as [-> _].
  - intros i p h E. destruct (Ho _ _ _ E) as [-> ?]. split; [done|]. by exists h.
Qed.

Lemma pop_hart_pushed g : hart_wf g -> pop_hart (pushed g) = Some (settle g).
Proof. intros Hg. unfold pop_hart. by rewrite pop_off_pushed. Qed.

(** A step of hart [i] from point [p] to [q] with hart state [h'] and lock word
    [lk'] keeps the invariant when the new point is consistent with the word. *)
Lemma inv_update lk lk' hs i p q h h' :
  inv (lk, hs) -> hs !! i = Some (p, h) ->
  (sl_locked lk' = 0 \/ sl_locked lk' = 1) ->
  (sl_locked lk' = 0 -> owns q = false /\ (owns p = true \/ sl_locked lk = 0)) ->
  (owns q = true -> owns p = true \/ sl_locked lk = 0) ->
  (if named q then sl_cpu lk' = Some i
   else sl_cpu lk' = (if named p then None else sl_cpu lk)) ->
  (named p = true -> owns p = true) -> (named q = true -> owns q = true) ->
  q <> Stopped -> (exists g, hart_wf g /\ h' = if outside q then g else pushed g) ->
  inv (lk', <[i := (q, h')]> hs).
Proof.
  intros [Hw Hf He Hc Hn Hh] Ei Hw' Hf' Ho Hcpu Hnp Hnq Hst Hg. simpl in *.
  constructor; simpl; auto.
  - intros Hz j r g' Ej. destruct (Hf' Hz) as [Hq Hp].
    apply list_lookup_insert_Some in Ej as [(-> & [= <- <-] & _)|[Hij Ej]]; [done|].
    destruct (owns r) eqn:Er; [|done]. destruct Hp as [Hp|Hp].
    + by destruct Hij; eapply He.
    + simpl in Hf. by rewrite <-Er; eapply Hf.
  - intros j k r t g1 g2 Ej Ek Hr Ht.
    apply list_lookup_insert_Some in Ej as [(-> & [= <- <-] & _)|[Hij Ej]];
    apply list_lookup_insert_Some in Ek as [(-> & [= <- <-] & _)|[Hik Ek]];
      auto; [| |by eapply He].
    + destruct (Ho Hr) as [Hp|Hp]; [by eapply He|].
      simpl in Hf. by rewrite (Hf Hp _ _ _ Ek) in Ht.
    + destruct (Ho Ht) as [Hp|Hp]; [by eapply He|].
      simpl in Hf. by rewrite (Hf Hp _ _ _ Ej) in Hr.
  - intros j Ej. destruct (decide (i = j)) as [->|Hij].
    + exists q, h'. split; [apply list_lookup_insert_eq; by eapply lookup_lt_Some|].
      destruct (named q); [done|]. destruct (named p) eqn:Ep; [congruence|].
      rewrite Hcpu in Ej. destruct (Hc _ Ej) as (? & ? & ? & ?). simplify_eq. congruence.
    + rewrite list_lookup_insert_ne by done.
      destruct (named q); [congruence|]. destruct (named p); [congruence|].
      rewrite Hcpu in Ej. by apply Hc.
  - intros j r g' Ej Hr.
    apply list_lookup_insert_Some in Ej as [(-> & [= <- <-] & _)|[Hij Ej]].
    { by rewrite Hr in Hcpu. }
    pose proof (Hn _ _ _ Ej Hr) as Hcj. simpl in Hcj.
    destruct (named p) eqn:Ep.
    { rewrite (Hn _ _ _ Ei Ep) in Hcj. by simplify_eq. }
    destruct (named q) eqn:Eq; [|congruence].
    assert (Hor : owns r = true) by (destruct r; done).
    destruct (Ho (Hnq eq_refl)) as [Hp|Hp]; [by destruct Hij; eapply He|].
    simpl in Hf. by rewrite (Hf Hp _ _ _ Ej) in Hor.
  - intros j r g' Ej.
    apply list_lookup_insert_Some in Ej as [(-> & [= <- <-] & _)|[Hij Ej]]; eauto.
Qed.

Lemma inv_step c c' : inv c -> step c c' -> inv c'.
Proof.
  intros Hinv Hstep. pose proof Hinv as [Hw Hf He Hc Hn Hh]. simpl in *.
  destruct Hstep as [lk hs i h E|lk hs i h E Hho|lk hs i h E Hho|lk hs i h E Hz
    |lk hs i h E Hz|lk hs i h E|lk hs i h E Hho|lk hs i h E Hho|lk hs i h E
    |lk hs i h E|lk hs i h h' E Hp|lk hs i h E Hp]; simpl in *;
    destruct (Hh _ _ _ E) as (_ & g & Hg & Eh); simpl in Eh;
    try (eapply (inv_update lk); [exact Hinv|exact E|..]; simpl; subst; eauto;
      solve [done | intros Hz; by specialize (Hf Hz _ _ _ E)]).
  - (* acquire's holding check cannot succeed *)
    unfold holding_at in Hho. bool_to_prop.
    destruct (Hc i) as (p & h' & E' & Hnm); [done|]. by simplify_eq.
  - (* the swap found the lock taken *)
    constructor; simpl; auto; lia.
  - (* release's holding check cannot fail *)
    unfold holding_at in Hho. rewrite (Hn _ _ _ E eq_refl) in Hho.
    rewrite bool_decide_eq_true_2, andb_true_r in Hho by done.
    unfold truthy in Hho. bool_to_prop. by specialize (Hf Hho _ _ _ E).
  - (* pop_off undoes the push_off of acquire *)
    subst h. rewrite (pop_hart_pushed _ Hg) in Hp. simplify_eq.
    eapply (inv_update lk); [exact Hinv|exact E|..]; simpl; eauto with xv6; done.
  - (* pop_off cannot panic *)
    subst h. by rewrite (pop_hart_pushed _ Hg) in Hp.
Qed.

Lemma inv_reachable c : reachable c -> inv c.
Proof.
  intros (c0 & Hi & Hr). apply inv_initial in Hi.
  induction Hr; eauto using inv_step.
Qed.

(** Uncontended, hart [i] runs through acquire to its return. *)
Lemma run_acquire lk hs i h :
  hs !! i = Some (Out, h) -> sl_locked lk = 0 -> holding_at lk i = false ->
  rtc step (lk, hs)
    (SpinLock 1 (sl_name lk) (Some i), <[i := (Inside, pushed h)]> hs).
Proof.
  intros E Hz Hh. pose proof (lookup_lt_Some _ _ _ E).
  eapply rtc_l; [by apply (step_push _ _ i h)|].
  eapply rtc_l; [apply (step_check _ _ i (pushed h)); [by apply list_lookup_insert_eq|done]|].
  rewrite list_insert_insert_eq.
  eapply rtc_l; [apply (step_swap_ok _ _ i (pushed h)); [by apply list_lookup_insert_eq|done]|].
  rewrite list_insert_insert_eq.
  eapply rtc_l; [apply (step_setcpu _ _ i (pushed h)); by apply list_lookup_insert_eq|].
  rewrite list_insert_insert_eq. simpl. apply rtc_refl.
Qed.

(** And through release, back outside. *)
Lemma run_release lk hs i g :
  hs !! i = Some (Inside, pushed g) -> hart_wf g -> holding_at lk i = true ->
  rtc step (lk, hs)
    (SpinLock 0 (sl_name lk) None, <[i := (Out, settle g)]> hs).
Proof.
  intros E Hg Hh. pose proof (lookup_lt_Some _ _ _ E).
  eapply rtc_l; [by apply (step_rel_check _ _ i (pushed g))|].
  eapply rtc_l; [apply (step_clearcpu _ _ i (pushed g)); by apply list_lookup_insert_eq|].
  rewrite list_insert_insert_eq.
  eapply rtc_l; [apply (step_unlock _ _ i (pushed g)); by apply list_lookup_insert_eq|].
  rewrite list_insert_insert_eq.
  eapply rtc_l; [apply (step_pop _ _ i (pushed g) (settle g));
    [by apply list_lookup_insert_eq|by apply pop_hart_pushed]|].
  rewrite list_insert_insert_eq. simpl. apply rtc_refl.
Qed.

End Contention.

(** ** Properties *)

(** C1: mutual exclusion. In every interleaving of any number of harts that
    acquire and release a spin lock, at most one hart is between the successful
    test-and-set of acquire and the clearing of [lk->locked] in release. *)
Theorem spinlock_mutual_exclusion (c : Contention.config) i j p q h h' :
  Contention.reachable c ->
  c.2 !! i = Some (p, h) -> c.2 !! j = Some (q, h') ->
  Contention.owns p = true -> Contention.owns q = true -> i = j.
Proof. intros Hr. apply (Contention.inv_excl c (Contention.inv_reachable c Hr)). Qed.

Definition demo_hart (i : Z) : hart := Hart i None 0 false true [].

Lemma demo_hart_wf i : hart_wf (demo_hart i).
Proof. constructor; simpl; [lia|lia|constructor]. Qed.

Definition demo_contended : Contention.config :=
  (Contention.SpinLock 1 "kmem" (Some 0%nat),
   [(Contention.Inside, pushed (demo_hart 0)); (Contention.Out, demo_hart 1)]).

Lemma spinlock_mutual_exclusion_witness :
  demo_contended.2 !! 0%nat = Some (Contention.Inside, pushed (demo_hart 0)) /\
  forall i h, demo_contended.2 !! i = Some (Contention.Inside, h) -> i = 0%nat.
Proof.
  split; [reflexivity|]. intros i h E. symmetry.
  apply (spinlock_mutual_exclusion demo_contended 0 i Contention.Inside Contention.Inside
           (pushed (demo_hart 0)) h); [|reflexivity|exact E|reflexivity|reflexivity].
  exists (Contention.initlock "kmem",
          [(Contention.Out, demo_hart 0); (Contention.Out, demo_hart 1)]). split.
  - split; [by exists "kmem"%string|].
    intros [|[|k]] p g Eg; simpl in Eg; simplify_eq; split; auto using demo_hart_wf.
  - exact (Contention.run_acquire (Contention.initlock "kmem")
      [(Contention.Out, demo_hart 0); (Contention.Out, demo_hart 1)] 0 (demo_hart 0)
      eq_refl eq_refl eq_refl).
Defined.

(** No interleaving makes acquire, release or pop_off panic for lack of
    bookkeeping, and a hart that is inside acquire, the critical section or
    release has interrupts disabled and a positive nesting depth. *)
Theorem spinlock_never_panics (c : Contention.config) i p h :
  Contention.reachable c -> c.2 !! i = Some (p, h) ->
  p <> Contention.Stopped /\
  (p <> Contention.Out -> h_sie h = false /\ 1 <= h_noff h).
Proof.
  intros Hr E. destruct (Contention.inv_hart c (Contention.inv_reachable c Hr) _ _ _ E)
    as (Hs & g & Hg & ->). split; [done|]. intros Ho. pose proof (noff_nonneg g Hg).
  destruct p; simpl; try done; lia.
Qed.

Lemma spinlock_never_panics_witness :
  Contention.Pushed <> Contention.Out /\ h_sie (pushed (demo_hart 0)) = false.
Proof.
  split; [done|].
  refine (proj1 (proj2 (spinlock_never_panics
    (Contention.initlock "kmem", [(Contention.Pushed, pushed (demo_hart 0))]) 0 Contention.Pushed (pushed (demo_hart 0))
    _ eq_refl) _)); [|done].
  exists (Contention.initlock "kmem", [(Contention.Out, demo_hart 0)]). split.
  - split; [by exists "kmem"%string|].
    intros [|k] p g Eg; simpl in Eg; simplify_eq; split; auto using demo_hart_wf.
  - eapply rtc_l; [|apply rtc_refl].
    exact (Contention.step_push (Contention.initlock "kmem")
      [(Contention.Out, demo_hart 0)] 0 (demo_hart 0) eq_refl).
Defined.



Section matched.
Context {S : Type}.
Implicit Types (h : hart) (s : S).

Lemma wf_iter_pushed n h : hart_wf h -> hart_wf (Nat.iter n pushed h).
Proof. intros. induction n; simpl; auto with xv6. Qed.

Lemma iter_pushed_noff n h : h_noff (Nat.iter n pushed h) = h_noff h + Z.of_nat n.
Proof. induction n as [|n IH]; simpl; [lia|]. rewrite IH. lia. Qed.

Lemma run_pushes n h s :
  forM (upto n) (fun _ => push_off) h s = Done tt (Nat.iter n pushed h) s.
Proof.
  unfold upto. generalize 0%nat as o. revert h. induction n as [|n IH]; intros h o; [done|].
  simpl. krun (push_off_run h s). rewrite IH. by rewrite Nat.iter_swap.
Qed.

(** [k] of the pops undo [k] of the pushes; the last one settles the hart. *)
Lemma run_pops k m h s :
  hart_wf h ->
  forM (upto k) (fun _ => pop_off) (Nat.iter (k + m) pushed h) s
  = Done tt (if decide (0 < k /\ m = 0)%nat then settle h else Nat.iter m pushed h) s.
Proof.
  intros Hwf. unfold upto. set (o := 0%nat) at 1. clearbody o. revert o.
  induction k as [|k IH]; intros o; simpl; [done|].
  rewrite (bind_done _ _ _ _ _ _ _ (pop_off_pushed (Nat.iter (k + m) pushed h) s
    (wf_iter_pushed _ _ Hwf))).
  pose proof (noff_nonneg h Hwf).
  destruct (decide (k + m = 0)%nat) as [Hk|Hk].
  - replace k with 0%nat by lia. replace m with 0%nat by lia.
    done.
  - unfold settle at 1. rewrite iter_pushed_noff. case_if; [lia|]. rewrite IH.
    repeat case_decide; try lia; try done.
Qed.

End matched.

(** push_off and pop_off are matched. After [n] nested calls of push_off the
    nesting depth has grown by [n] and interrupts are off; fewer than [n] calls
    of pop_off leave them off; the [n]-th restores the depth, the locks and the
    interrupt state of the start, whatever that was. *)
Theorem push_pop_matched {S} (n k : nat) (h : hart) (s : S) :
  hart_wf h -> (k < n)%nat ->
  exists h1 h2 h3,
    forM (upto n) (fun _ => push_off) h s = Done tt h1 s /\
    h_noff h1 = h_noff h + Z.of_nat n /\ h_sie h1 = false /\
    forM (upto k) (fun _ => pop_off) h1 s = Done tt h2 s /\ h_sie h2 = false /\
    forM (upto n) (fun _ => pop_off) h1 s = Done tt h3 s /\
    h_noff h3 = h_noff h /\ h_sie h3 = h_sie h /\ h_held h3 = h_held h.
Proof.
  intros Hwf Hk. exists (Nat.iter n pushed h), (Nat.iter (n - k) pushed h), (settle h).
  split_and!; autorewrite with hart; auto.
  - apply run_pushes.
  - apply iter_pushed_noff.
  - destruct n; [lia|done].
  - pose proof (run_pops k (n - k) h s Hwf) as R.
    rewrite decide_False in R by lia. by replace (k + (n - k))%nat with n in R by lia.
  - destruct (n - k)%nat eqn:E; [lia|done].
  - pose proof (run_pops n 0 h s Hwf) as R.
    rewrite decide_True in R by lia. by rewrite Nat.add_0_r in R.
Qed.

Lemma push_pop_matched_witness :
  exists h3, forM (upto 2) (fun _ => pop_off) (pushed (pushed (demo_hart 0))) tt
    = Done tt h3 tt /\ h_sie h3 = true.
Proof.
  destruct (push_pop_matched 2 1 (demo_hart 0) tt (demo_hart_wf 0) ltac:(lia))
    as (h1 & h2 & h3 & E1 & _ & _ & _ & _ & E3 & _ & Hs & _).
  exists h3. split; [|exact Hs]. cbn in E1. injection E1 as <-. exact E3.
Defined.
