(* ===== verification/Printf.v ===== *)
(** * Printf

    kernel/printf.c and the output side of kernel/console.c and kernel/uart.c:
    formatted output to the console. The state is the bytes sent to the UART,
    [pr.locking] and [panicked]; the UART is always ready to transmit. *)
From stdpp Require Import base tactics list numbers strings.
From S2P Require Import Prelude Machine Spinlock.

(** The bytes of a string constant, without the terminating NUL. *)
Definition str (s : string) : list Z :=
  map (fun c => Z.of_nat (Ascii.nat_of_ascii c)) (String.list_ascii_of_string s).

Record tty := Tty { tty_out : list Z; pr_locking : bool; panicked : bool }.

Definition BACKSPACE : Z := 0x100.

(** [for(;;);] when another CPU has panicked. *)
Definition uartputc_sync (c : Z) : K tty unit :=
  push_off;;
  p <- gets panicked;;
  if p then nofuel else
  modify (fun t => Tty (tty_out t ++ [u8 c]) (pr_locking t) (panicked t));;
  pop_off.

Definition consputc (c : Z) : K tty unit :=
  if c =? BACKSPACE then
    uartputc_sync 8;; uartputc_sync 32;; uartputc_sync 8
  else uartputc_sync c.

(** An argument of printf: an integer or pointer, or a string (NULL is [None]). *)
Inductive va := VInt (x : Z) | VStr (s : option (list Z)).

Definition va_int (v : va) : option Z := match v with VInt x => Some x | _ => None end.
Definition va_str (v : va) : option (option (list Z)) := match v with VStr s => Some s | _ => None end.

Definition digits : list Z := str "0123456789abcdef".
Definition digit (d : Z) : Z := default 0 (digits !! Z.to_nat d).

(** The do-while loop of printint: the digits, least significant first. *)
Fixpoint printint_loop (fuel : nat) (x base : Z) : list Z :=
  match fuel with
  | O => []
  | S f =>
      digit (x mod base) ::
      (let x := x / base in if x =? 0 then [] else printint_loop f x base)
  end.

(** A 32-bit number has at most 32 digits in any base. *)
Definition printint (xx base : Z) (sign : bool) : K tty unit :=
  let neg := sign && (xx <? 0) in
  let x := if neg then u32 (- xx) else u32 xx in
  let buf := printint_loop 32 x base in
  let buf := if neg then buf ++ [45] else buf in
  forM (reverse buf) consputc.

Definition printptr (x : Z) : K tty unit :=
  consputc 48;;
  consputc 120;;
  forM (upto 16) (fun i => consputc (digit (Z.shiftr (u64 (Z.shiftl x (4 * Z.of_nat i))) 60))).

Fixpoint printf_loop (fmt : list Z) (ap : list va) : K tty unit :=
  match fmt with
  | [] => ret tt
  | c :: fmt =>
      if negb (c =? 37) then consputc c;; printf_loop fmt ap else
      match fmt with
      | [] => ret tt
      | c :: fmt =>
          if c =? 100 then
            x <- deref (head ap ≫= va_int);;
            printint (i32 x) 10 true;; printf_loop fmt (tail ap)
          else if c =? 120 then
            x <- deref (head ap ≫= va_int);;
            printint (i32 x) 16 true;; printf_loop fmt (tail ap)
          else if c =? 112 then
            x <- deref (head ap ≫= va_int);;
            printptr (u64 x);; printf_loop fmt (tail ap)
          else if c =? 115 then
            s <- deref (head ap ≫= va_str);;
            forM (default (str "(null)") s) consputc;; printf_loop fmt (tail ap)
          else if c =? 37 then consputc 37;; printf_loop fmt ap
          else consputc 37;; consputc c;; printf_loop fmt ap
      end
  end.

Definition printf (fmt : string) (ap : list va) : K tty unit :=
  locking <- gets pr_locking;;
  when locking (acquire L_pr);;
  printf_loop (str fmt) ap;;
  when locking (release L_pr).

(** ** What is printed *)

Definition emit (bs : list Z) (t : tty) : tty := Tty (tty_out t ++ bs) (pr_locking t) (panicked t).

Lemma emit_nil t : emit [] t = t.
Proof. unfold emit. rewrite app_nil_r. by destruct t. Qed.

Lemma emit_app b1 b2 t : emit b2 (emit b1 t) = emit (b1 ++ b2) t.
Proof. unfold emit. simpl. by rewrite app_assoc. Qed.

Lemma uartputc_run c h t :
  hart_wf h -> panicked t = false ->
  exists h', uartputc_sync c h t = Done tt h' (emit [u8 c] t) /\ calm h h'.
Proof.
  intros Hwf Hp. unfold uartputc_sync. krun (push_off_run h t). ksimpl. rewrite Hp.
  ksimpl. exists (settle h). split; [|auto with xv6]. by apply pop_off_pushed.
Qed.

Lemma consputc_run c h t :
  hart_wf h -> panicked t = false -> c <> BACKSPACE ->
  exists h', consputc c h t = Done tt h' (emit [u8 c] t) /\ calm h h'.
Proof.
  intros Hwf Hp Hc. unfold consputc. case_if; [done|]. by apply uartputc_run.
Qed.

Lemma consputs_run bs h t :
  hart_wf h -> panicked t = false -> Forall (fun c => 0 <= c < 256) bs ->
  exists h', forM bs consputc h t = Done tt h' (emit bs t) /\ calm h h'.
Proof.
  intros Hwf Hp Hb. revert h t Hwf Hp. induction Hb as [|c bs Hc _ IH]; intros h t Hwf Hp.
  { exists h. split; [by rewrite emit_nil|auto with xv6]. }
  simpl. destruct (consputc_run c h t Hwf Hp) as (h1 & E1 & Hc1); [unfold BACKSPACE; lia|]. krun E1.
  destruct (IH h1 (emit [u8 c] t)) as (h2 & E2 & Hc2); eauto with xv6.
  exists h2. rewrite E2, emit_app, u8_id by done. split; [done|eauto with xv6].
Qed.

(** [m] prints something and returns. *)
Definition emits (m : K tty unit) : Prop :=
  forall h t, hart_wf h -> panicked t = false ->
  exists bs h', m h t = Done tt h' (emit bs t) /\ calm h h'.

Lemma emits_ret : emits (ret tt).
Proof. intros h t _ _. exists [], h. rewrite emit_nil. auto with xv6. Qed.

Lemma emits_bind m1 m2 : emits m1 -> emits m2 -> emits (m1;; m2).
Proof.
  intros H1 H2 h t Hwf Hp. destruct (H1 h t Hwf Hp) as (b1 & h1 & E1 & Hc1). krun E1.
  destruct (H2 h1 (emit b1 t)) as (b2 & h2 & E2 & Hc2); eauto with xv6.
  exists (b1 ++ b2), h2. rewrite E2, emit_app. eauto with xv6.
Qed.

Lemma emits_uartputc c : emits (uartputc_sync c).
Proof. intros h t Hwf Hp. exists [u8 c]. by apply uartputc_run. Qed.

Lemma emits_consputc c : emits (consputc c).
Proof. unfold consputc. case_if; repeat first [apply emits_uartputc|apply emits_bind]. Qed.

Lemma emits_forM {X} (l : list X) (f : X -> K tty unit) : (forall x, emits (f x)) -> emits (forM l f).
Proof. intros Hf. induction l; [apply emits_ret|by apply emits_bind]. Qed.

Ltac emits :=
  repeat lazymatch goal with
  | |- emits (consputc _) => apply emits_consputc
  | |- emits (ret _) => apply emits_ret
  | |- emits (bind _ _) => apply emits_bind
  | |- emits (forM _ _) => apply emits_forM; intros
  | |- emits (printint _ _ _) => unfold printint
  | |- emits (printptr _) => unfold printptr
  end.

(** The arguments have the types the conversions ask for. *)
Fixpoint typed (fmt : list Z) (ap : list va) : bool :=
  match fmt with
  | c :: fmt =>
      if negb (c =? 37) then typed fmt ap else
      match fmt with
      | [] => true
      | c :: fmt =>
          if (c =? 100) || (c =? 120) || (c =? 112) then
            match ap with VInt _ :: ap => typed fmt ap | _ => false end
          else if c =? 115 then match ap with VStr _ :: ap => typed fmt ap | _ => false end
          else typed fmt ap
      end
  | [] => true
  end.

Lemma emits_printf_loop n fmt ap :
  (length fmt <= n)%nat -> typed fmt ap = true -> emits (printf_loop fmt ap).
Proof.
  revert fmt ap. induction n as [|n IH]; intros [|c fmt] ap Hn Ht; simpl in *; try lia; emits.
  destruct (c =? 37) eqn:Ec; simpl in *; [|emits; apply IH; [lia|done]].
  destruct fmt as [|d fmt]; [emits|]. simpl in Hn.
  assert (IH' : forall ap', typed fmt ap' = true -> emits (printf_loop fmt ap')) by (intros; apply IH; [lia|done]).
  destruct (d =? 100), (d =? 120), (d =? 112), (d =? 115); simpl in Ht.
  all: try (destruct ap as [|[x|x] ap]; try done; simpl; emits; by apply IH').
  case_if; emits; by apply IH'.
Qed.

(** printf returns, whether or not it takes its lock. *)
Lemma printf_run fmt ap h t :
  typed (str fmt) ap = true -> hart_wf h -> panicked t = false -> L_pr ∉ h_held h ->
  exists bs h', printf fmt ap h t = Done tt h' (emit bs t) /\ calm h h'.
Proof.
  intros Ht Hwf Hp Hn. pose proof (emits_printf_loop _ (str fmt) ap (le_n _) Ht) as Hloop.
  unfold printf. ksimpl. destruct (pr_locking t).
  - krun (acquire_run L_pr h t Hn).
    destruct (Hloop (locked L_pr h) t) as (bs & g & E & Hg); [by apply wf_locked|done|]. krun E.
    exists bs, (settle h). split; [|auto with xv6]. unfold when.
    destruct Hg as [-> | ->]; rewrite ?locked_noff by done; by apply release_locked.
  - destruct (Hloop h t Hwf Hp) as (bs & g & E & Hg). krun E. exists bs, g. by ksimpl.
Qed.

(** The digits printint stores, and the number they stand for. *)
Definition digit_value (c : Z) : Z := if c <? 58 then c - 48 else c - 87.

Fixpoint digits_value (base : Z) (ds : list Z) : Z :=
  match ds with [] => 0 | d :: ds => digit_value d + base * digits_value base ds end.

Lemma digit_ok d : 0 <= d < 16 -> digit_value (digit d) = d /\ 48 <= digit d < 128.
Proof.
  intros Hd. assert (Hall : forall n, (n < 16)%nat ->
    digit_value (digit (Z.of_nat n)) = Z.of_nat n /\ 48 <= digit (Z.of_nat n) < 128).
  { intros n Hn. do 16 (destruct n as [|n]; [vm_compute; split; [done|split; [discriminate|done]]|]). lia. }
  specialize (Hall (Z.to_nat d)). rewrite Z2Nat.id in Hall by lia. apply Hall. lia.
Qed.

Lemma printint_loop_spec fuel x base :
  2 <= base <= 16 -> 0 <= x < base ^ Z.of_nat fuel -> (0 < fuel)%nat ->
  let ds := printint_loop fuel x base in
  digits_value base ds = x /\ Forall (fun c => 48 <= c < 128) ds /\
  forall k, (0 < k)%nat -> x < base ^ Z.of_nat k -> (length ds <= k)%nat.
Proof.
  intros Hb. revert x. induction fuel as [|f IH]; intros x Hx Hf; [lia|].
  rewrite Nat2Z.inj_succ, Z.pow_succ_r in Hx by lia. simpl.
  pose proof (Z.mod_pos_bound x base ltac:(lia)) as Hm.
  destruct (digit_ok (x mod base) ltac:(lia)) as [Hv Hr].
  pose proof (Z.div_mod x base ltac:(lia)) as Hdm.
  assert (Hd : 0 <= x / base) by (apply Z.div_pos; lia).
  case_if.
  - simpl. split_and!; [lia|by constructor|]. intros k Hk _. simpl. lia.
  - destruct f as [|f'].
    { assert (x / base = 0) by (apply Z.div_small; lia). done. }
    destruct (IH (x / base)) as (Hv' & Hr' & Hl'); [|lia|].
    { split; [done|]. apply Z.div_lt_upper_bound; lia. }
    cbn [digits_value]. rewrite Hv, Hv'. split_and!; [lia|by constructor|].
    intros k Hk Hxk. destruct k as [|k]; [lia|].
    rewrite Nat2Z.inj_succ, Z.pow_succ_r in Hxk by lia.
    assert (x / base < base ^ Z.of_nat k) by (apply Z.div_lt_upper_bound; lia).
    destruct k as [|k]; [simpl in *; lia|]. specialize (Hl' (S k) ltac:(lia) ltac:(lia)).
    cbn [length]. lia.
Qed.

(** What printing an [int] sends to the console. *)
Definition decimal (xx : Z) : list Z :=
  let ds := printint_loop 32 (if xx <? 0 then u32 (- xx) else u32 xx) 10 in
  reverse (if xx <? 0 then ds ++ [45] else ds).

(** The number a decimal numeral stands for. *)
Definition parse_decimal (bs : list Z) : Z :=
  match bs with
  | 45 :: bs' => - digits_value 10 (reverse bs')
  | _ => digits_value 10 (reverse bs)
  end.

Lemma parse_decimal_pos bs :
  Forall (fun c => 48 <= c < 128) bs -> parse_decimal bs = digits_value 10 (reverse bs).
Proof.
  intros Hf. destruct Hf as [|c bs Hc _]; [done|]. unfold parse_decimal.
  assert (Hne : c <> 45) by lia. clear Hc.
  repeat (case_match; try done).
Qed.

Lemma decimal_facts xx :
  - 2 ^ 31 <= xx < 2 ^ 31 ->
  parse_decimal (decimal xx) = xx /\ (length (decimal xx) <= 11)%nat /\
  Forall (fun c => 0 <= c < 256) (decimal xx).
Proof.
  intros Hx. unfold decimal.
  assert (Hx' : (if xx <? 0 then u32 (- xx) else u32 xx) = Z.abs xx).
  { case_if; rewrite u32_id by lia; lia. }
  rewrite Hx'. assert (Hr : 0 <= Z.abs xx < 10 ^ 10) by lia. clear Hx'.
  destruct (printint_loop_spec 32 (Z.abs xx) 10) as (Hv & Hf & Hl); [lia| |lia|].
  { split; [lia|]. apply Z.lt_trans with (10 ^ 10); [lia|]. by apply Z.pow_lt_mono_r. }
  specialize (Hl 10%nat ltac:(lia) (proj2 Hr)).
  generalize dependent (printint_loop 32 (Z.abs xx) 10). intros ds Hv Hf Hl.
  apply Forall_reverse in Hf.
  assert (Hw : Forall (fun c => 0 <= c < 256) (reverse ds)).
  { eapply Forall_impl; [exact Hf|]. intros c ?. simpl in *. lia. }
  case_if.
  - rewrite reverse_app. split_and!.
    + change (- digits_value 10 (reverse (reverse ds)) = xx). rewrite reverse_involutive. lia.
    + rewrite length_app, !length_reverse. simpl. lia.
    + apply Forall_app. split; [|done]. constructor; [lia|constructor].
  - rewrite parse_decimal_pos, reverse_involutive, length_reverse by done. split_and!; [lia|lia|done].
Qed.

Lemma printint_run xx h t :
  - 2 ^ 31 <= xx < 2 ^ 31 -> hart_wf h -> panicked t = false ->
  exists h', printint xx 10 true h t = Done tt h' (emit (decimal xx) t) /\ calm h h'.
Proof.
  intros Hx Hwf Hp. destruct (decimal_facts xx Hx) as (_ & _ & Hf).
  apply (consputs_run (decimal xx) h t Hwf Hp Hf).
Qed.

(** C40: [printint xx 10 1] (the [%d] of printf) prints, for every [int], a
    numeral of at most 11 characters that fits the 16-byte buffer of printint
    and that reads back as the same number; nothing else of the console state
    changes, no panic is raised and the interrupt state is kept. *)
Theorem printint_prints_number xx h t :
  - 2 ^ 31 <= xx < 2 ^ 31 -> hart_wf h -> panicked t = false ->
  exists h' bs,
    printint xx 10 true h t = Done tt h' (Tty (tty_out t ++ bs) (pr_locking t) false) /\
    parse_decimal bs = xx /\ (length bs <= 11)%nat /\ calm h h'.
Proof.
  intros Hx Hwf Hp. destruct (printint_run xx h t Hx Hwf Hp) as (h' & E & Hc).
  destruct (decimal_facts xx Hx) as (Hd & Hl & _).
  exists h', (decimal xx). rewrite E. unfold emit. by rewrite Hp.
Qed.

Definition demo_tty : tty := Tty [] true false.

Lemma printint_prints_number_witness :
  exists h' bs,
    printint (-2147483648) 10 true (demo_hart 0) demo_tty = Done tt h' (Tty bs true false) /\
    parse_decimal bs = -2147483648 /\ (length bs <= 11)%nat.
Proof.
  destruct (printint_prints_number (-2147483648) (demo_hart 0) demo_tty) as (h' & bs & E & H1 & H2 & _);
    [lia|apply demo_hart_wf|reflexivity|].
  exists h', bs. exact (conj E (conj H1 H2)).
Defined.
