(* ===== verification/Bytes.v ===== *)
(** * Bytes

    Byte-addressed memory, little-endian words, and kernel/string.c.

    A [const char *] that is only read is a function from offsets to bytes:
    [ptr m a] reads memory [m] from address [a], [buf l] reads an array held as
    a list. Functions that write through a pointer give the bytes they write,
    or, where source and destination may overlap, transform the memory. *)
From stdpp Require Import base tactics list numbers gmap strings.
From S2P Require Import Prelude.

(** ** Memory *)

Abbreviation mem := (gmap Z Z).

Definition rd (m : mem) (a : Z) : Z := default 0 (m !! a).
Definition wr (m : mem) (a v : Z) : mem := <[a := u8 v]> m.

Fixpoint read_bytes (m : mem) (a : Z) (n : nat) : list Z :=
  match n with
  | O => []
  | S n' => rd m a :: read_bytes m (a + 1) n'
  end.

Fixpoint write_bytes (m : mem) (a : Z) (bs : list Z) : mem :=
  match bs with
  | [] => m
  | b :: bs' => write_bytes (wr m a b) (a + 1) bs'
  end.

(** Little-endian integers, as the RISC-V loads and stores lay them out. *)
Fixpoint le_bytes (n : nat) (v : Z) : list Z :=
  match n with
  | O => []
  | S n' => v mod 256 :: le_bytes n' (v / 256)
  end.

Fixpoint le_value (bs : list Z) : Z :=
  match bs with
  | [] => 0
  | b :: bs' => b + 256 * le_value bs'
  end.

Definition load64 (m : mem) (a : Z) : Z := le_value (read_bytes m a 8).
Definition store64 (m : mem) (a v : Z) : mem := write_bytes m a (le_bytes 8 v).

(** Every byte of memory is a byte. *)
Definition mem_ok (m : mem) : Prop := forall a, 0 <= rd m a < 256.

Definition ptr (m : mem) (a : Z) : nat -> Z := fun i => rd m (a + Z.of_nat i).
Definition buf (l : list Z) : nat -> Z := fun i => default 0 (l !! i).
Definition shift (p : nat -> Z) : nat -> Z := fun i => p (S i).

(** ** kernel/string.c *)

Fixpoint memset_loop (m : mem) (cdst c : Z) (n : nat) : mem :=
  match n with
  | O => m
  | S n' => memset_loop (wr m cdst c) (cdst + 1) c n'
  end.

Definition memset (m : mem) (dst c n : Z) : mem :=
  memset_loop m dst c (Z.to_nat (u32 n)).

(** [while(n-- > 0) *d++ = *s++] *)
Fixpoint copy_up (m : mem) (d s : Z) (n : nat) : mem :=
  match n with
  | O => m
  | S n' => copy_up (wr m d (rd m s)) (d + 1) (s + 1) n'
  end.

(** [while(n-- > 0) *--d = *--s] *)
Fixpoint copy_down (m : mem) (d s : Z) (n : nat) : mem :=
  match n with
  | O => m
  | S n' => copy_down (wr m (d - 1) (rd m (s - 1))) (d - 1) (s - 1) n'
  end.

Definition memmove (m : mem) (dst src n : Z) : mem :=
  let n := u32 n in
  if n =? 0 then m else
  if (src <? dst) && (dst <? src + n)
  then copy_down m (dst + n) (src + n) (Z.to_nat n)
  else copy_up m dst src (Z.to_nat n).

Definition memcpy (m : mem) (dst src n : Z) : mem := memmove m dst src n.

Fixpoint memcmp (s1 s2 : nat -> Z) (n : nat) : Z :=
  match n with
  | O => 0
  | S n' =>
      if negb (u8 (s1 0%nat) =? u8 (s2 0%nat)) then u8 (s1 0%nat) - u8 (s2 0%nat)
      else memcmp (shift s1) (shift s2) n'
  end.

Fixpoint strncmp (p q : nat -> Z) (n : nat) : Z :=
  match n with
  | O => 0
  | S n' =>
      if truthy (p 0%nat) && (p 0%nat =? q 0%nat)
      then strncmp (shift p) (shift q) n'
      else u8 (p 0%nat) - u8 (q 0%nat)
  end.

(** The bytes [strncpy] stores at [s], [s+1], ...: the copy loop, then the
    padding loop. *)
Fixpoint strncpy (t : nat -> Z) (n : nat) : list Z :=
  match n with
  | O => []
  | S n' =>
      if truthy (t 0%nat) then t 0%nat :: strncpy (shift t) n'
      else t 0%nat :: replicate n' 0
  end.

(** The copy loop of [safestrcpy] with [--n] already evaluated to [n]; the last
    byte is the store [*s = 0]. When the loop stops at a copied NUL, [s] is past
    it and [*s = 0] stores one more. *)
Fixpoint safestrcpy_loop (t : nat -> Z) (n : nat) : list Z :=
  match n with
  | O => [0]
  | S n' =>
      if truthy (t 0%nat) then t 0%nat :: safestrcpy_loop (shift t) n'
      else [t 0%nat; 0]
  end.

Definition safestrcpy (t : nat -> Z) (n : Z) : list Z :=
  if n <=? 0 then [] else safestrcpy_loop t (Z.to_nat (n - 1)).

(** The loop has no bound in C; [fuel] bounds the scan, [None] means no NUL was
    met within it. *)
Fixpoint strlen (fuel : nat) (s : nat -> Z) : option Z :=
  match fuel with
  | O => None
  | S f => if truthy (s 0%nat) then (fun n => n + 1) <$> strlen f (shift s) else Some 0
  end.

(** ** Lookup after a write *)

Lemma lookup_write_bytes m a bs x :
  write_bytes m a bs !! x =
  if decide (a <= x < a + Z.of_nat (length bs))
  then u8 <$> bs !! Z.to_nat (x - a) else m !! x.
Proof.
  revert m a. induction bs as [|b bs IH]; intros m a; simpl.
  { by rewrite decide_False by lia. }
  rewrite IH. destruct (decide (x = a)) as [->|Hx].
  - rewrite decide_False, decide_True by lia. unfold wr.
    by rewrite lookup_insert_eq, Z.sub_diag.
  - unfold wr. rewrite lookup_insert_ne by done.
    repeat case_decide; try lia; [|done].
    replace (Z.to_nat (x - a)) with (S (Z.to_nat (x - (a + 1)))) by lia. done.
Qed.

Lemma rd_write_bytes m a bs x :
  rd (write_bytes m a bs) x =
  if decide (a <= x < a + Z.of_nat (length bs))
  then u8 (default 0 (bs !! Z.to_nat (x - a))) else rd m x.
Proof.
  unfold rd. rewrite lookup_write_bytes. case_decide; [|done].
  by destruct (bs !! _) eqn:E.
Qed.

Lemma rd_write_other m a bs x :
  ~ (a <= x < a + Z.of_nat (length bs)) -> rd (write_bytes m a bs) x = rd m x.
Proof. intros. rewrite rd_write_bytes. by rewrite decide_False. Qed.

Lemma length_read_bytes m a n : length (read_bytes m a n) = n.
Proof. revert a. induction n; intros; simpl; auto. Qed.

Lemma lookup_read_bytes m a n i :
  (i < n)%nat -> read_bytes m a n !! i = Some (rd m (a + Z.of_nat i)).
Proof.
  revert a i. induction n as [|n IH]; intros a i Hi; [lia|].
  destruct i; simpl; [f_equal; f_equal; lia|]. rewrite IH by lia. do 2 f_equal. lia.
Qed.

Lemma read_bytes_ext m1 m2 a n :
  (forall x, a <= x < a + Z.of_nat n -> rd m1 x = rd m2 x) ->
  read_bytes m1 a n = read_bytes m2 a n.
Proof.
  revert a. induction n as [|n IH]; intros a Hx; [done|]. simpl.
  rewrite (Hx a) by lia. f_equal. apply IH. intros. apply Hx. lia.
Qed.

Lemma read_bytes_app m a n1 n2 :
  read_bytes m a (n1 + n2) = read_bytes m a n1 ++ read_bytes m (a + Z.of_nat n1) n2.
Proof.
  revert a. induction n1 as [|n1 IH]; intros a; simpl.
  - by rewrite Z.add_0_r.
  - rewrite IH. do 3 f_equal. lia.
Qed.

Definition bytes_ok (bs : list Z) : Prop := Forall (fun b => 0 <= b < 256) bs.

Lemma read_bytes_ok m a n : mem_ok m -> bytes_ok (read_bytes m a n).
Proof.
  intros Hm. revert a. induction n as [|n IH]; intros a; simpl; constructor; auto.
  apply IH.
Qed.

(** Reading back what was written. *)
Lemma read_write_bytes m a bs :
  bytes_ok bs -> read_bytes (write_bytes m a bs) a (length bs) = bs.
Proof.
  intros Hok. apply list_eq. intros i.
  destruct (decide (i < length bs)%nat) as [Hi|Hi].
  - rewrite lookup_read_bytes by done. rewrite rd_write_bytes, decide_True by lia.
    replace (Z.to_nat (a + Z.of_nat i - a)) with i by lia.
    destruct (bs !! i) as [b|] eqn:E; [|apply lookup_ge_None in E; lia]. simpl.
    rewrite u8_id; [done|]. eapply Forall_lookup_1 in E; [|done]. done.
  - rewrite !(lookup_ge_None_2); rewrite ?length_read_bytes; auto; lia.
Qed.

Lemma write_bytes_ok m a bs : mem_ok m -> mem_ok (write_bytes m a bs).
Proof. intros Hm x. rewrite rd_write_bytes. case_decide; [apply u8_range|apply Hm]. Qed.

Lemma write_bytes_app m a bs1 bs2 :
  write_bytes m a (bs1 ++ bs2)
  = write_bytes (write_bytes m a bs1) (a + Z.of_nat (length bs1)) bs2.
Proof.
  revert m a. induction bs1 as [|b bs1 IH]; intros m a; simpl.
  - by rewrite Z.add_0_r.
  - rewrite IH. f_equal. lia.
Qed.

(** ** Words *)

Lemma length_le_bytes n v : length (le_bytes n v) = n.
Proof. revert v. induction n; intros; simpl; auto. Qed.

Lemma le_bytes_ok n v : bytes_ok (le_bytes n v).
Proof.
  revert v. induction n as [|n IH]; intros v; simpl; constructor; [|apply IH].
  apply Z.mod_pos_bound. lia.
Qed.

Lemma le_value_le_bytes n v : le_value (le_bytes n v) = v mod 256 ^ Z.of_nat n.
Proof.
  revert v. induction n as [|n IH]; intros v; simpl le_bytes; simpl le_value.
  - by rewrite Z.mod_1_r.
  - rewrite IH, Nat2Z.inj_succ, Z.pow_succ_r by lia.
    rewrite (Z.rem_mul_r v 256) by lia. lia.
Qed.

Lemma le_value_range bs : bytes_ok bs -> 0 <= le_value bs < 256 ^ Z.of_nat (length bs).
Proof.
  induction 1 as [|b bs Hb _ IH]; simpl le_value; [done|].
  simpl length. rewrite Nat2Z.inj_succ, Z.pow_succ_r by lia. lia.
Qed.

Lemma le_bytes_le_value bs : bytes_ok bs -> le_bytes (length bs) (le_value bs) = bs.
Proof.
  induction 1 as [|b bs Hb _ IH]; simpl le_value; simpl length; [done|]. simpl le_bytes.
  replace ((b + 256 * le_value bs) / 256) with (le_value bs) by zlia.
  f_equal; [zlia|done].
Qed.

Lemma load64_store64 m a v : load64 (store64 m a v) a = u64 v.
Proof.
  unfold load64, store64.
  pose proof (read_write_bytes m a (le_bytes 8 v) (le_bytes_ok 8 v)) as E.
  rewrite length_le_bytes in E. rewrite E, le_value_le_bytes. done.
Qed.

Lemma load64_ext m1 m2 a :
  (forall x, a <= x < a + 8 -> rd m1 x = rd m2 x) -> load64 m1 a = load64 m2 a.
Proof. intros. unfold load64. f_equal. by apply read_bytes_ext. Qed.

Lemma rd_store64_other m a v x :
  ~ (a <= x < a + 8) -> rd (store64 m a v) x = rd m x.
Proof. intros. unfold store64. apply rd_write_other. by rewrite length_le_bytes. Qed.

Lemma load64_store64_other m a b v :
  b + 8 <= a \/ a + 8 <= b -> load64 (store64 m a v) b = load64 m b.
Proof. intros. apply load64_ext. intros. apply rd_store64_other. lia. Qed.

Lemma load64_range m a : mem_ok m -> 0 <= load64 m a < 2 ^ 64.
Proof.
  intros Hm. unfold load64.
  pose proof (le_value_range _ (read_bytes_ok m a 8 Hm)) as Hr.
  by rewrite length_read_bytes in Hr.
Qed.

Lemma store64_ok m a v : mem_ok m -> mem_ok (store64 m a v).
Proof. apply write_bytes_ok. Qed.

(** ** string.c against its meaning *)

Lemma memset_write m dst c n :
  memset m dst c n = write_bytes m dst (replicate (Z.to_nat (u32 n)) c).
Proof.
  unfold memset. generalize (Z.to_nat (u32 n)). intros k. revert m dst.
  induction k as [|k IH]; intros; simpl; [done|]. apply IH.
Qed.

Lemma rd_memset m dst c n x :
  rd (memset m dst c n) x = if decide (dst <= x < dst + u32 n) then u8 c else rd m x.
Proof.
  rewrite memset_write, rd_write_bytes, length_replicate.
  pose proof (u32_range n). rewrite Z2Nat.id by lia. case_decide; [|done].
  rewrite lookup_replicate_2; [done|]. lia.
Qed.

Lemma memset_ok m dst c n : mem_ok m -> mem_ok (memset m dst c n).
Proof. intros. rewrite memset_write. by apply write_bytes_ok. Qed.

(** Copying upwards reads every source byte before it is overwritten unless the
    destination starts inside the source. *)
Lemma copy_up_write m d s n :
  mem_ok m -> d <= s \/ s + Z.of_nat n <= d ->
  copy_up m d s n = write_bytes m d (read_bytes m s n).
Proof.
  revert m d s. induction n as [|n IH]; intros m d s Hm Hds; [done|]. simpl.
  assert (Hm' : mem_ok (wr m d (rd m s))) by apply (write_bytes_ok m d [rd m s] Hm).
  destruct (decide (d = s)) as [->|Hne].
  - assert (Hid : forall x, rd (wr m s (rd m s)) x = rd m x).
    { intros x. unfold rd, wr. destruct (decide (x = s)) as [->|].
      - rewrite lookup_insert_eq. simpl. apply u8_id, Hm.
      - by rewrite lookup_insert_ne. }
    rewrite IH by (auto; lia). f_equal. apply read_bytes_ext. intros. apply Hid.
  - rewrite IH by (auto; lia). f_equal. apply read_bytes_ext. intros x Hx.
    apply (rd_write_other m d [rd m s]). simpl. lia.
Qed.

(** Copying downwards is right when the source starts below the destination. *)
Lemma copy_down_lookup m d s n x :
  s <= d ->
  copy_down m d s n !! x =
  if decide (d - Z.of_nat n <= x < d) then Some (u8 (rd m (x - d + s))) else m !! x.
Proof.
  revert m d s. induction n as [|n IH]; intros m d s Hds; simpl copy_down.
  { by rewrite decide_False by lia. }
  rewrite IH by lia. unfold wr.
  destruct (decide (x = d - 1)) as [->|Hx].
  - rewrite decide_False, decide_True by lia. rewrite lookup_insert_eq.
    do 3 f_equal. lia.
  - rewrite lookup_insert_ne by done.
    repeat case_decide; try lia; [|done].
    do 2 f_equal. replace (x - (d - 1) + (s - 1)) with (x - d + s) by lia.
    unfold rd. rewrite lookup_insert_ne by lia. done.
Qed.

Lemma copy_down_write m d s n :
  s <= d ->
  copy_down m (d + Z.of_nat n) (s + Z.of_nat n) n = write_bytes m d (read_bytes m s n).
Proof.
  intros Hds. apply map_eq. intros x. rewrite copy_down_lookup by lia.
  rewrite lookup_write_bytes, length_read_bytes.
  repeat case_decide; try lia; [|done].
  rewrite lookup_read_bytes by lia. simpl. do 3 f_equal. lia.
Qed.

Lemma memmove_write m dst src n :
  mem_ok m -> memmove m dst src n = write_bytes m dst (read_bytes m src (Z.to_nat (u32 n))).
Proof.
  intros Hm. unfold memmove. pose proof (u32_range n). case_if; [by rewrite E|].
  case_if.
  - pose proof (copy_down_write m dst src (Z.to_nat (u32 n))) as Hd.
    rewrite Z2Nat.id in Hd by lia. apply Hd. lia.
  - apply copy_up_write; [done|]. rewrite Z2Nat.id by lia.
    destruct E0; bool_to_prop; lia.
Qed.

Lemma memmove_ok m dst src n : mem_ok m -> mem_ok (memmove m dst src n).
Proof. intros. rewrite memmove_write by done. by apply write_bytes_ok. Qed.

(** ** C strings *)

(** [p] points at the NUL-terminated string [s] of non-NUL characters. *)
Definition cstr_at (p : nat -> Z) (s : list Z) : Prop :=
  (forall i b, s !! i = Some b -> p i = b /\ 0 < b < 256) /\ p (length s) = 0.

Lemma cstr_at_nil p : cstr_at p [] <-> p 0%nat = 0.
Proof. unfold cstr_at. simpl. split; [by intros [_ ?]|]. intros. split; [|done]. intros i b. by rewrite lookup_nil. Qed.

Lemma cstr_at_cons p b s :
  cstr_at p (b :: s) <-> p 0%nat = b /\ 0 < b < 256 /\ cstr_at (shift p) s.
Proof.
  unfold cstr_at, shift. split.
  - intros [Hs Hz]. pose proof (Hs 0%nat b eq_refl). split_and!; try lia; [|done].
    intros i c Hi. by apply (Hs (S i)).
  - intros (H0 & Hb & Hs & Hz). split; [|done]. intros [|i] c Hi; simpl in Hi.
    + by simplify_eq.
    + by apply Hs.
Qed.

Lemma truthy_byte b : 0 < b -> truthy b = true.
Proof. intros. unfold truthy. destruct (Z.eqb_spec b 0); [lia|done]. Qed.

Lemma strncmp_eq0 p q s t n :
  cstr_at p s -> cstr_at q t -> strncmp p q n = 0 <-> take n s = take n t.
Proof.
  revert p q s t. induction n as [|n IH]; intros p q s t Hp Hq; [done|]. simpl.
  destruct s as [|a s], t as [|b t];
    rewrite ?cstr_at_nil, ?cstr_at_cons in Hp;
    rewrite ?cstr_at_nil, ?cstr_at_cons in Hq; simpl.
  - by rewrite Hp, Hq.
  - destruct Hq as (Eq & Hb & _). rewrite Hp, Eq. simpl.
    rewrite (u8_id b) by lia. change (u8 0) with 0. split; [intros; lia|done].
  - destruct Hp as (Ep & Ha & _). rewrite Hq, Ep, truthy_byte by lia.
    destruct (Z.eqb_spec a 0); [lia|]. simpl. rewrite (u8_id a) by lia.
    change (u8 0) with 0. split; [intros; lia|done].
  - destruct Hp as (Ep & Ha & Hp), Hq as (Eq & Hb & Hq). rewrite Ep, Eq, truthy_byte by lia.
    destruct (Z.eqb_spec a b) as [->|Hab]; simpl.
    + rewrite (IH _ _ s t Hp Hq). split; [by intros ->|by intros [= ->]].
    + rewrite !u8_id by lia. split; [intros; lia|by intros [= ? ?]].
Qed.

Lemma strncpy_take t s n :
  cstr_at t s -> strncpy t n = take n (s ++ replicate n 0).
Proof.
  revert t s. induction n as [|n IH]; intros t s Ht; [done|]. simpl.
  destruct s as [|b s]; rewrite ?cstr_at_nil, ?cstr_at_cons in Ht; simpl.
  - rewrite Ht. simpl. f_equal. by rewrite take_ge by (rewrite length_replicate; lia).
  - destruct Ht as (Et & Hb & Ht). rewrite Et, truthy_byte by lia. f_equal.
    rewrite (IH _ _ Ht). change (0 :: replicate n 0) with (replicate (S n) 0).
    rewrite !take_app, !take_replicate. do 2 f_equal. lia.
Qed.

Lemma safestrcpy_loop_spec t s n :
  cstr_at t s ->
  (length (safestrcpy_loop t n) <= S n)%nat /\ cstr_at (buf (safestrcpy_loop t n)) (take n s).
Proof.
  revert t s. induction n as [|n IH]; intros t s Ht; [done|]. simpl.
  destruct s as [|b s]; rewrite ?cstr_at_nil, ?cstr_at_cons in Ht; simpl.
  - rewrite Ht. simpl. split; [lia|]. by apply cstr_at_nil.
  - destruct Ht as (Et & Hb & Ht). rewrite Et, truthy_byte by lia. simpl.
    destruct (IH _ _ Ht). split; [lia|]. apply cstr_at_cons. split_and!; try lia; done.
Qed.

Lemma strlen_spec p s fuel :
  cstr_at p s -> (length s < fuel)%nat -> strlen fuel p = Some (Z.of_nat (length s)).
Proof.
  revert p s. induction fuel as [|f IH]; intros p s Hp Hf; [lia|]. simpl.
  destruct s as [|b s]; rewrite ?cstr_at_nil, ?cstr_at_cons in Hp; simpl.
  - by rewrite Hp.
  - destruct Hp as (Ep & Hb & Hp). rewrite Ep, truthy_byte by lia.
    rewrite (IH _ _ Hp) by (simpl in Hf; lia). simpl. f_equal. lia.
Qed.

(** ** Properties *)

(** Memmove copies correctly for every overlap of source and destination:
    afterwards the destination holds the bytes the source held before, and every
    other byte is unchanged. memset and memcpy have their usual meaning. *)
Theorem memmove_correct (m : mem) (dst src n : Z) :
  mem_ok m -> 0 <= n < 2 ^ 32 ->
  (forall i, 0 <= i < n -> rd (memmove m dst src n) (dst + i) = rd m (src + i)) /\
  (forall x, ~ (dst <= x < dst + n) -> rd (memmove m dst src n) x = rd m x) /\
  memcpy m dst src n = memmove m dst src n.
Proof.
  intros Hm Hn. unfold memcpy. rewrite memmove_write, u32_id by done. split_and!; [| |done].
  - intros i Hi. rewrite rd_write_bytes, length_read_bytes, decide_True by lia.
    rewrite lookup_read_bytes by lia. simpl. rewrite u8_id by apply Hm. f_equal. lia.
  - intros x Hx. apply rd_write_other. rewrite length_read_bytes. lia.
Qed.

Definition demo_mem : mem := list_to_map [(100, 104); (101, 105); (102, 33)].

Lemma demo_mem_ok : mem_ok demo_mem.
Proof.
  intros a. unfold rd, demo_mem. simpl.
  destruct (decide (a = 100)) as [->|]; [done|].
  destruct (decide (a = 101)) as [->|]; [done|].
  destruct (decide (a = 102)) as [->|]; [done|].
  rewrite !lookup_insert_ne, lookup_empty by done. done.
Qed.

Lemma memmove_correct_witness :
  rd (memmove demo_mem 101 100 3) (101 + 2) = 33 /\ rd (memmove demo_mem 101 100 3) 100 = 104.
Proof.
  destruct (memmove_correct demo_mem 101 100 3 demo_mem_ok ltac:(lia)) as (H1 & H2 & _).
  split; [rewrite H1 by lia; reflexivity|rewrite H2 by lia; reflexivity].
Defined.

(** The string functions of string.c on NUL-terminated strings: strncmp is 0
    exactly when the first [n] characters agree, strncpy stores the first [n]
    characters padded with NULs, safestrcpy stores at most [n] bytes and always a
    NUL-terminated prefix of at most [n - 1] characters, strlen is the length. *)
Theorem cstring_functions (p q : nat -> Z) (s t : list Z) (n : nat) :
  cstr_at p s -> cstr_at q t ->
  (strncmp p q n = 0 <-> take n s = take n t) /\
  strncpy p n = take n (s ++ replicate n 0) /\
  ((0 < n)%nat ->
     (length (safestrcpy p (Z.of_nat n)) <= n)%nat /\
     cstr_at (buf (safestrcpy p (Z.of_nat n))) (take (n - 1) s)) /\
  strlen (S (length s)) p = Some (Z.of_nat (length s)).
Proof.
  intros Hp Hq. split_and!.
  - by apply strncmp_eq0.
  - by apply strncpy_take.
  - intros Hn. unfold safestrcpy. case_if; [lia|].
    replace (Z.to_nat (Z.of_nat n - 1)) with (n - 1)%nat by lia.
    destruct (safestrcpy_loop_spec p s (n - 1) Hp). split; [lia|done].
  - apply strlen_spec; auto.
Qed.

Lemma cstring_functions_witness :
  safestrcpy (buf [104; 105; 33; 0]) 3 = [104; 105; 0] /\
  cstr_at (buf (safestrcpy (buf [104; 105; 33; 0]) 3)) [104; 105].
Proof.
  assert (Hs : cstr_at (buf [104; 105; 33; 0]) [104; 105; 33]).
  { rewrite !cstr_at_cons, cstr_at_nil. done. }
  split; [reflexivity|].
  exact (proj2 (proj1 (proj2 (proj2 (cstring_functions _ _ _ _ 3 Hs Hs))) ltac:(lia))).
Defined.

(** Clients reason with the lemmas above; unification never runs the loops. *)
#[global] Opaque load64 store64 memset memmove memcpy.
