(* ===== verification/Queue.v ===== *)
(** * Queue

    kernel/queue.c: the ring buffer behind each level of the multi-level
    feedback queue ([struct Queue] of kernel/proc.h). The operations are shown
    to implement a first-in first-out list ([Module Fifo]). *)
From stdpp Require Import base tactics list numbers strings sets.
From S2P Require Import Prelude Machine.

(** kernel/param.h *)
Definition NPROC : nat := 64.
Definition QSLOTS : Z := Z.of_nat NPROC + 1.

(** A [struct proc *] is the index of the process in the table, [None] the null
    pointer the array is zero-initialised with. *)
Record Queue := MkQueue {
  q_head : Z;
  q_tail : Z;
  q_array : list (option nat);
  q_size : Z;
}.

#[export] Instance Queue_eq_dec : EqDecision Queue.
Proof. solve_decision. Defined.

Definition set_q_head (v : Z) (q : Queue) := MkQueue v (q_tail q) (q_array q) (q_size q).
Definition set_q_tail (v : Z) (q : Queue) := MkQueue (q_head q) v (q_array q) (q_size q).
Definition set_q_array (v : list (option nat)) (q : Queue) :=
  MkQueue (q_head q) (q_tail q) v (q_size q).
Definition set_q_size (v : Z) (q : Queue) := MkQueue (q_head q) (q_tail q) (q_array q) v.

(** The zero-initialised global [mlfq[i]]. *)
Definition empty_queue : Queue := MkQueue 0 0 (replicate (S NPROC) None) 0.

(** [list->array[i]] *)
Definition slot (q : Queue) (i : Z) : option nat := default None (q_array q !! Z.to_nat i).

Definition push (element : nat) : K Queue unit :=
  list <- gets id;;
  if q_size list =? Z.of_nat NPROC then panic "Proccess limit exceeded" else
  modify (fun q => set_q_array (<[Z.to_nat (q_tail q) := Some element]> (q_array q)) q);;
  modify (fun q => set_q_tail (q_tail q + 1) q);;
  list <- gets id;;
  when (q_tail list =? QSLOTS) (modify (set_q_tail 0));;
  modify (fun q => set_q_size (q_size q + 1) q).

Definition pop : K Queue unit :=
  list <- gets id;;
  if q_size list =? 0 then panic "Poping from empty queue" else
  modify (fun q => set_q_head (q_head q + 1) q);;
  list <- gets id;;
  when (q_head list =? QSLOTS) (modify (set_q_head 0));;
  modify (fun q => set_q_size (q_size q - 1) q).

Definition front : K Queue (option nat) :=
  list <- gets id;;
  if q_head list =? q_tail list then ret None else
  ret (slot list (q_head list)).

(** The scan of qerase from [curr]; [pidof] reads [->pid] of a process.
    [fuel] bounds the number of slots visited. *)
Fixpoint qerase_loop (fuel : nat) (pidof : nat -> Z) (pid : Z) (curr : Z) : K Queue unit :=
  list <- gets id;;
  if curr =? q_tail list then ret tt else
  match fuel with
  | O => nofuel
  | S f =>
      let next := (curr + 1) mod QSLOTS in
      p <- deref (slot list curr);;
      when (pidof p =? pid)
        (modify (fun q =>
           set_q_array (<[Z.to_nat next := slot q curr]>
                          (<[Z.to_nat curr := slot q next]> (q_array q))) q));;
      qerase_loop f pidof pid next
  end.

Definition qerase (pidof : nat -> Z) (pid : Z) : K Queue unit :=
  list <- gets id;;
  qerase_loop (S NPROC) pidof pid (q_head list);;
  modify (fun q => set_q_tail (q_tail q - 1) q);;
  modify (fun q => set_q_size (q_size q - 1) q);;
  list <- gets id;;
  when (q_tail list <? 0) (modify (set_q_tail (Z.of_nat NPROC))).

(** ** Abstract specification *)
Module Fifo.

Definition enq (e : nat) (l : list nat) : option (list nat) :=
  if (length l =? NPROC)%nat then None else Some (l ++ [e]).
Definition deq (l : list nat) : option (list nat) :=
  match l with [] => None | _ :: l' => Some l' end.
Definition peek (l : list nat) : option nat := hd_error l.
(** Remove the first process whose pid is [pid]. *)
Definition erase (pidof : nat -> Z) (pid : Z) (l : list nat) : list nat :=
  match list_find (fun p => pidof p = pid) l with
  | Some (j, _) => delete j l
  | None => l
  end.

End Fifo.

(** ** Representation *)

(** The index of the [i]-th element of the queue. *)
Definition ring (q : Queue) (i : nat) : Z := (q_head q + Z.of_nat i) mod QSLOTS.

(** [q] holds the processes [l], oldest first. *)
Record rep (q : Queue) (l : list nat) : Prop := {
  rep_len : length (q_array q) = S NPROC;
  rep_head : 0 <= q_head q < QSLOTS;
  rep_size : q_size q = Z.of_nat (length l);
  rep_bound : (length l <= NPROC)%nat;
  rep_tail : q_tail q = ring q (length l);
  rep_slots : forall i p, l !! i = Some p -> slot q (ring q i) = Some p;
}.

Lemma rep_empty : rep empty_queue [].
Proof. constructor; simpl; try done; lia. Qed.

Lemma ring_range q i : 0 <= ring q i < QSLOTS.
Proof. apply Z.mod_pos_bound. done. Qed.

Lemma ring_inj q i j :
  (i <= NPROC)%nat -> (j <= NPROC)%nat -> ring q i = ring q j -> i = j.
Proof.
  unfold ring, QSLOTS, NPROC. intros Hi Hj E.
  change (Z.of_nat 64 + 1) with 65 in E. zlia.
Qed.

Lemma ring_0 q : 0 <= q_head q < QSLOTS -> ring q 0 = q_head q.
Proof. intros. unfold ring. rewrite Z.add_0_r. by apply Z.mod_small. Qed.

(** Incrementing an index with the wrap-around test is the successor modulo. *)
Lemma wrap_succ x :
  0 <= x < QSLOTS -> (if x + 1 =? QSLOTS then 0 else x + 1) = (x + 1) mod QSLOTS.
Proof.
  intros Hx. case_if.
  - rewrite E. by rewrite Z.mod_same.
  - rewrite Z.mod_small; lia.
Qed.

Lemma ring_succ q i : (ring q i + 1) mod QSLOTS = ring q (S i).
Proof.
  unfold ring. rewrite Zplus_mod_idemp_l. f_equal. lia.
Qed.

Lemma slot_insert q q' j v i :
  q_array q' = <[Z.to_nat i := v]> (q_array q) ->
  length (q_array q) = S NPROC -> 0 <= i < QSLOTS -> 0 <= j < QSLOTS ->
  slot q' j = if decide (i = j) then v else slot q j.
Proof.
  intros E Hl Hi Hj. unfold slot, QSLOTS in *. rewrite E. case_decide as Hd.
  - subst j. rewrite list_lookup_insert_eq; [done|]. lia.
  - rewrite list_lookup_insert_ne by lia. done.
Qed.

(** The state-changing operations as functions of the queue. *)
Definition pushed_queue (e : nat) (q : Queue) : Queue :=
  MkQueue (q_head q) ((q_tail q + 1) mod QSLOTS)
    (<[Z.to_nat (q_tail q) := Some e]> (q_array q)) (q_size q + 1).

Definition popped_queue (q : Queue) : Queue :=
  MkQueue ((q_head q + 1) mod QSLOTS) (q_tail q) (q_array q) (q_size q - 1).

Lemma rep_tail_range q l : rep q l -> 0 <= q_tail q < QSLOTS.
Proof. intros R. rewrite (rep_tail _ _ R). apply ring_range. Qed.

Lemma push_run e q l h :
  rep q l ->
  push e h q = match Fifo.enq e l with
               | None => Panic "Proccess limit exceeded"
               | Some _ => Done tt h (pushed_queue e q)
               end.
Proof.
  intros R. pose proof (rep_tail_range _ _ R). pose proof (rep_bound _ _ R).
  unfold push, gets, bind, Fifo.enq, modify, when, ret; simpl. rewrite (rep_size _ _ R).
  destruct (Nat.eqb_spec (length l) NPROC) as [->|Hne]; [done|].
  case_if; [lia|]. unfold pushed_queue.
  pose proof (wrap_succ (q_tail q)) as Hw. rewrite <-Hw by done.
  simpl. by case_if.
Qed.

Lemma rep_pushed e q l : rep q l -> (length l < NPROC)%nat -> rep (pushed_queue e q) (l ++ [e]).
Proof.
  intros R Hl. pose proof (rep_tail_range _ _ R) as Ht. pose proof (rep_head _ _ R).
  assert (Hring : forall i, ring (pushed_queue e q) i = ring q i) by done.
  constructor; rewrite ?Hring; simpl; rewrite ?length_app, ?length_insert; simpl.
  - apply (rep_len _ _ R).
  - done.
  - rewrite (rep_size _ _ R). lia.
  - lia.
  - rewrite (rep_tail _ _ R), ring_succ. f_equal. lia.
  - intros i p E. rewrite (slot_insert q _ (ring q i) (Some e) (q_tail q));
      [|done|by eapply rep_len|done|apply ring_range].
    apply lookup_snoc_Some in E as [[Hi E]|[-> ->]].
    + rewrite decide_False; [by eapply rep_slots|].
      rewrite (rep_tail _ _ R). intros Hc. apply ring_inj in Hc; lia.
    + by rewrite decide_True by by apply rep_tail.
Qed.

Lemma pop_run q l h :
  rep q l ->
  pop h q = match Fifo.deq l with
            | None => Panic "Poping from empty queue"
            | Some _ => Done tt h (popped_queue q)
            end.
Proof.
  intros R. pose proof (rep_head _ _ R) as Hh.
  unfold pop, gets, bind, Fifo.deq, modify, when, ret; simpl. rewrite (rep_size _ _ R).
  destruct l as [|p l]; simpl; [done|].
  unfold popped_queue.
  pose proof (wrap_succ (q_head q)) as Hw. rewrite <-Hw by done. simpl. by case_if.
Qed.

Lemma ring_popped q i : ring (popped_queue q) i = ring q (S i).
Proof. unfold ring; simpl. rewrite Zplus_mod_idemp_l. f_equal. lia. Qed.

Lemma rep_popped q p l : rep q (p :: l) -> rep (popped_queue q) l.
Proof.
  intros R. pose proof (rep_size _ _ R) as Hs. pose proof (rep_bound _ _ R) as Hb.
  simpl in Hs, Hb. constructor; rewrite ?ring_popped; simpl.
  - apply (rep_len _ _ R).
  - apply Z.mod_pos_bound. done.
  - lia.
  - lia.
  - apply (rep_tail _ _ R).
  - intros i p' E. rewrite ring_popped. by apply (rep_slots _ _ R (S i)).
Qed.

Lemma front_run q l h : rep q l -> front h q = Done (Fifo.peek l) h q.
Proof.
  intros R. unfold front, gets, bind, ret, Fifo.peek; simpl.
  rewrite (rep_tail _ _ R), <-(ring_0 q) by apply (rep_head _ _ R).
  destruct l as [|p l]; simpl; [by rewrite Z.eqb_refl|].
  case_if; [|by rewrite (rep_slots _ _ R 0 p)].
  apply ring_inj in E; [lia|lia|]. pose proof (rep_bound _ _ R). simpl in *; lia.
Qed.

(** ** qerase *)

Section qerase.
Context (pidof : nat -> Z) (pid : Z).

(** What the scan leaves alone. *)
Definition same_shape (q q' : Queue) : Prop :=
  q_head q' = q_head q /\ q_tail q' = q_tail q /\ q_size q' = q_size q /\
  length (q_array q') = length (q_array q).

Lemma ring_shape q q' i : same_shape q q' -> ring q' i = ring q i.
Proof. intros (Hh & _). unfold ring. by rewrite Hh. Qed.

(** One step of the scan over a slot that is before the tail. *)
Definition swap_next (q : Queue) (k : nat) : Queue :=
  set_q_array (<[Z.to_nat (ring q (S k)) := slot q (ring q k)]>
    (<[Z.to_nat (ring q k) := slot q (ring q (S k))]> (q_array q))) q.

Lemma swap_next_slot q k i :
  length (q_array q) = S NPROC -> (k < NPROC)%nat -> (i <= NPROC)%nat ->
  slot (swap_next q k) (ring q i) =
  if decide (i = S k) then slot q (ring q k)
  else if decide (i = k) then slot q (ring q (S k)) else slot q (ring q i).
Proof.
  intros Hl Hk Hi.
  pose (q1 := set_q_array (<[Z.to_nat (ring q k) := slot q (ring q (S k))]> (q_array q)) q).
  rewrite (slot_insert q1 (swap_next q k) (ring q i) (slot q (ring q k)) (ring q (S k)));
    [|done|by unfold q1; simpl; rewrite length_insert|apply ring_range|apply ring_range].
  rewrite (slot_insert q q1 (ring q i) (slot q (ring q (S k))) (ring q k));
    [|done|done|apply ring_range|apply ring_range].
  repeat case_decide; try done; subst; try done;
    match goal with E : ring q _ = ring q _ |- _ => apply ring_inj in E; lia end.
Qed.

Lemma swap_next_shape q k : same_shape q (swap_next q k).
Proof. unfold same_shape. simpl. by rewrite !length_insert. Qed.

Lemma qerase_loop_step fuel q n k p h :
  q_tail q = ring q n -> (n <= NPROC)%nat -> (k < n)%nat ->
  slot q (ring q k) = Some p ->
  qerase_loop (S fuel) pidof pid (ring q k) h q =
  qerase_loop fuel pidof pid (ring q (S k)) h
    (if pidof p =? pid then swap_next q k else q).
Proof.
  intros Ht Hn Hk Hp. simpl. unfold bind, gets; simpl. rewrite Ht.
  case_if; [apply ring_inj in E; lia|]. rewrite Hp. simpl.
  rewrite !ring_succ. unfold when, modify, ret. case_if; done.
Qed.

Lemma qerase_loop_end fuel q n h :
  q_tail q = ring q n -> qerase_loop fuel pidof pid (ring q n) h q = Done tt h q.
Proof.
  intros Ht. destruct fuel; simpl; unfold bind, gets; simpl; by rewrite Ht, Z.eqb_refl.
Qed.

(** Once a match is met it is carried to the slot past the last element, and
    the elements behind it move forward by one. *)
Lemma qerase_carry d fuel q n k p h :
  n = (k + d)%nat -> (d <= fuel)%nat -> (n <= NPROC)%nat ->
  length (q_array q) = S NPROC -> q_tail q = ring q n ->
  slot q (ring q k) = Some p -> pidof p = pid -> (0 < d)%nat ->
  exists q', qerase_loop fuel pidof pid (ring q k) h q = Done tt h q' /\
    same_shape q q' /\
    (forall i, (i < k)%nat -> slot q' (ring q i) = slot q (ring q i)) /\
    (forall i, (k <= i < n)%nat -> slot q' (ring q i) = slot q (ring q (S i))).
Proof.
  revert fuel q k. induction d as [|d IH]; intros fuel q k Hn Hf HN Hl Ht Hp Hpid Hd; [lia|].
  destruct fuel as [|fuel]; [lia|].
  rewrite (qerase_loop_step fuel q n k p) by (auto; lia).
  rewrite Hpid, Z.eqb_refl. pose proof (swap_next_shape q k) as Hsh.
  pose proof (fun i => swap_next_slot q k i Hl ltac:(lia)) as Hsl.
  destruct d as [|d].
  - replace (S k) with n by lia. exists (swap_next q k).
    rewrite <-(ring_shape _ _ n Hsh) at 1. split_and!; auto.
    + apply qerase_loop_end. rewrite (ring_shape _ _ _ Hsh). by destruct Hsh as (_ & -> & _).
    + intros i Hi. rewrite Hsl by lia. by rewrite !decide_False by lia.
    + intros i Hi. rewrite Hsl by lia. rewrite decide_False, decide_True by lia.
      do 2 f_equal. lia.
  - destruct (IH fuel (swap_next q k) (S k)) as (q' & E & Hs' & Hb & Ha); try lia; auto.
    + destruct Hsh as (_ & _ & _ & ->). done.
    + rewrite (ring_shape _ _ _ Hsh), Hsl by lia. by rewrite decide_True.
    + rewrite (ring_shape _ _ _ Hsh) in E. exists q'. split_and!; [done| | |].
      * destruct Hsh as (? & ? & ? & ?), Hs' as (? & ? & ? & ?).
        unfold same_shape. split_and!; congruence.
      * intros i Hi. rewrite <-(ring_shape _ _ _ Hsh), Hb, (ring_shape _ _ _ Hsh), Hsl by lia.
        by rewrite !decide_False by lia.
      * intros i Hi. destruct (decide (i = k)) as [->|Hik].
        -- rewrite <-(ring_shape _ _ _ Hsh), Hb, (ring_shape _ _ _ Hsh), Hsl by lia.
           by rewrite decide_False, decide_True by lia.
        -- rewrite <-(ring_shape _ _ _ Hsh), Ha, (ring_shape _ _ _ Hsh), Hsl by lia.
           rewrite !decide_False by lia. done.
Qed.

(** Slots that do not match are skipped. *)
Lemma qerase_skip q l n k j fuel h :
  rep q l -> n = length l -> (k <= j <= n)%nat -> (j - k <= fuel)%nat ->
  (forall i p, (k <= i < j)%nat -> l !! i = Some p -> pidof p <> pid) ->
  qerase_loop fuel pidof pid (ring q k) h q =
  qerase_loop (fuel - (j - k)) pidof pid (ring q j) h q.
Proof.
  intros R Hn Hkj. remember (j - k)%nat as d eqn:Hd. revert fuel k Hkj Hd.
  induction d as [|d IH]; intros fuel k Hkj Hd Hf Hno.
  - replace j with k by lia. by rewrite Nat.sub_0_r.
  - destruct fuel as [|fuel]; [lia|].
    destruct (lookup_lt_is_Some_2 l k) as [p Ep]; [lia|].
    rewrite (qerase_loop_step fuel q n k p);
      [|subst n; by apply rep_tail|subst n; by eapply rep_bound|lia|by apply (rep_slots _ _ R)].
    destruct (Z.eqb_spec (pidof p) pid) as [Hc|_]; [destruct (Hno k p); auto; lia|].
    rewrite IH; auto; try lia. intros i p' Hi. apply Hno. lia.
Qed.

(** What qerase does after the scan: the last slot leaves the queue. *)
Definition dropped_queue (q : Queue) : Queue :=
  MkQueue (q_head q) ((q_tail q - 1) mod QSLOTS) (q_array q) (q_size q - 1).

Lemma qerase_run q q' h :
  0 <= q_tail q' < QSLOTS ->
  qerase_loop (S NPROC) pidof pid (q_head q) h q = Done tt h q' ->
  qerase pidof pid h q = Done tt h (dropped_queue q').
Proof.
  intros Ht E. unfold qerase. rewrite (bind_done (gets id) _ h q q h q eq_refl).
  krun E. unfold bind, modify, gets, when, ret; simpl. unfold dropped_queue.
  assert (Hm : (q_tail q' - 1) mod QSLOTS
               = if q_tail q' - 1 <? 0 then Z.of_nat NPROC else q_tail q' - 1).
  { unfold QSLOTS in *. case_if; [|apply Z.mod_small; lia].
    replace (q_tail q') with 0 by lia. done. }
  rewrite Hm. by case_if.
Qed.

Lemma ring_pred q n : (0 < n)%nat -> (ring q n - 1) mod QSLOTS = ring q (n - 1).
Proof. intros. unfold ring. rewrite Zminus_mod_idemp_l. f_equal. lia. Qed.

Lemma rep_dropped q q' l l' :
  rep q l -> same_shape q q' -> (length l = S (length l'))%nat ->
  (forall i p, l' !! i = Some p -> slot q' (ring q i) = Some p) ->
  rep (dropped_queue q') l'.
Proof.
  intros R Hsh Hl Hs. pose proof (rep_bound _ _ R). pose proof (rep_size _ _ R).
  assert (Hr : forall i, ring (dropped_queue q') i = ring q i)
    by (intros; by apply (ring_shape q q')).
  destruct Hsh as (Hh & Ht & Hz & Ha).
  constructor; rewrite ?Hr; simpl.
  - rewrite Ha. apply (rep_len _ _ R).
  - rewrite Hh. apply (rep_head _ _ R).
  - lia.
  - lia.
  - rewrite Ht, (rep_tail _ _ R), ring_pred by lia. f_equal. lia.
  - intros i p E. rewrite Hr. by apply Hs.
Qed.

Lemma same_shape_tail q q' l : rep q l -> same_shape q q' -> 0 <= q_tail q' < QSLOTS.
Proof. intros R (_ & -> & _). by eapply rep_tail_range. Qed.

Lemma qerase_found q l j p h :
  rep q l -> list_find (fun p => pidof p = pid) l = Some (j, p) ->
  exists q', qerase pidof pid h q = Done tt h q' /\ rep q' (delete j l).
Proof.
  intros R Hf. apply list_find_Some in Hf as (Ej & Hp & Hbefore).
  pose proof (lookup_lt_Some _ _ _ Ej). pose proof (rep_bound _ _ R).
  assert (E : exists q', qerase_loop (S NPROC) pidof pid (ring q 0) h q = Done tt h q' /\
    same_shape q q' /\
    (forall i, (i < j)%nat -> slot q' (ring q i) = slot q (ring q i)) /\
    (forall i, (j <= i < length l)%nat -> slot q' (ring q i) = slot q (ring q (S i)))).
  { rewrite (qerase_skip q l (length l) 0 j); auto; try lia.
    - apply (qerase_carry (length l - j) _ q (length l) j p); auto; try lia.
      + by apply (rep_len _ _ R).
      + by apply rep_tail.
      + by apply (rep_slots _ _ R).
    - intros i p' Hi E. apply (Hbefore i p' E). lia. }
  destruct E as (q' & E & Hsh & Hb & Ha). rewrite ring_0 in E by apply (rep_head _ _ R).
  exists (dropped_queue q'). split.
  { apply qerase_run; [by eapply same_shape_tail|done]. }
  eapply rep_dropped; [done|done|rewrite length_delete by eauto; lia|].
  intros i p' Ei. destruct (decide (i < j)%nat).
  - rewrite list_lookup_delete_lt in Ei by done. rewrite Hb by done. by apply (rep_slots _ _ R).
  - rewrite list_lookup_delete_ge in Ei by lia.
    rewrite Ha by (apply lookup_lt_Some in Ei; lia). by apply (rep_slots _ _ R).
Qed.

Lemma qerase_missing q l x h :
  rep q (l ++ [x]) -> Forall (fun p => pidof p <> pid) (l ++ [x]) ->
  exists q', qerase pidof pid h q = Done tt h q' /\ rep q' l.
Proof.
  intros R Hno. pose proof (rep_bound _ _ R). rewrite Forall_lookup in Hno.
  assert (E : qerase_loop (S NPROC) pidof pid (ring q 0) h q = Done tt h q).
  { rewrite (qerase_skip q (l ++ [x]) (length (l ++ [x])) 0 (length (l ++ [x])));
      auto; try lia.
    - apply qerase_loop_end. by apply rep_tail.
    - intros i p _ E. by apply (Hno i). }
  rewrite ring_0 in E by apply (rep_head _ _ R).
  exists (dropped_queue q). split.
  { apply qerase_run; [by eapply rep_tail_range|done]. }
  eapply rep_dropped; [done|done|rewrite length_app; simpl; lia|].
  intros i p Ei. apply (rep_slots _ _ R). by apply lookup_app_l_Some.
Qed.

End qerase.

(** ** Properties *)

(** C30: the ring buffer implements a bounded first-in first-out list. push
    appends and panics exactly when 64 processes are queued, pop removes the
    oldest and panics exactly on the empty queue, front is the oldest process or
    NULL; no operation loses or reorders another element. *)
Theorem queue_refines_fifo (q : Queue) (l : list nat) (e : nat) (h : hart) :
  rep q l ->
  (match Fifo.enq e l with
   | Some l' => exists q', push e h q = Done tt h q' /\ rep q' l'
   | None => push e h q = Panic "Proccess limit exceeded"
   end) /\
  (match Fifo.deq l with
   | Some l' => exists q', pop h q = Done tt h q' /\ rep q' l'
   | None => pop h q = Panic "Poping from empty queue"
   end) /\
  front h q = Done (Fifo.peek l) h q.
Proof.
  intros R. rewrite (push_run e q l h R), (pop_run q l h R), (front_run q l h R).
  pose proof (rep_bound _ _ R). split_and!; [| |done].
  - unfold Fifo.enq. destruct (Nat.eqb_spec (length l) NPROC); [done|].
    eexists. split; [done|]. apply rep_pushed; [done|lia].
  - destruct l as [|p l]; simpl; [done|]. eexists. split; [done|]. by eapply rep_popped.
Qed.

Lemma queue_refines_fifo_witness :
  exists q', push 7 (Hart 0 None 0 false true []) empty_queue
    = Done tt (Hart 0 None 0 false true []) q' /\ rep q' [7%nat].
Proof.
  exact (proj1 (queue_refines_fifo empty_queue [] 7 (Hart 0 None 0 false true []) rep_empty)).
Defined.

(** qerase terminates and, when a queued process has the given pid, removes
    the first such process and keeps all others in order. *)
Theorem qerase_removes (pidof : nat -> Z) (pid : Z) (q : Queue) (l : list nat) (h : hart) :
  rep q l -> Exists (fun p => pidof p = pid) l ->
  exists q', qerase pidof pid h q = Done tt h q' /\ rep q' (Fifo.erase pidof pid l).
Proof.
  intros R Hex. unfold Fifo.erase.
  destruct (list_find (fun p => pidof p = pid) l) as [[j p]|] eqn:E.
  - by eapply qerase_found.
  - apply list_find_None in E. rewrite Forall_lookup in E. apply Exists_exists in Hex as (x & Hin & Hx).
    apply list_elem_of_lookup in Hin as [i Ei]. by destruct (E i x).
Qed.

Definition demo_queue : Queue :=
  pushed_queue 6 (pushed_queue 4 (pushed_queue 9 empty_queue)).

Lemma demo_queue_rep : rep demo_queue [9; 4; 6]%nat.
Proof.
  apply (rep_pushed 6 _ [9; 4]%nat); [|simpl; unfold NPROC; lia].
  apply (rep_pushed 4 _ [9]%nat); [|simpl; unfold NPROC; lia].
  apply (rep_pushed 9 _ []); [apply rep_empty|simpl; unfold NPROC; lia].
Qed.

Lemma qerase_removes_witness :
  exists q', qerase Z.of_nat 4 (Hart 0 None 0 false true []) demo_queue
    = Done tt (Hart 0 None 0 false true []) q' /\ rep q' [9; 6]%nat.
Proof.
  refine (qerase_removes Z.of_nat 4 demo_queue [9; 4; 6]%nat _ demo_queue_rep _).
  apply Exists_cons_tl, Exists_cons_hd. reflexivity.
Defined.

(** C31: qerase of a pid that is not queued still shortens the queue: the newest
    process is dropped although its pid is another one, so it is sound only under
    the guard [p->in_queue] of its caller. *)
Theorem qerase_absent_drops_newest (pidof : nat -> Z) (pid : Z) (q : Queue) (l : list nat) x (h : hart) :
  rep q (l ++ [x]) -> Forall (fun p => pidof p <> pid) (l ++ [x]) ->
  exists q', qerase pidof pid h q = Done tt h q' /\ rep q' l.
Proof. apply qerase_missing. Qed.

Lemma qerase_absent_drops_newest_witness :
  exists q', qerase Z.of_nat 77 (Hart 0 None 0 false true []) demo_queue
    = Done tt (Hart 0 None 0 false true []) q' /\ rep q' [9; 4]%nat.
Proof.
  refine (qerase_absent_drops_newest Z.of_nat 77 demo_queue [9; 4]%nat 6 _ demo_queue_rep _).
  repeat constructor; discriminate.
Defined.
