(* ===== verification/Kalloc.v ===== *)
(** * Kalloc

    kernel/kalloc.c: the physical page allocator. Its free list is threaded
    through the free pages themselves, so the state is the physical memory and
    the head pointer; [free_list] relates it to the list of free pages. *)
From stdpp Require Import base tactics list numbers gmap strings sets.
From S2P Require Import Prelude Machine Spinlock Bytes.

(** ** Layout (kernel/memlayout.h, kernel/riscv.h)

    The addresses the linker script kernel.ld chooses are parameters. *)
Class Layout := {
  l_etext : Z;        (* end of kernel text *)
  l_end : Z;          (* first address after the kernel *)
  l_trampoline : Z;   (* the trampoline page *)
}.

Definition PGSIZE : Z := 4096.
Definition KERNBASE : Z := 0x80000000.
Definition PHYSTOP : Z := KERNBASE + 128 * 1024 * 1024.

(** What kernel.ld guarantees of them. *)
Class LayoutOk `{Layout} : Prop := {
  l_etext_page : l_etext mod PGSIZE = 0;
  l_etext_range : KERNBASE < l_etext;
  l_end_range : l_etext <= l_end < PHYSTOP;
  l_trampoline_page : l_trampoline mod PGSIZE = 0;
  l_trampoline_range : KERNBASE <= l_trampoline < l_etext;
}.

Definition PGROUNDUP (sz : Z) : Z := Z.land (u64 (sz + PGSIZE - 1)) (Z.lnot (PGSIZE - 1)).
Definition PGROUNDDOWN (a : Z) : Z := Z.land a (Z.lnot (PGSIZE - 1)).

Lemma land_page_mask a : Z.land a (Z.lnot (PGSIZE - 1)) = a / PGSIZE * PGSIZE.
Proof.
  change (PGSIZE - 1) with (Z.ones 12). rewrite <-Z.ldiff_land, Z.ldiff_ones_r by lia.
  rewrite Z.shiftl_mul_pow2, Z.shiftr_div_pow2 by lia. done.
Qed.

Lemma PGROUNDDOWN_eq a : PGROUNDDOWN a = a / PGSIZE * PGSIZE.
Proof. apply land_page_mask. Qed.

Lemma PGROUNDUP_eq sz :
  0 <= sz < 2 ^ 64 - PGSIZE -> PGROUNDUP sz = (sz + PGSIZE - 1) / PGSIZE * PGSIZE.
Proof.
  intros Hs. unfold PGROUNDUP. rewrite u64_id by (unfold PGSIZE in *; lia).
  apply land_page_mask.
Qed.

(** ** State *)

(** Physical memory and [kmem.freelist]. *)
Record pm := Pm { pm_mem : mem; pm_freelist : Z }.

Definition set_mem (m : mem) (s : pm) : pm := Pm m (pm_freelist s).
Definition set_freelist (r : Z) (s : pm) : pm := Pm (pm_mem s) r.

Section kalloc.
Context `{Layout}.

Definition kfree (pa : Z) : K pm unit :=
  if negb (pa mod PGSIZE =? 0) || (pa <? l_end) || (PHYSTOP <=? pa) then panic "kfree" else
  modify (fun s => set_mem (memset (pm_mem s) pa 1 PGSIZE) s);;
  acquire L_kmem;;
  modify (fun s => set_mem (store64 (pm_mem s) pa (pm_freelist s)) s);;
  modify (set_freelist pa);;
  release L_kmem.

Definition kalloc : K pm Z :=
  acquire L_kmem;;
  r <- gets pm_freelist;;
  when (truthy r) (modify (fun s => set_freelist (load64 (pm_mem s) r) s));;
  release L_kmem;;
  when (truthy r) (modify (fun s => set_mem (memset (pm_mem s) r 5 PGSIZE) s));;
  ret r.

Fixpoint freerange_loop (fuel : nat) (p pa_end : Z) : K pm unit :=
  if negb (p + PGSIZE <=? pa_end) then ret tt else
  match fuel with
  | O => nofuel
  | S f => kfree p;; freerange_loop f (p + PGSIZE) pa_end
  end.

(** At most one iteration per page of the range. *)
Definition freerange (pa_start pa_end : Z) : K pm unit :=
  let p := PGROUNDUP pa_start in
  freerange_loop (Z.to_nat ((pa_end - p) / PGSIZE)) p pa_end.

Definition kinit : K pm unit := freerange l_end PHYSTOP.

(** ** The free list *)

(** A page the allocator manages. *)
Definition page_ok (pa : Z) : Prop := pa mod PGSIZE = 0 /\ l_end <= pa < PHYSTOP.

(** The linked list that starts at [r] visits exactly the pages [l]. *)
Fixpoint linked (m : mem) (r : Z) (l : list Z) : Prop :=
  match l with
  | [] => r = 0
  | p :: l' => r = p /\ page_ok p /\ linked m (load64 m p) l'
  end.

Record free_list (s : pm) (l : list Z) : Prop := {
  fl_linked : linked (pm_mem s) (pm_freelist s) l;
  fl_nodup : NoDup l;
}.

(** Addresses of the page [pa]. *)
Definition in_page (pa x : Z) : Prop := pa <= x < pa + PGSIZE.

(** Memory agrees outside the pages [ps]. *)
Definition same_outside (ps : list Z) (m m' : mem) : Prop :=
  forall x, (forall p, p ∈ ps -> ~ in_page p x) -> rd m' x = rd m x.

Context `{!LayoutOk}.

Lemma end_pos : 0 < l_end.
Proof. pose proof l_etext_range. pose proof l_end_range. unfold KERNBASE in *. lia. Qed.

Lemma page_ok_pos pa : page_ok pa -> 0 < pa < 2 ^ 64.
Proof.
  pose proof end_pos. intros [_ Hr]. unfold PHYSTOP, KERNBASE in *. lia.
Qed.

(** Two distinct pages do not overlap. *)
Lemma pages_disjoint p q x :
  p mod PGSIZE = 0 -> q mod PGSIZE = 0 -> p <> q -> in_page p x -> ~ in_page q x.
Proof. unfold in_page, PGSIZE. intros. zlia. Qed.

Lemma linked_pages m r l : linked m r l -> Forall page_ok l.
Proof. revert r. induction l as [|p l IH]; intros r; simpl; [done|]. intros (_ & ? & ?). eauto. Qed.

Lemma linked_ext m m' r l :
  linked m r l -> (forall p x, p ∈ l -> in_page p x -> rd m' x = rd m x) -> linked m' r l.
Proof.
  revert r. induction l as [|p l IH]; intros r; simpl; [done|].
  intros (-> & Hp & Hl) Hm. split_and!; auto.
  assert (load64 m' p = load64 m p) as ->.
  { apply load64_ext. intros x Hx. apply (Hm p); [constructor|unfold in_page, PGSIZE; lia]. }
  apply IH; [done|]. intros q x Hq. apply Hm. by constructor.
Qed.

(** Free pages are untouched by writes outside them. *)
Lemma linked_outside m m' r l ps :
  linked m r l -> same_outside ps m m' ->
  (forall p, p ∈ ps -> p ∉ l) -> (forall p, p ∈ ps -> p mod PGSIZE = 0) -> linked m' r l.
Proof.
  intros Hl Hm Hps Hal. eapply linked_ext; [done|].
  pose proof (linked_pages _ _ _ Hl) as Hok. rewrite Forall_forall in Hok.
  intros p x Hp Hx. apply Hm. intros q Hq. apply (pages_disjoint p); auto.
  - by apply Hok.
  - intros ->. by apply (Hps q).
Qed.

Lemma free_list_outside s s' l ps :
  free_list s l -> same_outside ps (pm_mem s) (pm_mem s') -> pm_freelist s' = pm_freelist s ->
  (forall p, p ∈ ps -> p ∉ l) -> (forall p, p ∈ ps -> p mod PGSIZE = 0) -> free_list s' l.
Proof.
  intros [Hl Hn] Hm Hr Hps Hal. constructor; [|done]. rewrite Hr. by eapply linked_outside.
Qed.

Lemma memset_page_outside m pa c : same_outside [pa] m (memset m pa c PGSIZE).
Proof.
  intros x Hx. rewrite rd_memset. rewrite decide_False; [done|].
  intros Hc. apply (Hx pa); [constructor|]. done.
Qed.

Lemma store64_page_outside m pa o v :
  0 <= o -> o + 8 <= PGSIZE -> same_outside [pa] m (store64 m (pa + o) v).
Proof.
  intros Ho Ho' x Hx. apply rd_store64_other. intros Hc.
  apply (Hx pa); [constructor|]. unfold in_page. lia.
Qed.

Lemma same_outside_trans ps m1 m2 m3 :
  same_outside ps m1 m2 -> same_outside ps m2 m3 -> same_outside ps m1 m3.
Proof. intros H1 H2 x Hx. rewrite H2, H1; auto. Qed.

Lemma same_outside_refl ps m : same_outside ps m m.
Proof. done. Qed.

Lemma same_outside_mono ps qs m m' :
  ps ⊆ qs -> same_outside ps m m' -> same_outside qs m m'.
Proof. intros Hs Hm x Hx. apply Hm. auto. Qed.

(** ** What kfree and kalloc do *)

Definition freed (pa : Z) (s : pm) : pm :=
  Pm (store64 (memset (pm_mem s) pa 1 PGSIZE) pa (pm_freelist s)) pa.

Lemma kfree_run pa h s :
  page_ok pa -> hart_wf h -> L_kmem ∉ h_held h ->
  kfree pa h s = Done tt (settle h) (freed pa s).
Proof.
  intros [Hal Hr] Hwf Hh. unfold kfree. rewrite Hal. simpl.
  case_if; [destruct E; bool_to_prop; lia|].
  ksimpl. rewrite (bind_done _ _ _ _ _ _ _ (acquire_run L_kmem h _ Hh)).
  ksimpl. by rewrite release_locked.
Qed.

Lemma kfree_bad pa h s : ~ page_ok pa -> kfree pa h s = Panic "kfree".
Proof.
  intros Hn. unfold kfree. case_if; [done|]. destruct Hn. split; lia.
Qed.

Lemma freed_outside pa s : same_outside [pa] (pm_mem s) (pm_mem (freed pa s)).
Proof.
  eapply same_outside_trans; [apply memset_page_outside|].
  pose proof (store64_page_outside (memset (pm_mem s) pa 1 PGSIZE) pa 0 (pm_freelist s)) as Hs.
  rewrite Z.add_0_r in Hs. apply Hs; unfold PGSIZE; lia.
Qed.

Lemma linked_head m r l : linked m r l -> 0 <= r < 2 ^ 64.
Proof.
  destruct l as [|p l]; simpl; [intros ->; lia|]. intros (-> & Hp & _).
  apply page_ok_pos in Hp. lia.
Qed.

Lemma freed_list pa s l :
  page_ok pa -> pa ∉ l -> free_list s l -> free_list (freed pa s) (pa :: l).
Proof.
  intros Hp Hn Hf. constructor; [|by constructor; [|apply Hf]].
  simpl. split_and!; [done|done|].
  rewrite load64_store64, u64_id by (eapply linked_head, Hf).
  eapply linked_outside; [apply Hf|exact (freed_outside pa s)|..].
  - intros p Hin. apply list_elem_of_singleton in Hin as ->. done.
  - intros p Hin. apply list_elem_of_singleton in Hin as ->. apply Hp.
Qed.

Definition allocd (r : Z) (s : pm) : pm :=
  Pm (memset (pm_mem s) r 5 PGSIZE) (load64 (pm_mem s) r).

Lemma kalloc_run h s l :
  free_list s l -> hart_wf h -> L_kmem ∉ h_held h ->
  kalloc h s = match l with
               | [] => Done 0 (settle h) s
               | r :: _ => Done r (settle h) (allocd r s)
               end.
Proof.
  intros [Hl _] Hwf Hh. unfold kalloc.
  krun (acquire_run L_kmem h s Hh). ksimpl.
  destruct l as [|r l]; simpl in Hl.
  - rewrite Hl. simpl.
    by rewrite (bind_done _ _ _ _ _ _ _ (release_locked L_kmem h _ Hwf Hh)).
  - destruct Hl as (-> & Hp & _). apply page_ok_pos in Hp.
    unfold truthy. destruct (Z.eqb_spec r 0) as [|_]; [lia|]. simpl. ksimpl.
    rewrite (bind_done _ _ _ _ _ _ _ (release_locked L_kmem h _ Hwf Hh)). by ksimpl.
Qed.

Lemma kalloc_none h s :
  free_list s [] -> hart_wf h -> L_kmem ∉ h_held h -> kalloc h s = Done 0 (settle h) s.
Proof. apply kalloc_run. Qed.

Lemma kalloc_some h s r l :
  free_list s (r :: l) -> hart_wf h -> L_kmem ∉ h_held h ->
  kalloc h s = Done r (settle h) (allocd r s).
Proof. apply kalloc_run. Qed.

Lemma free_list_head s r l : free_list s (r :: l) -> page_ok r /\ r <> 0 /\ r ∉ l.
Proof.
  intros [(_ & Hp & _) Hn]. apply NoDup_cons in Hn as [Hn _].
  pose proof (page_ok_pos r Hp). split_and!; [done|lia|done].
Qed.

Lemma allocd_outside r s : same_outside [r] (pm_mem s) (pm_mem (allocd r s)).
Proof. apply memset_page_outside. Qed.

Lemma allocd_list r s l : free_list s (r :: l) -> free_list (allocd r s) l.
Proof.
  intros [Hl Hn]. simpl in Hl. destruct Hl as (_ & Hp & Hl).
  apply NoDup_cons in Hn as [Hn1 Hn2].
  constructor; [|done]. simpl.
  eapply linked_outside; [exact Hl|exact (allocd_outside r s)|..].
  - intros p Hin. by apply list_elem_of_singleton in Hin as ->.
  - intros p Hin. apply list_elem_of_singleton in Hin as ->. apply Hp.
Qed.

Lemma freed_ok pa s : mem_ok (pm_mem s) -> mem_ok (pm_mem (freed pa s)).
Proof. intros. simpl. by apply store64_ok, memset_ok. Qed.

Lemma allocd_ok r s : mem_ok (pm_mem s) -> mem_ok (pm_mem (allocd r s)).
Proof. intros. simpl. by apply memset_ok. Qed.

(** ** Boot *)

(** The pages of [p, p + n pages), last one first, as freerange leaves them. *)
Fixpoint pages_down (p : Z) (n : nat) : list Z :=
  match n with O => [] | S n' => pages_down (p + PGSIZE) n' ++ [p] end.

Lemma elem_of_pages_down p n x :
  x ∈ pages_down p n <-> exists i, (i < n)%nat /\ x = p + Z.of_nat i * PGSIZE.
Proof.
  revert p. induction n as [|n IH]; intros p; simpl.
  { rewrite elem_of_nil. split; [done|]. intros (i & ? & _). lia. }
  rewrite elem_of_app, list_elem_of_singleton, IH. split.
  - intros [(i & Hi & ->)| ->]; [exists (S i)|exists 0%nat]; lia.
  - intros ([|i] & Hi & ->); [right; lia|left]. exists i. lia.
Qed.

Lemma freerange_loop_run n fuel p pa_end h s l :
  hart_wf h -> L_kmem ∉ h_held h -> free_list s l ->
  p mod PGSIZE = 0 -> l_end <= p -> pa_end <= PHYSTOP ->
  n = Z.to_nat ((pa_end - p) / PGSIZE) -> (n <= fuel)%nat ->
  (forall i, (i < n)%nat -> p + Z.of_nat i * PGSIZE ∉ l) ->
  exists s', freerange_loop fuel p pa_end h s
             = Done tt (if decide (n = 0%nat) then h else settle h) s' /\
    free_list s' (pages_down p n ++ l) /\ (mem_ok (pm_mem s) -> mem_ok (pm_mem s')).
Proof.
  revert fuel p h s l. induction n as [|n IH]; intros fuel p h s l Hwf Hh Hl Hp Hpe Hend Hn Hf Hno.
  - exists s. split; [|done]. destruct fuel; simpl; unfold PGSIZE in *.
    all: (case_if; [done|]); bool_to_prop; exfalso; zlia.
  - destruct fuel as [|fuel]; [lia|]. simpl.
    assert (Hok : page_ok p) by (split; [done|]; unfold PGSIZE in *; zlia).
    case_if; [unfold PGSIZE in *; zlia|].
    rewrite (bind_done _ _ _ _ _ _ _ (kfree_run p h s Hok Hwf Hh)).
    destruct (IH fuel (p + PGSIZE) (settle h) (freed p s) (p :: l)) as (s' & E' & Hs' & Hm');
      auto with xv6; try lia.
    + by autorewrite with hart.
    + apply freed_list; auto. specialize (Hno 0%nat ltac:(lia)). by rewrite Z.add_0_r in Hno.
    + unfold PGSIZE in *. zlia.
    + unfold PGSIZE in *. lia.
    + unfold PGSIZE in *. zlia.
    + intros i Hi Hin. apply elem_of_cons in Hin as [Hc|Hin]; [unfold PGSIZE in *; lia|].
      apply (Hno (S i)); [lia|]. by replace (p + Z.of_nat (S i) * PGSIZE)
        with (p + PGSIZE + Z.of_nat i * PGSIZE) by lia.
    + exists s'. rewrite E'. split_and!; [|by rewrite <-app_assoc|auto using freed_ok].
      case_decide; by autorewrite with hart.
Qed.

(** The pages kinit frees, in the order of the list. *)
Definition all_free : list Z :=
  pages_down (PGROUNDUP l_end) (Z.to_nat ((PHYSTOP - PGROUNDUP l_end) / PGSIZE)).

Lemma roundup_end : PGROUNDUP l_end = (l_end + PGSIZE - 1) / PGSIZE * PGSIZE.
Proof.
  pose proof end_pos. pose proof l_end_range.
  apply PGROUNDUP_eq. unfold PHYSTOP, KERNBASE, PGSIZE in *. lia.
Qed.

Lemma elem_of_all_free x : x ∈ all_free <-> page_ok x.
Proof.
  unfold all_free. rewrite elem_of_pages_down, roundup_end. unfold page_ok.
  change PHYSTOP with (557056 * PGSIZE). unfold PGSIZE. split.
  - intros (i & Hi & ->). zlia.
  - intros [Hx1 Hx2].
    exists (Z.to_nat ((x - (l_end + 4096 - 1) / 4096 * 4096) / 4096)). zlia.
Qed.

Lemma kinit_list h s :
  hart_wf h -> L_kmem ∉ h_held h -> pm_freelist s = 0 ->
  exists h' s', kinit h s = Done tt h' s' /\ (h' = h \/ h' = settle h) /\ free_list s' all_free /\
    (mem_ok (pm_mem s) -> mem_ok (pm_mem s')).
Proof.
  intros Hwf Hh Hs. set (n := Z.to_nat ((PHYSTOP - PGROUNDUP l_end) / PGSIZE)).
  destruct (freerange_loop_run n n (PGROUNDUP l_end) PHYSTOP h s []) as (s' & E & Hl & Hm); auto.
  - by constructor; [|constructor].
  - rewrite roundup_end. unfold PGSIZE. zlia.
  - rewrite roundup_end. unfold PGSIZE. zlia.
  - reflexivity.
  - intros i _ Hi. by apply elem_of_nil in Hi.
  - exists (if decide (n = 0%nat) then h else settle h), s'.
    rewrite app_nil_r in Hl. split_and!; auto. by case_decide; auto.
Qed.

Lemma kinit_run h s :
  hart_wf h -> L_kmem ∉ h_held h -> pm_freelist s = 0 ->
  exists l h' s', kinit h s = Done tt h' s' /\ (h' = h \/ h' = settle h) /\
    free_list s' l /\ forall x, x ∈ l <-> page_ok x.
Proof.
  intros Hwf Hh Hs. destruct (kinit_list h s Hwf Hh Hs) as (h' & s' & E & Hh' & Hl & _).
  exists all_free, h', s'. split_and!; auto. apply elem_of_all_free.
Qed.

(** ** Clients of the allocator

    Any sequence of kalloc and kfree calls in which a page is freed only by a
    client that got it from kalloc and has not freed it since; [owned] are the
    pages handed out. *)
Inductive kmem_step : list Z * hart * pm -> list Z * hart * pm -> Prop :=
| step_kalloc owned h s r h' s' :
    kalloc h s = Done r h' s' ->
    kmem_step (owned, h, s) (if truthy r then r :: owned else owned, h', s')
| step_kfree owned1 pa owned2 h s h' s' :
    kfree pa h s = Done tt h' s' ->
    kmem_step (owned1 ++ pa :: owned2, h, s) (owned1 ++ owned2, h', s').

(** Every page is either free or owned, and never both or twice. *)
Definition partition (c : list Z * hart * pm) : Prop :=
  let '(owned, h, s) := c in
  hart_wf h /\ (L_kmem ∉ h_held h) /\
  exists l, free_list s l /\ NoDup (owned ++ l) /\ forall x, x ∈ (owned ++ l) <-> page_ok x.

Lemma partition_step c c' : partition c -> kmem_step c c' -> partition c'.
Proof.
  intros Hp Hs. destruct Hs as [owned h s r h' s' E|owned1 pa owned2 h s h' s' E];
    destruct Hp as (Hwf & Hh & l & Hl & Hn & Hx).
  - rewrite (kalloc_run h s l Hl Hwf Hh) in E. destruct l as [|p l]; simplify_eq.
    { simpl. split_and!; [solve_hart|by autorewrite with hart|]. by exists []. }
    assert (page_ok r) as Hr by (apply Hx; rewrite elem_of_app; right; constructor).
    apply page_ok_pos in Hr. unfold truthy. destruct (Z.eqb_spec r 0) as [|_]; [lia|].
    simpl. split_and!; [solve_hart|by autorewrite with hart|]. exists l.
    assert (Hperm : (r :: owned ++ l) ≡ₚ (owned ++ r :: l)) by apply Permutation_middle.
    split_and!; [by apply allocd_list|by rewrite Hperm|].
    intros x. rewrite <-Hx. simpl. by rewrite Hperm.
  - assert (Hperm : ((owned1 ++ pa :: owned2) ++ l) ≡ₚ ((owned1 ++ owned2) ++ pa :: l)).
    { rewrite <-!app_assoc. simpl. rewrite <-!Permutation_middle. done. }
    assert (Hr : page_ok pa) by (apply Hx; rewrite Hperm, elem_of_app; right; constructor).
    rewrite (kfree_run pa h s Hr Hwf Hh) in E. simplify_eq.
    simpl. split_and!; [solve_hart|by autorewrite with hart|]. exists (pa :: l).
    rewrite Hperm in Hn. split_and!; [|done|].
    + apply freed_list; auto. apply NoDup_app in Hn as (_ & _ & Hn).
      by apply NoDup_cons in Hn as [? _].
    + intros x. rewrite <-Hx. by rewrite Hperm.
Qed.

Lemma partition_steps c c' : partition c -> rtc kmem_step c c' -> partition c'.
Proof. intros Hp. induction 1; eauto using partition_step. Qed.

(** ** Properties *)

(** kinit, run at boot with an empty list, returns with a free list that
    holds every page between the end of the kernel and PHYSTOP exactly once and
    no other address; the caller's locks and interrupt state are as before. *)
Theorem kinit_frees_every_page (h : hart) (s : pm) :
  hart_wf h -> L_kmem ∉ h_held h -> pm_freelist s = 0 ->
  exists l h' s', kinit h s = Done tt h' s' /\ (h' = h \/ h' = settle h) /\
    free_list s' l /\ forall x, x ∈ l <-> page_ok x.
Proof. apply kinit_run. Qed.

(** kalloc and kfree implement a stack of pages inside the free pages. With
    free pages [l], kalloc returns the first of them filled with 5s, and 0 with
    nothing changed when there is none; kfree of a page outside the list pushes
    it; no byte outside that page changes; an address that is not a managed page
    makes kfree panic. *)
Theorem kalloc_kfree_behave (h : hart) (s : pm) (l : list Z) :
  hart_wf h -> L_kmem ∉ h_held h -> free_list s l ->
  (exists s', kalloc h s = Done (default 0 (head l)) (settle h) s' /\ free_list s' (tail l) /\
     match l with
     | [] => s' = s
     | r :: _ => (forall x, in_page r x -> rd (pm_mem s') x = 5) /\
                 same_outside [r] (pm_mem s) (pm_mem s')
     end) /\
  (forall pa, page_ok pa -> pa ∉ l ->
     exists s', kfree pa h s = Done tt (settle h) s' /\ free_list s' (pa :: l) /\
       same_outside [pa] (pm_mem s) (pm_mem s')) /\
  (forall pa, ~ page_ok pa -> kfree pa h s = Panic "kfree").
Proof.
  intros Hwf Hh Hl. split_and!.
  - rewrite (kalloc_run h s l Hl Hwf Hh). destruct l as [|r l]; [by exists s|].
    exists (allocd r s). split_and!; [done|by apply allocd_list| |apply allocd_outside].
    intros x Hx. unfold allocd, in_page in *. simpl. rewrite rd_memset.
    rewrite decide_True; [done|]. by rewrite u32_id.
  - intros pa Hp Hn. exists (freed pa s).
    split_and!; [by apply kfree_run|by apply freed_list|apply freed_outside].
  - intros pa Hp. by apply kfree_bad.
Qed.

(** C8: after kinit, whatever kalloc and kfree calls the kernel makes, as long as
    it frees only pages it holds: no page is handed out twice, no page is lost
    (each managed page is free or owned), and kalloc returns 0 only when every
    managed page is owned. *)
Theorem no_page_allocated_twice (h h' : hart) (s s' : pm) (owned : list Z) :
  hart_wf h -> L_kmem ∉ h_held h -> pm_freelist s = 0 ->
  (exists h0 s0, kinit h s = Done tt h0 s0 /\ rtc kmem_step ([], h0, s0) (owned, h', s')) ->
  NoDup owned /\ (forall x, x ∈ owned -> page_ok x) /\
  exists r h1 s1, kalloc h' s' = Done r h1 s1 /\ (r ∉ owned) /\
    (r = 0 <-> forall x, page_ok x -> x ∈ owned).
Proof.
  intros Hwf Hh Hs (h0 & s0 & E & Hsteps).
  destruct (kinit_run h s Hwf Hh Hs) as (l & h1 & s1 & E1 & Hh1 & Hl & Hx).
  rewrite E in E1. simplify_eq.
  apply partition_steps in Hsteps as (Hwf' & Hh' & l' & Hl' & Hn & Hx').
  - apply NoDup_app in Hn as (Hn1 & Hn2 & Hn3). split_and!; [done| |].
    { intros x Hin. apply Hx', elem_of_app. by left. }
    rewrite (kalloc_run h' s' l' Hl' Hwf' Hh'). destruct l' as [|r l'].
    + do 3 eexists. split; [done|]. rewrite app_nil_r in Hx'. split.
      * intros Hz. apply Hx', page_ok_pos in Hz. lia.
      * split; [|done]. intros _ x. apply Hx'.
    + do 3 eexists. split; [done|]. assert (Hr : r ∉ owned).
      { intros Hin. apply (Hn2 r Hin). constructor. }
      assert (Hok : page_ok r) by (apply Hx', elem_of_app; right; constructor).
      split; [done|]. split; [apply page_ok_pos in Hok; lia|].
      intros Hall. destruct Hr. by apply Hall.
  - simpl. destruct Hh1 as [-> | ->].
    + split_and!; [done|done|]. exists l. by split_and!; [|apply Hl|].
    + split_and!; [solve_hart|by autorewrite with hart|]. exists l. by split_and!; [|apply Hl|].
Qed.

End kalloc.

(** ** Witnesses: a machine with nine pages *)

#[export] Instance demo_layout : Layout := {|
  l_etext := KERNBASE + 0x8000; l_end := PHYSTOP - 9 * PGSIZE - 10;
  l_trampoline := KERNBASE + 0x7000 |}.

#[export] Instance demo_layout_ok : LayoutOk.
Proof. by constructor. Qed.

Definition demo_pm : pm := Pm ∅ 0.

Lemma demo_kmem_free : L_kmem ∉ h_held (demo_hart 0).
Proof. apply not_elem_of_nil. Qed.

Definition demo_page : Z := PHYSTOP - PGSIZE.

Lemma demo_page_ok : page_ok demo_page.
Proof. by vm_compute. Qed.

Lemma demo_end_not_ok : ~ page_ok l_end.
Proof. unfold page_ok. vm_compute. intros [? _]. discriminate. Qed.

Lemma kinit_frees_every_page_witness :
  exists l h' s', kinit (demo_hart 0) demo_pm = Done tt h' s' /\ free_list s' l /\
    demo_page ∈ l /\ l_end ∉ l.
Proof.
  destruct (kinit_frees_every_page (demo_hart 0) demo_pm (demo_hart_wf 0) demo_kmem_free eq_refl)
    as (l & h' & s' & E & _ & Hl & Hx).
  exists l, h', s'. split; [exact E|]. split; [exact Hl|]. rewrite !Hx.
  split; [exact demo_page_ok|exact demo_end_not_ok].
Defined.

Definition demo_free1 : pm := Pm (store64 ∅ demo_page 0) demo_page.

Lemma demo_free1_list : free_list demo_free1 [demo_page].
Proof.
  constructor; [|apply NoDup_singleton]. simpl. rewrite load64_store64. done.
Qed.

Lemma kalloc_kfree_behave_witness :
  (exists s', kalloc (demo_hart 0) demo_free1 = Done demo_page (settle (demo_hart 0)) s' /\
     free_list s' [] /\ rd (pm_mem s') (demo_page + 7) = 5) /\
  kfree (demo_page + 1) (demo_hart 0) demo_free1 = Panic "kfree".
Proof.
  destruct (kalloc_kfree_behave (demo_hart 0) demo_free1 [demo_page] (demo_hart_wf 0)
    demo_kmem_free demo_free1_list) as ((s' & E & Hl & H5 & _) & _ & Hbad).
  split.
  - exists s'. split_and!; [done|done|]. by apply H5.
  - apply Hbad. intros [Hm _]. vm_compute in Hm. discriminate.
Defined.

Lemma no_page_allocated_twice_witness :
  exists h0 s0, kinit (demo_hart 0) demo_pm = Done tt h0 s0 /\
  exists r h1 s1, kalloc h0 s0 = Done r h1 s1 /\ r <> 0.
Proof.
  destruct (kinit_run (demo_hart 0) demo_pm (demo_hart_wf 0) demo_kmem_free eq_refl)
    as (l & h0 & s0 & E & _).
  exists h0, s0. split; [exact E|].
  destruct (no_page_allocated_twice (demo_hart 0) h0 demo_pm s0 [] (demo_hart_wf 0)
    demo_kmem_free eq_refl) as (_ & _ & r & h1 & s1 & E1 & _ & Hr).
  { exists h0, s0. split; [exact E|apply rtc_refl]. }
  exists r, h1, s1. split; [exact E1|]. rewrite Hr. intros Hall.
  apply (not_elem_of_nil demo_page), Hall, demo_page_ok.
Defined.
