(* ===== verification/Vm.v ===== *)
(** * Vm

    kernel/vm.c (and proc_mapstacks of kernel/proc.c): Sv39 page tables that
    live in physical memory. A [pagetable_t] is the address of its root page, a
    [pte_t *] the address of the entry; the state is that of Kalloc. *)
From stdpp Require Import base tactics list numbers gmap strings sets.
From S2P Require Import Prelude Machine Spinlock Bytes Queue Kalloc.

(** ** Page-table entries (kernel/riscv.h) *)

Definition PTE_V : Z := 1.
Definition PTE_R : Z := 2.
Definition PTE_W : Z := 4.
Definition PTE_X : Z := 8.
Definition PTE_U : Z := 16.

Definition PA2PTE (pa : Z) : Z := u64 (Z.shiftl (Z.shiftr pa 12) 10).
Definition PTE2PA (pte : Z) : Z := u64 (Z.shiftl (Z.shiftr pte 10) 12).
Definition PTE_FLAGS (pte : Z) : Z := Z.land pte 0x3FF.

Definition PXSHIFT (level : Z) : Z := 12 + 9 * level.
Definition PX (level va : Z) : Z := Z.land (Z.shiftr va (PXSHIFT level)) 0x1FF.
Definition MAXVA : Z := Z.shiftl 1 (9 + 9 + 9 + 12 - 1).

(** ** Addresses of the memory map (kernel/memlayout.h) *)

Definition UART0 : Z := 0x10000000.
Definition VIRTIO0 : Z := 0x10001000.
Definition PLIC : Z := 0x0c000000.
Definition TRAMPOLINE : Z := MAXVA - PGSIZE.
Definition KSTACK (p : Z) : Z := TRAMPOLINE - (p + 1) * 2 * PGSIZE.
Definition TRAPFRAME : Z := TRAMPOLINE - PGSIZE.

(** [pte & bits] as a condition. *)
Definition has (pte bits : Z) : bool := truthy (Z.land pte bits).

Section vm.
Context `{Layout}.

(** ** walk *)

(** The loop from [level] down to 1, then the address of the level-0 entry. *)
Fixpoint walk_loop (level : nat) (pagetable va : Z) (alloc : bool) : K pm Z :=
  match level with
  | O => ret (pagetable + 8 * PX 0 va)
  | S l =>
      let pte := pagetable + 8 * PX (Z.of_nat level) va in
      v <- gets (fun s => load64 (pm_mem s) pte);;
      if has v PTE_V then walk_loop l (PTE2PA v) va alloc
      else if negb alloc then ret 0 else
        pagetable <- kalloc;;
        if pagetable =? 0 then ret 0 else
        modify (fun s => set_mem (memset (pm_mem s) pagetable 0 PGSIZE) s);;
        modify (fun s => set_mem (store64 (pm_mem s) pte (Z.lor (PA2PTE pagetable) PTE_V)) s);;
        walk_loop l pagetable va alloc
  end.

Definition walk (pagetable va : Z) (alloc : bool) : K pm Z :=
  if MAXVA <=? va then panic "walk" else walk_loop 2 pagetable va alloc.

Definition walkaddr (pagetable va : Z) : K pm Z :=
  if MAXVA <=? va then ret 0 else
  pte <- walk pagetable va false;;
  if pte =? 0 then ret 0 else
  v <- gets (fun s => load64 (pm_mem s) pte);;
  if negb (has v PTE_V) then ret 0 else
  if negb (has v PTE_U) then ret 0 else
  ret (PTE2PA v).

(** ** Mapping and unmapping *)

Fixpoint mappages_loop (fuel : nat) (pagetable a last pa perm : Z) : K pm Z :=
  match fuel with
  | O => nofuel
  | S f =>
      pte <- walk pagetable a true;;
      if pte =? 0 then ret (-1) else
      v <- gets (fun s => load64 (pm_mem s) pte);;
      if has v PTE_V then panic "mappages: remap" else
      modify (fun s => set_mem (store64 (pm_mem s) pte (Z.lor (Z.lor (PA2PTE pa) perm) PTE_V)) s);;
      if a =? last then ret 0
      else mappages_loop f pagetable (u64 (a + PGSIZE)) last (u64 (pa + PGSIZE)) perm
  end.

(** One iteration per page; when [va + size - 1] wraps below [a], the loop runs
    until walk panics at MAXVA. *)
Definition mappages_fuel (a last : Z) : nat :=
  S (Z.to_nat (if a <=? last then (last - a) / PGSIZE else (MAXVA - a) / PGSIZE + 1)).

Definition mappages (pagetable va size pa perm : Z) : K pm Z :=
  if size =? 0 then panic "mappages: size" else
  let a := PGROUNDDOWN va in
  let last := PGROUNDDOWN (u64 (va + size - 1)) in
  mappages_loop (mappages_fuel a last) pagetable a last pa perm.

Fixpoint uvmunmap_loop (fuel : nat) (pagetable a bound : Z) (do_free : bool) : K pm unit :=
  if negb (a <? bound) then ret tt else
  match fuel with
  | O => nofuel
  | S f =>
      pte <- walk pagetable a false;;
      if pte =? 0 then panic "uvmunmap: walk" else
      v <- gets (fun s => load64 (pm_mem s) pte);;
      if negb (has v PTE_V) then panic "uvmunmap: not mapped" else
      if PTE_FLAGS v =? PTE_V then panic "uvmunmap: not a leaf" else
      when do_free (kfree (PTE2PA v));;
      modify (fun s => set_mem (store64 (pm_mem s) pte 0) s);;
      uvmunmap_loop f pagetable (a + PGSIZE) bound do_free
  end.

Definition uvmunmap (pagetable va npages : Z) (do_free : bool) : K pm unit :=
  if negb (va mod PGSIZE =? 0) then panic "uvmunmap: not aligned" else
  let bound := u64 (va + npages * PGSIZE) in
  uvmunmap_loop (Z.to_nat ((bound - va) / PGSIZE)) pagetable va bound do_free.

(** ** User address spaces *)

Definition uvmcreate : K pm Z :=
  pagetable <- kalloc;;
  if pagetable =? 0 then ret 0 else
  modify (fun s => set_mem (memset (pm_mem s) pagetable 0 PGSIZE) s);;
  ret pagetable.

(** [src] is the array of [sz] bytes; [memmove] from kernel data into [mem]. *)
Definition uvminit (pagetable : Z) (src : list Z) (sz : Z) : K pm unit :=
  if PGSIZE <=? sz then panic "inituvm: more than a page" else
  mem <- kalloc;;
  modify (fun s => set_mem (memset (pm_mem s) mem 0 PGSIZE) s);;
  mappages pagetable 0 PGSIZE mem (Z.lor (Z.lor (Z.lor PTE_W PTE_R) PTE_X) PTE_U);;
  modify (fun s => set_mem (write_bytes (pm_mem s) mem (take (Z.to_nat sz) src)) s).

Definition uvmdealloc (pagetable oldsz newsz : Z) : K pm Z :=
  if oldsz <=? newsz then ret oldsz else
  when (PGROUNDUP newsz <? PGROUNDUP oldsz)
    (let npages := i32 ((PGROUNDUP oldsz - PGROUNDUP newsz) / PGSIZE) in
     uvmunmap pagetable (PGROUNDUP newsz) (u64 npages) true);;
  ret newsz.

Fixpoint uvmalloc_loop (fuel : nat) (pagetable oldsz a newsz : Z) : K pm Z :=
  if negb (a <? newsz) then ret newsz else
  match fuel with
  | O => nofuel
  | S f =>
      mem <- kalloc;;
      if mem =? 0 then
        uvmdealloc pagetable a oldsz;;
        ret 0
      else
      modify (fun s => set_mem (memset (pm_mem s) mem 0 PGSIZE) s);;
      r <- mappages pagetable a PGSIZE mem (Z.lor (Z.lor (Z.lor PTE_W PTE_X) PTE_R) PTE_U);;
      if negb (r =? 0) then
        kfree mem;;
        uvmdealloc pagetable a oldsz;;
        ret 0
      else uvmalloc_loop f pagetable oldsz (u64 (a + PGSIZE)) newsz
  end.

Definition uvmalloc (pagetable oldsz newsz : Z) : K pm Z :=
  if newsz <? oldsz then ret oldsz else
  let oldsz := PGROUNDUP oldsz in
  uvmalloc_loop (Z.to_nat ((newsz - oldsz + PGSIZE - 1) / PGSIZE)) pagetable oldsz oldsz newsz.

(** [fuel] bounds the depth of the recursion; Sv39 tables have three levels. *)
Fixpoint freewalk_rec (fuel : nat) (pagetable : Z) : K pm unit :=
  match fuel with
  | O => nofuel
  | S f =>
      forM (upto 512) (fun i =>
        let slot := pagetable + 8 * Z.of_nat i in
        pte <- gets (fun s => load64 (pm_mem s) slot);;
        if has pte PTE_V && (Z.land pte (Z.lor (Z.lor PTE_R PTE_W) PTE_X) =? 0) then
          freewalk_rec f (PTE2PA pte);;
          modify (fun s => set_mem (store64 (pm_mem s) slot 0) s)
        else if has pte PTE_V then panic "freewalk: leaf"
        else ret tt);;
      kfree pagetable
  end.

Definition freewalk (pagetable : Z) : K pm unit := freewalk_rec 3 pagetable.

Definition uvmfree (pagetable sz : Z) : K pm unit :=
  when (0 <? sz) (uvmunmap pagetable 0 (PGROUNDUP sz / PGSIZE) true);;
  freewalk pagetable.

(** [Some i] is the jump to [err] in iteration [i]. *)
Fixpoint uvmcopy_loop (fuel : nat) (old new i sz : Z) : K pm (option Z) :=
  if negb (i <? sz) then ret None else
  match fuel with
  | O => nofuel
  | S f =>
      pte <- walk old i false;;
      if pte =? 0 then panic "uvmcopy: pte should exist" else
      v <- gets (fun s => load64 (pm_mem s) pte);;
      if negb (has v PTE_V) then panic "uvmcopy: page not present" else
      let pa := PTE2PA v in
      let flags := PTE_FLAGS v in
      mem <- kalloc;;
      if mem =? 0 then ret (Some i) else
      modify (fun s => set_mem (memmove (pm_mem s) mem pa PGSIZE) s);;
      r <- mappages new i PGSIZE mem flags;;
      if negb (r =? 0) then
        kfree mem;;
        ret (Some i)
      else uvmcopy_loop f old new (u64 (i + PGSIZE)) sz
  end.

Definition uvmcopy (old new sz : Z) : K pm Z :=
  e <- uvmcopy_loop (Z.to_nat ((sz + PGSIZE - 1) / PGSIZE)) old new 0 sz;;
  match e with
  | None => ret 0
  | Some i => uvmunmap new 0 (i / PGSIZE) true;; ret (-1)
  end.

Definition uvmclear (pagetable va : Z) : K pm unit :=
  pte <- walk pagetable va false;;
  if pte =? 0 then panic "uvmclear" else
  modify (fun s => set_mem (store64 (pm_mem s) pte
                              (Z.land (load64 (pm_mem s) pte) (Z.lnot PTE_U))) s).

(** ** Copying between kernel and user memory

    The kernel side is the list of bytes copied; every iteration copies at least
    one byte. *)

Fixpoint copyout_loop (fuel : nat) (pagetable dstva : Z) (src : list Z) : K pm Z :=
  match src with
  | [] => ret 0
  | _ =>
      match fuel with
      | O => nofuel
      | S f =>
          let va0 := PGROUNDDOWN dstva in
          pa0 <- walkaddr pagetable va0;;
          if pa0 =? 0 then ret (-1) else
          let n := Z.to_nat (Z.min (PGSIZE - (dstva - va0)) (Z.of_nat (length src))) in
          modify (fun s => set_mem (write_bytes (pm_mem s) (pa0 + (dstva - va0)) (take n src)) s);;
          copyout_loop f pagetable (u64 (va0 + PGSIZE)) (drop n src)
      end
  end.

Definition copyout (pagetable dstva : Z) (src : list Z) : K pm Z :=
  copyout_loop (length src) pagetable dstva src.

(** Result: the return value and the bytes stored at [dst]. *)
Fixpoint copyin_loop (fuel : nat) (pagetable srcva len : Z) : K pm (Z * list Z) :=
  if negb (0 <? len) then ret (0, []) else
  match fuel with
  | O => nofuel
  | S f =>
      let va0 := PGROUNDDOWN srcva in
      pa0 <- walkaddr pagetable va0;;
      if pa0 =? 0 then ret (-1, []) else
      let n := Z.min (PGSIZE - (srcva - va0)) len in
      bs <- gets (fun s => read_bytes (pm_mem s) (pa0 + (srcva - va0)) (Z.to_nat n));;
      r <- copyin_loop f pagetable (u64 (va0 + PGSIZE)) (len - n);;
      ret (r.1, bs ++ r.2)
  end.

Definition copyin (pagetable srcva len : Z) : K pm (Z * list Z) :=
  copyin_loop (Z.to_nat len) pagetable srcva len.

(** The inner loop of copyinstr: the bytes stored and whether a NUL was met. *)
Fixpoint copyinstr_page (m : mem) (p : Z) (n : nat) : bool * list Z :=
  match n with
  | O => (false, [])
  | S n' =>
      if rd m p =? 0 then (true, [0])
      else let '(got, bs) := copyinstr_page m (p + 1) n' in (got, rd m p :: bs)
  end.

Fixpoint copyinstr_loop (fuel : nat) (pagetable srcva max : Z) : K pm (Z * list Z) :=
  if negb (0 <? max) then ret (-1, []) else
  match fuel with
  | O => nofuel
  | S f =>
      let va0 := PGROUNDDOWN srcva in
      pa0 <- walkaddr pagetable va0;;
      if pa0 =? 0 then ret (-1, []) else
      let n := Z.min (PGSIZE - (srcva - va0)) max in
      gb <- gets (fun s => copyinstr_page (pm_mem s) (pa0 + (srcva - va0)) (Z.to_nat n));;
      if gb.1 then ret (0, gb.2) else
      r <- copyinstr_loop f pagetable (u64 (va0 + PGSIZE)) (max - n);;
      ret (r.1, gb.2 ++ r.2)
  end.

Definition copyinstr (pagetable srcva max : Z) : K pm (Z * list Z) :=
  copyinstr_loop (Z.to_nat max) pagetable srcva max.

(** ** The kernel's page table *)

Definition kvmmap (kpgtbl va pa sz perm : Z) : K pm unit :=
  r <- mappages kpgtbl va sz pa perm;;
  if negb (r =? 0) then panic "kvmmap" else ret tt.

Definition proc_mapstacks (kpgtbl : Z) : K pm unit :=
  forM (upto NPROC) (fun p =>
    pa <- kalloc;;
    if pa =? 0 then panic "kalloc" else
    kvmmap kpgtbl (KSTACK (Z.of_nat p)) pa PGSIZE (Z.lor PTE_R PTE_W)).

Definition kvmmake : K pm Z :=
  kpgtbl <- kalloc;;
  modify (fun s => set_mem (memset (pm_mem s) kpgtbl 0 PGSIZE) s);;
  kvmmap kpgtbl UART0 UART0 PGSIZE (Z.lor PTE_R PTE_W);;
  kvmmap kpgtbl VIRTIO0 VIRTIO0 PGSIZE (Z.lor PTE_R PTE_W);;
  kvmmap kpgtbl PLIC PLIC 0x400000 (Z.lor PTE_R PTE_W);;
  kvmmap kpgtbl KERNBASE KERNBASE (l_etext - KERNBASE) (Z.lor PTE_R PTE_X);;
  kvmmap kpgtbl l_etext l_etext (PHYSTOP - l_etext) (Z.lor PTE_R PTE_W);;
  kvmmap kpgtbl TRAMPOLINE l_trampoline PGSIZE (Z.lor PTE_R PTE_X);;
  proc_mapstacks kpgtbl;;
  ret kpgtbl.

End vm.
