(* ===== verification/Pagetable.v ===== *)
(** * Pagetable

    The tree a page-table root spans in physical memory and the address space it
    stands for: [reach] follows the valid entries of a path of indices, [entry]
    is the level-0 entry of a virtual address (0 where a table page is missing).
    [pt_own] says which pages the tree occupies; the lemmas show how linking a
    new table page and storing a level-0 entry change the address space. *)
From stdpp Require Import base tactics list numbers gmap strings sets.
From S2P Require Import Prelude Machine Spinlock Bytes Queue Kalloc Vm.

(** ** Bits of an entry *)

Lemma land_shifted a f n : 0 <= n -> 0 <= f < 2 ^ n -> Z.land (a * 2 ^ n) f = 0.
Proof.
  intros Hn Hf. apply Z.bits_inj'. intros i Hi. rewrite Z.land_spec, Z.bits_0.
  destruct (decide (i < n)).
  - by rewrite Z.mul_pow2_bits_low by lia.
  - rewrite <-(Z.mod_small f (2 ^ n)) by lia.
    rewrite Z.mod_pow2_bits_high by lia. apply andb_false_r.
Qed.

Lemma lor_add a f n : 0 <= n -> 0 <= f < 2 ^ n -> Z.lor (a * 2 ^ n) f = a * 2 ^ n + f.
Proof.
  intros. pose proof (land_shifted a f n ltac:(lia) ltac:(lia)) as E.
  rewrite Z.add_nocarry_lxor by done. by rewrite Z.lxor_lor by done.
Qed.

(** Physical page addresses that fit an entry. *)
Definition pa_ok (pa : Z) : Prop := pa mod PGSIZE = 0 /\ 0 <= pa < 2 ^ 56.

Lemma PA2PTE_eq pa : 0 <= pa < 2 ^ 56 -> PA2PTE pa = pa / 2 ^ 12 * 2 ^ 10.
Proof.
  intros. unfold PA2PTE. rewrite Z.shiftl_mul_pow2, Z.shiftr_div_pow2 by lia.
  rewrite u64_id; [done|]. zlia.
Qed.

Lemma PTE2PA_eq pte : 0 <= pte < 2 ^ 54 -> PTE2PA pte = pte / 2 ^ 10 * 2 ^ 12.
Proof.
  intros. unfold PTE2PA. rewrite Z.shiftl_mul_pow2, Z.shiftr_div_pow2 by lia.
  rewrite u64_id; [done|]. zlia.
Qed.

(** The entry for page [pa] with the flag bits [f]. *)
Definition leaf (pa f : Z) : Z := Z.lor (Z.lor (PA2PTE pa) f) PTE_V.

Lemma lor_range a b n : 0 <= n -> 0 <= a < 2 ^ n -> 0 <= b < 2 ^ n -> 0 <= Z.lor a b < 2 ^ n.
Proof.
  intros Hn Ha Hb. split; [apply Z.lor_nonneg; lia|].
  destruct (decide (Z.lor a b = 0)) as [->|Hz]; [lia|].
  apply Z.log2_lt_pow2; [pose proof (proj2 (Z.lor_nonneg a b) ltac:(lia)); lia|].
  rewrite Z.log2_lor by lia.
  destruct (decide (a = 0)) as [->|]; [|destruct (decide (b = 0)) as [->|]].
  - rewrite Z.lor_0_l in Hz. rewrite Z.max_r by (simpl; apply Z.log2_nonneg).
    apply Z.log2_lt_pow2; lia.
  - rewrite Z.max_l by (simpl; apply Z.log2_nonneg). apply Z.log2_lt_pow2; lia.
  - apply Z.max_lub_lt; apply Z.log2_lt_pow2; lia.
Qed.

Lemma leaf_eq pa f :
  pa_ok pa -> 0 <= f < 2 ^ 10 -> leaf pa f = pa / 2 ^ 12 * 2 ^ 10 + Z.lor f PTE_V.
Proof.
  intros [? ?] Hf. unfold leaf. rewrite PA2PTE_eq by lia. rewrite <-Z.lor_assoc.
  apply lor_add; [lia|]. apply lor_range; unfold PTE_V; lia.
Qed.

Lemma leaf_range pa f : pa_ok pa -> 0 <= f < 2 ^ 10 -> 0 <= leaf pa f < 2 ^ 54.
Proof.
  intros Hpa Hf. rewrite leaf_eq by done. destruct Hpa.
  pose proof (lor_range f PTE_V 10 ltac:(lia) Hf ltac:(unfold PTE_V; lia)). zlia.
Qed.

Lemma PTE2PA_leaf pa f : pa_ok pa -> 0 <= f < 2 ^ 10 -> PTE2PA (leaf pa f) = pa.
Proof.
  intros Hpa Hf. rewrite PTE2PA_eq by (by apply leaf_range). rewrite leaf_eq by done.
  pose proof (lor_range f PTE_V 10 ltac:(lia) Hf ltac:(unfold PTE_V; lia)).
  destruct Hpa as [Hm Hr]. unfold PGSIZE in Hm. zlia.
Qed.

Lemma PTE_FLAGS_leaf pa f : pa_ok pa -> 0 <= f < 2 ^ 10 -> PTE_FLAGS (leaf pa f) = Z.lor f PTE_V.
Proof.
  intros Hpa Hf. unfold PTE_FLAGS. change 0x3FF with (Z.ones 10).
  rewrite Z.land_ones by lia. rewrite leaf_eq by done.
  pose proof (lor_range f PTE_V 10 ltac:(lia) Hf ltac:(unfold PTE_V; lia)).
  rewrite Z.add_comm, Z.mod_add by lia. apply Z.mod_small. lia.
Qed.

(** A flag test only looks at the flag bits. *)
Lemma has_leaf pa f b :
  pa_ok pa -> 0 <= f < 2 ^ 10 -> 0 <= b < 2 ^ 10 -> has (leaf pa f) b = has (Z.lor f PTE_V) b.
Proof.
  intros Hpa Hf Hb. unfold has. do 1 f_equal. rewrite leaf_eq by done.
  pose proof (lor_range f PTE_V 10 ltac:(lia) Hf ltac:(unfold PTE_V; lia)).
  rewrite <-lor_add by lia. rewrite Z.land_lor_distr_l, land_shifted by lia.
  apply Z.lor_0_l.
Qed.

Lemma has_V_lor f : has (Z.lor f PTE_V) PTE_V = true.
Proof.
  unfold has, PTE_V. change (Z.land (Z.lor f 1) 1) with (Z.land (Z.lor f 1) (Z.ones 1)).
  assert (E : Z.testbit (Z.land (Z.lor f 1) (Z.ones 1)) 0 = true).
  { rewrite Z.land_spec, Z.lor_spec. simpl. by rewrite orb_true_r. }
  apply truthy_byte. pose proof (Z.land_ones (Z.lor f 1) 1 ltac:(lia)) as E2.
  rewrite E2 in *. pose proof (Z.mod_pos_bound (Z.lor f 1) (2 ^ 1) ltac:(lia)).
  destruct (decide ((Z.lor f 1) mod 2 ^ 1 = 0)) as [Hz|]; [|lia].
  rewrite Hz in E. done.
Qed.

Lemma has_V_leaf pa f : pa_ok pa -> 0 <= f < 2 ^ 10 -> has (leaf pa f) PTE_V = true.
Proof. intros. rewrite has_leaf by (auto; done). apply has_V_lor. Qed.

(** A pointer to a table page is a leaf without flags. *)
Lemma link_leaf q : Z.lor (PA2PTE q) PTE_V = leaf q 0.
Proof. unfold leaf. by rewrite Z.lor_0_r. Qed.

Lemma leaf_0_RWX q : pa_ok q -> Z.land (leaf q 0) (Z.lor (Z.lor PTE_R PTE_W) PTE_X) = 0.
Proof.
  intros Hq. pose proof (has_leaf q 0 14 Hq ltac:(lia) ltac:(lia)) as E.
  unfold has, truthy in E. change (Z.lor (Z.lor PTE_R PTE_W) PTE_X) with 14.
  change (negb (Z.land (Z.lor 0 PTE_V) 14 =? 0)) with false in E. by bool_to_prop.
Qed.

Lemma has_0 b : has 0 b = false.
Proof. done. Qed.

(** ** Indices *)

Lemma PX_eq level va : 0 <= level -> PX level va = (va / 2 ^ (12 + 9 * level)) mod 512.
Proof.
  intros. unfold PX, PXSHIFT. change 0x1FF with (Z.ones 9).
  rewrite Z.land_ones, Z.shiftr_div_pow2 by lia. done.
Qed.

Lemma PX_range level va : 0 <= level -> 0 <= PX level va < 512.
Proof. intros. rewrite PX_eq by done. apply Z.mod_pos_bound. lia. Qed.

Lemma MAXVA_eq : MAXVA = 2 ^ 38.
Proof. done. Qed.

(** The three indices determine the page. *)
Lemma PX_page va va' :
  0 <= va < MAXVA -> 0 <= va' < MAXVA ->
  PX 2 va = PX 2 va' -> PX 1 va = PX 1 va' -> PX 0 va = PX 0 va' ->
  va / PGSIZE = va' / PGSIZE.
Proof.
  rewrite MAXVA_eq. intros Hv Hv'. rewrite !PX_eq by lia.
  change (12 + 9 * 2) with 30. change (12 + 9 * 1) with 21. change (12 + 9 * 0) with 12.
  unfold PGSIZE. intros. zlia.
Qed.

Lemma PX_same_page level va va' :
  0 <= level -> va / PGSIZE = va' / PGSIZE -> PX level va = PX level va'.
Proof.
  intros Hl E. rewrite !PX_eq by done. f_equal.
  rewrite Z.pow_add_r by lia. change (2 ^ 12) with PGSIZE.
  rewrite <-!Z.div_div by (unfold PGSIZE; lia). by rewrite E.
Qed.

(** ** The tree of table pages *)

Fixpoint reach (m : mem) (p : Z) (path : list Z) : option Z :=
  match path with
  | [] => Some p
  | i :: path' =>
      let pte := load64 m (p + 8 * i) in
      if has pte PTE_V then reach m (PTE2PA pte) path' else None
  end.

(** Paths to table pages: the root has level 2, so at most two indices. *)
Definition vpath (path : list Z) : Prop :=
  (length path <= 2)%nat /\ Forall (fun i => 0 <= i < 512) path.

Definition path_of (va : Z) : list Z := [PX 2 va; PX 1 va].

Definition slot_addr (m : mem) (root va : Z) : option Z :=
  (fun p => p + 8 * PX 0 va) <$> reach m root (path_of va).

(** The address space: the level-0 entry of each virtual address. *)
Definition entry (m : mem) (root va : Z) : Z :=
  match slot_addr m root va with Some a => load64 m a | None => 0 end.

Section tree.
Context `{LayoutOk}.

Definition RWX : Z := Z.lor (Z.lor PTE_R PTE_W) PTE_X.

(** The table pages of [root] are exactly [ps], and form a tree. *)
Record pt_own (m : mem) (root : Z) (ps : list Z) : Prop := {
  po_inj : forall π π' p, vpath π -> vpath π' ->
    reach m root π = Some p -> reach m root π' = Some p -> π = π';
  po_in : forall π p, vpath π -> reach m root π = Some p -> p ∈ ps;
  po_all : forall p, p ∈ ps -> exists π, vpath π /\ reach m root π = Some p;
  po_ok : Forall page_ok ps;
  po_nodup : NoDup ps;
  (* entries above level 0 point to tables: no R, W or X *)
  po_link : forall π i p, vpath (π ++ [i]) -> reach m root π = Some p ->
    has (load64 m (p + 8 * i)) PTE_V = true -> Z.land (load64 m (p + 8 * i)) RWX = 0;
  (* the upper half of the root is unused: MAXVA is 2^38 *)
  po_high : forall i, 256 <= i < 512 -> has (load64 m (root + 8 * i)) PTE_V = false;
}.

Lemma page_ok_pa pa : page_ok pa -> pa_ok pa.
Proof.
  pose proof end_pos. intros [? ?]. split; [done|]. unfold PHYSTOP, KERNBASE in *. lia.
Qed.

Lemma po_page m root ps π p :
  pt_own m root ps -> vpath π -> reach m root π = Some p -> page_ok p.
Proof.
  intros Ho Hv Hr. pose proof (po_ok _ _ _ Ho) as Hok. rewrite Forall_forall in Hok.
  by eapply Hok, po_in.
Qed.

Lemma vpath_snoc π i : vpath (π ++ [i]) <-> (length π <= 1)%nat /\ vpath π /\ 0 <= i < 512.
Proof.
  unfold vpath. rewrite length_app, Forall_app. simpl. split.
  - intros [? [? Hi]]. inversion Hi; subst. split_and!; auto; lia.
  - intros (? & [? ?] & ?). split_and!; auto; lia.
Qed.

Lemma vpath_nil : vpath [].
Proof. split; [simpl; lia|constructor]. Qed.

Lemma vpath_of va : vpath (path_of va).
Proof. split; [simpl; lia|]. repeat constructor; apply PX_range; lia. Qed.

Lemma reach_snoc m p π j :
  reach m p (π ++ [j]) =
  match reach m p π with
  | Some q => if has (load64 m (q + 8 * j)) PTE_V then Some (PTE2PA (load64 m (q + 8 * j))) else None
  | None => None
  end.
Proof.
  revert p. induction π as [|i π IH]; intros p; simpl; [done|]. case_if; [apply IH|done].
Qed.

(** Memories that agree on the entries along a path reach the same page. *)
Lemma reach_ext m m' root π :
  (forall π1 j π2 p, π = π1 ++ j :: π2 -> reach m root π1 = Some p ->
     load64 m' (p + 8 * j) = load64 m (p + 8 * j)) ->
  reach m' root π = reach m root π.
Proof.
  revert root. induction π as [|i π IH]; intros root Hx; [done|]. simpl.
  rewrite (Hx [] i π root) by done. case_if; [|done]. apply IH.
  intros π1 j π2 p -> Hr. apply (Hx (i :: π1) j π2); [done|]. simpl. by rewrite E.
Qed.

Lemma vpath_prefix π1 j π2 : vpath (π1 ++ j :: π2) -> vpath (π1 ++ [j]).
Proof.
  unfold vpath. rewrite !length_app, !Forall_app. simpl. intros [? [? Hj]].
  inversion Hj; subst. split; [lia|]. split; [done|]. by constructor; [|constructor].
Qed.

(** An entry lies in its table page. *)
Lemma slot_in_page p i x : 0 <= i < 512 -> p + 8 * i <= x < p + 8 * i + 8 -> in_page p x.
Proof. unfold in_page, PGSIZE. lia. Qed.

Lemma load64_slot_page m m' p i :
  (forall x, in_page p x -> rd m' x = rd m x) -> 0 <= i < 512 ->
  load64 m' (p + 8 * i) = load64 m (p + 8 * i).
Proof. intros Hx Hi. apply load64_ext. intros x ?. by eapply Hx, slot_in_page. Qed.

(** Entries at different slots do not overlap. *)
Lemma load64_store64_slot m p i q j v :
  page_ok p -> page_ok q -> 0 <= i < 512 -> 0 <= j < 512 -> (p, i) <> (q, j) ->
  load64 (store64 m (p + 8 * i) v) (q + 8 * j) = load64 m (q + 8 * j).
Proof.
  intros [Hp _] [Hq _] Hi Hj Hne. apply load64_store64_other.
  destruct (decide (p = q)) as [->|Hpq].
  - assert (i <> j) by congruence. lia.
  - unfold PGSIZE in *. zlia.
Qed.

(** ** Writes outside the table pages *)

Lemma reach_same m m' root ps π :
  pt_own m root ps -> (forall p x, p ∈ ps -> in_page p x -> rd m' x = rd m x) -> vpath π ->
  reach m' root π = reach m root π.
Proof.
  intros Ho Hx Hv. apply reach_ext. intros π1 j π2 p -> Hr.
  apply vpath_prefix, vpath_snoc in Hv as (_ & Hv & Hj).
  apply load64_slot_page; [|done]. intros x. apply Hx. by eapply po_in.
Qed.

Lemma entry_same m m' root ps va :
  pt_own m root ps -> (forall p x, p ∈ ps -> in_page p x -> rd m' x = rd m x) ->
  entry m' root va = entry m root va.
Proof.
  intros Ho Hx. unfold entry, slot_addr.
  rewrite (reach_same m m' root ps) by (auto using vpath_of).
  destruct (reach m root (path_of va)) as [p|] eqn:E; simpl; [|done].
  apply load64_slot_page; [|apply PX_range; lia]. intros x. apply Hx.
  exact (po_in _ _ _ Ho _ _ (vpath_of va) E).
Qed.

Lemma pt_own_same m m' root ps :
  pt_own m root ps -> (forall p x, p ∈ ps -> in_page p x -> rd m' x = rd m x) ->
  pt_own m' root ps.
Proof.
  intros Ho Hx. assert (E : forall π, vpath π -> reach m' root π = reach m root π)
    by (intros; by eapply reach_same).
  constructor.
  - intros π π' p Hv Hv'. rewrite !E by done. by apply (po_inj _ _ _ Ho).
  - intros π p Hv. rewrite E by done. by apply (po_in _ _ _ Ho).
  - intros p Hp. destruct (po_all _ _ _ Ho p Hp) as (π & Hv & Hr). exists π. by rewrite E.
  - apply Ho.
  - apply Ho.
  - intros π i p Hvi. pose proof Hvi as (_ & Hv & Hi)%vpath_snoc. rewrite E by done. intros Hr.
    rewrite (load64_slot_page m m') by (auto; intros x; apply Hx; by eapply po_in).
    by apply (po_link _ _ _ Ho π i p).
  - intros i Hi. rewrite (load64_slot_page m m') by
      (lia || (intros x; apply Hx; exact (po_in _ _ _ Ho _ _ vpath_nil eq_refl))).
    by apply (po_high _ _ _ Ho).
Qed.

Lemma outside_in_page ps qs m m' p x :
  same_outside qs m m' -> p ∈ ps -> (forall q, q ∈ qs -> q ∉ ps) ->
  Forall page_ok ps -> Forall page_ok qs -> in_page p x -> rd m' x = rd m x.
Proof.
  rewrite !Forall_forall. intros Hs Hp Hd Hps Hqs Hx. apply Hs. intros q Hq.
  apply (pages_disjoint p); [apply Hps, Hp|apply Hqs, Hq| |done].
  intros ->. by apply (Hd q).
Qed.

(** ** Linking a new table page *)

Definition table_link (m : mem) (p i q : Z) : mem :=
  store64 (memset m q 0 PGSIZE) (p + 8 * i) (Z.lor (PA2PTE q) PTE_V).

Lemma load64_zeroed m q j : 0 <= j < 512 -> load64 (memset m q 0 PGSIZE) (q + 8 * j) = 0.
Proof.
  intros Hj. rewrite (load64_ext _ ∅); [done|]. intros x Hx.
  rewrite rd_memset, decide_True; [done|]. rewrite u32_id by done. unfold PGSIZE. lia.
Qed.

Section link.
Context (m : mem) (root : Z) (ps π : list Z) (p i q : Z).
Context (Ho : pt_own m root ps) (Hv : vpath (π ++ [i])) (Hr : reach m root π = Some p).
Context (Hinv : has (load64 m (p + 8 * i)) PTE_V = false) (Hq : page_ok q) (Hn : q ∉ ps).
Context (Hlow : π = [] -> i < 256).

Lemma link_parent : page_ok p /\ p <> q /\ vpath π /\ 0 <= i < 512.
Proof.
  apply vpath_snoc in Hv as (_ & Hvp & Hi). split_and!; [by eapply po_page| |done|lia|lia].
  intros ->. apply Hn. by eapply po_in.
Qed.

Lemma link_load_other p' j :
  page_ok p' -> p' <> q -> 0 <= j < 512 -> (p', j) <> (p, i) ->
  load64 (table_link m p i q) (p' + 8 * j) = load64 m (p' + 8 * j).
Proof.
  intros Hp' Hne Hj Hs. destruct link_parent as (Hp & _ & _ & Hi). unfold table_link.
  rewrite load64_store64_slot by (auto; congruence). apply load64_slot_page; [|done].
  intros x Hx. apply memset_page_outside. intros z Hz.
  apply list_elem_of_singleton in Hz as ->.
  apply (pages_disjoint p'); [apply Hp'|apply Hq|done|done].
Qed.

Lemma link_load_new j :
  0 <= j < 512 -> load64 (table_link m p i q) (q + 8 * j) = 0.
Proof.
  intros Hj. destruct link_parent as (Hp & Hpq & _ & Hi). unfold table_link.
  rewrite load64_store64_slot by (auto; congruence). by apply load64_zeroed.
Qed.

Lemma link_load_slot :
  load64 (table_link m p i q) (p + 8 * i) = leaf q 0.
Proof.
  unfold table_link. rewrite load64_store64, link_leaf. apply u64_id.
  pose proof (leaf_range q 0 (page_ok_pa q Hq) ltac:(lia)). lia.
Qed.

Lemma reach_link π' :
  vpath π' ->
  reach (table_link m p i q) root π'
  = if decide (π' = π ++ [i]) then Some q else reach m root π'.
Proof.
  destruct link_parent as (Hp & Hpq & Hvp & Hi).
  induction π' as [|j π' IH] using rev_ind; intros Hv'.
  { rewrite decide_False; [done|]. by destruct π. }
  apply vpath_snoc in Hv' as (Hlen & Hvp' & Hj). rewrite !reach_snoc, IH by done.
  destruct (decide (π' = π ++ [i])) as [->|Hne].
  - rewrite link_load_new by done. rewrite has_0. rewrite reach_snoc, Hr, Hinv.
    rewrite decide_False; [done|]. intros E%(f_equal length).
    rewrite !length_app in E. simpl in E. lia.
  - destruct (decide (π' ++ [j] = π ++ [i])) as [E|Hne'].
    + apply app_inj_tail in E as [-> ->]. rewrite Hr, link_load_slot.
      rewrite has_V_leaf, PTE2PA_leaf by (auto using page_ok_pa; lia). done.
    + destruct (reach m root π') as [p'|] eqn:Hr'; [|done].
      rewrite link_load_other; [done|by eapply po_page| |done|].
      * intros ->. apply Hn. by eapply po_in.
      * intros [= -> ->]. apply Hne'. f_equal. by eapply po_inj.
Qed.

Lemma pt_own_link : pt_own (table_link m p i q) root (q :: ps).
Proof.
  destruct link_parent as (Hp & Hpq & Hvp & Hi). constructor.
  - intros π1 π2 z Hv1 Hv2. rewrite !reach_link by done.
    repeat case_decide; subst; [done| | |by apply (po_inj _ _ _ Ho)].
    all: intros; simplify_eq; destruct Hn; eapply (po_in _ _ _ Ho); [|eassumption]; done.
  - intros π1 z Hv1. rewrite reach_link by done. case_decide.
    + intros [= ->]. constructor.
    + intros Hz. constructor. by eapply po_in.
  - intros z [->|Hz]%elem_of_cons.
    + exists (π ++ [i]). split; [done|]. rewrite reach_link by done. by rewrite decide_True.
    + destruct (po_all _ _ _ Ho z Hz) as (π1 & Hv1 & Hr1). exists π1. split; [done|].
      rewrite reach_link by done. rewrite decide_False; [done|]. intros ->.
      rewrite reach_snoc, Hr, Hinv in Hr1. done.
  - constructor; [done|]. apply Ho.
  - constructor; [done|]. apply Ho.
  - intros π1 j z Hvj. pose proof Hvj as (Hl & Hv1 & Hj)%vpath_snoc. rewrite reach_link by done.
    case_decide as E1.
    { intros [= <-]. by rewrite link_load_new. }
    intros Hz. destruct (decide ((z, j) = (p, i))) as [[= -> ->]|Hne].
    + rewrite link_load_slot. intros _. apply leaf_0_RWX, page_ok_pa, Hq.
    + rewrite link_load_other; [by apply (po_link _ _ _ Ho π1)|by eapply po_page| |done|done].
      intros ->. apply Hn. by eapply po_in.
  - intros j Hj. pose proof (po_in _ _ _ Ho _ _ vpath_nil eq_refl) as Hroot.
    rewrite link_load_other; [by apply (po_high _ _ _ Ho)| | |lia|].
    + exact (po_page _ _ _ _ _ Ho vpath_nil eq_refl).
    + intros ->. contradiction.
    + intros [= <- ->]. specialize (po_inj _ _ _ Ho _ _ _ Hvp vpath_nil Hr eq_refl) as ->.
      specialize (Hlow eq_refl). lia.
Qed.

(** Linking an empty table changes no address. *)
Lemma entry_link va : entry (table_link m p i q) root va = entry m root va.
Proof.
  destruct link_parent as (Hp & Hpq & Hvp & Hi). unfold entry, slot_addr.
  rewrite reach_link by apply vpath_of. case_decide as E.
  - rewrite E, reach_snoc, Hr, Hinv. simpl. apply link_load_new, PX_range. lia.
  - destruct (reach m root (path_of va)) as [p'|] eqn:E'; simpl; [|done].
    apply link_load_other; [exact (po_page _ _ _ _ _ Ho (vpath_of va) E')| |apply PX_range; lia|].
    + intros ->. apply Hn. exact (po_in _ _ _ Ho _ _ (vpath_of va) E').
    + intros [= -> _]. apply vpath_snoc in Hv as (Hl & _ & _).
      assert (Hpi : path_of va = π) by (eapply po_inj; [done|apply vpath_of|done..]).
      rewrite <-Hpi in Hl. simpl in Hl. lia.
Qed.

End link.

(** ** Storing a level-0 entry *)

Section store.
Context (m : mem) (root : Z) (ps : list Z) (va a v : Z).
Context (Ho : pt_own m root ps) (Ha : slot_addr m root va = Some a).

Lemma store_slot :
  exists p, reach m root (path_of va) = Some p /\ a = p + 8 * PX 0 va /\ page_ok p /\ p ∈ ps.
Proof.
  unfold slot_addr in Ha. destruct (reach m root (path_of va)) as [p|] eqn:E; [|done].
  exists p. simpl in Ha. split_and!; [done|congruence| |].
  - exact (po_page _ _ _ _ _ Ho (vpath_of va) E).
  - exact (po_in _ _ _ Ho _ _ (vpath_of va) E).
Qed.

(** Entries above level 0 are unchanged. *)
Lemma store_above π q i :
  (length π <= 1)%nat -> vpath π -> reach m root π = Some q -> 0 <= i < 512 ->
  load64 (store64 m a v) (q + 8 * i) = load64 m (q + 8 * i).
Proof.
  destruct store_slot as (p & Hr & -> & Hp & _). intros Hl Hv1 Hr1 Hj.
  apply load64_store64_slot; [done|by eapply po_page|apply PX_range; lia|done|].
  intros [= -> _]. assert (path_of va = π) as <-
    by (eapply (po_inj _ _ _ Ho); [apply vpath_of|done..]).
  simpl in Hl. lia.
Qed.

Lemma reach_store π : vpath π -> reach (store64 m a v) root π = reach m root π.
Proof.
  intros Hv. apply reach_ext.
  intros π1 j π2 p1 -> Hr1. apply vpath_prefix, vpath_snoc in Hv as (Hl & Hv1 & Hj).
  by eapply store_above.
Qed.

Lemma slot_addr_store va' : slot_addr (store64 m a v) root va' = slot_addr m root va'.
Proof. unfold slot_addr. by rewrite reach_store by apply vpath_of. Qed.

Lemma pt_own_store : pt_own (store64 m a v) root ps.
Proof.
  constructor.
  - intros π π' q Hv Hv'. rewrite !reach_store by done. by apply (po_inj _ _ _ Ho).
  - intros π q Hv. rewrite reach_store by done. by apply (po_in _ _ _ Ho).
  - intros q Hq. destruct (po_all _ _ _ Ho q Hq) as (π & Hv & Hr).
    exists π. by rewrite reach_store.
  - apply Ho.
  - apply Ho.
  - intros π i q Hvi. pose proof Hvi as (Hl & Hv & Hi)%vpath_snoc. rewrite reach_store by done.
    intros Hr. rewrite (store_above π); auto. by apply (po_link _ _ _ Ho π).
  - intros i Hi. rewrite (store_above []); [by apply (po_high _ _ _ Ho)|simpl; lia|apply vpath_nil|done|lia].
Qed.

Lemma entry_store va' :
  0 <= va < MAXVA -> 0 <= va' < MAXVA ->
  entry (store64 m a v) root va'
  = if decide (va' / PGSIZE = va / PGSIZE) then u64 v else entry m root va'.
Proof.
  intros Hva Hva'. unfold entry. rewrite slot_addr_store.
  destruct store_slot as (p & Hr & -> & Hp & _). unfold slot_addr. case_decide as E.
  - assert (Hpath : path_of va' = path_of va)
      by (unfold path_of; by rewrite !(PX_same_page _ va' va) by (done || lia)).
    rewrite Hpath, Hr. simpl. rewrite (PX_same_page 0 va' va) by (done || lia).
    by rewrite load64_store64.
  - destruct (reach m root (path_of va')) as [p'|] eqn:Hr'; simpl; [|done].
    apply load64_store64_slot; [done| |apply PX_range; lia..|].
    + exact (po_page _ _ _ _ _ Ho (vpath_of va') Hr').
    + intros [= -> E0]. apply E.
      pose proof (po_inj _ _ _ Ho _ _ _ (vpath_of va) (vpath_of va') Hr Hr') as [= E2 E1].
      symmetry. by apply PX_page.
Qed.

(** Only bytes of a table page change. *)
Lemma store_outside : same_outside ps m (store64 m a v).
Proof.
  destruct store_slot as (p & Hr & -> & Hp & Hin). eapply same_outside_mono.
  2: { apply (store64_page_outside m p (8 * PX 0 va) v);
         pose proof (PX_range 0 va); unfold PGSIZE; lia. }
  intros x Hx. by apply list_elem_of_singleton in Hx as ->.
Qed.

Lemma slot_pos : 0 < a.
Proof.
  destruct store_slot as (p & Hr & -> & Hp & _). apply page_ok_pos in Hp.
  pose proof (PX_range 0 va). lia.
Qed.

End store.

Lemma entry_slot m root va a : slot_addr m root va = Some a -> load64 m a = entry m root va.
Proof. unfold entry. by intros ->. Qed.

Lemma entry_same_page m root va va' :
  va / PGSIZE = va' / PGSIZE -> entry m root va = entry m root va'.
Proof.
  intros E. unfold entry, slot_addr, path_of.
  by rewrite !(PX_same_page _ va va') by (done || lia).
Qed.

(** ** A fresh table *)

Lemma pt_own_fresh m root :
  page_ok root -> pt_own (memset m root 0 PGSIZE) root [root].
Proof.
  intros Hok. set (m' := memset m root 0 PGSIZE).
  assert (Hr : forall π p, vpath π -> reach m' root π = Some p -> π = [] /\ p = root).
  { intros π p [_ Hv]. destruct π as [|i π]; simpl; [naive_solver|].
    apply Forall_cons in Hv as [Hi _]. unfold m'. by rewrite load64_zeroed. }
  constructor.
  - intros π π' p Hv Hv' E E'. apply Hr in E as [-> _], E' as [-> _]; done.
  - intros π p Hv E. apply Hr in E as [_ ->]; [constructor|done].
  - intros p Hp. apply list_elem_of_singleton in Hp as ->. exists []. split; [apply vpath_nil|done].
  - by constructor.
  - apply NoDup_singleton.
  - intros π i p Hvi E. pose proof Hvi as (_ & Hv & Hi)%vpath_snoc.
    apply Hr in E as [_ ->]; [|done]. unfold m'. by rewrite load64_zeroed.
  - intros i Hi. unfold m'. by rewrite load64_zeroed by lia.
Qed.

Lemma entry_fresh m root va : entry (memset m root 0 PGSIZE) root va = 0.
Proof.
  unfold entry, slot_addr, path_of. simpl. by rewrite load64_zeroed by (apply PX_range; lia).
Qed.

End tree.
