(* ===== verification/VmSpec.v ===== *)
(** * VmSpec

    What the operations of Vm do to the address space of a page table whose
    pages are disjoint from the free pages: mapping, unmapping, growing,
    copying and freeing, including the paths on which memory runs out. *)
From stdpp Require Import base tactics list numbers gmap strings sets.
From S2P Require Import Prelude Machine Spinlock Bytes Queue Kalloc Vm Pagetable.

Section vmspec.
Context `{LayoutOk}.

(** Table pages [ps] of [root], free pages [fl]. *)
Record vm_state (s : pm) (root : Z) (ps fl : list Z) : Prop := {
  vs_own : pt_own (pm_mem s) root ps;
  vs_free : free_list s fl;
  vs_disj : forall p, p ∈ ps -> p ∉ fl;
  vs_ok : mem_ok (pm_mem s);
}.

(** The hart may take the allocator's lock. *)
Definition kmem_ready (h : hart) : Prop := hart_wf h /\ L_kmem ∉ h_held h.

Lemma kmem_ready_calm h h' : calm h h' -> kmem_ready h -> kmem_ready h'.
Proof. intros Hc [? ?]. split; eauto with xv6. Qed.

Lemma kmem_ready_settle h : kmem_ready h -> kmem_ready (settle h).
Proof. apply kmem_ready_calm, calm_settle. Qed.

(** A step that may turn free pages into table pages and changes no other page. *)
Record vm_grow (root : Z) (s : pm) (ps fl : list Z) (s' : pm) (ps' fl' : list Z) : Prop := {
  vg_state : vm_state s' root ps' fl';
  vg_pages : exists new, fl = new ++ fl' /\ ps' ≡ₚ new ++ ps;
  vg_outside : same_outside ps' (pm_mem s) (pm_mem s');
}.

Lemma vg_mono root s ps fl s' ps' fl' : vm_grow root s ps fl s' ps' fl' -> ps ⊆ ps'.
Proof. intros [_ (new & _ & Hp) _] x Hx. rewrite Hp. apply elem_of_app. by right. Qed.

Lemma vg_fl root s ps fl s' ps' fl' x :
  vm_grow root s ps fl s' ps' fl' -> x ∈ ps' -> x ∈ ps \/ x ∈ fl.
Proof.
  intros [_ (new & -> & Hp) _]. rewrite Hp, !elem_of_app. intros [?|?]; auto.
Qed.

Lemma vm_grow_refl root s ps fl : vm_state s root ps fl -> vm_grow root s ps fl s ps fl.
Proof. intros. constructor; [done|by exists []|done]. Qed.

Lemma vm_grow_trans root s1 ps1 fl1 s2 ps2 fl2 s3 ps3 fl3 :
  vm_grow root s1 ps1 fl1 s2 ps2 fl2 -> vm_grow root s2 ps2 fl2 s3 ps3 fl3 ->
  vm_grow root s1 ps1 fl1 s3 ps3 fl3.
Proof.
  intros G1 G2. pose proof (vg_mono _ _ _ _ _ _ _ G2) as Hm.
  destruct G1 as [_ (n1 & -> & Hp1) Ho1], G2 as [Hs (n2 & -> & Hp2) Ho2].
  constructor; [done| |eapply same_outside_trans; [eapply same_outside_mono|]; done].
  exists (n1 ++ n2). split; [by rewrite app_assoc|].
  rewrite Hp2, Hp1, !app_assoc. by rewrite (Permutation_app_comm n2 n1).
Qed.

(** The table pages of [m'] that [m] does not have lie on the way to addresses of [A]. *)
Definition spreads (root : Z) (A : Z -> Prop) (m m' : mem) : Prop :=
  forall π p, vpath π -> reach m' root π = Some p ->
    (exists p', reach m root π = Some p') \/ exists va, A va /\ π `prefix_of` path_of va.

Lemma spreads_refl root A m : spreads root A m m.
Proof. intros π p _ Hr. left. eauto. Qed.

Lemma spreads_trans root A m1 m2 m3 : spreads root A m1 m2 -> spreads root A m2 m3 -> spreads root A m1 m3.
Proof. intros S1 S2 π p Hv Hr. destruct (S2 π p Hv Hr) as [[p' Hr']|?]; [by eapply S1|auto]. Qed.

Lemma spreads_mono root (A B : Z -> Prop) m m' : (forall va, A va -> B va) -> spreads root A m m' -> spreads root B m m'.
Proof. intros HAB S1 π p Hv Hr. destruct (S1 π p Hv Hr) as [?|(va & Ha & Hp)]; eauto 6. Qed.

(** The number of table pages. *)
Lemma tables_bound s root ps fl (l : list (list Z)) :
  vm_state s root ps fl -> (forall π p, vpath π -> reach (pm_mem s) root π = Some p -> π ∈ l) -> (length ps <= length l)%nat.
Proof.
  intros Hv Hp. pose proof (vs_own _ _ _ _ Hv) as Ho. transitivity (length (omap (reach (pm_mem s) root) l)).
  - apply submseteq_length, NoDup_submseteq; [apply Ho|]. intros p Hin.
    destruct (po_all _ _ _ Ho p Hin) as (π & Hvp & Hr). apply list_elem_of_omap. exists π. split; [by eapply Hp|done].
  - clear Hp. induction l as [|π l IH]; [done|]. csimpl. destruct (reach (pm_mem s) root π); csimpl; lia.
Qed.

Lemma root_only m root π p : pt_own m root [root] -> vpath π -> reach m root π = Some p -> π = [].
Proof.
  intros Ho Hv Hr. pose proof (po_in _ _ _ Ho π p Hv Hr) as Hp. apply list_elem_of_singleton in Hp as ->.
  exact (po_inj _ _ _ Ho π [] root Hv vpath_nil Hr eq_refl).
Qed.

(** ** walk without allocation *)

Lemma walk_lookup root va h s :
  va < MAXVA ->
  walk root va false h s = Done (default 0 (slot_addr (pm_mem s) root va)) h s.
Proof.
  intros Hva. unfold walk. case_if; [lia|]. unfold slot_addr, path_of. simpl.
  ksimpl. change (Z.of_nat 2) with 2. case_if; [|done].
  ksimpl. change (Z.of_nat 1) with 1. case_if; done.
Qed.

Lemma walk_found root va a h s :
  va < MAXVA -> slot_addr (pm_mem s) root va = Some a -> walk root va false h s = Done a h s.
Proof. intros Hva Ha. rewrite walk_lookup by done. by rewrite Ha. Qed.

(** What walkaddr translates an address to. *)
Definition translate (m : mem) (root va : Z) : Z :=
  if MAXVA <=? va then 0 else
  let e := entry m root va in
  if has e PTE_V && has e PTE_U then PTE2PA e else 0.

Lemma walkaddr_run root ps va h s :
  pt_own (pm_mem s) root ps -> walkaddr root va h s = Done (translate (pm_mem s) root va) h s.
Proof.
  intros Ho. unfold walkaddr, translate. case_if; [done|].
  rewrite (bind_done _ _ _ _ _ _ _ (walk_lookup root va h s ltac:(lia))).
  unfold entry. destruct (slot_addr (pm_mem s) root va) as [a|] eqn:Ha; simpl; [|done].
  pose proof (slot_pos _ _ _ _ _ Ho Ha). case_if; [lia|]. ksimpl.
  by destruct (has _ PTE_V), (has _ PTE_U).
Qed.

(** ** walk with allocation *)

(** kalloc for a table page, as walk uses it: zeroed and linked. *)
Definition linked_pm (s : pm) (p i q : Z) : pm :=
  Pm (table_link (memset (pm_mem s) q 5 PGSIZE) p i q) (load64 (pm_mem s) q).

Lemma vm_grow_link s root ps q fl π i p :
  vm_state s root ps (q :: fl) -> vpath (π ++ [i]) -> reach (pm_mem s) root π = Some p ->
  has (load64 (pm_mem s) (p + 8 * i)) PTE_V = false -> (π = [] -> i < 256) ->
  vm_grow root s ps (q :: fl) (linked_pm s p i q) (q :: ps) fl /\
  (forall va, entry (pm_mem (linked_pm s p i q)) root va = entry (pm_mem s) root va) /\
  forall π', vpath π' -> reach (pm_mem (linked_pm s p i q)) root π' = if decide (π' = π ++ [i]) then Some q else reach (pm_mem s) root π'.
Proof.
  intros [Ho Hf Hd Hok] Hv Hr Hinv Hlow.
  assert (Hq : page_ok q) by apply Hf.
  assert (Hn : q ∉ ps) by (intros Hin; apply (Hd q Hin); constructor).
  pose proof Hv as (_ & Hvp & Hi)%vpath_snoc.
  pose proof (po_in _ _ _ Ho _ _ Hvp Hr) as Hp.
  set (m1 := memset (pm_mem s) q 5 PGSIZE).
  assert (Hsame : forall p x, p ∈ ps -> in_page p x -> rd m1 x = rd (pm_mem s) x).
  { intros z x Hz. eapply outside_in_page; [apply memset_page_outside|done| |apply Ho|by constructor].
    intros y Hy. by apply list_elem_of_singleton in Hy as ->. }
  assert (Ho1 : pt_own m1 root ps) by (by eapply pt_own_same).
  assert (Hr1 : reach m1 root π = Some p) by (by erewrite reach_same).
  assert (Hinv1 : has (load64 m1 (p + 8 * i)) PTE_V = false).
  { erewrite load64_slot_page; [done| |done]. intros x. by apply Hsame. }
  assert (Hout : same_outside [q; p] (pm_mem s) (table_link m1 p i q)).
  { eapply same_outside_trans; [|eapply same_outside_trans].
    - apply (same_outside_mono [q]); [apply singleton_sub; constructor|]. apply memset_page_outside.
    - apply (same_outside_mono [q]); [apply singleton_sub; constructor|]. apply memset_page_outside.
    - apply (same_outside_mono [p]); [apply singleton_sub; repeat constructor|].
      apply store64_page_outside; unfold PGSIZE; lia. }
  split_and!.
  - constructor.
    + constructor; [by apply (pt_own_link m1 root ps π)| |..].
      * pose proof (allocd_list q s fl Hf) as Hf'. destruct Hf as [_ Hnd].
        apply NoDup_cons in Hnd as [Hqf _].
        apply (free_list_outside (set_mem (pm_mem s) (allocd q s)) _ fl [q; p]); [|done|done| |].
        -- destruct Hf' as [Hl' Hn']. constructor; [|done]. simpl in *.
           eapply linked_outside; [apply Hl'| | |].
           ++ intros x Hx. symmetry. apply (memset_page_outside (pm_mem s) q 5). exact Hx.
           ++ intros y Hy. by apply list_elem_of_singleton in Hy as ->.
           ++ intros y Hy. apply list_elem_of_singleton in Hy as ->. apply Hq.
        -- intros y [->|Hy]%elem_of_cons; [done|]. apply list_elem_of_singleton in Hy as ->.
           intros Hc. apply (Hd p Hp). by constructor.
        -- intros y [->|Hy]%elem_of_cons; [apply Hq|]. apply list_elem_of_singleton in Hy as ->.
           apply (po_page _ _ _ _ _ Ho Hvp Hr).
      * intros y [->|Hy]%elem_of_cons.
        -- destruct Hf as [_ Hnd]. by apply NoDup_cons in Hnd as [? _].
        -- intros Hc. apply (Hd y Hy). by constructor.
      * simpl. by apply store64_ok, memset_ok, memset_ok.
    + exists [q]. split; reflexivity.
    + eapply same_outside_mono; [|exact Hout].
      intros y [->|Hy]%elem_of_cons; [constructor|]. apply list_elem_of_singleton in Hy as ->.
      by constructor.
  - intros va. simpl. fold m1. erewrite (entry_link m1 root ps π) by done.
    by eapply entry_same.
  - intros π' Hv'. simpl. fold m1. rewrite (reach_link m1 root ps π) by done. case_decide; [done|]. by eapply reach_same.
Qed.

(** The indices walk still has to follow at [level]. *)
Fixpoint path_rest (level : nat) (va : Z) : list Z :=
  match level with O => [] | S l => PX (Z.of_nat level) va :: path_rest l va end.

Lemma walk_loop_alloc level π p root ps fl va h s :
  kmem_ready h -> vm_state s root ps fl ->
  path_of va = π ++ path_rest level va -> reach (pm_mem s) root π = Some p -> 0 <= va < MAXVA ->
  exists a h' s' ps' fl', walk_loop level p va true h s = Done a h' s' /\ calm h h' /\
    vm_grow root s ps fl s' ps' fl' /\
    spreads root (eq va) (pm_mem s) (pm_mem s') /\
    (forall va', entry (pm_mem s') root va' = entry (pm_mem s) root va') /\
    (a = 0 /\ fl' = [] \/ slot_addr (pm_mem s') root va = Some a).
Proof.
  revert π p ps fl h s.
  induction level as [|l IH]; intros π p ps fl h s Hh Hs Hpath Hr Hva.
  { exists (p + 8 * PX 0 va), h, s, ps, fl. rewrite app_nil_r in Hpath.
    split_and!; auto using vm_grow_refl, spreads_refl with xv6. right.
    unfold slot_addr. by rewrite Hpath, Hr. }
  set (i := PX (Z.of_nat (S l)) va). cbn [walk_loop]. fold i. ksimpl.
  assert (Hpath' : path_of va = (π ++ [i]) ++ path_rest l va)
    by (rewrite Hpath, <-app_assoc; done).
  assert (Hv : vpath (π ++ [i])).
  { pose proof (vpath_of va) as Hv. rewrite Hpath in Hv. by eapply vpath_prefix. }
  assert (Hlow : π = [] -> i < 256).
  { intros ->. unfold path_of in Hpath. injection Hpath as E _. fold i in E. rewrite <-E.
    rewrite PX_eq by lia. rewrite MAXVA_eq in Hva. zlia. }
  destruct (has (load64 (pm_mem s) (p + 8 * i)) PTE_V) eqn:Hval.
  { apply (IH (π ++ [i])); auto. by rewrite reach_snoc, Hr, Hval. }
  simpl. destruct Hh as [Hwf Hk].
  destruct fl as [|q fl].
  { krun (kalloc_none h s (vs_free _ _ _ _ Hs) Hwf Hk). simpl.
    exists 0, (settle h), s, ps, []. split_and!; auto using vm_grow_refl, spreads_refl with xv6. }
  krun (kalloc_some h s q fl (vs_free _ _ _ _ Hs) Hwf Hk).
  destruct (free_list_head _ _ _ (vs_free _ _ _ _ Hs)) as (Hq & Hq0 & _).
  destruct (Z.eqb_spec q 0) as [|_]; [done|]. ksimpl.
  destruct (vm_grow_link s root ps q fl π i p Hs Hv Hr Hval Hlow) as (G & He & Hr').
  change (set_mem _ _) with (linked_pm s p i q).
  destruct (IH (π ++ [i]) q (q :: ps) fl (settle h) (linked_pm s p i q))
    as (a & h' & s' & ps' & fl' & E & Hc & G' & S' & He' & Ha); auto.
  { by apply kmem_ready_settle. }
  { apply G. }
  { rewrite Hr' by done. by rewrite decide_True. }
  exists a, h', s', ps', fl'. split_and!; eauto using vm_grow_trans with xv6.
  { eapply spreads_trans, S'. intros π' p' Hv' Hp'. rewrite Hr' in Hp' by done. case_decide as Eπ; [|eauto].
    right. exists va. split; [done|]. rewrite Eπ, Hpath'. by apply prefix_app_r. }
  intros va'. by rewrite He', He.
Qed.

Lemma walk_alloc root ps fl va h s :
  kmem_ready h -> vm_state s root ps fl -> 0 <= va < MAXVA ->
  exists a h' s' ps' fl', walk root va true h s = Done a h' s' /\ calm h h' /\
    vm_grow root s ps fl s' ps' fl' /\
    spreads root (eq va) (pm_mem s) (pm_mem s') /\
    (forall va', entry (pm_mem s') root va' = entry (pm_mem s) root va') /\
    (a = 0 /\ fl' = [] \/ slot_addr (pm_mem s') root va = Some a).
Proof.
  intros Hh Hs Hva. unfold walk. case_if; [lia|].
  by apply (walk_loop_alloc 2 [] root).
Qed.

(** ** mappages *)

Lemma vm_store s root ps fl va a v :
  vm_state s root ps fl -> slot_addr (pm_mem s) root va = Some a ->
  vm_grow root s ps fl (set_mem (store64 (pm_mem s) a v) s) ps fl.
Proof.
  intros [Ho Hf Hd Hok] Ha. pose proof (store_outside _ _ _ _ _ v Ho Ha) as Hout.
  constructor; [|by exists []|done]. constructor; [by eapply pt_own_store| |done|by apply store64_ok].
  eapply (free_list_outside s); [done|exact Hout|done|done|].
  intros p Hp. pose proof (po_ok _ _ _ Ho) as Hpo. rewrite Forall_forall in Hpo.
  by apply Hpo.
Qed.

(** The address space after [j] pages from [a] were mapped to [pa] onwards. *)
Definition map_range (f : Z -> Z) (a j pa perm : Z) (va : Z) : Z :=
  if decide (a <= va < a + j * PGSIZE)
  then leaf (pa + (va / PGSIZE * PGSIZE - a)) perm else f va.

Lemma map_range_cons f a j pa perm va :
  a mod PGSIZE = 0 -> 0 <= j ->
  map_range (fun x => if decide (x / PGSIZE = a / PGSIZE) then leaf pa perm else f x)
    (a + PGSIZE) j (pa + PGSIZE) perm va
  = map_range f a (j + 1) pa perm va.
Proof.
  intros Ha Hj. unfold map_range, PGSIZE in *.
  repeat case_decide; try (exfalso; zlia); auto; f_equal; zlia.
Qed.

(** One iteration of mappages, followed by [cont]. *)
Definition map_one (root a pa perm : Z) (cont : K pm Z) : K pm Z :=
  pte <- walk root a true;;
  if pte =? 0 then ret (-1) else
  v <- gets (fun s => load64 (pm_mem s) pte);;
  if has v PTE_V then panic "mappages: remap" else
  modify (fun s => set_mem (store64 (pm_mem s) pte (leaf pa perm)) s);;
  cont.

Lemma map_one_run root ps fl a pa perm h s :
  kmem_ready h -> vm_state s root ps fl -> 0 <= a < MAXVA -> pa_ok pa -> 0 <= perm < 2 ^ 10 ->
  has (entry (pm_mem s) root a) PTE_V = false ->
  exists h' s' ps' fl', calm h h' /\ vm_grow root s ps fl s' ps' fl' /\ spreads root (eq a) (pm_mem s) (pm_mem s') /\
    ((fl' = [] /\ (forall va, entry (pm_mem s') root va = entry (pm_mem s) root va) /\
      forall cont, map_one root a pa perm cont h s = Done (-1) h' s') \/
     ((forall va, 0 <= va < MAXVA -> entry (pm_mem s') root va
         = if decide (va / PGSIZE = a / PGSIZE) then leaf pa perm else entry (pm_mem s) root va) /\
      forall cont, map_one root a pa perm cont h s = cont h' s')).
Proof.
  intros Hh Hs Ha Hpa Hperm Hinv.
  destruct (walk_alloc root ps fl a h s Hh Hs ltac:(lia))
    as (pte & h1 & s1 & ps1 & fl1 & E1 & Hc1 & G1 & S1 & He1 & [[-> ->]|Hslot]).
  { exists h1, s1, ps1, []. split_and!; auto. left. split_and!; auto.
    intros cont. unfold map_one. by krun E1. }
  pose proof (slot_pos _ _ _ _ _ (vs_own _ _ _ _ (vg_state _ _ _ _ _ _ _ G1)) Hslot).
  exists h1, (set_mem (store64 (pm_mem s1) pte (leaf pa perm)) s1), ps1, fl1.
  pose proof (vs_own _ _ _ _ (vg_state _ _ _ _ _ _ _ G1)) as Ho1.
  split_and!; [done| | |right; split].
  - eapply vm_grow_trans; [done|]. eapply vm_store, Hslot. apply G1.
  - intros π p Hv Hr. simpl in Hr. erewrite reach_store in Hr by done. by eapply S1.
  - intros va Hva. simpl. rewrite (entry_store _ _ _ _ _ _ (vs_own _ _ _ _ (vg_state _ _ _ _ _ _ _ G1)) Hslot) by done.
    case_decide; [|apply He1]. apply u64_id.
    pose proof (leaf_range pa perm Hpa Hperm). lia.
  - intros cont. unfold map_one. krun E1. case_if; [lia|]. ksimpl.
    rewrite (entry_slot _ _ _ _ Hslot), He1, Hinv. by ksimpl.
Qed.

Lemma mappages_loop_S fuel root a last pa perm :
  mappages_loop (S fuel) root a last pa perm
  = map_one root a pa perm
      (if a =? last then ret 0
       else mappages_loop fuel root (u64 (a + PGSIZE)) last (u64 (pa + PGSIZE)) perm).
Proof. done. Qed.

Lemma mappages_loop_run k fuel root ps fl a pa perm h s :
  kmem_ready h -> vm_state s root ps fl ->
  a mod PGSIZE = 0 -> 0 <= a -> a + Z.of_nat k * PGSIZE < MAXVA ->
  pa mod PGSIZE = 0 -> 0 <= pa -> pa + Z.of_nat k * PGSIZE < 2 ^ 56 -> 0 <= perm < 2 ^ 10 ->
  (forall i, 0 <= i <= Z.of_nat k -> has (entry (pm_mem s) root (a + i * PGSIZE)) PTE_V = false) ->
  (k < fuel)%nat ->
  exists r h' s' ps' fl' j,
    mappages_loop fuel root a (a + Z.of_nat k * PGSIZE) pa perm h s = Done r h' s' /\
    calm h h' /\ vm_grow root s ps fl s' ps' fl' /\
    spreads root (fun x => a <= x <= a + Z.of_nat k * PGSIZE) (pm_mem s) (pm_mem s') /\
    (r = 0 /\ j = Z.of_nat k + 1 \/ r = -1 /\ 0 <= j <= Z.of_nat k /\ fl' = []) /\
    forall va, 0 <= va < MAXVA ->
      entry (pm_mem s') root va = map_range (entry (pm_mem s) root) a j pa perm va.
Proof.
  revert fuel a pa ps fl h s. induction k as [|k IH];
    intros fuel a pa ps fl h s Hh Hs Hal Ha0 Hmax Hpal Hpa0 Hpmax Hperm Hinv Hfuel;
    (destruct fuel as [|fuel]; [lia|]); rewrite mappages_loop_S;
    pose proof (eq_refl : PGSIZE = 4096) as Hpg.
  all: destruct (map_one_run root ps fl a pa perm h s)
      as (h1 & s1 & ps1 & fl1 & Hc1 & G1 & S1 & [(-> & He1 & E1)|[He1 E1]]); auto;
    [lia|split; [done|lia]|specialize (Hinv 0 ltac:(lia)); by rewrite Z.add_0_r in Hinv|..];
    rewrite E1;
    assert (Sm : forall b, a <= b -> spreads root (fun x => a <= x <= b) (pm_mem s) (pm_mem s1)) by (intros b Hb; eapply spreads_mono, S1; intros va <-; lia).
  1, 3: exists (-1), h1, s1, ps1, [], 0; split_and!; auto; [apply Sm; lia|right; split_and!; auto; lia|];
    intros va Hva; unfold map_range; rewrite decide_False by lia; apply He1.
  - exists 0, h1, s1, ps1, fl1, 1. simpl Z.of_nat. rewrite Z.add_0_r, Z.eqb_refl.
    split_and!; auto; [apply Sm; lia|]. intros va Hva. rewrite He1 by done.
    unfold map_range. repeat case_decide; try (exfalso; zlia); auto; f_equal; zlia.
  - case_if; [lia|]. rewrite !u64_id by (rewrite MAXVA_eq in *; lia).
    destruct (IH fuel (a + PGSIZE) (pa + PGSIZE) ps1 fl1 h1 s1)
      as (r & h' & s' & ps' & fl' & j & E' & Hc' & G' & S' & Hr & He'); auto; try lia.
    + by eapply kmem_ready_calm.
    + apply G1.
    + zlia.
    + zlia.
    + intros i Hi. rewrite He1 by lia. rewrite decide_False by zlia.
      replace (a + PGSIZE + i * PGSIZE) with (a + (i + 1) * PGSIZE) by lia. apply Hinv. lia.
    + exists r, h', s', ps', fl', (j + 1).
      replace (a + Z.of_nat (S k) * PGSIZE) with (a + PGSIZE + Z.of_nat k * PGSIZE) by lia.
      split_and!; eauto using vm_grow_trans with xv6.
      { eapply spreads_trans; [apply Sm; lia|]. eapply spreads_mono, S'. intros x Hx. simpl in Hx. lia. }
      { destruct Hr as [[-> ->]|(-> & ? & ->)]; [left; lia|right; split_and!; auto; lia]. }
      intros va Hva. rewrite He' by done. rewrite <-map_range_cons by lia.
      unfold map_range. case_decide; [done|]. by apply He1.
Qed.

(** Pages of the range [va, va + size). *)
Definition range_pages (va size : Z) : Z := (va + size - 1) / PGSIZE - va / PGSIZE + 1.

Lemma mappages_run root ps fl va size pa perm h s :
  kmem_ready h -> vm_state s root ps fl ->
  0 < size -> 0 <= va -> va + size <= MAXVA ->
  pa mod PGSIZE = 0 -> 0 <= pa -> pa + size < 2 ^ 55 -> 0 <= perm < 2 ^ 10 ->
  (forall x, va / PGSIZE <= x / PGSIZE <= (va + size - 1) / PGSIZE ->
     has (entry (pm_mem s) root x) PTE_V = false) ->
  exists r h' s' ps' fl' j,
    mappages root va size pa perm h s = Done r h' s' /\
    calm h h' /\ vm_grow root s ps fl s' ps' fl' /\
    spreads root (fun x => va / PGSIZE * PGSIZE <= x < va + size) (pm_mem s) (pm_mem s') /\
    (r = 0 /\ j = range_pages va size \/ r = -1 /\ 0 <= j < range_pages va size /\ fl' = []) /\
    forall x, 0 <= x < MAXVA -> entry (pm_mem s') root x
      = map_range (entry (pm_mem s) root) (va / PGSIZE * PGSIZE) j pa perm x.
Proof.
  intros Hh Hs Hsz Hva Hmax Hpal Hpa0 Hpmax Hperm Hinv. unfold mappages.
  case_if; [lia|]. rewrite !PGROUNDDOWN_eq, u64_id by (rewrite MAXVA_eq in *; lia).
  set (a := va / PGSIZE * PGSIZE). set (k := Z.to_nat ((va + size - 1) / PGSIZE - va / PGSIZE)).
  pose proof (eq_refl : PGSIZE = 4096) as Hpg.
  assert (Hk : va / PGSIZE <= (va + size - 1) / PGSIZE) by (apply Z.div_le_mono; lia).
  assert (Hlast : (va + size - 1) / PGSIZE * PGSIZE = a + Z.of_nat k * PGSIZE) by lia.
  rewrite Hlast.
  destruct (mappages_loop_run k (mappages_fuel a (a + Z.of_nat k * PGSIZE)) root ps fl a pa perm h s)
    as (r & h' & s' & ps' & fl' & j & E' & Hc & G & S' & Hr & He); auto.
  - unfold a. rewrite Hpg. zlia.
  - unfold a. zlia.
  - rewrite <-Hlast. zlia.
  - zlia.
  - intros i Hi. apply Hinv. unfold a. rewrite <-Z.mul_add_distr_r, Z.div_mul by lia. lia.
  - unfold mappages_fuel. case_if; [|lia].
    rewrite Z.add_simpl_l, Z.div_mul by lia. lia.
  - exists r, h', s', ps', fl', j. split_and!; auto; [|unfold range_pages].
    { eapply spreads_mono, S'. intros x Hx. simpl in Hx. rewrite <-Hlast in Hx. zlia. }
    destruct Hr as [[-> ->]|(-> & ? & ->)]; [left; lia|right; split_and!; auto; lia].
Qed.

(** One aligned page. *)
Lemma mappages_frame root ps fl va pa perm h s :
  kmem_ready h -> vm_state s root ps fl ->
  va mod PGSIZE = 0 -> 0 <= va < MAXVA -> pa mod PGSIZE = 0 -> 0 <= pa < 2 ^ 54 -> 0 <= perm < 2 ^ 10 ->
  has (entry (pm_mem s) root va) PTE_V = false ->
  exists r h' s' ps' fl',
    mappages root va PGSIZE pa perm h s = Done r h' s' /\
    calm h h' /\ vm_grow root s ps fl s' ps' fl' /\
    spreads root (fun x => x / PGSIZE = va / PGSIZE) (pm_mem s) (pm_mem s') /\
    (r = 0 /\ (forall x, 0 <= x < MAXVA -> entry (pm_mem s') root x
        = if decide (x / PGSIZE = va / PGSIZE) then leaf pa perm else entry (pm_mem s) root x) \/
     r = -1 /\ fl' = [] /\
     (forall x, 0 <= x < MAXVA -> entry (pm_mem s') root x = entry (pm_mem s) root x)).
Proof.
  intros Hh Hs Hal Hva Hpal Hpr Hperm Hinv. rewrite MAXVA_eq in Hva.
  pose proof (eq_refl : PGSIZE = 4096) as Hpg.
  assert (Hn : range_pages va PGSIZE = 1) by (unfold range_pages; zlia).
  destruct (mappages_run root ps fl va PGSIZE pa perm h s)
    as (r & h' & s' & ps' & fl' & j & E & Hc & G & S' & Hr & He); auto; try lia.
  - rewrite MAXVA_eq. zlia.
  - intros x Hx. rewrite (entry_same_page _ _ x va); [done|]. zlia.
  - exists r, h', s', ps', fl'. split_and!; auto; [eapply spreads_mono, S'; intros x Hx; simpl in Hx; zlia|]. rewrite Hn in Hr.
    destruct Hr as [[-> ->]|(-> & Hj & ->)]; [left|right]; split_and!; auto; intros x Hx;
      rewrite He by done; unfold map_range; repeat case_decide; try (exfalso; zlia); auto.
    f_equal. zlia.
Qed.

Lemma mappages_page root ps fl va pa perm h s :
  kmem_ready h -> vm_state s root ps fl ->
  va mod PGSIZE = 0 -> 0 <= va < MAXVA -> page_ok pa -> 0 <= perm < 2 ^ 10 ->
  has (entry (pm_mem s) root va) PTE_V = false ->
  exists r h' s' ps' fl',
    mappages root va PGSIZE pa perm h s = Done r h' s' /\
    calm h h' /\ vm_grow root s ps fl s' ps' fl' /\
    spreads root (fun x => x / PGSIZE = va / PGSIZE) (pm_mem s) (pm_mem s') /\
    (r = 0 /\ (forall x, 0 <= x < MAXVA -> entry (pm_mem s') root x
        = if decide (x / PGSIZE = va / PGSIZE) then leaf pa perm else entry (pm_mem s) root x) \/
     r = -1 /\ fl' = [] /\
     (forall x, 0 <= x < MAXVA -> entry (pm_mem s') root x = entry (pm_mem s) root x)).
Proof.
  intros Hh Hs Hal Hva Hpa. pose proof (page_ok_pa pa Hpa) as [Hpal Hpr]. pose proof (page_ok_pos pa Hpa).
  destruct Hpa as [_ Hpa]. unfold PHYSTOP, KERNBASE in Hpa. apply mappages_frame; auto. lia.
Qed.

(** The permissions of kernel pages. *)
Definition PERM_RX : Z := Z.lor PTE_R PTE_X.
Definition PERM_RW : Z := Z.lor PTE_R PTE_W.

Lemma PERM_range : 0 <= PERM_RX < 2 ^ 10 /\ 0 <= PERM_RW < 2 ^ 10.
Proof. vm_compute. intuition discriminate. Qed.

Lemma trampoline_frame : l_trampoline mod PGSIZE = 0 /\ 0 <= l_trampoline < 2 ^ 54.
Proof.
  pose proof l_trampoline_page. pose proof l_trampoline_range. pose proof l_end_range.
  unfold KERNBASE, PHYSTOP in *. split; [done|]. unfold KERNBASE in *. lia.
Qed.

(** One page costs at most its path of tables. *)
Lemma page_tables s s' root ps fl ps' fl' va :
  vm_state s root ps fl -> vm_state s' root ps' fl' -> spreads root (fun x => x / PGSIZE = va / PGSIZE) (pm_mem s) (pm_mem s') ->
  (length ps' <= length ps + 3)%nat.
Proof.
  intros Hv Hv' Hs. pose proof (vs_own _ _ _ _ Hv) as Ho.
  assert (Hl : exists l, length l = length ps /\ forall p, p ∈ ps -> exists π, π ∈ l /\ vpath π /\ reach (pm_mem s) root π = Some p).
  { pose proof (po_all _ _ _ Ho) as Hall. clear -Hall. induction ps as [|p ps IH]; [exists []; split; [done|]; intros p Hp; by apply elem_of_nil in Hp|].
    destruct IH as (l & Hl & Hp); [intros q Hq; apply Hall; by right|]. destruct (Hall p ltac:(left)) as (π & Hvπ & Hr).
    exists (π :: l). split; [simpl; lia|]. intros q [->|Hq]%elem_of_cons; [exists π; split; [left|done]|].
    destruct (Hp q Hq) as (π' & ? & ?). exists π'. split; [by right|done]. }
  destruct Hl as (l & Hl & Hp). set (a := path_of va).
  transitivity (length (l ++ [[]; take 1 a; a])); [|rewrite length_app; simpl; lia].
  apply (tables_bound s' root ps' fl' _ Hv'). intros π p Hvπ Hr. apply elem_of_app.
  destruct (Hs π p Hvπ Hr) as [[p0 Hr0]|(x & Hx & [r Hr'])].
  - left. destruct (Hp p0 (po_in _ _ _ Ho π p0 Hvπ Hr0)) as (π' & Hin & Hv1 & Hr1).
    by rewrite (po_inj _ _ _ Ho π π' p0 Hvπ Hv1 Hr0 Hr1).
  - right. assert (E : path_of x = a) by (unfold a, path_of; by rewrite !(PX_same_page _ x va) by (done || lia)).
    rewrite E in Hr'. unfold a, path_of in *. destruct π as [|u [|v [|w π]]]; [left| | |discriminate Hr'].
    + injection Hr' as <- _. right. left.
    + injection Hr' as <- <- _. right. right. left.
Qed.

(** ** uvmunmap *)

(** The physical pages mapped at the [n] pages from [a]. *)
Fixpoint upages (m : mem) (root a : Z) (n : nat) : list Z :=
  match n with O => [] | S n' => PTE2PA (entry m root a) :: upages m root (a + PGSIZE) n' end.

(** A valid entry that is not a pointer to a table. *)
Definition is_leaf (e : Z) : Prop := has e PTE_V = true /\ PTE_FLAGS e <> PTE_V.

Lemma upages_ext m m' root a n :
  (forall i, 0 <= i < Z.of_nat n ->
     entry m' root (a + i * PGSIZE) = entry m root (a + i * PGSIZE)) ->
  upages m' root a n = upages m root a n.
Proof.
  revert a. induction n as [|n IH]; intros a Hx; [done|]. simpl.
  specialize (Hx 0 ltac:(lia)) as H1. rewrite Z.add_0_r in H1. rewrite H1. f_equal.
  apply IH. intros i Hi. specialize (Hx (i + 1) ltac:(lia)).
  by replace (a + PGSIZE + i * PGSIZE) with (a + (i + 1) * PGSIZE) by lia.
Qed.

Definition freed_pages (do_free : bool) (pas fl : list Z) : list Z :=
  if do_free then reverse pas ++ fl else fl.

(** One iteration: the page is freed if asked, then the entry is cleared. *)
Lemma unmap_one root ps fl a pte e do_free h s :
  kmem_ready h -> vm_state s root ps fl -> slot_addr (pm_mem s) root a = Some pte ->
  entry (pm_mem s) root a = e ->
  (do_free = true -> page_ok (PTE2PA e) /\ (PTE2PA e ∉ ps) /\ PTE2PA e ∉ fl) ->
  exists h' s',
    (when do_free (kfree (PTE2PA e));;
     modify (fun s => set_mem (store64 (pm_mem s) pte 0) s)) h s = Done tt h' s' /\
    calm h h' /\ vm_state s' root ps (freed_pages do_free [PTE2PA e] fl) /\
    same_outside (ps ++ freed_pages do_free [PTE2PA e] []) (pm_mem s) (pm_mem s') /\
    forall va, 0 <= va < MAXVA -> 0 <= a < MAXVA -> entry (pm_mem s') root va
      = if decide (va / PGSIZE = a / PGSIZE) then 0 else entry (pm_mem s) root va.
Proof.
  intros [Hwf Hk] Hs Hslot He Hpa. pose proof Hs as [Ho Hf Hd Hok]. destruct do_free; simpl.
  - destruct (Hpa eq_refl) as (Hp & Hnps & Hnfl). krun (kfree_run _ _ s Hp Hwf Hk).
    set (pa := PTE2PA e) in *. set (s1 := freed pa s).
    assert (Hsame : forall p x, p ∈ ps -> in_page p x -> rd (pm_mem s1) x = rd (pm_mem s) x).
    { intros p x Hin. eapply outside_in_page; [apply freed_outside|done| |apply Ho|by constructor].
      intros y Hy. by apply list_elem_of_singleton in Hy as ->. }
    assert (Ho1 : pt_own (pm_mem s1) root ps) by (by eapply pt_own_same).
    assert (Hslot1 : slot_addr (pm_mem s1) root a = Some pte).
    { unfold slot_addr in *. by rewrite (reach_same (pm_mem s) (pm_mem s1) root ps) by (auto using vpath_of). }
    assert (Hs1 : vm_state s1 root ps (pa :: fl)).
    { constructor; [done|by apply freed_list| |by apply freed_ok].
      intros p Hin [->|Hc]%elem_of_cons; [contradiction|]. by apply (Hd p). }
    pose proof (vm_store _ _ _ _ _ _ 0 Hs1 Hslot1) as G.
    exists (settle h), (set_mem (store64 (pm_mem s1) pte 0) s1).
    split_and!; [done|auto with xv6|apply G| |].
    + eapply same_outside_trans.
      * apply (same_outside_mono [pa]); [|apply freed_outside].
        apply singleton_sub, elem_of_app. right. constructor.
      * eapply same_outside_mono; [|apply G]. intros x Hx. apply elem_of_app. by left.
    + intros va Hva Ha. simpl. rewrite (entry_store _ _ _ _ _ _ Ho1 Hslot1) by done.
      case_decide; [done|]. by eapply entry_same.
  - pose proof (vm_store _ _ _ _ _ _ 0 Hs Hslot) as G.
    exists h, (set_mem (store64 (pm_mem s) pte 0) s).
    split_and!; [done|auto with xv6|apply G|rewrite app_nil_r; apply G|].
    intros va Hva Ha. simpl. by rewrite (entry_store _ _ _ _ _ _ Ho Hslot) by done.
Qed.

(** The address space after the [n] pages from [a] were unmapped. *)
Definition unmap_range (f : Z -> Z) (a n va : Z) : Z :=
  if decide (a <= va < a + n * PGSIZE) then 0 else f va.

Lemma uvmunmap_loop_run n fuel root ps fl a do_free h s :
  kmem_ready h -> vm_state s root ps fl ->
  a mod PGSIZE = 0 -> 0 <= a -> a + Z.of_nat n * PGSIZE <= MAXVA -> (n <= fuel)%nat ->
  (forall i, 0 <= i < Z.of_nat n -> is_leaf (entry (pm_mem s) root (a + i * PGSIZE))) ->
  (do_free = true -> let pas := upages (pm_mem s) root a n in
     Forall page_ok pas /\ NoDup pas /\ (forall p, p ∈ pas -> (p ∉ ps) /\ p ∉ fl)) ->
  exists h' s',
    uvmunmap_loop fuel root a (a + Z.of_nat n * PGSIZE) do_free h s = Done tt h' s' /\
    calm h h' /\ vm_state s' root ps (freed_pages do_free (upages (pm_mem s) root a n) fl) /\
    same_outside (ps ++ freed_pages do_free (upages (pm_mem s) root a n) [])
      (pm_mem s) (pm_mem s') /\
    forall va, 0 <= va < MAXVA ->
      entry (pm_mem s') root va = unmap_range (entry (pm_mem s) root) a (Z.of_nat n) va.
Proof.
  pose proof (eq_refl : PGSIZE = 4096) as Hpg.
  revert fuel a fl h s. induction n as [|n IH]; intros fuel a fl h s Hh Hs Hal Ha0 Hmax Hf Hleaf Hpas.
  { exists h, s. split_and!; auto with xv6.
    - destruct fuel; simpl; case_if; try lia; done.
    - by destruct do_free.
    - apply same_outside_refl.
    - intros va Hva. unfold unmap_range. by rewrite decide_False by lia. }
  destruct fuel as [|fuel]; [lia|]. cbn [uvmunmap_loop]. case_if; [lia|].
  set (e := entry (pm_mem s) root a).
  assert (He : is_leaf e) by (specialize (Hleaf 0 ltac:(lia)); by rewrite Z.add_0_r in Hleaf).
  destruct (slot_addr (pm_mem s) root a) as [pte|] eqn:Hslot.
  2: { destruct He as [He _]. unfold e, entry in He. by rewrite Hslot in He. }
  krun (walk_found root a pte h s ltac:(lia) Hslot).
  pose proof (slot_pos _ _ _ _ _ (vs_own _ _ _ _ Hs) Hslot). case_if; [lia|]. ksimpl.
  rewrite (entry_slot _ _ _ _ Hslot). fold e. destruct He as [HeV HeF]. rewrite HeV. simpl.
  case_if; [done|]. clear E E0 E1.
  assert (Hpas1 : do_free = true -> page_ok (PTE2PA e) /\ (PTE2PA e ∉ ps) /\ PTE2PA e ∉ fl).
  { intros Hd. destruct (Hpas Hd) as (Hp1 & _ & Hp3). apply Forall_cons in Hp1 as [Hp1 _].
    split; [done|]. apply Hp3. constructor. }
  destruct (unmap_one root ps fl a pte e do_free h s Hh Hs Hslot eq_refl Hpas1)
    as (h1 & s1 & E1 & Hc1 & Hs1 & Ho1 & He1).
  rewrite <-bind_assoc. krun E1. clear E1.
  assert (Hup : upages (pm_mem s1) root (a + PGSIZE) n = upages (pm_mem s) root (a + PGSIZE) n).
  { apply upages_ext. intros i Hi. rewrite He1 by lia. by rewrite decide_False by zlia. }
  destruct (IH fuel (a + PGSIZE) (freed_pages do_free [PTE2PA e] fl) h1 s1)
    as (h' & s' & E' & Hc' & Hs' & Ho' & He'); auto; try lia.
  - by eapply kmem_ready_calm.
  - zlia.
  - intros i Hi. rewrite He1 by lia. rewrite decide_False by zlia.
    replace (a + PGSIZE + i * PGSIZE) with (a + (i + 1) * PGSIZE) by lia. apply Hleaf. lia.
  - intros ->. rewrite Hup. destruct (Hpas eq_refl) as (Hp1 & Hp2 & Hp3).
    apply Forall_cons in Hp1 as [_ Hp1]. apply NoDup_cons in Hp2 as [Hp2 Hp2'].
    split_and!; auto. intros p Hp. destruct (Hp3 p ltac:(by constructor)) as [? ?].
    split; [done|]. simpl. intros [->|?]%elem_of_cons; contradiction.
  - replace (a + Z.of_nat (S n) * PGSIZE) with (a + PGSIZE + Z.of_nat n * PGSIZE) by lia.
    exists h', s'. rewrite Hup in Hs', Ho'. split_and!; eauto with xv6.
    + destruct do_free; [|done]. simpl in *. by rewrite reverse_cons, <-app_assoc.
    + eapply same_outside_trans; eapply same_outside_mono; [|exact Ho1| |exact Ho'].
      all: intros x; rewrite !elem_of_app; intros [?|Hx]; [by left|right].
      all: destruct do_free; [|done]; simpl in *; rewrite reverse_cons, app_nil_r in *.
      * rewrite elem_of_app. by right.
      * rewrite elem_of_app. by left.
    + intros va Hva. rewrite He' by done. unfold unmap_range.
      destruct (decide (a + PGSIZE <= va < a + PGSIZE + Z.of_nat n * PGSIZE)).
      * by rewrite decide_True by lia.
      * rewrite He1 by lia. repeat case_decide; try (exfalso; zlia); done.
Qed.

Lemma uvmunmap_run root ps fl a n do_free h s :
  kmem_ready h -> vm_state s root ps fl ->
  a mod PGSIZE = 0 -> 0 <= a -> a + Z.of_nat n * PGSIZE <= MAXVA ->
  (forall i, 0 <= i < Z.of_nat n -> is_leaf (entry (pm_mem s) root (a + i * PGSIZE))) ->
  (do_free = true -> let pas := upages (pm_mem s) root a n in
     Forall page_ok pas /\ NoDup pas /\ (forall p, p ∈ pas -> (p ∉ ps) /\ p ∉ fl)) ->
  exists h' s',
    uvmunmap root a (Z.of_nat n) do_free h s = Done tt h' s' /\
    calm h h' /\ vm_state s' root ps (freed_pages do_free (upages (pm_mem s) root a n) fl) /\
    same_outside (ps ++ freed_pages do_free (upages (pm_mem s) root a n) [])
      (pm_mem s) (pm_mem s') /\
    forall va, 0 <= va < MAXVA ->
      entry (pm_mem s') root va = unmap_range (entry (pm_mem s) root) a (Z.of_nat n) va.
Proof.
  intros Hh Hs Hal Ha0 Hmax Hleaf Hpas. unfold uvmunmap. rewrite Hal. simpl.
  pose proof (eq_refl : PGSIZE = 4096) as Hpg.
  rewrite u64_id by (rewrite MAXVA_eq in Hmax; lia).
  apply uvmunmap_loop_run; auto. rewrite Z.add_simpl_l, Z.div_mul by lia. lia.
Qed.

End vmspec.
