(* ===== verification/UserMem.v ===== *)
(** * UserMem

    User address spaces: the pages [0, n) of a page table are the process image,
    [umem] is the memory a user program sees. What uvmcreate, uvmalloc,
    uvmdealloc, uvmcopy, uvmfree, copyout, copyin and copyinstr do to it, and
    where every page goes. *)
From stdpp Require Import base tactics list numbers gmap strings sets.
From S2P Require Import Prelude Machine Spinlock Bytes Queue Kalloc Vm Pagetable VmSpec.

Section usermem.
Context `{LayoutOk}.

(** ** Page-granular facts *)

Lemma upages_app m root a n1 n2 :
  upages m root a (n1 + n2) = upages m root a n1 ++ upages m root (a + Z.of_nat n1 * PGSIZE) n2.
Proof.
  revert a. induction n1 as [|n1 IH]; intros a; simpl.
  - by rewrite Z.add_0_r.
  - rewrite IH. do 3 f_equal. lia.
Qed.

Lemma upages_snoc m root n :
  upages m root 0 (S n) = upages m root 0 n ++ [PTE2PA (entry m root (Z.of_nat n * PGSIZE))].
Proof. replace (S n) with (n + 1)%nat by lia. by rewrite upages_app. Qed.

Lemma elem_of_upages m root a n p :
  p ∈ upages m root a n <->
  exists i, 0 <= i < Z.of_nat n /\ p = PTE2PA (entry m root (a + i * PGSIZE)).
Proof.
  revert a. induction n as [|n IH]; intros a; simpl.
  { rewrite elem_of_nil. split; [done|]. intros (i & ? & _). lia. }
  rewrite elem_of_cons, IH. split.
  - intros [->|(i & Hi & ->)]; [exists 0|exists (i + 1)]; (split; [lia|]); do 2 f_equal; lia.
  - intros (i & Hi & ->). destruct (decide (i = 0)) as [->|].
    + left. do 2 f_equal. lia.
    + right. exists (i - 1). split; [lia|]. do 2 f_equal. lia.
Qed.

Lemma length_upages m root a n : length (upages m root a n) = n.
Proof. revert a. induction n; intros; simpl; auto. Qed.

(** Pages needed for [sz] bytes. *)
Definition npages (sz : Z) : nat := Z.to_nat ((sz + PGSIZE - 1) / PGSIZE).

Lemma npages_roundup sz :
  0 <= sz < 2 ^ 64 - PGSIZE -> PGROUNDUP sz = Z.of_nat (npages sz) * PGSIZE.
Proof.
  intros Hs. rewrite PGROUNDUP_eq by done. unfold npages.
  rewrite Z2Nat.id; [done|]. apply Z.div_pos; unfold PGSIZE in *; lia.
Qed.

Lemma npages_bounds sz :
  0 <= sz -> sz <= Z.of_nat (npages sz) * PGSIZE < sz + PGSIZE.
Proof.
  intros Hs. unfold npages. rewrite Z2Nat.id by (apply Z.div_pos; unfold PGSIZE; lia).
  unfold PGSIZE. zlia.
Qed.

Lemma npages_pages n : npages (Z.of_nat n * PGSIZE) = n.
Proof.
  unfold npages. replace (Z.of_nat n * PGSIZE + PGSIZE - 1)
    with (PGSIZE - 1 + Z.of_nat n * PGSIZE) by lia.
  rewrite Z.div_add by (unfold PGSIZE; lia).
  change ((PGSIZE - 1) / PGSIZE) with 0. lia.
Qed.

(** ** Process images *)

Record uspace (s : pm) (root : Z) (ps fl : list Z) (n : nat) : Prop := {
  us_vm : vm_state s root ps fl;
  us_leaf : forall i, 0 <= i < Z.of_nat n -> is_leaf (entry (pm_mem s) root (i * PGSIZE));
  us_ok : Forall page_ok (upages (pm_mem s) root 0 n);
  us_nodup : NoDup (upages (pm_mem s) root 0 n);
  us_disj : forall p, p ∈ upages (pm_mem s) root 0 n -> (p ∉ ps) /\ p ∉ fl;
  us_bound : Z.of_nat n * PGSIZE <= TRAPFRAME;
  us_top : forall va, Z.of_nat n * PGSIZE <= va < TRAPFRAME ->
    entry (pm_mem s) root va = 0;
  us_kernel : forall va, TRAPFRAME <= va < MAXVA -> has (entry (pm_mem s) root va) PTE_U = false;
}.

(** The byte a user program sees at [va]. *)
Definition umem (m : mem) (root va : Z) : Z :=
  rd m (PTE2PA (entry m root va) + va mod PGSIZE).

Lemma TRAPFRAME_MAXVA : TRAPFRAME = MAXVA - 2 * PGSIZE.
Proof. done. Qed.

Lemma upages_same m m' root n :
  Z.of_nat n * PGSIZE <= TRAPFRAME ->
  (forall va, 0 <= va < Z.of_nat n * PGSIZE -> entry m' root va = entry m root va) ->
  upages m' root 0 n = upages m root 0 n.
Proof. intros Hn He. apply upages_ext. intros i Hi. apply He. unfold PGSIZE in *. lia. Qed.

(** The image only depends on its entries and on who owns its pages. *)
Lemma uspace_ext s s' root ps fl ps' fl' n :
  uspace s root ps fl n -> vm_state s' root ps' fl' ->
  (forall va, 0 <= va < MAXVA -> entry (pm_mem s') root va = entry (pm_mem s) root va) ->
  (forall p, p ∈ upages (pm_mem s) root 0 n -> (p ∉ ps') /\ p ∉ fl') ->
  uspace s' root ps' fl' n.
Proof.
  intros [Hv Hl Hok Hnd Hd Hb Ht Hk] Hv' He Hd'. rewrite TRAPFRAME_MAXVA in Hb.
  assert (E : upages (pm_mem s') root 0 n = upages (pm_mem s) root 0 n).
  { apply upages_same; [rewrite TRAPFRAME_MAXVA; lia|]. intros va Hva. apply He.
    unfold PGSIZE in *. lia. }
  constructor; rewrite ?E; auto.
  - intros i Hi. rewrite He; [by apply Hl|]. unfold PGSIZE in *. lia.
  - intros va Hva. rewrite He; [by apply Ht|]. rewrite TRAPFRAME_MAXVA in Hva.
    unfold PGSIZE in *. lia.
  - intros va Hva. rewrite He; [by apply Hk|]. rewrite TRAPFRAME_MAXVA, MAXVA_eq in Hva.
    rewrite MAXVA_eq. unfold PGSIZE in *. lia.
Qed.

(** User memory only changes where a page of the image is written. *)
Lemma umem_outside s root ps fl n m' qs va :
  uspace s root ps fl n -> same_outside qs (pm_mem s) m' ->
  entry m' root va = entry (pm_mem s) root va ->
  (forall q, q ∈ qs -> page_ok q /\ q ∉ upages (pm_mem s) root 0 n) ->
  0 <= va < Z.of_nat n * PGSIZE -> umem m' root va = umem (pm_mem s) root va.
Proof.
  intros U Hs He Hq Hva. unfold umem. rewrite He. apply Hs. intros q Hin.
  destruct (Hq q Hin) as [[Hal _] Hnot].
  assert (Hp : PTE2PA (entry (pm_mem s) root va) ∈ upages (pm_mem s) root 0 n).
  { apply elem_of_upages. exists (va / PGSIZE). split; [unfold PGSIZE in *; zlia|].
    f_equal. apply entry_same_page. rewrite Z.add_0_l, Z.div_mul; [done|unfold PGSIZE; lia]. }
  pose proof (us_ok _ _ _ _ _ U) as Hok. rewrite Forall_forall in Hok.
  apply (pages_disjoint (PTE2PA (entry (pm_mem s) root va))); [by apply Hok|done| |].
  - intros E. by rewrite E in Hp.
  - unfold in_page, PGSIZE. zlia.
Qed.

(** ** Taking a page from the allocator *)

Lemma vm_page_write s root ps fl q m' :
  vm_state s root ps fl -> page_ok q -> q ∉ ps -> q ∉ fl ->
  same_outside [q] (pm_mem s) m' -> mem_ok m' ->
  vm_state (set_mem m' s) root ps fl /\
  forall va, entry m' root va = entry (pm_mem s) root va.
Proof.
  intros [Ho Hf Hd Hok] Hq Hps Hfl Hs Hm.
  assert (Hsame : forall p x, p ∈ ps -> in_page p x -> rd m' x = rd (pm_mem s) x).
  { intros p x Hp. eapply outside_in_page; [done|done| |apply Ho|by constructor].
    intros y Hy. by apply list_elem_of_singleton in Hy as ->. }
  split; [|intros va; by eapply entry_same].
  constructor; [by eapply pt_own_same| |done|done].
  eapply (free_list_outside s); [done|exact Hs|done|..];
    intros y Hy; apply list_elem_of_singleton in Hy as ->; [done|apply Hq].
Qed.

Lemma vm_allocd s root ps q fl :
  vm_state s root ps (q :: fl) ->
  vm_state (allocd q s) root ps fl /\ page_ok q /\ q <> 0 /\ (q ∉ ps) /\ (q ∉ fl) /\
  forall va, entry (pm_mem (allocd q s)) root va = entry (pm_mem s) root va.
Proof.
  intros Hs. pose proof Hs as [Ho Hf Hd Hok].
  destruct (free_list_head _ _ _ Hf) as (Hq & Hq0 & Hqf).
  assert (Hps : q ∉ ps) by (intros Hc; apply (Hd q Hc); constructor).
  assert (Hsame : forall p x, p ∈ ps -> in_page p x -> rd (pm_mem (allocd q s)) x = rd (pm_mem s) x).
  { intros p x Hp. eapply outside_in_page; [apply allocd_outside|done| |apply Ho|by constructor].
    intros y Hy. by apply list_elem_of_singleton in Hy as ->. }
  split_and!; auto; [|intros va; by eapply entry_same].
  constructor; [by eapply pt_own_same|by apply allocd_list| |by apply allocd_ok].
  intros p Hp Hc. apply (Hd p Hp). by constructor.
Qed.

(** ** Mapping one more page *)

Lemma vg_notin root s ps fl s' ps' fl' q :
  vm_grow root s ps fl s' ps' fl' -> q ∉ ps -> q ∉ fl -> (q ∉ ps') /\ q ∉ fl'.
Proof.
  intros G Hps Hfl. split.
  - intros Hq. destruct (vg_fl _ _ _ _ _ _ _ q G Hq); contradiction.
  - intros Hq. destruct (vg_pages _ _ _ _ _ _ _ G) as (new & -> & _).
    apply Hfl, elem_of_app. by right.
Qed.

Lemma uspace_map_new s root ps fl n q perm h :
  kmem_ready h -> uspace s root ps fl n ->
  page_ok q -> q ∉ ps -> q ∉ fl -> q ∉ upages (pm_mem s) root 0 n ->
  (Z.of_nat n + 1) * PGSIZE <= TRAPFRAME -> 0 <= perm < 2 ^ 10 -> Z.lor perm PTE_V <> PTE_V ->
  exists r h' s' ps' fl',
    mappages root (Z.of_nat n * PGSIZE) PGSIZE q perm h s = Done r h' s' /\
    calm h h' /\ vm_grow root s ps fl s' ps' fl' /\
    (r = 0 /\ uspace s' root ps' fl' (S n) /\
       upages (pm_mem s') root 0 (S n) = upages (pm_mem s) root 0 n ++ [q] /\
       (forall x, 0 <= x < MAXVA -> entry (pm_mem s') root x
          = if decide (x / PGSIZE = Z.of_nat n) then leaf q perm else entry (pm_mem s) root x) \/
     r = -1 /\ fl' = [] /\ (length fl <= 3)%nat /\ uspace s' root ps' fl' n /\
       (forall x, 0 <= x < MAXVA -> entry (pm_mem s') root x = entry (pm_mem s) root x)).
Proof.
  intros Hh U Hq Hqps Hqfl Hqu Hb Hperm Hflags. pose proof (eq_refl : PGSIZE = 4096) as Hpg.
  rewrite TRAPFRAME_MAXVA in Hb.
  assert (Hdiv : Z.of_nat n * PGSIZE / PGSIZE = Z.of_nat n) by (apply Z.div_mul; lia).
  destruct (mappages_page root ps fl (Z.of_nat n * PGSIZE) q perm h s)
    as (r & h' & s' & ps' & fl' & E & Hc & G & S' & Hr); auto.
  { apply U. } { apply Z.mod_mul. lia. } { lia. }
  { rewrite (us_top _ _ _ _ _ U); [done|]. rewrite TRAPFRAME_MAXVA. lia. }
  exists r, h', s', ps', fl'. split_and!; auto. rewrite Hdiv in Hr.
  assert (Hdj : forall p, p ∈ upages (pm_mem s) root 0 n -> (p ∉ ps') /\ p ∉ fl').
  { intros p Hp. destruct (us_disj _ _ _ _ _ U p Hp). by eapply vg_notin. }
  destruct Hr as [[-> He]|(-> & -> & He)]; [left|right].
  2: { split_and!; auto.
       { pose proof (page_tables _ _ _ _ _ _ _ _ (us_vm _ _ _ _ _ U) (vg_state _ _ _ _ _ _ _ G) S') as Hlen.
         destruct (vg_pages _ _ _ _ _ _ _ G) as (new & -> & Hp). apply Permutation_length in Hp.
         rewrite !length_app in *. simpl. lia. }
       eapply uspace_ext; [done|apply G| |done].
       intros va Hva. by apply He. }
  assert (Hold : forall x, 0 <= x < Z.of_nat n * PGSIZE -> entry (pm_mem s') root x = entry (pm_mem s) root x).
  { intros x Hx. rewrite He by lia. by rewrite decide_False by zlia. }
  assert (Hnew : entry (pm_mem s') root (Z.of_nat n * PGSIZE) = leaf q perm).
  { rewrite He by lia. by rewrite Hdiv, decide_True. }
  pose proof (page_ok_pa q Hq) as Hpa.
  assert (Hup : upages (pm_mem s') root 0 (S n) = upages (pm_mem s) root 0 n ++ [q]).
  { rewrite upages_snoc, Hnew, PTE2PA_leaf by done. f_equal.
    apply upages_same; [rewrite TRAPFRAME_MAXVA; lia|done]. }
  split_and!; auto. destruct U as [Hv Hl Hok Hnd Hd Hbn Ht Hk].
  constructor; rewrite ?Hup; try apply G.
  - intros i Hi. destruct (decide (i = Z.of_nat n)) as [->|Hne].
    + rewrite Hnew. split; [by apply has_V_leaf|]. by rewrite PTE_FLAGS_leaf.
    + rewrite Hold by lia. apply Hl. lia.
  - apply Forall_app. split; [done|by constructor].
  - apply NoDup_app. split_and!; [done| |apply NoDup_singleton].
    intros x Hx Hy. by apply list_elem_of_singleton in Hy as ->.
  - intros p [Hp|Hp]%elem_of_app; [by apply Hdj|].
    apply list_elem_of_singleton in Hp as ->. by eapply vg_notin.
  - rewrite TRAPFRAME_MAXVA. lia.
  - intros va Hva. rewrite TRAPFRAME_MAXVA in Hva. rewrite He by lia.
    rewrite decide_False by zlia. apply Ht. rewrite TRAPFRAME_MAXVA. lia.
  - intros va Hva. pose proof Hva as Hva'. rewrite TRAPFRAME_MAXVA, MAXVA_eq in Hva'.
    rewrite He by (rewrite MAXVA_eq; lia). rewrite MAXVA_eq in Hb.
    rewrite decide_False by zlia. by apply Hk.
Qed.

(** ** uvmdealloc *)

Lemma uspace_unmap s root ps fl n o h :
  kmem_ready h -> uspace s root ps fl n -> (o <= n)%nat ->
  let pas := upages (pm_mem s) root (Z.of_nat o * PGSIZE) (n - o) in
  exists h' s',
    uvmunmap root (Z.of_nat o * PGSIZE) (Z.of_nat (n - o)) true h s = Done tt h' s' /\
    calm h h' /\ uspace s' root ps (reverse pas ++ fl) o /\
    same_outside (ps ++ pas) (pm_mem s) (pm_mem s') /\
    upages (pm_mem s) root 0 n = upages (pm_mem s') root 0 o ++ pas /\
    forall va, 0 <= va < MAXVA -> entry (pm_mem s') root va
      = unmap_range (entry (pm_mem s) root) (Z.of_nat o * PGSIZE) (Z.of_nat (n - o)) va.
Proof.
  intros Hh U Hon pas. pose proof (eq_refl : PGSIZE = 4096) as Hpg.
  destruct U as [Hv Hl Hok Hnd Hd Hb Ht Hkn]. rewrite TRAPFRAME_MAXVA in Hb.
  assert (Hsplit : upages (pm_mem s) root 0 n = upages (pm_mem s) root 0 o ++ pas).
  { unfold pas. replace n with (o + (n - o))%nat at 1 by lia. by rewrite upages_app. }
  rewrite Hsplit in *. apply Forall_app in Hok as [Hok1 Hok2].
  apply NoDup_app in Hnd as (Hnd1 & Hnd2 & Hnd3).
  destruct (uvmunmap_run root ps fl (Z.of_nat o * PGSIZE) (n - o) true h s)
    as (h' & s' & E & Hc & Hs' & Hout & He); auto; try lia.
  { apply Z.mod_mul. lia. }
  { intros i Hi. rewrite <-Z.mul_add_distr_r. apply Hl. lia. }
  { intros _. split_and!; auto. intros p Hp. apply Hd, elem_of_app. by right. }
  simpl in Hs'. fold pas in Hs', Hout. simpl in Hout. rewrite app_nil_r in Hout.
  assert (Hlow : forall x, 0 <= x < Z.of_nat o * PGSIZE -> entry (pm_mem s') root x = entry (pm_mem s) root x).
  { intros x Hx. rewrite He by lia. unfold unmap_range. by rewrite decide_False by lia. }
  assert (Hup : upages (pm_mem s') root 0 o = upages (pm_mem s) root 0 o).
  { apply upages_same; [rewrite TRAPFRAME_MAXVA; lia|done]. }
  exists h', s'. split_and!; auto.
  - constructor; rewrite ?Hup; auto.
    + intros i Hi. rewrite Hlow by lia. apply Hl. lia.
    + intros p Hp. destruct (Hd p) as [? ?]; [apply elem_of_app; by left|].
      split; [done|]. rewrite elem_of_app, elem_of_reverse. intros [Hc'|?]; [|contradiction].
      by apply (Hnd2 p).
    + rewrite TRAPFRAME_MAXVA. lia.
    + intros va Hva. rewrite TRAPFRAME_MAXVA in Hva. rewrite He by lia. unfold unmap_range.
      case_decide; [done|]. apply Ht. rewrite TRAPFRAME_MAXVA. lia.
    + intros va Hva. pose proof Hva as Hva'. rewrite TRAPFRAME_MAXVA, MAXVA_eq in Hva'.
      rewrite MAXVA_eq in Hb. rewrite He by (rewrite MAXVA_eq; lia). unfold unmap_range.
      rewrite decide_False by lia. by apply Hkn.
  - eapply same_outside_mono; [|exact Hout]. intros x. rewrite !elem_of_app, elem_of_reverse. auto.
  - by rewrite Hup.
Qed.

Lemma npages_mono a b : 0 <= a <= b -> (npages a <= npages b)%nat.
Proof.
  intros. unfold npages. apply Z2Nat.inj_le; try (apply Z.div_pos; unfold PGSIZE; lia).
  apply Z.div_le_mono; unfold PGSIZE; lia.
Qed.

Lemma uvmdealloc_run s root ps fl oldsz newsz h :
  kmem_ready h -> uspace s root ps fl (npages oldsz) ->
  0 <= oldsz <= TRAPFRAME -> 0 <= newsz ->
  let sz := Z.min oldsz newsz in
  let pas := upages (pm_mem s) root (Z.of_nat (npages sz) * PGSIZE) (npages oldsz - npages sz) in
  exists h' s', uvmdealloc root oldsz newsz h s = Done sz h' s' /\ calm h h' /\
    uspace s' root ps (reverse pas ++ fl) (npages sz) /\
    same_outside (ps ++ pas) (pm_mem s) (pm_mem s') /\
    upages (pm_mem s) root 0 (npages oldsz) = upages (pm_mem s') root 0 (npages sz) ++ pas /\
    forall va, 0 <= va < MAXVA -> entry (pm_mem s') root va
      = unmap_range (entry (pm_mem s) root) (Z.of_nat (npages sz) * PGSIZE)
          (Z.of_nat (npages oldsz - npages sz)) va.
Proof.
  intros Hh U Hold Hnew sz pas. pose proof (eq_refl : PGSIZE = 4096) as Hpg.
  rewrite TRAPFRAME_MAXVA, MAXVA_eq in Hold.
  assert (Hle : (npages sz <= npages oldsz)%nat) by (apply npages_mono; lia).
  destruct (uspace_unmap s root ps fl (npages oldsz) (npages sz) h Hh U Hle)
    as (h' & s' & E & Hc & U' & Hrest).
  assert (Hskip : (npages oldsz - npages sz = 0)%nat ->
    uspace s root ps (reverse pas ++ fl) (npages sz) /\
    same_outside (ps ++ pas) (pm_mem s) (pm_mem s) /\
    upages (pm_mem s) root 0 (npages oldsz) = upages (pm_mem s) root 0 (npages sz) ++ pas /\
    forall va, 0 <= va < MAXVA -> entry (pm_mem s) root va
      = unmap_range (entry (pm_mem s) root) (Z.of_nat (npages sz) * PGSIZE)
          (Z.of_nat (npages oldsz - npages sz)) va).
  { intros Hz. assert (npages sz = npages oldsz) as Hsz by lia. unfold pas. rewrite Hz, Hsz. simpl.
    split_and!; [done|apply same_outside_refl|by rewrite app_nil_r|].
    intros va Hva. unfold unmap_range. by rewrite decide_False by lia. }
  unfold uvmdealloc. case_if.
  { exists h, s. replace sz with oldsz in * by lia. split_and!; auto with xv6; apply Hskip; lia. }
  replace newsz with sz by lia.
  rewrite !npages_roundup by lia. rewrite bind_when. case_if.
  - rewrite <-Z.mul_sub_distr_r, Z.div_mul by lia.
    replace (Z.of_nat (npages oldsz) - Z.of_nat (npages sz))
      with (Z.of_nat (npages oldsz - npages sz)) by lia.
    pose proof (npages_bounds oldsz ltac:(lia)).
    rewrite i32_id, u64_id by lia. krun E. exists h', s'.
    split; [done|]. split; [done|]. split; [exact U'|exact Hrest].
  - exists h, s. split_and!; auto with xv6; apply Hskip; lia.
Qed.

(** ** uvmalloc *)

Lemma uspace_page m root n va :
  0 <= va < Z.of_nat n * PGSIZE -> PTE2PA (entry m root va) ∈ upages m root 0 n.
Proof.
  intros Hva. apply elem_of_upages. exists (va / PGSIZE). split; [unfold PGSIZE in *; zlia|].
  f_equal. apply entry_same_page. rewrite Z.add_0_l, Z.div_mul; [done|unfold PGSIZE; lia].
Qed.

(** A page [q] fresh from kalloc, filled as in [m1], is mapped behind the image. *)
Lemma uvm_grow_one s root ps q fl n m1 perm h :
  kmem_ready h -> uspace s root ps (q :: fl) n ->
  same_outside [q] (pm_mem (allocd q s)) m1 -> mem_ok m1 ->
  (Z.of_nat n + 1) * PGSIZE <= TRAPFRAME -> 0 <= perm < 2 ^ 10 -> Z.lor perm PTE_V <> PTE_V ->
  exists r h' s' ps' fl',
    mappages root (Z.of_nat n * PGSIZE) PGSIZE q perm h (set_mem m1 (allocd q s)) = Done r h' s' /\
    calm h h' /\ page_ok q /\ (q ∉ ps') /\ (q ∉ fl') /\
    (exists new, fl = new ++ fl' /\ ps' ≡ₚ new ++ ps) /\
    same_outside (q :: ps') (pm_mem s) (pm_mem s') /\
    (forall va, 0 <= va < Z.of_nat n * PGSIZE -> umem (pm_mem s') root va = umem (pm_mem s) root va) /\
    (r = 0 /\ uspace s' root ps' fl' (S n) /\
       upages (pm_mem s') root 0 (S n) = upages (pm_mem s) root 0 n ++ [q] /\
       (forall x, in_page q x -> rd (pm_mem s') x = rd m1 x) /\
       (forall x, 0 <= x < MAXVA -> entry (pm_mem s') root x
          = if decide (x / PGSIZE = Z.of_nat n) then leaf q perm else entry (pm_mem s) root x) \/
     r = -1 /\ fl' = [] /\ (length fl <= 3)%nat /\ uspace s' root ps' fl' n /\
       upages (pm_mem s') root 0 n = upages (pm_mem s) root 0 n /\ (q ∉ upages (pm_mem s') root 0 n) /\
       (forall x, 0 <= x < MAXVA -> entry (pm_mem s') root x = entry (pm_mem s) root x)).
Proof.
  intros Hh U Hm1 Hok1 Hb Hperm Hflags. pose proof (eq_refl : PGSIZE = 4096) as Hpg.
  destruct (vm_allocd s root ps q fl (us_vm _ _ _ _ _ U)) as (Hv0 & Hq & Hq0 & Hqps & Hqfl & He0).
  destruct (vm_page_write _ root ps fl q m1 Hv0 Hq Hqps Hqfl Hm1 Hok1) as [Hv1 He1].
  set (s1 := set_mem m1 (allocd q s)) in *.
  assert (He : forall va, entry (pm_mem s1) root va = entry (pm_mem s) root va)
    by (intros va; by rewrite He1, He0).
  assert (Hqu : q ∉ upages (pm_mem s) root 0 n).
  { intros Hc. destruct (us_disj _ _ _ _ _ U q Hc) as [_ Hd]. apply Hd. constructor. }
  assert (Hup : upages (pm_mem s1) root 0 n = upages (pm_mem s) root 0 n).
  { apply upages_same; [apply U|]. intros. apply He. }
  assert (U1 : uspace s1 root ps fl n).
  { eapply uspace_ext; [done|done|intros; apply He|]. intros p Hp.
    destruct (us_disj _ _ _ _ _ U p Hp) as [? Hd]. split; [done|].
    intros Hc. apply Hd. by constructor. }
  destruct (uspace_map_new s1 root ps fl n q perm h) as (r & h' & s' & ps' & fl' & E & Hc & G & Hr);
    rewrite ?Hup; auto.
  destruct (vg_notin _ _ _ _ _ _ _ q G Hqps Hqfl) as [Hqps' Hqfl'].
  assert (Hout1 : same_outside [q] (pm_mem s) (pm_mem s1))
    by (eapply same_outside_trans; [apply allocd_outside|exact Hm1]).
  assert (Hout : same_outside (q :: ps') (pm_mem s) (pm_mem s')).
  { eapply same_outside_trans; eapply same_outside_mono; [|exact Hout1| |apply G].
    - apply singleton_sub. constructor.
    - intros x Hx. by constructor. }
  exists r, h', s', ps', fl'. split_and!; auto; [apply G| |].
  - intros va Hva. assert (Hev : entry (pm_mem s') root va = entry (pm_mem s) root va).
    { destruct Hr as [(_ & _ & _ & Hx)|(_ & _ & _ & _ & Hx)];
        rewrite Hx, He by (rewrite TRAPFRAME_MAXVA in Hb; lia); [|done].
      by rewrite decide_False by zlia. }
    eapply (umem_outside s); eauto. intros p [->|Hp]%elem_of_cons; [done|].
    pose proof (po_ok _ _ _ (vs_own _ _ _ _ (vg_state _ _ _ _ _ _ _ G))) as Hpo.
    rewrite Forall_forall in Hpo. split; [by apply Hpo|]. intros Hc'.
    destruct (us_disj _ _ _ _ _ U1 p) as [Hx Hy]; [by rewrite Hup|].
    by destruct (vg_notin _ _ _ _ _ _ _ p G Hx Hy).
  - rewrite Hup in Hr. destruct Hr as [(-> & U' & Hup' & Hx)|(-> & -> & Hl3 & U' & Hx)]; [left|right].
    + split_and!; auto.
      * intros x Hqx. apply (vg_outside _ _ _ _ _ _ _ G). intros p Hp.
        pose proof (po_ok _ _ _ (vs_own _ _ _ _ (vg_state _ _ _ _ _ _ _ G))) as Hpo.
        rewrite Forall_forall in Hpo.
        apply (pages_disjoint q); [apply Hq|by apply Hpo|by intros ->|done].
      * intros x Hx'. rewrite Hx by done. by rewrite He.
    + assert (Hupe : upages (pm_mem s') root 0 n = upages (pm_mem s) root 0 n).
      { rewrite <-Hup. apply upages_same; [apply U|]. intros va Hva. apply Hx.
        rewrite TRAPFRAME_MAXVA in Hb. lia. }
      rewrite Hupe. split_and!; auto. intros x Hx'. by rewrite Hx, He.
Qed.

(** All pages of the image, its tables and the allocator. *)
Definition all_pages (m : mem) (root : Z) (ps fl : list Z) (n : nat) : list Z :=
  ps ++ upages m root 0 n ++ fl.

(** The image was cut back from [n] to [o] pages and nothing was lost. *)
Record rolled_back (s : pm) (root : Z) (ps fl : list Z) (n o : nat) (s' : pm) (ps' fl' : list Z) : Prop := {
  rb_space : uspace s' root ps' fl' o;
  rb_entry : forall va, 0 <= va < MAXVA -> entry (pm_mem s') root va
    = unmap_range (entry (pm_mem s) root) (Z.of_nat o * PGSIZE) (Z.of_nat (n - o)) va;
  rb_umem : forall va, 0 <= va < Z.of_nat o * PGSIZE -> umem (pm_mem s') root va = umem (pm_mem s) root va;
  rb_pages : all_pages (pm_mem s') root ps' fl' o ≡ₚ all_pages (pm_mem s) root ps fl n;
}.

Lemma uvm_rollback s root ps fl n o h :
  kmem_ready h -> uspace s root ps fl n -> (o <= n)%nat ->
  exists h' s' fl', uvmdealloc root (Z.of_nat n * PGSIZE) (Z.of_nat o * PGSIZE) h s
      = Done (Z.of_nat o * PGSIZE) h' s' /\ calm h h' /\
    rolled_back s root ps fl n o s' ps fl'.
Proof.
  intros Hh U Hon. pose proof (eq_refl : PGSIZE = 4096) as Hpg.
  pose proof (us_bound _ _ _ _ _ U) as Hb.
  destruct (uvmdealloc_run s root ps fl (Z.of_nat n * PGSIZE) (Z.of_nat o * PGSIZE) h)
    as (h' & s' & E & Hc & U' & Hout & Hup & He); rewrite ?npages_pages; auto; try lia.
  rewrite Z.min_r in * by lia. rewrite !npages_pages in *.
  set (pas := upages (pm_mem s) root (Z.of_nat o * PGSIZE) (n - o)) in *.
  exists h', s', (reverse pas ++ fl). split_and!; auto. constructor; auto.
  - intros va Hva. pose proof U' as [Hv' _ _ _ _ _ _ _].
    assert (Hev : entry (pm_mem s') root va = entry (pm_mem s) root va).
    { rewrite He by (rewrite TRAPFRAME_MAXVA in Hb; lia). unfold unmap_range.
      by rewrite decide_False by lia. }
    assert (Hp : PTE2PA (entry (pm_mem s) root va) ∈ upages (pm_mem s') root 0 o)
      by (rewrite <-Hev; by apply uspace_page).
    unfold umem. rewrite Hev. apply Hout. intros q Hq.
    pose proof (us_ok _ _ _ _ _ U) as Hok. rewrite Hup in Hok.
    apply Forall_app in Hok as [Hok1 Hok2]. rewrite Forall_forall in Hok1.
    pose proof (us_nodup _ _ _ _ _ U) as Hnd. rewrite Hup in Hnd.
    apply NoDup_app in Hnd as (_ & Hnd & _).
    apply (pages_disjoint (PTE2PA (entry (pm_mem s) root va))).
    + by apply Hok1.
    + apply elem_of_app in Hq as [Hq|Hq].
      * pose proof (po_ok _ _ _ (vs_own _ _ _ _ Hv')) as Hpo. rewrite Forall_forall in Hpo. by apply Hpo.
      * rewrite Forall_forall in Hok2. by apply Hok2.
    + intros Eq. rewrite <-Eq in Hq. apply elem_of_app in Hq as [Hq|Hq]; [|by eapply Hnd].
      by destruct (us_disj _ _ _ _ _ U' _ Hp).
    + unfold in_page, PGSIZE. zlia.
  - unfold all_pages. rewrite Hup, <-!app_assoc. by rewrite reverse_Permutation.
Qed.

(** The image grew from [n] to [n'] pages; the new ones are user pages of zeros. *)
Definition URWX : Z := Z.lor (Z.lor (Z.lor PTE_W PTE_X) PTE_R) PTE_U.

Lemma URWX_range : 0 <= URWX < 2 ^ 10 /\ Z.lor URWX PTE_V <> PTE_V.
Proof. vm_compute. split; [split; [discriminate|reflexivity]|discriminate]. Qed.

Record grown (s : pm) (root : Z) (ps fl : list Z) (n n' : nat) (s' : pm) (ps' fl' : list Z) : Prop := {
  gr_space : uspace s' root ps' fl' n';
  gr_old : forall va, 0 <= va < MAXVA -> ~ (Z.of_nat n * PGSIZE <= va < Z.of_nat n' * PGSIZE) ->
    entry (pm_mem s') root va = entry (pm_mem s) root va;
  gr_new : forall va, Z.of_nat n * PGSIZE <= va < Z.of_nat n' * PGSIZE ->
    (exists pa, page_ok pa /\ entry (pm_mem s') root va = leaf pa URWX) /\ umem (pm_mem s') root va = 0;
  gr_umem : forall va, 0 <= va < Z.of_nat n * PGSIZE -> umem (pm_mem s') root va = umem (pm_mem s) root va;
  gr_pages : all_pages (pm_mem s') root ps' fl' n' ≡ₚ all_pages (pm_mem s) root ps fl n;
}.

Lemma grown_refl s root ps fl n : uspace s root ps fl n -> grown s root ps fl n n s ps fl.
Proof. intros U. constructor; auto. intros va Hva. lia. Qed.

Lemma grown_cons s root ps fl n s1 ps1 fl1 n' s' ps' fl' :
  (S n <= n')%nat ->
  grown s root ps fl n (S n) s1 ps1 fl1 -> grown s1 root ps1 fl1 (S n) n' s' ps' fl' ->
  grown s root ps fl n n' s' ps' fl'.
Proof.
  intros Hn [U1 O1 N1 M1 P1] [U2 O2 N2 M2 P2]. pose proof (eq_refl : PGSIZE = 4096) as Hpg.
  pose proof (us_bound _ _ _ _ _ U2) as Hb. rewrite TRAPFRAME_MAXVA in Hb.
  constructor; auto.
  - intros va Hva Hx. rewrite O2, O1 by lia. done.
  - intros va Hva. destruct (decide (va < Z.of_nat (S n) * PGSIZE)).
    + destruct (N1 va ltac:(lia)) as [(pa & ? & Hpa) Hz].
      rewrite O2 by lia. rewrite M2 by lia. eauto.
    + apply N2. lia.
  - intros va Hva. rewrite M2, M1 by lia. done.
  - by rewrite P2.
Qed.

Lemma rolled_back_cons s root ps fl n s1 ps1 fl1 n1 o s' ps' fl' :
  (o <= n <= n1)%nat -> uspace s root ps fl n ->
  grown s root ps fl n n1 s1 ps1 fl1 -> rolled_back s1 root ps1 fl1 n1 o s' ps' fl' ->
  rolled_back s root ps fl n o s' ps' fl'.
Proof.
  intros Ho U [U1 O1 N1 M1 P1] [U2 E2 M2 P2]. pose proof (eq_refl : PGSIZE = 4096) as Hpg.
  pose proof (us_bound _ _ _ _ _ U1) as Hb. constructor; auto.
  - intros va Hva. rewrite E2 by done. unfold unmap_range.
    repeat case_decide; try (exfalso; lia); auto.
    + symmetry. apply (us_top _ _ _ _ _ U). lia.
    + apply O1; lia.
  - intros va Hva. rewrite M2, M1 by lia. done.
  - by rewrite P2.
Qed.

(** Giving back a page that is not part of the image. *)
Lemma uspace_kfree s root ps fl n q h :
  kmem_ready h -> uspace s root ps fl n ->
  page_ok q -> q ∉ ps -> q ∉ fl -> q ∉ upages (pm_mem s) root 0 n ->
  kfree q h s = Done tt (settle h) (freed q s) /\
  uspace (freed q s) root ps (q :: fl) n /\
  (forall va, entry (pm_mem (freed q s)) root va = entry (pm_mem s) root va) /\
  (forall va, 0 <= va < Z.of_nat n * PGSIZE ->
     umem (pm_mem (freed q s)) root va = umem (pm_mem s) root va).
Proof.
  intros [Hwf Hk] U Hq Hqps Hqfl Hqu.
  pose proof (us_vm _ _ _ _ _ U) as [Ho Hf Hd Hok].
  assert (Hsame : forall p x, p ∈ ps -> in_page p x -> rd (pm_mem (freed q s)) x = rd (pm_mem s) x).
  { intros p x Hp. eapply outside_in_page; [apply freed_outside|done| |apply Ho|by constructor].
    intros y Hy. by apply list_elem_of_singleton in Hy as ->. }
  assert (He : forall va, entry (pm_mem (freed q s)) root va = entry (pm_mem s) root va)
    by (intros va; by eapply entry_same).
  split_and!; [by apply kfree_run| |done|].
  - eapply uspace_ext; [done| |intros; apply He|].
    + constructor; [by eapply pt_own_same|by apply freed_list| |by apply freed_ok].
      intros p Hp [->|Hc]%elem_of_cons; [contradiction|]. by apply (Hd p).
    + intros p Hp. destruct (us_disj _ _ _ _ _ U p Hp) as [? ?]. split; [done|].
      intros [->|?]%elem_of_cons; contradiction.
  - intros va Hva. eapply (umem_outside s); [done|apply freed_outside|done| |done].
    intros y Hy. by apply list_elem_of_singleton in Hy as ->.
Qed.

(** uvmalloc gives up when there is no page for a table. *)
Lemma grow_failed s root ps fl n q o h :
  kmem_ready h -> uspace s root ps fl n -> (o <= n)%nat ->
  page_ok q -> q ∉ ps -> q ∉ fl -> q ∉ upages (pm_mem s) root 0 n ->
  exists h' s' fl', (kfree q;; uvmdealloc root (Z.of_nat n * PGSIZE) (Z.of_nat o * PGSIZE);; ret 0) h s
      = Done 0 h' s' /\ calm h h' /\ rolled_back s root ps (q :: fl) n o s' ps fl'.
Proof.
  intros Hh U Hon Hq Hqps Hqfl Hqu.
  destruct (uspace_kfree s root ps fl n q h) as (Ek & U1 & He & Hm); auto. krun Ek.
  destruct (uvm_rollback (freed q s) root ps (q :: fl) n o (settle h))
    as (h' & s' & fl' & E & Hc & R); auto.
  { by apply kmem_ready_settle. }
  exists h', s', fl'. krun E. split_and!; [done|eauto with xv6|].
  destruct R as [UR ER MR PR]. constructor; auto.
  - intros va Hva. rewrite ER by done. unfold unmap_range. by rewrite He.
  - intros va Hva. rewrite MR by done. apply Hm. unfold PGSIZE in *. lia.
  - rewrite PR. unfold all_pages. by rewrite (upages_same (pm_mem s) (pm_mem (freed q s)));
      [|apply U|intros; apply He].
Qed.

Lemma perm_take (new a b c : list Z) x :
  new ++ a ++ b ++ x :: c ≡ₚ a ++ b ++ x :: new ++ c.
Proof.
  rewrite !(app_assoc a b). rewrite (app_assoc new), (Permutation_app_comm new (a ++ b)).
  rewrite <-!(app_assoc _ new). apply Permutation_app_head. symmetry. apply Permutation_middle.
Qed.

(** The step of the successful path. *)
Lemma grow_step s root ps q fl n s' ps' fl' :
  uspace s root ps (q :: fl) n -> page_ok q -> uspace s' root ps' fl' (S n) ->
  upages (pm_mem s') root 0 (S n) = upages (pm_mem s) root 0 n ++ [q] ->
  (exists new, fl = new ++ fl' /\ ps' ≡ₚ new ++ ps) ->
  (forall x, in_page q x -> rd (pm_mem s') x = 0) ->
  (forall x, 0 <= x < MAXVA -> entry (pm_mem s') root x
     = if decide (x / PGSIZE = Z.of_nat n) then leaf q URWX else entry (pm_mem s) root x) ->
  (forall va, 0 <= va < Z.of_nat n * PGSIZE -> umem (pm_mem s') root va = umem (pm_mem s) root va) ->
  grown s root ps (q :: fl) n (S n) s' ps' fl'.
Proof.
  intros U Hq U' Hup (new & -> & Hps) Hz He Hm. pose proof (eq_refl : PGSIZE = 4096) as Hpg.
  pose proof (us_bound _ _ _ _ _ U') as Hb. rewrite TRAPFRAME_MAXVA in Hb.
  constructor; auto.
  - intros va Hva Hx. rewrite He by done. rewrite decide_False by zlia. done.
  - intros va Hva. unfold umem. rewrite He by lia. rewrite decide_True by zlia.
    split; [by exists q|]. rewrite PTE2PA_leaf by (first [by apply page_ok_pa | apply URWX_range]).
    apply Hz. unfold in_page. zlia.
  - unfold all_pages. rewrite Hup, Hps, <-!app_assoc. simpl.
    apply perm_take.
Qed.

Lemma uvmalloc_loop_run k fuel s root ps fl n o newsz h :
  kmem_ready h -> uspace s root ps fl n -> (o <= n)%nat ->
  0 <= newsz <= TRAPFRAME -> k = (npages newsz - n)%nat -> (k <= fuel)%nat ->
  exists r h' s' ps' fl',
    uvmalloc_loop fuel root (Z.of_nat o * PGSIZE) (Z.of_nat n * PGSIZE) newsz h s = Done r h' s' /\
    calm h h' /\
    (r = newsz /\ grown s root ps fl n (n + k) s' ps' fl' \/
     r = 0 /\ rolled_back s root ps fl n o s' ps' fl').
Proof.
  revert fuel s ps fl n h. induction k as [|k IH]; intros fuel s ps fl n h Hh U Hon Hnew Hk Hf;
    pose proof (eq_refl : PGSIZE = 4096) as Hpg; pose proof (npages_bounds newsz ltac:(lia)) as Hnb.
  { exists newsz, h, s, ps, fl. rewrite Nat.add_0_r. split_and!; auto using grown_refl with xv6.
    destruct fuel; simpl; (case_if; [done|lia]). }
  destruct fuel as [|fuel]; [lia|]. cbn [uvmalloc_loop]. case_if; [lia|]. clear E.
  pose proof Hh as [Hwf Hkm]. pose proof (us_vm _ _ _ _ _ U) as Hv.
  destruct fl as [|q fl].
  { krun (kalloc_none h s (vs_free _ _ _ _ Hv) Hwf Hkm). simpl.
    destruct (uvm_rollback s root ps [] n o (settle h)) as (h' & s' & fl' & E & Hc & R); auto.
    { by apply kmem_ready_settle. }
    krun E. exists 0, h', s', ps, fl'. split_and!; eauto with xv6. }
  krun (kalloc_some h s q fl (vs_free _ _ _ _ Hv) Hwf Hkm).
  destruct (free_list_head _ _ _ (vs_free _ _ _ _ Hv)) as (Hq & Hq0 & _).
  destruct (Z.eqb_spec q 0) as [|_]; [done|]. ksimpl.
  set (m1 := memset (pm_mem (allocd q s)) q 0 PGSIZE).
  rewrite TRAPFRAME_MAXVA, MAXVA_eq in Hnew.
  destruct (uvm_grow_one s root ps q fl n m1 URWX (settle h))
    as (r & h1 & s1 & ps1 & fl1 & E1 & Hc1 & _ & Hqps & Hqfl & Hnews & _ & Hum & Hr); auto.
  { by apply kmem_ready_settle. } { apply memset_page_outside. } { apply memset_ok, allocd_ok, Hv. }
  { rewrite TRAPFRAME_MAXVA, MAXVA_eq. zlia. } all: try apply URWX_range.
  krun E1. clear E1. assert (Hh1 : kmem_ready h1) by (eapply kmem_ready_calm; [|done]; eauto with xv6).
  destruct Hr as [(-> & U1 & Hup & Hcont & He)|(-> & -> & _ & U1 & Hup & Hqu & He)]; simpl.
  - assert (G : grown s root ps (q :: fl) n (S n) s1 ps1 fl1).
    { apply grow_step; auto. intros x Hx. rewrite Hcont by done. unfold m1.
      rewrite rd_memset, decide_True; [done|]. by rewrite u32_id. }
    rewrite u64_id by lia.
    replace (Z.of_nat n * PGSIZE + PGSIZE) with (Z.of_nat (S n) * PGSIZE) by lia.
    destruct (IH fuel s1 ps1 fl1 (S n) h1) as (r & h' & s' & ps' & fl' & E & Hc & Hr); auto; try lia.
    exists r, h', s', ps', fl'. split_and!; eauto 6 with xv6.
    destruct Hr as [[-> G']|[-> R]]; [left|right]; (split; [done|]).
    + replace (n + S k)%nat with (S n + k)%nat by lia. eapply grown_cons; eauto; lia.
    + eapply rolled_back_cons; [|exact U|exact G|exact R]. lia.
  - destruct (grow_failed s1 root ps1 [] n q o h1) as (h' & s' & fl' & E & Hc & R); auto.
    exists 0, h', s', ps1, fl'. split_and!; eauto 6 with xv6. right. split; [done|].
    destruct R as [UR ER MR PR]. constructor; auto.
    + intros va Hva. rewrite ER by done. unfold unmap_range. by rewrite He.
    + intros va Hva. rewrite MR, Hum by lia. done.
    + rewrite PR. unfold all_pages. rewrite Hup. destruct Hnews as (new & -> & Hps).
      rewrite Hps, <-!app_assoc. apply perm_take.
Qed.

Lemma uvmalloc_run s root ps fl oldsz newsz h :
  kmem_ready h -> uspace s root ps fl (npages oldsz) -> 0 <= oldsz <= newsz -> newsz <= TRAPFRAME ->
  exists r h' s' ps' fl',
    uvmalloc root oldsz newsz h s = Done r h' s' /\ calm h h' /\
    (r = newsz /\ grown s root ps fl (npages oldsz) (npages newsz) s' ps' fl' \/
     r = 0 /\ rolled_back s root ps fl (npages oldsz) (npages oldsz) s' ps' fl').
Proof.
  intros Hh U Hsz Htop. unfold uvmalloc. case_if; [lia|].
  pose proof (eq_refl : PGSIZE = 4096) as Hpg. pose proof (npages_mono oldsz newsz ltac:(lia)).
  assert (newsz < 2 ^ 38) by (rewrite TRAPFRAME_MAXVA, MAXVA_eq in Htop; lia).
  rewrite npages_roundup by lia.
  replace (npages newsz) with (npages oldsz + (npages newsz - npages oldsz))%nat by lia.
  apply uvmalloc_loop_run; auto; [lia|].
  unfold npages at 1. zlia.
Qed.

End usermem.
