(* ===== verification/UserCopy.v ===== *)
(** * UserCopy

    copyout, copyin and copyinstr against the memory a user program sees, and
    uvmcopy, which fork uses to duplicate it. *)
From stdpp Require Import base tactics list numbers gmap strings sets.
From S2P Require Import Prelude Machine Spinlock Bytes Queue Kalloc Vm Pagetable VmSpec UserMem.

Section usercopy.
Context `{LayoutOk}.

(** ** Pages of the image *)

Lemma uspace_page_ok s root ps fl n va :
  uspace s root ps fl n -> 0 <= va < Z.of_nat n * PGSIZE ->
  page_ok (PTE2PA (entry (pm_mem s) root va)).
Proof.
  intros U Hva. pose proof (us_ok _ _ _ _ _ U) as Hok. rewrite Forall_forall in Hok.
  apply Hok. by apply uspace_page.
Qed.

Lemma lookup_upages m root a n i :
  (i < n)%nat -> upages m root a n !! i = Some (PTE2PA (entry m root (a + Z.of_nat i * PGSIZE))).
Proof.
  revert a i. induction n as [|n IH]; intros a i Hi; [lia|]. destruct i; simpl.
  - by rewrite Z.add_0_r.
  - rewrite IH by lia. do 3 f_equal. lia.
Qed.

(** Different pages of the image are different physical pages. *)
Lemma uspace_inj s root ps fl n va va' :
  uspace s root ps fl n ->
  0 <= va < Z.of_nat n * PGSIZE -> 0 <= va' < Z.of_nat n * PGSIZE ->
  PTE2PA (entry (pm_mem s) root va) = PTE2PA (entry (pm_mem s) root va') ->
  va / PGSIZE = va' / PGSIZE.
Proof.
  intros U Hva Hva' E. pose proof (eq_refl : PGSIZE = 4096) as Hpg.
  assert (Hi : forall x, 0 <= x < Z.of_nat n * PGSIZE ->
    upages (pm_mem s) root 0 n !! Z.to_nat (x / PGSIZE) = Some (PTE2PA (entry (pm_mem s) root x))).
  { intros x Hx. rewrite lookup_upages by zlia. do 2 f_equal. apply entry_same_page.
    rewrite Z2Nat.id by zlia. rewrite Z.add_0_l, Z.div_mul by lia. done. }
  pose proof (Hi va Hva) as E1. pose proof (Hi va' Hva') as E2. rewrite <-E in E2.
  pose proof (NoDup_lookup _ _ _ _ (us_nodup _ _ _ _ _ U) E1 E2). zlia.
Qed.

(** Can the user program access [va]? *)
Definition accessible (m : mem) (root va : Z) : bool :=
  (va <? MAXVA) && has (entry m root va) PTE_V && has (entry m root va) PTE_U.

Lemma accessible_image s root ps fl n va :
  uspace s root ps fl n -> 0 <= va -> accessible (pm_mem s) root va = true ->
  va < Z.of_nat n * PGSIZE.
Proof.
  intros U Hva Ha. unfold accessible in Ha. bool_to_prop.
  destruct (decide (va < Z.of_nat n * PGSIZE)) as [|Hn]; [done|].
  destruct (decide (va < TRAPFRAME)).
  - rewrite (us_top _ _ _ _ _ U) in * by lia. discriminate.
  - rewrite (us_kernel _ _ _ _ _ U) in * by lia. discriminate.
Qed.

Lemma accessible_page m root va va' :
  0 <= va -> 0 <= va' -> va / PGSIZE = va' / PGSIZE ->
  accessible m root va = accessible m root va'.
Proof.
  intros Hva Hva' E. unfold accessible. rewrite (entry_same_page m root va va' E). do 2 f_equal.
  change MAXVA with (2 ^ 26 * PGSIZE). unfold PGSIZE in *. apply eq_true_iff_eq.
  rewrite !Z.ltb_lt. zlia.
Qed.

Lemma translate_accessible s root ps fl n va :
  uspace s root ps fl n -> 0 <= va ->
  translate (pm_mem s) root (PGROUNDDOWN va)
  = if accessible (pm_mem s) root va then PTE2PA (entry (pm_mem s) root va) else 0.
Proof.
  intros U Hva. rewrite PGROUNDDOWN_eq. pose proof (eq_refl : PGSIZE = 4096) as Hpg.
  assert (Hd : va / PGSIZE * PGSIZE / PGSIZE = va / PGSIZE) by (apply Z.div_mul; lia).
  rewrite (accessible_page _ _ va (va / PGSIZE * PGSIZE)) by zlia.
  rewrite (entry_same_page _ _ va (va / PGSIZE * PGSIZE)) by done.
  unfold translate, accessible. rewrite Z.ltb_antisym. by destruct (MAXVA <=? _).
Qed.

(** ** Writing into one page of the image *)

Lemma in_page_offset pa va : in_page pa (pa + va mod PGSIZE).
Proof. unfold in_page, PGSIZE. zlia. Qed.

Lemma uspace_write s root ps fl n va bs :
  uspace s root ps fl n -> 0 <= va < Z.of_nat n * PGSIZE ->
  va mod PGSIZE + Z.of_nat (length bs) <= PGSIZE ->
  let m' := write_bytes (pm_mem s) (PTE2PA (entry (pm_mem s) root va) + va mod PGSIZE) bs in
  uspace (set_mem m' s) root ps fl n /\
  (forall x, entry m' root x = entry (pm_mem s) root x) /\
  forall x, 0 <= x < Z.of_nat n * PGSIZE -> umem m' root x
    = if decide (va <= x < va + Z.of_nat (length bs))
      then u8 (default 0 (bs !! Z.to_nat (x - va))) else umem (pm_mem s) root x.
Proof.
  intros U Hva Hlen m'. set (pa := PTE2PA (entry (pm_mem s) root va)) in *.
  pose proof (eq_refl : PGSIZE = 4096) as Hpg.
  pose proof (uspace_page_ok s root ps fl n va U Hva) as Hpa. fold pa in Hpa.
  destruct (us_disj _ _ _ _ _ U pa) as [Hps Hfl]; [by apply uspace_page|].
  pose proof (Z.mod_pos_bound va PGSIZE ltac:(lia)) as Hmod.
  assert (Hout : same_outside [pa] (pm_mem s) m').
  { intros x Hx. apply rd_write_other. intros Hc. apply (Hx pa); [constructor|].
    unfold in_page. lia. }
  destruct (vm_page_write s root ps fl pa m' (us_vm _ _ _ _ _ U) Hpa Hps Hfl Hout) as [Hv He].
  { apply write_bytes_ok, U. }
  split_and!; [|done|].
  - eapply uspace_ext; [done|done|intros; apply He|apply U].
  - intros x Hx. unfold umem. rewrite He. destruct (decide (x / PGSIZE = va / PGSIZE)) as [Hsame|Hdiff].
    + rewrite (entry_same_page _ _ x va Hsame). fold pa. unfold m'. rewrite rd_write_bytes.
      repeat case_decide; try (exfalso; zlia); auto.
      do 3 f_equal. zlia.
    + rewrite decide_False by zlia. apply Hout. intros q Hq.
      apply list_elem_of_singleton in Hq as ->.
      apply (pages_disjoint (PTE2PA (entry (pm_mem s) root x))).
      * by eapply uspace_page_ok.
      * apply Hpa.
      * intros E. apply Hdiff. by eapply uspace_inj.
      * apply in_page_offset.
Qed.

(** ** copyout *)

Lemma copyout_loop_run fuel s root ps fl n dst src h :
  uspace s root ps fl n -> 0 <= dst -> dst + Z.of_nat (length src) < 2 ^ 64 - PGSIZE ->
  (length src <= fuel)%nat ->
  exists r s', copyout_loop fuel root dst src h s = Done r h s' /\
    uspace s' root ps fl n /\
    (forall x, entry (pm_mem s') root x = entry (pm_mem s) root x) /\
    (r = 0 /\
       (forall x, dst <= x < dst + Z.of_nat (length src) -> accessible (pm_mem s) root x = true) /\
       (forall x, 0 <= x < Z.of_nat n * PGSIZE -> umem (pm_mem s') root x
          = if decide (dst <= x < dst + Z.of_nat (length src))
            then u8 (default 0 (src !! Z.to_nat (x - dst))) else umem (pm_mem s) root x) \/
     r = -1 /\
       (exists x, dst <= x < dst + Z.of_nat (length src) /\ accessible (pm_mem s) root x = false) /\
       (forall x, 0 <= x < Z.of_nat n * PGSIZE -> ~ (dst <= x < dst + Z.of_nat (length src)) ->
          umem (pm_mem s') root x = umem (pm_mem s) root x)).
Proof.
  pose proof (eq_refl : PGSIZE = 4096) as Hpg.
  revert s dst src. induction fuel as [|fuel IH]; intros s dst src U Hd Hlen Hf.
  { destruct src; [|simpl in Hf; lia]. exists 0, s. split_and!; auto. left. simpl.
    split_and!; auto; [lia|]. intros x Hx. by rewrite decide_False by lia. }
  destruct src as [|b src0].
  { exists 0, s. split_and!; auto. left. simpl.
    split_and!; auto; [lia|]. intros x Hx. by rewrite decide_False by lia. }
  cbn [copyout_loop]. set (src := b :: src0) in *. set (len := Z.of_nat (length src)) in *.
  assert (Hlen0 : 0 < len) by (unfold len, src; simpl; lia).
  krun (walkaddr_run root ps (PGROUNDDOWN dst) h s (vs_own _ _ _ _ (us_vm _ _ _ _ _ U))).
  rewrite (translate_accessible s root ps fl n dst U Hd).
  destruct (accessible (pm_mem s) root dst) eqn:Hacc.
  2: { simpl. exists (-1), s. split_and!; auto. right. split_and!; auto. exists dst. split; [lia|done]. }
  pose proof (accessible_image _ _ _ _ _ _ U Hd Hacc) as Hdn.
  pose proof (page_ok_pos _ (uspace_page_ok s root ps fl n dst U ltac:(lia))).
  case_if; [lia|]. ksimpl. rewrite PGROUNDDOWN_eq.
  replace (dst - dst / PGSIZE * PGSIZE) with (dst mod PGSIZE) by zlia.
  set (k := Z.to_nat (Z.min (PGSIZE - dst mod PGSIZE) len)).
  pose proof (Z.mod_pos_bound dst PGSIZE ltac:(lia)).
  assert (Hk : Z.of_nat k = Z.min (PGSIZE - dst mod PGSIZE) len) by lia.
  assert (Hkl : length (take k src) = k) by (rewrite length_take; lia).
  destruct (uspace_write s root ps fl n dst (take k src) U) as (U1 & He1 & Hm1); [lia|rewrite Hkl; lia|].
  set (m1 := write_bytes _ _ _) in *. rewrite Hkl in Hm1.
  destruct (IH (set_mem m1 s) (u64 (dst / PGSIZE * PGSIZE + PGSIZE)) (drop k src) U1)
    as (r & s' & E' & U' & He' & Hr); rewrite ?length_drop.
  { apply u64_range. }
  { rewrite u64_id by zlia. destruct (decide (k = length src)); [|zlia].
    pose proof (us_bound _ _ _ _ _ U) as Hb. rewrite TRAPFRAME_MAXVA, MAXVA_eq in Hb. zlia. }
  { unfold src in *. simpl length in *. lia. }
  rewrite u64_id in * by zlia. rewrite length_drop in Hr. simpl pm_mem in *.
  (* the rest starts at the next page, or is empty *)
  assert (Hrest : (k < length src)%nat -> dst / PGSIZE * PGSIZE + PGSIZE = dst + Z.of_nat k) by zlia.
  assert (Hacc1 : forall x, dst <= x < dst + Z.of_nat k -> accessible (pm_mem s) root x = true).
  { intros x Hx. rewrite (accessible_page _ _ x dst) by zlia. done. }
  assert (Hae : forall x, accessible m1 root x = accessible (pm_mem s) root x)
    by (intros x; unfold accessible; by rewrite He1).
  exists r, s'. split_and!; auto; [intros x; by rewrite He', He1|].
  destruct Hr as [(-> & Ha & Hm)|(-> & (x & Hx & Ha) & Hm)]; [left|right].
  - split_and!; auto.
    + intros x Hx. destruct (decide (x < dst + Z.of_nat k)); [apply Hacc1; lia|].
      rewrite <-Hae. apply Ha. lia.
    + intros x Hx. rewrite Hm, Hm1 by done. rewrite lookup_drop.
      destruct (decide (dst <= x < dst + Z.of_nat k)).
      * rewrite decide_False by lia. rewrite decide_True by lia.
        rewrite lookup_take_lt by lia. done.
      * repeat case_decide; try (exfalso; lia); auto.
        do 3 f_equal. lia.
  - split_and!; auto.
    + exists x. split; [lia|]. by rewrite <-Hae.
    + intros y Hy Hout. rewrite Hm by lia. rewrite Hm1 by done. by rewrite decide_False by lia.
Qed.

(** ** copyin *)

(** The bytes a user program sees from [va] on. *)
Fixpoint ubytes (m : mem) (root va : Z) (n : nat) : list Z :=
  match n with O => [] | S n' => umem m root va :: ubytes m root (va + 1) n' end.

Lemma length_ubytes m root va n : length (ubytes m root va n) = n.
Proof. revert va. induction n; intros; simpl; auto. Qed.

Lemma lookup_ubytes m root va n i :
  (i < n)%nat -> ubytes m root va n !! i = Some (umem m root (va + Z.of_nat i)).
Proof.
  revert va i. induction n as [|n IH]; intros va i Hi; [lia|]. destruct i; simpl.
  - by rewrite Z.add_0_r.
  - rewrite IH by lia. do 2 f_equal. lia.
Qed.

Lemma ubytes_app m root va n1 n2 :
  ubytes m root va (n1 + n2) = ubytes m root va n1 ++ ubytes m root (va + Z.of_nat n1) n2.
Proof.
  revert va. induction n1 as [|n1 IH]; intros va; simpl.
  - by rewrite Z.add_0_r.
  - rewrite IH. do 3 f_equal. lia.
Qed.

(** Within one page the user sees the bytes of the physical page. *)
Lemma read_bytes_ubytes m root va k :
  0 <= va -> va mod PGSIZE + Z.of_nat k <= PGSIZE ->
  read_bytes m (PTE2PA (entry m root va) + va mod PGSIZE) k = ubytes m root va k.
Proof.
  intros Hva Hk. apply list_eq. intros i. pose proof (eq_refl : PGSIZE = 4096) as Hpg.
  destruct (decide (i < k)%nat).
  - rewrite lookup_read_bytes, lookup_ubytes by done. unfold umem. do 2 f_equal.
    rewrite (entry_same_page _ _ (va + Z.of_nat i) va) by zlia. zlia.
  - rewrite !(lookup_ge_None_2); rewrite ?length_read_bytes, ?length_ubytes; auto; lia.
Qed.

Section readonly.
Context (s : pm) (root : Z) (ps fl : list Z) (n : nat) (U : uspace s root ps fl n).

(** The page step shared by copyin and copyinstr. *)
Lemma copy_page_step va len :
  0 <= va -> accessible (pm_mem s) root va = true -> 0 < len ->
  let pa := PTE2PA (entry (pm_mem s) root va) in
  let k := Z.min (PGSIZE - (va - PGROUNDDOWN va)) len in
  pa <> 0 /\ va < 2 ^ 38 /\ va - PGROUNDDOWN va = va mod PGSIZE /\
  0 < k <= len /\ va mod PGSIZE + k <= PGSIZE /\
  u64 (PGROUNDDOWN va + PGSIZE) = va - va mod PGSIZE + PGSIZE /\
  (forall x, va <= x < va + k -> accessible (pm_mem s) root x = true) /\
  (k < len -> u64 (PGROUNDDOWN va + PGSIZE) = va + k).
Proof.
  intros Hva Hacc Hlen pa k. pose proof (eq_refl : PGSIZE = 4096) as Hpg.
  pose proof (accessible_image _ _ _ _ _ _ U Hva Hacc) as Hn.
  pose proof (page_ok_pos _ (uspace_page_ok s root ps fl n va U ltac:(lia))).
  pose proof (us_bound _ _ _ _ _ U) as Hb. rewrite TRAPFRAME_MAXVA, MAXVA_eq in Hb.
  pose proof (Z.mod_pos_bound va PGSIZE ltac:(lia)).
  unfold k. rewrite PGROUNDDOWN_eq.
  replace (va - va / PGSIZE * PGSIZE) with (va mod PGSIZE) by zlia.
  rewrite u64_id by zlia.
  split_and!; try done; try lia; try zlia.
  intros x Hx. rewrite (accessible_page _ _ x va) by zlia. done.
Qed.

Lemma copyin_loop_run fuel va len h :
  0 <= va -> va + len < 2 ^ 64 -> (Z.to_nat len <= fuel)%nat ->
  (forall x, va <= x < va + len -> accessible (pm_mem s) root x = true) ->
  copyin_loop fuel root va len h s = Done (0, ubytes (pm_mem s) root va (Z.to_nat len)) h s.
Proof.
  revert va len. induction fuel as [|fuel IH]; intros va len Hva Hlen Hf Hacc; simpl.
  { case_if; [|lia]. by replace (Z.to_nat len) with 0%nat by lia. }
  case_if; [by replace (Z.to_nat len) with 0%nat by lia|].
  assert (Ha : accessible (pm_mem s) root va = true) by (apply Hacc; lia).
  destruct (copy_page_step va len Hva Ha ltac:(lia)) as (Hpa & H38 & Hoff & Hk & Hkp & Hu & _ & Hnext).
  krun (walkaddr_run root ps (PGROUNDDOWN va) h s (vs_own _ _ _ _ (us_vm _ _ _ _ _ U))).
  rewrite (translate_accessible s root ps fl n va U Hva), Ha.
  case_if; [done|]. ksimpl. set (k := Z.min _ _) in *. rewrite Hoff, Hu.
  pose proof (eq_refl : PGSIZE = 4096). pose proof (Z.mod_pos_bound va PGSIZE ltac:(lia)).
  rewrite Hu in Hnext.
  rewrite (bind_done _ _ h s _ _ _ (IH (va - va mod PGSIZE + PGSIZE) (len - k)
    ltac:(lia) ltac:(lia) ltac:(lia) ltac:(intros; apply Hacc; lia))).
  ksimpl. simpl. rewrite read_bytes_ubytes by lia.
  replace (Z.to_nat len) with (Z.to_nat k + Z.to_nat (len - k))%nat by lia.
  rewrite ubytes_app. do 3 f_equal. destruct (decide (k < len)).
  - rewrite Z2Nat.id by lia. by rewrite <-Hnext.
  - by replace (Z.to_nat (len - k)) with 0%nat by lia.
Qed.

Lemma copyin_loop_fail fuel va len h :
  0 <= va -> va + len < 2 ^ 64 -> (Z.to_nat len <= fuel)%nat ->
  (exists x, va <= x < va + len /\ accessible (pm_mem s) root x = false) ->
  exists bs, copyin_loop fuel root va len h s = Done (-1, bs) h s.
Proof.
  revert va len. induction fuel as [|fuel IH]; intros va len Hva Hlen Hf (x & Hx & Hbad); simpl;
    (case_if; [lia|]); [lia|].
  krun (walkaddr_run root ps (PGROUNDDOWN va) h s (vs_own _ _ _ _ (us_vm _ _ _ _ _ U))).
  rewrite (translate_accessible s root ps fl n va U Hva).
  destruct (accessible (pm_mem s) root va) eqn:Ha; [|by exists []].
  destruct (copy_page_step va len Hva Ha ltac:(lia)) as (Hpa & H38 & Hoff & Hk & Hkp & Hu & Hok & Hnext).
  case_if; [done|]. ksimpl. set (k := Z.min _ _) in *.
  pose proof (eq_refl : PGSIZE = 4096). pose proof (Z.mod_pos_bound va PGSIZE ltac:(lia)).
  destruct (decide (x < va + k)) as [Hlt|]; [rewrite Hok in Hbad by lia; done|].
  destruct (IH (u64 (PGROUNDDOWN va + PGSIZE)) (len - k)) as [bs E']; [lia..|exists x; split; [lia|done]|].
  krun E'. ksimpl. by eexists.
Qed.

(** ** copyinstr *)

Lemma copyinstr_page_found m p k i :
  (i < k)%nat -> (forall j, (j < i)%nat -> rd m (p + Z.of_nat j) <> 0) -> rd m (p + Z.of_nat i) = 0 ->
  copyinstr_page m p k = (true, read_bytes m p (S i)).
Proof.
  revert p i. induction k as [|k IH]; intros p i Hi Hnz Hz; [lia|]. simpl.
  destruct i as [|i].
  - rewrite Z.add_0_r in Hz. by rewrite Hz.
  - specialize (Hnz 0%nat ltac:(lia)) as H0'. rewrite Z.add_0_r in H0'. case_if; [done|].
    rewrite (IH (p + 1) i); [done|lia| |].
    + intros j Hj. specialize (Hnz (S j) ltac:(lia)).
      by replace (p + 1 + Z.of_nat j) with (p + Z.of_nat (S j)) by lia.
    + by replace (p + 1 + Z.of_nat i) with (p + Z.of_nat (S i)) by lia.
Qed.

Lemma copyinstr_page_none m p k :
  (forall j, (j < k)%nat -> rd m (p + Z.of_nat j) <> 0) ->
  copyinstr_page m p k = (false, read_bytes m p k).
Proof.
  revert p. induction k as [|k IH]; intros p Hnz; [done|]. simpl.
  specialize (Hnz 0%nat ltac:(lia)) as H0'. rewrite Z.add_0_r in H0'. case_if; [done|].
  rewrite IH; [done|]. intros j Hj. specialize (Hnz (S j) ltac:(lia)).
  by replace (p + 1 + Z.of_nat j) with (p + Z.of_nat (S j)) by lia.
Qed.

(** Bytes of one page, as the user sees them. *)
Lemma umem_offset va j :
  0 <= va -> va mod PGSIZE + Z.of_nat j < PGSIZE ->
  rd (pm_mem s) (PTE2PA (entry (pm_mem s) root va) + va mod PGSIZE + Z.of_nat j)
  = umem (pm_mem s) root (va + Z.of_nat j).
Proof.
  intros Hva Hj. pose proof (eq_refl : PGSIZE = 4096) as Hpg. unfold umem.
  rewrite (entry_same_page _ _ (va + Z.of_nat j) va) by zlia. f_equal. zlia.
Qed.

Lemma copyinstr_loop_run fuel va max i h :
  0 <= va -> va + max < 2 ^ 64 -> (Z.to_nat max <= fuel)%nat -> 0 <= i <= max ->
  (forall j, 0 <= j < i ->
     accessible (pm_mem s) root (va + j) = true /\ umem (pm_mem s) root (va + j) <> 0) ->
  (i < max -> accessible (pm_mem s) root (va + i) = true -> umem (pm_mem s) root (va + i) = 0 ->
     copyinstr_loop fuel root va max h s
     = Done (0, ubytes (pm_mem s) root va (Z.to_nat i + 1)) h s) /\
  (i = max \/ accessible (pm_mem s) root (va + i) = false ->
     exists bs, copyinstr_loop fuel root va max h s = Done (-1, bs) h s).
Proof.
  revert va max i. induction fuel as [|fuel IH]; intros va max i Hva Hmax Hf Hi Hpre; simpl.
  { case_if; [|lia]. split; [lia|]. intros _. by exists []. }
  case_if. { split; [lia|]. intros _. by exists []. }
  krun (walkaddr_run root ps (PGROUNDDOWN va) h s (vs_own _ _ _ _ (us_vm _ _ _ _ _ U))).
  rewrite (translate_accessible s root ps fl n va U Hva).
  destruct (accessible (pm_mem s) root va) eqn:Ha.
  2: { simpl. assert (i = 0) as ->.
       { destruct (decide (i = 0)); [done|]. destruct (Hpre 0 ltac:(lia)) as [Hx _].
         rewrite Z.add_0_r in Hx. congruence. }
       rewrite Z.add_0_r, Ha. split; [discriminate|]. intros _. by exists []. }
  destruct (copy_page_step va max Hva Ha ltac:(lia)) as (Hpa & H38 & Hoff & Hk & Hkp & Hu & Hok & Hnext).
  case_if; [done|]. ksimpl. set (k := Z.min _ _) in *. rewrite Hoff.
  pose proof (eq_refl : PGSIZE = 4096). pose proof (Z.mod_pos_bound va PGSIZE ltac:(lia)).
  destruct (decide (i < k)) as [Hik|Hik].
  - (* the scan ends in this page *)
    rewrite (Hok (va + i)) by lia. split; [|lia || (intros [?|?]; [lia|done])].
    intros _ _ Hz. rewrite (copyinstr_page_found _ _ _ (Z.to_nat i)).
    + cbn [fst snd]. ksimpl. by rewrite read_bytes_ubytes, Nat.add_1_r by lia.
    + lia.
    + intros j Hj. rewrite umem_offset by lia. apply Hpre. lia.
    + rewrite umem_offset by lia. by rewrite Z2Nat.id by lia.
  - rewrite copyinstr_page_none.
    2: { intros j Hj. rewrite umem_offset by lia. apply Hpre. lia. }
    simpl. rewrite read_bytes_ubytes by lia.
    assert (Hvk : i - k < max - k \/ k < max -> u64 (PGROUNDDOWN va + PGSIZE) = va + k) by lia.
    destruct (decide (k < max)) as [Hkm|Hkm].
    + rewrite Hvk by lia.
      destruct (IH (va + k) (max - k) (i - k)) as [Hs Hfl]; try lia.
      { intros j Hj. rewrite <-Z.add_assoc. apply Hpre. lia. }
      replace (va + k + (i - k)) with (va + i) in * by lia. split.
      * intros Him Hai Hz. rewrite (bind_done _ _ _ _ _ _ _ (Hs ltac:(lia) Hai Hz)). ksimpl. simpl.
        replace (Z.to_nat i + 1)%nat with (Z.to_nat k + (Z.to_nat (i - k) + 1))%nat by lia.
        rewrite (ubytes_app _ _ va), Z2Nat.id by lia. done.
      * intros Hbad. destruct Hfl as [bs Eb]; [destruct Hbad; [left; lia|by right]|].
        krun Eb. by eexists.
    + split; [lia|]. intros _. replace (max - k) with 0 by lia.
      destruct fuel; simpl; ksimpl; by eexists.
Qed.

End readonly.

(** ** uvmcopy *)

(** An image is untouched by writes outside its pages and by allocation. *)
Lemma uspace_frame s s' root ps fl fl' n qs :
  uspace s root ps fl n -> same_outside qs (pm_mem s) (pm_mem s') ->
  (forall q, q ∈ qs -> page_ok q /\ (q ∉ ps) /\ q ∉ upages (pm_mem s) root 0 n) ->
  free_list s' fl' -> mem_ok (pm_mem s') ->
  (forall p, p ∈ fl' -> (p ∉ ps) /\ p ∉ upages (pm_mem s) root 0 n) ->
  uspace s' root ps fl' n /\
  (forall va, entry (pm_mem s') root va = entry (pm_mem s) root va) /\
  (forall va, 0 <= va < Z.of_nat n * PGSIZE -> umem (pm_mem s') root va = umem (pm_mem s) root va).
Proof.
  intros U Hout Hqs Hf Hok Hfl. pose proof (vs_own _ _ _ _ (us_vm _ _ _ _ _ U)) as Ho.
  assert (Hsame : forall p x, p ∈ ps -> in_page p x -> rd (pm_mem s') x = rd (pm_mem s) x).
  { intros p x Hp. eapply outside_in_page; [exact Hout|exact Hp| |apply Ho|].
    - intros q Hq. by destruct (Hqs q Hq) as (_ & ? & _).
    - apply Forall_forall. intros q Hq. by destruct (Hqs q Hq). }
  assert (He : forall va, entry (pm_mem s') root va = entry (pm_mem s) root va)
    by (intros va; by eapply entry_same).
  split_and!; [|done|].
  - eapply uspace_ext; [done| |intros; apply He|].
    + constructor; [by eapply pt_own_same|done| |done]. intros p Hp Hc. by destruct (Hfl p Hc).
    + intros p Hp. destruct (us_disj _ _ _ _ _ U p Hp). split; [done|].
      intros Hc. by destruct (Hfl p Hc).
  - intros va Hva. eapply umem_outside; eauto. intros q Hq. by destruct (Hqs q Hq) as (? & _ & ?).
Qed.

Lemma flags_range e : 0 <= PTE_FLAGS e < 2 ^ 10.
Proof.
  unfold PTE_FLAGS. change 0x3FF with (Z.ones 10). rewrite Z.land_ones by lia.
  apply Z.mod_pos_bound. lia.
Qed.

Lemma flags_valid e : has e PTE_V = true -> Z.lor (PTE_FLAGS e) PTE_V = PTE_FLAGS e.
Proof.
  intros Hv. assert (Hb : Z.testbit e 0 = true).
  { destruct (Z.testbit e 0) eqn:E; [done|]. unfold has, PTE_V in Hv.
    assert (Z.land e 1 = 0) as Hz; [|by rewrite Hz in Hv].
    apply Z.bits_inj'. intros j Hj. rewrite Z.land_spec, Z.bits_0.
    destruct (decide (j = 0)) as [->|]; [by rewrite E|].
    change 1 with (Z.ones 1). by rewrite Z.ones_spec_high, andb_false_r by lia. }
  unfold PTE_FLAGS, PTE_V. apply Z.bits_inj'. intros j Hj. rewrite Z.lor_spec, Z.land_spec.
  destruct (decide (j = 0)) as [->|]; [by rewrite Hb|].
  change 1 with (Z.ones 1). by rewrite (Z.ones_spec_high 1), orb_false_r by lia.
Qed.

(** The memory after [memmove(mem, pa, PGSIZE)] into the page just allocated. *)
Definition copied_page (s : pm) (q pa : Z) : mem := memmove (pm_mem (allocd q s)) q pa PGSIZE.

Lemma copied_page_facts s q pa :
  mem_ok (pm_mem s) -> page_ok q -> page_ok pa -> pa <> q ->
  same_outside [q] (pm_mem (allocd q s)) (copied_page s q pa) /\
  mem_ok (copied_page s q pa) /\
  forall o, 0 <= o < PGSIZE -> rd (copied_page s q pa) (q + o) = rd (pm_mem s) (pa + o).
Proof.
  intros Hok Hq Hpa Hne. pose proof (allocd_ok q s Hok) as Hok'. unfold copied_page.
  pose proof (eq_refl : PGSIZE = 4096) as Hpg.
  rewrite memmove_write by done. rewrite u32_id by (rewrite Hpg; lia). split_and!.
  - intros x Hx. apply rd_write_other. rewrite length_read_bytes. intros Hc.
    apply (Hx q); [constructor|]. unfold in_page. lia.
  - by apply write_bytes_ok.
  - intros o Ho. rewrite rd_write_bytes, length_read_bytes, decide_True by lia.
    rewrite lookup_read_bytes by lia. simpl. rewrite u8_id by apply Hok'.
    replace (pa + Z.of_nat (Z.to_nat (q + o - q))) with (pa + o) by lia.
    apply allocd_outside. intros y Hy. apply list_elem_of_singleton in Hy as ->.
    apply (pages_disjoint pa); [apply Hpa|apply Hq|done|]. unfold in_page. lia.
Qed.

(** Parent [old] and child [new] side by side. *)
Record family (s : pm) (old new : Z) (pso psn fl : list Z) (n k : nat) : Prop := {
  fa_old : uspace s old pso fl n;
  fa_new : uspace s new psn fl k;
  fa_disj : forall p, p ∈ psn ++ upages (pm_mem s) new 0 k ->
    (p ∉ pso) /\ p ∉ upages (pm_mem s) old 0 n;
}.

(** The first [k] pages of the child are copies of the parent's. *)
Definition copied (s0 s : pm) (old new : Z) (k : nat) : Prop :=
  forall va, 0 <= va < Z.of_nat k * PGSIZE ->
    umem (pm_mem s) new va = umem (pm_mem s0) old va /\
    PTE_FLAGS (entry (pm_mem s) new va) = PTE_FLAGS (entry (pm_mem s0) old va).

Definition intact (s0 s : pm) (root : Z) (n : nat) : Prop :=
  (forall va, entry (pm_mem s) root va = entry (pm_mem s0) root va) /\
  (forall va, 0 <= va < Z.of_nat n * PGSIZE -> umem (pm_mem s) root va = umem (pm_mem s0) root va).

Lemma intact_upages s0 s root n :
  intact s0 s root n -> upages (pm_mem s) root 0 n = upages (pm_mem s0) root 0 n.
Proof. intros [He _]. apply upages_ext. intros. apply He. Qed.

(** Writes to the child's pages and to pages that were free leave the parent alone. *)
Lemma family_frame s s' old new pso psn fl psn' fl' n k k' qs :
  family s old new pso psn fl n k -> same_outside qs (pm_mem s) (pm_mem s') ->
  (forall q, q ∈ qs -> q ∈ psn ++ upages (pm_mem s) new 0 k \/ q ∈ fl) ->
  uspace s' new psn' fl' k' ->
  (forall p, p ∈ psn' ++ upages (pm_mem s') new 0 k' ++ fl' ->
     p ∈ psn ++ upages (pm_mem s) new 0 k \/ p ∈ fl) ->
  family s' old new pso psn' fl' n k' /\ intact s s' old n.
Proof.
  intros [Uo Un Hd] Hout Hqs Un' Hin.
  assert (Hfree : forall p, p ∈ fl -> page_ok p /\ (p ∉ pso) /\ p ∉ upages (pm_mem s) old 0 n).
  { intros p Hp. pose proof (vs_free _ _ _ _ (us_vm _ _ _ _ _ Uo)) as [Hl _].
    apply linked_pages in Hl. rewrite Forall_forall in Hl. split_and!; [by apply Hl| |].
    - intros Hc. by apply (vs_disj _ _ _ _ (us_vm _ _ _ _ _ Uo) p).
    - intros Hc. by destruct (us_disj _ _ _ _ _ Uo p Hc). }
  assert (Hchild : forall p, p ∈ psn ++ upages (pm_mem s) new 0 k -> page_ok p).
  { intros p [Hp|Hp]%elem_of_app.
    - pose proof (po_ok _ _ _ (vs_own _ _ _ _ (us_vm _ _ _ _ _ Un))) as Hpo.
      rewrite Forall_forall in Hpo. by apply Hpo.
    - pose proof (us_ok _ _ _ _ _ Un) as Hpo. rewrite Forall_forall in Hpo. by apply Hpo. }
  destruct (uspace_frame s s' old pso fl fl' n qs) as (Uo' & He & Hm); auto.
  - intros q Hq. destruct (Hqs q Hq) as [Hc|Hc]; [|by apply Hfree].
    split; [by apply Hchild|by apply Hd].
  - apply Un'.
  - apply Un'.
  - intros p Hp. destruct (Hin p) as [Hc|Hc]; [rewrite !elem_of_app; auto|by apply Hd|by apply Hfree].
  - split; [|done]. constructor; [done|done|]. intros p Hp.
    rewrite (intact_upages s s' old n) by done.
    destruct (Hin p) as [Hc|Hc]; [rewrite !elem_of_app in *; tauto|by apply Hd|].
    by destruct (Hfree p Hc) as (_ & ? & ?).
Qed.

Lemma copied_grow s0 s s' old new k n q e :
  copied s0 s old new k -> intact s0 s old n -> (k < n)%nat -> page_ok q ->
  (Z.of_nat k + 1) * PGSIZE <= TRAPFRAME ->
  e = entry (pm_mem s0) old (Z.of_nat k * PGSIZE) -> has e PTE_V = true ->
  (forall va, 0 <= va < Z.of_nat k * PGSIZE -> umem (pm_mem s') new va = umem (pm_mem s) new va) ->
  (forall x, 0 <= x < MAXVA -> entry (pm_mem s') new x
     = if decide (x / PGSIZE = Z.of_nat k) then leaf q (PTE_FLAGS e) else entry (pm_mem s) new x) ->
  (forall o, 0 <= o < PGSIZE -> rd (pm_mem s') (q + o) = rd (pm_mem s) (PTE2PA e + o)) ->
  copied s0 s' old new (S k).
Proof.
  intros Hcp [Hio Him] Hkn Hq Hb Ee HeV Hum He Hc va Hva.
  pose proof (eq_refl : PGSIZE = 4096) as Hpg. rewrite TRAPFRAME_MAXVA in Hb.
  destruct (decide (va < Z.of_nat k * PGSIZE)) as [Hlt|Hge].
  - rewrite Hum by lia. rewrite He by lia. rewrite decide_False by zlia. apply Hcp. lia.
  - assert (Hpage : va / PGSIZE = Z.of_nat k) by zlia.
    assert (Heo : entry (pm_mem s0) old va = e).
    { rewrite Ee. apply entry_same_page. by rewrite Z.div_mul by lia. }
    assert (Hen : entry (pm_mem s') new va = leaf q (PTE_FLAGS e)).
    { rewrite He by lia. by rewrite decide_True. }
    pose proof (flags_range e) as Hfl. pose proof (page_ok_pa q Hq) as Hpq. split.
    + rewrite <-(Him va) by lia. unfold umem. rewrite Hen, Hio, Heo.
      rewrite PTE2PA_leaf by done. apply Hc. apply Z.mod_pos_bound. lia.
    + rewrite Hen, Heo, PTE_FLAGS_leaf by done. by apply flags_valid.
Qed.

Lemma intact_trans s0 s1 s2 root n : intact s0 s1 root n -> intact s1 s2 root n -> intact s0 s2 root n.
Proof.
  intros [E1 M1] [E2 M2]. split; [intros; by rewrite E2, E1|]. intros va Hva. by rewrite M2, M1.
Qed.

(** What the loop leaves behind, in every case. *)
Record copy_state (s0 s : pm) (old new : Z) (pso psn fl : list Z) (n k : nat) (pages : list Z) : Prop := {
  cs_family : family s old new pso psn fl n k;
  cs_intact : intact s0 s old n;
  cs_copied : copied s0 s old new k;
  cs_pages : all_pages (pm_mem s) new psn fl k ≡ₚ pages;
}.

Section copystep.
Context (s0 s : pm) (old new : Z) (pso psn : list Z) (n k : nat) (pages : list Z) (h : hart).
Context (Hh : kmem_ready h) (Hk : (k < n)%nat).

(** The parent's page [k]. *)
Lemma copy_source fl :
  copy_state s0 s old new pso psn fl n k pages ->
  let va := Z.of_nat k * PGSIZE in
  let e := entry (pm_mem s) old va in
  is_leaf e /\ page_ok (PTE2PA e) /\ (PTE2PA e ∉ fl) /\ (Z.of_nat k + 1) * PGSIZE <= TRAPFRAME /\
  exists pte, pte <> 0 /\ load64 (pm_mem s) pte = e /\ walk old va false h s = Done pte h s.
Proof.
  intros [[Uo _ _] _ _ _] va e. pose proof (eq_refl : PGSIZE = 4096) as Hpg.
  pose proof (us_bound _ _ _ _ _ Uo) as Hb.
  assert (Hleaf : is_leaf e) by (apply (us_leaf _ _ _ _ _ Uo); lia).
  assert (Hu : PTE2PA e ∈ upages (pm_mem s) old 0 n) by (apply uspace_page; lia).
  split_and!; [done|eapply uspace_page_ok; [done|lia]|by destruct (us_disj _ _ _ _ _ Uo _ Hu)|lia|].
  destruct (slot_addr (pm_mem s) old va) as [pte|] eqn:Hslot.
  2: { destruct Hleaf as [Hl _]. unfold e, entry in Hl. by rewrite Hslot in Hl. }
  pose proof (slot_pos _ _ _ _ _ (vs_own _ _ _ _ (us_vm _ _ _ _ _ Uo)) Hslot).
  exists pte. split_and!; [lia|by apply entry_slot|]. apply walk_found; [|done].
  rewrite TRAPFRAME_MAXVA in Hb. lia.
Qed.

Lemma copy_map q fl :
  copy_state s0 s old new pso psn (q :: fl) n k pages ->
  let e := entry (pm_mem s) old (Z.of_nat k * PGSIZE) in
  exists r h' s' psn' fl',
    mappages new (Z.of_nat k * PGSIZE) PGSIZE q (PTE_FLAGS e) h
      (set_mem (copied_page s q (PTE2PA e)) (allocd q s)) = Done r h' s' /\ calm h h' /\
    (r = 0 /\ copy_state s0 s' old new pso psn' fl' n (S k) pages \/
     r = -1 /\ exists s'', kfree q h' s' = Done tt (settle h') s'' /\
       copy_state s0 s'' old new pso psn' [q] n k pages).
Proof.
  intros Cs e. destruct (copy_source _ Cs) as ([HeV HeF] & Hpa & Hpaf & Hb & _).
  fold e in HeV, HeF, Hpa, Hpaf. destruct Cs as [Fam Hint Hcop Hpgs].
  pose proof Fam as [Uo Un Hd]. pose proof (us_vm _ _ _ _ _ Un) as Hvn.
  destruct (free_list_head _ _ _ (vs_free _ _ _ _ Hvn)) as (Hq & _ & _).
  assert (Hpaq : PTE2PA e <> q) by (intros Eq; apply Hpaf; rewrite Eq; constructor).
  destruct (copied_page_facts s q (PTE2PA e) (vs_ok _ _ _ _ Hvn) Hq Hpa Hpaq) as (Hcp1 & Hcp2 & Hcp3).
  destruct (uvm_grow_one s new psn q fl k (copied_page s q (PTE2PA e)) (PTE_FLAGS e) h)
    as (r & h1 & s1 & ps1 & fl1 & E1 & Hc1 & _ & Hqps & Hqfl & (nw & -> & Hperm) & Hout & Hum & Hres);
    auto; [apply flags_range|by rewrite flags_valid|].
  exists r, h1, s1, ps1, fl1. split_and!; auto.
  assert (Hps1 : forall p, p ∈ q :: ps1 -> p ∈ psn ++ upages (pm_mem s) new 0 k \/ p ∈ q :: nw ++ fl1).
  { intros p. rewrite !elem_of_cons, Hperm, !elem_of_app. tauto. }
  destruct Hres as [(-> & U1 & Hup & Hcont & He)|(-> & -> & _ & U1 & Hup & Hqu & He)]; [left|right];
    (split; [done|]).
  - destruct (family_frame s s1 old new pso psn (q :: nw ++ fl1) ps1 fl1 n k (S k) (q :: ps1))
      as [Fam1 Hint1]; auto.
    { intros p. rewrite Hup, Hperm, !elem_of_app, list_elem_of_singleton, !elem_of_cons, !elem_of_app. tauto. }
    constructor; auto.
    + by eapply intact_trans.
    + eapply (copied_grow s0 s s1 old new k n q e); auto.
      * unfold e. by rewrite (proj1 Hint).
      * intros o Ho. rewrite Hcont by (unfold in_page; lia). by apply Hcp3.
    + rewrite <-Hpgs. unfold all_pages. rewrite Hup, Hperm, <-!app_assoc. apply perm_take.
  - destruct (uspace_kfree s1 new ps1 [] k q h1) as (Ek & U2 & He2 & Hm2); auto.
    { by eapply kmem_ready_calm. }
    exists (freed q s1). split; [done|].
    assert (Hup2 : upages (pm_mem (freed q s1)) new 0 k = upages (pm_mem s) new 0 k).
    { rewrite <-Hup. apply upages_ext. intros. apply He2. }
    destruct (family_frame s (freed q s1) old new pso psn (q :: nw ++ []) ps1 [q] n k k (q :: ps1))
      as [Fam1 Hint1]; auto.
    { eapply same_outside_trans; [exact Hout|]. eapply same_outside_mono; [|apply freed_outside].
      apply singleton_sub. constructor. }
    { intros p. rewrite Hup2, Hperm, !elem_of_app, list_elem_of_singleton, !elem_of_cons, !elem_of_app. tauto. }
    rewrite TRAPFRAME_MAXVA in Hb. pose proof (eq_refl : PGSIZE = 4096) as Hpg. constructor; auto.
    + by eapply intact_trans.
    + intros va Hva. rewrite Hm2, Hum, He2, He by lia. by apply Hcop.
    + rewrite <-Hpgs. unfold all_pages. rewrite Hup2, Hperm, <-!app_assoc. apply perm_take.
Qed.

End copystep.

Lemma uvmcopy_loop_run r s0 fuel s old new pso psn fl n k pages sz h :
  kmem_ready h -> copy_state s0 s old new pso psn fl n k pages ->
  n = npages sz -> 0 <= sz -> r = (n - k)%nat -> (r <= fuel)%nat -> (k <= n)%nat ->
  exists e h' s' psn' fl' k',
    uvmcopy_loop fuel old new (Z.of_nat k * PGSIZE) sz h s = Done e h' s' /\ calm h h' /\
    copy_state s0 s' old new pso psn' fl' n k' pages /\
    (e = None /\ k' = n \/ e = Some (Z.of_nat k' * PGSIZE)).
Proof.
  pose proof (eq_refl : PGSIZE = 4096) as Hpg. intros Hh0 Cs0 Hn Hsz.
  pose proof (npages_bounds sz Hsz) as Hnb. rewrite <-Hn in Hnb. revert fuel s psn fl k h Hh0 Cs0.
  induction r as [|r IH]; intros fuel s psn fl k h Hh Cs Hr Hf Hkn.
  { exists None, h, s, psn, fl, k. split_and!; auto with xv6; [|left; split; [done|lia]].
    destruct fuel; simpl; (case_if; [done|lia]). }
  destruct fuel as [|fuel]; [lia|]. cbn [uvmcopy_loop]. case_if; [lia|]. clear E.
  destruct (copy_source s0 s old new pso psn n k pages h ltac:(lia) fl Cs)
    as ([HeV HeF] & _ & _ & Hb & pte & Hp0 & Hpte & Ew).
  krun Ew. case_if; [done|]. ksimpl. rewrite Hpte, HeV. cbn [negb]. clear E.
  pose proof Hh as [Hwf Hkm].
  pose proof (vs_free _ _ _ _ (us_vm _ _ _ _ _ (fa_new _ _ _ _ _ _ _ _ (cs_family _ _ _ _ _ _ _ _ _ _ Cs)))) as Hfl.
  destruct fl as [|q fl].
  { krun (kalloc_none h s Hfl Hwf Hkm). simpl.
    exists (Some (Z.of_nat k * PGSIZE)), (settle h), s, psn, [], k. split_and!; auto with xv6. }
  krun (kalloc_some h s q fl Hfl Hwf Hkm).
  destruct (free_list_head _ _ _ Hfl) as (Hq & Hq0 & Hqf).
  destruct (Z.eqb_spec q 0) as [|_]; [done|]. ksimpl.
  destruct (copy_map s0 s old new pso psn n k pages (settle h) (kmem_ready_settle h Hh) ltac:(lia) q fl Cs)
    as (r' & h1 & s1 & psn1 & fl1 & E1 & Hc1 & Hres).
  unfold copied_page in E1. krun E1. clear E1. rewrite TRAPFRAME_MAXVA, MAXVA_eq in Hb.
  destruct Hres as [[-> Cs1]|(-> & s2 & E2 & Cs2)]; simpl.
  - rewrite u64_id by lia. replace (Z.of_nat k * PGSIZE + PGSIZE) with (Z.of_nat (S k) * PGSIZE) by lia.
    destruct (IH fuel s1 psn1 fl1 (S k) h1) as (e & h' & s' & psn' & fl' & k' & E' & Hc' & Hrest);
      auto; try lia.
    { eapply kmem_ready_calm; [|done]. eauto with xv6. }
    exists e, h', s', psn', fl', k'. split_and!; [done|eauto 6 with xv6|apply Hrest|apply Hrest].
  - krun E2. exists (Some (Z.of_nat k * PGSIZE)), (settle h1), s2, psn1, [q], k.
    split_and!; eauto 6 with xv6.
Qed.

Lemma uvmcopy_run s old new pso psn fl sz h :
  kmem_ready h -> family s old new pso psn fl (npages sz) 0 -> 0 <= sz < 2 ^ 64 - PGSIZE ->
  exists r h' s' psn' fl' k,
    uvmcopy old new sz h s = Done r h' s' /\ calm h h' /\
    (r = 0 /\ k = npages sz \/ r = -1 /\ k = 0%nat) /\
    copy_state s s' old new pso psn' fl' (npages sz) k (all_pages (pm_mem s) new psn fl 0).
Proof.
  intros Hh Fam Hsz. pose proof (eq_refl : PGSIZE = 4096) as Hpg.
  assert (Cs : copy_state s s old new pso psn fl (npages sz) 0 (all_pages (pm_mem s) new psn fl 0)).
  { constructor; [done|by split|intros va Hva; lia|done]. }
  unfold uvmcopy.
  destruct (uvmcopy_loop_run (npages sz) s (Z.to_nat ((sz + PGSIZE - 1) / PGSIZE)) s old new pso psn fl
    (npages sz) 0 _ sz h Hh Cs) as (e & h1 & s1 & psn1 & fl1 & k & E1 & Hc1 & Cs1 & He); try done; try lia.
  rewrite Z.mul_0_l in E1. krun E1. destruct He as [[-> ->]| ->].
  { exists 0, h1, s1, psn1, fl1, (npages sz). split_and!; auto. }
  rewrite Z.div_mul by lia. destruct Cs1 as [Fam1 Hint1 Hcop1 Hpgs1]. pose proof Fam1 as [Uo Un Hd].
  destruct (uspace_unmap s1 new psn1 fl1 k 0 h1) as (h2 & s2 & E2 & Hc2 & U2 & Hout & Hup & He2);
    auto; [by eapply kmem_ready_calm|lia|].
  rewrite Nat.sub_0_r, Z.mul_0_l in *. krun E2. simpl in Hup.
  set (pas := upages (pm_mem s1) new 0 k) in *.
  destruct (family_frame s1 s2 old new pso psn1 fl1 psn1 (reverse pas ++ fl1) (npages sz) k 0 (psn1 ++ pas))
    as [Fam2 Hint2]; auto.
  { intros p. simpl. rewrite !elem_of_app, elem_of_reverse. unfold pas. rewrite ?elem_of_nil. tauto. }
  exists (-1), h2, s2, psn1, (reverse pas ++ fl1), 0%nat. split_and!; eauto with xv6.
  constructor; [done|by eapply intact_trans|intros va Hva; lia|].
  rewrite <-Hpgs1. unfold all_pages. simpl. fold pas. by rewrite reverse_Permutation.
Qed.

End usercopy.
