(* ===== verification/UserFree.v ===== *)
(** * UserFree

    freewalk and uvmfree: every page of a process image and of its page table
    goes back to the allocator, none twice and none lost. *)
From stdpp Require Import base tactics list numbers gmap strings sets.
From S2P Require Import Prelude Machine Spinlock Bytes Queue Kalloc Vm Pagetable VmSpec UserMem.

Section userfree.
Context `{LayoutOk}.

(** ** Subtrees of table pages *)

(** The table pages below [p], [d] levels deep, in the order freewalk frees them. *)
Fixpoint subtree (d : nat) (m : mem) (p : Z) : list Z :=
  match d with
  | O => [p]
  | S d' =>
      flat_map (fun i =>
        if has (load64 m (p + 8 * Z.of_nat i)) PTE_V
        then subtree d' m (PTE2PA (load64 m (p + 8 * Z.of_nat i))) else []) (upto 512) ++ [p]
  end.

(** A tree without leaves: level-0 tables are empty, the others hold links. *)
Fixpoint table_ok (d : nat) (m : mem) (p : Z) : Prop :=
  match d with
  | O => forall i, (i < 512)%nat -> has (load64 m (p + 8 * Z.of_nat i)) PTE_V = false
  | S d' => forall i, (i < 512)%nat -> has (load64 m (p + 8 * Z.of_nat i)) PTE_V = true ->
      Z.land (load64 m (p + 8 * Z.of_nat i)) RWX = 0 /\
      table_ok d' m (PTE2PA (load64 m (p + 8 * Z.of_nat i)))
  end.

(** The pages below entry [i] of a table at depth [d]. *)
Definition below (d : nat) (m : mem) (p : Z) (i : nat) : list Z :=
  match d with
  | O => []
  | S d' => if has (load64 m (p + 8 * Z.of_nat i)) PTE_V
            then subtree d' m (PTE2PA (load64 m (p + 8 * Z.of_nat i))) else []
  end.

Lemma subtree_below d m p : subtree d m p = flat_map (below d m p) (upto 512) ++ [p].
Proof.
  destruct d as [|d]; [|done]. simpl subtree. symmetry.
  generalize (upto 512). intros l. induction l; done.
Qed.

Lemma root_in_subtree d m p : p ∈ subtree d m p.
Proof. rewrite subtree_below, elem_of_app, list_elem_of_singleton. by right. Qed.

Lemma below_in_subtree d m p i x : (i < 512)%nat -> x ∈ below d m p i -> x ∈ subtree d m p.
Proof.
  intros Hi Hx. rewrite subtree_below, elem_of_app, elem_of_flat_map. left. exists i.
  by rewrite elem_of_upto.
Qed.

(** A tree is determined by its own pages. *)
Lemma subtree_ext d m m' p :
  (forall x a, x ∈ subtree d m p -> in_page x a -> rd m' a = rd m a) ->
  subtree d m' p = subtree d m p /\ (table_ok d m p -> table_ok d m' p).
Proof.
  revert p. induction d as [|d IH]; intros p Hx.
  - split; [done|]. intros Ht i Hi. rewrite <-(Ht i Hi). f_equal.
    apply load64_slot_page; [|lia]. intros a. apply Hx. constructor.
  - assert (He : forall i, (i < 512)%nat ->
      load64 m' (p + 8 * Z.of_nat i) = load64 m (p + 8 * Z.of_nat i)).
    { intros i Hi. apply load64_slot_page; [|lia]. intros a. apply Hx, root_in_subtree. }
    assert (Hb : forall i, (i < 512)%nat -> has (load64 m (p + 8 * Z.of_nat i)) PTE_V = true ->
      forall x a, x ∈ subtree d m (PTE2PA (load64 m (p + 8 * Z.of_nat i))) -> in_page x a ->
      rd m' a = rd m a).
    { intros i Hi Hv x a Hin. apply Hx. eapply (below_in_subtree (S d) m p i); [done|].
      simpl. by rewrite Hv. }
    split.
    + cbn [subtree]. apply (f_equal (.++ [p])), flat_map_ext_in. intros i Hi%elem_of_upto. rewrite He by done.
      case_if; [|done]. by apply IH, Hb.
    + intros Ht i Hi. rewrite He by done. intros Hv. destruct (Ht i Hi Hv) as [? Ht'].
      split; [done|]. exact (proj2 (IH _ (Hb i Hi Hv)) Ht').
Qed.

Lemma below_ext d m m' p i :
  (i < 512)%nat -> load64 m' (p + 8 * Z.of_nat i) = load64 m (p + 8 * Z.of_nat i) ->
  (forall x a, x ∈ below d m p i -> in_page x a -> rd m' a = rd m a) ->
  below d m' p i = below d m p i.
Proof.
  intros Hi He Hx. destruct d as [|d]; [done|]. simpl in *. rewrite He.
  case_if; [|done]. by apply subtree_ext.
Qed.

(** Entry [i] of a table at depth [d] is ready to be walked. *)
Definition entry_ok (d : nat) (m : mem) (p : Z) (i : nat) : Prop :=
  match d with
  | O => has (load64 m (p + 8 * Z.of_nat i)) PTE_V = false
  | S d' => has (load64 m (p + 8 * Z.of_nat i)) PTE_V = true ->
      Z.land (load64 m (p + 8 * Z.of_nat i)) RWX = 0 /\
      table_ok d' m (PTE2PA (load64 m (p + 8 * Z.of_nat i)))
  end.

Lemma table_entry_ok d m p i : table_ok d m p -> (i < 512)%nat -> entry_ok d m p i.
Proof. destruct d; simpl; auto. Qed.

Lemma entry_ok_ext d m m' p i :
  (i < 512)%nat -> load64 m' (p + 8 * Z.of_nat i) = load64 m (p + 8 * Z.of_nat i) ->
  (forall x a, x ∈ below d m p i -> in_page x a -> rd m' a = rd m a) ->
  entry_ok d m p i -> entry_ok d m' p i.
Proof.
  intros Hi He Hx. destruct d as [|d]; simpl in *; rewrite He; [done|].
  intros Ht Hv. destruct (Ht Hv) as [? Ht']. split; [done|]. rewrite Hv in Hx.
  by apply (subtree_ext d m m').
Qed.

(** ** freewalk *)

(** What freeing the pages [xs] does. *)
Record freed_all (xs fl : list Z) (s s' : pm) : Prop := {
  fa_list : free_list s' (reverse xs ++ fl);
  fa_outside : same_outside xs (pm_mem s) (pm_mem s');
  fa_ok : mem_ok (pm_mem s) -> mem_ok (pm_mem s');
}.

Definition freewalk_body (d : nat) (p : Z) (i : nat) : K pm unit :=
  let slot := p + 8 * Z.of_nat i in
  pte <- gets (fun s => load64 (pm_mem s) slot);;
  if has pte PTE_V && (Z.land pte (Z.lor (Z.lor PTE_R PTE_W) PTE_X) =? 0) then
    freewalk_rec d (PTE2PA pte);;
    modify (fun s => set_mem (store64 (pm_mem s) slot 0) s)
  else if has pte PTE_V then panic "freewalk: leaf"
  else ret tt.

Definition walk_frees (d : nat) : Prop :=
  forall p h s fl,
    kmem_ready h -> free_list s fl -> table_ok d (pm_mem s) p ->
    Forall page_ok (subtree d (pm_mem s) p) -> NoDup (subtree d (pm_mem s) p) ->
    (forall x, x ∈ subtree d (pm_mem s) p -> x ∉ fl) ->
    exists h' s', freewalk_rec (S d) p h s = Done tt h' s' /\ calm h h' /\
      freed_all (subtree d (pm_mem s) p) fl s s'.

(** One entry: its subtree is freed, then the entry is cleared. *)
Lemma freewalk_one d p i h s fl :
  (forall d', d = S d' -> walk_frees d') ->
  kmem_ready h -> free_list s fl -> (i < 512)%nat -> entry_ok d (pm_mem s) p i ->
  page_ok p -> p ∉ fl -> p ∉ below d (pm_mem s) p i ->
  Forall page_ok (below d (pm_mem s) p i) -> NoDup (below d (pm_mem s) p i) ->
  (forall x, x ∈ below d (pm_mem s) p i -> x ∉ fl) ->
  exists h' s', freewalk_body d p i h s = Done tt h' s' /\ calm h h' /\
    free_list s' (reverse (below d (pm_mem s) p i) ++ fl) /\
    same_outside (p :: below d (pm_mem s) p i) (pm_mem s) (pm_mem s') /\
    (mem_ok (pm_mem s) -> mem_ok (pm_mem s')) /\
    forall j, (j < 512)%nat -> j <> i ->
      load64 (pm_mem s') (p + 8 * Z.of_nat j) = load64 (pm_mem s) (p + 8 * Z.of_nat j).
Proof.
  intros IH Hh Hf Hi Hok Hp Hpf Hpb Hbok Hbnd Hbf. unfold freewalk_body. ksimpl.
  set (e := load64 (pm_mem s) (p + 8 * Z.of_nat i)).
  destruct (has e PTE_V) eqn:Hv.
  2: { assert (Hb : below d (pm_mem s) p i = []) by (destruct d; simpl; [done|]; fold e; by rewrite Hv).
       rewrite Hb. exists h, s. split_and!; auto with xv6. apply same_outside_refl. }
  destruct d as [|d]; [simpl in Hok; fold e in Hok; congruence|].
  cbn [below entry_ok] in Hok, Hpb, Hbok, Hbnd, Hbf |- *. fold e in Hok, Hpb, Hbok, Hbnd, Hbf |- *.
  rewrite Hv in Hpb, Hbok, Hbnd, Hbf |- *. destruct (Hok Hv) as [Hrwx Ht].
  change (Z.lor (Z.lor PTE_R PTE_W) PTE_X) with RWX. rewrite Hrwx. change (true && (0 =? 0)) with true. cbv iota.
  destruct (IH d eq_refl (PTE2PA e) h s fl) as (h1 & s1 & E1 & Hc1 & [Hf1 Ho1 Hm1]); auto.
  krun E1. exists h1, (set_mem (store64 (pm_mem s1) (p + 8 * Z.of_nat i) 0) s1).
  assert (Hst : same_outside [p] (pm_mem s1) (store64 (pm_mem s1) (p + 8 * Z.of_nat i) 0))
    by (apply store64_page_outside; unfold PGSIZE; lia).
  split_and!; [done|done| | |intros Hm; by apply store64_ok, Hm1|].
  - eapply (free_list_outside s1); [exact Hf1|exact Hst|done|..];
      intros y Hy; apply list_elem_of_singleton in Hy as ->; [|apply Hp].
    rewrite elem_of_app, elem_of_reverse. tauto.
  - eapply same_outside_trans; eapply same_outside_mono; [|exact Ho1| |exact Hst].
    + intros x Hx. by constructor.
    + apply singleton_sub. constructor.
  - intros j Hj Hne. simpl. rewrite load64_store64_other by lia.
    apply load64_slot_page; [|lia]. intros a Ha. apply Ho1. intros q Hq.
    rewrite Forall_forall in Hbok. apply (pages_disjoint p); [apply Hp|by apply Hbok| |done].
    intros ->. contradiction.
Qed.

Lemma freewalk_list d p l h s fl :
  (forall d', d = S d' -> walk_frees d') ->
  kmem_ready h -> free_list s fl -> NoDup l ->
  (forall i, i ∈ l -> (i < 512)%nat /\ entry_ok d (pm_mem s) p i) ->
  page_ok p -> p ∉ fl ->
  let xs := flat_map (below d (pm_mem s) p) l in
  p ∉ xs -> Forall page_ok xs -> NoDup xs -> (forall x, x ∈ xs -> x ∉ fl) ->
  exists h' s', forM l (freewalk_body d p) h s = Done tt h' s' /\ calm h h' /\
    free_list s' (reverse xs ++ fl) /\ same_outside (p :: xs) (pm_mem s) (pm_mem s') /\
    (mem_ok (pm_mem s) -> mem_ok (pm_mem s')).
Proof.
  intros IHd. revert h s fl. induction l as [|i l IH]; intros h s fl Hh Hf Hl Hok Hp Hpf xs Hpx Hxok Hxn Hxf.
  { exists h, s. split_and!; auto with xv6. apply same_outside_refl. }
  set (b := below d (pm_mem s) p i). assert (Hxs : xs = b ++ flat_map (below d (pm_mem s) p) l) by done.
  clearbody xs. subst xs. set (rest := flat_map (below d (pm_mem s) p) l) in *.
  apply NoDup_cons in Hl as [Hil Hl]. apply Forall_app in Hxok as [Hbok Hrok].
  apply NoDup_app in Hxn as (Hbn & Hbr & Hrn). rewrite elem_of_app in Hpx.
  destruct (Hok i) as [Hi Hoki]; [constructor|].
  destruct (freewalk_one d p i h s fl) as (h1 & s1 & E1 & Hc1 & Hf1 & Ho1 & Hm1 & Hj1); auto.
  { intros x Hx. apply Hxf, elem_of_app. by left. }
  fold b in Hf1, Ho1.
  assert (Hsame : forall j x a, j ∈ l -> x ∈ below d (pm_mem s) p j -> in_page x a ->
    rd (pm_mem s1) a = rd (pm_mem s) a).
  { intros j x a Hj Hx Ha. assert (Hxr : x ∈ rest) by (apply elem_of_flat_map; by exists j).
    apply Ho1. rewrite Forall_forall in Hbok, Hrok. intros q [->|Hq]%elem_of_cons.
    - apply (pages_disjoint x); [by apply Hrok|apply Hp| |done]. intros ->. tauto.
    - apply (pages_disjoint x); [by apply Hrok|by apply Hbok| |done]. intros ->. by apply (Hbr q). }
  assert (Hne : forall j, j ∈ l -> j <> i) by (intros j Hj ->; contradiction).
  assert (Hlt : forall j, j ∈ l -> (j < 512)%nat) by (intros j Hj; apply Hok; by constructor).
  assert (Hrest : flat_map (below d (pm_mem s1) p) l = rest).
  { apply flat_map_ext_in. intros j Hj. apply below_ext; [by apply Hlt|by auto|].
    intros x a. by apply Hsame. }
  destruct (IH h1 s1 (reverse b ++ fl)) as (h2 & s2 & E2 & Hc2 & Hf2 & Ho2 & Hm2); rewrite ?Hrest; auto.
  - by eapply kmem_ready_calm.
  - intros j Hj. split; [by apply Hlt|].
    apply (entry_ok_ext d (pm_mem s)); [by apply Hlt|by auto|intros x a; by apply Hsame|].
    apply Hok. by constructor.
  - rewrite elem_of_app, elem_of_reverse. tauto.
  - intros x Hx. rewrite elem_of_app, elem_of_reverse. intros [Hc|Hc]; [by apply (Hbr x)|].
    revert Hc. apply Hxf, elem_of_app. by right.
  - exists h2, s2. cbn [forM]. krun E1. rewrite Hrest in *. split_and!; [done|eauto with xv6| | |auto].
    + by rewrite reverse_app, <-app_assoc.
    + eapply same_outside_trans; eapply same_outside_mono; [|exact Ho1| |exact Ho2].
      all: intros x; rewrite !elem_of_cons, elem_of_app; tauto.
Qed.

Lemma freewalk_frees d : walk_frees d.
Proof.
  induction d as [d IHd] using (well_founded_induction lt_wf).
  intros p h s fl Hh Hf Ht Hok Hnd Hfl. rewrite subtree_below in *.
  set (xs := flat_map (below d (pm_mem s) p) (upto 512)) in *.
  apply Forall_app in Hok as [Hok Hp]. apply Forall_cons in Hp as [Hp _].
  apply NoDup_app in Hnd as (Hnd & Hpx & _).
  assert (Hpn : p ∉ xs) by (intros Hc; apply (Hpx p Hc); constructor).
  assert (Hpf : p ∉ fl) by (apply Hfl, elem_of_app; right; constructor).
  destruct (freewalk_list d p (upto 512) h s fl) as (h1 & s1 & E1 & Hc1 & Hf1 & Ho1 & Hm1); auto.
  { intros d' ->. apply IHd. lia. }
  { apply NoDup_upto. }
  { intros i Hi%elem_of_upto. split; [done|]. by apply table_entry_ok. }
  { intros x Hx. apply Hfl, elem_of_app. by left. }
  fold xs in Hf1, Ho1. change (freewalk_rec (S d) p) with
    (forM (upto 512) (freewalk_body d p);; kfree p). krun E1.
  assert (Hr1 : kmem_ready h1) by (by eapply kmem_ready_calm). destruct Hr1 as [Hwf1 Hk1].
  exists (settle h1), (freed p s1). split_and!; [by apply kfree_run|eauto with xv6|].
  constructor.
  - rewrite reverse_app. apply freed_list; [done| |done].
    rewrite elem_of_app, elem_of_reverse. tauto.
  - eapply same_outside_trans; eapply same_outside_mono; [|exact Ho1| |apply freed_outside].
    + intros x. rewrite elem_of_cons, elem_of_app, list_elem_of_singleton. tauto.
    + apply singleton_sub, elem_of_app. right. constructor.
  - intros Hm. by apply freed_ok, Hm1.
Qed.

(** ** The tree of a page table *)

Lemma elem_of_subtree d m p x :
  x ∈ subtree d m p <->
  exists π, (length π <= d)%nat /\ Forall (fun i => 0 <= i < 512) π /\ reach m p π = Some x.
Proof.
  revert p. induction d as [|d IH]; intros p.
  - cbn [subtree]. rewrite list_elem_of_singleton. split.
    + intros ->. by exists [].
    + intros ([|] & Hl & _ & Hr); simpl in *; [congruence|lia].
  - cbn [subtree]. rewrite elem_of_app, list_elem_of_singleton, elem_of_flat_map. split.
    + intros [(i & Hi%elem_of_upto & Hx)| ->]; [|exists []; split_and!; [simpl; lia|constructor|done]].
      destruct (has (load64 m (p + 8 * Z.of_nat i)) PTE_V) eqn:E; [|by apply elem_of_nil in Hx]. apply IH in Hx as (π & Hl & Hf & Hr).
      exists (Z.of_nat i :: π). split_and!; [simpl; lia|constructor; [lia|done]|]. simpl. by rewrite E.
    + intros ([|i π] & Hl & Hf & Hr); [right; simpl in Hr; congruence|left].
      apply Forall_cons in Hf as [Hi Hf]. exists (Z.to_nat i). rewrite elem_of_upto. split; [lia|].
      simpl in Hr. rewrite Z2Nat.id by lia. destruct (has _ PTE_V) eqn:E; [|done]. apply IH. exists π.
      split_and!; [simpl in Hl; lia|done|done].
Qed.

Lemma NoDup_subtree d m p :
  (forall π π' x, (length π <= d)%nat -> (length π' <= d)%nat ->
     Forall (fun i => 0 <= i < 512) π -> Forall (fun i => 0 <= i < 512) π' ->
     reach m p π = Some x -> reach m p π' = Some x -> π = π') ->
  NoDup (subtree d m p).
Proof.
  revert p. induction d as [|d IH]; intros p Hinj; [apply NoDup_singleton|]. cbn [subtree].
  assert (Hsub : forall (i : nat) x, (i < 512)%nat ->
    x ∈ (if has (load64 m (p + 8 * Z.of_nat i)) PTE_V
         then subtree d m (PTE2PA (load64 m (p + 8 * Z.of_nat i))) else []) ->
    exists π, (length π <= d)%nat /\ Forall (fun i => 0 <= i < 512) (Z.of_nat i :: π) /\
      reach m p (Z.of_nat i :: π) = Some x).
  { intros i x Hi Hx. destruct (has (load64 m (p + 8 * Z.of_nat i)) PTE_V) eqn:E; [|by apply elem_of_nil in Hx].
    apply elem_of_subtree in Hx as (π & Hl & Hf & Hr). exists π.
    split_and!; [done|constructor; [lia|done]|]. simpl. by rewrite E. }
  apply NoDup_app. split_and!; [| |apply NoDup_singleton].
  - apply NoDup_flat_map; [apply NoDup_upto| |].
    + intros i Hi%elem_of_upto. case_if; [|constructor]. apply IH. intros π π' x Hl Hl' Hf Hf' Hr Hr'.
      assert (Z.of_nat i :: π = Z.of_nat i :: π') as [= ?]; [|done].
      apply (Hinj _ _ x); simpl; rewrite ?E; try done; try lia; constructor; auto; lia.
    + intros i j x Hi%elem_of_upto Hj%elem_of_upto Hx Hy.
      destruct (Hsub i x Hi Hx) as (π & Hl & Hf & Hr), (Hsub j x Hj Hy) as (π' & Hl' & Hf' & Hr').
      assert (Z.of_nat i :: π = Z.of_nat j :: π') as [= ?]; [|lia].
      apply (Hinj _ _ x); auto; simpl; lia.
  - intros x Hx Hc. apply list_elem_of_singleton in Hc as ->.
    apply elem_of_flat_map in Hx as (i & Hi%elem_of_upto & Hx).
    destruct (Hsub i p Hi Hx) as (π & Hl & Hf & Hr).
    assert (Z.of_nat i :: π = []); [|done].
    apply (Hinj _ _ p); auto; simpl; lia.
Qed.

(** The address with the given indices. *)
Definition va_of (i j k : Z) : Z := i * 2 ^ 30 + j * 2 ^ 21 + k * 2 ^ 12.

Lemma PX_va_of i j k :
  0 <= i < 512 -> 0 <= j < 512 -> 0 <= k < 512 ->
  PX 2 (va_of i j k) = i /\ PX 1 (va_of i j k) = j /\ PX 0 (va_of i j k) = k.
Proof.
  intros Hi Hj Hk. rewrite !PX_eq by lia. unfold va_of.
  change (12 + 9 * 2) with 30. change (12 + 9 * 1) with 21. change (12 + 9 * 0) with 12.
  split_and!; zlia.
Qed.

Section tree_of_table.
Context (m : mem) (root : Z) (ps : list Z).
Context (Ho : pt_own m root ps) (He : forall va, 0 <= va < MAXVA -> entry m root va = 0).

Lemma vpath_iff π : vpath π <-> (length π <= 2)%nat /\ Forall (fun i => 0 <= i < 512) π.
Proof. done. Qed.

Lemma subtree_pages : subtree 2 m root ≡ₚ ps.
Proof.
  apply NoDup_Permutation; [|apply Ho|].
  - apply NoDup_subtree. intros π π' x Hl Hl' Hf Hf'. by apply (po_inj _ _ _ Ho).
  - intros x. rewrite elem_of_subtree. split.
    + intros (π & Hl & Hf & Hr). by apply (po_in _ _ _ Ho π).
    + intros Hx. destruct (po_all _ _ _ Ho x Hx) as (π & [Hl Hf] & Hr). by exists π.
Qed.

Lemma empty_table_ok : table_ok 2 m root.
Proof.
  intros i Hi Hvi. set (e2 := load64 m (root + 8 * Z.of_nat i)) in *.
  assert (Hi256 : Z.of_nat i < 256).
  { destruct (decide (Z.of_nat i < 256)); [done|].
    pose proof (po_high _ _ _ Ho (Z.of_nat i) ltac:(lia)). unfold e2 in Hvi. congruence. }
  assert (Hvp1 : vpath ([] ++ [Z.of_nat i])) by (apply vpath_snoc; split_and!; [simpl; lia|apply vpath_nil|lia|lia]).
  split; [by apply (po_link _ _ _ Ho [] _ _ Hvp1 eq_refl)|].
  assert (Hr1 : reach m root [Z.of_nat i] = Some (PTE2PA e2)).
  { simpl. fold e2. by rewrite Hvi. }
  intros j Hj Hvj. set (e1 := load64 m (PTE2PA e2 + 8 * Z.of_nat j)) in *.
  assert (Hvp2 : vpath ([Z.of_nat i] ++ [Z.of_nat j])).
  { apply vpath_snoc. split_and!; [simpl; lia|exact Hvp1|lia|lia]. }
  split; [by apply (po_link _ _ _ Ho _ _ _ Hvp2 Hr1)|].
  assert (Hr2 : reach m root [Z.of_nat i; Z.of_nat j] = Some (PTE2PA e1)).
  { simpl. fold e2. rewrite Hvi. fold e1. by rewrite Hvj. }
  intros k Hk. pose proof (He (va_of (Z.of_nat i) (Z.of_nat j) (Z.of_nat k))) as Hz.
  destruct (PX_va_of (Z.of_nat i) (Z.of_nat j) (Z.of_nat k)) as (P2 & P1 & P0); try lia.
  unfold entry, slot_addr, path_of in Hz. rewrite P2, P1, P0, Hr2 in Hz. simpl in Hz.
  rewrite Hz; [apply has_0|]. rewrite MAXVA_eq. unfold va_of. lia.
Qed.

End tree_of_table.

Lemma uvmfree_run s root ps fl sz h :
  kmem_ready h -> uspace s root ps fl (npages sz) -> 0 <= sz <= TRAPFRAME ->
  (forall va, TRAPFRAME <= va < MAXVA -> entry (pm_mem s) root va = 0) ->
  exists h' s' fl', uvmfree root sz h s = Done tt h' s' /\ calm h h' /\
    free_list s' fl' /\ fl' ≡ₚ all_pages (pm_mem s) root ps fl (npages sz) /\
    same_outside (ps ++ upages (pm_mem s) root 0 (npages sz)) (pm_mem s) (pm_mem s') /\
    mem_ok (pm_mem s').
Proof.
  intros Hh U Hsz Htop. pose proof (eq_refl : PGSIZE = 4096) as Hpg.
  pose proof (npages_bounds sz ltac:(lia)) as Hnb. pose proof (us_bound _ _ _ _ _ U) as Hb.
  rewrite TRAPFRAME_MAXVA, MAXVA_eq in Hsz, Hb.
  set (pas := upages (pm_mem s) root 0 (npages sz)) in *.
  assert (Hun : exists h1 s1, when (0 <? sz) (uvmunmap root 0 (PGROUNDUP sz / PGSIZE) true) h s = Done tt h1 s1 /\
    calm h h1 /\ uspace s1 root ps (reverse pas ++ fl) 0 /\
    same_outside (ps ++ pas) (pm_mem s) (pm_mem s1) /\
    forall va, 0 <= va < MAXVA -> entry (pm_mem s1) root va = 0).
  { destruct (Z.ltb_spec 0 sz) as [Hpos|Hzero].
    - destruct (uspace_unmap s root ps fl (npages sz) 0 h Hh U ltac:(lia))
        as (h1 & s1 & E1 & Hc1 & U1 & Ho1 & _ & He1).
      rewrite Nat.sub_0_r, Z.mul_0_l in *. rewrite npages_roundup, Z.div_mul by lia.
      exists h1, s1. split_and!; auto. intros va Hva. rewrite He1 by done. unfold unmap_range.
      case_decide; [done|]. destruct (decide (va < TRAPFRAME)); [|apply Htop; lia].
      apply (us_top _ _ _ _ _ U). lia.
    - assert (npages sz = 0%nat) as Hn0 by lia. unfold pas. rewrite Hn0 in *. exists h, s.
      split_and!; auto with xv6; [apply same_outside_refl|]. intros va Hva.
      destruct (decide (va < TRAPFRAME)); [|apply Htop; lia]. apply (us_top _ _ _ _ _ U). lia. }
  destruct Hun as (h1 & s1 & E1 & Hc1 & U1 & Ho1 & Hz1).
  pose proof (us_vm _ _ _ _ _ U1) as [Ho Hf Hd Hok1].
  pose proof (subtree_pages _ _ _ Ho) as Hperm.
  destruct (freewalk_frees 2 root h1 s1 (reverse pas ++ fl)) as (h2 & s2 & E2 & Hc2 & [Hf2 Ho2 Hm2]); auto.
  - by eapply kmem_ready_calm.
  - by eapply empty_table_ok.
  - rewrite Hperm. apply Ho.
  - rewrite Hperm. apply Ho.
  - intros x. rewrite Hperm. apply Hd.
  - unfold uvmfree. krun E1. unfold freewalk.
    exists h2, s2, (reverse (subtree 2 (pm_mem s1) root) ++ reverse pas ++ fl).
    split_and!; [done|eauto with xv6|done| | |by apply Hm2].
    + unfold all_pages. fold pas. by rewrite !reverse_Permutation, Hperm.
    + eapply same_outside_trans; [exact Ho1|]. eapply same_outside_mono; [|exact Ho2].
      intros x. rewrite Hperm, elem_of_app. tauto.
Qed.

End userfree.
