(* ===== verification/VmProps.v ===== *)
(** * VmProps

    The properties of the virtual-memory component, with a small machine on
    which their hypotheses hold. *)
From stdpp Require Import base tactics list numbers gmap strings sets.
From S2P Require Import Prelude Machine Spinlock Bytes Queue Kalloc.
From S2P Require Import Vm Pagetable VmSpec UserMem UserCopy UserFree.

Section props.
Context `{LayoutOk}.

(** A page taken from the free list and zeroed is an empty table. *)
Lemma fresh_table s q fl :
  free_list s (q :: fl) -> mem_ok (pm_mem s) ->
  let s' := set_mem (memset (pm_mem (allocd q s)) q 0 PGSIZE) (allocd q s) in
  vm_state s' q [q] fl /\ same_outside [q] (pm_mem s) (pm_mem s') /\ forall va, entry (pm_mem s') q va = 0.
Proof.
  intros Hf Hok s'. destruct (free_list_head _ _ _ Hf) as (Hq & Hq0 & Hqf). split_and!.
  - constructor.
    + by apply pt_own_fresh.
    + eapply (free_list_outside (allocd q s)); [by apply allocd_list|apply memset_page_outside|done|..];
        intros y Hy; apply list_elem_of_singleton in Hy as ->; [done|apply Hq].
    + intros p Hp. by apply list_elem_of_singleton in Hp as ->.
    + by apply memset_ok, allocd_ok.
  - eapply same_outside_trans; [apply allocd_outside|apply memset_page_outside].
  - intros va. apply entry_fresh.
Qed.

Lemma uvmcreate_run h s fl :
  kmem_ready h -> free_list s fl -> mem_ok (pm_mem s) ->
  match fl with
  | [] => uvmcreate h s = Done 0 (settle h) s
  | q :: fl' => exists s', uvmcreate h s = Done q (settle h) s' /\ uspace s' q [q] fl' 0 /\
      same_outside [q] (pm_mem s) (pm_mem s') /\ forall va, entry (pm_mem s') q va = 0
  end.
Proof.
  intros [Hwf Hk] Hf Hok. destruct fl as [|q fl]; unfold uvmcreate.
  { by krun (kalloc_none h s Hf Hwf Hk). }
  krun (kalloc_some h s q fl Hf Hwf Hk). destruct (free_list_head _ _ _ Hf) as (_ & Hq0 & _).
  destruct (Z.eqb_spec q 0) as [|_]; [done|]. ksimpl.
  destruct (fresh_table s q fl Hf Hok) as (Hv & Ho & He). eexists. split; [done|]. split; [|done].
  constructor; [exact Hv|intros i Hi; lia|constructor|constructor|intros p Hp; by apply elem_of_nil in Hp| | |].
  - rewrite TRAPFRAME_MAXVA, MAXVA_eq. unfold PGSIZE. lia.
  - intros va _. apply He.
  - intros va _. rewrite He. apply has_0.
Qed.

(** ** Properties *)

(** C19: mappages on a range of unmapped pages either maps every page of the range
    to consecutive physical pages with the given permissions and returns 0, or
    returns -1 having mapped a prefix of the range and used up the free pages.
    No other address changes its mapping, and walkaddr then translates an address
    exactly when its entry is valid and user-accessible. *)
Theorem mappages_maps (root va size pa perm : Z) (ps fl : list Z) (h : hart) (s : pm) :
  kmem_ready h -> vm_state s root ps fl ->
  0 < size -> 0 <= va -> va + size <= MAXVA ->
  pa mod PGSIZE = 0 -> 0 <= pa -> pa + size < 2 ^ 55 -> 0 <= perm < 2 ^ 10 ->
  (forall x, va / PGSIZE <= x / PGSIZE <= (va + size - 1) / PGSIZE ->
     has (entry (pm_mem s) root x) PTE_V = false) ->
  exists r h' s' ps' fl' j,
    mappages root va size pa perm h s = Done r h' s' /\
    calm h h' /\ vm_grow root s ps fl s' ps' fl' /\
    (r = 0 /\ j = range_pages va size \/ r = -1 /\ 0 <= j < range_pages va size /\ fl' = []) /\
    (forall x, 0 <= x < MAXVA -> entry (pm_mem s') root x
       = map_range (entry (pm_mem s) root) (va / PGSIZE * PGSIZE) j pa perm x) /\
    (forall x, walkaddr root x h' s' = Done (translate (pm_mem s') root x) h' s').
Proof.
  intros. destruct (mappages_run root ps fl va size pa perm h s)
    as (r & h' & s' & ps' & fl' & j & E & Hc & G & _ & Hr & He); auto.
  exists r, h', s', ps', fl', j. split_and!; auto.
  intros x. eapply walkaddr_run. apply G.
Qed.

(** C14: uvmalloc grows a process image to [newsz] bytes, or fails and undoes
    itself. On success the old pages keep their entries and contents, the new
    ones are user pages full of zeros; when memory runs out it returns 0 and the
    image is what it was. In both cases every page is still in the image, in its
    page table or free. *)
Theorem uvmalloc_grows_or_restores (root oldsz newsz : Z) (ps fl : list Z) (h : hart) (s : pm) :
  kmem_ready h -> uspace s root ps fl (npages oldsz) -> 0 <= oldsz <= newsz -> newsz <= TRAPFRAME ->
  exists r h' s' ps' fl', uvmalloc root oldsz newsz h s = Done r h' s' /\ calm h h' /\
    (r = newsz /\ grown s root ps fl (npages oldsz) (npages newsz) s' ps' fl' \/
     r = 0 /\ uspace s' root ps' fl' (npages oldsz) /\
       (forall va, 0 <= va < MAXVA -> entry (pm_mem s') root va = entry (pm_mem s) root va) /\
       (forall va, 0 <= va < Z.of_nat (npages oldsz) * PGSIZE ->
          umem (pm_mem s') root va = umem (pm_mem s) root va) /\
       all_pages (pm_mem s') root ps' fl' (npages oldsz)
         ≡ₚ all_pages (pm_mem s) root ps fl (npages oldsz)).
Proof.
  intros Hh U Hsz Htop. destruct (uvmalloc_run s root ps fl oldsz newsz h Hh U Hsz Htop)
    as (r & h' & s' & ps' & fl' & E & Hc & Hr).
  exists r, h', s', ps', fl'. split_and!; auto. destruct Hr as [?|[-> [UR ER MR PR]]]; [by left|right].
  split_and!; auto. intros va Hva. rewrite ER by done. unfold unmap_range.
  by rewrite decide_False by lia.
Qed.

(** Uvmdealloc shrinks an image: the pages above the new size are unmapped and
    freed, the pages below keep their entries, nothing is lost. Asked for a size
    that is not smaller it changes nothing. It returns the resulting size. *)
Theorem uvmdealloc_shrinks (root oldsz newsz : Z) (ps fl : list Z) (h : hart) (s : pm) :
  kmem_ready h -> uspace s root ps fl (npages oldsz) -> 0 <= oldsz <= TRAPFRAME -> 0 <= newsz ->
  let sz := Z.min oldsz newsz in
  exists h' s' fl', uvmdealloc root oldsz newsz h s = Done sz h' s' /\ calm h h' /\
    uspace s' root ps fl' (npages sz) /\
    all_pages (pm_mem s') root ps fl' (npages sz) ≡ₚ all_pages (pm_mem s) root ps fl (npages oldsz) /\
    forall va, 0 <= va < MAXVA -> entry (pm_mem s') root va
      = unmap_range (entry (pm_mem s) root) (Z.of_nat (npages sz) * PGSIZE)
          (Z.of_nat (npages oldsz - npages sz)) va.
Proof.
  intros Hh U Ho Hn sz. destruct (uvmdealloc_run s root ps fl oldsz newsz h Hh U Ho Hn)
    as (h' & s' & E & Hc & U' & _ & Hup & He). fold sz in E, U', Hup, He.
  eexists h', s', _. split_and!; [exact E|done|exact U'| |done].
  unfold all_pages. rewrite Hup, <-!app_assoc. by rewrite reverse_Permutation.
Qed.

(** C13: uvmcopy, used by fork, gives the child a copy: on success every byte of
    the child's image equals the parent's, with the same permission bits, in
    physical pages the parent does not own; when memory runs out it returns -1
    and the child is empty again. The parent is untouched and no page is lost
    either way. *)
Theorem uvmcopy_duplicates (old new sz : Z) (pso psn fl : list Z) (h : hart) (s : pm) :
  kmem_ready h -> family s old new pso psn fl (npages sz) 0 -> 0 <= sz < 2 ^ 64 - PGSIZE ->
  exists r h' s' psn' fl' k,
    uvmcopy old new sz h s = Done r h' s' /\ calm h h' /\
    (r = 0 /\ k = npages sz \/ r = -1 /\ k = 0%nat) /\
    family s' old new pso psn' fl' (npages sz) k /\ intact s s' old (npages sz) /\
    copied s s' old new k /\
    all_pages (pm_mem s') new psn' fl' k ≡ₚ all_pages (pm_mem s) new psn fl 0.
Proof.
  intros Hh Fam Hsz. destruct (uvmcopy_run s old new pso psn fl sz h Hh Fam Hsz)
    as (r & h' & s' & psn' & fl' & k & E & Hc & Hr & [? ? ? ?]).
  exists r, h', s', psn', fl', k. by split_and!.
Qed.

(** C20: uvmfree gives back everything: afterwards the free list holds, each exactly
    once, the pages that were free, the image's pages and the page table's pages,
    and no other page's contents changed. *)
Theorem uvmfree_returns_every_page (root sz : Z) (ps fl : list Z) (h : hart) (s : pm) :
  kmem_ready h -> uspace s root ps fl (npages sz) -> 0 <= sz <= TRAPFRAME ->
  (forall va, TRAPFRAME <= va < MAXVA -> entry (pm_mem s) root va = 0) ->
  exists h' s' fl', uvmfree root sz h s = Done tt h' s' /\ calm h h' /\
    free_list s' fl' /\ fl' ≡ₚ ps ++ upages (pm_mem s) root 0 (npages sz) ++ fl /\
    same_outside (ps ++ upages (pm_mem s) root 0 (npages sz)) (pm_mem s) (pm_mem s').
Proof.
  intros. destruct (uvmfree_run s root ps fl sz h) as (h' & s' & fl' & E & Hc & Hf & Hp & Ho & _); auto.
  by exists h', s', fl'.
Qed.

(** C21: copyout and copyin agree. copyout of the bytes [src] to user address [dst]
    returns 0 exactly when every byte of the range is user-accessible, and then
    copyin of that range returns the same bytes; otherwise both return -1. User
    memory outside the range, the mappings and the free pages never change. *)
Theorem copyout_copyin_roundtrip (root dst : Z) (src : list Z) (ps fl : list Z) (n : nat) (h : hart) (s : pm) :
  uspace s root ps fl n -> bytes_ok src -> 0 <= dst -> dst + Z.of_nat (length src) < 2 ^ 64 - PGSIZE ->
  exists r s' bs, copyout root dst src h s = Done r h s' /\
    copyin root dst (Z.of_nat (length src)) h s' = Done (r, bs) h s' /\
    (r = 0 /\ bs = src /\
       (forall x, dst <= x < dst + Z.of_nat (length src) -> accessible (pm_mem s) root x = true) \/
     r = -1 /\
       (exists x, dst <= x < dst + Z.of_nat (length src) /\ accessible (pm_mem s) root x = false)) /\
    uspace s' root ps fl n /\
    (forall x, entry (pm_mem s') root x = entry (pm_mem s) root x) /\
    (forall x, 0 <= x < Z.of_nat n * PGSIZE -> ~ (dst <= x < dst + Z.of_nat (length src)) ->
       umem (pm_mem s') root x = umem (pm_mem s) root x).
Proof.
  intros U Hb Hd Hlen. pose proof (eq_refl : PGSIZE = 4096) as Hpg.
  destruct (copyout_loop_run (length src) s root ps fl n dst src h U Hd Hlen ltac:(lia))
    as (r & s' & E & U' & He & Hr).
  assert (Hae : forall x, accessible (pm_mem s') root x = accessible (pm_mem s) root x)
    by (intros x; unfold accessible; by rewrite He).
  exists r, s'. destruct Hr as [(-> & Ha & Hm)|(-> & (x & Hx & Ha) & Hm)].
  - exists src. split_and!; [done| |by left|done|done|].
    + unfold copyin. rewrite (copyin_loop_run s' root ps fl n U') by (lia || (intros; rewrite Hae; by apply Ha)).
      rewrite Nat2Z.id. do 2 f_equal. apply list_eq. intros i.
      destruct (decide (i < length src)%nat) as [Hi|Hi].
      * rewrite lookup_ubytes by done. rewrite Hm, decide_True; [|lia|].
        2: { pose proof (accessible_image s root ps fl n (dst + Z.of_nat i) U ltac:(lia) ltac:(apply Ha; lia)). lia. }
        replace (Z.to_nat (dst + Z.of_nat i - dst)) with i by lia.
        destruct (lookup_lt_is_Some_2 src i Hi) as [b Eb]. rewrite Eb. simpl.
        rewrite u8_id; [done|]. eapply Forall_lookup_1 in Eb; [|done]. done.
      * rewrite !lookup_ge_None_2; rewrite ?length_ubytes; auto; lia.
    + intros x Hx Hout. rewrite Hm by done. by rewrite decide_False.
  - destruct (copyin_loop_fail s' root ps fl n U' (Z.to_nat (Z.of_nat (length src))) dst (Z.of_nat (length src)) h)
      as [bs Eb]; [lia..| |].
    { exists x. by rewrite Hae. }
    exists bs. split_and!; eauto 6.
Qed.

(** copyinstr copies a user string up to and including its NUL and returns 0 if
    the NUL is within the first [max] bytes and everything before it is
    accessible; it returns -1 if an inaccessible byte or the limit comes first.
    Memory is not changed. *)
Theorem copyinstr_copies_string (root va max i : Z) (ps fl : list Z) (n : nat) (h : hart) (s : pm) :
  uspace s root ps fl n -> 0 <= va -> va + max < 2 ^ 64 -> 0 <= i <= max ->
  (forall j, 0 <= j < i ->
     accessible (pm_mem s) root (va + j) = true /\ umem (pm_mem s) root (va + j) <> 0) ->
  (i < max -> accessible (pm_mem s) root (va + i) = true -> umem (pm_mem s) root (va + i) = 0 ->
     copyinstr root va max h s = Done (0, ubytes (pm_mem s) root va (Z.to_nat i + 1)) h s) /\
  (i = max \/ accessible (pm_mem s) root (va + i) = false ->
     exists bs, copyinstr root va max h s = Done (-1, bs) h s).
Proof. intros U Hva Hmax Hi Hpre. by apply (copyinstr_loop_run s root ps fl n U). Qed.

End props.

(** ** Witnesses *)

(** The state in which a computation ends, and its result. *)
Definition end_state {S A} (d : S) (o : outcome S A) : S :=
  match o with Done _ _ s => s | _ => d end.
Definition end_value {S A} (d : A) (o : outcome S A) : A :=
  match o with Done a _ _ => a | _ => d end.

(** The machine of Kalloc after boot, with one empty address space. *)
Definition demo_boot : pm := end_state demo_pm (kinit (demo_hart 0) demo_pm).
Definition demo_as : pm := end_state demo_boot (uvmcreate (demo_hart 0) demo_boot).
Definition demo_fl : list Z := tail all_free.

Lemma demo_ready : kmem_ready (demo_hart 0).
Proof. split; [apply demo_hart_wf|apply demo_kmem_free]. Qed.

Lemma demo_settled : settle (demo_hart 0) = set_h_intena true (demo_hart 0).
Proof. reflexivity. Qed.

Lemma demo_pm_ok : mem_ok (pm_mem demo_pm).
Proof. intros a. change (rd (pm_mem demo_pm) a) with (rd ∅ a). unfold rd. by rewrite lookup_empty. Qed.

Lemma demo_boot_free : free_list demo_boot (demo_page :: demo_fl) /\ mem_ok (pm_mem demo_boot).
Proof.
  destruct (kinit_list (demo_hart 0) demo_pm (demo_hart_wf 0) demo_kmem_free eq_refl)
    as (h & s & E & _ & Hl & Hm). unfold demo_boot. rewrite E. split; [exact Hl|exact (Hm demo_pm_ok)].
Qed.

Lemma demo_uspace :
  uspace demo_as demo_page [demo_page] demo_fl 0 /\ forall va, entry (pm_mem demo_as) demo_page va = 0.
Proof.
  destruct demo_boot_free as [Hf Hok].
  destruct (uvmcreate_run (demo_hart 0) demo_boot _ demo_ready Hf Hok) as (s' & E & U & _ & He).
  unfold demo_as. rewrite E. split; [exact U|exact He].
Qed.

Lemma mappages_maps_witness :
  exists r h' s', mappages demo_page 0x5000 100 UART0 PTE_R (demo_hart 0) demo_as = Done r h' s' /\
    (r = 0 \/ r = -1).
Proof.
  destruct demo_uspace as [U He].
  destruct (mappages_maps demo_page 0x5000 100 UART0 PTE_R [demo_page] demo_fl (demo_hart 0) demo_as
    demo_ready (us_vm _ _ _ _ _ U) ltac:(lia) ltac:(lia) ltac:(rewrite MAXVA_eq; lia) eq_refl
    ltac:(unfold UART0; lia) ltac:(unfold UART0; lia) ltac:(unfold PTE_R; lia)
    ltac:(intros x _; rewrite He; exact (has_0 PTE_V)))
    as (r & h' & s' & ps' & fl' & j & E & _ & _ & Hr & _).
  exists r, h', s'. split; [exact E|]. destruct Hr as [[-> _]|[-> _]]; [left|right]; reflexivity.
Defined.

(** One page of user memory. *)
Definition demo_as1 : pm := end_state demo_as (uvmalloc demo_page 0 100 (demo_hart 0) demo_as).

Lemma demo_alloc_value : end_value (-1) (uvmalloc demo_page 0 100 (demo_hart 0) demo_as) = 100.
Proof. vm_compute. reflexivity. Qed.

Lemma demo_TRAPFRAME : 100 <= TRAPFRAME.
Proof. rewrite TRAPFRAME_MAXVA, MAXVA_eq. unfold PGSIZE. lia. Qed.

Lemma uvmalloc_grows_or_restores_witness :
  exists h' s' ps' fl', uvmalloc demo_page 0 100 (demo_hart 0) demo_as = Done 100 h' s' /\
    grown demo_as demo_page [demo_page] demo_fl 0 1 s' ps' fl'.
Proof.
  destruct demo_uspace as [U He].
  destruct (uvmalloc_grows_or_restores demo_page 0 100 [demo_page] demo_fl (demo_hart 0) demo_as
    demo_ready U ltac:(lia) demo_TRAPFRAME) as (r & h' & s' & ps' & fl' & E & _ & Hr).
  pose proof demo_alloc_value as Hv. rewrite E in Hv. cbn [end_value] in Hv. subst r.
  exists h', s', ps', fl'. split; [exact E|]. destruct Hr as [[_ G]|[Hc _]]; [exact G|discriminate Hc].
Defined.

Lemma demo_grown :
  exists ps fl, grown demo_as demo_page [demo_page] demo_fl 0 1 demo_as1 ps fl.
Proof.
  destruct demo_uspace as [U He].
  destruct (uvmalloc_run demo_as demo_page [demo_page] demo_fl 0 100 (demo_hart 0) demo_ready U
    ltac:(lia) demo_TRAPFRAME) as (r & h' & s' & ps' & fl' & E & _ & Hr).
  pose proof demo_alloc_value as Hv. unfold demo_as1. rewrite E in Hv |- *.
  cbn [end_value end_state] in Hv |- *. subst r.
  exists ps', fl'. destruct Hr as [[_ G]|[Hc _]]; [exact G|discriminate Hc].
Qed.

Lemma demo_more_pages : (pm_freelist demo_as1 =? 0) = false.
Proof. vm_compute. reflexivity. Qed.

#[local] Opaque demo_as1.

Lemma npages_100 : npages 100 = 1%nat.
Proof. reflexivity. Qed.

Lemma demo_100 : 0 <= 100 <= TRAPFRAME.
Proof. split; [lia|apply demo_TRAPFRAME]. Qed.

Lemma uvmdealloc_shrinks_witness :
  exists h' s' ps fl, uvmdealloc demo_page 100 0 (demo_hart 0) demo_as1 = Done 0 h' s' /\
    uspace s' demo_page ps fl 0.
Proof.
  destruct demo_grown as (ps & fl & G).
  destruct (uvmdealloc_shrinks demo_page 100 0 ps fl (demo_hart 0) demo_as1 demo_ready
    (gr_space _ _ _ _ _ _ _ _ _ G) demo_100 ltac:(lia))
    as (h' & s' & fl' & E & _ & U & _).
  exists h', s', ps, fl'. split; [exact E|exact U].
Defined.

Lemma uvmfree_returns_every_page_witness :
  exists h' s' fl', uvmfree demo_page 100 (demo_hart 0) demo_as1 = Done tt h' s' /\
    free_list s' fl' /\ demo_page ∈ fl'.
Proof.
  destruct demo_grown as (ps & fl & G), demo_uspace as [_ He].
  destruct (uvmfree_returns_every_page demo_page 100 ps fl (demo_hart 0) demo_as1 demo_ready
    (gr_space _ _ _ _ _ _ _ _ _ G) demo_100)
    as (h' & s' & fl' & E & _ & Hf & Hperm & _).
  { intros va Hva. rewrite TRAPFRAME_MAXVA, MAXVA_eq in Hva. unfold PGSIZE in Hva.
    rewrite (gr_old _ _ _ _ _ _ _ _ _ G); [apply He|rewrite MAXVA_eq|unfold PGSIZE]; lia. }
  exists h', s', fl'. split; [exact E|]. split; [exact Hf|].
  rewrite Hperm. apply elem_of_app. left.
  exact (po_in _ _ _ (vs_own _ _ _ _ (us_vm _ _ _ _ _ (gr_space _ _ _ _ _ _ _ _ _ G))) _ _ vpath_nil eq_refl).
Defined.

Lemma URWX_flags : has (Z.lor URWX PTE_V) PTE_V && has (Z.lor URWX PTE_V) PTE_U = true.
Proof. reflexivity. Qed.

Lemma demo_accessible va : 0 <= va < PGSIZE -> accessible (pm_mem demo_as1) demo_page va = true.
Proof.
  intros Hva. destruct demo_grown as (ps & fl & G).
  destruct (gr_new _ _ _ _ _ _ _ _ _ G va ltac:(lia)) as [(pa & Hpa & Ee) _].
  unfold accessible. rewrite Ee. clear Ee G. pose proof (page_ok_pa pa Hpa) as Hpk.
  destruct URWX_range as [Hur _].
  rewrite (has_leaf pa URWX PTE_V Hpk Hur ltac:(unfold PTE_V; lia)).
  rewrite (has_leaf pa URWX PTE_U Hpk Hur ltac:(unfold PTE_U; lia)).
  rewrite <-andb_assoc, URWX_flags, andb_true_r. apply Z.ltb_lt. rewrite MAXVA_eq.
  unfold PGSIZE in Hva. lia.
Qed.

Lemma copyout_copyin_roundtrip_witness :
  exists s', copyout demo_page 4000 [104; 105; 0] (demo_hart 0) demo_as1 = Done 0 (demo_hart 0) s' /\
    copyin demo_page 4000 3 (demo_hart 0) s' = Done (0, [104; 105; 0]) (demo_hart 0) s'.
Proof.
  destruct demo_grown as (ps & fl & G).
  destruct (copyout_copyin_roundtrip demo_page 4000 [104; 105; 0] ps fl 1 (demo_hart 0) demo_as1
    (gr_space _ _ _ _ _ _ _ _ _ G)) as (r & s' & bs & E1 & E2 & Hr & _).
  { unfold bytes_ok. repeat (constructor; [lia|]). constructor. }
  { lia. }
  { unfold PGSIZE. simpl. lia. }
  destruct Hr as [(-> & -> & _)|(_ & x & Hx & Ha)]; [exists s'; split; [exact E1|exact E2]|].
  rewrite demo_accessible in Ha; [discriminate Ha|]. simpl in Hx. unfold PGSIZE. lia.
Defined.

Lemma copyinstr_copies_string_witness :
  copyinstr demo_page 8 128 (demo_hart 0) demo_as1 = Done (0, [0]) (demo_hart 0) demo_as1.
Proof.
  destruct demo_grown as (ps & fl & G).
  destruct (gr_new _ _ _ _ _ _ _ _ _ G 8 ltac:(unfold PGSIZE; lia)) as [_ Hz].
  destruct (copyinstr_copies_string demo_page 8 128 0 ps fl 1 (demo_hart 0) demo_as1
    (gr_space _ _ _ _ _ _ _ _ _ G) ltac:(lia) ltac:(lia) ltac:(lia) ltac:(intros; lia)) as [Hs _].
  rewrite (Hs ltac:(lia) (demo_accessible 8 ltac:(unfold PGSIZE; lia)) Hz).
  change (Z.to_nat 0 + 1)%nat with 1%nat. cbn [ubytes]. rewrite Hz. reflexivity.
Defined.

(** A parent with one page and an empty child. *)
Definition demo_child : Z := end_value 0 (uvmcreate (demo_hart 0) demo_as1).
Definition demo_as2 : pm := end_state demo_as1 (uvmcreate (demo_hart 0) demo_as1).

Lemma demo_family :
  exists pso psn fl, family demo_as2 demo_page demo_child pso psn fl 1 0.
Proof.
  destruct demo_grown as (ps & fl & G). pose proof (gr_space _ _ _ _ _ _ _ _ _ G) as U.
  pose proof (us_vm _ _ _ _ _ U) as Hv.
  destruct fl as [|q fl].
  { pose proof (vs_free _ _ _ _ Hv) as [Hl _]. simpl in Hl.
    pose proof demo_more_pages as Hm. rewrite Hl in Hm. discriminate Hm. }
  destruct (uvmcreate_run (demo_hart 0) demo_as1 _ demo_ready (vs_free _ _ _ _ Hv) (vs_ok _ _ _ _ Hv))
    as (s' & E & U' & Hout & _).
  unfold demo_child, demo_as2. rewrite E. cbn [end_value end_state].
  destruct (free_list_head _ _ _ (vs_free _ _ _ _ Hv)) as (Hq & _ & Hqf).
  assert (Hqps : q ∉ ps) by (intros Hc; apply (vs_disj _ _ _ _ Hv q Hc); constructor).
  assert (Hqu : q ∉ upages (pm_mem demo_as1) demo_page 0 1).
  { intros Hc. destruct (us_disj _ _ _ _ _ U q Hc) as [_ Hd]. apply Hd. constructor. }
  destruct (uspace_frame demo_as1 s' demo_page ps (q :: fl) fl 1 [q] U Hout) as (Uo & He & _).
  { intros y Hy. apply list_elem_of_singleton in Hy as ->. split; [exact Hq|]. split; [exact Hqps|exact Hqu]. }
  { apply U'. }
  { apply U'. }
  { intros p Hp. assert (Hp' : p ∈ q :: fl) by (by constructor). split.
    - intros Hc. exact (vs_disj _ _ _ _ Hv p Hc Hp').
    - intros Hc. destruct (us_disj _ _ _ _ _ U p Hc) as [_ Hd]. exact (Hd Hp'). }
  exists ps, [q], fl. constructor; [exact Uo|exact U'|].
  intros p Hp. simpl in Hp. apply list_elem_of_singleton in Hp as ->. split; [exact Hqps|].
  rewrite (upages_ext (pm_mem demo_as1)); [exact Hqu|]. intros i _. apply He.
Qed.

Lemma uvmcopy_duplicates_witness :
  exists r h' s', uvmcopy demo_page demo_child 100 (demo_hart 0) demo_as2 = Done r h' s' /\
    (r = 0 \/ r = -1).
Proof.
  destruct demo_family as (pso & psn & fl & Fam).
  destruct (uvmcopy_duplicates demo_page demo_child 100 pso psn fl (demo_hart 0) demo_as2
    demo_ready Fam ltac:(unfold PGSIZE; lia)) as (r & h' & s' & psn' & fl' & k & E & _ & Hr & _).
  exists r, h', s'. split; [exact E|]. destruct Hr as [[-> _]|[-> _]]; [left|right]; reflexivity.
Defined.
