(* ===== verification/KernelMap.v ===== *)
(** * KernelMap

    The page table that kvmmake of kernel/vm.c builds for the kernel: it maps exactly the
    devices, the memory, the trampoline and the kernel stacks with their guard pages, and
    the memory of the machine suffices for it. *)
From stdpp Require Import base tactics list numbers gmap strings sets.
From S2P Require Import Prelude Machine Spinlock Bytes Queue Kalloc.
From S2P Require Import Vm Pagetable VmSpec UserMem VmProps.

Section kernelmap.
Context `{LayoutOk}.

(** ** The address space *)

Definition page_of (va : Z) : Z := va / PGSIZE * PGSIZE.

(** Below the trampoline, the stack of each process under a page that stays unmapped. *)
Definition kstack_entry (ks : list Z) (va : Z) : Z :=
  let off := TRAMPOLINE - 1 - va in
  if decide (0 <= off /\ PGSIZE <= off mod (2 * PGSIZE)) then
    match ks !! Z.to_nat (off / (2 * PGSIZE)) with Some k => leaf k PERM_RW | None => 0 end
  else 0.

Definition kspace (ks : list Z) (va : Z) : Z :=
  if decide (UART0 <= va < UART0 + PGSIZE \/ VIRTIO0 <= va < VIRTIO0 + PGSIZE \/ PLIC <= va < PLIC + 0x400000)
  then leaf (page_of va) PERM_RW
  else if decide (KERNBASE <= va < l_etext) then leaf (page_of va) PERM_RX
  else if decide (l_etext <= va < PHYSTOP) then leaf (page_of va) PERM_RW
  else if decide (TRAMPOLINE <= va < MAXVA) then leaf l_trampoline PERM_RX
  else kstack_entry ks va.

(** ** The pages of the table *)

(** The regions of 2 megabytes with mapped pages: the PLIC, the other devices, the memory,
    the trampoline with the stacks. *)
Definition kregions : list Z := [96; 97; 128; 131071] ++ seqZ 1024 64.
Definition kpaths : list (list Z) := [] :: ((fun g => [g]) <$> [0; 2; 255]) ++ ((fun r => [r / 512; r mod 512]) <$> kregions).
Definition KTABLES : nat := 72.

Lemma kregions_range r : r ∈ kregions -> 0 <= r < 2 ^ 17 /\ r / 512 ∈ [0; 2; 255].
Proof.
  unfold kregions. rewrite elem_of_app, elem_of_seqZ, !elem_of_cons.
  intros [Hr|Hr]; [destruct Hr as [->|[->|[->|[->|Hr]]]]; [..|by apply elem_of_nil in Hr]; (split; [lia|])|split; [lia|]].
  - by left.
  - by left.
  - by left.
  - right; right; by left.
  - right. left. zlia.
Qed.

Lemma kpath_in va π : va / 2 ^ 21 ∈ kregions -> π `prefix_of` path_of va -> π ∈ kpaths.
Proof.
  intros Hr [l Hl]. destruct (kregions_range _ Hr) as [Hb H1]. set (r := va / 2 ^ 21) in *.
  assert (E : path_of va = [r / 512; r mod 512]).
  { unfold path_of. rewrite !PX_eq by lia. change (12 + 9 * 2) with 30. change (12 + 9 * 1) with 21. fold r.
    assert (va / 2 ^ 30 = r / 512) as -> by (unfold r; rewrite Z.div_div by lia; done).
    rewrite (Z.mod_small (r / 512)) by zlia. done. }
  rewrite E in Hl. unfold kpaths. rewrite elem_of_cons, elem_of_app, !list_elem_of_fmap.
  destruct π as [|a [|b [|c π]]]; [by left| | |discriminate Hl].
  - injection Hl as <- _. right. left. eauto.
  - injection Hl as <- <- _. right. right. eauto.
Qed.

Record kvm_state (s : pm) (root : Z) (ps fl : list Z) (f : Z -> Z) : Prop := {
  kv_vm : vm_state s root ps fl;
  kv_paths : forall π p, vpath π -> reach (pm_mem s) root π = Some p -> π ∈ kpaths;
  kv_entry : forall va, 0 <= va < MAXVA -> entry (pm_mem s) root va = f va;
}.

Lemma kvm_tables s root ps fl f : kvm_state s root ps fl f -> (length ps <= KTABLES)%nat.
Proof. intros [Hv Hp _]. exact (tables_bound _ _ _ _ kpaths Hv Hp). Qed.

(** ** kvmmap *)

(** A range that lies in one kind of region. *)
Definition kregion_range (va size : Z) : Prop := forall x, va <= x < va + size -> x / 2 ^ 21 ∈ kregions.

Lemma kvmmap_run root ps fl f va pa size perm h s :
  kmem_ready h -> kvm_state s root ps fl f -> (KTABLES < length ps + length fl)%nat ->
  va mod PGSIZE = 0 -> size mod PGSIZE = 0 -> 0 < size -> 0 <= va -> va + size <= MAXVA -> kregion_range va size ->
  pa mod PGSIZE = 0 -> 0 <= pa -> pa + size < 2 ^ 55 -> 0 <= perm < 2 ^ 10 ->
  (forall x, va <= x < va + size -> f x = 0) ->
  exists h' s' ps' fl', kvmmap root va pa size perm h s = Done tt h' s' /\ calm h h' /\
    vm_grow root s ps fl s' ps' fl' /\ kvm_state s' root ps' fl' (map_range f va (size / PGSIZE) pa perm).
Proof.
  intros Hh [Hv Hp He] Hn Hal Hsal Hsz Hva Hmax Hreg Hpal Hpa Hpm Hperm Hf. pose proof (eq_refl : PGSIZE = 4096) as Hpg.
  destruct (mappages_run root ps fl va size pa perm h s) as (r & h' & s' & ps' & fl' & j & E & Hc & G & S' & Hr & He'); auto.
  { intros x Hx. assert (Hx' : va <= x < va + size) by (clear -Hx Hal Hsal Hsz; unfold PGSIZE in *; zlia).
    rewrite He, Hf by lia. apply has_0. }
  assert (Hrp : range_pages va size = size / PGSIZE) by (clear -Hal Hsal Hsz; unfold range_pages, PGSIZE in *; zlia).
  assert (Hvp : va / PGSIZE * PGSIZE = va) by (clear -Hal; unfold PGSIZE in *; zlia). rewrite Hvp in *. rewrite Hrp in Hr.
  assert (Hk : kvm_state s' root ps' fl' (map_range f va j pa perm)).
  { constructor; [apply G| |].
    - intros π p Hvπ Hrp'. destruct (S' π p Hvπ Hrp') as [[p' Hr']|(x & Hx & Hpre)]; [by eapply Hp|].
      eapply kpath_in, Hpre. by apply Hreg.
    - intros x Hx. rewrite He' by done. unfold map_range. case_decide; [done|]. by apply He. }
  pose proof (kvm_tables _ _ _ _ _ Hk) as Ht. destruct (vg_pages _ _ _ _ _ _ _ G) as (new & Efl & Eps).
  apply Permutation_length in Eps. rewrite length_app in Eps.
  destruct Hr as [[-> ->]|(-> & _ & ->)]; [|exfalso; rewrite Efl, app_nil_r in Hn; lia].
  exists h', s', ps', fl'. split_and!; auto. unfold kvmmap. by krun E.
Qed.

(** ** The kernel stacks *)

Lemma kvm_kalloc s root ps q fl f : kvm_state s root ps (q :: fl) f -> kvm_state (allocd q s) root ps fl f.
Proof.
  intros [[Ho Hf Hd Hok] Hp He]. destruct (free_list_head _ _ _ Hf) as (Hq & _ & Hqf).
  assert (Hn : q ∉ ps) by (intros Hin; apply (Hd q Hin), elem_of_cons; by left).
  assert (Hsame : forall p x, p ∈ ps -> in_page p x -> rd (pm_mem (allocd q s)) x = rd (pm_mem s) x).
  { intros z x Hz. eapply outside_in_page; [apply allocd_outside|done| |apply Ho|by constructor].
    intros y Hy. by apply list_elem_of_singleton in Hy as ->. }
  constructor; [constructor|..].
  - by eapply pt_own_same.
  - by apply allocd_list.
  - intros p Hin Hc. apply (Hd p Hin), elem_of_cons. by right.
  - by apply allocd_ok.
  - intros π p Hv Hr. rewrite (reach_same _ _ _ ps) in Hr by done. by eapply Hp.
  - intros va Hva. rewrite (entry_same (pm_mem s) _ root ps) by done. by apply He.
Qed.

(** Where the stack of process [p] lies. *)
Lemma KSTACK_eq p : KSTACK p = MAXVA - PGSIZE - (p + 1) * 8192.
Proof. unfold KSTACK, TRAMPOLINE, PGSIZE. lia. Qed.

Lemma kspace_stack ks k va : (length ks < NPROC)%nat -> 0 <= va < MAXVA ->
  map_range (kspace ks) (KSTACK (Z.of_nat (length ks))) 1 k PERM_RW va = kspace (ks ++ [k]) va.
Proof.
  intros Hl Hva. pose proof l_end_range. pose proof l_etext_range. unfold NPROC in Hl. unfold map_range, kspace, kstack_entry. rewrite KSTACK_eq.
  change TRAMPOLINE with (MAXVA - PGSIZE). rewrite MAXVA_eq in *.
  unfold UART0, VIRTIO0, PLIC, PHYSTOP, KERNBASE, PGSIZE in *. set (p := Z.of_nat (length ks)) in *.
  destruct (decide (2 ^ 38 - 4096 - (p + 1) * 8192 <= va < 2 ^ 38 - 4096 - (p + 1) * 8192 + 1 * 4096)) as [Hin|Hout].
  - rewrite !(decide_False (P := _ \/ _)), !(decide_False (P := _ <= va < _)) by lia. rewrite decide_True by zlia.
    rewrite list_lookup_middle by (unfold p in Hin; zlia). f_equal. zlia.
  - repeat case_decide; try done. destruct (decide (Z.to_nat ((2 ^ 38 - 4096 - 1 - va) / (2 * 4096)) = length ks)) as [E|E]; [exfalso; unfold p in Hout; zlia|].
    destruct (lt_dec (Z.to_nat ((2 ^ 38 - 4096 - 1 - va) / (2 * 4096))) (length ks)) as [Hlt|Hge].
    + by rewrite lookup_app_l.
    + rewrite lookup_ge_None_2 by lia. rewrite lookup_ge_None_2; [done|]. rewrite length_app. simpl. lia.
Qed.

Lemma kspace_free ks va : (length ks < NPROC)%nat ->
  KSTACK (Z.of_nat (length ks)) <= va < KSTACK (Z.of_nat (length ks)) + PGSIZE -> kspace ks va = 0.
Proof.
  intros Hl. pose proof l_end_range. pose proof l_etext_range. unfold NPROC in Hl. unfold kspace, kstack_entry. rewrite KSTACK_eq.
  change TRAMPOLINE with (MAXVA - PGSIZE). rewrite MAXVA_eq.
  unfold UART0, VIRTIO0, PLIC, PHYSTOP, KERNBASE, PGSIZE in *. intros Hva.
  rewrite !decide_False by lia. case_decide; [|done]. rewrite lookup_ge_None_2; [done|]. zlia.
Qed.

Lemma kstack_region p : 0 <= p < Z.of_nat NPROC -> kregion_range (KSTACK p) PGSIZE.
Proof.
  intros Hp x Hx. rewrite KSTACK_eq, MAXVA_eq in Hx. unfold NPROC, PGSIZE in *.
  assert (E : x / 2 ^ 21 = 131071) by zlia. rewrite E. unfold kregions. rewrite elem_of_app. left. do 3 right. left.
Qed.

Lemma mapstacks_run n ks root ps fl h s :
  kmem_ready h -> kvm_state s root ps fl (kspace ks) -> (length ks + n <= NPROC)%nat -> (KTABLES + n < length ps + length fl)%nat ->
  exists h' s' ps' fl' new,
    forM (seq (length ks) n) (fun p =>
      pa <- kalloc;;
      if pa =? 0 then panic "kalloc" else kvmmap root (KSTACK (Z.of_nat p)) pa PGSIZE (Z.lor PTE_R PTE_W)) h s = Done tt h' s' /\
    calm h h' /\ kvm_state s' root ps' fl' (kspace (ks ++ new)) /\ length new = n /\ ps ++ fl ≡ₚ ps' ++ new ++ fl'.
Proof.
  revert ks ps fl h s. induction n as [|n IH]; intros ks ps fl h s Hh Hk Hn Hfree.
  { exists h, s, ps, fl, []. rewrite app_nil_r. split_and!; auto with xv6. }
  cbn [seq forM]. rewrite bind_assoc. pose proof (kvm_tables _ _ _ _ _ Hk) as Ht. destruct fl as [|q fl]; [cbn [length] in Hfree; lia|].
  pose proof (vs_free _ _ _ _ (kv_vm _ _ _ _ _ Hk)) as Hf. destruct (free_list_head _ _ _ Hf) as (Hq & Hq0 & _).
  krun (kalloc_some h s q fl Hf (proj1 Hh) (proj2 Hh)). destruct (Z.eqb_spec q 0) as [|_]; [done|].
  assert (Hp : 0 <= Z.of_nat (length ks) < Z.of_nat NPROC) by lia. pose proof (page_ok_pa q Hq) as [Hqa Hqr].
  pose proof (KSTACK_eq (Z.of_nat (length ks))) as Ek. rewrite MAXVA_eq in Ek. unfold NPROC in Hp.
  destruct (kvmmap_run root ps fl (kspace ks) (KSTACK (Z.of_nat (length ks))) q PGSIZE PERM_RW (settle h) (allocd q s))
    as (h1 & s1 & ps1 & fl1 & E1 & Hc1 & G1 & Hk1); [by apply kmem_ready_settle|by apply kvm_kalloc|cbn [length] in Hfree; lia| |done|done| | |by apply kstack_region|done| | |apply PERM_range| |].
  { rewrite Ek. unfold PGSIZE. zlia. } { rewrite Ek. unfold PGSIZE. lia. } { rewrite Ek, MAXVA_eq. unfold PGSIZE. lia. }
  { lia. } { destruct Hq as [_ Hq]. unfold PHYSTOP, KERNBASE, PGSIZE in *. lia. } { intros x Hx. apply kspace_free; [lia|done]. }
  krun E1. destruct (vg_pages _ _ _ _ _ _ _ G1) as (mid & Emid & Eps). pose proof (Permutation_length Eps) as Elen. rewrite length_app in Elen.
  destruct (IH (ks ++ [q]) ps1 fl1 h1 s1) as (h' & s' & ps' & fl' & new & E & Hc & Hk' & Hln & Eperm).
  { eapply kmem_ready_calm; [done|by apply kmem_ready_settle]. }
  { destruct Hk1 as [K1 K2 K3]. constructor; [done|done|]. intros va Hva. rewrite K3 by done. change (PGSIZE / PGSIZE) with 1. by apply kspace_stack; [lia|]. }
  { rewrite length_app. simpl. lia. } { rewrite Emid in Hfree. cbn [length] in Hfree. rewrite length_app in Hfree. lia. }
  rewrite length_app in E. simpl in E. rewrite Nat.add_1_r in E.
  exists h', s', ps', fl', (q :: new). split_and!; [exact E|eauto with xv6|by rewrite <-app_assoc in Hk'|simpl; lia|].
  rewrite Emid, <-Permutation_middle. simpl. rewrite <-(Permutation_middle ps'). constructor.
  by rewrite <-Eperm, Eps, (Permutation_app_comm mid ps), app_assoc.
Qed.

(** ** kvmmake *)

(** The ranges of the kernel's map before the stacks. *)
Lemma kspace_base va : 0 <= va < MAXVA ->
  map_range (map_range (map_range (map_range (map_range (map_range (fun _ => 0) UART0 1 UART0 PERM_RW) VIRTIO0 1 VIRTIO0 PERM_RW)
    PLIC 1024 PLIC PERM_RW) KERNBASE ((l_etext - KERNBASE) / PGSIZE) KERNBASE PERM_RX)
    l_etext ((PHYSTOP - l_etext) / PGSIZE) l_etext PERM_RW) TRAMPOLINE 1 l_trampoline PERM_RX va = kspace [] va.
Proof.
  intros Hva. pose proof l_end_range. pose proof l_etext_range. pose proof l_etext_page.
  unfold map_range, kspace, kstack_entry, page_of. change TRAMPOLINE with (MAXVA - PGSIZE). rewrite MAXVA_eq in *.
  unfold UART0, VIRTIO0, PLIC, PHYSTOP, KERNBASE, PGSIZE in *.
  assert (E1 : (l_etext - 0x80000000) / 4096 * 4096 = l_etext - 0x80000000) by zlia.
  assert (E2 : (0x80000000 + 128 * 1024 * 1024 - l_etext) / 4096 * 4096 = 0x80000000 + 128 * 1024 * 1024 - l_etext) by zlia.
  rewrite E1, E2. clear E1 E2. rewrite lookup_nil.
  repeat case_decide; try lia; try done; f_equal; zlia.
Qed.

Lemma memory_region va size : KERNBASE <= va -> va + size <= PHYSTOP -> kregion_range va size.
Proof.
  unfold PHYSTOP, KERNBASE. intros Ha Hb x Hx. unfold kregions. rewrite elem_of_app. right. rewrite elem_of_seqZ. zlia.
Qed.

Lemma device_region va r : r ∈ [96; 97; 128; 131071] -> (forall x, va <= x < va + PGSIZE -> x / 2 ^ 21 = r) -> kregion_range va PGSIZE.
Proof. intros Hr Hv x Hx. rewrite (Hv x Hx). unfold kregions. rewrite elem_of_app. by left. Qed.

Lemma plic_region : kregion_range PLIC 0x400000.
Proof.
  intros x Hx. unfold PLIC in Hx. assert (E : x / 2 ^ 21 = 96 \/ x / 2 ^ 21 = 97) by zlia. unfold kregions. rewrite elem_of_app. left.
  destruct E as [-> | ->]; [left|right; left].
Qed.

(** The state between the calls of kvmmake: [fl0] were the free pages at the beginning. *)
Record stage (h0 : hart) (fl0 : list Z) (root : Z) (f : Z -> Z) (h : hart) (s : pm) : Prop := {
  st_calm : calm h0 h;
  st_ready : kmem_ready h;
  st_room : (KTABLES + NPROC < length fl0)%nat;
  st_kvm : exists ps fl, kvm_state s root ps fl f /\ ps ++ fl ≡ₚ fl0;
}.

Lemma kvm_step {B} (k : K pm B) (Q : outcome pm B -> Prop) h0 fl0 root f h s va pa size perm :
  stage h0 fl0 root f h s ->
  va mod PGSIZE = 0 /\ size mod PGSIZE = 0 /\ pa mod PGSIZE = 0 -> 0 < size /\ 0 <= va /\ va + size <= MAXVA -> kregion_range va size ->
  0 <= pa /\ pa + size < 2 ^ 55 -> 0 <= perm < 2 ^ 10 -> (forall x, va <= x < va + size -> f x = 0) ->
  (forall h' s', stage h0 fl0 root (map_range f va (size / PGSIZE) pa perm) h' s' -> Q (k h' s')) ->
  Q (bind (kvmmap root va pa size perm) (fun _ => k) h s).
Proof.
  intros [Hc Hh Hr (ps & fl & Hk & Hp)] (Ha1 & Ha2 & Ha3) (Hs1 & Hs2 & Hs3) Hreg (Hp1 & Hp2) Hperm Hf HQ.
  pose proof (Permutation_length Hp) as Hl. rewrite length_app in Hl.
  destruct (kvmmap_run root ps fl f va pa size perm h s) as (h' & s' & ps' & fl' & E & Hc' & G & Hk'); try done; [lia|].
  rewrite (bind_done _ _ _ _ _ _ _ E). apply HQ. constructor; [eauto with xv6|by eapply kmem_ready_calm|done|].
  exists ps', fl'. split; [done|]. destruct (vg_pages _ _ _ _ _ _ _ G) as (new & Efl & Eps).
  by rewrite <-Hp, Efl, Eps, (Permutation_app_comm new ps), app_assoc.
Qed.

(** Side conditions about the ranges. *)
Ltac kvm_arith := unfold map_range; change TRAMPOLINE with (MAXVA - PGSIZE); rewrite ?MAXVA_eq in *;
  unfold UART0, VIRTIO0, PLIC, PHYSTOP, KERNBASE, PGSIZE in *;
  try split_and!; try done; try lia; try zlia; intros x Hx; rewrite ?decide_False by zlia; done.

(** kvmmake returns, and what its table translates. *)
Lemma kvmmake_run fl h s :
  kmem_ready h -> free_list s fl -> mem_ok (pm_mem s) -> (KTABLES + NPROC < length fl)%nat ->
  exists root h' s' ps fl' ks, kvmmake h s = Done root h' s' /\ calm h h' /\ vm_state s' root ps fl' /\
    fl ≡ₚ ps ++ ks ++ fl' /\ length ks = NPROC /\ (length ps <= KTABLES)%nat /\
    forall va, 0 <= va < MAXVA -> entry (pm_mem s') root va = kspace ks va.
Proof.
  intros Hh Hf Hok Hl. pose proof l_end_range. pose proof l_etext_range. pose proof l_etext_page. pose proof l_trampoline_range. pose proof l_trampoline_page.
  destruct PERM_range as [Hrx Hrw]. destruct fl as [|q fl]; [cbn [length] in Hl; lia|]. unfold kvmmake.
  krun (kalloc_some h s q fl Hf (proj1 Hh) (proj2 Hh)). rewrite bind_modify.
  destruct (fresh_table s q fl Hf Hok) as (Hv & _ & He). set (s0 := set_mem _ _) in *.
  assert (St0 : stage h (q :: fl) q (fun _ => 0) (settle h) s0).
  { constructor; [apply calm_settle|by apply kmem_ready_settle|done|]. exists [q], fl. split; [|done]. constructor; [done| |auto].
    intros π p Hvp Hr. rewrite (root_only _ _ _ _ (vs_own _ _ _ _ Hv) Hvp Hr). unfold kpaths. rewrite elem_of_cons. by left. }
  assert (HM : MAXVA = 2 ^ 38) by apply MAXVA_eq.
  eapply kvm_step; [exact St0|kvm_arith|kvm_arith|by eapply (device_region _ 128); [set_solver|intros x Hx; unfold UART0, PGSIZE in Hx; zlia]|kvm_arith|done|kvm_arith|].
  clear dependent s0. intros h1 s1 St1.
  eapply kvm_step; [exact St1|kvm_arith|kvm_arith|by eapply (device_region _ 128); [set_solver|intros x Hx; unfold VIRTIO0, PGSIZE in Hx; zlia]|kvm_arith|done|kvm_arith|].
  clear dependent s1. intros h2 s2 St2.
  eapply kvm_step; [exact St2|kvm_arith|kvm_arith|apply plic_region|kvm_arith|done|kvm_arith|].
  clear dependent s2. intros h3 s3 St3.
  eapply kvm_step; [exact St3|kvm_arith|kvm_arith|apply memory_region; lia|kvm_arith|done|kvm_arith|].
  clear dependent s3. intros h4 s4 St4.
  eapply kvm_step; [exact St4|kvm_arith|kvm_arith|apply memory_region; lia|kvm_arith|done|kvm_arith|].
  clear dependent s4. intros h5 s5 St5.
  eapply kvm_step; [exact St5|kvm_arith|kvm_arith| |kvm_arith|done|kvm_arith|].
  { eapply (device_region _ 131071); [set_solver|]. intros x Hx. change TRAMPOLINE with (MAXVA - PGSIZE) in Hx. rewrite MAXVA_eq in Hx. unfold PGSIZE in Hx. zlia. }
  clear dependent s5. intros h6 s6 [Hc6 Hh6 _ (ps & fl6 & [K1 K2 K3] & Hp)]. apply Permutation_length in Hp as Hl6. rewrite length_app in Hl6.
  unfold proc_mapstacks, upto.
  destruct (mapstacks_run NPROC [] q ps fl6 h6 s6) as (h' & s' & ps' & fl' & ks & E & Hc & Hk & Hlk & Hperm); [done| |simpl; lia|lia|].
  { constructor; [done|done|]. intros va Hva. rewrite K3, <-kspace_base by done. done. }
  krun E. exists q, h', s', ps', fl', ks. split_and!; [done|eauto with xv6|apply Hk|by rewrite <-Hp|done|by eapply kvm_tables|apply Hk].
Qed.

(** ** What the table maps *)

Lemma kspace_kstack ks i k va : (length ks <= NPROC)%nat -> ks !! i = Some k ->
  KSTACK (Z.of_nat i) <= va < KSTACK (Z.of_nat i) + PGSIZE -> kspace ks va = leaf k PERM_RW.
Proof.
  intros Hl Hk. apply lookup_lt_Some in Hk as Hi. pose proof l_end_range. pose proof l_etext_range. unfold NPROC in Hl.
  unfold kspace, kstack_entry. rewrite KSTACK_eq. change TRAMPOLINE with (MAXVA - PGSIZE). rewrite MAXVA_eq.
  unfold UART0, VIRTIO0, PLIC, PHYSTOP, KERNBASE, PGSIZE in *. intros Hva. rewrite !decide_False by zlia. rewrite decide_True by zlia.
  assert (Z.to_nat ((2 ^ 38 - 4096 - 1 - va) / (2 * 4096)) = i) as -> by zlia. by rewrite Hk.
Qed.

Lemma kspace_guard ks i va : (i < NPROC)%nat -> KSTACK (Z.of_nat i) - PGSIZE <= va < KSTACK (Z.of_nat i) -> kspace ks va = 0.
Proof.
  intros Hi. pose proof l_end_range. pose proof l_etext_range. unfold NPROC in Hi.
  unfold kspace, kstack_entry. rewrite KSTACK_eq. change TRAMPOLINE with (MAXVA - PGSIZE). rewrite MAXVA_eq.
  unfold UART0, VIRTIO0, PLIC, PHYSTOP, KERNBASE, PGSIZE in *. intros Hva. rewrite !decide_False by zlia. done.
Qed.

Lemma leaf_perm pa f b : 0 <= b < 10 -> Z.testbit (leaf pa f) b = Z.testbit (Z.lor f PTE_V) b.
Proof.
  intros Hb. unfold leaf, PA2PTE, u64. rewrite <-Z.lor_assoc, Z.lor_spec, Z.mod_pow2_bits_low by lia. by rewrite Z.shiftl_spec_low by lia.
Qed.

(** No page of the kernel is both writable and executable. *)
Lemma kspace_wx ks va : Z.testbit (kspace ks va) 2 && Z.testbit (kspace ks va) 3 = false.
Proof.
  assert (forall pa, Z.testbit (leaf pa PERM_RW) 2 && Z.testbit (leaf pa PERM_RW) 3 = false) as Hw by (intros; by rewrite !leaf_perm by lia).
  assert (forall pa, Z.testbit (leaf pa PERM_RX) 2 && Z.testbit (leaf pa PERM_RX) 3 = false) as Hx by (intros; by rewrite !leaf_perm by lia).
  unfold kspace, kstack_entry. repeat case_decide; auto. destruct (ks !! _); auto.
Qed.

(** C18: kvmmake builds the kernel's page table. Given a free page for each process's stack
    and for the at most [KTABLES] pages of the table, it never fails. The table maps the
    devices and the physical memory at their own addresses, the text without write
    permission and the rest without execute permission, the trampoline at the top and,
    below it, a page of its own for each process's stack, with an unmapped guard page under
    each stack; it maps nothing else, and no page is both writable and executable. The
    pages of the table and the stacks come from the free list and the rest stay on it. *)
Theorem kvmmake_maps (fl : list Z) (h : hart) (s : pm) :
  kmem_ready h -> free_list s fl -> mem_ok (pm_mem s) -> (KTABLES + NPROC < length fl)%nat ->
  exists root h' s' ps fl' ks, kvmmake h s = Done root h' s' /\ h_held h' = h_held h /\ free_list s' fl' /\
    fl ≡ₚ ps ++ ks ++ fl' /\ length ks = NPROC /\ (length ps <= KTABLES)%nat /\
    (forall va, 0 <= va < MAXVA -> entry (pm_mem s') root va = kspace ks va) /\
    (forall i k va, ks !! i = Some k -> KSTACK (Z.of_nat i) <= va < KSTACK (Z.of_nat i) + PGSIZE ->
       entry (pm_mem s') root va = leaf k PERM_RW) /\
    (forall i va, (i < NPROC)%nat -> KSTACK (Z.of_nat i) - PGSIZE <= va < KSTACK (Z.of_nat i) -> entry (pm_mem s') root va = 0) /\
    (forall va, 0 <= va < MAXVA -> Z.testbit (entry (pm_mem s') root va) 2 && Z.testbit (entry (pm_mem s') root va) 3 = false).
Proof.
  intros Hh Hf Hok Hl. destruct (kvmmake_run fl h s Hh Hf Hok Hl) as (root & h' & s' & ps & fl' & ks & E & Hc & Hv & Hp & Hk & Hps & He).
  assert (Hstack : forall i va, (i < NPROC)%nat -> KSTACK (Z.of_nat i) - PGSIZE <= va < KSTACK (Z.of_nat i) + PGSIZE -> 0 <= va < MAXVA).
  { intros i va Hi. unfold NPROC in Hi. rewrite KSTACK_eq, MAXVA_eq. unfold PGSIZE. lia. }
  exists root, h', s', ps, fl', ks. split_and!; try done; [by apply calm_held|by eapply vs_free|..].
  - intros i k va Hi Hva. apply lookup_lt_Some in Hi as Hlt. rewrite He by (apply (Hstack i); lia). apply (kspace_kstack ks i); [lia|done|done].
  - intros i va Hi Hva. rewrite He by (apply (Hstack i); unfold PGSIZE in *; lia). by apply (kspace_guard ks i).
  - intros va Hva. rewrite He by done. apply kspace_wx.
Qed.

End kernelmap.

(** ** Example *)

(** A machine with 150 pages, after kinit. *)
Module room.

Definition layout : Layout := {|
  l_etext := KERNBASE + 0x8000; l_end := PHYSTOP - 150 * PGSIZE - 10; l_trampoline := KERNBASE + 0x7000 |}.

Lemma room_ok : @LayoutOk layout.
Proof. by constructor. Qed.

Lemma memory : exists s, @free_list layout s (@all_free layout) /\ mem_ok (pm_mem s).
Proof.
  destruct (@kinit_list layout room_ok (demo_hart 0) demo_pm (demo_hart_wf 0) demo_kmem_free eq_refl) as (h & s & E & _ & Hl & Hm).
  exists s. split; [exact Hl|exact (Hm demo_pm_ok)].
Qed.

Lemma enough : (KTABLES + NPROC < length (@all_free layout))%nat.
Proof. apply Nat.ltb_lt. vm_compute. reflexivity. Qed.

End room.

Lemma kvmmake_maps_witness :
  exists s root h' s', @free_list room.layout s (@all_free room.layout) /\ @kvmmake room.layout (demo_hart 0) s = Done root h' s'.
Proof.
  destruct room.memory as (s & Hl & Hok).
  destruct (@kvmmake_maps room.layout room.room_ok (@all_free room.layout) (demo_hart 0) s demo_ready Hl Hok room.enough)
    as (root & h' & s' & ps & fl' & ks & E & _).
  exists s, root, h', s'. split; [exact Hl|exact E].
Defined.
