(* ===== verification/Block.v ===== *)
(** * Block

    Byte arrays that hold structures: the data of a disk block, a directory
    entry, an ELF header. A field of [n] bytes at offset [off] is read with [getn]
    and replaced with [putn], little-endian. *)
From stdpp Require Import base tactics list numbers.
From S2P Require Import Prelude Bytes.

Definition splice (l : list Z) (off : nat) (bs : list Z) : list Z :=
  take off l ++ bs ++ drop (off + length bs) l.

Definition slice (l : list Z) (off n : nat) : list Z := take n (drop off l).

Definition getn (n : nat) (l : list Z) (off : nat) : Z := le_value (slice l off n).
Definition putn (n : nat) (l : list Z) (off : nat) (v : Z) : list Z := splice l off (le_bytes n v).

Definition get16 := getn 2.
Definition get32 := getn 4.
Definition get64 := getn 8.
Definition put16 := putn 2.
Definition put32 := putn 4.

Section facts.
Implicit Types (l bs : list Z) (off n m : nat).

Lemma length_splice l off bs : (off + length bs <= length l)%nat -> length (splice l off bs) = length l.
Proof. intros ?. unfold splice. rewrite !length_app, length_take, length_drop. lia. Qed.

Lemma length_slice l off n : (off + n <= length l)%nat -> length (slice l off n) = n.
Proof. intros ?. unfold slice. rewrite length_take, length_drop. lia. Qed.

Lemma lookup_splice l off bs i :
  (off + length bs <= length l)%nat ->
  splice l off bs !! i = if decide (off <= i < off + length bs)%nat then bs !! (i - off)%nat else l !! i.
Proof.
  intros Hl. unfold splice. case_decide as Hi.
  - rewrite lookup_app_r by (rewrite length_take; lia). rewrite length_take, Nat.min_l by lia.
    by rewrite lookup_app_l by lia.
  - destruct (decide (i < off)%nat) as [Hlt|Hge].
    + rewrite lookup_app_l by (rewrite length_take; lia). by rewrite lookup_take_lt by lia.
    + rewrite !lookup_app_r by (rewrite ?length_take; lia).
      rewrite length_take, Nat.min_l, lookup_drop by lia. f_equal. lia.
Qed.

Lemma slice_splice l off bs :
  (off + length bs <= length l)%nat -> slice (splice l off bs) off (length bs) = bs.
Proof.
  intros Hl. unfold slice, splice. rewrite drop_app_ge by (rewrite length_take; lia).
  rewrite length_take, Nat.min_l, Nat.sub_diag, drop_0 by lia.
  rewrite take_app_le, take_ge by lia. done.
Qed.

(** A write does not change a disjoint range. *)
Lemma slice_splice_other l off bs o n :
  (off + length bs <= length l)%nat -> (o + n <= off \/ off + length bs <= o)%nat ->
  slice (splice l off bs) o n = slice l o n.
Proof.
  intros Hl Hd. apply list_eq. intros i. unfold slice.
  destruct (decide (i < n)%nat) as [Hi|Hi].
  - rewrite !lookup_take_lt, !lookup_drop, lookup_splice by lia. by rewrite decide_False by lia.
  - by rewrite !lookup_take_ge by lia.
Qed.

Lemma getn_putn n l off v :
  (off + n <= length l)%nat -> 0 <= v < 256 ^ Z.of_nat n -> getn n (putn n l off v) off = v.
Proof.
  intros Hl Hv. unfold getn, putn.
  pose proof (slice_splice l off (le_bytes n v)) as E. rewrite length_le_bytes in E.
  rewrite E by done. rewrite le_value_le_bytes. by rewrite Z.mod_small.
Qed.

Lemma getn_putn_other n m l off o v :
  (off + m <= length l)%nat -> (o + n <= off \/ off + m <= o)%nat ->
  getn n (putn m l off v) o = getn n l o.
Proof.
  intros Hl Hd. unfold getn, putn.
  rewrite slice_splice_other by (rewrite length_le_bytes; lia). done.
Qed.

Lemma length_putn n l off v : (off + n <= length l)%nat -> length (putn n l off v) = length l.
Proof. intros. unfold putn. rewrite length_splice; rewrite ?length_le_bytes; lia. Qed.

Lemma splice_app l off a b : (off + length a + length b <= length l)%nat ->
  splice (splice l off a) (off + length a) b = splice l off (a ++ b).
Proof.
  intros Hl. apply list_eq. intros i. rewrite !lookup_splice, length_app; rewrite ?length_app, ?length_splice; try lia.
  destruct (decide (off + length a <= i < off + length a + length b)%nat), (decide (off <= i < off + length a)%nat),
    (decide (off <= i < off + (length a + length b))%nat); try lia; [| |done].
  - rewrite lookup_app_r by lia. f_equal. lia.
  - rewrite lookup_app_l by lia. done.
Qed.

Lemma slice_mid a b c : slice (a ++ b ++ c) (length a) (length b) = b.
Proof. unfold slice. by rewrite drop_app_length, take_app_length. Qed.

(** A field of a structure that occupies a range. *)
Lemma getn_slice k n m l off : (k + n <= m)%nat -> getn n l (off + k) = getn n (slice l off m) k.
Proof.
  intros Hk. unfold getn, slice. f_equal. rewrite skipn_firstn_comm, drop_drop, take_take. f_equal. lia.
Qed.

Lemma getn_mid n a c v : 0 <= v < 256 ^ Z.of_nat n -> getn n (a ++ le_bytes n v ++ c) (length a) = v.
Proof.
  intros Hv. unfold getn. replace n with (length (le_bytes n v)) at 2 by apply length_le_bytes.
  by rewrite slice_mid, le_value_le_bytes, Z.mod_small.
Qed.

End facts.

