(* ===== verification/Kernel.v ===== *)
(** * Kernel

    The data of the kernel outside physical memory: struct proc and the process
    table (kernel/proc.h), the open-file, inode and buffer tables (kernel/file.h,
    kernel/buf.h, kernel/fs.h), the log, pipes, the console and the disk driver,
    and the record [kernel] of all global variables. A pointer into a table is
    the index of its element, a null pointer is [None]; the address of a page is
    a number. A pointer to a pipe is the address of the page that holds it. *)
From stdpp Require Import base tactics list numbers gmap strings.
From S2P Require Import Prelude Machine Spinlock Printf Bytes Queue Kalloc Vm.

(** ** Sleep channels

    One constructor per object whose address is passed to sleep() and wakeup(). *)
Inductive chan :=
| Ch_proc (i : nat)        (* a struct proc: wait() *)
| Ch_ticks                 (* &ticks *)
| Ch_nread (pi : Z)        (* &pi->nread *)
| Ch_nwrite (pi : Z)       (* &pi->nwrite *)
| Ch_log                   (* &log *)
| Ch_buflock (b : nat)     (* &b->lock *)
| Ch_inodelock (i : nat)   (* &ip->lock *)
| Ch_cons                  (* &cons.r *)
| Ch_uart                  (* &uart_tx_r *)
| Ch_free                  (* &disk.free[0] *)
| Ch_buf (b : nat).        (* a struct buf: virtio_disk_rw() *)

#[export] Instance chan_eq_dec : EqDecision chan.
Proof. solve_decision. Defined.

(** ** Processes *)

Inductive procstate := UNUSED | USED | SLEEPING | RUNNABLE | RUNNING | ZOMBIE.

#[export] Instance procstate_eq_dec : EqDecision procstate.
Proof. solve_decision. Defined.

Definition NOFILE : nat := 16.
Definition NMLFQ : nat := 5.
Definition AGETICK : Z := 128.

(** struct proc without its spin lock. Of the saved context only [ra] and [sp] are kept
    (allocproc sets them); what a suspended process does next is the continuation of
    its [Switch] outcome. *)
Record proc := Proc {
  p_state : procstate;
  p_chan : option chan;
  p_killed : Z;
  p_xstate : Z;
  p_pid : Z;
  p_parent : option nat;
  p_kstack : Z;
  p_sz : Z;
  p_pagetable : Z;
  p_trapframe : Z;
  p_context_ra : Z;
  p_context_sp : Z;
  p_ofile : list (option nat);
  p_cwd : option nat;
  p_name : list Z;
  p_mask : Z;
  p_ctime : Z;
  p_etime : Z;
  p_rtime : Z;
  p_sleep_time : Z;
  p_niceness : Z;
  p_static_priority : Z;
  p_dynamic_priority : Z;
  p_level : Z;
  p_in_queue : Z;
  p_change_queue : Z;
  p_n_run : Z;
  p_q_enter : Z;
  p_q : list Z;
}.

Definition set_p_state (v : procstate) (x : proc) : proc :=
  Proc v (p_chan x) (p_killed x) (p_xstate x) (p_pid x) (p_parent x) (p_kstack x) (p_sz x)
    (p_pagetable x) (p_trapframe x) (p_context_ra x) (p_context_sp x) (p_ofile x) (p_cwd x)
    (p_name x) (p_mask x) (p_ctime x) (p_etime x) (p_rtime x) (p_sleep_time x) (p_niceness x)
    (p_static_priority x) (p_dynamic_priority x) (p_level x) (p_in_queue x) (p_change_queue x)
    (p_n_run x) (p_q_enter x) (p_q x).
Definition set_p_chan (v : option chan) (x : proc) : proc :=
  Proc (p_state x) v (p_killed x) (p_xstate x) (p_pid x) (p_parent x) (p_kstack x) (p_sz x)
    (p_pagetable x) (p_trapframe x) (p_context_ra x) (p_context_sp x) (p_ofile x) (p_cwd x)
    (p_name x) (p_mask x) (p_ctime x) (p_etime x) (p_rtime x) (p_sleep_time x) (p_niceness x)
    (p_static_priority x) (p_dynamic_priority x) (p_level x) (p_in_queue x) (p_change_queue x)
    (p_n_run x) (p_q_enter x) (p_q x).
Definition set_p_killed (v : Z) (x : proc) : proc :=
  Proc (p_state x) (p_chan x) v (p_xstate x) (p_pid x) (p_parent x) (p_kstack x) (p_sz x)
    (p_pagetable x) (p_trapframe x) (p_context_ra x) (p_context_sp x) (p_ofile x) (p_cwd x)
    (p_name x) (p_mask x) (p_ctime x) (p_etime x) (p_rtime x) (p_sleep_time x) (p_niceness x)
    (p_static_priority x) (p_dynamic_priority x) (p_level x) (p_in_queue x) (p_change_queue x)
    (p_n_run x) (p_q_enter x) (p_q x).
Definition set_p_xstate (v : Z) (x : proc) : proc :=
  Proc (p_state x) (p_chan x) (p_killed x) v (p_pid x) (p_parent x) (p_kstack x) (p_sz x)
    (p_pagetable x) (p_trapframe x) (p_context_ra x) (p_context_sp x) (p_ofile x) (p_cwd x)
    (p_name x) (p_mask x) (p_ctime x) (p_etime x) (p_rtime x) (p_sleep_time x) (p_niceness x)
    (p_static_priority x) (p_dynamic_priority x) (p_level x) (p_in_queue x) (p_change_queue x)
    (p_n_run x) (p_q_enter x) (p_q x).
Definition set_p_pid (v : Z) (x : proc) : proc :=
  Proc (p_state x) (p_chan x) (p_killed x) (p_xstate x) v (p_parent x) (p_kstack x) (p_sz x)
    (p_pagetable x) (p_trapframe x) (p_context_ra x) (p_context_sp x) (p_ofile x) (p_cwd x)
    (p_name x) (p_mask x) (p_ctime x) (p_etime x) (p_rtime x) (p_sleep_time x) (p_niceness x)
    (p_static_priority x) (p_dynamic_priority x) (p_level x) (p_in_queue x) (p_change_queue x)
    (p_n_run x) (p_q_enter x) (p_q x).
Definition set_p_parent (v : option nat) (x : proc) : proc :=
  Proc (p_state x) (p_chan x) (p_killed x) (p_xstate x) (p_pid x) v (p_kstack x) (p_sz x)
    (p_pagetable x) (p_trapframe x) (p_context_ra x) (p_context_sp x) (p_ofile x) (p_cwd x)
    (p_name x) (p_mask x) (p_ctime x) (p_etime x) (p_rtime x) (p_sleep_time x) (p_niceness x)
    (p_static_priority x) (p_dynamic_priority x) (p_level x) (p_in_queue x) (p_change_queue x)
    (p_n_run x) (p_q_enter x) (p_q x).
Definition set_p_kstack (v : Z) (x : proc) : proc :=
  Proc (p_state x) (p_chan x) (p_killed x) (p_xstate x) (p_pid x) (p_parent x) v (p_sz x)
    (p_pagetable x) (p_trapframe x) (p_context_ra x) (p_context_sp x) (p_ofile x) (p_cwd x)
    (p_name x) (p_mask x) (p_ctime x) (p_etime x) (p_rtime x) (p_sleep_time x) (p_niceness x)
    (p_static_priority x) (p_dynamic_priority x) (p_level x) (p_in_queue x) (p_change_queue x)
    (p_n_run x) (p_q_enter x) (p_q x).
Definition set_p_sz (v : Z) (x : proc) : proc :=
  Proc (p_state x) (p_chan x) (p_killed x) (p_xstate x) (p_pid x) (p_parent x) (p_kstack x) v
    (p_pagetable x) (p_trapframe x) (p_context_ra x) (p_context_sp x) (p_ofile x) (p_cwd x)
    (p_name x) (p_mask x) (p_ctime x) (p_etime x) (p_rtime x) (p_sleep_time x) (p_niceness x)
    (p_static_priority x) (p_dynamic_priority x) (p_level x) (p_in_queue x) (p_change_queue x)
    (p_n_run x) (p_q_enter x) (p_q x).
Definition set_p_pagetable (v : Z) (x : proc) : proc :=
  Proc (p_state x) (p_chan x) (p_killed x) (p_xstate x) (p_pid x) (p_parent x) (p_kstack x)
    (p_sz x) v (p_trapframe x) (p_context_ra x) (p_context_sp x) (p_ofile x) (p_cwd x) (p_name x)
    (p_mask x) (p_ctime x) (p_etime x) (p_rtime x) (p_sleep_time x) (p_niceness x)
    (p_static_priority x) (p_dynamic_priority x) (p_level x) (p_in_queue x) (p_change_queue x)
    (p_n_run x) (p_q_enter x) (p_q x).
Definition set_p_trapframe (v : Z) (x : proc) : proc :=
  Proc (p_state x) (p_chan x) (p_killed x) (p_xstate x) (p_pid x) (p_parent x) (p_kstack x) (p_sz x)
    (p_pagetable x) v (p_context_ra x) (p_context_sp x) (p_ofile x) (p_cwd x) (p_name x) (p_mask x)
    (p_ctime x) (p_etime x) (p_rtime x) (p_sleep_time x) (p_niceness x) (p_static_priority x)
    (p_dynamic_priority x) (p_level x) (p_in_queue x) (p_change_queue x) (p_n_run x) (p_q_enter x)
    (p_q x).
Definition set_p_context_ra (v : Z) (x : proc) : proc :=
  Proc (p_state x) (p_chan x) (p_killed x) (p_xstate x) (p_pid x) (p_parent x) (p_kstack x) (p_sz x)
    (p_pagetable x) (p_trapframe x) v (p_context_sp x) (p_ofile x) (p_cwd x) (p_name x) (p_mask x)
    (p_ctime x) (p_etime x) (p_rtime x) (p_sleep_time x) (p_niceness x) (p_static_priority x)
    (p_dynamic_priority x) (p_level x) (p_in_queue x) (p_change_queue x) (p_n_run x) (p_q_enter x)
    (p_q x).
Definition set_p_context_sp (v : Z) (x : proc) : proc :=
  Proc (p_state x) (p_chan x) (p_killed x) (p_xstate x) (p_pid x) (p_parent x) (p_kstack x) (p_sz x)
    (p_pagetable x) (p_trapframe x) (p_context_ra x) v (p_ofile x) (p_cwd x) (p_name x) (p_mask x)
    (p_ctime x) (p_etime x) (p_rtime x) (p_sleep_time x) (p_niceness x) (p_static_priority x)
    (p_dynamic_priority x) (p_level x) (p_in_queue x) (p_change_queue x) (p_n_run x) (p_q_enter x)
    (p_q x).
Definition set_p_ofile (v : list (option nat)) (x : proc) : proc :=
  Proc (p_state x) (p_chan x) (p_killed x) (p_xstate x) (p_pid x) (p_parent x) (p_kstack x) (p_sz x)
    (p_pagetable x) (p_trapframe x) (p_context_ra x) (p_context_sp x) v (p_cwd x) (p_name x)
    (p_mask x) (p_ctime x) (p_etime x) (p_rtime x) (p_sleep_time x) (p_niceness x)
    (p_static_priority x) (p_dynamic_priority x) (p_level x) (p_in_queue x) (p_change_queue x)
    (p_n_run x) (p_q_enter x) (p_q x).
Definition set_p_cwd (v : option nat) (x : proc) : proc :=
  Proc (p_state x) (p_chan x) (p_killed x) (p_xstate x) (p_pid x) (p_parent x) (p_kstack x) (p_sz x)
    (p_pagetable x) (p_trapframe x) (p_context_ra x) (p_context_sp x) (p_ofile x) v (p_name x)
    (p_mask x) (p_ctime x) (p_etime x) (p_rtime x) (p_sleep_time x) (p_niceness x)
    (p_static_priority x) (p_dynamic_priority x) (p_level x) (p_in_queue x) (p_change_queue x)
    (p_n_run x) (p_q_enter x) (p_q x).
Definition set_p_name (v : list Z) (x : proc) : proc :=
  Proc (p_state x) (p_chan x) (p_killed x) (p_xstate x) (p_pid x) (p_parent x) (p_kstack x) (p_sz x)
    (p_pagetable x) (p_trapframe x) (p_context_ra x) (p_context_sp x) (p_ofile x) (p_cwd x) v
    (p_mask x) (p_ctime x) (p_etime x) (p_rtime x) (p_sleep_time x) (p_niceness x)
    (p_static_priority x) (p_dynamic_priority x) (p_level x) (p_in_queue x) (p_change_queue x)
    (p_n_run x) (p_q_enter x) (p_q x).
Definition set_p_mask (v : Z) (x : proc) : proc :=
  Proc (p_state x) (p_chan x) (p_killed x) (p_xstate x) (p_pid x) (p_parent x) (p_kstack x) (p_sz x)
    (p_pagetable x) (p_trapframe x) (p_context_ra x) (p_context_sp x) (p_ofile x) (p_cwd x)
    (p_name x) v (p_ctime x) (p_etime x) (p_rtime x) (p_sleep_time x) (p_niceness x)
    (p_static_priority x) (p_dynamic_priority x) (p_level x) (p_in_queue x) (p_change_queue x)
    (p_n_run x) (p_q_enter x) (p_q x).
Definition set_p_ctime (v : Z) (x : proc) : proc :=
  Proc (p_state x) (p_chan x) (p_killed x) (p_xstate x) (p_pid x) (p_parent x) (p_kstack x) (p_sz x)
    (p_pagetable x) (p_trapframe x) (p_context_ra x) (p_context_sp x) (p_ofile x) (p_cwd x)
    (p_name x) (p_mask x) v (p_etime x) (p_rtime x) (p_sleep_time x) (p_niceness x)
    (p_static_priority x) (p_dynamic_priority x) (p_level x) (p_in_queue x) (p_change_queue x)
    (p_n_run x) (p_q_enter x) (p_q x).
Definition set_p_etime (v : Z) (x : proc) : proc :=
  Proc (p_state x) (p_chan x) (p_killed x) (p_xstate x) (p_pid x) (p_parent x) (p_kstack x) (p_sz x)
    (p_pagetable x) (p_trapframe x) (p_context_ra x) (p_context_sp x) (p_ofile x) (p_cwd x)
    (p_name x) (p_mask x) (p_ctime x) v (p_rtime x) (p_sleep_time x) (p_niceness x)
    (p_static_priority x) (p_dynamic_priority x) (p_level x) (p_in_queue x) (p_change_queue x)
    (p_n_run x) (p_q_enter x) (p_q x).
Definition set_p_rtime (v : Z) (x : proc) : proc :=
  Proc (p_state x) (p_chan x) (p_killed x) (p_xstate x) (p_pid x) (p_parent x) (p_kstack x) (p_sz x)
    (p_pagetable x) (p_trapframe x) (p_context_ra x) (p_context_sp x) (p_ofile x) (p_cwd x)
    (p_name x) (p_mask x) (p_ctime x) (p_etime x) v (p_sleep_time x) (p_niceness x)
    (p_static_priority x) (p_dynamic_priority x) (p_level x) (p_in_queue x) (p_change_queue x)
    (p_n_run x) (p_q_enter x) (p_q x).
Definition set_p_sleep_time (v : Z) (x : proc) : proc :=
  Proc (p_state x) (p_chan x) (p_killed x) (p_xstate x) (p_pid x) (p_parent x) (p_kstack x) (p_sz x)
    (p_pagetable x) (p_trapframe x) (p_context_ra x) (p_context_sp x) (p_ofile x) (p_cwd x)
    (p_name x) (p_mask x) (p_ctime x) (p_etime x) (p_rtime x) v (p_niceness x) (p_static_priority x)
    (p_dynamic_priority x) (p_level x) (p_in_queue x) (p_change_queue x) (p_n_run x) (p_q_enter x)
    (p_q x).
Definition set_p_niceness (v : Z) (x : proc) : proc :=
  Proc (p_state x) (p_chan x) (p_killed x) (p_xstate x) (p_pid x) (p_parent x) (p_kstack x) (p_sz x)
    (p_pagetable x) (p_trapframe x) (p_context_ra x) (p_context_sp x) (p_ofile x) (p_cwd x)
    (p_name x) (p_mask x) (p_ctime x) (p_etime x) (p_rtime x) (p_sleep_time x) v
    (p_static_priority x) (p_dynamic_priority x) (p_level x) (p_in_queue x) (p_change_queue x)
    (p_n_run x) (p_q_enter x) (p_q x).
Definition set_p_static_priority (v : Z) (x : proc) : proc :=
  Proc (p_state x) (p_chan x) (p_killed x) (p_xstate x) (p_pid x) (p_parent x) (p_kstack x) (p_sz x)
    (p_pagetable x) (p_trapframe x) (p_context_ra x) (p_context_sp x) (p_ofile x) (p_cwd x)
    (p_name x) (p_mask x) (p_ctime x) (p_etime x) (p_rtime x) (p_sleep_time x) (p_niceness x) v
    (p_dynamic_priority x) (p_level x) (p_in_queue x) (p_change_queue x) (p_n_run x) (p_q_enter x)
    (p_q x).
Definition set_p_dynamic_priority (v : Z) (x : proc) : proc :=
  Proc (p_state x) (p_chan x) (p_killed x) (p_xstate x) (p_pid x) (p_parent x) (p_kstack x) (p_sz x)
    (p_pagetable x) (p_trapframe x) (p_context_ra x) (p_context_sp x) (p_ofile x) (p_cwd x)
    (p_name x) (p_mask x) (p_ctime x) (p_etime x) (p_rtime x) (p_sleep_time x) (p_niceness x)
    (p_static_priority x) v (p_level x) (p_in_queue x) (p_change_queue x) (p_n_run x) (p_q_enter x)
    (p_q x).
Definition set_p_level (v : Z) (x : proc) : proc :=
  Proc (p_state x) (p_chan x) (p_killed x) (p_xstate x) (p_pid x) (p_parent x) (p_kstack x) (p_sz x)
    (p_pagetable x) (p_trapframe x) (p_context_ra x) (p_context_sp x) (p_ofile x) (p_cwd x)
    (p_name x) (p_mask x) (p_ctime x) (p_etime x) (p_rtime x) (p_sleep_time x) (p_niceness x)
    (p_static_priority x) (p_dynamic_priority x) v (p_in_queue x) (p_change_queue x) (p_n_run x)
    (p_q_enter x) (p_q x).
Definition set_p_in_queue (v : Z) (x : proc) : proc :=
  Proc (p_state x) (p_chan x) (p_killed x) (p_xstate x) (p_pid x) (p_parent x) (p_kstack x) (p_sz x)
    (p_pagetable x) (p_trapframe x) (p_context_ra x) (p_context_sp x) (p_ofile x) (p_cwd x)
    (p_name x) (p_mask x) (p_ctime x) (p_etime x) (p_rtime x) (p_sleep_time x) (p_niceness x)
    (p_static_priority x) (p_dynamic_priority x) (p_level x) v (p_change_queue x) (p_n_run x)
    (p_q_enter x) (p_q x).
Definition set_p_change_queue (v : Z) (x : proc) : proc :=
  Proc (p_state x) (p_chan x) (p_killed x) (p_xstate x) (p_pid x) (p_parent x) (p_kstack x) (p_sz x)
    (p_pagetable x) (p_trapframe x) (p_context_ra x) (p_context_sp x) (p_ofile x) (p_cwd x)
    (p_name x) (p_mask x) (p_ctime x) (p_etime x) (p_rtime x) (p_sleep_time x) (p_niceness x)
    (p_static_priority x) (p_dynamic_priority x) (p_level x) (p_in_queue x) v (p_n_run x)
    (p_q_enter x) (p_q x).
Definition set_p_n_run (v : Z) (x : proc) : proc :=
  Proc (p_state x) (p_chan x) (p_killed x) (p_xstate x) (p_pid x) (p_parent x) (p_kstack x) (p_sz x)
    (p_pagetable x) (p_trapframe x) (p_context_ra x) (p_context_sp x) (p_ofile x) (p_cwd x)
    (p_name x) (p_mask x) (p_ctime x) (p_etime x) (p_rtime x) (p_sleep_time x) (p_niceness x)
    (p_static_priority x) (p_dynamic_priority x) (p_level x) (p_in_queue x) (p_change_queue x) v
    (p_q_enter x) (p_q x).
Definition set_p_q_enter (v : Z) (x : proc) : proc :=
  Proc (p_state x) (p_chan x) (p_killed x) (p_xstate x) (p_pid x) (p_parent x) (p_kstack x) (p_sz x)
    (p_pagetable x) (p_trapframe x) (p_context_ra x) (p_context_sp x) (p_ofile x) (p_cwd x)
    (p_name x) (p_mask x) (p_ctime x) (p_etime x) (p_rtime x) (p_sleep_time x) (p_niceness x)
    (p_static_priority x) (p_dynamic_priority x) (p_level x) (p_in_queue x) (p_change_queue x)
    (p_n_run x) v (p_q x).
Definition set_p_q (v : list Z) (x : proc) : proc :=
  Proc (p_state x) (p_chan x) (p_killed x) (p_xstate x) (p_pid x) (p_parent x) (p_kstack x) (p_sz x)
    (p_pagetable x) (p_trapframe x) (p_context_ra x) (p_context_sp x) (p_ofile x) (p_cwd x)
    (p_name x) (p_mask x) (p_ctime x) (p_etime x) (p_rtime x) (p_sleep_time x) (p_niceness x)
    (p_static_priority x) (p_dynamic_priority x) (p_level x) (p_in_queue x) (p_change_queue x)
    (p_n_run x) (p_q_enter x) v.

(** The elements of proc[] at boot: static storage is zeroed. *)
Definition zero_proc : proc :=
  Proc UNUSED None 0 0 0 None 0 0 0 0 0 0 (replicate NOFILE None) None (replicate 16 0)
    0 0 0 0 0 0 0 0 0 0 0 0 0 (replicate NMLFQ 0).

(** ** Sleep locks *)

(** struct sleeplock; its spin lock is a [lockid], its name is not used by any code. *)
Record sleeplock := SleepLock {
  sl_locked : Z;
  sl_pid : Z;
}.

Definition set_sl_locked (v : Z) (x : sleeplock) : sleeplock :=
  SleepLock v (sl_pid x).
Definition set_sl_pid (v : Z) (x : sleeplock) : sleeplock :=
  SleepLock (sl_locked x) v.

Definition zero_sleeplock : sleeplock := SleepLock 0 0.

(** ** Buffer cache and log *)

Definition NBUF : nat := 30.
Definition BSIZE : Z := 1024.
Definition LOGSIZE : Z := 30.
Definition MAXOPBLOCKS : Z := 10.

(** struct buf; [b_prev] and [b_next] index bcache.buf[], and [NBUF] stands for &bcache.head. *)
Record buf_t := Buf {
  b_valid : Z;
  b_disk : Z;
  b_dev : Z;
  b_blockno : Z;
  b_lock : sleeplock;
  b_refcnt : Z;
  b_prev : nat;
  b_next : nat;
  b_data : list Z;
}.

Definition set_b_valid (v : Z) (x : buf_t) : buf_t :=
  Buf v (b_disk x) (b_dev x) (b_blockno x) (b_lock x) (b_refcnt x) (b_prev x) (b_next x) (b_data x).
Definition set_b_disk (v : Z) (x : buf_t) : buf_t :=
  Buf (b_valid x) v (b_dev x) (b_blockno x) (b_lock x) (b_refcnt x) (b_prev x) (b_next x) (b_data x).
Definition set_b_dev (v : Z) (x : buf_t) : buf_t :=
  Buf (b_valid x) (b_disk x) v (b_blockno x) (b_lock x) (b_refcnt x) (b_prev x) (b_next x) (b_data x).
Definition set_b_blockno (v : Z) (x : buf_t) : buf_t :=
  Buf (b_valid x) (b_disk x) (b_dev x) v (b_lock x) (b_refcnt x) (b_prev x) (b_next x) (b_data x).
Definition set_b_lock (v : sleeplock) (x : buf_t) : buf_t :=
  Buf (b_valid x) (b_disk x) (b_dev x) (b_blockno x) v (b_refcnt x) (b_prev x) (b_next x) (b_data x).
Definition set_b_refcnt (v : Z) (x : buf_t) : buf_t :=
  Buf (b_valid x) (b_disk x) (b_dev x) (b_blockno x) (b_lock x) v (b_prev x) (b_next x) (b_data x).
Definition set_b_prev (v : nat) (x : buf_t) : buf_t :=
  Buf (b_valid x) (b_disk x) (b_dev x) (b_blockno x) (b_lock x) (b_refcnt x) v (b_next x) (b_data x).
Definition set_b_next (v : nat) (x : buf_t) : buf_t :=
  Buf (b_valid x) (b_disk x) (b_dev x) (b_blockno x) (b_lock x) (b_refcnt x) (b_prev x) v (b_data x).
Definition set_b_data (v : list Z) (x : buf_t) : buf_t :=
  Buf (b_valid x) (b_disk x) (b_dev x) (b_blockno x) (b_lock x) (b_refcnt x) (b_prev x) (b_next x) v.

Definition zero_buf : buf_t := Buf 0 0 0 0 zero_sleeplock 0 NBUF NBUF (replicate 1024 0).

(** bcache: of the header only the links are used. *)
Record bcache := Bcache {
  bc_buf : list buf_t;
  bc_head_prev : nat;
  bc_head_next : nat;
}.

Definition set_bc_buf (v : list buf_t) (x : bcache) : bcache :=
  Bcache v (bc_head_prev x) (bc_head_next x).
Definition set_bc_head_prev (v : nat) (x : bcache) : bcache :=
  Bcache (bc_buf x) v (bc_head_next x).
Definition set_bc_head_next (v : nat) (x : bcache) : bcache :=
  Bcache (bc_buf x) (bc_head_prev x) v.
(** struct log, with the in-memory header log.lh. *)
Record log_t := Log {
  l_start : Z;
  l_size : Z;
  l_outstanding : Z;
  l_committing : Z;
  l_dev : Z;
  lh_n : Z;
  lh_block : list Z;
}.

Definition set_l_start (v : Z) (x : log_t) : log_t :=
  Log v (l_size x) (l_outstanding x) (l_committing x) (l_dev x) (lh_n x) (lh_block x).
Definition set_l_size (v : Z) (x : log_t) : log_t :=
  Log (l_start x) v (l_outstanding x) (l_committing x) (l_dev x) (lh_n x) (lh_block x).
Definition set_l_outstanding (v : Z) (x : log_t) : log_t :=
  Log (l_start x) (l_size x) v (l_committing x) (l_dev x) (lh_n x) (lh_block x).
Definition set_l_committing (v : Z) (x : log_t) : log_t :=
  Log (l_start x) (l_size x) (l_outstanding x) v (l_dev x) (lh_n x) (lh_block x).
Definition set_l_dev (v : Z) (x : log_t) : log_t :=
  Log (l_start x) (l_size x) (l_outstanding x) (l_committing x) v (lh_n x) (lh_block x).
Definition set_lh_n (v : Z) (x : log_t) : log_t :=
  Log (l_start x) (l_size x) (l_outstanding x) (l_committing x) (l_dev x) v (lh_block x).
Definition set_lh_block (v : list Z) (x : log_t) : log_t :=
  Log (l_start x) (l_size x) (l_outstanding x) (l_committing x) (l_dev x) (lh_n x) v.

(** ** Inodes and files *)

Definition NINODE : nat := 50.
Definition NFILE : nat := 100.
Definition NDIRECT : nat := 12.
Definition NINDIRECT : Z := BSIZE / 4.
Definition MAXFILE : Z := Z.of_nat NDIRECT + NINDIRECT.

(** struct superblock *)
Record superblock := Superblock {
  sb_magic : Z;
  sb_size : Z;
  sb_nblocks : Z;
  sb_ninodes : Z;
  sb_nlog : Z;
  sb_logstart : Z;
  sb_inodestart : Z;
  sb_bmapstart : Z;
}.

Definition set_sb_magic (v : Z) (x : superblock) : superblock :=
  Superblock v (sb_size x) (sb_nblocks x) (sb_ninodes x) (sb_nlog x) (sb_logstart x)
    (sb_inodestart x) (sb_bmapstart x).
Definition set_sb_size (v : Z) (x : superblock) : superblock :=
  Superblock (sb_magic x) v (sb_nblocks x) (sb_ninodes x) (sb_nlog x) (sb_logstart x)
    (sb_inodestart x) (sb_bmapstart x).
Definition set_sb_nblocks (v : Z) (x : superblock) : superblock :=
  Superblock (sb_magic x) (sb_size x) v (sb_ninodes x) (sb_nlog x) (sb_logstart x) (sb_inodestart x)
    (sb_bmapstart x).
Definition set_sb_ninodes (v : Z) (x : superblock) : superblock :=
  Superblock (sb_magic x) (sb_size x) (sb_nblocks x) v (sb_nlog x) (sb_logstart x) (sb_inodestart x)
    (sb_bmapstart x).
Definition set_sb_nlog (v : Z) (x : superblock) : superblock :=
  Superblock (sb_magic x) (sb_size x) (sb_nblocks x) (sb_ninodes x) v (sb_logstart x)
    (sb_inodestart x) (sb_bmapstart x).
Definition set_sb_logstart (v : Z) (x : superblock) : superblock :=
  Superblock (sb_magic x) (sb_size x) (sb_nblocks x) (sb_ninodes x) (sb_nlog x) v (sb_inodestart x)
    (sb_bmapstart x).
Definition set_sb_inodestart (v : Z) (x : superblock) : superblock :=
  Superblock (sb_magic x) (sb_size x) (sb_nblocks x) (sb_ninodes x) (sb_nlog x) (sb_logstart x) v
    (sb_bmapstart x).
Definition set_sb_bmapstart (v : Z) (x : superblock) : superblock :=
  Superblock (sb_magic x) (sb_size x) (sb_nblocks x) (sb_ninodes x) (sb_nlog x) (sb_logstart x)
    (sb_inodestart x) v.
(** struct dinode *)
Record dinode := Dinode {
  d_type : Z;
  d_major : Z;
  d_minor : Z;
  d_nlink : Z;
  d_size : Z;
  d_addrs : list Z;
}.

Definition set_d_type (v : Z) (x : dinode) : dinode :=
  Dinode v (d_major x) (d_minor x) (d_nlink x) (d_size x) (d_addrs x).
Definition set_d_major (v : Z) (x : dinode) : dinode :=
  Dinode (d_type x) v (d_minor x) (d_nlink x) (d_size x) (d_addrs x).
Definition set_d_minor (v : Z) (x : dinode) : dinode :=
  Dinode (d_type x) (d_major x) v (d_nlink x) (d_size x) (d_addrs x).
Definition set_d_nlink (v : Z) (x : dinode) : dinode :=
  Dinode (d_type x) (d_major x) (d_minor x) v (d_size x) (d_addrs x).
Definition set_d_size (v : Z) (x : dinode) : dinode :=
  Dinode (d_type x) (d_major x) (d_minor x) (d_nlink x) v (d_addrs x).
Definition set_d_addrs (v : list Z) (x : dinode) : dinode :=
  Dinode (d_type x) (d_major x) (d_minor x) (d_nlink x) (d_size x) v.
(** struct inode *)
Record inode := Inode {
  i_dev : Z;
  i_inum : Z;
  i_ref : Z;
  i_lock : sleeplock;
  i_valid : Z;
  i_type : Z;
  i_major : Z;
  i_minor : Z;
  i_nlink : Z;
  i_size : Z;
  i_addrs : list Z;
}.

Definition set_i_dev (v : Z) (x : inode) : inode :=
  Inode v (i_inum x) (i_ref x) (i_lock x) (i_valid x) (i_type x) (i_major x) (i_minor x) (i_nlink x)
    (i_size x) (i_addrs x).
Definition set_i_inum (v : Z) (x : inode) : inode :=
  Inode (i_dev x) v (i_ref x) (i_lock x) (i_valid x) (i_type x) (i_major x) (i_minor x) (i_nlink x)
    (i_size x) (i_addrs x).
Definition set_i_ref (v : Z) (x : inode) : inode :=
  Inode (i_dev x) (i_inum x) v (i_lock x) (i_valid x) (i_type x) (i_major x) (i_minor x) (i_nlink x)
    (i_size x) (i_addrs x).
Definition set_i_lock (v : sleeplock) (x : inode) : inode :=
  Inode (i_dev x) (i_inum x) (i_ref x) v (i_valid x) (i_type x) (i_major x) (i_minor x) (i_nlink x)
    (i_size x) (i_addrs x).
Definition set_i_valid (v : Z) (x : inode) : inode :=
  Inode (i_dev x) (i_inum x) (i_ref x) (i_lock x) v (i_type x) (i_major x) (i_minor x) (i_nlink x)
    (i_size x) (i_addrs x).
Definition set_i_type (v : Z) (x : inode) : inode :=
  Inode (i_dev x) (i_inum x) (i_ref x) (i_lock x) (i_valid x) v (i_major x) (i_minor x) (i_nlink x)
    (i_size x) (i_addrs x).
Definition set_i_major (v : Z) (x : inode) : inode :=
  Inode (i_dev x) (i_inum x) (i_ref x) (i_lock x) (i_valid x) (i_type x) v (i_minor x) (i_nlink x)
    (i_size x) (i_addrs x).
Definition set_i_minor (v : Z) (x : inode) : inode :=
  Inode (i_dev x) (i_inum x) (i_ref x) (i_lock x) (i_valid x) (i_type x) (i_major x) v (i_nlink x)
    (i_size x) (i_addrs x).
Definition set_i_nlink (v : Z) (x : inode) : inode :=
  Inode (i_dev x) (i_inum x) (i_ref x) (i_lock x) (i_valid x) (i_type x) (i_major x) (i_minor x) v
    (i_size x) (i_addrs x).
Definition set_i_size (v : Z) (x : inode) : inode :=
  Inode (i_dev x) (i_inum x) (i_ref x) (i_lock x) (i_valid x) (i_type x) (i_major x) (i_minor x)
    (i_nlink x) v (i_addrs x).
Definition set_i_addrs (v : list Z) (x : inode) : inode :=
  Inode (i_dev x) (i_inum x) (i_ref x) (i_lock x) (i_valid x) (i_type x) (i_major x) (i_minor x)
    (i_nlink x) (i_size x) v.

Definition zero_inode : inode := Inode 0 0 0 zero_sleeplock 0 0 0 0 0 0 (replicate 13 0).

Inductive fdtype := FD_NONE | FD_PIPE | FD_INODE | FD_DEVICE.

#[export] Instance fdtype_eq_dec : EqDecision fdtype.
Proof. solve_decision. Defined.

(** struct file *)
Record file := File {
  f_type : fdtype;
  f_ref : Z;
  f_readable : Z;
  f_writable : Z;
  f_pipe : Z;
  f_ip : option nat;
  f_off : Z;
  f_major : Z;
}.

Definition set_f_type (v : fdtype) (x : file) : file :=
  File v (f_ref x) (f_readable x) (f_writable x) (f_pipe x) (f_ip x) (f_off x) (f_major x).
Definition set_f_ref (v : Z) (x : file) : file :=
  File (f_type x) v (f_readable x) (f_writable x) (f_pipe x) (f_ip x) (f_off x) (f_major x).
Definition set_f_readable (v : Z) (x : file) : file :=
  File (f_type x) (f_ref x) v (f_writable x) (f_pipe x) (f_ip x) (f_off x) (f_major x).
Definition set_f_writable (v : Z) (x : file) : file :=
  File (f_type x) (f_ref x) (f_readable x) v (f_pipe x) (f_ip x) (f_off x) (f_major x).
Definition set_f_pipe (v : Z) (x : file) : file :=
  File (f_type x) (f_ref x) (f_readable x) (f_writable x) v (f_ip x) (f_off x) (f_major x).
Definition set_f_ip (v : option nat) (x : file) : file :=
  File (f_type x) (f_ref x) (f_readable x) (f_writable x) (f_pipe x) v (f_off x) (f_major x).
Definition set_f_off (v : Z) (x : file) : file :=
  File (f_type x) (f_ref x) (f_readable x) (f_writable x) (f_pipe x) (f_ip x) v (f_major x).
Definition set_f_major (v : Z) (x : file) : file :=
  File (f_type x) (f_ref x) (f_readable x) (f_writable x) (f_pipe x) (f_ip x) (f_off x) v.

Definition zero_file : file := File FD_NONE 0 0 0 0 None 0 0.

Definition PIPESIZE : Z := 512.

(** struct pipe *)
Record pipe := Pipe {
  pi_data : list Z;
  pi_nread : Z;
  pi_nwrite : Z;
  pi_readopen : Z;
  pi_writeopen : Z;
}.

Definition set_pi_data (v : list Z) (x : pipe) : pipe :=
  Pipe v (pi_nread x) (pi_nwrite x) (pi_readopen x) (pi_writeopen x).
Definition set_pi_nread (v : Z) (x : pipe) : pipe :=
  Pipe (pi_data x) v (pi_nwrite x) (pi_readopen x) (pi_writeopen x).
Definition set_pi_nwrite (v : Z) (x : pipe) : pipe :=
  Pipe (pi_data x) (pi_nread x) v (pi_readopen x) (pi_writeopen x).
Definition set_pi_readopen (v : Z) (x : pipe) : pipe :=
  Pipe (pi_data x) (pi_nread x) (pi_nwrite x) v (pi_writeopen x).
Definition set_pi_writeopen (v : Z) (x : pipe) : pipe :=
  Pipe (pi_data x) (pi_nread x) (pi_nwrite x) (pi_readopen x) v.

(** ** Console and UART *)

Definition INPUT_BUF : Z := 128.
Definition UART_TX_BUF_SIZE : Z := 32.

(** the struct cons of console.c *)
Record cons_t := Cons {
  c_buf : list Z;
  c_r : Z;
  c_w : Z;
  c_e : Z;
}.

Definition set_c_buf (v : list Z) (x : cons_t) : cons_t :=
  Cons v (c_r x) (c_w x) (c_e x).
Definition set_c_r (v : Z) (x : cons_t) : cons_t :=
  Cons (c_buf x) v (c_w x) (c_e x).
Definition set_c_w (v : Z) (x : cons_t) : cons_t :=
  Cons (c_buf x) (c_r x) v (c_e x).
Definition set_c_e (v : Z) (x : cons_t) : cons_t :=
  Cons (c_buf x) (c_r x) (c_w x) v.
(** The transmit buffer of uart.c, and the device as its registers show it: [u_idle] is
    what the next reads of the LSR_TX_IDLE bit return (busy when used up), [u_rx] the
    input bytes waiting in RHR. *)
Record uart_t := Uart {
  u_tx_buf : list Z;
  u_tx_w : Z;
  u_tx_r : Z;
  u_idle : list bool;
  u_rx : list Z;
}.

Definition set_u_tx_buf (v : list Z) (x : uart_t) : uart_t :=
  Uart v (u_tx_w x) (u_tx_r x) (u_idle x) (u_rx x).
Definition set_u_tx_w (v : Z) (x : uart_t) : uart_t :=
  Uart (u_tx_buf x) v (u_tx_r x) (u_idle x) (u_rx x).
Definition set_u_tx_r (v : Z) (x : uart_t) : uart_t :=
  Uart (u_tx_buf x) (u_tx_w x) v (u_idle x) (u_rx x).
Definition set_u_idle (v : list bool) (x : uart_t) : uart_t :=
  Uart (u_tx_buf x) (u_tx_w x) (u_tx_r x) v (u_rx x).
Definition set_u_rx (v : list Z) (x : uart_t) : uart_t :=
  Uart (u_tx_buf x) (u_tx_w x) (u_tx_r x) (u_idle x) v.

(** ** Disk driver *)

Definition NUM : nat := 8.

(** The address in a descriptor: of an ops[] header, of the data of a buffer, of
    the status byte of an info[] entry. *)
Inductive daddr := A_none | A_ops (i : nat) | A_data (b : nat) | A_status (i : nat).

#[export] Instance daddr_eq_dec : EqDecision daddr.
Proof. solve_decision. Defined.

(** struct virtq_desc *)
Record virtq_desc := Desc {
  vd_addr : daddr;
  vd_len : Z;
  vd_flags : Z;
  vd_next : Z;
}.

Definition set_vd_addr (v : daddr) (x : virtq_desc) : virtq_desc :=
  Desc v (vd_len x) (vd_flags x) (vd_next x).
Definition set_vd_len (v : Z) (x : virtq_desc) : virtq_desc :=
  Desc (vd_addr x) v (vd_flags x) (vd_next x).
Definition set_vd_flags (v : Z) (x : virtq_desc) : virtq_desc :=
  Desc (vd_addr x) (vd_len x) v (vd_next x).
Definition set_vd_next (v : Z) (x : virtq_desc) : virtq_desc :=
  Desc (vd_addr x) (vd_len x) (vd_flags x) v.
(** struct virtio_blk_req *)
Record virtio_blk_req := BlkReq {
  vr_type : Z;
  vr_reserved : Z;
  vr_sector : Z;
}.

Definition set_vr_type (v : Z) (x : virtio_blk_req) : virtio_blk_req :=
  BlkReq v (vr_reserved x) (vr_sector x).
Definition set_vr_reserved (v : Z) (x : virtio_blk_req) : virtio_blk_req :=
  BlkReq (vr_type x) v (vr_sector x).
Definition set_vr_sector (v : Z) (x : virtio_blk_req) : virtio_blk_req :=
  BlkReq (vr_type x) (vr_reserved x) v.
(** struct disk: the rings shared with the device ([d_used_idx] and [d_used_ring] are
    written by the device; only the id of a used element is read) and the driver's own
    book-keeping ([d_seen_idx] is the field used_idx). *)
Record disk_t := Disk {
  d_desc : list virtq_desc;
  d_avail_idx : Z;
  d_avail_ring : list Z;
  d_used_idx : Z;
  d_used_ring : list Z;
  d_free : list bool;
  d_seen_idx : Z;
  d_info_b : list (option nat);
  d_info_status : list Z;
  d_ops : list virtio_blk_req;
}.

Definition set_d_desc (v : list virtq_desc) (x : disk_t) : disk_t :=
  Disk v (d_avail_idx x) (d_avail_ring x) (d_used_idx x) (d_used_ring x) (d_free x) (d_seen_idx x)
    (d_info_b x) (d_info_status x) (d_ops x).
Definition set_d_avail_idx (v : Z) (x : disk_t) : disk_t :=
  Disk (d_desc x) v (d_avail_ring x) (d_used_idx x) (d_used_ring x) (d_free x) (d_seen_idx x)
    (d_info_b x) (d_info_status x) (d_ops x).
Definition set_d_avail_ring (v : list Z) (x : disk_t) : disk_t :=
  Disk (d_desc x) (d_avail_idx x) v (d_used_idx x) (d_used_ring x) (d_free x) (d_seen_idx x)
    (d_info_b x) (d_info_status x) (d_ops x).
Definition set_d_used_idx (v : Z) (x : disk_t) : disk_t :=
  Disk (d_desc x) (d_avail_idx x) (d_avail_ring x) v (d_used_ring x) (d_free x) (d_seen_idx x)
    (d_info_b x) (d_info_status x) (d_ops x).
Definition set_d_used_ring (v : list Z) (x : disk_t) : disk_t :=
  Disk (d_desc x) (d_avail_idx x) (d_avail_ring x) (d_used_idx x) v (d_free x) (d_seen_idx x)
    (d_info_b x) (d_info_status x) (d_ops x).
Definition set_d_free (v : list bool) (x : disk_t) : disk_t :=
  Disk (d_desc x) (d_avail_idx x) (d_avail_ring x) (d_used_idx x) (d_used_ring x) v (d_seen_idx x)
    (d_info_b x) (d_info_status x) (d_ops x).
Definition set_d_seen_idx (v : Z) (x : disk_t) : disk_t :=
  Disk (d_desc x) (d_avail_idx x) (d_avail_ring x) (d_used_idx x) (d_used_ring x) (d_free x) v
    (d_info_b x) (d_info_status x) (d_ops x).
Definition set_d_info_b (v : list (option nat)) (x : disk_t) : disk_t :=
  Disk (d_desc x) (d_avail_idx x) (d_avail_ring x) (d_used_idx x) (d_used_ring x) (d_free x)
    (d_seen_idx x) v (d_info_status x) (d_ops x).
Definition set_d_info_status (v : list Z) (x : disk_t) : disk_t :=
  Disk (d_desc x) (d_avail_idx x) (d_avail_ring x) (d_used_idx x) (d_used_ring x) (d_free x)
    (d_seen_idx x) (d_info_b x) v (d_ops x).
Definition set_d_ops (v : list virtio_blk_req) (x : disk_t) : disk_t :=
  Disk (d_desc x) (d_avail_idx x) (d_avail_ring x) (d_used_idx x) (d_used_ring x) (d_free x)
    (d_seen_idx x) (d_info_b x) (d_info_status x) v.

(** ** All global variables *)

Record kernel := Kernel {
  k_pm : pm;
  k_tty : tty;
  k_proc : list proc;
  k_initproc : option nat;
  k_mlfq : list Queue;
  k_nextpid : Z;
  k_alpha : Z;
  k_ticks : Z;
  k_first : bool;
  k_bcache : bcache;
  k_log : log_t;
  k_sb : superblock;
  k_inode : list inode;
  k_file : list file;
  k_pipe : gmap Z pipe;
  k_cons : cons_t;
  k_uart : uart_t;
  k_disk : disk_t;
}.

Definition set_k_pm (v : pm) (x : kernel) : kernel :=
  Kernel v (k_tty x) (k_proc x) (k_initproc x) (k_mlfq x) (k_nextpid x) (k_alpha x) (k_ticks x)
    (k_first x) (k_bcache x) (k_log x) (k_sb x) (k_inode x) (k_file x) (k_pipe x) (k_cons x)
    (k_uart x) (k_disk x).
Definition set_k_tty (v : tty) (x : kernel) : kernel :=
  Kernel (k_pm x) v (k_proc x) (k_initproc x) (k_mlfq x) (k_nextpid x) (k_alpha x) (k_ticks x)
    (k_first x) (k_bcache x) (k_log x) (k_sb x) (k_inode x) (k_file x) (k_pipe x) (k_cons x)
    (k_uart x) (k_disk x).
Definition set_k_proc (v : list proc) (x : kernel) : kernel :=
  Kernel (k_pm x) (k_tty x) v (k_initproc x) (k_mlfq x) (k_nextpid x) (k_alpha x) (k_ticks x)
    (k_first x) (k_bcache x) (k_log x) (k_sb x) (k_inode x) (k_file x) (k_pipe x) (k_cons x)
    (k_uart x) (k_disk x).
Definition set_k_initproc (v : option nat) (x : kernel) : kernel :=
  Kernel (k_pm x) (k_tty x) (k_proc x) v (k_mlfq x) (k_nextpid x) (k_alpha x) (k_ticks x)
    (k_first x) (k_bcache x) (k_log x) (k_sb x) (k_inode x) (k_file x) (k_pipe x) (k_cons x)
    (k_uart x) (k_disk x).
Definition set_k_mlfq (v : list Queue) (x : kernel) : kernel :=
  Kernel (k_pm x) (k_tty x) (k_proc x) (k_initproc x) v (k_nextpid x) (k_alpha x) (k_ticks x)
    (k_first x) (k_bcache x) (k_log x) (k_sb x) (k_inode x) (k_file x) (k_pipe x) (k_cons x)
    (k_uart x) (k_disk x).
Definition set_k_nextpid (v : Z) (x : kernel) : kernel :=
  Kernel (k_pm x) (k_tty x) (k_proc x) (k_initproc x) (k_mlfq x) v (k_alpha x) (k_ticks x)
    (k_first x) (k_bcache x) (k_log x) (k_sb x) (k_inode x) (k_file x) (k_pipe x) (k_cons x)
    (k_uart x) (k_disk x).
Definition set_k_alpha (v : Z) (x : kernel) : kernel :=
  Kernel (k_pm x) (k_tty x) (k_proc x) (k_initproc x) (k_mlfq x) (k_nextpid x) v (k_ticks x)
    (k_first x) (k_bcache x) (k_log x) (k_sb x) (k_inode x) (k_file x) (k_pipe x) (k_cons x)
    (k_uart x) (k_disk x).
Definition set_k_ticks (v : Z) (x : kernel) : kernel :=
  Kernel (k_pm x) (k_tty x) (k_proc x) (k_initproc x) (k_mlfq x) (k_nextpid x) (k_alpha x) v
    (k_first x) (k_bcache x) (k_log x) (k_sb x) (k_inode x) (k_file x) (k_pipe x) (k_cons x)
    (k_uart x) (k_disk x).
Definition set_k_first (v : bool) (x : kernel) : kernel :=
  Kernel (k_pm x) (k_tty x) (k_proc x) (k_initproc x) (k_mlfq x) (k_nextpid x) (k_alpha x)
    (k_ticks x) v (k_bcache x) (k_log x) (k_sb x) (k_inode x) (k_file x) (k_pipe x) (k_cons x)
    (k_uart x) (k_disk x).
Definition set_k_bcache (v : bcache) (x : kernel) : kernel :=
  Kernel (k_pm x) (k_tty x) (k_proc x) (k_initproc x) (k_mlfq x) (k_nextpid x) (k_alpha x)
    (k_ticks x) (k_first x) v (k_log x) (k_sb x) (k_inode x) (k_file x) (k_pipe x) (k_cons x)
    (k_uart x) (k_disk x).
Definition set_k_log (v : log_t) (x : kernel) : kernel :=
  Kernel (k_pm x) (k_tty x) (k_proc x) (k_initproc x) (k_mlfq x) (k_nextpid x) (k_alpha x)
    (k_ticks x) (k_first x) (k_bcache x) v (k_sb x) (k_inode x) (k_file x) (k_pipe x) (k_cons x)
    (k_uart x) (k_disk x).
Definition set_k_sb (v : superblock) (x : kernel) : kernel :=
  Kernel (k_pm x) (k_tty x) (k_proc x) (k_initproc x) (k_mlfq x) (k_nextpid x) (k_alpha x)
    (k_ticks x) (k_first x) (k_bcache x) (k_log x) v (k_inode x) (k_file x) (k_pipe x) (k_cons x)
    (k_uart x) (k_disk x).
Definition set_k_inode (v : list inode) (x : kernel) : kernel :=
  Kernel (k_pm x) (k_tty x) (k_proc x) (k_initproc x) (k_mlfq x) (k_nextpid x) (k_alpha x)
    (k_ticks x) (k_first x) (k_bcache x) (k_log x) (k_sb x) v (k_file x) (k_pipe x) (k_cons x)
    (k_uart x) (k_disk x).
Definition set_k_file (v : list file) (x : kernel) : kernel :=
  Kernel (k_pm x) (k_tty x) (k_proc x) (k_initproc x) (k_mlfq x) (k_nextpid x) (k_alpha x)
    (k_ticks x) (k_first x) (k_bcache x) (k_log x) (k_sb x) (k_inode x) v (k_pipe x) (k_cons x)
    (k_uart x) (k_disk x).
Definition set_k_pipe (v : gmap Z pipe) (x : kernel) : kernel :=
  Kernel (k_pm x) (k_tty x) (k_proc x) (k_initproc x) (k_mlfq x) (k_nextpid x) (k_alpha x)
    (k_ticks x) (k_first x) (k_bcache x) (k_log x) (k_sb x) (k_inode x) (k_file x) v (k_cons x)
    (k_uart x) (k_disk x).
Definition set_k_cons (v : cons_t) (x : kernel) : kernel :=
  Kernel (k_pm x) (k_tty x) (k_proc x) (k_initproc x) (k_mlfq x) (k_nextpid x) (k_alpha x)
    (k_ticks x) (k_first x) (k_bcache x) (k_log x) (k_sb x) (k_inode x) (k_file x) (k_pipe x) v
    (k_uart x) (k_disk x).
Definition set_k_uart (v : uart_t) (x : kernel) : kernel :=
  Kernel (k_pm x) (k_tty x) (k_proc x) (k_initproc x) (k_mlfq x) (k_nextpid x) (k_alpha x)
    (k_ticks x) (k_first x) (k_bcache x) (k_log x) (k_sb x) (k_inode x) (k_file x) (k_pipe x)
    (k_cons x) v (k_disk x).
Definition set_k_disk (v : disk_t) (x : kernel) : kernel :=
  Kernel (k_pm x) (k_tty x) (k_proc x) (k_initproc x) (k_mlfq x) (k_nextpid x) (k_alpha x)
    (k_ticks x) (k_first x) (k_bcache x) (k_log x) (k_sb x) (k_inode x) (k_file x) (k_pipe x)
    (k_cons x) (k_uart x) v.

(** ** Access to the components

    A table index is a pointer that the code obtained from the table, so it is in
    range; reading out of range has no behaviour. *)

Section access.
Implicit Types (s : kernel).

Definition in_pm {A} : K pm A -> K kernel A := zoom k_pm set_k_pm.
Definition in_tty {A} : K tty A -> K kernel A := zoom k_tty set_k_tty.
Definition in_mlfq {A} (level : nat) : K Queue A -> K kernel A :=
  zoom (fun s => default empty_queue (k_mlfq s !! level))
       (fun q s => set_k_mlfq (<[level := q]> (k_mlfq s)) s).

Definition pget {A} (i : nat) (f : proc -> A) : K kernel A :=
  p <- gets (fun s => k_proc s !! i);; p <- deref p;; ret (f p).
Definition pset (i : nat) (f : proc -> proc) : K kernel unit :=
  modify (fun s => set_k_proc (alter f i (k_proc s)) s).

Definition buf_get {A} (b : nat) (f : buf_t -> A) : K kernel A :=
  x <- gets (fun s => bc_buf (k_bcache s) !! b);; x <- deref x;; ret (f x).
Definition buf_set (b : nat) (f : buf_t -> buf_t) : K kernel unit :=
  modify (fun s => set_k_bcache (set_bc_buf (alter f b (bc_buf (k_bcache s))) (k_bcache s)) s).

Definition inode_get {A} (i : nat) (f : inode -> A) : K kernel A :=
  x <- gets (fun s => k_inode s !! i);; x <- deref x;; ret (f x).
Definition inode_set (i : nat) (f : inode -> inode) : K kernel unit :=
  modify (fun s => set_k_inode (alter f i (k_inode s)) s).

Definition file_get {A} (i : nat) (f : file -> A) : K kernel A :=
  x <- gets (fun s => k_file s !! i);; x <- deref x;; ret (f x).
Definition file_set (i : nat) (f : file -> file) : K kernel unit :=
  modify (fun s => set_k_file (alter f i (k_file s)) s).

Definition pipe_get {A} (pi : Z) (f : pipe -> A) : K kernel A :=
  x <- gets (fun s => k_pipe s !! pi);; x <- deref x;; ret (f x).
Definition pipe_set (pi : Z) (f : pipe -> pipe) : K kernel unit :=
  modify (fun s => set_k_pipe (alter f pi (k_pipe s)) s).

Definition log_get {A} (f : log_t -> A) : K kernel A := gets (fun s => f (k_log s)).
Definition log_set (f : log_t -> log_t) : K kernel unit :=
  modify (fun s => set_k_log (f (k_log s)) s).
Definition cons_get {A} (f : cons_t -> A) : K kernel A := gets (fun s => f (k_cons s)).
Definition cons_set (f : cons_t -> cons_t) : K kernel unit :=
  modify (fun s => set_k_cons (f (k_cons s)) s).
Definition uart_get {A} (f : uart_t -> A) : K kernel A := gets (fun s => f (k_uart s)).
Definition uart_set (f : uart_t -> uart_t) : K kernel unit :=
  modify (fun s => set_k_uart (f (k_uart s)) s).
Definition disk_get {A} (f : disk_t -> A) : K kernel A := gets (fun s => f (k_disk s)).
Definition disk_set (f : disk_t -> disk_t) : K kernel unit :=
  modify (fun s => set_k_disk (f (k_disk s)) s).

Definition kprintf (fmt : string) (ap : list va) : K kernel unit := in_tty (printf fmt ap).

(** The bytes of a char array up to its NUL. *)
Fixpoint cstr (l : list Z) : list Z :=
  match l with [] => [] | c :: l => if c =? 0 then [] else c :: cstr l end.

End access.
