(* ===== verification/Discipline.v ===== *)
(** * Discipline

    A discipline for kernel code, as a relation between a computation and the lock
    context of the hart that runs it: which spin locks it holds, how deep it is in
    push_off, whether interrupts are on. [tri Σ a m Q] says that [m], started in
    context [a] in a state that satisfies the invariant of [Σ], on every path either
    stops (panic, or a waiting loop that used up its bound), or returns with context
    and result in [Q], the invariant again, and a state that the code of this process
    may reach by [sp_run Σ]; and that whenever it gives up the CPU it holds exactly the
    lock of its process, one level deep, with the invariant established and the state
    changed as [sp_leave Σ] allows, and continues correctly from every state in which
    the invariant and [sp_enter Σ] hold. *)
From stdpp Require Import base tactics list numbers gmap strings.
From S2P Require Import Prelude Machine Spinlock Kernel.

(** ** Lock contexts *)

Record lctx := LCtx {
  lc_held : list lockid;
  lc_noff : Z;
  lc_proc : option nat;
  lc_sie : bool;
  lc_intena : bool;
}.

(** What the hart's registers say; outside push_off the saved [intena] is what
    push_off would store. *)
Definition abs (h : hart) : lctx :=
  LCtx (h_held h) (h_noff h) (h_proc h) (h_sie h) (if h_noff h =? 0 then h_sie h else h_intena h).

(** Inside one more lock. *)
Definition acq (lk : lockid) (a : lctx) : lctx :=
  LCtx (lk :: lc_held a) (lc_noff a + 1) (lc_proc a) false (lc_intena a).

Record lctx_wf (a : lctx) : Prop := {
  lw_noff : Z.of_nat (length (lc_held a)) <= lc_noff a;
  lw_sie : 0 < lc_noff a -> lc_sie a = false;
  lw_intena : lc_noff a = 0 -> lc_intena a = lc_sie a;
}.

Lemma abs_wf h : hart_wf h -> lctx_wf (abs h).
Proof.
  intros [H1 H2 _]. constructor; simpl; auto. intros ->. done.
Qed.

Lemma acq_wf lk a : lctx_wf a -> lctx_wf (acq lk a).
Proof. intros [H1 H2 H3]. constructor; simpl; [lia|done|lia]. Qed.

#[export] Hint Resolve abs_wf acq_wf : xv6.

(** The context at which sched() and scheduler() switch. *)
Definition at_switch (p : nat) (h : hart) : Prop :=
  h_proc h = Some p /\ h_held h = [L_proc p] /\ h_noff h = 1 /\ h_sie h = false.

(** ** Specifications

    What is promised of every stretch of code: [sp_run Σ q] relates the states before
    and after code that the process [q] runs ([None] in the scheduler), [sp_leave Σ p]
    those before it and at the switch of process [p], and [sp_enter Σ p] is what [p]
    finds when it is resumed. *)
Record spec (S : Type) := Spec {
  sp_inv : S -> Prop;
  sp_run : option nat -> S -> S -> Prop;
  sp_leave : nat -> S -> S -> Prop;
  sp_enter : nat -> S -> Prop;
  sp_refl : forall q s, sp_run q s s;
  sp_trans : forall q s1 s2 s3, sp_run q s1 s2 -> sp_run q s2 s3 -> sp_run q s1 s3;
  sp_run_leave : forall q p s1 s2 s3, sp_run q s1 s2 -> sp_leave p s2 s3 -> sp_leave p s1 s3;
}.
Arguments sp_inv {_} _ _.
Arguments sp_run {_} _ _ _ _.
Arguments sp_leave {_} _ _ _ _.
Arguments sp_enter {_} _ _ _.
Arguments sp_refl {_}.
Arguments sp_trans {_}.
Arguments sp_run_leave {_}.

(** Nothing but the locks, and no switch. *)
Definition quiet {S} : spec S :=
  Spec S (fun _ => True) (fun _ _ _ => True) (fun _ _ _ => False) (fun _ _ => True)
    (fun _ _ => I) (fun _ _ _ _ _ _ => I) (fun _ _ _ _ _ _ H => H).

(** A context that a computation may go on in: the same process. *)
Definition lctx_ext (a c : lctx) : Prop := lctx_wf c /\ lc_proc c = lc_proc a.

Lemma ext_refl a : lctx_wf a -> lctx_ext a a.
Proof. done. Qed.
Lemma ext_acq lk a : lctx_wf a -> lctx_ext a (acq lk a).
Proof. split; [by apply acq_wf|done]. Qed.
Lemma ext_acq_same lk a : lctx_wf a -> lctx_ext (acq lk a) (acq lk a).
Proof. split; [by apply acq_wf|done]. Qed.
Lemma ext_release lk a : lctx_wf a -> lctx_ext (acq lk a) a.
Proof. done. Qed.
#[export] Hint Resolve ext_refl ext_acq ext_acq_same ext_release : xv6.

Section tri.
Context {S : Type} (Σ : spec S).

Fixpoint wpo {A} (q : option nat) (s0 : S) (o : outcome S A) (Q : A -> lctx -> Prop) : Prop :=
  match o with
  | Done x h s => Q x (abs h) /\ sp_inv Σ s /\ sp_run Σ q s0 s
  | Panic _ | NoFuel => True
  | Switch h s k =>
      sp_inv Σ s /\ exists p, at_switch p h /\ (q = None \/ q = Some p) /\ sp_leave Σ p s0 s /\
        forall h' s', at_switch p h' -> sp_inv Σ s' -> sp_enter Σ p s' -> wpo q s' (k h' s') Q
  end.

Definition tri {A} (a : lctx) (m : K S A) (Q : A -> lctx -> Prop) : Prop :=
  lctx_wf a -> forall h s, abs h = a -> sp_inv Σ s -> wpo (lc_proc a) s (m h s) Q.

(** Every path returns with the context it started in. *)
Definition bal {A} (m : K S A) : Prop := forall a, tri a m (fun _ c => c = a).

Lemma wpo_mono {A} q s0 (o : outcome S A) (Q Q' : A -> lctx -> Prop) :
  (forall x c, Q x c -> Q' x c) -> wpo q s0 o Q -> wpo q s0 o Q'.
Proof.
  intros HQ. revert s0. induction o as [x h s| |h s k IH|]; intros s0; simpl; auto.
  - intros (? & ? & ?). auto.
  - intros [Hs (p & Hp & Hq' & Hl & Hk)]. split; [done|]. exists p. split_and!; [done..|]. intros. by apply IH, Hk.
Qed.

Lemma wpo_run {A} q s0 s1 (o : outcome S A) (Q : A -> lctx -> Prop) :
  sp_run Σ q s0 s1 -> wpo q s1 o Q -> wpo q s0 o Q.
Proof.
  intros Hr. destruct o as [x h s| |h s k|]; simpl; auto.
  - intros (? & ? & ?). split_and!; auto. by eapply sp_trans.
  - intros [Hs (p & Hp & Hq' & Hl & Hk)]. split; [done|]. exists p. split_and!; auto. by eapply sp_run_leave.
Qed.

Lemma wpo_obind {A B} q s0 (o : outcome S A) (f : A -> K S B) (Q : B -> lctx -> Prop) :
  wpo q s0 o (fun x c => lctx_wf c /\ lc_proc c = q /\ tri c (f x) Q) -> wpo q s0 (obind f o) Q.
Proof.
  revert s0. induction o as [x h s| |h s k IH|]; intros s0; simpl; auto.
  - intros [(Hw & Hq & Ht) [Hs Hr]]. eapply wpo_run; [exact Hr|]. rewrite <-Hq. by apply Ht.
  - intros [Hs (p & Hp & Hq' & Hl & Hk)]. split; [done|]. exists p. split_and!; [done..|]. intros. by apply IH, Hk.
Qed.

Section rules.
Context {A B : Type}.
Implicit Types (a : lctx) (m : K S A) (Q : A -> lctx -> Prop).

Lemma tri_conseq a m Q Q' : (forall x c, Q x c -> Q' x c) -> tri a m Q -> tri a m Q'.
Proof. intros HQ Ht Hw h s Hh Hs. eapply wpo_mono; [exact HQ|]. by apply Ht. Qed.

Lemma tri_bind a m (f : A -> K S B) Q (R : B -> lctx -> Prop) :
  tri a m Q -> (forall x c, Q x c -> lctx_ext a c /\ tri c (f x) R) -> tri a (bind m f) R.
Proof.
  intros Hm Hf Hw h s Hh Hs. apply wpo_obind. eapply wpo_mono; [|by apply Hm].
  intros x c Hx. destruct (Hf x c Hx) as [[? ?] ?]. auto.
Qed.

Lemma tri_bal a m (f : A -> K S B) (R : B -> lctx -> Prop) :
  bal m -> (forall x, tri a (f x) R) -> tri a (bind m f) R.
Proof.
  intros Hm Hf Hw. eapply tri_bind; [apply Hm| |done]. intros x c ->. auto with xv6.
Qed.

Lemma tri_ret a (x : A) (Q : A -> lctx -> Prop) : Q x a -> tri a (ret x) Q.
Proof. intros HQ Hw h s <- Hs. simpl. auto using sp_refl. Qed.

Lemma tri_panic a msg Q : tri a (panic msg) Q.
Proof. intros Hw h s _ _. done. Qed.

Lemma tri_nofuel a Q : tri a nofuel Q.
Proof. intros Hw h s _ _. done. Qed.

Lemma tri_gets a (f : S -> A) (g : A -> K S B) (R : B -> lctx -> Prop) :
  (forall s, sp_inv Σ s -> tri a (g (f s)) R) -> tri a (bind (gets f) g) R.
Proof. intros Hg Hw h s Hh Hs. unfold bind. simpl. by apply Hg. Qed.

Lemma tri_modify a (f : S -> S) :
  (forall s, sp_inv Σ s -> sp_inv Σ (f s) /\ sp_run Σ (lc_proc a) s (f s)) -> tri a (modify f) (fun _ c => c = a).
Proof. intros Hf Hw h s <- Hs. simpl. auto. Qed.

Lemma tri_deref a (o : option A) (g : A -> K S B) (R : B -> lctx -> Prop) :
  (forall x, o = Some x -> tri a (g x) R) -> tri a (bind (deref o) g) R.
Proof. intros Hg Hw h s Hh Hs. destruct o as [x|]; [|done]. by apply (Hg x). Qed.

Lemma tri_assoc {C} a m (f : A -> K S B) (g : B -> K S C) (R : C -> lctx -> Prop) :
  tri a (bind m (fun x => bind (f x) g)) R -> tri a (bind (bind m f) g) R.
Proof. intros Ht Hw h s Hh Hs. rewrite bind_assoc. by apply Ht. Qed.

End rules.

(** ** Locks *)

Lemma abs_settle h : abs (settle h) = abs h.
Proof. unfold abs, settle. destruct (h_noff h =? 0) eqn:E; simpl; by rewrite ?E. Qed.

Lemma abs_locked lk h : lctx_wf (abs h) -> abs (locked lk h) = acq lk (abs h).
Proof.
  intros [Hn _ _]. unfold abs, locked, pushed, acq; simpl in *.
  destruct (Z.eqb_spec (h_noff h + 1) 0); [lia|done].
Qed.

Lemma tri_acquire {B} a lk (f : unit -> K S B) (R : B -> lctx -> Prop) :
  (lk ∉ lc_held a -> tri (acq lk a) (f tt) R) -> tri a (bind (acquire lk) f) R.
Proof.
  intros Hf Hw h s <- Hs. unfold bind. destruct (decide (lk ∈ h_held h)) as [Hin|Hin].
  - by rewrite acquire_reentrant.
  - rewrite acquire_run by done. simpl. apply Hf; auto with xv6. by apply abs_locked.
Qed.

(** release of a lock taken [acq lk a], below the locks [up] taken after it. *)
Fixpoint acqs (up : list lockid) (a : lctx) : lctx :=
  match up with [] => a | lk :: up => acq lk (acqs up a) end.

Lemma acqs_parts up a :
  lc_held (acqs up a) = up ++ lc_held a /\ lc_noff (acqs up a) = lc_noff a + Z.of_nat (length up) /\
  lc_proc (acqs up a) = lc_proc a /\ lc_intena (acqs up a) = lc_intena a /\
  lc_sie (acqs up a) = if decide (up = []) then lc_sie a else false.
Proof.
  induction up as [|lk up (IH1 & IH2 & IH3 & IH4 & IH5)]; simpl.
  - rewrite Z.add_0_r. done.
  - rewrite IH1, IH2, IH3, IH4. split_and!; try done. lia.
Qed.

Lemma lctx_eq a b :
  lc_held a = lc_held b -> lc_noff a = lc_noff b -> lc_proc a = lc_proc b -> lc_sie a = lc_sie b ->
  lc_intena a = lc_intena b -> a = b.
Proof. destruct a, b; simpl. by intros -> -> -> -> ->. Qed.

Lemma release_abs lk up a h (s : S) :
  lctx_wf a -> lk ∉ lc_held a -> lk ∉ up -> abs h = acqs up (acq lk a) ->
  exists h', release lk h s = Done tt h' s /\ abs h' = acqs up a.
Proof.
  intros [Hn Hs Hi] Hna Hnu Eh.
  destruct (acqs_parts up (acq lk a)) as (E1 & E2 & E3 & E4 & E5).
  destruct (acqs_parts up a) as (F1 & F2 & F3 & F4 & F5). rewrite <-Eh in E1, E2, E3, E4, E5. simpl in *.
  assert (Hsie : h_sie h = false) by (rewrite E5; by case_decide).
  assert (Hfil : filter (.≠ lk) (h_held h) = up ++ lc_held a).
  { rewrite E1, filter_app, filter_cons_False by auto. by rewrite !filter_held_notin. }
  assert (Hz : (h_noff h =? 0) = false) by (apply Z.eqb_neq; lia). rewrite Hz in E4.
  eexists. split.
  - unfold release, holding, pop_off, intr_get, intr_on, get_hart, put_hart, bind, when, ret. simpl.
    rewrite bool_decide_eq_true_2 by (rewrite E1; set_solver). simpl. rewrite Hsie, Hfil. simpl.
    destruct (Z.ltb_spec (h_noff h) 1); [lia|].
    instantiate (1 := Hart (h_tp h) (h_proc h) (h_noff h - 1) (h_intena h)
      ((h_noff h - 1 =? 0) && h_intena h) (up ++ lc_held a)).
    unfold set_h_noff, set_h_held, set_h_sie; simpl. rewrite Hsie.
    by destruct ((h_noff h - 1 =? 0) && h_intena h).
  - apply lctx_eq; simpl; rewrite ?F1, ?F2, ?F3, ?F4, ?F5; auto; [lia| |].
    + destruct (Z.eqb_spec (h_noff h - 1) 0) as [E0|E0]; simpl.
      * destruct up as [|l up]; simpl in *; [|lia]. rewrite E4. apply Hi. lia.
      * case_decide as Hup; [|done]. subst up. simpl in *. symmetry. apply Hs. lia.
    + destruct (Z.eqb_spec (h_noff h - 1) 0) as [E0|E0]; simpl; [|done].
      by rewrite E4.
Qed.

Lemma tri_release_under {B} up lk a (f : unit -> K S B) (R : B -> lctx -> Prop) :
  lctx_wf a -> lk ∉ lc_held a -> lk ∉ up -> tri (acqs up a) (f tt) R ->
  tri (acqs up (acq lk a)) (bind (release lk) f) R.
Proof.
  intros Ha Hna Hnu Hf Hw h s Hh Hs. destruct (release_abs lk up a h s) as (h' & E & Eh'); [done..|].
  krun E. replace (lc_proc (acqs up (acq lk a))) with (lc_proc (acqs up a)).
  - apply Hf; [|done..]. clear -Ha. induction up; simpl; auto with xv6.
  - clear. induction up; simpl; auto.
Qed.

Lemma tri_release_bind {B} lk a (f : unit -> K S B) (R : B -> lctx -> Prop) :
  lctx_wf a -> lk ∉ lc_held a -> tri a (f tt) R -> tri (acq lk a) (bind (release lk) f) R.
Proof. intros Ha Hn Hf. apply (tri_release_under [] lk a); auto using not_elem_of_nil. Qed.

Lemma tri_release lk a : lctx_wf a -> lk ∉ lc_held a -> tri (acq lk a) (release lk) (fun _ c => c = a).
Proof.
  intros Ha Hn Hw h s Hh Hs. destruct (release_abs lk [] a h s) as (h' & E & Eh'); auto using not_elem_of_nil.
  rewrite E. simpl. auto using sp_refl.
Qed.

(** ** Loops *)

Lemma bal_forM {X} (l : list X) (body : X -> K S unit) :
  (forall x, bal (body x)) -> bal (forM l body).
Proof.
  intros Hb a. induction l as [|x l IH]; simpl; [by apply tri_ret|].
  apply tri_bal; auto.
Qed.

Lemma bal_forM_exit {X R} (l : list X) (body : X -> K S (option R)) :
  (forall x, bal (body x)) -> bal (forM_exit l body).
Proof.
  intros Hb a. induction l as [|x l IH]; simpl; [by apply tri_ret|].
  apply tri_bal; [auto|]. intros [r|]; [by apply tri_ret|apply IH].
Qed.

Lemma bal_when b (m : K S unit) : bal m -> bal (when b m).
Proof. intros Hm a. destruct b; [apply Hm|by apply tri_ret]. Qed.

Lemma bal_when_true b (m : K S unit) : (b = true -> bal m) -> bal (when b m).
Proof. intros Hm a. destruct b; [by apply Hm|by apply tri_ret]. Qed.

Lemma bal_ret {A} (x : A) : bal (ret x).
Proof. intros a. by apply tri_ret. Qed.

Lemma bal_bind {A B} (m : K S A) (f : A -> K S B) : bal m -> (forall x, bal (f x)) -> bal (bind m f).
Proof. intros Hm Hf a. apply tri_bal; [done|]. intros x. apply Hf. Qed.

End tri.

Arguments acqs : simpl nomatch.

(** ** A component inside a larger state *)

Lemma wpo_zoom {S T A} (Σ : spec S) (get : S -> T) (put : T -> S -> S) (o : outcome T A) q s0 t0 s Q :
  (forall t, sp_inv Σ (put t s) /\ sp_run Σ q s0 (put t s)) ->
  wpo quiet q t0 o Q -> wpo Σ q s0 (ozoom get put s o) Q.
Proof.
  intros Hp. destruct o as [x h t| |h t k|]; simpl; auto.
  - intros [? _]. destruct (Hp t). auto.
  - intros [_ (p & _ & _ & [] & _)].
Qed.

Lemma bal_zoom {S T A} (Σ : spec S) (get : S -> T) (put : T -> S -> S) (m : K T A) :
  (forall q s t, sp_inv Σ s -> sp_inv Σ (put t s) /\ sp_run Σ q s (put t s)) ->
  bal quiet m -> bal Σ (zoom get put m).
Proof.
  intros Hp Hm a Hw h s Hh Hs. unfold zoom. eapply wpo_zoom; [auto|]. by apply Hm.
Qed.

(** ** Automation

    [disc] follows the structure of a computation. The database [disc] holds the
    [bal] lemmas of the functions already treated; [disc_modify] is the tactic for
    assignments, to be extended for a concrete specification. *)

Create HintDb disc discriminated.
Create HintDb disc_tri discriminated.
#[export] Hint Constants Opaque : disc disc_tri.

Section more_rules.
Context {S : Type} (Σ : spec S).

Lemma tri_bind_ret {A B} a (x : A) (f : A -> K S B) (R : B -> lctx -> Prop) :
  tri Σ a (f x) R -> tri Σ a (bind (ret x) f) R.
Proof. done. Qed.

Lemma tri_bind_stop {A B} a (m : K S A) (f : A -> K S B) (R : B -> lctx -> Prop) :
  (forall h s, m h s = NoFuel \/ exists msg, m h s = Panic msg) -> tri Σ a (bind m f) R.
Proof. intros Hm _ h s _ _. unfold bind. by destruct (Hm h s) as [-> | [msg ->]]. Qed.

Lemma tri_acquire_last a lk (Q : unit -> lctx -> Prop) :
  (lk ∉ lc_held a -> Q tt (acq lk a)) -> tri Σ a (acquire lk) Q.
Proof.
  intros HQ Hw h s <- Hs. destruct (decide (lk ∈ h_held h)) as [Hin|Hin]; [by rewrite acquire_reentrant|].
  rewrite acquire_run by done. simpl. rewrite abs_locked by done. auto using sp_refl.
Qed.

Lemma bal_gets {A} (f : S -> A) : bal Σ (gets f).
Proof. intros a Hw h s <- Hs. simpl. auto using sp_refl. Qed.

Lemma bal_modify (f : S -> S) :
  (forall q s, sp_inv Σ s -> sp_inv Σ (f s) /\ sp_run Σ q s (f s)) -> bal Σ (modify f).
Proof. intros Hf a. apply tri_modify. auto. Qed.

Lemma bal_deref {A} (o : option A) : bal Σ (deref o).
Proof. intros a Hw h s <- Hs. destruct o; simpl; auto using sp_refl. Qed.

Lemma bal_panic {A} msg : bal Σ (@panic S A msg).
Proof. intros a. apply tri_panic. Qed.

Lemma bal_nofuel {A} : bal Σ (@nofuel S A).
Proof. intros a. apply tri_nofuel. Qed.

Lemma tri_of_bal {A} a (m : K S A) (Q : A -> lctx -> Prop) :
  bal Σ m -> (forall x, Q x a) -> tri Σ a m Q.
Proof. intros Hm HQ. eapply tri_conseq; [|apply Hm]. by intros x c ->. Qed.

Lemma tri_bind_to {A B} a b (m : K S A) (f : A -> K S B) (R : B -> lctx -> Prop) :
  tri Σ a m (fun _ c => c = b) -> lctx_ext a b -> (forall x, tri Σ b (f x) R) -> tri Σ a (bind m f) R.
Proof. intros Hm Hb Hf. eapply tri_bind; [exact Hm|]. intros x c ->. auto. Qed.

Lemma tri_wf a {A} (m : K S A) Q : (lctx_wf a -> tri Σ a m Q) -> tri Σ a m Q.
Proof. intros Ht Hw. by apply Ht. Qed.

(** With a precondition on the state besides the invariant. *)
Definition tri_pre {A} (P : S -> Prop) (a : lctx) (m : K S A) (Q : A -> lctx -> Prop) : Prop :=
  lctx_wf a -> forall h s, abs h = a -> sp_inv Σ s -> P s -> wpo Σ (lc_proc a) s (m h s) Q.

Lemma pre_drop {A} P a (m : K S A) Q : tri Σ a m Q -> tri_pre P a m Q.
Proof. intros Ht Hw h s Hh Hs _. by apply Ht. Qed.

Lemma pre_mono {A} (P P' : S -> Prop) a (m : K S A) Q :
  (forall s, P s -> P' s) -> tri_pre P' a m Q -> tri_pre P a m Q.
Proof. intros HP Ht Hw h s Hh Hs Hp. apply Ht; auto. Qed.

Lemma pre_wf {A} P a (m : K S A) Q : (lctx_wf a -> tri_pre P a m Q) -> tri_pre P a m Q.
Proof. intros Ht Hw. by apply Ht. Qed.

Lemma pre_assoc {A B C} P a (m : K S A) (f : A -> K S B) (g : B -> K S C) R :
  tri_pre P a (bind m (fun x => bind (f x) g)) R -> tri_pre P a (bind (bind m f) g) R.
Proof. intros Ht Hw h s Hh Hs Hp. rewrite bind_assoc. by apply Ht. Qed.

Lemma pre_modify {B} (P P' : S -> Prop) a (u : S -> S) (f : unit -> K S B) R :
  (forall s, sp_inv Σ s -> P s -> sp_inv Σ (u s) /\ sp_run Σ (lc_proc a) s (u s) /\ P' (u s)) ->
  tri_pre P' a (f tt) R -> tri_pre P a (bind (modify u) f) R.
Proof.
  intros Hu Hf Hw h s Hh Hs Hp. destruct (Hu s Hs Hp) as (? & ? & ?).
  eapply wpo_run; [done|]. by apply Hf.
Qed.

Lemma pre_acquire {B} P a lk (f : unit -> K S B) R :
  (lk ∉ lc_held a -> tri_pre P (acq lk a) (f tt) R) -> tri_pre P a (bind (acquire lk) f) R.
Proof.
  intros Hf Hw h s <- Hs Hp. unfold bind. destruct (decide (lk ∈ h_held h)) as [Hin|Hin].
  - by rewrite acquire_reentrant.
  - rewrite acquire_run by done. simpl. apply Hf; auto with xv6. by apply abs_locked.
Qed.

Lemma pre_release {B} P a lk (f : unit -> K S B) R :
  lctx_wf a -> lk ∉ lc_held a -> tri_pre P a (f tt) R -> tri_pre P (acq lk a) (bind (release lk) f) R.
Proof.
  intros Ha Hn Hf Hw h s Hh Hs Hp.
  destruct (release_abs lk [] a h s) as (h' & E & Eh'); auto using not_elem_of_nil.
  krun E. change (lc_proc (acq lk a)) with (lc_proc a). by apply Hf.
Qed.

(** Inside push_off, without a lock. *)
Definition psh (a : lctx) : lctx :=
  LCtx (lc_held a) (lc_noff a + 1) (lc_proc a) false (lc_intena a).

Lemma psh_wf a : lctx_wf a -> lctx_wf (psh a).
Proof. intros [H1 H2 H3]. constructor; simpl; [lia|done|lia]. Qed.

Lemma tri_push {B} a (f : unit -> K S B) (R : B -> lctx -> Prop) :
  tri Σ (psh a) (f tt) R -> tri Σ a (bind push_off f) R.
Proof.
  intros Hf Hw h s <- Hs. krun (push_off_run h s). apply Hf; [by apply psh_wf| |done].
  destruct Hw as [Hn _ _]. simpl in Hn. unfold abs, psh; simpl.
  destruct (Z.eqb_spec (h_noff h + 1) 0); [lia|]. done.
Qed.

Lemma pop_off_abs a h (s : S) :
  lctx_wf a -> abs h = psh a -> exists h', pop_off h s = Done tt h' s /\ abs h' = a.
Proof.
  intros [Hn Hs Hi] Eh. unfold abs, psh in Eh. injection Eh as E1 E2 E3 E4 E5.
  rewrite E2 in E5. destruct (Z.eqb_spec (lc_noff a + 1) 0); [lia|].
  unfold pop_off, intr_get, intr_on, get_hart, put_hart, bind, when, ret. simpl. rewrite E4, E2.
  destruct (Z.ltb_spec (lc_noff a + 1) 1); [lia|]. simpl.
  replace (lc_noff a + 1 - 1) with (lc_noff a) by lia.
  destruct ((lc_noff a =? 0) && h_intena h) eqn:Ez; (eexists; split; [reflexivity|]);
    apply lctx_eq; simpl; auto; destruct (Z.eqb_spec (lc_noff a) 0) as [E0|E0]; simpl in *; try done.
  - rewrite <-Hi by done. congruence.
  - rewrite Hi by done. rewrite <-Hi by done. congruence.
  - rewrite E4, <-Hi by done. congruence.
  - rewrite E4. symmetry. apply Hs. lia.
  - rewrite E4. rewrite Hi by done. rewrite <-Hi by done. congruence.
Qed.

Lemma tri_pop_bind {B} a (f : unit -> K S B) (R : B -> lctx -> Prop) :
  lctx_wf a -> tri Σ a (f tt) R -> tri Σ (psh a) (bind pop_off f) R.
Proof.
  intros Ha Hf Hw h s Hh Hs. destruct (pop_off_abs a h s Ha Hh) as (h' & E & Eh'). krun E. change (lc_proc (psh a)) with (lc_proc a). by apply Hf.
Qed.

Lemma tri_pop a : lctx_wf a -> tri Σ (psh a) pop_off (fun _ c => c = a).
Proof.
  intros Ha Hw h s Hh Hs. destruct (pop_off_abs a h s Ha Hh) as (h' & E & Eh'). rewrite E. simpl. auto using sp_refl.
Qed.

Lemma tri_get_hart {B} a (f : hart -> K S B) (R : B -> lctx -> Prop) :
  (forall h, abs h = a -> tri Σ a (f h) R) -> tri Σ a (bind get_hart f) R.
Proof. intros Hf Hw h s Hh Hs. by apply (Hf h). Qed.

End more_rules.

#[export] Hint Resolve psh_wf : xv6.

(** An assignment. *)
Ltac disc_modify := apply bal_modify; done.

(** Rules for the functions of a component, tried first. *)
Ltac disc_hook := fail.

Ltac disc_side := solve [done | assumption | auto with xv6 | set_solver].

(** A goal that a lemma or an induction hypothesis gives, up to the postcondition. *)
Ltac disc_tri :=
  eapply tri_conseq; [|solve [eauto 3 with disc_tri nocore]]; simpl; intros; by subst.

Ltac disc :=
  tryif disc_hook then disc else
  lazymatch goal with
  | |- bal _ _ => disc_bal
  | |- tri _ _ (bind (bind _ _) _) _ => apply tri_assoc; disc
  | |- tri _ _ (bind (ret _) _) _ => apply tri_bind_ret; disc
  | |- tri _ _ (bind (panic _) _) _ => apply tri_bind_stop; intros; right; eexists; reflexivity
  | |- tri _ _ (bind nofuel _) _ => apply tri_bind_stop; intros; left; reflexivity
  | |- tri _ _ (bind (gets _) _) _ => apply tri_gets; intros; disc
  | |- tri _ _ (bind (deref _) _) _ => apply tri_deref; intros; disc
  | |- tri _ _ (bind (acquire _) _) _ => apply tri_acquire; intros; disc
  | |- tri _ _ (acquire _) _ => apply tri_acquire_last; simpl; intros; disc_side
  | |- tri _ _ (bind push_off _) _ => apply tri_push; disc
  | |- tri _ (psh _) (bind pop_off _) _ => apply tri_pop_bind; [disc_side|disc]
  | |- tri _ (psh _) pop_off _ => eapply tri_conseq; [|apply tri_pop; disc_side]; simpl; intros; by subst
  | |- tri _ _ (bind get_hart _) _ => apply tri_get_hart; intros; disc
  | |- tri _ (acq ?lk _) (bind (release ?lk) _) _ =>
      apply tri_release_bind; [disc_side|disc_side|disc]
  | |- tri _ (acq ?l1 (acq ?lk _)) (bind (release ?lk) _) _ =>
      apply (tri_release_under _ [l1]); [disc_side|disc_side|disc_side|simpl; disc]
  | |- tri _ (acq ?lk _) (release ?lk) _ =>
      eapply tri_conseq; [|apply tri_release; disc_side]; simpl; intros; by subst
  | |- tri _ _ (bind (when ?b _) _) _ =>
      first [ apply tri_bal; [solve [disc_bal]|intros; disc] | destruct b eqn:?; cbn [when]; disc ]
  | |- tri _ _ (bind (if ?b then _ else _) _) _ =>
      first [ apply tri_bal; [solve [disc_bal]|intros; disc] | destruct b eqn:?; disc ]
  | |- tri _ _ (bind (match ?x with _ => _ end) _) _ =>
      first [ apply tri_bal; [solve [disc_bal]|intros; disc] | destruct x eqn:?; disc ]
  | |- tri _ _ (bind _ _) _ => apply tri_bal; [solve [disc_bal]|intros; disc]
  | |- tri _ _ (ret _) _ => apply tri_ret; simpl; disc_side
  | |- tri _ _ (panic _) _ => apply tri_panic
  | |- tri _ _ nofuel _ => apply tri_nofuel
  | |- tri _ _ (if ?b then _ else _) _ => destruct b eqn:?; disc
  | |- tri _ _ (match ?x with _ => _ end) _ => destruct x eqn:?; disc
  | |- tri _ _ _ _ =>
      first [ disc_tri | apply tri_of_bal; [solve [disc_bal]|simpl; intros; disc_side] ]
  end
with disc_bal :=
  lazymatch goal with
  | |- bal _ (ret _) => apply bal_ret
  | |- bal _ (gets _) => apply bal_gets
  | |- bal _ (panic _) => apply bal_panic
  | |- bal _ nofuel => apply bal_nofuel
  | |- bal _ (deref _) => apply bal_deref
  | |- bal _ (modify _) => disc_modify
  | |- bal _ (when _ _) => apply bal_when_true; intros; disc_bal
  | |- bal _ (forM _ _) => apply bal_forM; intros; disc_bal
  | |- bal _ (forM_exit _ _) => apply bal_forM_exit; intros; disc_bal
  | |- bal _ (bind _ _) => intros ?; apply tri_wf; intros ?; disc
  | |- bal _ (if _ then _ else _) => intros ?; apply tri_wf; intros ?; disc
  | |- bal _ (match _ with _ => _ end) => intros ?; apply tri_wf; intros ?; disc
  | |- bal _ _ => solve [auto 2 with disc nocore]
  end.
