(* ===== verification/Balance.v ===== *)
(** * Balance

    The discipline for the page allocator, the page tables, the scheduler queues and
    the console output: each of these functions returns with the locks and the
    interrupt state it was called with. *)
From stdpp Require Import base tactics list numbers gmap strings.
From S2P Require Import Prelude Machine Spinlock Printf Bytes Queue Kalloc Vm Kernel Discipline.

Section vm.
Context `{Layout}.

Lemma bal_kfree pa : bal quiet (kfree pa).
Proof. unfold kfree. disc. Qed.
Lemma bal_kalloc : bal quiet kalloc.
Proof. unfold kalloc. disc. Qed.
Hint Resolve bal_kfree bal_kalloc : disc.

Lemma bal_walk_loop level pt va al : bal quiet (walk_loop level pt va al).
Proof. revert pt. induction level; intros pt; simpl; disc. Qed.
Hint Resolve bal_walk_loop : disc.
Lemma bal_walk pt va al : bal quiet (walk pt va al).
Proof. unfold walk. disc. Qed.
Hint Resolve bal_walk : disc.
Lemma bal_walkaddr pt va : bal quiet (walkaddr pt va).
Proof. unfold walkaddr. disc. Qed.
Lemma bal_mappages_loop f pt a l pa pe : bal quiet (mappages_loop f pt a l pa pe).
Proof. revert a pa. induction f; intros a pa; simpl; disc. Qed.
Hint Resolve bal_walkaddr bal_mappages_loop : disc.
Lemma bal_mappages pt va sz pa pe : bal quiet (mappages pt va sz pa pe).
Proof. unfold mappages. disc. Qed.
Lemma bal_uvmunmap_loop f pt a b d : bal quiet (uvmunmap_loop f pt a b d).
Proof. revert a. induction f; intros a; simpl; disc. Qed.
Hint Resolve bal_mappages bal_uvmunmap_loop : disc.
Lemma bal_uvmunmap pt va n d : bal quiet (uvmunmap pt va n d).
Proof. unfold uvmunmap. disc. Qed.
Lemma bal_uvmcreate : bal quiet uvmcreate.
Proof. unfold uvmcreate. disc. Qed.
Hint Resolve bal_uvmunmap bal_uvmcreate : disc.
Lemma bal_uvminit pt src sz : bal quiet (uvminit pt src sz).
Proof. unfold uvminit. disc. Qed.
Lemma bal_uvmdealloc pt o n : bal quiet (uvmdealloc pt o n).
Proof. unfold uvmdealloc. disc. Qed.
Hint Resolve bal_uvminit bal_uvmdealloc : disc.
Lemma bal_uvmalloc_loop f pt o a n : bal quiet (uvmalloc_loop f pt o a n).
Proof. revert a. induction f; intros a; simpl; disc. Qed.
Hint Resolve bal_uvmalloc_loop : disc.
Lemma bal_uvmalloc pt o n : bal quiet (uvmalloc pt o n).
Proof. unfold uvmalloc. disc. Qed.
Lemma bal_freewalk_rec f pt : bal quiet (freewalk_rec f pt).
Proof. revert pt. induction f; intros pt; cbn [freewalk_rec]; disc. Qed.
Hint Resolve bal_uvmalloc bal_freewalk_rec : disc.
Lemma bal_uvmfree pt sz : bal quiet (uvmfree pt sz).
Proof. unfold uvmfree, freewalk. disc. Qed.
Lemma bal_uvmcopy_loop f o n i sz : bal quiet (uvmcopy_loop f o n i sz).
Proof. revert i. induction f; intros i; simpl; disc. Qed.
Hint Resolve bal_uvmfree bal_uvmcopy_loop : disc.
Lemma bal_uvmcopy o n sz : bal quiet (uvmcopy o n sz).
Proof. unfold uvmcopy. disc. Qed.
Lemma bal_uvmclear pt va : bal quiet (uvmclear pt va).
Proof. unfold uvmclear. disc. Qed.
Lemma bal_copyout_loop f pt d src : bal quiet (copyout_loop f pt d src).
Proof. revert d src. induction f; intros d src; simpl; disc. Qed.
Lemma bal_copyin_loop f pt d n : bal quiet (copyin_loop f pt d n).
Proof. revert d n. induction f; intros d n; simpl; disc. Qed.
Lemma bal_copyinstr_loop f pt d n : bal quiet (copyinstr_loop f pt d n).
Proof. revert d n. induction f; intros d n; simpl; disc. Qed.
Hint Resolve bal_uvmcopy bal_uvmclear bal_copyout_loop bal_copyin_loop bal_copyinstr_loop : disc.
Lemma bal_copyout pt d src : bal quiet (copyout pt d src).
Proof. unfold copyout. disc. Qed.
Lemma bal_copyin pt d n : bal quiet (copyin pt d n).
Proof. unfold copyin. disc. Qed.
Lemma bal_copyinstr pt d n : bal quiet (copyinstr pt d n).
Proof. unfold copyinstr. disc. Qed.

End vm.

#[export] Hint Resolve bal_kfree bal_kalloc bal_walkaddr bal_mappages bal_uvmunmap bal_uvmcreate
  bal_uvminit bal_uvmdealloc bal_uvmalloc bal_uvmfree bal_uvmcopy bal_uvmclear bal_copyout bal_copyin
  bal_copyinstr : disc.

(** ** Queues and console output *)

Section queues.

Lemma bal_push e : bal quiet (push e).
Proof. unfold push. disc. Qed.
Lemma bal_pop : bal quiet pop.
Proof. unfold pop. disc. Qed.
Lemma bal_front : bal quiet front.
Proof. unfold front. disc. Qed.
Lemma bal_qerase_loop f pidof pid c : bal quiet (qerase_loop f pidof pid c).
Proof. revert c. induction f; intros c; simpl; disc. Qed.
Hint Resolve bal_qerase_loop : disc.
Lemma bal_qerase pidof pid : bal quiet (qerase pidof pid).
Proof. unfold qerase. disc. Qed.

End queues.

Section tty.

Lemma bal_uartputc_sync c : bal quiet (uartputc_sync c).
Proof. unfold uartputc_sync. disc. Qed.
Hint Resolve bal_uartputc_sync : disc.
Lemma bal_consputc c : bal quiet (consputc c).
Proof. unfold consputc. disc. Qed.
Hint Resolve bal_consputc : disc.
Lemma bal_printint xx base sign : bal quiet (printint xx base sign).
Proof. unfold printint. disc. Qed.
Lemma bal_printptr x : bal quiet (printptr x).
Proof. unfold printptr. disc. Qed.
Hint Resolve bal_printint bal_printptr : disc.

Lemma bal_printf_loop fmt ap : bal quiet (printf_loop fmt ap).
Proof.
  cut (forall n fmt ap, (length fmt <= n)%nat -> bal quiet (printf_loop fmt ap)).
  { intros Hc. by apply (Hc (length fmt)). }
  clear. induction n as [|n IH]; intros [|c fmt] ap Hn; simpl in *; try lia; [disc|disc|].
  assert (IH1 : forall ap, bal quiet (printf_loop fmt ap)) by (intros; apply IH; lia).
  destruct fmt as [|d fmt]; [disc|].
  assert (IH2 : forall ap, bal quiet (printf_loop fmt ap)) by (intros; apply IH; simpl in *; lia).
  generalize dependent (printf_loop fmt). generalize dependent (printf_loop (d :: fmt)). intros. disc.
Qed.
Hint Resolve bal_printf_loop : disc.

(** printf takes its lock on entry and gives it back under the same condition. *)
Lemma bal_printf fmt ap : bal quiet (printf fmt ap).
Proof.
  unfold printf. intros a. apply tri_wf. intros Ha. apply tri_gets. intros t _.
  destruct (pr_locking t); simpl; disc.
Qed.

End tty.

#[export] Hint Resolve bal_push bal_pop bal_front bal_qerase bal_consputc bal_printf : disc.
