(* ===== verification/Proc.v ===== *)
(** * Proc

    kernel/proc.c without the parts that use files: process allocation and
    release, memory growth, wait and waitx, sleep and wakeup, kill, the four
    scheduling policies and the body of the scheduler loop. *)
From stdpp Require Import base tactics list numbers gmap strings.
From S2P Require Import Prelude Machine Spinlock Printf Bytes Queue Kalloc Vm Kernel.

(** The scheduling policy chosen at build time (SCHEDULER in the Makefile). *)
Inductive policy := RR | FCFS | MLFQ | PBS.

#[export] Instance policy_eq_dec : EqDecision policy.
Proof. solve_decision. Defined.

(** Addresses of kernel functions that are stored in memory. *)
Class Symbols := {
  sym_forkret : Z;
  sym_usertrap : Z;
  sym_kernelvec : Z;
  sym_uservec : Z;
  sym_userret : Z;
}.

(** How often a waiting loop may find its condition false before the model gives
    up with [NoFuel]. Nothing in the code bounds it; results hold for every value. *)
Class WaitFuel := wait_fuel : nat.

(** Fields of struct trapframe, by offset. *)
Definition TF_kernel_satp : Z := 0.
Definition TF_kernel_sp : Z := 8.
Definition TF_kernel_trap : Z := 16.
Definition TF_epc : Z := 24.
Definition TF_kernel_hartid : Z := 32.
Definition TF_sp : Z := 48.
Definition TF_a0 : Z := 112.
Definition TF_a1 : Z := 120.
Definition TF_a2 : Z := 128.
Definition TF_a3 : Z := 136.
Definition TF_a4 : Z := 144.
Definition TF_a5 : Z := 152.
Definition TF_a7 : Z := 168.
Definition TF_SIZE : Z := 288.

(** [p->trapframe->field]; a null trapframe faults. *)
Definition tf_get (p : nat) (off : Z) : K kernel Z :=
  tf <- pget p p_trapframe;;
  if tf =? 0 then panic "fault" else gets (fun s => load64 (pm_mem (k_pm s)) (tf + off)).
Definition tf_set (p : nat) (off v : Z) : K kernel unit :=
  tf <- pget p p_trapframe;;
  if tf =? 0 then panic "fault" else
  modify (fun s => set_k_pm (set_mem (store64 (pm_mem (k_pm s)) (tf + off) v) (k_pm s)) s).

Section proc.
Context `{Layout} `{Symbols} `{WaitFuel}.

(** ** The process table *)

Definition procinit : K kernel unit :=
  forM (upto NPROC) (fun i => pset i (set_p_kstack (KSTACK (Z.of_nat i)))).

Definition myproc : K kernel (option nat) :=
  push_off;;
  h <- get_hart;;
  let p := h_proc h in
  pop_off;;
  ret p.

(** The current process where the code dereferences it. *)
Definition curproc : K kernel nat := p <- myproc;; deref p.

Definition allocpid : K kernel Z :=
  acquire L_pid;;
  pid <- gets k_nextpid;;
  modify (set_k_nextpid (i32 (pid + 1)));;
  release L_pid;;
  ret pid.

Definition proc_pagetable (p : nat) : K kernel Z :=
  pagetable <- in_pm uvmcreate;;
  if pagetable =? 0 then ret 0 else
  r <- in_pm (mappages pagetable TRAMPOLINE PGSIZE l_trampoline (Z.lor PTE_R PTE_X));;
  if r <? 0 then in_pm (uvmfree pagetable 0);; ret 0 else
  tf <- pget p p_trapframe;;
  r <- in_pm (mappages pagetable TRAPFRAME PGSIZE tf (Z.lor PTE_R PTE_W));;
  if r <? 0 then
    in_pm (uvmunmap pagetable TRAMPOLINE 1 false);;
    in_pm (uvmfree pagetable 0);;
    ret 0
  else ret pagetable.

Definition proc_freepagetable (pagetable sz : Z) : K kernel unit :=
  in_pm (uvmunmap pagetable TRAMPOLINE 1 false);;
  in_pm (uvmunmap pagetable TRAPFRAME 1 false);;
  in_pm (uvmfree pagetable sz).

Definition freeproc (p : nat) : K kernel unit :=
  tf <- pget p p_trapframe;;
  when (truthy tf) (in_pm (kfree tf));;
  pset p (set_p_trapframe 0);;
  pagetable <- pget p p_pagetable;;
  sz <- pget p p_sz;;
  when (truthy pagetable) (proc_freepagetable pagetable sz);;
  pset p (set_p_pagetable 0);;
  pset p (set_p_sz 0);;
  pset p (set_p_pid 0);;
  pset p (set_p_parent None);;
  pset p (fun x => set_p_name (<[0%nat := 0]> (p_name x)) x);;
  pset p (set_p_chan None);;
  pset p (set_p_killed 0);;
  pset p (set_p_xstate 0);;
  pset p (set_p_state UNUSED).

(** The search loop of allocproc: the first UNUSED slot, its lock held. *)
Definition find_unused : K kernel (option nat) :=
  forM_exit (upto NPROC) (fun p =>
    acquire (L_proc p);;
    st <- pget p p_state;;
    if decide (st = UNUSED) then ret (Some p)
    else release (L_proc p);; ret None).

Definition allocproc : K kernel (option nat) :=
  r <- find_unused;;
  match r with
  | None => ret None
  | Some p =>
      pid <- allocpid;;
      pset p (set_p_pid pid);;
      pset p (set_p_state USED);;
      ticks <- gets k_ticks;;
      pset p (set_p_ctime (i32 ticks));;
      pset p (set_p_rtime 0);;
      pset p (set_p_niceness 5);;
      pset p (set_p_static_priority 60);;
      pset p (set_p_dynamic_priority 60);;
      tf <- in_pm kalloc;;
      pset p (set_p_trapframe tf);;
      if tf =? 0 then freeproc p;; release (L_proc p);; ret None else
      pagetable <- proc_pagetable p;;
      pset p (set_p_pagetable pagetable);;
      if pagetable =? 0 then freeproc p;; release (L_proc p);; ret None else
      kstack <- pget p p_kstack;;
      pset p (set_p_context_ra sym_forkret);;
      pset p (set_p_context_sp (kstack + PGSIZE));;
      ret (Some p)
  end.

(** [sz] is a uint: sizes are truncated to 32 bits. *)
Definition growproc (n : Z) : K kernel Z :=
  p <- curproc;;
  psz <- pget p p_sz;;
  let sz := u32 psz in
  pagetable <- pget p p_pagetable;;
  if 0 <? n then
    sz' <- in_pm (uvmalloc pagetable sz (u32 (sz + n)));;
    if u32 sz' =? 0 then ret (-1) else
    pset p (set_p_sz (u32 sz'));; ret 0
  else if n <? 0 then
    sz' <- in_pm (uvmdealloc pagetable sz (u32 (sz + n)));;
    pset p (set_p_sz (u32 sz'));; ret 0
  else pset p (set_p_sz sz);; ret 0.

(** ** Giving up the CPU *)

Definition sched : K kernel unit :=
  p <- curproc;;
  r <- holding (L_proc p);;
  if negb r then panic "sched p->lock" else
  h <- get_hart;;
  if negb (h_noff h =? 1) then panic "sched locks" else
  st <- pget p p_state;;
  if decide (st = RUNNING) then panic "sched running" else
  ie <- intr_get;;
  if ie then panic "sched interruptible" else
  h <- get_hart;;
  let intena := h_intena h in
  swtch;;
  h <- get_hart;;
  put_hart (set_h_intena intena h).

Definition yield : K kernel unit :=
  p <- curproc;;
  acquire (L_proc p);;
  pset p (set_p_state RUNNABLE);;
  sched;;
  release (L_proc p).

Definition sleep (ch : chan) (lk : lockid) : K kernel unit :=
  p <- curproc;;
  acquire (L_proc p);;
  release lk;;
  pset p (set_p_chan (Some ch));;
  pset p (set_p_state SLEEPING);;
  sched;;
  pset p (set_p_chan None);;
  release (L_proc p);;
  acquire lk.

Definition wakeup (ch : chan) : K kernel unit :=
  forM (upto NPROC) (fun p =>
    me <- myproc;;
    when (bool_decide (me <> Some p))
      (acquire (L_proc p);;
       x <- pget p id;;
       when (bool_decide (p_state x = SLEEPING) && bool_decide (p_chan x = Some ch))
         (pset p (set_p_state RUNNABLE));;
       release (L_proc p))).

Definition kill (pid : Z) : K kernel Z :=
  r <- forM_exit (upto NPROC) (fun p =>
    acquire (L_proc p);;
    x <- pget p id;;
    if p_pid x =? pid then
      pset p (set_p_killed 1);;
      when (bool_decide (p_state x = SLEEPING)) (pset p (set_p_state RUNNABLE));;
      release (L_proc p);;
      ret (Some 0)
    else release (L_proc p);; ret None);;
  ret (default (-1) r).

(** ** Children *)

Definition reparent (p : nat) : K kernel unit :=
  forM (upto NPROC) (fun pp =>
    par <- pget pp p_parent;;
    when (bool_decide (par = Some p))
      (ip <- gets k_initproc;;
       pset pp (set_p_parent ip);;
       i <- deref ip;;
       wakeup (Ch_proc i))).

(** One scan of wait over the table: [inl havekids], or [inr] the result with
    which wait returns. *)
Fixpoint wait_scan (l : list nat) (p : nat) (addr : Z) (havekids : bool) : K kernel (bool + Z) :=
  match l with
  | [] => ret (inl havekids)
  | np :: l =>
      par <- pget np p_parent;;
      if negb (bool_decide (par = Some p)) then wait_scan l p addr havekids else
      acquire (L_proc np);;
      x <- pget np id;;
      if decide (p_state x = ZOMBIE) then
        let pid := p_pid x in
        pagetable <- pget p p_pagetable;;
        r <- (if negb (addr =? 0) then in_pm (copyout pagetable addr (le_bytes 4 (p_xstate x)))
              else ret 0);;
        if r <? 0 then release (L_proc np);; release L_wait;; ret (inr (-1)) else
        freeproc np;;
        release (L_proc np);;
        release L_wait;;
        ret (inr pid)
      else
        release (L_proc np);;
        wait_scan l p addr true
  end.

Fixpoint wait_loop (fuel : nat) (p : nat) (addr : Z) : K kernel Z :=
  match fuel with
  | O => nofuel
  | S f =>
      r <- wait_scan (upto NPROC) p addr false;;
      match r with
      | inr v => ret v
      | inl havekids =>
          killed <- pget p p_killed;;
          if negb havekids || truthy killed then release L_wait;; ret (-1) else
          sleep (Ch_proc p) L_wait;;
          wait_loop f p addr
      end
  end.

Definition wait (addr : Z) : K kernel Z :=
  p <- curproc;;
  acquire L_wait;;
  wait_loop wait_fuel p addr.

(** waitx also returns what it stores through [rtime] and [wtime], if it does. *)
Fixpoint waitx_scan (l : list nat) (p : nat) (addr : Z) (havekids : bool)
    : K kernel (bool + (Z * option (Z * Z))) :=
  match l with
  | [] => ret (inl havekids)
  | np :: l =>
      par <- pget np p_parent;;
      if negb (bool_decide (par = Some p)) then waitx_scan l p addr havekids else
      acquire (L_proc np);;
      x <- pget np id;;
      if decide (p_state x = ZOMBIE) then
        let pid := p_pid x in
        let rtime := u32 (p_rtime x) in
        let wtime := u32 (p_etime x - p_ctime x - p_rtime x) in
        pagetable <- pget p p_pagetable;;
        r <- (if negb (addr =? 0) then in_pm (copyout pagetable addr (le_bytes 4 (p_xstate x)))
              else ret 0);;
        if r <? 0 then release (L_proc np);; release L_wait;; ret (inr (-1, Some (rtime, wtime))) else
        freeproc np;;
        release (L_proc np);;
        release L_wait;;
        ret (inr (pid, Some (rtime, wtime)))
      else
        release (L_proc np);;
        waitx_scan l p addr true
  end.

Fixpoint waitx_loop (fuel : nat) (p : nat) (addr : Z) : K kernel (Z * option (Z * Z)) :=
  match fuel with
  | O => nofuel
  | S f =>
      r <- waitx_scan (upto NPROC) p addr false;;
      match r with
      | inr v => ret v
      | inl havekids =>
          killed <- pget p p_killed;;
          if negb havekids || truthy killed then release L_wait;; ret (-1, None) else
          sleep (Ch_proc p) L_wait;;
          waitx_loop f p addr
      end
  end.

Definition waitx (addr : Z) : K kernel (Z * option (Z * Z)) :=
  p <- curproc;;
  acquire L_wait;;
  waitx_loop wait_fuel p addr.

(** ** Copying to and from either address space *)

(** Where the code passes the address of a local variable, the bytes are the
    value of the copy. *)
Inductive dst := DUser (va : Z) | DKern (pa : Z) | DLocal.
Inductive src := SUser (va : Z) | SLocal (bs : list Z).

Definition either_copyout (d : dst) (bs : list Z) : K kernel Z :=
  p <- myproc;;
  match d with
  | DUser va =>
      p <- deref p;;
      pagetable <- pget p p_pagetable;;
      in_pm (copyout pagetable va bs)
  | DKern pa =>
      modify (fun s => set_k_pm (set_mem (write_bytes (pm_mem (k_pm s)) pa bs) (k_pm s)) s);;
      ret 0
  | DLocal => ret 0
  end.

Definition either_copyin (c : src) (len : Z) : K kernel (Z * list Z) :=
  p <- myproc;;
  match c with
  | SUser va =>
      p <- deref p;;
      pagetable <- pget p p_pagetable;;
      in_pm (copyin pagetable va len)
  | SLocal bs => ret (0, take (Z.to_nat len) bs)
  end.

(** ** Accounting and priorities *)

Definition update_time : K kernel unit :=
  forM (upto NPROC) (fun p =>
    acquire (L_proc p);;
    st <- pget p p_state;;
    when (bool_decide (st = RUNNING)) (pset p (fun x => set_p_rtime (i32 (p_rtime x + 1)) x));;
    release (L_proc p)).

Definition actually_set_priority (new_priority pid : Z) : K kernel Z :=
  r <- forM_exit (upto NPROC) (fun p =>
    x <- pget p id;;
    if p_pid x =? pid then
      pset p (set_p_static_priority new_priority);;
      pset p (set_p_niceness 5);;
      pset p (set_p_sleep_time 0);;
      ret (Some (p_static_priority x))
    else ret None);;
  ret (default (-1) r).

Definition ageing_one (p : nat) : K kernel unit :=
  x <- pget p id;;
  ticks <- gets k_ticks;;
  when (bool_decide (p_state x = RUNNABLE) && (AGETICK <=? u32 (ticks - p_q_enter x)))
    (kprintf "Ageing: %d
" [VInt (p_pid x)];;
     when (truthy (p_in_queue x))
       (procs <- gets k_proc;;
        in_mlfq (Z.to_nat (p_level x))
          (qerase (fun i => default 0 (p_pid <$> procs !! i)) (p_pid x));;
        pset p (set_p_in_queue 0));;
     level <- pget p p_level;;
     when (negb (level =? 0)) (pset p (set_p_level (level - 1)));;
     pset p (set_p_q_enter (i32 ticks))).

Definition ageing : K kernel unit := forM (upto NPROC) ageing_one.

(** ** Scheduling policies *)

Definition RoundRobin : K kernel nat :=
  alpha <- gets k_alpha;;
  modify (set_k_alpha (Z.rem (i32 (alpha + 1)) (Z.of_nat NPROC)));;
  alpha <- gets k_alpha;;
  ret (Z.to_nat alpha).

(** The loop of fcfs over the indices [l], with its locals [index] and [mintime]. *)
Fixpoint fcfs_loop (procs : list proc) (l : list nat) (index : nat) (mintime : Z) : nat :=
  match l with
  | [] => index
  | i :: l =>
      match procs !! i with
      | Some x =>
          if decide (p_state x = RUNNABLE) then
            if p_ctime x <=? mintime then fcfs_loop procs l i (p_ctime x)
            else fcfs_loop procs l index mintime
          else fcfs_loop procs l index mintime
      | None => fcfs_loop procs l index mintime
      end
  end.

Definition fcfs : K kernel nat :=
  gets (fun s => fcfs_loop (k_proc s) (upto NPROC) 0 (i32 (k_ticks s))).

(** The loop of pbs_scheduler, with its locals [min_priority] and [index]; the
    three ifs of the body in order. *)
Fixpoint pbs_loop (procs : list proc) (l : list nat) (min_priority : Z) (index : nat) : nat :=
  match l with
  | [] => index
  | i :: l =>
      match procs !! i with
      | None => pbs_loop procs l min_priority index
      | Some x =>
          if decide (p_state x = RUNNABLE) then
            let dp := p_dynamic_priority x in
            let '(mp, ix) := if dp <? min_priority then (dp, i) else (min_priority, index) in
            let n_run_of k := default 0 (p_n_run <$> procs !! k) in
            let ctime_of k := default 0 (p_ctime <$> procs !! k) in
            let '(mp, ix) :=
              if (dp =? mp) && (p_n_run x <? n_run_of ix) then (dp, i) else (mp, ix) in
            let '(mp, ix) :=
              if (dp =? mp) && (p_n_run x =? n_run_of ix) && (p_ctime x <? ctime_of ix)
              then (dp, i) else (mp, ix) in
            pbs_loop procs l mp ix
          else pbs_loop procs l min_priority index
      end
  end.

Definition pbs_scheduler : K kernel nat :=
  gets (fun s => pbs_loop (k_proc s) (upto NPROC) 10000 1).

(** [while (mlfq[level].size)]: a queue holds at most NPROC processes. *)
Fixpoint mlfq_level (fuel : nat) (level : nat) : K kernel (option nat) :=
  size <- in_mlfq level (gets q_size);;
  if size =? 0 then ret None else
  match fuel with
  | O => nofuel
  | S f =>
      p <- in_mlfq level front;;
      in_mlfq level pop;;
      p <- deref p;;
      pset p (set_p_in_queue 0);;
      st <- pget p p_state;;
      if decide (st = RUNNABLE) then
        ticks <- gets k_ticks;;
        pset p (set_p_q_enter (i32 ticks));;
        ret (Some p)
      else mlfq_level f level
  end.

(** The first loop of mlfq_scheduler: runnable processes enter their queue. *)
Definition mlfq_enqueue_one (p : nat) : K kernel unit :=
  x <- pget p id;;
  when (bool_decide (p_state x = RUNNABLE) && (p_in_queue x =? 0))
    (in_mlfq (Z.to_nat (p_level x)) (push p);;
     pset p (set_p_in_queue 1)).

Definition mlfq_enqueue : K kernel unit := forM (upto NPROC) mlfq_enqueue_one.

Definition mlfq_scheduler : K kernel (option nat) :=
  ageing;;
  mlfq_enqueue;;
  forM_exit (upto NMLFQ) (mlfq_level NPROC).

Definition pick (pol : policy) : K kernel (option nat) :=
  match pol with
  | RR => p <- RoundRobin;; ret (Some p)
  | FCFS => p <- fcfs;; ret (Some p)
  | MLFQ => mlfq_scheduler
  | PBS => p <- pbs_scheduler;; ret (Some p)
  end.

(** The dispatch of scheduler(), up to and after the switch to process [p]. *)
Definition dispatch (p : nat) : K kernel unit :=
  acquire (L_proc p);;
  x <- pget p id;;
  (if decide (p_state x = RUNNABLE) then
     actually_set_priority (p_dynamic_priority x) (p_pid x);;
     pset p (fun x => set_p_change_queue (i32 (Z.shiftl 1 (p_level x))) x);;
     pset p (fun x => set_p_q (alter (fun n => i32 (n + 1)) (Z.to_nat (p_level x)) (p_q x)) x);;
     pset p (set_p_state RUNNING);;
     h <- get_hart;;
     put_hart (set_h_proc (Some p) h);;
     ticks <- gets k_ticks;;
     pset p (set_p_q_enter (i32 ticks));;
     pset p (fun x => set_p_n_run (i32 (p_n_run x + 1)) x);;
     swtch;;
     h <- get_hart;;
     put_hart (set_h_proc None h)
   else ret tt);;
  release (L_proc p).

(** The body of the endless loop of scheduler(). *)
Definition scheduler_body (pol : policy) : K kernel unit :=
  intr_on;;
  p <- pick pol;;
  match p with
  | None => ret tt
  | Some p => dispatch p
  end.

Fixpoint scheduler_loop (pol : policy) (fuel : nat) : K kernel unit :=
  match fuel with
  | O => nofuel
  | S f => scheduler_body pol;; scheduler_loop pol f
  end.

Definition scheduler (pol : policy) (fuel : nat) : K kernel unit :=
  h <- get_hart;;
  put_hart (set_h_proc None h);;
  scheduler_loop pol fuel.

(** ** Process listing *)

Definition state_name (st : procstate) : string :=
  match st with
  | UNUSED => "unused" | SLEEPING => "sleep " | RUNNABLE => "runble"
  | RUNNING => "run   " | ZOMBIE => "zombie" | USED => "???"
  end.

Definition procdump_one (pol : policy) (p : nat) : K kernel unit :=
  x <- pget p id;;
  if decide (p_state x = UNUSED) then ret tt else
  let st := VStr (Some (str (state_name (p_state x)))) in
  let q i := VInt (default 0 (p_q x !! i)) in
  match pol with
  | RR | FCFS => kprintf "%d %s %s" [VInt (p_pid x); st; VStr (Some (cstr (p_name x)))]
  | PBS =>
      kprintf "%d	 %d 		 %s 	 %d 		 %d 	 %d"
        [VInt (p_pid x); VInt (p_dynamic_priority x); st; VInt (p_rtime x); VInt (p_sleep_time x);
         VInt (p_n_run x)]
  | MLFQ =>
      kprintf "%d 	 %d 		 %s 	 %d	 %d	 %d		 %d 	 %d 	 %d 	 %d 	 %d"
        [VInt (p_pid x); VInt (p_dynamic_priority x); st; VInt (p_rtime x); VInt (p_sleep_time x);
         VInt (p_n_run x); q 0%nat; q 1%nat; q 2%nat; q 3%nat; q 4%nat]
  end;;
  kprintf "
" [].

Definition procdump_header (pol : policy) : K kernel unit :=
  match pol with
  | RR | FCFS => ret tt
  | PBS => kprintf "Pid 	 Priority 	 State 	 Run-Time 	 Sleep-Time 	 Num_runs 
" []
  | MLFQ => kprintf "Pid 	 Priority 	 State 	     R-Time 	 W-Time	 Num_runs 	 q0 	 q1 	 q2 	 q3 	 q4 
" []
  end.

Definition procdump (pol : policy) : K kernel unit :=
  kprintf "
" [];;
  procdump_header pol;;
  forM (upto NPROC) (procdump_one pol).

End proc.
