(* ===== verification/ProcFacts.v ===== *)
(** * ProcFacts

    Lemmas about the process operations of Proc that the later files share: state
    access, myproc, the loops over the table, wakeup, kill, sched and sleep. *)
From stdpp Require Import base tactics list numbers gmap strings.
From S2P Require Import Prelude Machine Spinlock Printf Bytes Queue Kalloc Vm Kernel Proc.

(** ** State access *)

Definition upd_proc (i : nat) (f : proc -> proc) (s : kernel) : kernel :=
  set_k_proc (alter f i (k_proc s)) s.

Section access.
Context {A B : Type}.
Implicit Types (s : kernel) (h : hart).

Lemma pget_run i (f : proc -> A) h s p :
  k_proc s !! i = Some p -> pget i f h s = Done (f p) h s.
Proof. intros E. unfold pget, bind, gets. simpl. by rewrite E. Qed.

Lemma bind_pget i (f : proc -> A) (g : A -> K kernel B) h s p :
  k_proc s !! i = Some p -> bind (pget i f) g h s = g (f p) h s.
Proof. intros E. by rewrite (bind_done _ _ _ _ _ _ _ (pget_run i f h s p E)). Qed.

Lemma bind_pset i (f : proc -> proc) (g : unit -> K kernel B) h s :
  bind (pset i f) g h s = g tt h (upd_proc i f s).
Proof. done. Qed.

Lemma pset_run i (f : proc -> proc) h s : pset i f h s = Done tt h (upd_proc i f s).
Proof. done. Qed.

Lemma in_pm_run (m : K pm A) h s a h' t :
  m h (k_pm s) = Done a h' t -> in_pm m h s = Done a h' (set_k_pm t s).
Proof. intros E. unfold in_pm, zoom. by rewrite E. Qed.

End access.

#[export] Hint Rewrite @bind_pset pset_run : kmonad.

Lemma alter_comp {A} (f g : A -> A) i (l : list A) : alter g i (alter f i l) = alter (fun x => g (f x)) i l.
Proof.
  apply list_eq. intros j. destruct (decide (i = j)) as [->|Hne].
  - rewrite !list_lookup_alter_eq. by destruct (l !! j).
  - by rewrite !list_lookup_alter_ne.
Qed.

Section upd.
Implicit Types (s : kernel).

Lemma k_proc_upd i f s : k_proc (upd_proc i f s) = alter f i (k_proc s).
Proof. done. Qed.

Lemma upd_proc_comp i f g s : upd_proc i g (upd_proc i f s) = upd_proc i (fun x => g (f x)) s.
Proof. unfold upd_proc. simpl. by rewrite alter_comp. Qed.

Lemma upd_proc_lookup i f s p :
  k_proc s !! i = Some p -> k_proc (upd_proc i f s) !! i = Some (f p).
Proof. intros E. rewrite k_proc_upd, list_lookup_alter_eq. by rewrite E. Qed.

Lemma upd_proc_lookup_ne i j f s : i <> j -> k_proc (upd_proc i f s) !! j = k_proc s !! j.
Proof. intros. rewrite k_proc_upd. by apply list_lookup_alter_ne. Qed.

Lemma set_k_proc_id s : set_k_proc (k_proc s) s = s.
Proof. by destruct s. Qed.

Lemma upd_proc_id i f s p : k_proc s !! i = Some p -> f p = p -> upd_proc i f s = s.
Proof.
  intros E Hf. unfold upd_proc. replace (alter f i (k_proc s)) with (k_proc s); [apply set_k_proc_id|].
  apply list_eq. intros j. destruct (decide (i = j)) as [<-|Hne].
  - rewrite list_lookup_alter_eq, E. simpl. by rewrite Hf.
  - by rewrite list_lookup_alter_ne.
Qed.

Lemma upd_proc_ext i f g s p : k_proc s !! i = Some p -> f p = g p -> upd_proc i f s = upd_proc i g s.
Proof.
  intros E Hfg. unfold upd_proc. f_equal. apply list_eq. intros j. destruct (decide (i = j)) as [<-|Hne].
  - rewrite !list_lookup_alter_eq, E. simpl. by rewrite Hfg.
  - by rewrite !list_lookup_alter_ne.
Qed.

End upd.

Create Rewrite HintDb kstate.
#[export] Hint Rewrite upd_proc_comp k_proc_upd : kstate.

(** ** The current process *)

Section ops.
Context `{Layout} `{Symbols} `{WaitFuel}.
Implicit Types (s : kernel) (h : hart).

Lemma myproc_run h s : hart_wf h -> myproc h s = Done (h_proc h) (settle h) s.
Proof.
  intros Hwf. unfold myproc. krun (push_off_run h s). ksimpl.
  by krun (pop_off_pushed h s Hwf).
Qed.

Lemma curproc_run h s p : hart_wf h -> h_proc h = Some p -> curproc h s = Done p (settle h) s.
Proof. intros Hwf E. unfold curproc. krun (myproc_run h s Hwf). by rewrite E. Qed.

(** ** Loops over the table

    A loop whose body turns entry [i] into [f i] of it, and leaves the rest alone,
    maps the table. *)

Fixpoint map_upto (f : nat -> proc -> proc) (l : list nat) (procs : list proc) : list proc :=
  match l with [] => procs | i :: l => map_upto f l (alter (f i) i procs) end.

Lemma map_upto_other f l procs j : j ∉ l -> map_upto f l procs !! j = procs !! j.
Proof.
  revert procs. induction l as [|i l IH]; intros procs Hj; simpl; [done|].
  apply not_elem_of_cons in Hj as [Hne Hj]. rewrite IH by done.
  by rewrite list_lookup_alter_ne.
Qed.

Lemma map_upto_lookup f l procs j :
  NoDup l -> j ∈ l -> map_upto f l procs !! j = f j <$> procs !! j.
Proof.
  revert procs. induction l as [|i l IH]; intros procs Hnd Hj; simpl; [by apply not_elem_of_nil in Hj|].
  apply NoDup_cons in Hnd as [Hi Hnd]. apply elem_of_cons in Hj as [->|Hj].
  - rewrite map_upto_other by done. by rewrite list_lookup_alter_eq.
  - rewrite IH by done. rewrite list_lookup_alter_ne; [done|]. by intros ->.
Qed.

Lemma map_upto_imap f procs :
  length procs = NPROC -> map_upto f (upto NPROC) procs = imap f procs.
Proof.
  intros Hlen. apply list_eq. intros j. rewrite list_lookup_imap.
  destruct (decide (j < NPROC)%nat) as [Hj|Hj].
  - apply map_upto_lookup; [apply NoDup_upto|by apply elem_of_upto].
  - rewrite map_upto_other by (by rewrite elem_of_upto).
    by rewrite lookup_ge_None_2 by lia.
Qed.

Lemma forM_table (f : nat -> proc -> proc) (body : nat -> K kernel unit) h s :
  length (k_proc s) = NPROC ->
  (forall i t g, (i < NPROC)%nat -> length (k_proc t) = NPROC -> calm h g ->
     body i g t = Done tt (settle h) (upd_proc i (f i) t)) ->
  forM (upto NPROC) body h s = Done tt (settle h) (set_k_proc (imap f (k_proc s)) s).
Proof.
  intros Hlen Hbody. rewrite <-map_upto_imap by done.
  cut (forall l t g, (forall i, i ∈ l -> (i < NPROC)%nat) -> length (k_proc t) = NPROC ->
    calm h g -> (l = [] -> g = settle h) ->
    forM l body g t = Done tt (settle h) (set_k_proc (map_upto f l (k_proc t)) t)).
  { intros Hc. apply Hc; [intros i; by rewrite elem_of_upto|done|apply calm_refl|discriminate]. }
  induction l as [|i l IH]; intros t g Hl Ht Hg Hn.
  - simpl. rewrite Hn by done. by rewrite set_k_proc_id.
  - simpl. krun (Hbody i t g (Hl i ltac:(set_solver)) Ht Hg). rewrite IH; [done| | |apply calm_settle|done].
    + intros j Hj. apply Hl. set_solver.
    + simpl. by rewrite length_alter.
Qed.

(** ** Critical sections *)

Lemma settle_calm h g : calm h g -> settle g = settle h.
Proof. intros [-> | ->]; [done|apply settle_idemp]. Qed.

Lemma calm_proc h g : calm h g -> h_proc g = h_proc h.
Proof. intros [-> | ->]; [done|apply settle_proc]. Qed.

Lemma calm_sie h g : calm h g -> h_sie g = h_sie h.
Proof. intros [-> | ->]; [done|apply settle_sie]. Qed.

Lemma calm_noff h g : calm h g -> h_noff g = h_noff h.
Proof. intros [-> | ->]; [done|apply settle_noff]. Qed.

Lemma release_run lk h g s :
  hart_wf h -> lk ∉ h_held h -> calm (locked lk h) g -> release lk g s = Done tt (settle h) s.
Proof.
  intros Hwf Hn [-> | ->]; [by apply release_locked|].
  rewrite locked_noff by done. by apply release_locked.
Qed.

(** The only p->lock this hart holds is that of its own process. *)
Definition procs_free (h : hart) : Prop := forall i, L_proc i ∈ h_held h -> h_proc h = Some i.

Lemma procs_free_calm h g : calm h g -> procs_free h -> procs_free g.
Proof. intros Hc Hf i. rewrite (calm_held h g Hc), (calm_proc h g Hc). apply Hf. Qed.

Lemma procs_free_notin h i : procs_free h -> h_proc h <> Some i -> L_proc i ∉ h_held h.
Proof. intros Hf Hn Hi. by apply Hn, Hf. Qed.

(** ** wakeup *)

Definition wake_one (ch : chan) (me : option nat) (i : nat) (x : proc) : proc :=
  if bool_decide (me <> Some i) && (bool_decide (p_state x = SLEEPING) && bool_decide (p_chan x = Some ch))
  then set_p_state RUNNABLE x else x.

Definition woken (ch : chan) (me : option nat) (procs : list proc) : list proc :=
  imap (wake_one ch me) procs.

Lemma wakeup_run ch h s :
  hart_wf h -> procs_free h -> length (k_proc s) = NPROC ->
  wakeup ch h s = Done tt (settle h) (set_k_proc (woken ch (h_proc h) (k_proc s)) s).
Proof.
  intros Hwf Hf Hlen. apply forM_table; [done|]. intros i t g Hi Ht Hc.
  destruct (lookup_lt_is_Some_2 (k_proc t) i) as [x Hx]; [lia|].
  krun (myproc_run g t (calm_wf _ _ Hc Hwf)). rewrite (settle_calm h g Hc), (calm_proc h g Hc).
  unfold when at 1. case_bool_decide as Hme.
  - assert (Hni : L_proc i ∉ h_held (settle h)).
    { rewrite settle_held. by apply procs_free_notin. }
    krun (acquire_run (L_proc i) (settle h) t Hni). rewrite (bind_pget _ _ _ _ _ x Hx). ksimpl.
    unfold id. destruct (_ && _) eqn:Ew; simpl.
    + ksimpl. rewrite (release_run _ (settle h)) by (auto with xv6). rewrite settle_idemp. f_equal.
      eapply upd_proc_ext; [exact Hx|]. unfold wake_one.
      rewrite bool_decide_eq_true_2 by done. by rewrite Ew.
    + ksimpl. rewrite (release_run _ (settle h)) by (auto with xv6). rewrite settle_idemp. f_equal.
      symmetry. eapply upd_proc_id; [exact Hx|]. unfold wake_one. by rewrite Ew, andb_false_r.
  - ksimpl. f_equal. symmetry. eapply upd_proc_id; [exact Hx|].
    unfold wake_one. by rewrite bool_decide_eq_false_2 by auto.
Qed.

(** ** System calls

    A process inside a system call that holds no lock. *)
Definition in_syscall (h : hart) (pr : nat) : Prop :=
  h_proc h = Some pr /\ h_held h = [] /\ h_noff h = 0.

Lemma in_syscall_wf h pr : in_syscall h pr -> hart_wf h.
Proof. intros (_ & Hh & Hn). constructor; rewrite ?Hh, ?Hn; simpl; [lia|lia|constructor]. Qed.

Lemma in_syscall_notin lk h pr : in_syscall h pr -> lk ∉ h_held h.
Proof. intros (_ & -> & _). apply not_elem_of_nil. Qed.

Lemma in_syscall_settle h pr : in_syscall h pr -> in_syscall (settle h) pr.
Proof. intros (? & ? & ?). unfold in_syscall. by rewrite settle_proc, settle_held, settle_noff. Qed.

(** What it knows once it has taken a lock. *)
Lemma syscall_locked lk h pr : in_syscall h pr -> (forall i, lk <> L_proc i) ->
  let g := locked lk h in
  hart_wf g /\ procs_free g /\ settle g = g /\ h_proc g = Some pr /\ h_held g = [lk] /\ h_noff g = 1 /\ h_sie g = false.
Proof.
  intros Hs Hlk g. pose proof (in_syscall_wf _ _ Hs) as Hwf. destruct Hs as (Hp & Hh & Hn).
  assert (Hheld : h_held g = [lk]) by (subst g; unfold locked, pushed; simpl; by rewrite Hh).
  split_and!; [| | |subst g; unfold locked, pushed; simpl; auto..].
  - apply wf_locked; [done|]. rewrite Hh. apply not_elem_of_nil.
  - intros i Hi. rewrite Hheld in Hi. apply list_elem_of_singleton in Hi. by destruct (Hlk i).
  - by apply locked_noff.
  - by rewrite Hn.
Qed.

(** The usual end of a critical section that made room for others. *)
Lemma wakeup_release {A} lk ch pr h s (a : A) :
  in_syscall h pr -> (forall i, lk <> L_proc i) -> length (k_proc s) = NPROC ->
  (wakeup ch;; release lk;; ret a) (locked lk h) s =
  Done a (settle h) (set_k_proc (woken ch (Some pr) (k_proc s)) s).
Proof.
  intros Hs Hlk Hl. destruct (syscall_locked lk h pr Hs Hlk) as (Hwf & Hf & Hset & Hp & _).
  pose proof (wakeup_run ch _ s Hwf Hf Hl) as Ew. rewrite Hset, Hp in Ew. krun Ew.
  set (s1 := set_k_proc _ s).
  by rewrite (bind_done _ _ _ _ _ _ _ (release_run lk h _ s1 (in_syscall_wf _ _ Hs) (in_syscall_notin lk h pr Hs) (calm_refl _))).
Qed.

Lemma woken_me ch pr procs : woken ch (Some pr) procs !! pr = procs !! pr.
Proof.
  unfold woken. rewrite list_lookup_imap. destruct (procs !! pr) as [y|]; [|done]. simpl. unfold wake_one.
  by rewrite bool_decide_eq_false_2 by tauto.
Qed.

(** ** Searches through the table

    A search whose body skips the entries that do not satisfy [P] runs the body of
    the first one that does. *)
Lemma forM_exit_find {R} (P : nat -> bool) (l : list nat) (body : nat -> K kernel (option R)) h s :
  (forall i g, i ∈ l -> P i = false -> calm h g -> exists g', body i g s = Done None g' s /\ calm h g') ->
  match List.find P l with
  | None => exists g, forM_exit l body h s = Done None g s /\ calm h g
  | Some i => exists post g, calm h g /\
      forM_exit l body h s =
      bind (body i) (fun r => match r with Some _ => ret r | None => forM_exit post body end) g s
  end.
Proof.
  intros Hskip.
  cut (forall l' g, (forall i, i ∈ l' -> i ∈ l) -> calm h g ->
    match List.find P l' with
    | None => exists g', forM_exit l' body g s = Done None g' s /\ calm h g'
    | Some i => exists post g', calm h g' /\
        forM_exit l' body g s =
        bind (body i) (fun r => match r with Some _ => ret r | None => forM_exit post body end) g' s
    end).
  { intros Hc. by apply Hc; [|apply calm_refl]. }
  induction l' as [|i l' IH]; intros g Hsub Hg; simpl; [eauto|].
  destruct (P i) eqn:EP; [eauto|].
  destruct (Hskip i g) as (g1 & E1 & Hg1); [apply Hsub; set_solver|done|done|].
  rewrite (bind_done _ _ _ _ _ _ _ E1). apply IH; [|done]. intros j Hj. apply Hsub. set_solver.
Qed.

End ops.

(** ** Messages on the console *)

Lemma kprintf_run fmt ap h s :
  typed (str fmt) ap = true -> hart_wf h -> panicked (k_tty s) = false -> L_pr ∉ h_held h ->
  exists bs h', kprintf fmt ap h s = Done tt h' (set_k_tty (emit bs (k_tty s)) s) /\ calm h h'.
Proof.
  intros Ht Hwf Hp Hn. destruct (printf_run fmt ap h (k_tty s) Ht Hwf Hp Hn) as (bs & h' & E & Hc).
  exists bs, h'. split; [|done]. unfold kprintf, in_tty, zoom. by rewrite E.
Qed.
