(* ===== verification/Sleeplock.v ===== *)
(** * Sleeplock

    kernel/sleeplock.c. The sleep locks of the kernel are those of the buffers
    and of the in-memory inodes. *)
From stdpp Require Import base tactics list numbers gmap strings.
From S2P Require Import Prelude Machine Spinlock Printf Bytes Queue Kalloc Vm Kernel Proc.

(** &b->lock and &ip->lock *)
Inductive slid := SL_buf (b : nat) | SL_inode (i : nat).

#[export] Instance slid_eq_dec : EqDecision slid.
Proof. solve_decision. Defined.

(** &lk->lk, and the sleep channel lk *)
Definition sl_lk (l : slid) : lockid := match l with SL_buf b => L_buf b | SL_inode i => L_inode i end.
Definition sl_chan (l : slid) : chan :=
  match l with SL_buf b => Ch_buflock b | SL_inode i => Ch_inodelock i end.

Definition sl_get {A} (l : slid) (f : sleeplock -> A) : K kernel A :=
  match l with
  | SL_buf b => buf_get b (fun x => f (b_lock x))
  | SL_inode i => inode_get i (fun x => f (i_lock x))
  end.
Definition sl_set (l : slid) (f : sleeplock -> sleeplock) : K kernel unit :=
  match l with
  | SL_buf b => buf_set b (fun x => set_b_lock (f (b_lock x)) x)
  | SL_inode i => inode_set i (fun x => set_i_lock (f (i_lock x)) x)
  end.

Section sleeplock.
Context `{Layout} `{Symbols} `{WaitFuel}.

Definition initsleeplock (l : slid) : K kernel unit :=
  sl_set l (set_sl_locked 0);;
  sl_set l (set_sl_pid 0).

(** [while (lk->locked) sleep(lk, &lk->lk)] *)
Fixpoint acquiresleep_loop (fuel : nat) (l : slid) : K kernel unit :=
  locked <- sl_get l sl_locked;;
  if locked =? 0 then ret tt else
  match fuel with
  | O => nofuel
  | S f => sleep (sl_chan l) (sl_lk l);; acquiresleep_loop f l
  end.

Definition acquiresleep (l : slid) : K kernel unit :=
  acquire (sl_lk l);;
  acquiresleep_loop wait_fuel l;;
  sl_set l (set_sl_locked 1);;
  p <- curproc;;
  pid <- pget p p_pid;;
  sl_set l (set_sl_pid pid);;
  release (sl_lk l).

Definition releasesleep (l : slid) : K kernel unit :=
  acquire (sl_lk l);;
  sl_set l (set_sl_locked 0);;
  sl_set l (set_sl_pid 0);;
  wakeup (sl_chan l);;
  release (sl_lk l).

Definition holdingsleep (l : slid) : K kernel bool :=
  acquire (sl_lk l);;
  x <- sl_get l id;;
  r <- (if truthy (sl_locked x) then
          p <- curproc;;
          pid <- pget p p_pid;;
          ret (sl_pid x =? pid)
        else ret false);;
  release (sl_lk l);;
  ret r.

End sleeplock.
