(* ===== verification/Virtio.v ===== *)
(** * Virtio

    kernel/virtio_disk.c: the descriptor table, a disk request from the driver's
    side and the completion interrupt. The device itself is not modelled here: it
    reads the avail ring and writes the used ring, the status bytes and, for a
    read, the data of the buffer. *)
From stdpp Require Import base tactics list numbers gmap strings.
From S2P Require Import Prelude Machine Spinlock Printf Bytes Queue Kalloc Vm Kernel Proc.

Definition VRING_DESC_F_NEXT : Z := 1.
Definition VRING_DESC_F_WRITE : Z := 2.
Definition VIRTIO_BLK_T_IN : Z := 0.
Definition VIRTIO_BLK_T_OUT : Z := 1.

Section virtio.
Context `{Layout} `{Symbols} `{WaitFuel}.

Definition desc_set (i : nat) (f : virtq_desc -> virtq_desc) : K kernel unit :=
  disk_set (fun d => set_d_desc (alter f i (d_desc d)) d).
Definition desc_get {A} (i : nat) (f : virtq_desc -> A) : K kernel A :=
  x <- disk_get (fun d => d_desc d !! i);; x <- deref x;; ret (f x).
Definition free_get (i : nat) : K kernel bool :=
  x <- disk_get (fun d => d_free d !! i);; deref x.
Definition free_set (i : nat) (v : bool) : K kernel unit :=
  disk_set (fun d => set_d_free (<[i := v]> (d_free d)) d).

(** [None] is the return value -1. *)
Definition alloc_desc : K kernel (option nat) :=
  forM_exit (upto NUM) (fun i =>
    fr <- free_get i;;
    if fr then free_set i false;; ret (Some i) else ret None).

Definition free_desc (i : nat) : K kernel unit :=
  if (NUM <=? i)%nat then panic "free_desc 1" else
  fr <- free_get i;;
  if fr then panic "free_desc 2" else
  desc_set i (set_vd_addr A_none);;
  desc_set i (set_vd_len 0);;
  desc_set i (set_vd_flags 0);;
  desc_set i (set_vd_next 0);;
  free_set i true;;
  wakeup Ch_free.

(** A descriptor that was freed is not freed again, so NUM steps are enough. *)
Fixpoint free_chain_loop (fuel : nat) (i : nat) : K kernel unit :=
  match fuel with
  | O => nofuel
  | S f =>
      flag <- desc_get i vd_flags;;
      nxt <- desc_get i vd_next;;
      free_desc i;;
      if truthy (Z.land flag VRING_DESC_F_NEXT) then free_chain_loop f (Z.to_nat nxt) else ret tt
  end.
Definition free_chain (i : nat) : K kernel unit := free_chain_loop (S NUM) i.

(** [n] descriptors are still to be allocated, [idx] are those already taken. *)
Fixpoint alloc_descs (n : nat) (idx : list nat) : K kernel (option (list nat)) :=
  match n with
  | O => ret (Some idx)
  | S n =>
      i <- alloc_desc;;
      match i with
      | Some i => alloc_descs n (idx ++ [i])
      | None => forM idx free_desc;; ret None
      end
  end.
Definition alloc3_desc : K kernel (option (nat * nat * nat)) :=
  r <- alloc_descs 3 [];;
  match r with
  | Some [i0; i1; i2] => ret (Some (i0, i1, i2))
  | _ => ret None
  end.

(** [while (1) { if (alloc3_desc(idx) == 0) break; sleep(..); }] *)
Fixpoint alloc3_wait (fuel : nat) : K kernel (nat * nat * nat) :=
  r <- alloc3_desc;;
  match r with
  | Some idx => ret idx
  | None =>
      match fuel with
      | O => nofuel
      | S f => sleep Ch_free L_vdisk;; alloc3_wait f
      end
  end.

(** [while (b->disk == 1) sleep(b, &disk.vdisk_lock)] *)
Fixpoint disk_wait (fuel : nat) (b : nat) : K kernel unit :=
  d <- buf_get b b_disk;;
  if negb (d =? 1) then ret tt else
  match fuel with
  | O => nofuel
  | S f => sleep (Ch_buf b) L_vdisk;; disk_wait f b
  end.

(** Formatting the three descriptors and handing the chain to the device. *)
Definition virtio_submit (b : nat) (write : bool) (sector : Z) (i0 i1 i2 : nat) : K kernel unit :=
  disk_set (fun d => set_d_ops (<[i0 := BlkReq (if write then VIRTIO_BLK_T_OUT else VIRTIO_BLK_T_IN)
                                          0 sector]> (d_ops d)) d);;
  desc_set i0 (fun _ => Desc (A_ops i0) 16 VRING_DESC_F_NEXT (Z.of_nat i1));;
  desc_set i1 (fun _ => Desc (A_data b) BSIZE
    (Z.lor (if write then 0 else VRING_DESC_F_WRITE) VRING_DESC_F_NEXT) (Z.of_nat i2));;
  disk_set (fun d => set_d_info_status (<[i0 := 0xff]> (d_info_status d)) d);;
  desc_set i2 (fun _ => Desc (A_status i0) 1 VRING_DESC_F_WRITE 0);;
  buf_set b (set_b_disk 1);;
  disk_set (fun d => set_d_info_b (<[i0 := Some b]> (d_info_b d)) d);;
  disk_set (fun d => set_d_avail_ring
    (<[Z.to_nat (d_avail_idx d mod Z.of_nat NUM) := Z.of_nat i0]> (d_avail_ring d)) d);;
  disk_set (fun d => set_d_avail_idx (u16 (d_avail_idx d + 1)) d).

Definition virtio_disk_rw (b : nat) (write : bool) : K kernel unit :=
  blockno <- buf_get b b_blockno;;
  let sector := u32 (blockno * (BSIZE / 512)) in
  acquire L_vdisk;;
  idx <- alloc3_wait wait_fuel;;
  let '(i0, i1, i2) := idx in
  virtio_submit b write sector i0 i1 i2;;
  disk_wait wait_fuel b;;
  disk_set (fun d => set_d_info_b (<[i0 := None]> (d_info_b d)) d);;
  free_chain i0;;
  release L_vdisk.

(** [while (disk.used_idx != disk.used->idx)]: one round per entry the device added. *)
Fixpoint intr_loop (fuel : nat) : K kernel unit :=
  d <- disk_get id;;
  if d_seen_idx d =? d_used_idx d then ret tt else
  match fuel with
  | O => nofuel
  | S f =>
      id <- deref (d_used_ring d !! Z.to_nat (d_seen_idx d mod Z.of_nat NUM));;
      st <- deref (d_info_status d !! Z.to_nat id);;
      if negb (st =? 0) then panic "virtio_disk_intr status" else
      b <- deref (d_info_b d !! Z.to_nat id);;
      b <- deref b;;
      buf_set b (set_b_disk 0);;
      wakeup (Ch_buf b);;
      disk_set (fun d => set_d_seen_idx (u16 (d_seen_idx d + 1)) d);;
      intr_loop f
  end.

Definition virtio_disk_intr : K kernel unit :=
  acquire L_vdisk;;
  d <- disk_get id;;
  intr_loop (Z.to_nat (u16 (d_used_idx d - d_seen_idx d)));;
  release L_vdisk.

(** The part of virtio_disk_init that sets up the driver's own state; the
    rings are cleared by memset. *)
Definition virtio_disk_reset : K kernel unit :=
  disk_set (set_d_desc (replicate NUM (Desc A_none 0 0 0)));;
  disk_set (set_d_avail_idx 0);;
  disk_set (set_d_avail_ring (replicate NUM 0));;
  disk_set (set_d_used_idx 0);;
  disk_set (set_d_used_ring (replicate NUM 0));;
  forM (upto NUM) (fun i => free_set i true).

End virtio.
