(* ===== verification/Bio.v ===== *)
(** * Bio

    kernel/bio.c: the buffer cache, a doubly linked list of buffers in order of
    use, with its operations. *)
From stdpp Require Import base tactics list numbers gmap strings.
From S2P Require Import Prelude Machine Spinlock Printf Bytes Queue Kalloc Vm Kernel Proc.
From S2P Require Import Sleeplock Virtio.

Section bio.
Context `{Layout} `{Symbols} `{WaitFuel}.

(** [b->next] and [b->prev] for a buffer or for &bcache.head, which is [NBUF]. *)
Definition next_of (n : nat) (c : bcache) : option nat :=
  if (n =? NBUF)%nat then Some (bc_head_next c) else b_next <$> bc_buf c !! n.
Definition prev_of (n : nat) (c : bcache) : option nat :=
  if (n =? NBUF)%nat then Some (bc_head_prev c) else b_prev <$> bc_buf c !! n.
Definition set_next (n v : nat) (c : bcache) : bcache :=
  if (n =? NBUF)%nat then set_bc_head_next v c
  else set_bc_buf (alter (set_b_next v) n (bc_buf c)) c.
Definition set_prev (n v : nat) (c : bcache) : bcache :=
  if (n =? NBUF)%nat then set_bc_head_prev v c
  else set_bc_buf (alter (set_b_prev v) n (bc_buf c)) c.

Definition bc_get {A} (f : bcache -> A) : K kernel A := gets (fun s => f (k_bcache s)).
Definition bc_set (f : bcache -> bcache) : K kernel unit :=
  modify (fun s => set_k_bcache (f (k_bcache s)) s).
Definition get_next (n : nat) : K kernel nat := x <- bc_get (next_of n);; deref x.
Definition get_prev (n : nat) : K kernel nat := x <- bc_get (prev_of n);; deref x.

(** The last four assignments of brelse: [b] becomes the first of the list. *)
Definition link_front (b : nat) : K kernel unit :=
  n <- get_next NBUF;;
  bc_set (set_next b n);;
  bc_set (set_prev b NBUF);;
  n <- get_next NBUF;;
  bc_set (set_prev n b);;
  bc_set (set_next NBUF b).

Definition binit : K kernel unit :=
  bc_set (set_prev NBUF NBUF);;
  bc_set (set_next NBUF NBUF);;
  forM (upto NBUF) (fun b =>
    n <- get_next NBUF;;
    bc_set (set_next b n);;
    bc_set (set_prev b NBUF);;
    initsleeplock (SL_buf b);;
    n <- get_next NBUF;;
    bc_set (set_prev n b);;
    bc_set (set_next NBUF b)).

(** The two searches of bget; the list has [NBUF] buffers and the header. *)
Fixpoint find_cached (fuel : nat) (c : bcache) (b : nat) (dev blockno : Z) : option (option nat) :=
  if (b =? NBUF)%nat then Some None else
  match fuel with
  | O => None
  | S f =>
      x ← bc_buf c !! b;
      if (b_dev x =? dev) && (b_blockno x =? blockno) then Some (Some b)
      else find_cached f c (b_next x) dev blockno
  end.
Fixpoint find_unused_buf (fuel : nat) (c : bcache) (b : nat) : option (option nat) :=
  if (b =? NBUF)%nat then Some None else
  match fuel with
  | O => None
  | S f =>
      x ← bc_buf c !! b;
      if b_refcnt x =? 0 then Some (Some b) else find_unused_buf f c (b_prev x)
  end.

Definition bget (dev blockno : Z) : K kernel nat :=
  acquire L_bcache;;
  c <- bc_get id;;
  r <- deref (find_cached NBUF c (bc_head_next c) dev blockno);;
  match r with
  | Some b =>
      buf_set b (fun x => set_b_refcnt (u32 (b_refcnt x + 1)) x);;
      release L_bcache;;
      acquiresleep (SL_buf b);;
      ret b
  | None =>
      r <- deref (find_unused_buf NBUF c (bc_head_prev c));;
      match r with
      | Some b =>
          buf_set b (set_b_dev dev);;
          buf_set b (set_b_blockno blockno);;
          buf_set b (set_b_valid 0);;
          buf_set b (set_b_refcnt 1);;
          release L_bcache;;
          acquiresleep (SL_buf b);;
          ret b
      | None => panic "bget: no buffers"
      end
  end.

Definition bread (dev blockno : Z) : K kernel nat :=
  b <- bget dev blockno;;
  valid <- buf_get b b_valid;;
  when (valid =? 0) (virtio_disk_rw b false;; buf_set b (set_b_valid 1));;
  ret b.

Definition bwrite (b : nat) : K kernel unit :=
  r <- holdingsleep (SL_buf b);;
  if negb r then panic "bwrite" else virtio_disk_rw b true.

Definition brelse (b : nat) : K kernel unit :=
  r <- holdingsleep (SL_buf b);;
  if negb r then panic "brelse" else
  releasesleep (SL_buf b);;
  acquire L_bcache;;
  buf_set b (fun x => set_b_refcnt (u32 (b_refcnt x - 1)) x);;
  refcnt <- buf_get b b_refcnt;;
  when (refcnt =? 0)
    (n <- get_next b;;
     p <- get_prev b;;
     bc_set (set_prev n p);;
     p <- get_prev b;;
     n <- get_next b;;
     bc_set (set_next p n);;
     link_front b);;
  release L_bcache.

Definition bpin (b : nat) : K kernel unit :=
  acquire L_bcache;;
  buf_set b (fun x => set_b_refcnt (u32 (b_refcnt x + 1)) x);;
  release L_bcache.

Definition bunpin (b : nat) : K kernel unit :=
  acquire L_bcache;;
  buf_set b (fun x => set_b_refcnt (u32 (b_refcnt x - 1)) x);;
  release L_bcache.

End bio.
