(* ===== verification/Log.v ===== *)
(** * Log

    kernel/log.c: the redo log. An in-memory header collects the blocks of the
    running transactions; commit writes them to the log area, then the header,
    then the home locations; recovery repeats the last step. *)
From stdpp Require Import base tactics list numbers gmap strings.
From S2P Require Import Prelude Machine Spinlock Printf Bytes Block Queue Kalloc Vm Kernel Proc.
From S2P Require Import Sleeplock Virtio Bio.

(** [log.lh.block[i]]: reading or writing outside the array has no behaviour. *)
Definition lh_block_get (i : nat) : K kernel Z :=
  x <- log_get (fun l => lh_block l !! i);; deref x.
Definition lh_block_set (i : nat) (v : Z) : K kernel unit :=
  n <- log_get (fun l => length (lh_block l));;
  if (i <? n)%nat then log_set (fun l => set_lh_block (<[i := v]> (lh_block l)) l)
  else panic "fault".

Section log.
Context `{Layout} `{Symbols} `{WaitFuel}.

Definition data_get {A} (b : nat) (f : list Z -> A) : K kernel A := buf_get b (fun x => f (b_data x)).
Definition data_set (b : nat) (f : list Z -> list Z) : K kernel unit :=
  buf_set b (fun x => set_b_data (f (b_data x)) x).

(** The loops run to log.lh.n, which is constant here: only log_write and commit
    change it, and no operation is outstanding while a commit runs. *)
Definition install_trans (recovering : bool) : K kernel unit :=
  n <- log_get lh_n;;
  forM (upto (Z.to_nat n)) (fun tail =>
    dev <- log_get l_dev;;
    start <- log_get l_start;;
    lbuf <- bread dev (u32 (start + Z.of_nat tail + 1));;
    blk <- lh_block_get tail;;
    dbuf <- bread dev (u32 blk);;
    src <- data_get lbuf id;;
    data_set dbuf (fun _ => src);;
    bwrite dbuf;;
    when (negb recovering) (bunpin dbuf);;
    brelse lbuf;;
    brelse dbuf).

Definition read_head : K kernel unit :=
  dev <- log_get l_dev;;
  start <- log_get l_start;;
  buf <- bread dev (u32 start);;
  lh <- data_get buf id;;
  log_set (set_lh_n (i32 (get32 lh 0)));;
  n <- log_get lh_n;;
  forM (upto (Z.to_nat n)) (fun i => lh_block_set i (i32 (get32 lh (4 + 4 * i))));;
  brelse buf.

Definition write_head : K kernel unit :=
  dev <- log_get l_dev;;
  start <- log_get l_start;;
  buf <- bread dev (u32 start);;
  n <- log_get lh_n;;
  data_set buf (fun hb => put32 hb 0 n);;
  forM (upto (Z.to_nat n)) (fun i =>
    v <- lh_block_get i;;
    data_set buf (fun hb => put32 hb (4 + 4 * i) v));;
  bwrite buf;;
  brelse buf.

Definition recover_from_log : K kernel unit :=
  read_head;;
  install_trans true;;
  log_set (set_lh_n 0);;
  write_head.

Definition initlog (dev : Z) : K kernel unit :=
  sb <- gets k_sb;;
  log_set (set_l_start (i32 (sb_logstart sb)));;
  log_set (set_l_size (i32 (sb_nlog sb)));;
  log_set (set_l_dev dev);;
  recover_from_log.

Fixpoint begin_op_loop (fuel : nat) : K kernel unit :=
  l <- log_get id;;
  if negb (truthy (l_committing l)) && (lh_n l + (l_outstanding l + 1) * MAXOPBLOCKS <=? LOGSIZE) then
    log_set (fun l => set_l_outstanding (l_outstanding l + 1) l);;
    release L_log
  else
    match fuel with
    | O => nofuel
    | S f => sleep Ch_log L_log;; begin_op_loop f
    end.

Definition begin_op : K kernel unit :=
  acquire L_log;;
  begin_op_loop wait_fuel.

Definition write_log : K kernel unit :=
  n <- log_get lh_n;;
  forM (upto (Z.to_nat n)) (fun tail =>
    dev <- log_get l_dev;;
    start <- log_get l_start;;
    to <- bread dev (u32 (start + Z.of_nat tail + 1));;
    blk <- lh_block_get tail;;
    from <- bread dev (u32 blk);;
    src <- data_get from id;;
    data_set to (fun _ => src);;
    bwrite to;;
    brelse from;;
    brelse to).

Definition commit : K kernel unit :=
  n <- log_get lh_n;;
  when (0 <? n)
    (write_log;;
     write_head;;
     install_trans false;;
     log_set (set_lh_n 0);;
     write_head).

Definition end_op : K kernel unit :=
  acquire L_log;;
  log_set (fun l => set_l_outstanding (l_outstanding l - 1) l);;
  l <- log_get id;;
  if truthy (l_committing l) then panic "log.committing" else
  (if l_outstanding l =? 0 then log_set (set_l_committing 1) else wakeup Ch_log);;
  release L_log;;
  when (l_outstanding l =? 0)
    (commit;;
     acquire L_log;;
     log_set (set_l_committing 0);;
     wakeup Ch_log;;
     release L_log).

(** The index at which log_write stores the block number: the first equal entry,
    or [n]. *)
Fixpoint absorb_index (i : nat) (n : nat) (blocks : list Z) (blockno : Z) : nat :=
  match n with
  | O => i
  | S n =>
      if u32 (default 0 (blocks !! i)) =? blockno then i
      else absorb_index (S i) n blocks blockno
  end.

Definition log_write (b : nat) : K kernel unit :=
  acquire L_log;;
  l <- log_get id;;
  if (LOGSIZE <=? lh_n l) || (l_size l - 1 <=? lh_n l) then panic "too big a transaction" else
  if l_outstanding l <? 1 then panic "log_write outside of trans" else
  blockno <- buf_get b b_blockno;;
  let i := absorb_index 0 (Z.to_nat (lh_n l)) (lh_block l) blockno in
  lh_block_set i (i32 blockno);;
  when (Z.of_nat i =? lh_n l)
    (bpin b;;
     log_set (fun l => set_lh_n (lh_n l + 1) l));;
  release L_log.

End log.
