(* ===== verification/Fs.v ===== *)
(** * Fs

    kernel/fs.c: blocks, inodes, file content, directories and path names. *)
From stdpp Require Import base tactics list numbers gmap strings.
From S2P Require Import Prelude Machine Spinlock Printf Bytes Block Queue Kalloc Vm Kernel Proc.
From S2P Require Import Sleeplock Virtio Bio Log.

Definition ROOTDEV : Z := 1.
Definition ROOTINO : Z := 1.
Definition FSMAGIC : Z := 0x10203040.
Definition DINODE_SIZE : Z := 64.
Definition IPB : Z := BSIZE / DINODE_SIZE.
Definition IBLOCK (i : Z) (sb : superblock) : Z := u32 (i / IPB + sb_inodestart sb).
Definition BPB : Z := BSIZE * 8.
Definition BBLOCK (b : Z) (sb : superblock) : Z := u32 (b / BPB + sb_bmapstart sb).
Definition DIRSIZ : nat := 14.
Definition DIRENT : Z := 16.
Definition T_DIR : Z := 1.
Definition T_FILE : Z := 2.
Definition T_DEVICE : Z := 3.

(** ** Structures inside a block *)

Definition get_superblock (l : list Z) : superblock :=
  Superblock (get32 l 0) (get32 l 4) (get32 l 8) (get32 l 12) (get32 l 16) (get32 l 20)
    (get32 l 24) (get32 l 28).

Definition get_dinode (l : list Z) (off : nat) : dinode :=
  Dinode (i16 (get16 l off)) (i16 (get16 l (off + 2))) (i16 (get16 l (off + 4)))
    (i16 (get16 l (off + 6))) (get32 l (off + 8))
    (map (fun i => get32 l (off + 12 + 4 * i)) (upto (S NDIRECT))).

(** The assignments of iupdate, field by field. *)
Definition put_addrs (l : list Z) (off : nat) (addrs : list Z) : list Z :=
  splice l off (flat_map (le_bytes 4) addrs).
Definition put_dinode (l : list Z) (off : nat) (d : dinode) : list Z :=
  let l := put16 l off (u16 (d_type d)) in
  let l := put16 l (off + 2) (u16 (d_major d)) in
  let l := put16 l (off + 4) (u16 (d_minor d)) in
  let l := put16 l (off + 6) (u16 (d_nlink d)) in
  let l := put32 l (off + 8) (d_size d) in
  put_addrs l (off + 12) (d_addrs d).

(** [(struct dinode* )bp->data + inum%IPB] *)
Definition dinode_off (inum : Z) : nat := Z.to_nat (DINODE_SIZE * (inum mod IPB)).

Section fs.
Context `{Layout} `{Symbols} `{WaitFuel}.

Definition readsb (dev : Z) : K kernel unit :=
  bp <- bread dev 1;;
  data <- data_get bp id;;
  modify (set_k_sb (get_superblock data));;
  brelse bp.

Definition fsinit (dev : Z) : K kernel unit :=
  readsb dev;;
  sb <- gets k_sb;;
  if negb (sb_magic sb =? FSMAGIC) then panic "invalid file system" else
  initlog dev.

Definition bzero (dev bno : Z) : K kernel unit :=
  bp <- bread dev bno;;
  data_set bp (fun _ => replicate (Z.to_nat BSIZE) 0);;
  log_write bp;;
  brelse bp.

(** ** Blocks *)

Definition bit_mask (bi : Z) : Z := Z.shiftl 1 (bi mod 8).
Definition byte_at (data : list Z) (i : Z) : Z := default 0 (data !! Z.to_nat i).

(** The inner loop of balloc: the first clear bit from [bi] on. *)
Fixpoint scan_bits (fuel : nat) (data : list Z) (b bi size : Z) : option Z :=
  match fuel with
  | O => None
  | S f =>
      if (bi <? BPB) && (b + bi <? size) then
        if Z.land (byte_at data (bi / 8)) (bit_mask bi) =? 0 then Some bi
        else scan_bits f data b (bi + 1) size
      else None
  end.

(** The outer loop, one round per bitmap block. *)
Fixpoint balloc_loop (fuel : nat) (dev b : Z) : K kernel Z :=
  sb <- gets k_sb;;
  if negb (b <? sb_size sb) then panic "balloc: out of blocks" else
  match fuel with
  | O => nofuel
  | S f =>
      bp <- bread dev (BBLOCK b sb);;
      data <- data_get bp id;;
      match scan_bits (Z.to_nat BPB) data b 0 (sb_size sb) with
      | Some bi =>
          data_set bp (alter (fun x => Z.lor x (bit_mask bi)) (Z.to_nat (bi / 8)));;
          log_write bp;;
          brelse bp;;
          bzero dev (b + bi);;
          ret (b + bi)
      | None => brelse bp;; balloc_loop f dev (b + BPB)
      end
  end.

Definition balloc (dev : Z) : K kernel Z :=
  sb <- gets k_sb;;
  balloc_loop (Z.to_nat (sb_size sb / BPB + 1)) dev 0.

Definition bfree (dev b : Z) : K kernel unit :=
  sb <- gets k_sb;;
  bp <- bread dev (BBLOCK b sb);;
  let bi := b mod BPB in
  let m := bit_mask bi in
  data <- data_get bp id;;
  if Z.land (byte_at data (bi / 8)) m =? 0 then panic "freeing free block" else
  data_set bp (alter (fun x => Z.land x (u8 (Z.lnot m))) (Z.to_nat (bi / 8)));;
  log_write bp;;
  brelse bp.

(** ** Inodes *)

Definition iinit : K kernel unit :=
  forM (upto NINODE) (fun i => initsleeplock (SL_inode i)).

(** The search of iget: the entry of the inode, or the first free one. *)
Fixpoint iget_scan (inodes : list inode) (i : nat) (dev inum : Z) (empty : option nat)
    : nat + option nat :=
  match inodes with
  | [] => inr empty
  | ip :: inodes =>
      if (0 <? i_ref ip) && (i_dev ip =? dev) && (i_inum ip =? inum) then inl i
      else iget_scan inodes (S i) dev inum
             (if bool_decide (empty = None) && (i_ref ip =? 0) then Some i else empty)
  end.

Definition iget (dev inum : Z) : K kernel nat :=
  acquire L_itable;;
  inodes <- gets k_inode;;
  match iget_scan inodes 0 dev inum None with
  | inl ip =>
      inode_set ip (fun x => set_i_ref (i32 (i_ref x + 1)) x);;
      release L_itable;;
      ret ip
  | inr None => panic "iget: no inodes"
  | inr (Some ip) =>
      inode_set ip (set_i_dev dev);;
      inode_set ip (set_i_inum inum);;
      inode_set ip (set_i_ref 1);;
      inode_set ip (set_i_valid 0);;
      release L_itable;;
      ret ip
  end.

Definition idup (ip : nat) : K kernel nat :=
  acquire L_itable;;
  inode_set ip (fun x => set_i_ref (i32 (i_ref x + 1)) x);;
  release L_itable;;
  ret ip.

Fixpoint ialloc_loop (fuel : nat) (dev type inum : Z) : K kernel nat :=
  sb <- gets k_sb;;
  if negb (inum <? sb_ninodes sb) then panic "ialloc: no inodes" else
  match fuel with
  | O => nofuel
  | S f =>
      bp <- bread dev (IBLOCK inum sb);;
      let off := dinode_off inum in
      data <- data_get bp id;;
      if i16 (get16 data off) =? 0 then
        data_set bp (fun l => splice l off (replicate (Z.to_nat DINODE_SIZE) 0));;
        data_set bp (fun l => put16 l off (u16 type));;
        log_write bp;;
        brelse bp;;
        iget dev inum
      else brelse bp;; ialloc_loop f dev type (inum + 1)
  end.

Definition ialloc (dev type : Z) : K kernel nat :=
  sb <- gets k_sb;;
  ialloc_loop (Z.to_nat (sb_ninodes sb)) dev type 1.

Definition iupdate (ip : nat) : K kernel unit :=
  x <- inode_get ip id;;
  sb <- gets k_sb;;
  bp <- bread (i_dev x) (IBLOCK (i_inum x) sb);;
  x <- inode_get ip id;;
  data_set bp (fun l => put_dinode l (dinode_off (i_inum x))
    (Dinode (i_type x) (i_major x) (i_minor x) (i_nlink x) (i_size x) (i_addrs x)));;
  log_write bp;;
  brelse bp.

(** [None] is the null pointer. *)
Definition ilock (ip : option nat) : K kernel unit :=
  match ip with
  | None => panic "ilock"
  | Some ip =>
      ref <- inode_get ip i_ref;;
      if ref <? 1 then panic "ilock" else
      acquiresleep (SL_inode ip);;
      x <- inode_get ip id;;
      when (i_valid x =? 0)
        (sb <- gets k_sb;;
         bp <- bread (i_dev x) (IBLOCK (i_inum x) sb);;
         data <- data_get bp id;;
         let d := get_dinode data (dinode_off (i_inum x)) in
         inode_set ip (set_i_type (d_type d));;
         inode_set ip (set_i_major (d_major d));;
         inode_set ip (set_i_minor (d_minor d));;
         inode_set ip (set_i_nlink (d_nlink d));;
         inode_set ip (set_i_size (d_size d));;
         inode_set ip (set_i_addrs (d_addrs d));;
         brelse bp;;
         inode_set ip (set_i_valid 1);;
         type <- inode_get ip i_type;;
         if type =? 0 then panic "ilock: no type" else ret tt)
  end.

Definition iunlock (ip : option nat) : K kernel unit :=
  match ip with
  | None => panic "iunlock"
  | Some ip =>
      r <- holdingsleep (SL_inode ip);;
      if negb r then panic "iunlock" else
      ref <- inode_get ip i_ref;;
      if ref <? 1 then panic "iunlock" else
      releasesleep (SL_inode ip)
  end.

(** ** Inode content *)

Definition addr_get (ip i : nat) : K kernel Z :=
  x <- inode_get ip (fun x => i_addrs x !! i);; deref x.
Definition addr_set (ip i : nat) (v : Z) : K kernel unit :=
  inode_set ip (fun x => set_i_addrs (<[i := v]> (i_addrs x)) x).

Definition bmap (ip : nat) (bn : Z) : K kernel Z :=
  dev <- inode_get ip i_dev;;
  if bn <? Z.of_nat NDIRECT then
    addr <- addr_get ip (Z.to_nat bn);;
    if addr =? 0 then
      addr <- balloc dev;;
      addr_set ip (Z.to_nat bn) addr;;
      ret addr
    else ret addr
  else
  let bn := bn - Z.of_nat NDIRECT in
  if bn <? NINDIRECT then
    addr <- addr_get ip NDIRECT;;
    addr <- (if addr =? 0 then
               addr <- balloc dev;;
               addr_set ip NDIRECT addr;;
               ret addr
             else ret addr);;
    bp <- bread dev addr;;
    addr <- data_get bp (fun a => get32 a (Z.to_nat (4 * bn)));;
    addr <- (if addr =? 0 then
               addr <- balloc dev;;
               data_set bp (fun a => put32 a (Z.to_nat (4 * bn)) addr);;
               log_write bp;;
               ret addr
             else ret addr);;
    brelse bp;;
    ret addr
  else panic "bmap: out of range".

Definition itrunc (ip : nat) : K kernel unit :=
  forM (upto NDIRECT) (fun i =>
    addr <- addr_get ip i;;
    dev <- inode_get ip i_dev;;
    when (truthy addr) (bfree dev addr;; addr_set ip i 0));;
  addr <- addr_get ip NDIRECT;;
  dev <- inode_get ip i_dev;;
  when (truthy addr)
    (bp <- bread dev addr;;
     forM (upto (Z.to_nat NINDIRECT)) (fun j =>
       a <- data_get bp (fun a => get32 a (4 * j));;
       when (truthy a) (bfree dev a));;
     brelse bp;;
     bfree dev addr;;
     addr_set ip NDIRECT 0);;
  inode_set ip (set_i_size 0);;
  iupdate ip.

Definition iput (ip : nat) : K kernel unit :=
  acquire L_itable;;
  x <- inode_get ip id;;
  when ((i_ref x =? 1) && truthy (i_valid x) && (i_nlink x =? 0))
    (acquiresleep (SL_inode ip);;
     release L_itable;;
     itrunc ip;;
     inode_set ip (set_i_type 0);;
     iupdate ip;;
     inode_set ip (set_i_valid 0);;
     releasesleep (SL_inode ip);;
     acquire L_itable);;
  inode_set ip (fun x => set_i_ref (i32 (i_ref x - 1)) x);;
  release L_itable.

Definition iunlockput (ip : nat) : K kernel unit :=
  iunlock (Some ip);;
  iput ip.

(** The bytes of struct stat; four padding bytes follow nlink. *)
Definition stati (ip : nat) : K kernel (list Z) :=
  x <- inode_get ip id;;
  ret (le_bytes 4 (i_dev x) ++ le_bytes 4 (i_inum x) ++ le_bytes 2 (u16 (i_type x)) ++
       le_bytes 2 (u16 (i_nlink x)) ++ replicate 4 0 ++ le_bytes 8 (i_size x)).

Definition dst_add (d : dst) (m : Z) : dst :=
  match d with DUser va => DUser (u64 (va + m)) | DKern pa => DKern (u64 (pa + m)) | DLocal => DLocal end.
Definition src_add (c : src) (m : Z) : src :=
  match c with SUser va => SUser (u64 (va + m)) | SLocal bs => SLocal (drop (Z.to_nat m) bs) end.

(** The loop of readi; the bytes copied are returned as well, for a local
    destination. *)
Fixpoint readi_loop (fuel : nat) (ip : nat) (d : dst) (off n tot : Z) : K kernel (Z * list Z) :=
  if negb (tot <? n) then ret (tot, []) else
  match fuel with
  | O => nofuel
  | S f =>
      dev <- inode_get ip i_dev;;
      addr <- bmap ip (off / BSIZE);;
      bp <- bread dev addr;;
      let m := Z.min (n - tot) (BSIZE - off mod BSIZE) in
      bs <- data_get bp (fun l => slice l (Z.to_nat (off mod BSIZE)) (Z.to_nat m));;
      r <- either_copyout d bs;;
      if r =? -1 then brelse bp;; ret (u32 (-1), []) else
      brelse bp;;
      q <- readi_loop f ip (dst_add d m) (u32 (off + m)) n (u32 (tot + m));;
      ret (q.1, bs ++ q.2)
  end.

(** One round per block touched. *)
Definition readi (ip : nat) (d : dst) (off n : Z) : K kernel (Z * list Z) :=
  size <- inode_get ip i_size;;
  if (size <? off) || (u32 (off + n) <? off) then ret (0, []) else
  let n := if size <? u32 (off + n) then u32 (size - off) else n in
  q <- readi_loop (Z.to_nat (n / BSIZE + 2)) ip d off n 0;;
  ret (i32 q.1, q.2).

(** The result is the final [tot] and [off]. A failed copy may have stored some
    bytes in the buffer, which is then not logged. *)
Fixpoint writei_loop (fuel : nat) (ip : nat) (c : src) (off n tot : Z) : K kernel (Z * Z) :=
  if negb (tot <? n) then ret (tot, off) else
  match fuel with
  | O => nofuel
  | S f =>
      dev <- inode_get ip i_dev;;
      addr <- bmap ip (off / BSIZE);;
      bp <- bread dev addr;;
      let m := Z.min (n - tot) (BSIZE - off mod BSIZE) in
      r <- either_copyin c m;;
      data_set bp (fun l => splice l (Z.to_nat (off mod BSIZE)) r.2);;
      if r.1 =? -1 then brelse bp;; ret (tot, off) else
      log_write bp;;
      brelse bp;;
      writei_loop f ip (src_add c m) (u32 (off + m)) n (u32 (tot + m))
  end.

Definition writei (ip : nat) (c : src) (off n : Z) : K kernel Z :=
  size <- inode_get ip i_size;;
  if (size <? off) || (u32 (off + n) <? off) then ret (-1) else
  if MAXFILE * BSIZE <? u32 (off + n) then ret (-1) else
  q <- writei_loop (Z.to_nat (n / BSIZE + 2)) ip c off n 0;;
  let '(tot, off) := q in
  size <- inode_get ip i_size;;
  when (size <? off) (inode_set ip (set_i_size off));;
  iupdate ip;;
  ret (i32 tot).

(** ** Directories *)

Definition namecmp (s t : list Z) : Z := strncmp (buf s) (buf t) DIRSIZ.

(** Fields of the bytes of a struct dirent. *)
Definition de_inum (de : list Z) : Z := get16 de 0.
Definition de_name (de : list Z) : list Z := slice de 2 DIRSIZ.

Fixpoint dirlookup_loop (fuel : nat) (dp : nat) (name : list Z) (off : Z)
    : K kernel (option (nat * Z)) :=
  size <- inode_get dp i_size;;
  if negb (off <? size) then ret None else
  match fuel with
  | O => nofuel
  | S f =>
      r <- readi dp DLocal off DIRENT;;
      if negb (r.1 =? DIRENT) then panic "dirlookup read" else
      let de := r.2 in
      if negb (de_inum de =? 0) && (namecmp name (de_name de) =? 0) then
        dev <- inode_get dp i_dev;;
        ip <- iget dev (de_inum de);;
        ret (Some (ip, off))
      else dirlookup_loop f dp name (u32 (off + DIRENT))
  end.

(** The inode and the byte offset of its entry. *)
Definition dirlookup (dp : nat) (name : list Z) : K kernel (option (nat * Z)) :=
  type <- inode_get dp i_type;;
  if negb (type =? T_DIR) then panic "dirlookup not DIR" else
  size <- inode_get dp i_size;;
  dirlookup_loop (Z.to_nat (size / DIRENT + 1)) dp name 0.

(** The search of dirlink for an entry with inum 0: its offset, or the size. *)
Fixpoint dirlink_slot (fuel : nat) (dp : nat) (off : Z) : K kernel Z :=
  size <- inode_get dp i_size;;
  if negb (off <? size) then ret off else
  match fuel with
  | O => nofuel
  | S f =>
      r <- readi dp DLocal off DIRENT;;
      if negb (r.1 =? DIRENT) then panic "dirlink read" else
      if de_inum r.2 =? 0 then ret off
      else dirlink_slot f dp (off + DIRENT)
  end.

Definition dirlink (dp : nat) (name : list Z) (inum : Z) : K kernel Z :=
  r <- dirlookup dp name;;
  match r with
  | Some (ip, _) => iput ip;; ret (-1)
  | None =>
      size <- inode_get dp i_size;;
      off <- dirlink_slot (Z.to_nat (size / DIRENT + 1)) dp 0;;
      let de := le_bytes 2 (u16 inum) ++ strncpy (buf name) DIRSIZ in
      r <- writei dp (SLocal de) (u32 off) DIRENT;;
      if negb (r =? DIRENT) then panic "dirlink" else ret 0
  end.

(** ** Paths *)

Definition SLASH : Z := 47.

Fixpoint skip_slashes (path : list Z) : list Z :=
  match path with c :: path' => if c =? SLASH then skip_slashes path' else path | [] => [] end.

(** The bytes before the next slash, and the rest. *)
Fixpoint take_elem (path : list Z) : list Z * list Z :=
  match path with
  | [] => ([], [])
  | c :: path' => if c =? SLASH then ([], path) else let '(e, r) := take_elem path' in (c :: e, r)
  end.

(** A path is a string without its NUL; [name] is the array of DIRSIZ bytes that
    skipelem overwrites. *)
Definition skipelem (path name : list Z) : option (list Z * list Z) :=
  let path := skip_slashes path in
  match path with
  | [] => None
  | _ =>
      let '(s, path) := take_elem path in
      let len := length s in
      let name := if (DIRSIZ <=? len)%nat then splice name 0 (take DIRSIZ s)
                  else splice name 0 (s ++ [0]) in
      Some (skip_slashes path, name)
  end.

(** One round per path element. *)
Fixpoint namex_loop (fuel : nat) (ip : nat) (path : list Z) (nameiparent : bool) (name : list Z)
    : K kernel (option nat * list Z) :=
  match skipelem path name with
  | None =>
      if nameiparent then iput ip;; ret (None, name) else ret (Some ip, name)
  | Some (path, name) =>
      match fuel with
      | O => nofuel
      | S f =>
          ilock (Some ip);;
          type <- inode_get ip i_type;;
          if negb (type =? T_DIR) then iunlockput ip;; ret (None, name) else
          if nameiparent && bool_decide (path = []) then iunlock (Some ip);; ret (Some ip, name) else
          next <- dirlookup ip name;;
          match next with
          | None => iunlockput ip;; ret (None, name)
          | Some (next, _) => iunlockput ip;; namex_loop f next path nameiparent name
          end
      end
  end.

Definition namex (path : list Z) (nameiparent : bool) (name : list Z)
    : K kernel (option nat * list Z) :=
  ip <- (if bool_decide (head path = Some SLASH) then iget ROOTDEV ROOTINO
         else p <- curproc;; cwd <- pget p p_cwd;; cwd <- deref cwd;; idup cwd);;
  namex_loop (length path) ip path nameiparent name.

Definition namei (path : list Z) : K kernel (option nat) :=
  r <- namex path false (replicate DIRSIZ 0);;
  ret r.1.

Definition nameiparent (path : list Z) (name : list Z) : K kernel (option nat * list Z) :=
  namex path true name.

End fs.
