(* ===== verification/Console.v ===== *)
(** * Console

    kernel/console.c and the interrupt-driven half of kernel/uart.c: the line
    buffer with its editing, reads and writes of the console device, the transmit
    ring of the UART and its interrupt. *)
From stdpp Require Import base tactics list numbers gmap strings.
From S2P Require Import Prelude Machine Spinlock Printf Bytes Block Queue Kalloc Vm Kernel Proc.

(** [C(x)] *)
Definition CTRL (c : Z) : Z := c - 64.
Definition CTRL_P : Z := CTRL 80.
Definition CTRL_U : Z := CTRL 85.
Definition CTRL_H : Z := CTRL 72.
Definition CTRL_D : Z := CTRL 68.
Definition DEL : Z := 127.
Definition NEWLINE : Z := 10.

Section console.
Context `{Layout} `{Symbols} `{WaitFuel}.

Definition cputc (c : Z) : K kernel unit := in_tty (consputc c).

(** ** UART *)

(** One read of the LSR_TX_IDLE bit. *)
Definition tx_idle : K kernel bool :=
  l <- uart_get u_idle;;
  uart_set (set_u_idle (tail l));;
  ret (default false (head l)).

(** Each round takes one character out of the buffer. *)
Fixpoint uartstart_loop (fuel : nat) : K kernel unit :=
  u <- uart_get id;;
  if u_tx_w u =? u_tx_r u then ret tt else
  idle <- tx_idle;;
  if negb idle then ret tt else
  match fuel with
  | O => nofuel
  | S f =>
      c <- deref (u_tx_buf u !! Z.to_nat (u_tx_r u mod UART_TX_BUF_SIZE));;
      uart_set (fun u => set_u_tx_r (u64 (u_tx_r u + 1)) u);;
      wakeup Ch_uart;;
      modify (fun s => set_k_tty (Tty (tty_out (k_tty s) ++ [c]) (pr_locking (k_tty s))
                                    (panicked (k_tty s))) s);;
      uartstart_loop f
  end.

Definition uartstart : K kernel unit :=
  u <- uart_get id;;
  uartstart_loop (Z.to_nat (u64 (u_tx_w u - u_tx_r u))).

Fixpoint uartputc_loop (fuel : nat) (c : Z) : K kernel unit :=
  u <- uart_get id;;
  if u_tx_w u =? u64 (u_tx_r u + UART_TX_BUF_SIZE) then
    match fuel with
    | O => nofuel
    | S f => sleep Ch_uart L_uart;; uartputc_loop f c
    end
  else
    uart_set (fun u => set_u_tx_buf (<[Z.to_nat (u_tx_w u mod UART_TX_BUF_SIZE) := u8 c]> (u_tx_buf u)) u);;
    uart_set (fun u => set_u_tx_w (u64 (u_tx_w u + 1)) u);;
    uartstart;;
    release L_uart.

Definition uartputc (c : Z) : K kernel unit :=
  acquire L_uart;;
  p <- gets (fun s => panicked (k_tty s));;
  if p then nofuel else
  uartputc_loop wait_fuel c.

(** [None] is the return value -1. *)
Definition uartgetc : K kernel (option Z) :=
  l <- uart_get u_rx;;
  match l with
  | [] => ret None
  | c :: l => uart_set (set_u_rx l);; ret (Some c)
  end.

(** ** Console device *)

(** The loop from [i]; the result is the final [i]. *)
Fixpoint consolewrite_loop (k : nat) (va i : Z) : K kernel Z :=
  match k with
  | O => ret i
  | S k =>
      r <- either_copyin (SUser (u64 (va + i))) 1;;
      if r.1 =? -1 then ret i else
      uartputc (default 0 (head r.2));;
      consolewrite_loop k va (i + 1)
  end.

(** write() of the device passes user_src = 1. *)
Definition consolewrite (va n : Z) : K kernel Z := consolewrite_loop (Z.to_nat n) va 0.

(** [while (cons.r == cons.w)]: [false] when the process was killed. *)
Fixpoint consoleread_wait (fuel : nat) : K kernel bool :=
  c <- cons_get id;;
  if negb (c_r c =? c_w c) then ret true else
  p <- curproc;;
  killed <- pget p p_killed;;
  if truthy killed then ret false else
  match fuel with
  | O => nofuel
  | S f => sleep Ch_cons L_cons;; consoleread_wait f
  end.

(** One round per byte; [n] bytes are still wanted. [inl] is the return value -1,
    the lock already released; [inr n] leaves the loop. *)
Fixpoint consoleread_loop (k : nat) (va n target : Z) : K kernel (unit + Z) :=
  match k with
  | O => ret (inr n)
  | S k =>
      ok <- consoleread_wait wait_fuel;;
      if negb ok then release L_cons;; ret (inl tt) else
      x <- cons_get id;;
      c <- deref (c_buf x !! Z.to_nat (c_r x mod INPUT_BUF));;
      cons_set (fun x => set_c_r (u32 (c_r x + 1)) x);;
      if c =? CTRL_D then
        when (n <? target) (cons_set (fun x => set_c_r (u32 (c_r x - 1)) x));;
        ret (inr n)
      else
      r <- either_copyout (DUser va) [c];;
      if r =? -1 then ret (inr n) else
      let n := n - 1 in
      if c =? NEWLINE then ret (inr n) else consoleread_loop k (u64 (va + 1)) n target
  end.

Definition consoleread (va n : Z) : K kernel Z :=
  let target := n in
  acquire L_cons;;
  r <- consoleread_loop (Z.to_nat n) va n target;;
  match r with
  | inl _ => ret (-1)
  | inr n => release L_cons;; ret (target - n)
  end.

(** ** Input interrupt *)

(** [case C('U')]: erase back to the start of the line. *)
Fixpoint kill_line (fuel : nat) : K kernel unit :=
  x <- cons_get id;;
  if c_e x =? c_w x then ret tt else
  c <- deref (c_buf x !! Z.to_nat (u32 (c_e x - 1) mod INPUT_BUF));;
  if c =? NEWLINE then ret tt else
  match fuel with
  | O => nofuel
  | S f =>
      cons_set (fun x => set_c_e (u32 (c_e x - 1)) x);;
      cputc BACKSPACE;;
      kill_line f
  end.

Definition consoleintr (pol : policy) (c : Z) : K kernel unit :=
  acquire L_cons;;
  (if c =? CTRL_P then procdump pol
   else if c =? CTRL_U then
     x <- cons_get id;;
     kill_line (Z.to_nat (u32 (c_e x - c_w x)))
   else if (c =? CTRL_H) || (c =? DEL) then
     x <- cons_get id;;
     when (negb (c_e x =? c_w x))
       (cons_set (fun x => set_c_e (u32 (c_e x - 1)) x);;
        cputc BACKSPACE)
   else
     x <- cons_get id;;
     when (negb (c =? 0) && (u32 (c_e x - c_r x) <? INPUT_BUF))
       (let c := if c =? 13 then NEWLINE else c in
        cputc c;;
        cons_set (fun x => set_c_buf (<[Z.to_nat (c_e x mod INPUT_BUF) := u8 c]> (c_buf x)) x);;
        cons_set (fun x => set_c_e (u32 (c_e x + 1)) x);;
        x <- cons_get id;;
        when ((c =? NEWLINE) || (c =? CTRL_D) || (c_e x =? u32 (c_r x + INPUT_BUF)))
          (cons_set (fun x => set_c_w (c_e x) x);;
           wakeup Ch_cons)));;
  release L_cons.

(** [while (1) { c = uartgetc(); if (c == -1) break; consoleintr(c); }] *)
Fixpoint uart_input (fuel : nat) (pol : policy) : K kernel unit :=
  c <- uartgetc;;
  match c with
  | None => ret tt
  | Some c =>
      match fuel with
      | O => nofuel
      | S f => consoleintr pol c;; uart_input f pol
      end
  end.

Definition uartintr (pol : policy) : K kernel unit :=
  l <- uart_get u_rx;;
  uart_input (length l) pol;;
  acquire L_uart;;
  uartstart;;
  release L_uart.

End console.
