(* ===== verification/Pipe.v ===== *)
(** * Pipe

    kernel/pipe.c, except pipealloc, which needs the file table. A pipe lives in a
    page of its own; the page's address is its name. *)
From stdpp Require Import base tactics list numbers gmap strings.
From S2P Require Import Prelude Machine Spinlock Printf Bytes Block Queue Kalloc Vm Kernel Proc.

Section pipe.
Context `{Layout} `{Symbols} `{WaitFuel}.

Definition pipeclose (pi : Z) (writable : bool) : K kernel unit :=
  acquire (L_pipe pi);;
  (if writable then
     pipe_set pi (set_pi_writeopen 0);;
     wakeup (Ch_nread pi)
   else
     pipe_set pi (set_pi_readopen 0);;
     wakeup (Ch_nwrite pi));;
  x <- pipe_get pi id;;
  if (pi_readopen x =? 0) && (pi_writeopen x =? 0) then
    release (L_pipe pi);;
    in_pm (kfree pi);;
    modify (fun s => set_k_pipe (delete pi (k_pipe s)) s)
  else release (L_pipe pi).

(** The loop of pipewrite with [i] bytes written. [inl] is the early return -1, the
    lock released; [inr i] leaves the loop. Every round writes a byte or sleeps. *)
Fixpoint pipewrite_loop (fuel : nat) (pi : Z) (pr : nat) (addr n i : Z) : K kernel (unit + Z) :=
  if negb (i <? n) then ret (inr i) else
  match fuel with
  | O => nofuel
  | S f =>
      x <- pipe_get pi id;;
      killed <- pget pr p_killed;;
      if (pi_readopen x =? 0) || truthy killed then release (L_pipe pi);; ret (inl tt) else
      if pi_nwrite x =? u32 (pi_nread x + PIPESIZE) then
        wakeup (Ch_nread pi);;
        sleep (Ch_nwrite pi) (L_pipe pi);;
        pipewrite_loop f pi pr addr n i
      else
        pagetable <- pget pr p_pagetable;;
        r <- in_pm (copyin pagetable (u64 (addr + i)) 1);;
        if r.1 =? -1 then ret (inr i) else
        pipe_set pi (fun x => set_pi_data
          (<[Z.to_nat (pi_nwrite x mod PIPESIZE) := default 0 (head r.2)]> (pi_data x)) x);;
        pipe_set pi (fun x => set_pi_nwrite (u32 (pi_nwrite x + 1)) x);;
        pipewrite_loop f pi pr addr n (i + 1)
  end.

(** [n] rounds that write, and at most [wait_fuel] that sleep. *)
Definition pipewrite (pi addr n : Z) : K kernel Z :=
  pr <- curproc;;
  acquire (L_pipe pi);;
  r <- pipewrite_loop (Z.to_nat n + wait_fuel) pi pr addr n 0;;
  match r with
  | inl _ => ret (-1)
  | inr i =>
      wakeup (Ch_nread pi);;
      release (L_pipe pi);;
      ret i
  end.

(** [while (pi->nread == pi->nwrite && pi->writeopen)]: [false] when killed. *)
Fixpoint piperead_wait (fuel : nat) (pi : Z) (pr : nat) : K kernel bool :=
  x <- pipe_get pi id;;
  if negb ((pi_nread x =? pi_nwrite x) && truthy (pi_writeopen x)) then ret true else
  killed <- pget pr p_killed;;
  if truthy killed then ret false else
  match fuel with
  | O => nofuel
  | S f => sleep (Ch_nread pi) (L_pipe pi);; piperead_wait f pi pr
  end.

(** The copying loop from [i], at most [k] more rounds. *)
Fixpoint piperead_loop (k : nat) (pi : Z) (pr : nat) (addr i : Z) : K kernel Z :=
  match k with
  | O => ret i
  | S k =>
      x <- pipe_get pi id;;
      if pi_nread x =? pi_nwrite x then ret i else
      ch <- deref (pi_data x !! Z.to_nat (pi_nread x mod PIPESIZE));;
      pipe_set pi (fun x => set_pi_nread (u32 (pi_nread x + 1)) x);;
      pagetable <- pget pr p_pagetable;;
      r <- in_pm (copyout pagetable (u64 (addr + i)) [ch]);;
      if r =? -1 then ret i else piperead_loop k pi pr addr (i + 1)
  end.

Definition piperead (pi addr n : Z) : K kernel Z :=
  pr <- curproc;;
  acquire (L_pipe pi);;
  ok <- piperead_wait wait_fuel pi pr;;
  if negb ok then release (L_pipe pi);; ret (-1) else
  i <- piperead_loop (Z.to_nat n) pi pr addr 0;;
  wakeup (Ch_nwrite pi);;
  release (L_pipe pi);;
  ret i.

End pipe.
