(* ===== verification/File.v ===== *)
(** * File

    kernel/file.c and pipealloc of kernel/pipe.c: the table of open files. *)
From stdpp Require Import base tactics list numbers gmap strings.
From S2P Require Import Prelude Machine Spinlock Printf Bytes Block Queue Kalloc Vm Kernel Proc.
From S2P Require Import Sleeplock Virtio Bio Log Fs Console Pipe.

Definition NDEV : Z := 10.
(** devsw[] has functions for the console only (consoleinit). *)
Definition CONSOLE : Z := 1.

Section file.
Context `{Layout} `{Symbols} `{WaitFuel}.

Definition filealloc : K kernel (option nat) :=
  acquire L_ftable;;
  r <- forM_exit (upto NFILE) (fun f =>
    ref <- file_get f f_ref;;
    if ref =? 0 then file_set f (set_f_ref 1);; ret (Some f) else ret None);;
  release L_ftable;;
  ret r.

Definition filedup (f : nat) : K kernel nat :=
  acquire L_ftable;;
  ref <- file_get f f_ref;;
  if ref <? 1 then panic "filedup" else
  file_set f (fun x => set_f_ref (i32 (f_ref x + 1)) x);;
  release L_ftable;;
  ret f.

Definition fileclose (f : nat) : K kernel unit :=
  acquire L_ftable;;
  ref <- file_get f f_ref;;
  if ref <? 1 then panic "fileclose" else
  file_set f (fun x => set_f_ref (f_ref x - 1) x);;
  if 0 <? ref - 1 then release L_ftable else
  ff <- file_get f id;;
  file_set f (set_f_ref 0);;
  file_set f (set_f_type FD_NONE);;
  release L_ftable;;
  match f_type ff with
  | FD_PIPE => pipeclose (f_pipe ff) (truthy (f_writable ff))
  | FD_INODE | FD_DEVICE =>
      begin_op;;
      ip <- deref (f_ip ff);;
      iput ip;;
      end_op
  | FD_NONE => ret tt
  end.

Definition filestat (f : nat) (addr : Z) : K kernel Z :=
  p <- curproc;;
  x <- file_get f id;;
  match f_type x with
  | FD_INODE | FD_DEVICE =>
      ilock (f_ip x);;
      ip <- deref (f_ip x);;
      st <- stati ip;;
      iunlock (f_ip x);;
      pagetable <- pget p p_pagetable;;
      r <- in_pm (copyout pagetable addr st);;
      ret (if r <? 0 then -1 else 0)
  | _ => ret (-1)
  end.

Definition fileread (f : nat) (addr n : Z) : K kernel Z :=
  x <- file_get f id;;
  if f_readable x =? 0 then ret (-1) else
  match f_type x with
  | FD_PIPE => piperead (f_pipe x) addr n
  | FD_DEVICE =>
      if (f_major x <? 0) || (NDEV <=? f_major x) || negb (f_major x =? CONSOLE) then ret (-1)
      else consoleread addr n
  | FD_INODE =>
      ilock (f_ip x);;
      ip <- deref (f_ip x);;
      q <- readi ip (DUser addr) (f_off x) (u32 n);;
      when (0 <? q.1) (file_set f (fun x => set_f_off (u32 (f_off x + q.1)) x));;
      iunlock (f_ip x);;
      ret q.1
  | FD_NONE => panic "fileread"
  end.

(** Bytes written per transaction. *)
Definition WRITE_MAX : Z := (MAXOPBLOCKS - 1 - 1 - 2) / 2 * BSIZE.

(** [while (i < n)]; the result is the final [i]. A full round writes
    [WRITE_MAX] bytes, so [n / WRITE_MAX + 1] rounds are enough. *)
Fixpoint filewrite_loop (fuel : nat) (f : nat) (addr n i : Z) : K kernel Z :=
  if negb (i <? n) then ret i else
  match fuel with
  | O => nofuel
  | S fu =>
      let n1 := Z.min (n - i) WRITE_MAX in
      begin_op;;
      x <- file_get f id;;
      ilock (f_ip x);;
      ip <- deref (f_ip x);;
      r <- writei ip (SUser (u64 (addr + i))) (f_off x) n1;;
      when (0 <? r) (file_set f (fun x => set_f_off (u32 (f_off x + r)) x));;
      iunlock (f_ip x);;
      end_op;;
      if negb (r =? n1) then ret i else filewrite_loop fu f addr n (i + r)
  end.

Definition filewrite (f : nat) (addr n : Z) : K kernel Z :=
  x <- file_get f id;;
  if f_writable x =? 0 then ret (-1) else
  match f_type x with
  | FD_PIPE => pipewrite (f_pipe x) addr n
  | FD_DEVICE =>
      if (f_major x <? 0) || (NDEV <=? f_major x) || negb (f_major x =? CONSOLE) then ret (-1)
      else consolewrite addr n
  | FD_INODE =>
      i <- filewrite_loop (Z.to_nat (n / WRITE_MAX + 1)) f addr n 0;;
      ret (if i =? n then n else -1)
  | FD_NONE => panic "filewrite"
  end.

(** ** pipealloc *)

Definition pipealloc_bad (pi : Z) (f0 f1 : option nat) : K kernel (option (nat * nat)) :=
  when (truthy pi) (in_pm (kfree pi));;
  match f0 with Some f => fileclose f | None => ret tt end;;
  match f1 with Some f => fileclose f | None => ret tt end;;
  ret None.

(** The new page holds junk; the fields set here are the only ones read before
    they are written. *)
Definition pipealloc : K kernel (option (nat * nat)) :=
  f0 <- filealloc;;
  match f0 with
  | None => pipealloc_bad 0 None None
  | Some r =>
      f1 <- filealloc;;
      match f1 with
      | None => pipealloc_bad 0 f0 None
      | Some w =>
          pi <- in_pm kalloc;;
          if pi =? 0 then pipealloc_bad 0 f0 f1 else
          modify (fun s => set_k_pipe (<[pi := Pipe (replicate (Z.to_nat PIPESIZE) 5) 0 0 1 1]> (k_pipe s)) s);;
          file_set r (set_f_type FD_PIPE);;
          file_set r (set_f_readable 1);;
          file_set r (set_f_writable 0);;
          file_set r (set_f_pipe pi);;
          file_set w (set_f_type FD_PIPE);;
          file_set w (set_f_readable 0);;
          file_set w (set_f_writable 1);;
          file_set w (set_f_pipe pi);;
          ret (Some (r, w))
      end
  end.

End file.
