(* ===== verification/Fork.v ===== *)
(** * Fork

    The parts of kernel/proc.c that use files: userinit, fork and exit. *)
From stdpp Require Import base tactics list numbers gmap strings.
From S2P Require Import Prelude Machine Spinlock Printf Bytes Block Queue Kalloc Vm Kernel Proc.
From S2P Require Import Sleeplock Virtio Bio Log Fs Console Pipe File.

Section fork.
Context `{Layout} `{Symbols} `{WaitFuel}.

Definition initcode : list Z :=
  [0x17; 0x05; 0x00; 0x00; 0x13; 0x05; 0x45; 0x02;
   0x97; 0x05; 0x00; 0x00; 0x93; 0x85; 0x35; 0x02;
   0x93; 0x08; 0x70; 0x00; 0x73; 0x00; 0x00; 0x00;
   0x93; 0x08; 0x20; 0x00; 0x73; 0x00; 0x00; 0x00;
   0xef; 0xf0; 0x9f; 0xff; 0x2f; 0x69; 0x6e; 0x69;
   0x74; 0x00; 0x00; 0x24; 0x00; 0x00; 0x00; 0x00;
   0x00; 0x00; 0x00; 0x00].

(** safestrcpy into p->name *)
Definition set_name (t : list Z) (x : proc) : proc :=
  set_p_name (splice (p_name x) 0 (safestrcpy (buf t) 16)) x.

Definition userinit : K kernel unit :=
  r <- allocproc;;
  modify (set_k_initproc r);;
  p <- deref r;;
  pagetable <- pget p p_pagetable;;
  in_pm (uvminit pagetable initcode (Z.of_nat (length initcode)));;
  pset p (set_p_sz PGSIZE);;
  tf_set p TF_epc 0;;
  tf_set p TF_sp PGSIZE;;
  pset p (set_name (str "initcode"));;
  cwd <- namei (str "/");;
  pset p (set_p_cwd cwd);;
  pset p (set_p_state RUNNABLE);;
  release (L_proc p).

Definition fork : K kernel Z :=
  p <- curproc;;
  r <- allocproc;;
  match r with
  | None => ret (-1)
  | Some np =>
      old <- pget p p_pagetable;;
      new <- pget np p_pagetable;;
      sz <- pget p p_sz;;
      e <- in_pm (uvmcopy old new sz);;
      if e <? 0 then freeproc np;; release (L_proc np);; ret (-1) else
      pset np (set_p_sz sz);;
      src <- pget p p_trapframe;;
      to <- pget np p_trapframe;;
      modify (fun s => let m := pm_mem (k_pm s) in
        set_k_pm (set_mem (write_bytes m to (read_bytes m src (Z.to_nat TF_SIZE))) (k_pm s)) s);;
      mask <- pget p p_mask;;
      pset np (set_p_mask mask);;
      tf_set np TF_a0 0;;
      forM (upto NOFILE) (fun i =>
        f <- pget p (fun x => p_ofile x !! i);;
        f <- deref f;;
        match f with
        | Some f =>
            f <- filedup f;;
            pset np (fun x => set_p_ofile (<[i := Some f]> (p_ofile x)) x)
        | None => ret tt
        end);;
      cwd <- pget p p_cwd;;
      cwd <- deref cwd;;
      cwd <- idup cwd;;
      pset np (set_p_cwd (Some cwd));;
      name <- pget p p_name;;
      pset np (set_name name);;
      pid <- pget np p_pid;;
      release (L_proc np);;
      acquire L_wait;;
      pset np (set_p_parent (Some p));;
      release L_wait;;
      acquire (L_proc np);;
      pset np (set_p_state RUNNABLE);;
      release (L_proc np);;
      ret pid
  end.

(** The last part of exit: the process becomes a zombie and never comes back. *)
Definition exit_zombie {A} (p : nat) (status : Z) : K kernel A :=
  acquire L_wait;;
  reparent p;;
  parent <- pget p p_parent;;
  match parent with Some q => wakeup (Ch_proc q) | None => ret tt end;;
  acquire (L_proc p);;
  pset p (set_p_xstate status);;
  pset p (set_p_state ZOMBIE);;
  ticks <- gets k_ticks;;
  pset p (set_p_etime (i32 ticks));;
  release L_wait;;
  sched;;
  panic "zombie exit".

Definition exit {A} (status : Z) : K kernel A :=
  p <- curproc;;
  init <- gets k_initproc;;
  if decide (init = Some p) then panic "init exiting" else
  forM (upto NOFILE) (fun fd =>
    f <- pget p (fun x => p_ofile x !! fd);;
    f <- deref f;;
    match f with
    | Some f =>
        fileclose f;;
        pset p (fun x => set_p_ofile (<[fd := None]> (p_ofile x)) x)
    | None => ret tt
    end);;
  begin_op;;
  cwd <- pget p p_cwd;;
  cwd <- deref cwd;;
  iput cwd;;
  end_op;;
  pset p (set_p_cwd None);;
  exit_zombie p status.

End fork.
