(* ===== verification/Exec.v ===== *)
(** * Exec

    kernel/exec.c: replace the image of the current process by a program read from
    an ELF file. *)
From stdpp Require Import base tactics list numbers gmap strings.
From S2P Require Import Prelude Machine Spinlock Printf Bytes Block Queue Kalloc Vm Kernel Proc.
From S2P Require Import Sleeplock Virtio Bio Log Fs Console Pipe File Fork.

Definition MAXARG : Z := 32.
Definition ELF_MAGIC : Z := 0x464C457F.
Definition ELF_PROG_LOAD : Z := 1.

(** Fields of struct elfhdr (64 bytes) and struct proghdr (56 bytes). *)
Definition ELF_SIZE : Z := 64.
Definition PH_SIZE : Z := 56.
Definition elf_magic (e : list Z) : Z := get32 e 0.
Definition elf_entry (e : list Z) : Z := get64 e 24.
Definition elf_phoff (e : list Z) : Z := get64 e 32.
Definition elf_phnum (e : list Z) : Z := get16 e 56.
Definition ph_type (p : list Z) : Z := get32 p 0.
Definition ph_off (p : list Z) : Z := get64 p 8.
Definition ph_vaddr (p : list Z) : Z := get64 p 16.
Definition ph_filesz (p : list Z) : Z := get64 p 32.
Definition ph_memsz (p : list Z) : Z := get64 p 40.

Section exec.
Context `{Layout} `{Symbols} `{WaitFuel}.

(** One round per page; [offset] and [sz] are uints. *)
Fixpoint loadseg_loop (fuel : nat) (pagetable va : Z) (ip : nat) (offset sz i : Z) : K kernel Z :=
  if negb (i <? sz) then ret 0 else
  match fuel with
  | O => nofuel
  | S f =>
      pa <- in_pm (walkaddr pagetable (u64 (va + i)));;
      if pa =? 0 then panic "loadseg: address should exist" else
      let n := if sz - i <? PGSIZE then sz - i else PGSIZE in
      q <- readi ip (DKern pa) (u32 (offset + i)) n;;
      if negb (q.1 =? n) then ret (-1) else
      loadseg_loop f pagetable va ip offset sz (u32 (i + PGSIZE))
  end.

Definition loadseg (pagetable va : Z) (ip : nat) (offset sz : Z) : K kernel Z :=
  loadseg_loop (Z.to_nat (sz / PGSIZE + 1)) pagetable va ip offset sz 0.

(** The loop over the program headers, [n] of them left. The result is whether it
    ended without an error, and [sz]. *)
Fixpoint exec_load (n : nat) (pagetable : Z) (ip : nat) (off sz : Z) : K kernel (bool * Z) :=
  match n with
  | O => ret (true, sz)
  | S n =>
      q <- readi ip DLocal (u32 off) PH_SIZE;;
      if negb (q.1 =? PH_SIZE) then ret (false, sz) else
      let ph := q.2 in
      let off' := i32 (off + PH_SIZE) in
      if negb (ph_type ph =? ELF_PROG_LOAD) then exec_load n pagetable ip off' sz else
      if ph_memsz ph <? ph_filesz ph then ret (false, sz) else
      if u64 (ph_vaddr ph + ph_memsz ph) <? ph_vaddr ph then ret (false, sz) else
      sz1 <- in_pm (uvmalloc pagetable sz (u64 (ph_vaddr ph + ph_memsz ph)));;
      if sz1 =? 0 then ret (false, sz) else
      if negb (ph_vaddr ph mod PGSIZE =? 0) then ret (false, sz1) else
      r <- loadseg pagetable (ph_vaddr ph) ip (u32 (ph_off ph)) (u32 (ph_filesz ph));;
      if r <? 0 then ret (false, sz1) else
      exec_load n pagetable ip off' sz1
  end.

(** The string at kernel address [a], with its NUL. *)
Definition kstring (a : Z) : K kernel (list Z) :=
  m <- gets (fun s => pm_mem (k_pm s));;
  n <- deref (strlen (Z.to_nat PGSIZE) (ptr m a));;
  ret (read_bytes m a (S (Z.to_nat n))).

(** The argument strings: [argv] without its terminating null pointer. The result
    is [None] on an error, or [sp] and [ustack]. *)
Fixpoint exec_args (argv : list Z) (pagetable stackbase sp : Z) (ustack : list Z)
    : K kernel (option (Z * list Z)) :=
  match argv with
  | [] => ret (Some (sp, ustack))
  | a :: argv =>
      if MAXARG <=? Z.of_nat (length ustack) then ret None else
      bs <- kstring a;;
      let sp := u64 (sp - Z.of_nat (length bs)) in
      let sp := sp - sp mod 16 in
      if sp <? stackbase then ret None else
      r <- in_pm (copyout pagetable sp bs);;
      if r <? 0 then ret None else
      exec_args argv pagetable stackbase sp (ustack ++ [sp])
  end.

(** The path element after the last slash. *)
Fixpoint last_elem (last s : list Z) : list Z :=
  match s with
  | [] => last
  | c :: s => last_elem (if c =? SLASH then s else last) s
  end.

(** [bad:] before and after the file has been closed. *)
Definition exec_bad (pagetable sz : Z) (ip : option nat) : K kernel Z :=
  when (truthy pagetable) (proc_freepagetable pagetable sz);;
  match ip with
  | Some ip => iunlockput ip;; end_op
  | None => ret tt
  end;;
  ret (-1).

(** From the allocation of the stack to the return. *)
Definition exec_start (p : nat) (path : list Z) (argv : list Z) (elf : list Z) (pagetable sz : Z)
    : K kernel Z :=
  oldsz <- pget p p_sz;;
  let sz := PGROUNDUP sz in
  sz1 <- in_pm (uvmalloc pagetable sz (u64 (sz + 2 * PGSIZE)));;
  if sz1 =? 0 then exec_bad pagetable sz None else
  let sz := sz1 in
  in_pm (uvmclear pagetable (u64 (sz - 2 * PGSIZE)));;
  let stackbase := sz - PGSIZE in
  a <- exec_args argv pagetable stackbase sz [];;
  match a with
  | None => exec_bad pagetable sz None
  | Some (sp, ustack) =>
      let argc := Z.of_nat (length ustack) in
      let sp := u64 (sp - (argc + 1) * 8) in
      let sp := sp - sp mod 16 in
      if sp <? stackbase then exec_bad pagetable sz None else
      r <- in_pm (copyout pagetable sp (flat_map (le_bytes 8) (ustack ++ [0])));;
      if r <? 0 then exec_bad pagetable sz None else
      tf_set p TF_a1 sp;;
      pset p (set_name (last_elem path path));;
      oldpagetable <- pget p p_pagetable;;
      pset p (set_p_pagetable pagetable);;
      pset p (set_p_sz sz);;
      tf_set p TF_epc (elf_entry elf);;
      tf_set p TF_sp sp;;
      proc_freepagetable oldpagetable oldsz;;
      ret argc
  end.

(** [argv] are the addresses of the argument strings. *)
Definition exec (path : list Z) (argv : list Z) : K kernel Z :=
  p <- curproc;;
  begin_op;;
  r <- namei path;;
  match r with
  | None => end_op;; ret (-1)
  | Some ip =>
      ilock (Some ip);;
      q <- readi ip DLocal 0 ELF_SIZE;;
      if negb (q.1 =? ELF_SIZE) then exec_bad 0 0 (Some ip) else
      let elf := q.2 in
      if negb (elf_magic elf =? ELF_MAGIC) then exec_bad 0 0 (Some ip) else
      pagetable <- proc_pagetable p;;
      if pagetable =? 0 then exec_bad 0 0 (Some ip) else
      l <- exec_load (Z.to_nat (elf_phnum elf)) pagetable ip (i32 (elf_phoff elf)) 0;;
      let '(ok, sz) := l in
      if negb ok then exec_bad pagetable sz (Some ip) else
      iunlockput ip;;
      end_op;;
      p <- curproc;;
      exec_start p path argv elf pagetable sz
  end.

End exec.
