(* ===== verification/Sysfile.v ===== *)
(** * Sysfile

    The system call arguments of kernel/syscall.c, and the system calls of
    kernel/sysproc.c and kernel/sysfile.c. Results are C ints or uint64s; the
    dispatcher converts them to uint64. *)
From stdpp Require Import base tactics list numbers gmap strings.
From S2P Require Import Prelude Machine Spinlock Printf Bytes Block Queue Kalloc Vm Kernel Proc.
From S2P Require Import Sleeplock Virtio Bio Log Fs Console Pipe File Fork Exec.

Definition MAXPATH : Z := 128.
Definition O_RDONLY : Z := 0.
Definition O_WRONLY : Z := 1.
Definition O_RDWR : Z := 2.
Definition O_CREATE : Z := 0x200.
Definition O_TRUNC : Z := 0x400.

(** Local variables of sys_waitx that waitx leaves uninitialised when it fails. *)
Class Uninit := { junk_wtime : Z; junk_rtime : Z }.

Section sys.
Context `{Layout} `{Symbols} `{WaitFuel} `{Uninit}.

(** ** Arguments *)

(** [None] is the return value -1. *)
Definition fetchaddr (addr : Z) : K kernel (option Z) :=
  p <- curproc;;
  sz <- pget p p_sz;;
  if (sz <=? addr) || (sz <? u64 (addr + 8)) then ret None else
  pagetable <- pget p p_pagetable;;
  r <- in_pm (copyin pagetable addr 8);;
  if negb (r.1 =? 0) then ret None else ret (Some (le_value r.2)).

(** The return value and the bytes stored in [buf]. *)
Definition fetchstr (addr max : Z) : K kernel (Z * list Z) :=
  p <- curproc;;
  pagetable <- pget p p_pagetable;;
  r <- in_pm (copyinstr pagetable addr max);;
  if r.1 <? 0 then ret (r.1, r.2) else
  n <- deref (strlen (length r.2) (buf r.2));;
  ret (n, r.2).

Definition argraw (n : Z) : K kernel Z :=
  p <- curproc;;
  if n =? 0 then tf_get p TF_a0
  else if n =? 1 then tf_get p TF_a1
  else if n =? 2 then tf_get p TF_a2
  else if n =? 3 then tf_get p TF_a3
  else if n =? 4 then tf_get p TF_a4
  else if n =? 5 then tf_get p TF_a5
  else panic "argraw".

Definition argint (n : Z) : K kernel Z := v <- argraw n;; ret (i32 v).
Definition argaddr (n : Z) : K kernel Z := argraw n.
Definition argstr (n max : Z) : K kernel (Z * list Z) :=
  addr <- argaddr n;;
  fetchstr addr max.

(** A path argument: [None] on error, else the string without its NUL. *)
Definition argpath (n : Z) : K kernel (option (list Z)) :=
  r <- argstr n MAXPATH;;
  ret (if r.1 <? 0 then None else Some (cstr r.2)).

(** ** kernel/sysproc.c *)

Definition sys_exit : K kernel Z :=
  n <- argint 0;;
  exit n.

Definition sys_getpid : K kernel Z :=
  p <- curproc;;
  pget p p_pid.

Definition sys_fork : K kernel Z := fork.

Definition sys_wait : K kernel Z :=
  p <- argaddr 0;;
  wait p.

Definition sys_sbrk : K kernel Z :=
  n <- argint 0;;
  p <- curproc;;
  sz <- pget p p_sz;;
  let addr := i32 sz in
  r <- growproc n;;
  if r <? 0 then ret (-1) else ret addr.

(** [while (ticks - ticks0 < n)]: the comparison is unsigned. *)
Fixpoint sys_sleep_loop (fuel : nat) (ticks0 n : Z) : K kernel Z :=
  ticks <- gets k_ticks;;
  if negb (u32 (ticks - ticks0) <? u32 n) then release L_ticks;; ret 0 else
  p <- curproc;;
  killed <- pget p p_killed;;
  if truthy killed then release L_ticks;; ret (-1) else
  match fuel with
  | O => nofuel
  | S f => sleep Ch_ticks L_ticks;; sys_sleep_loop f ticks0 n
  end.

Definition sys_sleep : K kernel Z :=
  n <- argint 0;;
  acquire L_ticks;;
  ticks0 <- gets k_ticks;;
  sys_sleep_loop wait_fuel ticks0 n.

Definition sys_kill : K kernel Z :=
  pid <- argint 0;;
  kill pid.

Definition sys_uptime : K kernel Z :=
  acquire L_ticks;;
  xticks <- gets k_ticks;;
  release L_ticks;;
  ret xticks.

Definition sys_trace : K kernel Z :=
  mask <- argint 0;;
  p <- curproc;;
  pset p (set_p_mask mask);;
  ret 0.

(** waitx(addr, &wtime, &rtime): its parameters are named rtime and wtime, so the
    run time ends up in [wtime] and the waiting time in [rtime]. *)
Definition sys_waitx : K kernel Z :=
  addr <- argaddr 0;;
  addr1 <- argaddr 1;;
  addr2 <- argaddr 2;;
  r <- waitx addr;;
  let '(wtime, rtime) := default (junk_wtime, junk_rtime) r.2 in
  p <- curproc;;
  pagetable <- pget p p_pagetable;;
  e <- in_pm (copyout pagetable addr1 (le_bytes 4 wtime));;
  if e <? 0 then ret (-1) else
  e <- in_pm (copyout pagetable addr2 (le_bytes 4 rtime));;
  if e <? 0 then ret (-1) else
  ret r.1.

Definition sys_set_priority (pol : policy) : K kernel Z :=
  if negb (bool_decide (pol = PBS)) then ret (-1) else
  priority <- argint 0;;
  pid <- argint 1;;
  if priority <? 0 then ret (-1) else
  if 100 <? priority then ret (-1) else
  actually_set_priority priority pid.

(** ** kernel/sysfile.c *)

(** The descriptor and the file, or [None] for -1. *)
Definition argfd (n : Z) : K kernel (option (Z * nat)) :=
  fd <- argint n;;
  if (fd <? 0) || (Z.of_nat NOFILE <=? fd) then ret None else
  p <- curproc;;
  f <- pget p (fun x => p_ofile x !! Z.to_nat fd);;
  f <- deref f;;
  match f with
  | None => ret None
  | Some f => ret (Some (fd, f))
  end.

Definition ofile_set (p : nat) (fd : nat) (f : option nat) : K kernel unit :=
  pset p (fun x => set_p_ofile (<[fd := f]> (p_ofile x)) x).

Definition fdalloc (f : nat) : K kernel (option nat) :=
  p <- curproc;;
  forM_exit (upto NOFILE) (fun fd =>
    x <- pget p (fun x => p_ofile x !! fd);;
    x <- deref x;;
    match x with
    | None => ofile_set p fd (Some f);; ret (Some fd)
    | Some _ => ret None
    end).

Definition sys_dup : K kernel Z :=
  r <- argfd 0;;
  match r with
  | None => ret (-1)
  | Some (_, f) =>
      fd <- fdalloc f;;
      match fd with
      | None => ret (-1)
      | Some fd => filedup f;; ret (Z.of_nat fd)
      end
  end.

Definition sys_read : K kernel Z :=
  r <- argfd 0;;
  match r with
  | None => ret (-1)
  | Some (_, f) => n <- argint 2;; p <- argaddr 1;; fileread f p n
  end.

Definition sys_write : K kernel Z :=
  r <- argfd 0;;
  match r with
  | None => ret (-1)
  | Some (_, f) => n <- argint 2;; p <- argaddr 1;; filewrite f p n
  end.

Definition sys_close : K kernel Z :=
  r <- argfd 0;;
  match r with
  | None => ret (-1)
  | Some (fd, f) =>
      p <- curproc;;
      ofile_set p (Z.to_nat fd) None;;
      fileclose f;;
      ret 0
  end.

Definition sys_fstat : K kernel Z :=
  r <- argfd 0;;
  match r with
  | None => ret (-1)
  | Some (_, f) => st <- argaddr 1;; filestat f st
  end.

Definition nlink_add (ip : nat) (d : Z) : K kernel unit :=
  inode_set ip (fun x => set_i_nlink (i16 (i_nlink x + d)) x).

(** [bad:] of sys_link *)
Definition sys_link_bad (ip : nat) : K kernel Z :=
  ilock (Some ip);;
  nlink_add ip (-1);;
  iupdate ip;;
  iunlockput ip;;
  end_op;;
  ret (-1).

Definition sys_link : K kernel Z :=
  old <- argpath 0;;
  match old with
  | None => ret (-1)
  | Some old =>
  new <- argpath 1;;
  match new with
  | None => ret (-1)
  | Some new =>
      begin_op;;
      r <- namei old;;
      match r with
      | None => end_op;; ret (-1)
      | Some ip =>
          ilock (Some ip);;
          type <- inode_get ip i_type;;
          if type =? T_DIR then iunlockput ip;; end_op;; ret (-1) else
          nlink_add ip 1;;
          iupdate ip;;
          iunlock (Some ip);;
          q <- nameiparent new (replicate DIRSIZ 0);;
          match q with
          | (None, _) => sys_link_bad ip
          | (Some dp, name) =>
              ilock (Some dp);;
              ddev <- inode_get dp i_dev;;
              idev <- inode_get ip i_dev;;
              inum <- inode_get ip i_inum;;
              e <- (if negb (ddev =? idev) then ret (-1) else dirlink dp name inum);;
              if e <? 0 then iunlockput dp;; sys_link_bad ip else
              iunlockput dp;;
              iput ip;;
              end_op;;
              ret 0
          end
      end
  end
  end.

Fixpoint isdirempty_loop (fuel : nat) (dp : nat) (off : Z) : K kernel bool :=
  size <- inode_get dp i_size;;
  if negb (off <? size) then ret true else
  match fuel with
  | O => nofuel
  | S f =>
      q <- readi dp DLocal off DIRENT;;
      if negb (q.1 =? DIRENT) then panic "isdirempty: readi" else
      if negb (de_inum q.2 =? 0) then ret false else isdirempty_loop f dp (off + DIRENT)
  end.

Definition isdirempty (dp : nat) : K kernel bool :=
  size <- inode_get dp i_size;;
  isdirempty_loop (Z.to_nat (size / DIRENT + 1)) dp (2 * DIRENT).

(** [bad:] of sys_unlink *)
Definition sys_unlink_bad (dp : nat) : K kernel Z :=
  iunlockput dp;;
  end_op;;
  ret (-1).

Definition sys_unlink : K kernel Z :=
  path <- argpath 0;;
  match path with
  | None => ret (-1)
  | Some path =>
      begin_op;;
      q <- nameiparent path (replicate DIRSIZ 0);;
      match q with
      | (None, _) => end_op;; ret (-1)
      | (Some dp, name) =>
          ilock (Some dp);;
          if (namecmp name (str ".") =? 0) || (namecmp name (str "..") =? 0) then sys_unlink_bad dp else
          r <- dirlookup dp name;;
          match r with
          | None => sys_unlink_bad dp
          | Some (ip, off) =>
              ilock (Some ip);;
              x <- inode_get ip id;;
              if i_nlink x <? 1 then panic "unlink: nlink < 1" else
              empty <- (if i_type x =? T_DIR then isdirempty ip else ret true);;
              if negb empty then iunlockput ip;; sys_unlink_bad dp else
              w <- writei dp (SLocal (replicate (Z.to_nat DIRENT) 0)) off DIRENT;;
              if negb (w =? DIRENT) then panic "unlink: writei" else
              type <- inode_get ip i_type;;
              when (type =? T_DIR) (nlink_add dp (-1);; iupdate dp);;
              iunlockput dp;;
              nlink_add ip (-1);;
              iupdate ip;;
              iunlockput ip;;
              end_op;;
              ret 0
          end
      end
  end.

(** The new inode, locked, or [None]. *)
Definition create (path : list Z) (type major minor : Z) : K kernel (option nat) :=
  q <- nameiparent path (replicate DIRSIZ 0);;
  match q with
  | (None, _) => ret None
  | (Some dp, name) =>
      ilock (Some dp);;
      r <- dirlookup dp name;;
      match r with
      | Some (ip, _) =>
          iunlockput dp;;
          ilock (Some ip);;
          t <- inode_get ip i_type;;
          if (type =? T_FILE) && ((t =? T_FILE) || (t =? T_DEVICE)) then ret (Some ip) else
          iunlockput ip;;
          ret None
      | None =>
          dev <- inode_get dp i_dev;;
          ip <- ialloc dev type;;
          ilock (Some ip);;
          inode_set ip (set_i_major (i16 major));;
          inode_set ip (set_i_minor (i16 minor));;
          inode_set ip (set_i_nlink 1);;
          iupdate ip;;
          inum <- inode_get ip i_inum;;
          dinum <- inode_get dp i_inum;;
          when (type =? T_DIR)
            (nlink_add dp 1;;
             iupdate dp;;
             e <- dirlink ip (str ".") inum;;
             if e <? 0 then panic "create dots" else
             e <- dirlink ip (str "..") dinum;;
             if e <? 0 then panic "create dots" else ret tt);;
          e <- dirlink dp name inum;;
          if e <? 0 then panic "create: dirlink" else
          iunlockput dp;;
          ret (Some ip)
      end
  end.

(** The inode that sys_open opens, locked; [None] after end_op on an error. *)
Definition sys_open_inode (path : list Z) (omode : Z) : K kernel (option nat) :=
  if truthy (Z.land omode O_CREATE) then
    r <- create path T_FILE 0 0;;
    match r with
    | None => end_op;; ret None
    | Some ip => ret (Some ip)
    end
  else
    r <- namei path;;
    match r with
    | None => end_op;; ret None
    | Some ip =>
        ilock (Some ip);;
        type <- inode_get ip i_type;;
        if (type =? T_DIR) && negb (omode =? O_RDONLY) then
          iunlockput ip;; end_op;; ret None
        else ret (Some ip)
    end.

Definition sys_open : K kernel Z :=
  path <- argpath 0;;
  match path with
  | None => ret (-1)
  | Some path =>
      omode <- argint 1;;
      begin_op;;
      r <- sys_open_inode path omode;;
      match r with
      | None => ret (-1)
      | Some ip =>
          x <- inode_get ip id;;
          if (i_type x =? T_DEVICE) && ((i_major x <? 0) || (NDEV <=? i_major x)) then
            iunlockput ip;; end_op;; ret (-1) else
          f <- filealloc;;
          fd <- match f with Some f => fdalloc f | None => ret None end;;
          match f, fd with
          | Some f, Some fd =>
              (if i_type x =? T_DEVICE then
                 file_set f (set_f_type FD_DEVICE);;
                 file_set f (set_f_major (i_major x))
               else
                 file_set f (set_f_type FD_INODE);;
                 file_set f (set_f_off 0));;
              file_set f (set_f_ip (Some ip));;
              file_set f (set_f_readable (b2z (negb (truthy (Z.land omode O_WRONLY)))));;
              file_set f (set_f_writable
                (b2z (truthy (Z.land omode O_WRONLY) || truthy (Z.land omode O_RDWR))));;
              when (truthy (Z.land omode O_TRUNC) && (i_type x =? T_FILE)) (itrunc ip);;
              iunlock (Some ip);;
              end_op;;
              ret (Z.of_nat fd)
          | _, _ =>
              match f with Some f => fileclose f | None => ret tt end;;
              iunlockput ip;;
              end_op;;
              ret (-1)
          end
      end
  end.

Definition sys_mkdir : K kernel Z :=
  begin_op;;
  path <- argpath 0;;
  r <- match path with Some path => create path T_DIR 0 0 | None => ret None end;;
  match r with
  | None => end_op;; ret (-1)
  | Some ip => iunlockput ip;; end_op;; ret 0
  end.

Definition sys_mknod : K kernel Z :=
  begin_op;;
  path <- argpath 0;;
  r <- match path with
       | Some path =>
           major <- argint 1;;
           minor <- argint 2;;
           create path T_DEVICE major minor
       | None => ret None
       end;;
  match r with
  | None => end_op;; ret (-1)
  | Some ip => iunlockput ip;; end_op;; ret 0
  end.

Definition sys_chdir : K kernel Z :=
  p <- curproc;;
  begin_op;;
  path <- argpath 0;;
  r <- match path with Some path => namei path | None => ret None end;;
  match r with
  | None => end_op;; ret (-1)
  | Some ip =>
      ilock (Some ip);;
      type <- inode_get ip i_type;;
      if negb (type =? T_DIR) then iunlockput ip;; end_op;; ret (-1) else
      iunlock (Some ip);;
      cwd <- pget p p_cwd;;
      cwd <- deref cwd;;
      iput cwd;;
      end_op;;
      pset p (set_p_cwd (Some ip));;
      ret 0
  end.

(** The loop of sys_exec that copies the argument strings into pages of their own,
    [k] = MAXARG - [length argv] rounds left. The result is whether the array ended,
    and the pages allocated so far. *)
Fixpoint sys_exec_args (k : nat) (uargv : Z) (argv : list Z) : K kernel (bool * list Z) :=
  match k with
  | O => ret (false, argv)
  | S k =>
      u <- fetchaddr (u64 (uargv + 8 * Z.of_nat (length argv)));;
      match u with
      | None => ret (false, argv)
      | Some uarg =>
          if uarg =? 0 then ret (true, argv) else
          a <- in_pm kalloc;;
          if a =? 0 then ret (false, argv) else
          r <- fetchstr uarg PGSIZE;;
          modify (fun s => set_k_pm (set_mem (write_bytes (pm_mem (k_pm s)) a r.2) (k_pm s)) s);;
          if r.1 <? 0 then ret (false, argv ++ [a]) else
          sys_exec_args k uargv (argv ++ [a])
      end
  end.

Definition sys_exec : K kernel Z :=
  path <- argpath 0;;
  match path with
  | None => ret (-1)
  | Some path =>
      uargv <- argaddr 1;;
      r <- sys_exec_args (Z.to_nat MAXARG) uargv [];;
      let '(ok, argv) := r in
      v <- (if ok then exec path argv else ret (-1));;
      forM argv (fun a => in_pm (kfree a));;
      ret v
  end.

Definition sys_pipe : K kernel Z :=
  p <- curproc;;
  fdarray <- argaddr 0;;
  r <- pipealloc;;
  match r with
  | None => ret (-1)
  | Some (rf, wf) =>
      fd0 <- fdalloc rf;;
      fd1 <- match fd0 with Some _ => fdalloc wf | None => ret None end;;
      match fd0, fd1 with
      | Some fd0, Some fd1 =>
          pagetable <- pget p p_pagetable;;
          e <- in_pm (copyout pagetable fdarray (le_bytes 4 (Z.of_nat fd0)));;
          e <- (if e <? 0 then ret e
                else in_pm (copyout pagetable (u64 (fdarray + 4)) (le_bytes 4 (Z.of_nat fd1))));;
          if e <? 0 then
            ofile_set p fd0 None;;
            ofile_set p fd1 None;;
            fileclose rf;;
            fileclose wf;;
            ret (-1)
          else ret 0
      | _, _ =>
          match fd0 with Some fd0 => ofile_set p fd0 None | None => ret tt end;;
          fileclose rf;;
          fileclose wf;;
          ret (-1)
      end
  end.

End sys.
