(* ===== verification/Trap.v ===== *)
(** * Trap

    The dispatcher of kernel/syscall.c and kernel/trap.c: traps from user space and
    from the kernel, device and clock interrupts, the return to user space; forkret
    of kernel/proc.c. Control registers that a function reads on entry are
    arguments, those it leaves for the return are results. *)
From stdpp Require Import base tactics list numbers gmap strings.
From S2P Require Import Prelude Machine Spinlock Printf Bytes Block Queue Kalloc Vm Kernel Proc.
From S2P Require Import Sleeplock Virtio Bio Log Fs Console Pipe File Fork Exec Sysfile.

Definition UART0_IRQ : Z := 10.
Definition VIRTIO0_IRQ : Z := 1.
Definition SSTATUS_SPP : Z := Z.shiftl 1 8.
Definition SSTATUS_SPIE : Z := Z.shiftl 1 5.
Definition SATP_SV39 : Z := Z.shiftl 8 60.
Definition MAKE_SATP (pagetable : Z) : Z := Z.lor SATP_SV39 (Z.shiftr pagetable 12).

(** The elements of names[] and count[] in syscall() that no code initialises. *)
Class UninitTrace := { junk_name : option (list Z); junk_count : Z -> Z }.

(** The registers at a trap: sstatus, scause, sepc, stval and satp, and the
    interrupt the PLIC reports. *)
Record trapregs := TrapRegs {
  tr_sstatus : Z; tr_scause : Z; tr_sepc : Z; tr_stval : Z; tr_satp : Z; tr_irq : Z
}.

(** What usertrapret leaves for userret in trampoline.S. *)
Record userret := UserRet { ur_stvec : Z; ur_sstatus : Z; ur_sepc : Z; ur_satp : Z; ur_fn : Z }.

Section trap.
Context `{Layout} `{Symbols} `{WaitFuel} `{Uninit} `{UninitTrace}.

(** ** System calls *)

Definition syscalls (pol : policy) (num : Z) : option (K kernel Z) :=
  if num =? 1 then Some sys_fork
  else if num =? 2 then Some sys_exit
  else if num =? 3 then Some sys_wait
  else if num =? 4 then Some sys_pipe
  else if num =? 5 then Some sys_read
  else if num =? 6 then Some sys_kill
  else if num =? 7 then Some sys_exec
  else if num =? 8 then Some sys_fstat
  else if num =? 9 then Some sys_chdir
  else if num =? 10 then Some sys_dup
  else if num =? 11 then Some sys_getpid
  else if num =? 12 then Some sys_sbrk
  else if num =? 13 then Some sys_sleep
  else if num =? 14 then Some sys_uptime
  else if num =? 15 then Some sys_open
  else if num =? 16 then Some sys_write
  else if num =? 17 then Some sys_mknod
  else if num =? 18 then Some sys_unlink
  else if num =? 19 then Some sys_link
  else if num =? 20 then Some sys_mkdir
  else if num =? 21 then Some sys_close
  else if num =? 22 then Some sys_trace
  else if num =? 23 then Some sys_waitx
  else if num =? 24 then Some (sys_set_priority pol)
  else None.

Definition SyscallNamesArray : list string :=
  ["fork"; "exit"; "wait"; "pipe"; "read"; "kill"; "exec"; "fstat"; "chdir"; "dup"; "getpid";
   "sbrk"; "sleep"; "uptime"; "open"; "write"; "mknod"; "unlink"; "link"; "mkdir"; "close";
   "trace"; "set_priority"]%string.

(** names[num] for num >= 1 *)
Definition name_of (num : Z) : option (list Z) :=
  match SyscallNamesArray !! Z.to_nat (num - 1) with
  | Some s => Some (str s)
  | None => junk_name
  end.

Definition ArgumentCount : list Z :=
  [0; 1; 1; 0; 3; 2; 2; 1; 1; 1; 0; 1; 1; 0; 2; 3; 3; 1; 2; 1; 1; 1].

Definition count_of (num : Z) : Z :=
  default (junk_count num) (ArgumentCount !! Z.to_nat (num - 1)).

(** What syscall prints for a traced call. *)
Definition trace_syscall (p : nat) (num arg1 arg2 arg3 : Z) : K kernel unit :=
  pid <- pget p p_pid;;
  kprintf "%d: syscall %s (" [VInt pid; VStr (name_of num)];;
  when (count_of num =? 1) (kprintf "%d" [VInt arg1]);;
  when (count_of num =? 2) (kprintf "%d %d" [VInt arg1; VInt arg2]);;
  when (count_of num =? 3) (kprintf "%d %d %d" [VInt arg1; VInt arg2; VInt arg3]);;
  a0 <- tf_get p TF_a0;;
  kprintf ") ->%d
" [VInt a0].

Definition syscall (pol : policy) : K kernel unit :=
  p <- curproc;;
  a7 <- tf_get p TF_a7;;
  let num := i32 a7 in
  match syscalls pol num with
  | Some f =>
      a0 <- tf_get p TF_a0;;
      a1 <- tf_get p TF_a1;;
      a2 <- tf_get p TF_a2;;
      let arg1 := i32 a0 in
      let arg2 := i32 a1 in
      let arg3 := i32 a2 in
      r <- f;;
      tf_set p TF_a0 (u64 r);;
      mask <- pget p p_mask;;
      when (Z.land (Z.shiftr mask num) 1 =? 1) (trace_syscall p num arg1 arg2 arg3)
  | None =>
      x <- pget p id;;
      kprintf "%d %s: unknown sys call %d
" [VInt (p_pid x); VStr (Some (cstr (p_name x))); VInt num];;
      tf_set p TF_a0 (u64 (-1))
  end.

(** ** Interrupts *)

Definition min (a b : Z) : Z := if b <? a then b else a.
Definition max (a b : Z) : Z := if b <? a then a else b.

(** The loop of clockintr over the table. *)
Definition clock_account (p : nat) : K kernel unit :=
  acquire (L_proc p);;
  st <- pget p p_state;;
  when (bool_decide (st = SLEEPING)) (pset p (fun x => set_p_sleep_time (i32 (p_sleep_time x + 1)) x));;
  when (bool_decide (st = RUNNING)) (pset p (fun x => set_p_rtime (i32 (p_rtime x + 1)) x));;
  pset p (fun x => set_p_niceness
    (i32 (divw (p_sleep_time x) (i32 (p_sleep_time x + p_rtime x)) * 10)) x);;
  pset p (fun x => set_p_dynamic_priority
    (max 0 (min (i32 (p_static_priority x - p_niceness x + 5)) 100)) x);;
  release (L_proc p).

Definition clockintr : K kernel unit :=
  acquire L_ticks;;
  modify (fun s => set_k_ticks (u32 (k_ticks s + 1)) s);;
  update_time;;
  wakeup Ch_ticks;;
  release L_ticks;;
  me <- myproc;;
  match me with
  | Some p =>
      pset p (fun x => set_p_rtime (i32 (p_rtime x + 1)) x);;
      pset p (fun x => set_p_q (alter (fun n => i32 (n + 1)) (Z.to_nat (p_level x)) (p_q x)) x);;
      pset p (fun x => set_p_change_queue (i32 (p_change_queue x - 1)) x)
  | None => ret tt
  end;;
  forM (upto NPROC) clock_account.

Definition devintr (pol : policy) (r : trapregs) : K kernel Z :=
  let scause := tr_scause r in
  if truthy (Z.land scause 0x8000000000000000) && (Z.land scause 0xff =? 9) then
    let irq := tr_irq r in
    (if irq =? UART0_IRQ then uartintr pol
     else if irq =? VIRTIO0_IRQ then virtio_disk_intr
     else when (truthy irq) (kprintf "unexpected interrupt irq=%d
" [VInt irq]));;
    ret 1
  else if scause =? 0x8000000000000001 then
    id <- cpuid;;
    when (id =? 0) clockintr;;
    ret 2
  else ret 0.

(** A timer tick for the running process: what each policy does. *)
Definition timer_yield (pol : policy) (p : nat) : K kernel unit :=
  match pol with
  | FCFS => ret tt
  | MLFQ =>
      x <- pget p id;;
      when (p_change_queue x <=? 0)
        (when (negb (p_level x + 1 =? Z.of_nat NMLFQ)) (pset p (set_p_level (p_level x + 1)));;
         yield)
  | RR | PBS => yield
  end.

(** ** Return to user space *)

Definition usertrapret (sstatus satp : Z) : K kernel userret :=
  p <- curproc;;
  intr_off;;
  tf_set p TF_kernel_satp satp;;
  kstack <- pget p p_kstack;;
  tf_set p TF_kernel_sp (kstack + PGSIZE);;
  tf_set p TF_kernel_trap sym_usertrap;;
  tp <- cpuid;;
  tf_set p TF_kernel_hartid tp;;
  let x := Z.lor (Z.land sstatus (Z.lnot SSTATUS_SPP)) SSTATUS_SPIE in
  epc <- tf_get p TF_epc;;
  pagetable <- pget p p_pagetable;;
  ret (UserRet (TRAMPOLINE + (sym_uservec - l_trampoline)) x epc (MAKE_SATP pagetable)
         (TRAMPOLINE + (sym_userret - l_trampoline))).

Definition forkret (sstatus satp : Z) : K kernel userret :=
  p <- curproc;;
  release (L_proc p);;
  first <- gets k_first;;
  when first
    (modify (set_k_first false);;
     fsinit ROOTDEV);;
  usertrapret sstatus satp.

(** ** Traps *)

Definition usertrap (pol : policy) (r : trapregs) : K kernel userret :=
  if truthy (Z.land (tr_sstatus r) SSTATUS_SPP) then panic "usertrap: not from user mode" else
  p <- curproc;;
  tf_set p TF_epc (tr_sepc r);;
  which_dev <-
    (if tr_scause r =? 8 then
       killed <- pget p p_killed;;
       when (truthy killed) (exit (-1));;
       epc <- tf_get p TF_epc;;
       tf_set p TF_epc (u64 (epc + 4));;
       intr_on;;
       syscall pol;;
       ret 0
     else
       which_dev <- devintr pol r;;
       when (which_dev =? 0)
         (pid <- pget p p_pid;;
          kprintf "usertrap(): unexpected scause %p pid=%d
" [VInt (tr_scause r); VInt pid];;
          kprintf "            sepc=%p stval=%p
" [VInt (tr_sepc r); VInt (tr_stval r)];;
          pset p (set_p_killed 1));;
       ret which_dev);;
  killed <- pget p p_killed;;
  when (truthy killed) (exit (-1));;
  when (which_dev =? 2) (timer_yield pol p);;
  usertrapret (tr_sstatus r) (tr_satp r).

(** The values restored into sepc and sstatus. *)
Definition kerneltrap (pol : policy) (r : trapregs) : K kernel (Z * Z) :=
  if negb (truthy (Z.land (tr_sstatus r) SSTATUS_SPP)) then panic "kerneltrap: not from supervisor mode" else
  ie <- intr_get;;
  if ie then panic "kerneltrap: interrupts enabled" else
  which_dev <- devintr pol r;;
  if which_dev =? 0 then
    kprintf "scause %p
" [VInt (tr_scause r)];;
    kprintf "sepc=%p stval=%p
" [VInt (tr_sepc r); VInt (tr_stval r)];;
    panic "kerneltrap"
  else
  when (negb (bool_decide (pol = FCFS)) && (which_dev =? 2))
    (me <- myproc;;
     match me with
     | Some p =>
         st <- pget p p_state;;
         when (bool_decide (st = RUNNING)) (timer_yield pol p)
     | None => ret tt
     end);;
  ret (tr_sepc r, tr_sstatus r).

End trap.
