(* ===== verification/KernelInv.v ===== *)
(** * KernelInv

    The type invariant of the kernel's tables, and the discipline of Discipline for
    every function of the kernel: it keeps the invariant, and on every path,
    errors included, it returns with the spin locks and the interrupt state it was
    called with; it sleeps only with the lock of its process. *)
From stdpp Require Import base tactics list numbers gmap strings.
From S2P Require Import Prelude Machine Spinlock Printf Bytes Block Queue Kalloc Vm Kernel Proc ProcFacts.
From S2P Require Import Discipline Balance Sleeplock Virtio Bio Log Fs Console Pipe File Fork Exec.
From S2P Require Import Sysfile Trap.

(** ** The invariant *)

Record proc_wf (x : proc) : Prop := {
  pw_ofile : length (p_ofile x) = NOFILE;
  pw_name : length (p_name x) = 16%nat;
  pw_q : length (p_q x) = NMLFQ;
  pw_dynamic : 0 <= p_dynamic_priority x <= 100;
  pw_static : 0 <= p_static_priority x <= 100;
  pw_level : 0 <= p_level x < Z.of_nat NMLFQ;
}.

Record disk_wf (d : disk_t) : Prop := {
  dw_desc : length (d_desc d) = NUM;
  dw_avail : length (d_avail_ring d) = NUM;
  dw_used : length (d_used_ring d) = NUM;
  dw_free : length (d_free d) = NUM;
  dw_info_b : length (d_info_b d) = NUM;
  dw_info_status : length (d_info_status d) = NUM;
  dw_ops : length (d_ops d) = NUM;
}.

Definition inode_wf (x : inode) : Prop := length (i_addrs x) = 13%nat.
Definition pipe_wf (x : pipe) : Prop := length (pi_data x) = Z.to_nat PIPESIZE.
Definition log_wf (l : log_t) : Prop := length (lh_block l) = Z.to_nat LOGSIZE.
Definition cons_wf (c : cons_t) : Prop := length (c_buf c) = Z.to_nat INPUT_BUF.
Definition uart_wf (u : uart_t) : Prop := length (u_tx_buf u) = Z.to_nat UART_TX_BUF_SIZE.

Record kwf (s : kernel) : Prop := {
  kw_proc : length (k_proc s) = NPROC;
  kw_procs : Forall proc_wf (k_proc s);
  kw_mlfq : length (k_mlfq s) = NMLFQ;
  kw_buf : length (bc_buf (k_bcache s)) = NBUF;
  kw_inode : length (k_inode s) = NINODE;
  kw_inodes : Forall inode_wf (k_inode s);
  kw_file : length (k_file s) = NFILE;
  kw_pipe : map_Forall (fun _ => pipe_wf) (k_pipe s);
  kw_log : log_wf (k_log s);
  kw_cons : cons_wf (k_cons s);
  kw_uart : uart_wf (k_uart s);
  kw_disk : disk_wf (k_disk s);
}.

(** ** Specifications of kernel code

    The states of the processes, and what the specifications below must allow. *)

Definition k_states (s : kernel) : list procstate := p_state <$> k_proc s.

(** Code that neither sleeps nor allocates processes: it may change everything that
    keeps the invariant and the states, and it may wake a process. *)
Record kbase := KBase {
  kb_spec :> spec kernel;
  kb_inv : forall s, sp_inv kb_spec s <-> kwf s;
  kb_same : forall q s s', k_states s' = k_states s -> sp_run kb_spec q s s';
  kb_wake : forall q p s, k_states s !! p = Some SLEEPING ->
    sp_run kb_spec q s (upd_proc p (set_p_state RUNNABLE) s);
}.

(** The state of a process that gives up the CPU. *)
Definition gone (st : option procstate) : Prop :=
  st = Some RUNNABLE \/ st = Some SLEEPING \/ st = Some ZOMBIE.

(** Code that may also sleep: the process changes its own state and switches. *)
Record ksleep := KSleep {
  ks_base :> kbase;
  ks_leave : forall p s s', (forall q, q <> p -> k_states s' !! q = k_states s !! q) ->
    gone (k_states s' !! p) -> sp_leave ks_base p s s';
}.

(** The slot of a process that does not exist, does not run yet or has ended. *)
Definition vacant (st : procstate) : Prop := st = UNUSED \/ st = USED \/ st = ZOMBIE.

(** A process that slept may have been woken, and that is all. *)
Definition st_woken (x y : procstate) : Prop := x = y \/ x = SLEEPING /\ y = RUNNABLE.

(** The states evolve by [R], one process at a time. *)
Definition evo (R : procstate -> procstate -> Prop) (s s' : kernel) : Prop :=
  forall p, option_Forall2 R (k_states s !! p) (k_states s' !! p).

(** Code that may also create and release processes. *)
Record kproc := KProc {
  kp_sleep :> ksleep;
  kp_still : forall q s s', evo st_woken s s' -> sp_run kp_sleep q s s';
  kp_slot : forall q p st st' s, k_states s !! p = Some st -> vacant st -> vacant st' \/ st' = RUNNABLE ->
    sp_run kp_sleep q s (upd_proc p (set_p_state st') s);
}.

(** ** Accesses *)

Lemma Forall_alter_wf {A} (P : A -> Prop) (f : A -> A) i (l : list A) :
  (forall x, P x -> P (f x)) -> Forall P l -> Forall P (alter f i l).
Proof. intros Hf Hl. apply Forall_alter; [done|]. intros x _ Hx. auto. Qed.

Lemma map_Forall_alter_wf (P : pipe -> Prop) (f : pipe -> pipe) (i : Z) (m : gmap Z pipe) :
  (forall x, P x -> P (f x)) -> map_Forall (fun _ => P) m -> map_Forall (fun _ => P) (alter f i m).
Proof.
  intros Hf Hm j x. rewrite lookup_alter_Some. intros [(-> & y & Hy & ->)|(_ & Hj)]; [|by apply (Hm j)].
  apply Hf. by apply (Hm j).
Qed.

Lemma kwf_upd_proc i f s : (forall x, proc_wf x -> proc_wf (f x)) -> kwf s -> kwf (upd_proc i f s).
Proof.
  intros Hf []. constructor; simpl; try done.
  - by rewrite length_alter.
  - by apply Forall_alter_wf.
Qed.

Lemma states_lookup s i : k_states s !! i = p_state <$> k_proc s !! i.
Proof. apply list_lookup_fmap. Qed.

Lemma states_upd i f s :
  (forall x, p_state (f x) = p_state x) -> k_states (upd_proc i f s) = k_states s.
Proof.
  intros Hf. apply list_eq. intros j. rewrite !states_lookup. destruct (decide (j = i)) as [->|Hne].
  - simpl. rewrite list_lookup_alter_eq. destruct (k_proc s !! i) as [x|]; simpl; [|done]. by rewrite Hf.
  - by rewrite upd_proc_lookup_ne.
Qed.

Lemma states_upd_ne i j f s : j <> i -> k_states (upd_proc i f s) !! j = k_states s !! j.
Proof. intros Hne. rewrite !states_lookup. by rewrite upd_proc_lookup_ne. Qed.

Lemma states_upd_eq i st s :
  k_states (upd_proc i (set_p_state st) s) !! i = (fun _ => st) <$> k_states s !! i.
Proof.
  rewrite !states_lookup. simpl. rewrite list_lookup_alter_eq. by destruct (k_proc s !! i).
Qed.

(** *** The specifications *)

Section evo.
Context (R : procstate -> procstate -> Prop) `{!PreOrder R}.

Lemma evo_refl s : evo R s s.
Proof. intros p. destruct (k_states s !! p); by constructor. Qed.

Lemma evo_trans s1 s2 s3 : evo R s1 s2 -> evo R s2 s3 -> evo R s1 s3.
Proof.
  intros H1 H2 p. specialize (H1 p). specialize (H2 p). destruct H1; inversion H2; constructor. by etrans.
Qed.

Lemma evo_same s s' : k_states s' = k_states s -> evo R s s'.
Proof. intros E p. rewrite E. destruct (k_states s !! p); by constructor. Qed.

Lemma evo_upd p st st' s : k_states s !! p = Some st -> R st st' -> evo R s (upd_proc p (set_p_state st') s).
Proof.
  intros E HR q. destruct (decide (q = p)) as [->|Hne].
  - rewrite states_upd_eq, E. by constructor.
  - rewrite states_upd_ne by done. destruct (k_states s !! q); by constructor.
Qed.

(** What a switch may have changed: the others by [R], the process itself is [gone]. *)
Definition evo_leave (p : nat) (s s' : kernel) : Prop :=
  (forall q, q <> p -> option_Forall2 R (k_states s !! q) (k_states s' !! q)) /\ gone (k_states s' !! p).

Lemma evo_run_leave p s1 s2 s3 : evo R s1 s2 -> evo_leave p s2 s3 -> evo_leave p s1 s3.
Proof.
  intros H1 [H2 Hg]. split; [|done]. intros q Hq. specialize (H1 q). specialize (H2 q Hq).
  destruct H1; inversion H2; constructor. by etrans.
Qed.

End evo.

#[export] Instance st_woken_pre : PreOrder st_woken.
Proof. split; [by left|]. unfold st_woken. intros x y z [->|[-> ->]] [->|[E ->]]; auto. Qed.

(** Code that does not switch and leaves the states, wakeups apart. *)
Definition still : kbase.
Proof.
  refine (KBase (Spec kernel kwf (fun _ => evo st_woken) (fun _ _ _ => False) (fun _ _ => True)
    (fun _ => evo_refl st_woken) (fun _ => evo_trans st_woken) (fun _ _ _ _ _ _ H => H)) _ _ _).
  - done.
  - intros q s s'. apply evo_same, _.
  - intros q p s E. eapply evo_upd; [apply _|exact E|]. by right.
Defined.

Section access.
Context (B : kbase).

Lemma bal_kmodify f :
  (forall s, kwf s -> kwf (f s)) -> (forall s, k_proc (f s) = k_proc s) -> bal B (modify f).
Proof.
  intros Hf Hp. apply bal_modify. intros q s Hs. rewrite kb_inv in *. split; [auto|].
  apply kb_same. unfold k_states. by rewrite Hp.
Qed.

Lemma tri_pget {A C} a i (f : proc -> A) (g : A -> K kernel C) (R : C -> lctx -> Prop) :
  (forall x, proc_wf x -> tri B a (g (f x)) R) -> tri B a (bind (pget i f) g) R.
Proof.
  intros Hg Hw h s Hh Hs. unfold bind, pget, gets, bind. simpl.
  destruct (k_proc s !! i) as [x|] eqn:E; [|done]. simpl. apply Hg; auto.
  rewrite kb_inv in Hs. by apply (Forall_lookup_1 _ _ _ _ (kw_procs s Hs) E).
Qed.

(** The state that was read is known until something changes it. *)
Lemma tri_pget_state {A C} a i (f : proc -> A) (g : A -> K kernel C) (R : C -> lctx -> Prop) :
  (forall x, proc_wf x -> tri_pre B (fun s => k_states s !! i = Some (p_state x)) a (g (f x)) R) ->
  tri B a (bind (pget i f) g) R.
Proof.
  intros Hg Hw h s Hh Hs. unfold bind, pget, gets, bind. simpl.
  destruct (k_proc s !! i) as [x|] eqn:E; [|done]. simpl. apply Hg; auto.
  - rewrite kb_inv in Hs. by apply (Forall_lookup_1 _ _ _ _ (kw_procs s Hs) E).
  - by rewrite states_lookup, E.
Qed.

Lemma pre_pset {C} (P P' : kernel -> Prop) a i u (f : unit -> K kernel C) (R : C -> lctx -> Prop) :
  (forall x, proc_wf x -> proc_wf (u x)) ->
  (forall s, P s -> sp_run B (lc_proc a) s (upd_proc i u s) /\ P' (upd_proc i u s)) ->
  tri_pre B P' a (f tt) R -> tri_pre B P a (bind (pset i u) f) R.
Proof.
  intros Hu Hp. apply pre_modify. intros s Hs Hps. rewrite kb_inv in *. destruct (Hp s Hps). split_and!; [|done..].
  by apply (kwf_upd_proc i u s).
Qed.

(** Another field of the process. *)
Lemma pre_pset_same {C} (Φ : list procstate -> Prop) a i u (f : unit -> K kernel C) (R : C -> lctx -> Prop) :
  (forall x, proc_wf x -> proc_wf (u x)) -> (forall x, p_state (u x) = p_state x) ->
  tri_pre B (fun s => Φ (k_states s)) a (f tt) R -> tri_pre B (fun s => Φ (k_states s)) a (bind (pset i u) f) R.
Proof.
  intros Hu Hst. apply pre_pset; [done|]. intros s Hs.
  pose proof (states_upd i u s Hst) as E. split; [by apply kb_same|by rewrite E].
Qed.

Lemma bal_pget {A} i (f : proc -> A) : bal B (pget i f).
Proof. unfold pget. disc. Qed.

Lemma bal_pset i f : (forall x, proc_wf x -> proc_wf (f x)) -> (forall x, p_state (f x) = p_state x) -> bal B (pset i f).
Proof.
  intros Hf Hst. apply bal_modify. intros q s Hs. rewrite kb_inv in *.
  split; [by apply (kwf_upd_proc i f s)|]. apply kb_same. by apply (states_upd i f s).
Qed.

Lemma bal_buf_get {A} b (f : buf_t -> A) : bal B (buf_get b f).
Proof. unfold buf_get. disc. Qed.

Lemma bal_buf_set b f : bal B (buf_set b f).
Proof. apply bal_kmodify; [|done]. intros s []. constructor; simpl; try done. by rewrite length_alter. Qed.

Lemma bal_inode_get {A} i (f : inode -> A) : bal B (inode_get i f).
Proof. unfold inode_get. disc. Qed.

Lemma bal_inode_set i f : (forall x, inode_wf x -> inode_wf (f x)) -> bal B (inode_set i f).
Proof.
  intros Hf. apply bal_kmodify; [|done]. intros s []. constructor; simpl; try done.
  - by rewrite length_alter.
  - by apply Forall_alter_wf.
Qed.

Lemma bal_file_get {A} i (f : file -> A) : bal B (file_get i f).
Proof. unfold file_get. disc. Qed.

Lemma bal_file_set i f : bal B (file_set i f).
Proof. apply bal_kmodify; [|done]. intros s []. constructor; simpl; try done. by rewrite length_alter. Qed.

Lemma bal_pipe_get {A} i (f : pipe -> A) : bal B (pipe_get i f).
Proof. unfold pipe_get. disc. Qed.

Lemma bal_pipe_set i f : (forall x, pipe_wf x -> pipe_wf (f x)) -> bal B (pipe_set i f).
Proof.
  intros Hf. apply bal_kmodify; [|done]. intros s []. constructor; simpl; try done. by apply map_Forall_alter_wf.
Qed.

Lemma bal_log_get {A} (f : log_t -> A) : bal B (log_get f).
Proof. apply bal_gets. Qed.
Lemma bal_log_set f : (forall x, log_wf x -> log_wf (f x)) -> bal B (log_set f).
Proof. intros Hf. apply bal_kmodify; [|done]. intros s []. constructor; simpl; auto. Qed.
Lemma bal_cons_get {A} (f : cons_t -> A) : bal B (cons_get f).
Proof. apply bal_gets. Qed.
Lemma bal_cons_set f : (forall x, cons_wf x -> cons_wf (f x)) -> bal B (cons_set f).
Proof. intros Hf. apply bal_kmodify; [|done]. intros s []. constructor; simpl; auto. Qed.
Lemma bal_uart_get {A} (f : uart_t -> A) : bal B (uart_get f).
Proof. apply bal_gets. Qed.
Lemma bal_uart_set f : (forall x, uart_wf x -> uart_wf (f x)) -> bal B (uart_set f).
Proof. intros Hf. apply bal_kmodify; [|done]. intros s []. constructor; simpl; auto. Qed.
Lemma bal_disk_get {A} (f : disk_t -> A) : bal B (disk_get f).
Proof. apply bal_gets. Qed.
Lemma bal_disk_set f : (forall x, disk_wf x -> disk_wf (f x)) -> bal B (disk_set f).
Proof. intros Hf. apply bal_kmodify; [|done]. intros s []. constructor; simpl; auto. Qed.

Lemma bal_in {T A} (get : kernel -> T) (put : T -> kernel -> kernel) (m : K T A) :
  (forall s t, kwf s -> kwf (put t s)) -> (forall s t, k_proc (put t s) = k_proc s) ->
  bal quiet m -> bal B (zoom get put m).
Proof.
  intros Hk Hp. apply bal_zoom. intros q s t Hs. rewrite kb_inv in *. split; [auto|].
  apply kb_same. unfold k_states. by rewrite Hp.
Qed.
Lemma bal_in_pm {A} (m : K pm A) : bal quiet m -> bal B (in_pm m).
Proof. apply bal_in; [|done]. intros s t []. by constructor. Qed.
Lemma bal_in_tty {A} (m : K tty A) : bal quiet m -> bal B (in_tty m).
Proof. apply bal_in; [|done]. intros s t []. by constructor. Qed.
Lemma bal_in_mlfq {A} level (m : K Queue A) : bal quiet m -> bal B (in_mlfq level m).
Proof. apply bal_in; [|done]. intros s t []. constructor; simpl; auto. by rewrite length_insert. Qed.

End access.

(** The invariant after an update of one element. *)
Ltac wf_update :=
  intros; unfold inode_wf, pipe_wf, log_wf, cons_wf, uart_wf in *;
  repeat match goal with H : proc_wf _ |- _ => destruct H end;
  lazymatch goal with
  | |- proc_wf _ => constructor
  | H : disk_wf _ |- _ => destruct H; constructor
  | _ => idtac
  end;
  simpl; rewrite ?length_alter, ?length_insert, ?length_replicate; auto; try lia; try done.

#[export] Hint Resolve bal_pget bal_buf_get bal_buf_set bal_inode_get bal_file_get bal_file_set
  bal_pipe_get bal_log_get bal_cons_get bal_uart_get bal_disk_get : disc.
#[export] Hint Extern 1 (bal _ (pset _ _)) => apply bal_pset; [solve [wf_update]|solve [intros; reflexivity]] : disc.
#[export] Hint Extern 1 (bal _ (inode_set _ _)) => apply bal_inode_set; solve [wf_update] : disc.
#[export] Hint Extern 1 (bal _ (pipe_set _ _)) => apply bal_pipe_set; solve [wf_update] : disc.
#[export] Hint Extern 1 (bal _ (log_set _)) => apply bal_log_set; solve [wf_update] : disc.
#[export] Hint Extern 1 (bal _ (cons_set _)) => apply bal_cons_set; solve [wf_update] : disc.
#[export] Hint Extern 1 (bal _ (uart_set _)) => apply bal_uart_set; solve [wf_update] : disc.
#[export] Hint Extern 1 (bal _ (disk_set _)) => apply bal_disk_set; solve [wf_update] : disc.
#[export] Hint Extern 1 (bal _ (in_pm _)) => apply bal_in_pm; solve [auto 1 with disc nocore] : disc.
#[export] Hint Extern 1 (bal _ (in_tty _)) => apply bal_in_tty; solve [auto 1 with disc nocore] : disc.
#[export] Hint Extern 1 (bal _ (in_mlfq _ _)) => apply bal_in_mlfq; solve [auto 1 with disc nocore | apply bal_gets] : disc.

Ltac disc_inv := solve [done | let s := fresh in intros s []; constructor; simpl; auto].

Ltac disc_modify ::= apply bal_kmodify; [disc_inv|intros; reflexivity].

Ltac disc_hook ::=
  lazymatch goal with
  | |- tri _ _ (bind (pget _ _) _) _ => apply tri_pget; intros; cbv beta delta [id]
  end.

(** ** Processes *)

Section procs.
Context `{Layout} `{Symbols} `{WaitFuel} (B : kbase).

Lemma bal_kprintf fmt ap : bal B (kprintf fmt ap).
Proof. unfold kprintf. disc. Qed.
Lemma bal_tf_get p off : bal B (tf_get p off).
Proof. unfold tf_get. disc. Qed.
Lemma bal_tf_set p off v : bal B (tf_set p off v).
Proof. unfold tf_set. disc. Qed.
Lemma bal_myproc : bal B myproc.
Proof. unfold myproc. disc. Qed.
Hint Resolve bal_kprintf bal_tf_get bal_tf_set bal_myproc : disc.

Lemma tri_myproc {C} a (f : option nat -> K kernel C) (R : C -> lctx -> Prop) :
  tri B a (f (lc_proc a)) R -> tri B a (bind myproc f) R.
Proof.
  intros Hf. apply tri_wf. intros Ha. unfold myproc. apply tri_assoc, tri_push, tri_assoc, tri_get_hart.
  intros h Hh. apply tri_assoc. apply tri_pop_bind; [done|]. apply tri_bind_ret.
  assert (h_proc h = lc_proc a) as -> by (change (lc_proc (abs h) = lc_proc a); by rewrite Hh). done.
Qed.

Lemma tri_curproc {C} a (f : nat -> K kernel C) (R : C -> lctx -> Prop) :
  (forall p, lc_proc a = Some p -> tri B a (f p) R) -> tri B a (bind curproc f) R.
Proof. intros Hf. unfold curproc. apply tri_assoc, tri_myproc, tri_deref. auto. Qed.

Lemma bal_wakeup ch : bal B (wakeup ch).
Proof.
  unfold wakeup. apply bal_forM. intros p a. apply tri_wf. intros Ha. apply tri_myproc.
  destruct (bool_decide _); cbn [when]; [|by apply tri_ret]. apply tri_acquire. intros Hp.
  apply tri_pget_state. intros x Hx. unfold id.
  destruct (bool_decide (p_state x = SLEEPING)) eqn:E; cbn [andb]; [|apply pre_drop; cbn [when]; disc].
  apply bool_decide_eq_true in E. rewrite E. destruct (bool_decide _); cbn [when]; [|apply pre_drop; disc].
  eapply (pre_pset _ _ (fun _ => True)); [wf_update| |apply pre_drop; disc].
  intros s Hs. split; [by apply kb_wake|done].
Qed.

Lemma bal_kill pid : bal B (kill pid).
Proof.
  unfold kill. intros a. apply tri_bal; [|intros; by apply tri_ret]. apply bal_forM_exit. intros p b.
  apply tri_wf. intros Hb. apply tri_acquire. intros Hp. apply tri_pget_state. intros x Hx. unfold id.
  destruct (p_pid x =? pid); [|apply pre_drop; disc].
  apply (pre_pset_same B (fun l => l !! p = Some (p_state x))); [wf_update|done|].
  destruct (bool_decide (p_state x = SLEEPING)) eqn:E; cbn [when]; [|apply pre_drop; disc].
  apply bool_decide_eq_true in E. rewrite E.
  eapply (pre_pset _ _ (fun _ => True)); [wf_update| |apply pre_drop; disc].
  intros s Hs. split; [by apply kb_wake|done].
Qed.

End procs.

Section sleeping.
Context `{Layout} `{Symbols} `{WaitFuel} (B : ksleep).

Lemma curproc_abs p h s :
  lctx_wf (abs h) -> h_proc h = Some p -> exists h', curproc h s = Done p h' s /\ abs h' = abs h.
Proof.
  intros Hw Hp. destruct (pop_off_abs (abs h) (pushed h) s Hw) as (h' & E & Eh').
  { unfold abs, psh, pushed; simpl. destruct Hw as [Hn _ _]. simpl in Hn.
    destruct (Z.eqb_spec (h_noff h + 1) 0); [lia|done]. }
  exists h'. split; [|done]. unfold curproc, myproc. rewrite !bind_assoc. krun (push_off_run h s). ksimpl.
  krun E. simpl. by rewrite Hp.
Qed.

(** Process [p] switches; [s0] is the state when it was last resumed. *)
Lemma wpo_sched {C} p a h s0 s (f : unit -> K kernel C) (R : C -> lctx -> Prop) :
  lctx_wf a -> lc_proc a = Some p -> abs h = acq (L_proc p) a -> kwf s ->
  (forall x, k_proc s !! p = Some x -> sp_leave B p s0 s) ->
  (forall h' s', abs h' = acq (L_proc p) a -> kwf s' -> sp_enter B p s' -> wpo B (Some p) s' (f tt h' s') R) ->
  wpo B (Some p) s0 (bind sched f h s) R.
Proof.
  intros Ha Hp Hh Hs Hl Hf. unfold sched. rewrite bind_assoc.
  destruct (curproc_abs p h s) as (h1 & E & Eh1).
  { rewrite Hh. auto with xv6. }
  { change (lc_proc (abs h) = Some p). by rewrite Hh. }
  krun E. clear E. rewrite Hh in Eh1. clear Hh h.
  unfold bind, holding, get_hart, pget, gets, bind, ret, intr_get, bind. simpl.
  unfold abs, acq in Eh1. injection Eh1 as E1 E2 E3 E4 E5. rewrite E1, bool_decide_eq_true_2 by set_solver. simpl.
  rewrite E2. destruct (Z.eqb_spec (lc_noff a + 1) 1) as [En|En]; [|done]. simpl.
  destruct (k_proc s !! p) as [x|] eqn:Hx; [|done]. simpl. destruct (decide _); [done|]. simpl.
  rewrite E4. simpl. assert (lc_noff a = 0) as En' by lia.
  assert (lc_held a = []) as Eh. { apply nil_length_inv. destruct Ha. lia. }
  split; [by apply kb_inv|]. exists p. split_and!; [|by right|by eapply Hl|].
  { unfold at_switch. rewrite E1, Eh, E3. split_and!; auto. lia. }
  intros h' s' (F1 & F2 & F3 & F4) Hs' He. apply Hf; [|by apply (kb_inv B)|done].
  apply lctx_eq; simpl; rewrite ?F1, ?F2, ?F3, ?F4, ?Eh, ?En'; auto. simpl. rewrite E2 in E5.
  destruct (Z.eqb_spec (lc_noff a + 1) 0); [lia|]. done.
Qed.

(** The process changes its own state and switches, as yield and sleep do. *)
Lemma tri_switch {C} p u a (f : unit -> K kernel C) (R : C -> lctx -> Prop) :
  lctx_wf a -> lc_proc a = Some p -> (forall x, proc_wf x -> proc_wf (u x)) ->
  (forall x, gone (Some (p_state (u x)))) ->
  tri B (acq (L_proc p) a) (f tt) R -> tri B (acq (L_proc p) a) (bind (pset p u) (fun _ => bind sched f)) R.
Proof.
  intros Ha Hp Hu Hg Hf Hw h s Hh Hs. rewrite bind_pset. simpl lc_proc. rewrite Hp. pose proof Hs as Hk.
  rewrite kb_inv in Hk. eapply (wpo_sched p a); [done|done|done|by apply kwf_upd_proc| |].
  - intros x Hx. apply ks_leave; [intros q Hq; by apply states_upd_ne|]. rewrite states_lookup, Hx. simpl.
    simpl in Hx. rewrite list_lookup_alter_eq in Hx. destruct (k_proc s !! p); [|done]. injection Hx as <-. apply Hg.
  - intros h' s' Hh' Hs' _. rewrite <-Hp. by apply Hf; [..|apply kb_inv].
Qed.

Lemma tri_sleep a ch lk :
  lctx_wf a -> lk ∉ lc_held a -> tri B (acq lk a) (sleep ch lk) (fun _ c => c = acq lk a).
Proof.
  intros Ha Hlk. unfold sleep. apply tri_curproc. simpl. intros p Hp.
  apply tri_acquire. simpl. intros Hpn. apply not_elem_of_cons in Hpn as [Hne Hpn].
  apply (tri_release_under _ [L_proc p]); [done|done|set_solver|]. simpl.
  apply tri_bal; [disc|]. intros _. apply tri_switch; [done|done|wf_update|intros; unfold gone; auto|].
  apply tri_bal; [disc|]. intros _. apply tri_release_bind; [done|done|].
  apply tri_acquire_last. done.
Qed.

Lemma bal_yield : bal B yield.
Proof.
  intros a. apply tri_wf. intros Ha. unfold yield. apply tri_curproc. intros p Hp.
  apply tri_acquire. intros Hn. apply tri_switch; [done|done|wf_update|intros; unfold gone; auto|]. disc.
Qed.

End sleeping.

(** ** Code between the allocation of a process and its first run *)

Section slots.
Context `{Layout} `{Symbols} `{WaitFuel} (B : kproc).

Definition slot_vacant (p : nat) (s : kernel) : Prop := exists st, k_states s !! p = Some st /\ vacant st.

Lemma slot_vacant_still p s s' : evo st_woken s s' -> slot_vacant p s -> slot_vacant p s'.
Proof.
  intros He (st & E & Hv). specialize (He p). rewrite E in He. inversion He as [? st' Hw E1 E2|].
  exists st'. split; [done|]. destruct Hw as [<-|[-> _]]; [done|]. by destruct Hv as [?|[?|?]].
Qed.

Lemma pre_still {A C} p (m : K kernel A) a (f : A -> K kernel C) (R : C -> lctx -> Prop) :
  bal still m -> (forall x, tri_pre B (slot_vacant p) a (f x) R) -> tri_pre B (slot_vacant p) a (bind m f) R.
Proof.
  intros Hm Hf Hw h s Hh Hs Hp. rewrite kb_inv in Hs. pose proof (Hm a Hw h s Hh Hs) as Ho. unfold bind.
  destruct (m h s) as [x h1 s1|msg|h1 s1 k|]; simpl in *; [|done| |done].
  - destruct Ho as (Hc & Hs1 & He). eapply wpo_run; [by apply kp_still|]. apply Hf; auto.
    + by apply kb_inv.
    + by eapply slot_vacant_still.
  - by destruct Ho as [_ (q & _ & _ & [] & _)].
Qed.

Lemma pre_slot {C} p st a (f : unit -> K kernel C) (R : C -> lctx -> Prop) :
  vacant st -> tri_pre B (slot_vacant p) a (f tt) R ->
  tri_pre B (slot_vacant p) a (bind (pset p (set_p_state st)) f) R.
Proof.
  intros Hv. apply pre_pset; [wf_update|]. intros s (st0 & E & Hv0). split; [eapply kp_slot; eauto|].
  exists st. split; [|done]. by rewrite states_upd_eq, E.
Qed.

(** The process starts to exist. *)
Lemma pre_start {C} p a (f : unit -> K kernel C) (R : C -> lctx -> Prop) :
  tri B a (f tt) R -> tri_pre B (slot_vacant p) a (bind (pset p (set_p_state RUNNABLE)) f) R.
Proof.
  intros Hf. eapply (pre_pset _ _ (fun _ => True)); [wf_update| |by apply pre_drop].
  intros s (st0 & E & Hv0). split; [|done]. eapply kp_slot; eauto.
Qed.

End slots.

(** ** Two specifications

    [ktables] is about the type invariant of the tables only. [kstates] adds the states
    of the processes: code of one process wakes sleeping processes, uses vacant slots,
    and leaves the state of every other process alone; a process that switches is
    runnable, asleep or a zombie, and it goes on when it is running. *)

Definition ktables_spec : spec kernel :=
  Spec kernel kwf (fun _ _ _ => True) (fun _ _ _ => True) (fun _ _ => True)
    (fun _ _ => I) (fun _ _ _ _ _ _ => I) (fun _ _ _ _ _ _ _ => I).
Definition ktables : kproc :=
  KProc (KSleep (KBase ktables_spec (fun _ => iff_refl _) (fun _ _ _ _ => I) (fun _ _ _ _ => I))
    (fun _ _ _ _ _ => I)) (fun _ _ _ _ => I) (fun _ _ _ _ _ _ _ _ => I).

Definition st_step (x y : procstate) : Prop :=
  x = y \/ x = SLEEPING /\ y = RUNNABLE \/ vacant x /\ (vacant y \/ y = RUNNABLE).

#[export] Instance st_step_pre : PreOrder st_step.
Proof.
  split; [by left|]. unfold st_step. intros x y z [->|[[-> ->]|[Hx Hy]]] Hyz; [done| |].
  - destruct Hyz as [<-|[[[=] _]|[[[=]|[[=]|[=]]] _]]]; auto.
  - right; right. split; [done|]. destruct Hyz as [<-|[[-> ->]|[_ Hz]]]; auto.
Qed.

Definition kstates_spec : spec kernel :=
  Spec kernel kwf (fun _ => evo st_step) (evo_leave st_step) (fun p s => k_states s !! p = Some RUNNING)
    (fun _ => evo_refl st_step) (fun _ => evo_trans st_step) (fun _ => evo_run_leave st_step).

Definition kstates_base : kbase.
Proof.
  refine (KBase kstates_spec _ _ _).
  - done.
  - intros q s s'. apply evo_same, _.
  - intros q p s E. eapply evo_upd; [apply _|exact E|]. right. auto.
Defined.

Definition kstates_sleep : ksleep.
Proof.
  refine (KSleep kstates_base _). intros p s s' Hs Hg. split; [|done]. intros q Hq. rewrite Hs by done.
  destruct (k_states s !! q); by constructor.
Defined.

Definition kstates : kproc.
Proof.
  refine (KProc kstates_sleep _ _).
  - intros q s s' He p. specialize (He p). destruct He as [x y Hxy|]; constructor.
    destruct Hxy as [->|]; [by left|]. right. auto.
  - intros q p st st' s E Hv Hv'. eapply evo_upd; [apply _|exact E|]. right. auto.
Defined.
