(* ===== verification/KernelBalance.v ===== *)
(** * KernelBalance

    The discipline for every function of the kernel, from the process table up to
    the trap handlers; see KernelInv. *)
From stdpp Require Import base tactics list numbers gmap strings.
From S2P Require Import Prelude Machine Spinlock Printf Bytes Block Queue Kalloc Vm Kernel Proc ProcFacts.
From S2P Require Import Discipline Balance KernelInv Sleeplock Virtio Bio Log Fs Console Pipe File.
From S2P Require Import Fork Exec Sysfile Trap.

Ltac disc_hook ::=
  lazymatch goal with
  | |- tri _ _ (bind (pget _ _) _) _ => apply tri_pget; intros; cbv beta delta [id]
  | |- tri _ _ (bind myproc _) _ => apply tri_myproc
  | |- tri _ _ (bind curproc _) _ => apply tri_curproc; intros
  | |- tri _ _ (bind _ _) _ =>
      eapply tri_bind_to; [solve [eauto 3 with disc_tri nocore]|disc_side|intros]
  end.

Lemma pipes_insert pi (m : gmap Z pipe) d r w ro wo :
  length d = Z.to_nat PIPESIZE -> map_Forall (fun _ => pipe_wf) m ->
  map_Forall (fun _ => pipe_wf) (<[pi := Pipe d r w ro wo]> m).
Proof. intros Hd Hm. by apply map_Forall_insert_2. Qed.

Lemma pipes_delete pi (m : gmap Z pipe) :
  map_Forall (fun _ => pipe_wf) m -> map_Forall (fun _ => pipe_wf) (delete pi m).
Proof. apply map_Forall_delete. Qed.

Ltac disc_inv ::=
  solve [done | let s := fresh in intros s []; constructor; simpl;
    auto using pipes_insert, pipes_delete, length_replicate].

#[export] Hint Resolve bal_kprintf bal_tf_get bal_tf_set bal_myproc bal_wakeup bal_kill bal_yield : disc.
#[export] Hint Resolve tri_sleep : disc_tri.

(** ** Code that does not sleep *)

Section still.
Context `{Layout} `{Symbols} `{WaitFuel} (B : kbase).

Lemma bal_procinit : bal B procinit.
Proof. unfold procinit. disc. Qed.
Lemma bal_curproc : bal B curproc.
Proof. unfold curproc. disc. Qed.
Lemma bal_allocpid : bal B allocpid.
Proof. unfold allocpid. disc. Qed.
Lemma bal_proc_pagetable p : bal B (proc_pagetable p).
Proof. unfold proc_pagetable. disc. Qed.
Lemma bal_proc_freepagetable pt sz : bal B (proc_freepagetable pt sz).
Proof. unfold proc_freepagetable. disc. Qed.
Hint Resolve bal_curproc bal_allocpid bal_proc_pagetable bal_proc_freepagetable : disc.
Lemma bal_growproc n : bal B (growproc n).
Proof. unfold growproc. disc. Qed.
Lemma bal_reparent p : bal B (reparent p).
Proof. unfold reparent. disc. Qed.
Lemma bal_either_copyout d bs : bal B (either_copyout d bs).
Proof. unfold either_copyout. disc. Qed.
Lemma bal_either_copyin d n : bal B (either_copyin d n).
Proof. unfold either_copyin. disc. Qed.
Lemma bal_update_time : bal B update_time.
Proof. unfold update_time. disc. Qed.

Lemma bal_actually_set_priority prio pid :
  0 <= prio <= 100 -> bal B (actually_set_priority prio pid).
Proof. intros Hp. unfold actually_set_priority. disc. Qed.

Lemma bal_ageing : bal B ageing.
Proof. unfold ageing, ageing_one. disc. Qed.
Hint Resolve bal_ageing : disc.
Lemma bal_RoundRobin : bal B RoundRobin.
Proof. unfold RoundRobin. disc. Qed.
Lemma bal_fcfs : bal B fcfs.
Proof. unfold fcfs. disc. Qed.
Lemma bal_pbs_scheduler : bal B pbs_scheduler.
Proof. unfold pbs_scheduler. disc. Qed.
Lemma bal_mlfq_level f level : bal B (mlfq_level f level).
Proof. induction f; cbn [mlfq_level]; disc. Qed.
Lemma bal_mlfq_enqueue : bal B mlfq_enqueue.
Proof. unfold mlfq_enqueue, mlfq_enqueue_one. disc. Qed.
Hint Resolve bal_RoundRobin bal_fcfs bal_pbs_scheduler bal_mlfq_level bal_mlfq_enqueue : disc.
Lemma bal_mlfq_scheduler : bal B mlfq_scheduler.
Proof. unfold mlfq_scheduler. disc. Qed.
Hint Resolve bal_mlfq_scheduler : disc.
Lemma bal_pick pol : bal B (pick pol).
Proof. destruct pol; simpl; disc. Qed.

Lemma bal_procdump pol : bal B (procdump pol).
Proof.
  unfold procdump. assert (bal B (procdump_header pol)) by (destruct pol; simpl; disc).
  assert (forall p, bal B (procdump_one pol p)) by (intros p; unfold procdump_one; destruct pol; disc).
  disc.
Qed.

Lemma bal_idup ip : bal B (idup ip).
Proof. unfold idup. disc. Qed.
Lemma bal_filedup f : bal B (filedup f).
Proof. unfold filedup. disc. Qed.

Lemma safestrcpy_length t n : (0 < n)%nat -> (length (safestrcpy t (Z.of_nat n)) <= n)%nat.
Proof.
  intros Hn. unfold safestrcpy. destruct (Z.leb_spec (Z.of_nat n) 0); [lia|].
  assert (Hl : forall k t, (length (safestrcpy_loop t k) <= S k)%nat).
  { induction k as [|k IH]; intros u; simpl; [lia|]. specialize (IH (shift u)). case_if; simpl; lia. }
  specialize (Hl (n - 1)%nat t). replace (Z.to_nat (Z.of_nat n - 1)) with (n - 1)%nat by lia. lia.
Qed.

Lemma bal_set_name p t : bal B (pset p (set_name t)).
Proof.
  apply bal_pset; [|done]. intros x []. constructor; simpl; auto.
  rewrite length_splice; [done|]. pose proof (safestrcpy_length (buf t) 16 ltac:(lia)) as Hl.
  change (Z.of_nat 16) with 16 in Hl. lia.
Qed.

End still.

#[export] Hint Resolve bal_procinit bal_curproc bal_allocpid bal_proc_pagetable bal_proc_freepagetable
  bal_growproc bal_reparent bal_either_copyout bal_either_copyin bal_update_time bal_actually_set_priority
  bal_ageing bal_pick bal_procdump bal_idup bal_filedup bal_set_name : disc.

(** ** Sleep locks, disk, buffers, log *)

Section storage.
Context `{Layout} `{Symbols} `{WaitFuel} (B : ksleep).

Lemma bal_sl_get {A} l (f : sleeplock -> A) : bal B (sl_get l f).
Proof. destruct l; simpl; disc. Qed.
Lemma bal_sl_set l f : bal B (sl_set l f).
Proof. destruct l; simpl; disc. Qed.
Hint Resolve bal_sl_get bal_sl_set : disc.
Lemma bal_initsleeplock l : bal B (initsleeplock l).
Proof. unfold initsleeplock. disc. Qed.

Lemma tri_acquiresleep_loop f l a :
  lctx_wf a -> sl_lk l ∉ lc_held a ->
  tri B (acq (sl_lk l) a) (acquiresleep_loop f l) (fun _ c => c = acq (sl_lk l) a).
Proof. intros Ha Hn. induction f as [|f IH]; cbn [acquiresleep_loop]; disc. Qed.
Hint Resolve tri_acquiresleep_loop : disc_tri.

Lemma bal_acquiresleep l : bal B (acquiresleep l).
Proof. unfold acquiresleep. disc. Qed.
Lemma bal_releasesleep l : bal B (releasesleep l).
Proof. unfold releasesleep. disc. Qed.
Lemma bal_holdingsleep l : bal B (holdingsleep l).
Proof. unfold holdingsleep. disc. Qed.
Hint Resolve bal_initsleeplock bal_acquiresleep bal_releasesleep bal_holdingsleep : disc.

Lemma bal_desc_set i f : bal B (desc_set i f).
Proof. unfold desc_set. disc. Qed.
Lemma bal_desc_get {A} i (f : virtq_desc -> A) : bal B (desc_get i f).
Proof. unfold desc_get. disc. Qed.
Lemma bal_free_get i : bal B (free_get i).
Proof. unfold free_get. disc. Qed.
Lemma bal_free_set i v : bal B (free_set i v).
Proof. unfold free_set. disc. Qed.
Hint Resolve bal_desc_set bal_desc_get bal_free_get bal_free_set : disc.
Lemma bal_alloc_desc : bal B alloc_desc.
Proof. unfold alloc_desc. disc. Qed.
Lemma bal_free_desc i : bal B (free_desc i).
Proof. unfold free_desc. disc. Qed.
Hint Resolve bal_alloc_desc bal_free_desc : disc.
Lemma bal_free_chain_loop f i : bal B (free_chain_loop f i).
Proof. revert i. induction f; intros i; cbn [free_chain_loop]; disc. Qed.
Lemma bal_alloc_descs n idx : bal B (alloc_descs n idx).
Proof. revert idx. induction n; intros idx; cbn [alloc_descs]; disc. Qed.
Hint Resolve bal_free_chain_loop bal_alloc_descs : disc.
Lemma bal_free_chain i : bal B (free_chain i).
Proof. unfold free_chain. disc. Qed.
Lemma bal_alloc3_desc : bal B alloc3_desc.
Proof. unfold alloc3_desc. disc. Qed.
Hint Resolve bal_free_chain bal_alloc3_desc : disc.

Lemma tri_alloc3_wait f a :
  lctx_wf a -> L_vdisk ∉ lc_held a -> tri B (acq L_vdisk a) (alloc3_wait f) (fun _ c => c = acq L_vdisk a).
Proof. intros Ha Hn. induction f as [|f IH]; cbn [alloc3_wait]; disc. Qed.
Lemma tri_disk_wait f b a :
  lctx_wf a -> L_vdisk ∉ lc_held a -> tri B (acq L_vdisk a) (disk_wait f b) (fun _ c => c = acq L_vdisk a).
Proof. intros Ha Hn. induction f as [|f IH]; cbn [disk_wait]; disc. Qed.
Hint Resolve tri_alloc3_wait tri_disk_wait : disc_tri.
Lemma bal_virtio_submit b w sec i0 i1 i2 : bal B (virtio_submit b w sec i0 i1 i2).
Proof. unfold virtio_submit. disc. Qed.
Hint Resolve bal_virtio_submit : disc.
Lemma bal_virtio_disk_rw b w : bal B (virtio_disk_rw b w).
Proof. unfold virtio_disk_rw. disc. Qed.
Lemma bal_intr_loop f : bal B (intr_loop f).
Proof. induction f; cbn [intr_loop]; disc. Qed.
Hint Resolve bal_virtio_disk_rw bal_intr_loop : disc.
Lemma bal_virtio_disk_intr : bal B virtio_disk_intr.
Proof. unfold virtio_disk_intr. disc. Qed.

Hint Resolve bal_virtio_disk_intr : disc.

Lemma bal_bc_get {A} (f : bcache -> A) : bal B (bc_get f).
Proof. unfold bc_get. disc. Qed.
Lemma bal_bc_next n v : bal B (bc_set (set_next n v)).
Proof.
  apply bal_kmodify; [|done]. intros s []. constructor; simpl; auto. unfold set_next.
  case_match; simpl; by rewrite ?length_alter.
Qed.
Lemma bal_bc_prev n v : bal B (bc_set (set_prev n v)).
Proof.
  apply bal_kmodify; [|done]. intros s []. constructor; simpl; auto. unfold set_prev.
  case_match; simpl; by rewrite ?length_alter.
Qed.
Hint Resolve bal_bc_get bal_bc_next bal_bc_prev : disc.
Lemma bal_get_next n : bal B (get_next n).
Proof. unfold get_next. disc. Qed.
Lemma bal_get_prev n : bal B (get_prev n).
Proof. unfold get_prev. disc. Qed.
Hint Resolve bal_get_next bal_get_prev : disc.
Lemma bal_link_front b : bal B (link_front b).
Proof. unfold link_front. disc. Qed.
Hint Resolve bal_link_front : disc.
Lemma bal_binit : bal B binit.
Proof. unfold binit. disc. Qed.
Lemma bal_bget dev blockno : bal B (bget dev blockno).
Proof. unfold bget. disc. Qed.
Hint Resolve bal_binit bal_bget : disc.
Lemma bal_bread dev blockno : bal B (bread dev blockno).
Proof. unfold bread. disc. Qed.
Lemma bal_bwrite b : bal B (bwrite b).
Proof. unfold bwrite. disc. Qed.
Lemma bal_brelse b : bal B (brelse b).
Proof. unfold brelse. disc. Qed.
Lemma bal_bpin b : bal B (bpin b).
Proof. unfold bpin. disc. Qed.
Lemma bal_bunpin b : bal B (bunpin b).
Proof. unfold bunpin. disc. Qed.
Hint Resolve bal_bread bal_bwrite bal_brelse bal_bpin bal_bunpin : disc.

Lemma bal_lh_block_get i : bal B (lh_block_get i).
Proof. unfold lh_block_get. disc. Qed.
Lemma bal_lh_block_set i v : bal B (lh_block_set i v).
Proof. unfold lh_block_set. disc. Qed.
Lemma bal_data_get {A} b (f : list Z -> A) : bal B (data_get b f).
Proof. unfold data_get. disc. Qed.
Lemma bal_data_set b f : bal B (data_set b f).
Proof. unfold data_set. disc. Qed.
Hint Resolve bal_lh_block_get bal_lh_block_set bal_data_get bal_data_set : disc.
Lemma bal_install_trans r : bal B (install_trans r).
Proof. unfold install_trans. disc. Qed.
Lemma bal_read_head : bal B read_head.
Proof. unfold read_head. disc. Qed.
Lemma bal_write_head : bal B write_head.
Proof. unfold write_head. disc. Qed.
Lemma bal_write_log : bal B write_log.
Proof. unfold write_log. disc. Qed.
Hint Resolve bal_install_trans bal_read_head bal_write_head bal_write_log : disc.
Lemma bal_initlog dev : bal B (initlog dev).
Proof. unfold initlog, recover_from_log. disc. Qed.
Lemma bal_commit : bal B commit.
Proof. unfold commit. disc. Qed.
Hint Resolve bal_commit : disc.
Lemma tri_begin_op_loop f a :
  lctx_wf a -> L_log ∉ lc_held a -> tri B (acq L_log a) (begin_op_loop f) (fun _ c => c = a).
Proof. intros Ha Hn. induction f as [|f IH]; cbn [begin_op_loop]; disc. Qed.
Hint Resolve tri_begin_op_loop : disc_tri.
Lemma bal_begin_op : bal B begin_op.
Proof. unfold begin_op. disc. Qed.
Lemma bal_end_op : bal B end_op.
Proof. unfold end_op. disc. Qed.
Lemma bal_log_write b : bal B (log_write b).
Proof. unfold log_write. disc. Qed.

End storage.

#[export] Hint Resolve bal_initsleeplock bal_acquiresleep bal_releasesleep bal_holdingsleep
  bal_virtio_disk_intr bal_binit bal_bread bal_bwrite bal_brelse bal_data_get bal_data_set bal_initlog
  bal_begin_op bal_end_op bal_log_write : disc.

(** ** File system *)

Section fs.
Context `{Layout} `{Symbols} `{WaitFuel} (B : ksleep).

Lemma bal_fsinit dev : bal B (fsinit dev).
Proof. unfold fsinit, readsb. disc. Qed.
Lemma bal_bzero dev b : bal B (bzero dev b).
Proof. unfold bzero. disc. Qed.
Hint Resolve bal_bzero : disc.
Lemma bal_balloc_loop f dev b : bal B (balloc_loop f dev b).
Proof. revert b. induction f; intros b; cbn [balloc_loop]; disc. Qed.
Hint Resolve bal_balloc_loop : disc.
Lemma bal_balloc dev : bal B (balloc dev).
Proof. unfold balloc. disc. Qed.
Lemma bal_bfree dev b : bal B (bfree dev b).
Proof. unfold bfree. disc. Qed.
Lemma bal_iinit : bal B iinit.
Proof. unfold iinit. disc. Qed.
Lemma bal_iget dev inum : bal B (iget dev inum).
Proof. unfold iget. disc. Qed.
Hint Resolve bal_balloc bal_bfree bal_iget : disc.
Lemma bal_ialloc_loop f dev t i : bal B (ialloc_loop f dev t i).
Proof. revert i. induction f; intros i; cbn [ialloc_loop]; disc. Qed.
Hint Resolve bal_ialloc_loop : disc.
Lemma bal_ialloc dev t : bal B (ialloc dev t).
Proof. unfold ialloc. disc. Qed.
Lemma bal_iupdate ip : bal B (iupdate ip).
Proof. unfold iupdate. disc. Qed.
Lemma bal_set_dinode_addrs ip l off : bal B (inode_set ip (set_i_addrs (d_addrs (get_dinode l off)))).
Proof. apply bal_inode_set. done. Qed.
Hint Resolve bal_ialloc bal_iupdate bal_set_dinode_addrs : disc.
Lemma bal_ilock ip : bal B (ilock ip).
Proof. unfold ilock. disc. Qed.
Lemma bal_iunlock ip : bal B (iunlock ip).
Proof. unfold iunlock. disc. Qed.
Lemma bal_addr_get ip i : bal B (addr_get ip i).
Proof. unfold addr_get. disc. Qed.
Lemma bal_addr_set ip i v : bal B (addr_set ip i v).
Proof. unfold addr_set. disc. Qed.
Hint Resolve bal_ilock bal_iunlock bal_addr_get bal_addr_set : disc.
Lemma bal_bmap ip bn : bal B (bmap ip bn).
Proof. unfold bmap. disc. Qed.
Lemma bal_itrunc ip : bal B (itrunc ip).
Proof. unfold itrunc. disc. Qed.
Hint Resolve bal_bmap bal_itrunc : disc.
Lemma bal_iput ip : bal B (iput ip).
Proof. unfold iput. disc. Qed.
Hint Resolve bal_iput : disc.
Lemma bal_iunlockput ip : bal B (iunlockput ip).
Proof. unfold iunlockput. disc. Qed.
Lemma bal_stati ip : bal B (stati ip).
Proof. unfold stati. disc. Qed.
Lemma bal_readi_loop f ip d off n tot : bal B (readi_loop f ip d off n tot).
Proof. revert d off tot. induction f; intros d off tot; cbn [readi_loop]; disc. Qed.
Lemma bal_writei_loop f ip d off n tot : bal B (writei_loop f ip d off n tot).
Proof. revert d off tot. induction f; intros d off tot; cbn [writei_loop]; disc. Qed.
Hint Resolve bal_iunlockput bal_readi_loop bal_writei_loop : disc.
Lemma bal_readi ip d off n : bal B (readi ip d off n).
Proof. unfold readi. disc. Qed.
Lemma bal_writei ip d off n : bal B (writei ip d off n).
Proof. unfold writei. disc. Qed.
Hint Resolve bal_readi bal_writei : disc.
Lemma bal_dirlookup_loop f dp name off : bal B (dirlookup_loop f dp name off).
Proof. revert off. induction f; intros off; cbn [dirlookup_loop]; disc. Qed.
Hint Resolve bal_dirlookup_loop : disc.
Lemma bal_dirlookup dp name : bal B (dirlookup dp name).
Proof. unfold dirlookup. disc. Qed.
Lemma bal_dirlink_slot f dp off : bal B (dirlink_slot f dp off).
Proof. revert off. induction f; intros off; cbn [dirlink_slot]; disc. Qed.
Hint Resolve bal_dirlookup bal_dirlink_slot : disc.
Lemma bal_dirlink dp name inum : bal B (dirlink dp name inum).
Proof. unfold dirlink. disc. Qed.
Lemma bal_namex_loop f ip path np name : bal B (namex_loop f ip path np name).
Proof. revert ip path name. induction f; intros ip path name; cbn [namex_loop]; disc. Qed.
Hint Resolve bal_namex_loop : disc.
Lemma bal_namei path : bal B (namei path).
Proof. unfold namei, namex. disc. Qed.
Lemma bal_nameiparent path name : bal B (nameiparent path name).
Proof. unfold nameiparent, namex. disc. Qed.

End fs.

#[export] Hint Resolve bal_fsinit bal_iget bal_idup bal_ialloc bal_iupdate bal_ilock bal_iunlock
  bal_itrunc bal_iput bal_iunlockput bal_stati bal_readi bal_writei bal_dirlookup bal_dirlink
  bal_namei bal_nameiparent : disc.

(** ** Console, pipes and files *)

Section files.
Context `{Layout} `{Symbols} `{WaitFuel} (B : ksleep).

Lemma bal_cputc c : bal B (cputc c).
Proof. unfold cputc. disc. Qed.
Lemma bal_tx_idle : bal B tx_idle.
Proof. unfold tx_idle. disc. Qed.
Hint Resolve bal_cputc bal_tx_idle : disc.
Lemma bal_uartstart_loop f : bal B (uartstart_loop f).
Proof. induction f; cbn [uartstart_loop]; disc. Qed.
Hint Resolve bal_uartstart_loop : disc.
Lemma bal_uartstart : bal B uartstart.
Proof. unfold uartstart. disc. Qed.
Hint Resolve bal_uartstart : disc.
Lemma tri_uartputc_loop f c a :
  lctx_wf a -> L_uart ∉ lc_held a -> tri B (acq L_uart a) (uartputc_loop f c) (fun _ c => c = a).
Proof. intros Ha Hn. induction f as [|f IH]; cbn [uartputc_loop]; disc. Qed.
Hint Resolve tri_uartputc_loop : disc_tri.
Lemma bal_uartputc c : bal B (uartputc c).
Proof. unfold uartputc. disc. Qed.
Lemma bal_uartgetc : bal B uartgetc.
Proof. unfold uartgetc. disc. Qed.
Hint Resolve bal_uartputc bal_uartgetc : disc.
Lemma bal_consolewrite_loop k va i : bal B (consolewrite_loop k va i).
Proof. revert i. induction k; intros i; cbn [consolewrite_loop]; disc. Qed.
Hint Resolve bal_consolewrite_loop : disc.
Lemma bal_consolewrite va n : bal B (consolewrite va n).
Proof. unfold consolewrite. disc. Qed.
Lemma tri_consoleread_wait f a :
  lctx_wf a -> L_cons ∉ lc_held a -> tri B (acq L_cons a) (consoleread_wait f) (fun _ c => c = acq L_cons a).
Proof. intros Ha Hn. induction f as [|f IH]; cbn [consoleread_wait]; disc. Qed.
Hint Resolve tri_consoleread_wait : disc_tri.
Lemma tri_consoleread_loop k va n target a :
  lctx_wf a -> L_cons ∉ lc_held a ->
  tri B (acq L_cons a) (consoleread_loop k va n target)
    (fun r c => c = match r with inl _ => a | inr _ => acq L_cons a end).
Proof.
  intros Ha Hn. revert va n. induction k as [|k IH]; intros va n; cbn [consoleread_loop]; disc.
Qed.
Lemma bal_consoleread va n : bal B (consoleread va n).
Proof.
  intros a. apply tri_wf. intros Ha. unfold consoleread. apply tri_acquire. intros Hn.
  eapply tri_bind; [by apply tri_consoleread_loop|]. intros [u|m] c ->; (split; [auto with xv6|]); disc.
Qed.
Lemma bal_kill_line f : bal B (kill_line f).
Proof. induction f; cbn [kill_line]; disc. Qed.
Hint Resolve bal_kill_line : disc.
Lemma bal_consoleintr pol c : bal B (consoleintr pol c).
Proof. unfold consoleintr. disc. Qed.
Hint Resolve bal_consoleintr : disc.
Lemma bal_uart_input f pol : bal B (uart_input f pol).
Proof. induction f; cbn [uart_input]; disc. Qed.
Hint Resolve bal_uart_input : disc.
Lemma bal_uartintr pol : bal B (uartintr pol).
Proof. unfold uartintr. disc. Qed.
Hint Resolve bal_consolewrite bal_consoleread bal_uartintr : disc.

Lemma bal_pipeclose pi w : bal B (pipeclose pi w).
Proof. unfold pipeclose. disc. Qed.
Lemma tri_pipewrite_loop f pi pr addr n i a :
  lctx_wf a -> L_pipe pi ∉ lc_held a ->
  tri B (acq (L_pipe pi) a) (pipewrite_loop f pi pr addr n i)
    (fun r c => c = match r with inl _ => a | inr _ => acq (L_pipe pi) a end).
Proof.
  intros Ha Hn. revert i. induction f as [|f IH]; intros i; cbn [pipewrite_loop]; disc.
Qed.
Lemma bal_pipewrite pi addr n : bal B (pipewrite pi addr n).
Proof.
  intros a. apply tri_wf. intros Ha. unfold pipewrite. apply tri_curproc. intros p Hp.
  apply tri_acquire. intros Hn.
  eapply tri_bind; [by apply tri_pipewrite_loop|]. intros [u|m] c ->; (split; [auto with xv6|]); disc.
Qed.
Lemma tri_piperead_wait f pi pr a :
  lctx_wf a -> L_pipe pi ∉ lc_held a ->
  tri B (acq (L_pipe pi) a) (piperead_wait f pi pr) (fun _ c => c = acq (L_pipe pi) a).
Proof. intros Ha Hn. induction f as [|f IH]; cbn [piperead_wait]; disc. Qed.
Hint Resolve tri_piperead_wait : disc_tri.
Lemma bal_piperead_loop k pi pr addr i : bal B (piperead_loop k pi pr addr i).
Proof. revert i. induction k; intros i; cbn [piperead_loop]; disc. Qed.
Hint Resolve bal_piperead_loop : disc.
Lemma bal_piperead pi addr n : bal B (piperead pi addr n).
Proof. unfold piperead. disc. Qed.
Hint Resolve bal_pipeclose bal_pipewrite bal_piperead : disc.

Lemma bal_filealloc : bal B filealloc.
Proof. unfold filealloc. disc. Qed.
Lemma bal_fileclose f : bal B (fileclose f).
Proof. unfold fileclose. disc. Qed.
Lemma bal_filestat f addr : bal B (filestat f addr).
Proof. unfold filestat. disc. Qed.
Lemma bal_fileread f addr n : bal B (fileread f addr n).
Proof. unfold fileread. disc. Qed.
Lemma bal_filewrite_loop fu f addr n i : bal B (filewrite_loop fu f addr n i).
Proof. revert i. induction fu; intros i; cbn [filewrite_loop]; disc. Qed.
Hint Resolve bal_filealloc bal_fileclose bal_filewrite_loop : disc.
Lemma bal_filewrite f addr n : bal B (filewrite f addr n).
Proof. unfold filewrite. disc. Qed.
Lemma bal_pipealloc_bad pi f0 f1 : bal B (pipealloc_bad pi f0 f1).
Proof. unfold pipealloc_bad. disc. Qed.
Hint Resolve bal_pipealloc_bad : disc.
Lemma bal_pipealloc : bal B pipealloc.
Proof. unfold pipealloc. disc. Qed.

End files.

#[export] Hint Resolve bal_uartintr bal_filealloc bal_filedup bal_fileclose bal_filestat bal_fileread
  bal_filewrite bal_pipealloc : disc.

(** ** fork, exit, exec and the system calls *)

Section syscalls.
Context `{Layout} `{Symbols} `{WaitFuel} `{Uninit} `{UninitTrace} (B : kproc).

(** ** Slots of the process table *)

Lemma pre_bind_ret {A C} P a (x : A) (f : A -> K kernel C) R :
  tri_pre B P a (f x) R -> tri_pre B P a (bind (ret x) f) R.
Proof. done. Qed.

Ltac pre :=
  repeat lazymatch goal with
  | |- tri_pre _ _ _ (bind (bind _ _) _) _ => apply pre_assoc
  | |- tri_pre _ _ _ (bind (ret _) _) _ => apply pre_bind_ret
  | |- tri_pre _ _ _ (bind (pset _ (set_p_state RUNNABLE)) _) _ => apply pre_start
  | |- tri_pre _ _ _ (bind (pset _ (set_p_state _)) _) _ => apply pre_slot; [unfold vacant; tauto|]
  | |- tri_pre _ _ _ (bind (acquire _) _) _ => apply pre_acquire; intros
  | |- tri_pre _ _ (acq ?lk _) (bind (release ?lk) _) _ => apply pre_release; [disc_side|disc_side|]
  | |- tri_pre _ _ _ (bind _ _) _ => first
      [ apply pre_still; [solve [disc]|intros]
      | lazymatch goal with |- tri_pre _ _ _ (bind (if ?b then _ else _) _) _ => destruct b end ]
  | |- tri_pre _ _ _ (if ?b then _ else _) _ => destruct b
  | |- tri_pre _ _ _ (ret _) _ => apply pre_drop, tri_ret
  end.

Lemma pre_freeproc {C} p a (f : unit -> K kernel C) (R : C -> lctx -> Prop) :
  tri_pre B (slot_vacant p) a (f tt) R -> tri_pre B (slot_vacant p) a (bind (freeproc p) f) R.
Proof. intros Hf. unfold freeproc. pre. done. Qed.

Lemma tri_find_unused {C} l a (f : option nat -> K kernel C) (R : C -> lctx -> Prop) :
  (forall p, L_proc p ∉ lc_held a -> tri_pre B (slot_vacant p) (acq (L_proc p) a) (f (Some p)) R) ->
  tri B a (f None) R ->
  tri B a (bind (forM_exit l (fun p =>
    acquire (L_proc p);;
    st <- pget p p_state;;
    if decide (st = UNUSED) then ret (Some p) else release (L_proc p);; ret None)) f) R.
Proof.
  intros Hs Hn. apply tri_wf. intros Ha. induction l as [|p l IH]; simpl; [by apply tri_bind_ret|].
  apply tri_assoc, tri_assoc, tri_acquire. intros Hp. apply tri_assoc, tri_pget_state. intros x _.
  destruct (decide _) as [E|].
  - rewrite E. eapply pre_mono; [|apply (Hs p Hp)]. intros s Hst. exists UNUSED. split; [done|by left].
  - apply pre_drop, tri_assoc, tri_release_bind; [done..|]. apply tri_bind_ret. apply IH.
Qed.

Lemma tri_allocproc {C} a (f : option nat -> K kernel C) (R : C -> lctx -> Prop) :
  (forall p, L_proc p ∉ lc_held a -> tri_pre B (slot_vacant p) (acq (L_proc p) a) (f (Some p)) R) ->
  tri B a (f None) R -> tri B a (bind allocproc f) R.
Proof.
  intros Hs Hn. apply tri_wf. intros Ha. unfold allocproc, find_unused. apply tri_assoc, tri_find_unused.
  2: { by apply tri_bind_ret. }
  intros p Hp. pre.
  1, 2: apply pre_freeproc; pre; by apply pre_drop.
  by apply Hs.
Qed.

Lemma bal_fork : bal B fork.
Proof.
  intros a. apply tri_wf. intros Ha. unfold fork. apply tri_curproc. intros p Hp.
  apply tri_allocproc; [|disc]. intros np Hn. pre; [apply pre_freeproc; pre; done|disc].
Qed.

(** A scan that finds a child releases wait_lock. *)
Lemma tri_wait_scan l p addr hk a :
  lctx_wf a -> L_wait ∉ lc_held a ->
  tri B (acq L_wait a) (wait_scan l p addr hk)
    (fun r c => c = match r with inl _ => acq L_wait a | inr _ => a end).
Proof.
  intros Ha Hn. revert hk. induction l as [|np l IH]; intros hk; simpl; [disc|].
  apply tri_pget. intros x0 _. destruct (negb _); [apply IH|]. apply tri_acquire. intros Hp.
  apply tri_pget_state. intros x _. unfold id. destruct (decide (p_state x = ZOMBIE)) as [E|]; [|apply pre_drop; disc].
  rewrite E. eapply (pre_mono _ _ (slot_vacant np)); [intros s Hs; exists ZOMBIE; unfold vacant; auto|].
  pre; [done|]. apply pre_freeproc. pre. done.
Qed.

Lemma tri_wait_loop f p addr a :
  lctx_wf a -> L_wait ∉ lc_held a -> tri B (acq L_wait a) (wait_loop f p addr) (fun _ c => c = a).
Proof.
  intros Ha Hn. induction f as [|f IH]; cbn [wait_loop]; [disc|].
  eapply tri_bind; [by apply tri_wait_scan|]. intros [hk|v] c ->; (split; [auto with xv6|]); disc.
Qed.
Hint Resolve tri_wait_loop : disc_tri.

Lemma bal_wait addr : bal B (wait addr).
Proof. unfold wait. disc. Qed.

Lemma tri_waitx_scan l p addr hk a :
  lctx_wf a -> L_wait ∉ lc_held a ->
  tri B (acq L_wait a) (waitx_scan l p addr hk)
    (fun r c => c = match r with inl _ => acq L_wait a | inr _ => a end).
Proof.
  intros Ha Hn. revert hk. induction l as [|np l IH]; intros hk; simpl; [disc|].
  apply tri_pget. intros x0 _. destruct (negb _); [apply IH|]. apply tri_acquire. intros Hp.
  apply tri_pget_state. intros x _. unfold id. destruct (decide (p_state x = ZOMBIE)) as [E|]; [|apply pre_drop; disc].
  rewrite E. eapply (pre_mono _ _ (slot_vacant np)); [intros s Hs; exists ZOMBIE; unfold vacant; auto|].
  pre; [done|]. apply pre_freeproc. pre. done.
Qed.

Lemma tri_waitx_loop f p addr a :
  lctx_wf a -> L_wait ∉ lc_held a -> tri B (acq L_wait a) (waitx_loop f p addr) (fun _ c => c = a).
Proof.
  intros Ha Hn. induction f as [|f IH]; cbn [waitx_loop]; [disc|].
  eapply tri_bind; [by apply tri_waitx_scan|]. intros [hk|v] c ->; (split; [auto with xv6|]); disc.
Qed.
Hint Resolve tri_waitx_loop : disc_tri.

Lemma bal_waitx addr : bal B (waitx addr).
Proof. unfold waitx. disc. Qed.
Hint Resolve bal_fork bal_wait bal_waitx : disc.

(** exit never returns. *)
Lemma tri_exit_zombie {A} p st a (Q : A -> lctx -> Prop) :
  lc_proc a = Some p -> tri B a (exit_zombie p st) Q.
Proof.
  intros Hp. apply tri_wf. intros Ha. unfold exit_zombie. apply tri_acquire. intros Hw.
  apply tri_bal; [disc|]. intros _. apply tri_pget. intros x _. apply tri_bal; [disc|]. intros _.
  apply tri_acquire. simpl. intros Hn. apply not_elem_of_cons in Hn as [Hne Hn].
  apply tri_bal; [disc|]. intros _. intros Hwf h s Hh Hs. simpl lc_proc. rewrite Hp.
  pose proof Hs as Hk. rewrite kb_inv in Hk. rewrite bind_pset, bind_gets, bind_pset, upd_proc_comp.
  set (s1 := upd_proc p _ s). destruct (release_abs L_wait [L_proc p] a h s1) as (h' & E & Eh'); [done|done|set_solver|done|].
  krun E. eapply (wpo_sched B p a); [done|done|done|apply kwf_upd_proc; [wf_update|done]| |done].
  intros y Hy. apply ks_leave; [intros q Hq; by apply states_upd_ne|]. rewrite states_lookup, Hy. simpl.
  simpl in Hy. rewrite list_lookup_alter_eq in Hy. destruct (k_proc s !! p); [|done]. injection Hy as <-.
  unfold gone. auto.
Qed.

Lemma tri_exit {A} st a (Q : A -> lctx -> Prop) : tri B a (exit st) Q.
Proof.
  apply tri_wf. intros Ha. unfold exit. apply tri_curproc. intros p Hp. apply tri_gets. intros s _.
  destruct (decide _); [apply tri_panic|]. apply tri_bal; [disc|]. intros _. apply tri_bal; [disc|]. intros _.
  apply tri_pget. intros x _. apply tri_deref. intros cwd _.
  do 3 (apply tri_bal; [disc|]; intros _). by apply tri_exit_zombie.
Qed.

Lemma bal_exit {A} st : bal B (exit (A := A) st).
Proof. intros a. apply tri_exit. Qed.
Hint Resolve bal_exit : disc.

Lemma bal_loadseg_loop f pt va ip off sz i : bal B (loadseg_loop f pt va ip off sz i).
Proof. revert i. induction f; intros i; cbn [loadseg_loop]; disc. Qed.
Hint Resolve bal_loadseg_loop : disc.
Lemma bal_loadseg pt va ip off sz : bal B (loadseg pt va ip off sz).
Proof. unfold loadseg. disc. Qed.
Hint Resolve bal_loadseg : disc.
Lemma bal_exec_load n pt ip off sz : bal B (exec_load n pt ip off sz).
Proof. revert off sz. induction n; intros off sz; cbn [exec_load]; disc. Qed.
Lemma bal_kstring a : bal B (kstring a).
Proof. unfold kstring. disc. Qed.
Hint Resolve bal_exec_load bal_kstring : disc.
Lemma bal_exec_args argv pt sb sp us : bal B (exec_args argv pt sb sp us).
Proof. revert sp us. induction argv; intros sp us; cbn [exec_args]; disc. Qed.
Lemma bal_exec_bad pt sz ip : bal B (exec_bad pt sz ip).
Proof. unfold exec_bad. disc. Qed.
Hint Resolve bal_exec_args bal_exec_bad : disc.
Lemma bal_exec_start p path argv elf pt sz : bal B (exec_start p path argv elf pt sz).
Proof. unfold exec_start. disc. Qed.
Hint Resolve bal_exec_start : disc.
Lemma bal_exec path argv : bal B (exec path argv).
Proof. unfold exec. disc. Qed.
Hint Resolve bal_exec : disc.

Lemma bal_fetchaddr addr : bal B (fetchaddr addr).
Proof. unfold fetchaddr. disc. Qed.
Lemma bal_fetchstr addr max : bal B (fetchstr addr max).
Proof. unfold fetchstr. disc. Qed.
Lemma bal_argraw n : bal B (argraw n).
Proof. unfold argraw. disc. Qed.
Hint Resolve bal_fetchaddr bal_fetchstr bal_argraw : disc.
Lemma bal_argint n : bal B (argint n).
Proof. unfold argint. disc. Qed.
Lemma bal_argaddr n : bal B (argaddr n).
Proof. unfold argaddr. disc. Qed.
Hint Resolve bal_argint bal_argaddr : disc.
Lemma bal_argpath n : bal B (argpath n).
Proof. unfold argpath, argstr. disc. Qed.
Hint Resolve bal_argpath : disc.

Lemma bal_sys_exit : bal B sys_exit.
Proof. unfold sys_exit. disc. Qed.
Lemma bal_sys_getpid : bal B sys_getpid.
Proof. unfold sys_getpid. disc. Qed.
Lemma bal_sys_wait : bal B sys_wait.
Proof. unfold sys_wait. disc. Qed.
Lemma bal_sys_sbrk : bal B sys_sbrk.
Proof. unfold sys_sbrk. disc. Qed.
Lemma tri_sys_sleep_loop f t n a :
  lctx_wf a -> L_ticks ∉ lc_held a -> tri B (acq L_ticks a) (sys_sleep_loop f t n) (fun _ c => c = a).
Proof. intros Ha Hn. induction f as [|f IH]; cbn [sys_sleep_loop]; disc. Qed.
Hint Resolve tri_sys_sleep_loop : disc_tri.
Lemma bal_sys_sleep : bal B sys_sleep.
Proof. unfold sys_sleep. disc. Qed.
Lemma bal_sys_kill : bal B sys_kill.
Proof. unfold sys_kill. disc. Qed.
Lemma bal_sys_uptime : bal B sys_uptime.
Proof. unfold sys_uptime. disc. Qed.
Lemma bal_sys_trace : bal B sys_trace.
Proof. unfold sys_trace. disc. Qed.
Lemma bal_sys_waitx : bal B sys_waitx.
Proof. unfold sys_waitx. disc. Qed.
Lemma bal_sys_set_priority pol : bal B (sys_set_priority pol).
Proof.
  intros a. unfold sys_set_priority. apply tri_wf. intros Ha. case_match; [disc|].
  do 2 (apply tri_bal; [disc|]; intros ?). destruct (Z.ltb_spec x 0); [disc|].
  destruct (Z.ltb_spec 100 x); [disc|]. by apply bal_actually_set_priority.
Qed.

Lemma bal_argfd n : bal B (argfd n).
Proof. unfold argfd. disc. Qed.
Lemma bal_ofile_set p fd f : bal B (ofile_set p fd f).
Proof. unfold ofile_set. disc. Qed.
Hint Resolve bal_argfd bal_ofile_set : disc.
Lemma bal_fdalloc f : bal B (fdalloc f).
Proof. unfold fdalloc. disc. Qed.
Hint Resolve bal_fdalloc : disc.
Lemma bal_sys_dup : bal B sys_dup.
Proof. unfold sys_dup. disc. Qed.
Lemma bal_sys_read : bal B sys_read.
Proof. unfold sys_read. disc. Qed.
Lemma bal_sys_write : bal B sys_write.
Proof. unfold sys_write. disc. Qed.
Lemma bal_sys_close : bal B sys_close.
Proof. unfold sys_close. disc. Qed.
Lemma bal_sys_fstat : bal B sys_fstat.
Proof. unfold sys_fstat. disc. Qed.
Lemma bal_nlink_add ip d : bal B (nlink_add ip d).
Proof. unfold nlink_add. disc. Qed.
Hint Resolve bal_nlink_add : disc.
Lemma bal_sys_link_bad ip : bal B (sys_link_bad ip).
Proof. unfold sys_link_bad. disc. Qed.
Hint Resolve bal_sys_link_bad : disc.
Lemma bal_sys_link : bal B sys_link.
Proof. unfold sys_link. disc. Qed.
Lemma bal_isdirempty_loop f dp off : bal B (isdirempty_loop f dp off).
Proof. revert off. induction f; intros off; cbn [isdirempty_loop]; disc. Qed.
Hint Resolve bal_isdirempty_loop : disc.
Lemma bal_isdirempty dp : bal B (isdirempty dp).
Proof. unfold isdirempty. disc. Qed.
Lemma bal_sys_unlink_bad dp : bal B (sys_unlink_bad dp).
Proof. unfold sys_unlink_bad. disc. Qed.
Hint Resolve bal_isdirempty bal_sys_unlink_bad : disc.
Lemma bal_sys_unlink : bal B sys_unlink.
Proof. unfold sys_unlink. disc. Qed.
Lemma bal_create path t ma mi : bal B (create path t ma mi).
Proof. unfold create. disc. Qed.
Hint Resolve bal_create : disc.
Lemma bal_sys_open_inode path om : bal B (sys_open_inode path om).
Proof. unfold sys_open_inode. disc. Qed.
Hint Resolve bal_sys_open_inode : disc.
Lemma bal_sys_open : bal B sys_open.
Proof. unfold sys_open. disc. Qed.
Lemma bal_sys_mkdir : bal B sys_mkdir.
Proof. unfold sys_mkdir. disc. Qed.
Lemma bal_sys_mknod : bal B sys_mknod.
Proof. unfold sys_mknod. disc. Qed.
Lemma bal_sys_chdir : bal B sys_chdir.
Proof. unfold sys_chdir. disc. Qed.
Lemma bal_sys_exec_args k u argv : bal B (sys_exec_args k u argv).
Proof. revert argv. induction k; intros argv; cbn [sys_exec_args]; disc. Qed.
Hint Resolve bal_sys_exec_args : disc.
Lemma bal_sys_exec : bal B sys_exec.
Proof. unfold sys_exec. disc. Qed.
Lemma bal_sys_pipe : bal B sys_pipe.
Proof. unfold sys_pipe. disc. Qed.

Lemma bal_syscalls pol num f : syscalls pol num = Some f -> bal B f.
Proof.
  unfold syscalls, sys_fork.
  repeat (case_if; [intros [= <-]; auto using bal_fork, bal_sys_exit, bal_sys_wait, bal_sys_pipe, bal_sys_read,
    bal_sys_kill, bal_sys_exec, bal_sys_fstat, bal_sys_chdir, bal_sys_dup, bal_sys_getpid, bal_sys_sbrk,
    bal_sys_sleep, bal_sys_uptime, bal_sys_open, bal_sys_write, bal_sys_mknod, bal_sys_unlink, bal_sys_link,
    bal_sys_mkdir, bal_sys_close, bal_sys_trace, bal_sys_waitx, bal_sys_set_priority|]).
  done.
Qed.

Lemma bal_trace_syscall p num a1 a2 a3 : bal B (trace_syscall p num a1 a2 a3).
Proof. unfold trace_syscall. disc. Qed.
Hint Resolve bal_trace_syscall : disc.

Lemma bal_syscall pol : bal B (syscall pol).
Proof.
  unfold syscall. intros a. apply tri_wf. intros Ha. apply tri_curproc. intros p Hp.
  apply tri_bal; [disc|]. intros a7. destruct (syscalls pol (i32 a7)) as [f|] eqn:E; [|disc].
  pose proof (bal_syscalls _ _ _ E) as Hf. disc.
Qed.

(** ** Traps *)

Lemma bal_clockintr : bal B clockintr.
Proof.
  unfold clockintr. assert (forall p, bal B (clock_account p)).
  { intros p. unfold clock_account, max, min.
    assert (forall q, bal B (pset q (fun x => set_p_dynamic_priority
      (if (if 100 <? i32 (p_static_priority x - p_niceness x + 5) then 100
           else i32 (p_static_priority x - p_niceness x + 5)) <? 0 then 0
       else if 100 <? i32 (p_static_priority x - p_niceness x + 5) then 100
            else i32 (p_static_priority x - p_niceness x + 5)) x))).
      { intros q. apply bal_pset; [|done]. intros x []. constructor; simpl; auto. repeat case_if; lia. }
    disc. }
  disc.
Qed.
Hint Resolve bal_clockintr : disc.

Lemma bal_cpuid : bal B cpuid.
Proof. intros a Hw h s <- Hs. simpl. auto using sp_refl. Qed.
Hint Resolve bal_cpuid : disc.

Lemma bal_devintr pol r : bal B (devintr pol r).
Proof. unfold devintr. disc. Qed.
Lemma bal_timer_yield pol p : bal B (timer_yield pol p).
Proof. unfold timer_yield. destruct pol; disc. Qed.
Hint Resolve bal_devintr bal_timer_yield : disc.

Lemma bal_kerneltrap pol r : bal B (kerneltrap pol r).
Proof.
  unfold kerneltrap. assert (bal B intr_get) by (intros a Hw h s <- Hs; simpl; auto using sp_refl).
  disc.
Qed.

End syscalls.
