(* ===== verification/Examples.v ===== *)
(** * Examples

    Concrete kernels for the examples of the later files: the data after static
    initialisation, and a system with one process. *)

From stdpp Require Import base tactics list numbers gmap strings.
From S2P Require Import Prelude Machine Spinlock Printf Bytes Block Queue Kalloc Vm Kernel Proc.
From S2P Require Import Discipline Balance KernelInv KernelBalance Sleeplock Virtio Bio Log Fs.
From S2P Require Import Console Pipe File Fork Exec Sysfile Trap.

#[export] Instance demo_symbols : Symbols :=
  {| sym_forkret := 0x80001000; sym_usertrap := 0x80002000; sym_kernelvec := 0x80005000;
     sym_uservec := 0x80007000; sym_userret := 0x80007090 |}.
#[export] Instance demo_fuel : WaitFuel := 5%nat.
#[export] Instance demo_uninit : Uninit := {| junk_wtime := 0; junk_rtime := 0 |}.
#[export] Instance demo_trace : UninitTrace := {| junk_name := None; junk_count := fun _ => 0 |}.

Definition boot_disk : disk_t :=
  Disk (replicate NUM (Desc A_none 0 0 0)) 0 (replicate NUM 0) 0 (replicate NUM 0) (replicate NUM true) 0
    (replicate NUM None) (replicate NUM 0) (replicate NUM (BlkReq 0 0 0)).

(** The kernel's data after static initialisation. *)
Definition boot_kernel (m : pm) (procs : list proc) : kernel :=
  Kernel m (Tty [] false false) procs None (replicate NMLFQ empty_queue) 1 0 0 true
    (Bcache (replicate NBUF zero_buf) NBUF NBUF) (Log 0 0 0 0 0 0 (replicate 30 0))
    (Superblock 0 0 0 0 0 0 0 0) (replicate NINODE zero_inode) (replicate NFILE zero_file) ∅
    (Cons (replicate 128 0) 0 0 0) (Uart (replicate 32 0) 0 0 [] []) boot_disk.

(** Process 0 in slot 0 is running; its trapframe page asks for getpid. *)
Definition demo_running : proc :=
  set_p_state RUNNING (set_p_pid 7 (set_p_trapframe demo_page zero_proc)).
Definition demo_kernel : kernel :=
  boot_kernel (Pm (store64 ∅ (demo_page + TF_a7) 11) 0) (demo_running :: replicate 63 zero_proc).
Definition demo_user_hart : hart := Hart 0 (Some 0%nat) 0 false false [].

Lemma boot_kernel_wf m procs :
  length procs = NPROC -> Forall proc_wf procs -> kwf (boot_kernel m procs).
Proof.
  intros Hl Hf. constructor; try done. by repeat constructor.
Qed.

Lemma zero_proc_wf : proc_wf zero_proc.
Proof. by constructor. Qed.

Lemma demo_kernel_wf : kwf demo_kernel.
Proof.
  apply boot_kernel_wf; [done|]. constructor; [by constructor|]. apply Forall_replicate, zero_proc_wf.
Qed.

Lemma demo_user_hart_wf : hart_wf demo_user_hart.
Proof. constructor; simpl; [lia|lia|constructor]. Qed.

(** The same system with process 0 waiting for a CPU. *)
Definition demo_waiting : kernel :=
  boot_kernel (Pm ∅ 0) (set_p_state RUNNABLE demo_running :: replicate 63 zero_proc).

Lemma demo_waiting_wf : kwf demo_waiting.
Proof.
  apply boot_kernel_wf; [done|]. constructor; [by constructor|]. apply Forall_replicate, zero_proc_wf.
Qed.

(** Two processes wait for a CPU, in slots 1 and 2; the second one has the higher
    priority, the lower level and the earlier creation. *)
Definition demo_first : proc :=
  set_p_level 2 (set_p_ctime 6 (set_p_dynamic_priority 60 (set_p_static_priority 60
    (set_p_state RUNNABLE (set_p_pid 7 zero_proc))))).
Definition demo_second : proc :=
  set_p_level 1 (set_p_ctime 4 (set_p_dynamic_priority 15 (set_p_static_priority 30
    (set_p_state RUNNABLE (set_p_pid 8 zero_proc))))).
Definition demo_two : kernel :=
  set_k_ticks 9 (boot_kernel (Pm ∅ 0) (zero_proc :: demo_first :: demo_second :: replicate 61 zero_proc)).

Lemma demo_two_wf : kwf demo_two.
Proof.
  unfold demo_two. destruct (boot_kernel_wf (Pm ∅ 0) (zero_proc :: demo_first :: demo_second :: replicate 61 zero_proc)).
  - done.
  - do 3 (constructor; [by constructor|]). apply Forall_replicate, zero_proc_wf.
  - by constructor.
Qed.
