(* ===== verification/KernelProps.v ===== *)
(** * KernelProps

    The discipline of KernelInv for the entry points of the kernel: traps from user
    space with every system call behind them, interrupts of kernel code, and the
    scheduler. *)
From stdpp Require Import base tactics list numbers gmap strings.
From S2P Require Import Prelude Machine Spinlock Printf Bytes Block Queue Kalloc Vm Kernel Proc ProcFacts.
From S2P Require Import Discipline Balance KernelInv KernelBalance Sleeplock Virtio Bio Log Fs.
From S2P Require Import Console Pipe File Fork Exec Sysfile Trap Examples.

(** ** Turning interrupts on and off *)

Definition with_sie (b : bool) (a : lctx) : lctx :=
  LCtx (lc_held a) (lc_noff a) (lc_proc a) b b.

Lemma with_sie_wf b a : lctx_wf a -> lc_noff a = 0 -> lctx_wf (with_sie b a).
Proof. intros [H1' H2' H3'] Hz. constructor; simpl; auto. lia. Qed.

Section entry.
Context `{Layout} `{Symbols} `{WaitFuel} `{Uninit} `{UninitTrace} (B : kproc).

Lemma tri_intr_on {C} a (f : unit -> K kernel C) (R : C -> lctx -> Prop) :
  lc_noff a = 0 -> tri B (with_sie true a) (f tt) R -> tri B a (bind intr_on f) R.
Proof.
  intros Hz Hf Hw h s <- Hs. apply Hf; [by apply with_sie_wf| |done].
  unfold abs, with_sie. simpl in *. by rewrite Hz.
Qed.

Lemma tri_intr_off {C} a (f : unit -> K kernel C) (R : C -> lctx -> Prop) :
  lc_noff a = 0 -> tri B (with_sie false a) (f tt) R -> tri B a (bind intr_off f) R.
Proof.
  intros Hz Hf Hw h s <- Hs. apply Hf; [by apply with_sie_wf| |done].
  unfold abs, with_sie. simpl in *. by rewrite Hz.
Qed.

Lemma tri_usertrapret sstatus satp a :
  lc_noff a = 0 -> tri B a (usertrapret sstatus satp) (fun _ c => c = with_sie false a).
Proof.
  intros Hz. apply tri_wf. intros Ha. unfold usertrapret. apply tri_curproc. intros p Hp.
  apply tri_intr_off; [done|]. pose proof (with_sie_wf false a Ha Hz) as Hw.
  pose proof (bal_cpuid B) as Hc. disc.
Qed.

Lemma tri_forkret sstatus satp p a :
  lctx_wf a -> lc_noff a = 0 -> lc_proc a = Some p -> L_proc p ∉ lc_held a ->
  tri B (acq (L_proc p) a) (forkret sstatus satp) (fun _ c => c = with_sie false a).
Proof.
  intros Ha Hz Hp Hn. unfold forkret. apply tri_curproc. simpl. intros q Hq. replace q with p by congruence.
  apply tri_release_bind; [done..|]. apply tri_gets. intros s _. apply tri_bal; [disc|]. intros _.
  by apply tri_usertrapret.
Qed.

Lemma tri_usertrap pol r a :
  lc_noff a = 0 -> lc_sie a = false -> tri B a (usertrap pol r) (fun _ c => c = a).
Proof.
  intros Hz Hsie. apply tri_wf. intros Ha. unfold usertrap. case_if; [disc|].
  apply tri_curproc. intros p Hp. apply tri_bal; [disc|]. intros _.
  assert (Hend : forall b w, tri B (with_sie b a)
    (killed <- pget p p_killed;; when (truthy killed) (exit (-1));;
     when (w =? 2) (timer_yield pol p);; usertrapret (tr_sstatus r) (tr_satp r)) (fun _ c => c = a)).
  { intros b w. apply tri_pget. intros x _. apply tri_bal; [apply bal_when, bal_exit|]. intros _.
    apply tri_bal; [apply bal_when, bal_timer_yield|]. intros _.
    eapply tri_conseq; [|by apply tri_usertrapret]. simpl. intros _ c ->.
    apply lctx_eq; simpl; auto. rewrite (lw_intena a Ha) by done. done. }
  assert (Ea : a = with_sie false a).
  { apply lctx_eq; simpl; auto. rewrite (lw_intena a Ha) by done. done. }
  case_if.
  - apply tri_assoc, tri_pget. intros x _. apply tri_assoc, tri_bal; [apply bal_when, bal_exit|]. intros _.
    apply tri_assoc, tri_bal; [disc|]. intros epc. apply tri_assoc, tri_bal; [disc|]. intros _.
    apply tri_assoc, tri_intr_on; [done|]. apply tri_assoc, tri_bal; [apply bal_syscall|]. intros _.
    apply tri_bind_ret. apply Hend.
  - rewrite Ea at 1. apply tri_assoc, tri_bal; [apply bal_devintr|]. intros w.
    apply tri_assoc, tri_bal; [disc|]. intros _. apply tri_bind_ret. apply Hend.
Qed.

Lemma tri_kerneltrap pol r a :
  tri B a (kerneltrap pol r) (fun x c => c = a /\ x = (tr_sepc r, tr_sstatus r)).
Proof.
  apply tri_wf. intros Ha. unfold kerneltrap. case_if; [apply tri_panic|].
  apply tri_bal; [intros b Hw h s <- Hs; simpl; auto using sp_refl|]. intros ie. case_if; [apply tri_panic|].
  apply tri_bal; [apply bal_devintr|]. intros w. case_if; [disc|].
  apply tri_bal; [|intros _; by apply tri_ret]. apply bal_when. pose proof (bal_timer_yield B) as Hy. disc.
Qed.

End entry.

(** ** The scheduler *)

Section scheduler.
Context `{Layout} `{Symbols} `{WaitFuel} `{Uninit} `{UninitTrace}.

Lemma bal_pset_tables i f : (forall x, proc_wf x -> proc_wf (f x)) -> bal ktables (pset i f).
Proof.
  intros Hf. apply bal_modify. intros q s Hs. split; [by apply (kwf_upd_proc i f s)|done].
Qed.

(** userinit fails with a fault if the table is full. *)
Lemma bal_userinit : bal ktables userinit.
Proof.
  intros a. apply tri_wf. intros Ha. unfold userinit. apply (tri_allocproc ktables).
  - intros p Hp. apply pre_drop. apply tri_bal; [disc|]. intros _. apply tri_bind_ret.
    do 8 (apply tri_bal; [disc|]; intros ?).
    apply tri_bal; [apply bal_pset_tables; wf_update|]. intros _. disc.
  - apply tri_bal; [disc|]. intros _. by apply tri_deref.
Qed.

(** The process may come back with either interrupt state saved in the hart; the
    next round of the scheduler turns interrupts on. *)
Lemma tri_dispatch p a :
  lc_noff a = 0 -> lc_proc a = None -> tri ktables a (dispatch p) (fun _ c => exists b, c = with_sie b a).
Proof.
  intros Hz Hn. apply tri_wf. intros Ha. unfold dispatch. apply tri_acquire. intros Hp.
  apply tri_pget. intros x Hx.
  assert (Hend : forall b, tri ktables (acq (L_proc p) (with_sie b a)) (release (L_proc p))
    (fun _ c => exists b, c = with_sie b a)).
  { intros b. eapply tri_conseq; [|apply tri_release; [by apply with_sie_wf|done]]. simpl. eauto. }
  assert (Ea : a = with_sie (lc_sie a) a).
  { apply lctx_eq; simpl; auto. rewrite (lw_intena a Ha) by done. done. }
  destruct (decide _); [|rewrite Ea at 1; apply tri_bind_ret, Hend].
  assert (Heq : lc_held a = []) by (apply nil_length_inv; destruct Ha; lia).
  apply tri_assoc, tri_bal; [apply (bal_actually_set_priority ktables); apply Hx|]. intros _.
  do 3 (apply tri_assoc, tri_bal; [apply bal_pset_tables; wf_update|]; intros _). apply tri_assoc.
  intros Hw h s Hh Hs. unfold bind, get_hart, put_hart, swtch, gets. simpl.
  unfold abs, acq in Hh. injection Hh as E1 E2 E3 E4 E5.
  assert (Hs2 : kwf (upd_proc p (fun x0 => set_p_n_run (i32 (p_n_run x0 + 1)) x0)
    (upd_proc p (set_p_q_enter (i32 (k_ticks s))) s))) by (do 2 (apply kwf_upd_proc; [wf_update|]); done).
  split; [exact Hs2|]. exists p. split_and!; [|by left|done|].
  { unfold at_switch. simpl. rewrite E1, E2, E4, Heq. split_and!; auto. lia. }
  intros h' s' (F1 & F2 & F3 & F4) Hs' _. apply (Hend (h_intena h')); [| |done].
  { by apply acq_wf, with_sie_wf. }
  unfold abs; simpl. rewrite F2, F3, F4. apply lctx_eq; simpl; rewrite ?Heq, ?Hn; auto. lia.
Qed.

Lemma tri_scheduler_body pol a :
  lc_noff a = 0 -> lc_proc a = None -> tri ktables a (scheduler_body pol) (fun _ c => exists b, c = with_sie b a).
Proof.
  intros Hz Hn. apply tri_wf. intros Ha. unfold scheduler_body. apply tri_intr_on; [done|].
  apply tri_bal; [apply bal_pick|]. intros [p|].
  - eapply tri_conseq; [|by apply tri_dispatch]. intros _ c [b ->]. by exists b.
  - apply tri_ret. by exists true.
Qed.

Lemma tri_scheduler_loop pol fuel a :
  lc_noff a = 0 -> lc_proc a = None -> tri ktables a (scheduler_loop pol fuel) (fun _ _ => False).
Proof.
  revert a. induction fuel as [|f IH]; intros a Hz Hn; cbn [scheduler_loop]; [apply tri_nofuel|].
  apply tri_wf. intros Ha. eapply tri_bind; [by apply tri_scheduler_body|].
  intros _ c [b ->]. split; [split; [by apply with_sie_wf|done]|by apply IH].
Qed.

(** ** The entry points *)

(** C2: a trap from user space, whichever system call, interrupt or fault it is and
    whichever path through it is taken, error paths included: it starts with no
    spin lock and interrupts off; when it returns to user space the hart again holds
    no spin lock, is outside push_off, runs the same process with interrupts off, and
    the kernel's tables satisfy their type invariant; whenever it gives up the CPU on
    the way it holds exactly the lock of its process, one push_off deep, with the
    invariant established, and all this again holds when it is resumed, on any hart
    and in any state that satisfies the invariant. If it is resumed as RUNNING, it
    also changes the states of other processes only by waking sleeping ones and by
    using vacant slots of the table, and is RUNNABLE, SLEEPING or a ZOMBIE when it
    gives up the CPU. The only other outcomes are a panic, or a loop that sleeps more
    often than the bound [wait_fuel]. *)
Theorem usertrap_disciplined (pol : policy) (r : trapregs) (h : hart) (s : kernel) :
  hart_wf h -> h_noff h = 0 -> h_sie h = false -> kwf s ->
  wpo ktables (h_proc h) s (usertrap pol r h s) (fun _ c => c = abs h) /\
  wpo kstates (h_proc h) s (usertrap pol r h s) (fun _ c => c = abs h).
Proof.
  intros Hwf Hz Hs Hk. split.
  - exact (tri_usertrap ktables pol r (abs h) Hz Hs (abs_wf h Hwf) h s eq_refl Hk).
  - exact (tri_usertrap kstates pol r (abs h) Hz Hs (abs_wf h Hwf) h s eq_refl Hk).
Qed.

(** C11: an interrupt taken while the kernel runs is invisible to the code it
    interrupts: in whatever lock context it arrives, and even if it makes the process
    yield in between, kerneltrap returns in the same context (locks held, push_off
    depth, interrupt state, process) and restores sepc and sstatus. *)
Theorem kerneltrap_transparent (pol : policy) (r : trapregs) (h : hart) (s : kernel) :
  hart_wf h -> kwf s ->
  wpo ktables (h_proc h) s (kerneltrap pol r h s) (fun x c => c = abs h /\ x = (tr_sepc r, tr_sstatus r)).
Proof. intros Hwf Hk. exact (tri_kerneltrap ktables pol r (abs h) (abs_wf h Hwf) h s eq_refl Hk). Qed.

(** C12: scheduler() never returns, and under each of the four policies every switch
    to a process happens with that process recorded in the cpu structure and exactly
    its lock held, one push_off deep, with interrupts off and the tables satisfying
    their invariant; from any such state it goes on in the same way. *)
Theorem scheduler_disciplined (pol : policy) (fuel : nat) (h : hart) (s : kernel) :
  hart_wf h -> h_noff h = 0 -> kwf s ->
  wpo ktables None s (scheduler pol fuel h s) (fun _ _ => False).
Proof.
  intros Hwf Hz Hk. unfold scheduler. ksimpl.
  apply (tri_scheduler_loop pol fuel (abs (set_h_proc None h))); auto.
  apply abs_wf. destruct Hwf. by constructor.
Qed.

End scheduler.

Definition demo_ecall : trapregs := TrapRegs 0 8 0x1000 0 0 0.
Definition demo_timer : trapregs := TrapRegs SSTATUS_SPP 0x8000000000000001 0x1000 0 0 0.

Lemma usertrap_disciplined_witness :
  wpo ktables (h_proc demo_user_hart) demo_kernel (usertrap RR demo_ecall demo_user_hart demo_kernel)
    (fun _ c => c = abs demo_user_hart) /\
  match usertrap RR demo_ecall demo_user_hart demo_kernel with
  | Done u _ s => ur_sepc u = 0x1004 /\ load64 (pm_mem (k_pm s)) (demo_page + TF_a0) = 7
  | _ => False
  end.
Proof.
  split.
  - exact (proj1 (usertrap_disciplined RR demo_ecall demo_user_hart demo_kernel demo_user_hart_wf eq_refl eq_refl
      demo_kernel_wf)).
  - vm_compute. split; reflexivity.
Defined.

(** A timer interrupt while process 0 runs in the kernel: it yields. *)
Lemma kerneltrap_transparent_witness :
  wpo ktables (h_proc demo_user_hart) demo_kernel (kerneltrap RR demo_timer demo_user_hart demo_kernel)
    (fun x c => c = abs demo_user_hart /\ x = (0x1000, SSTATUS_SPP)) /\
  match kerneltrap RR demo_timer demo_user_hart demo_kernel with
  | Switch h s _ => h_held h = [L_proc 0] /\ (p_state <$> k_proc s !! 0%nat) = Some RUNNABLE
  | _ => False
  end.
Proof.
  split.
  - exact (kerneltrap_transparent RR demo_timer demo_user_hart demo_kernel demo_user_hart_wf demo_kernel_wf).
  - vm_compute. split; reflexivity.
Defined.

Lemma scheduler_disciplined_witness :
  wpo ktables None demo_waiting (scheduler FCFS 1 demo_user_hart demo_waiting) (fun _ _ => False) /\
  match scheduler FCFS 1 demo_user_hart demo_waiting with
  | Switch h s _ => h_proc h = Some 0%nat /\ (p_state <$> k_proc s !! 0%nat) = Some RUNNING
  | _ => False
  end.
Proof.
  split.
  - apply scheduler_disciplined; [apply demo_user_hart_wf|reflexivity|apply demo_waiting_wf].
  - vm_compute. split; reflexivity.
Defined.
