(* ===== verification/Scheduler.v ===== *)
(** * Scheduler

    The scheduling policies of kernel/proc.c: which process fcfs, pbs_scheduler and
    RoundRobin choose, and that scheduler() finds a runnable process when there is
    one and gives it the CPU. *)
From stdpp Require Import base tactics list numbers gmap strings sorting.
From S2P Require Import Prelude Machine Spinlock Printf Bytes Queue Kalloc Vm Kernel Proc.
From S2P Require Import ProcFacts Discipline Balance KernelInv Examples.

(** [runnable procs i x]: slot [i] holds the process [x] and it waits for a CPU. *)
Definition runnable (procs : list proc) (i : nat) (x : proc) : Prop :=
  procs !! i = Some x /\ p_state x = RUNNABLE.

(** The runnable processes of the slots [l], with their indices. *)
Definition candidate (procs : list proc) (i : nat) : option (nat * proc) :=
  x ← procs !! i; if decide (p_state x = RUNNABLE) then Some (i, x) else None.
Definition candidates (procs : list proc) (l : list nat) : list (nat * proc) :=
  omap (candidate procs) l.

Section candidates.
Implicit Types (procs : list proc).

Lemma candidate_Some procs i j x : candidate procs i = Some (j, x) <-> j = i /\ runnable procs i x.
Proof.
  unfold candidate, runnable. destruct (procs !! i) as [y|]; simpl; [|naive_solver].
  destruct (decide _); naive_solver.
Qed.

Lemma elem_of_candidates procs i x :
  length procs = NPROC -> (i, x) ∈ candidates procs (upto NPROC) <-> runnable procs i x.
Proof.
  intros Hl. unfold candidates. rewrite list_elem_of_omap. setoid_rewrite candidate_Some.
  setoid_rewrite elem_of_upto. split; [naive_solver|]. intros Hr. exists i. split; [|done].
  destruct Hr as [Hr _]. apply lookup_lt_Some in Hr. lia.
Qed.

(** The indices of the candidates ascend. *)
Lemma candidates_cons procs a n i x cs :
  candidates procs (seq a n) = (i, x) :: cs -> forall j y, (j, y) ∈ cs -> (i < j)%nat.
Proof.
  revert a. induction n as [|n IH]; intros a; simpl; [done|].
  destruct (candidate procs a) as [[k z]|] eqn:Ec; [|apply IH].
  apply candidate_Some in Ec as [-> Hr]. intros [= <- <- <-] j y.
  unfold candidates. rewrite list_elem_of_omap. intros (b & Hb%elem_of_seq & [-> _]%candidate_Some). lia.
Qed.

Lemma candidates_ind procs (P : list (nat * proc) -> Prop) n a :
  P [] ->
  (forall i x cs, runnable procs i x -> (forall j y, (j, y) ∈ cs -> (i < j)%nat) -> P cs -> P ((i, x) :: cs)) ->
  P (candidates procs (seq a n)).
Proof.
  intros H0 HS. revert a. induction n as [|n IH]; intros a; simpl; [done|].
  destruct (candidate procs a) as [[k z]|] eqn:Ec; [|apply IH].
  apply HS; [by apply candidate_Some in Ec as [-> ?]| |apply IH].
  apply (candidates_cons procs a (S n) k z). simpl. by rewrite Ec.
Qed.

End candidates.

(** ** First come first served *)

Section fcfs.
Implicit Types (procs : list proc).

Fixpoint fcfs_fold (cs : list (nat * proc)) (index : nat) (mintime : Z) : nat :=
  match cs with
  | [] => index
  | (i, x) :: cs =>
      if p_ctime x <=? mintime then fcfs_fold cs i (p_ctime x) else fcfs_fold cs index mintime
  end.

Lemma fcfs_loop_fold procs l index mintime :
  fcfs_loop procs l index mintime = fcfs_fold (candidates procs l) index mintime.
Proof.
  revert index mintime. induction l as [|i l IH]; intros index mintime; simpl; [done|].
  unfold candidate. destruct (procs !! i) as [x|]; simpl; [|done].
  destruct (decide _); simpl; [case_match|]; auto.
Qed.

(** Either no candidate is as old as [mintime], or the result is the last one of the
    oldest. *)
Definition fcfs_best (cs : list (nat * proc)) (mintime : Z) (j : nat) : Prop :=
  exists y, (j, y) ∈ cs /\ p_ctime y <= mintime /\
    forall i x, (i, x) ∈ cs -> p_ctime y <= p_ctime x /\ ((j < i)%nat -> p_ctime y < p_ctime x).

Lemma fcfs_fold_spec procs n a index mintime :
  let cs := candidates procs (seq a n) in
  (fcfs_fold cs index mintime = index /\ forall i x, (i, x) ∈ cs -> mintime < p_ctime x) \/
  fcfs_best cs mintime (fcfs_fold cs index mintime).
Proof.
  simpl. revert index mintime. unfold fcfs_best. apply candidates_ind.
  - intros index mintime. left. split; [done|]. intros i x Hi. by apply not_elem_of_nil in Hi.
  - intros i x cs Hx Hlt IH index mintime. simpl. setoid_rewrite elem_of_cons.
    destruct (Z.leb_spec (p_ctime x) mintime);
      [destruct (IH i (p_ctime x)) as [[-> Hr]|(y & Hy & Hle & Hr)]
      |destruct (IH index mintime) as [[-> Hr]|(y & Hy & Hle & Hr)]].
    + right. exists x. split_and!; [auto|done|]. intros k z [[= -> ->]|Hk]; [lia|].
      specialize (Hr k z Hk). lia.
    + right. exists y. split_and!; [auto|lia|]. intros k z [[= -> ->]|Hk]; [|by apply Hr].
      specialize (Hlt _ y Hy). lia.
    + left. split; [done|]. intros k z [[= -> ->]|Hk]; [done|by eapply Hr].
    + right. exists y. split_and!; [auto|done|]. intros k z [[= -> ->]|Hk]; [|by apply Hr].
      specialize (Hlt _ y Hy). lia.
Qed.

Lemma fcfs_run h s i x :
  length (k_proc s) = NPROC -> runnable (k_proc s) i x -> p_ctime x <= i32 (k_ticks s) ->
  exists j, fcfs h s = Done j h s /\
    fcfs_best (candidates (k_proc s) (upto NPROC)) (i32 (k_ticks s)) j.
Proof.
  intros Hl Hi Hx. unfold fcfs, gets. rewrite fcfs_loop_fold. eexists. split; [done|].
  destruct (fcfs_fold_spec (k_proc s) NPROC 0 0 (i32 (k_ticks s))) as [[_ Hn]|Hb]; [|done].
  apply elem_of_candidates in Hi; [|done]. specialize (Hn i x Hi). lia.
Qed.

End fcfs.

(** Under FCFS, when some runnable process was created no later than the current
    tick, fcfs() chooses a runnable process whose creation time is the least of all
    runnable processes, and among those created in the same tick the one in the last
    slot; it changes nothing. *)
Theorem fcfs_picks_oldest (h : hart) (s : kernel) (i : nat) (x : proc) :
  length (k_proc s) = NPROC -> runnable (k_proc s) i x -> p_ctime x <= i32 (k_ticks s) ->
  exists j y, fcfs h s = Done j h s /\ runnable (k_proc s) j y /\
    forall k z, runnable (k_proc s) k z ->
      p_ctime y <= p_ctime z /\ ((j < k)%nat -> p_ctime y < p_ctime z).
Proof.
  intros Hl Hi Hx. destruct (fcfs_run h s i x Hl Hi Hx) as (j & E & y & Hy & _ & Hr).
  exists j, y. apply elem_of_candidates in Hy; [|done]. split_and!; [done|done|].
  intros k z Hz. apply Hr. by apply elem_of_candidates.
Qed.

(** ** Priorities *)

(** [x] goes before [y]: a smaller dynamic priority, then fewer runs, then an earlier
    creation. *)
Definition pbs_before (x y : proc) : Prop :=
  p_dynamic_priority x < p_dynamic_priority y \/
  p_dynamic_priority x = p_dynamic_priority y /\
    (p_n_run x < p_n_run y \/ p_n_run x = p_n_run y /\ p_ctime x < p_ctime y).

#[export] Instance pbs_before_dec x y : Decision (pbs_before x y).
Proof. unfold pbs_before. apply _. Defined.

Section pbs.
Implicit Types (procs : list proc).

Fixpoint pbs_fold (cs : list (nat * proc)) (best : nat * proc) : nat * proc :=
  match cs with
  | [] => best
  | c :: cs => pbs_fold cs (if decide (pbs_before c.2 best.2) then c else best)
  end.

(** Evaluate the comparisons with the process at an index that [H] looks up. *)
Ltac pbs_step H :=
  progress (rewrite ?H; simpl; rewrite ?Z.eqb_refl, ?Z.ltb_irrefl, ?andb_false_r; simpl).

(** Once an index is chosen, the three ifs of the loop compare with [pbs_before]. *)
Lemma pbs_loop_fold procs l index y :
  procs !! index = Some y ->
  pbs_loop procs l (p_dynamic_priority y) index = (pbs_fold (candidates procs l) (index, y)).1.
Proof.
  revert index y. induction l as [|i l IH]; intros index y Hy; [done|].
  cbn [pbs_loop candidates omap list_omap]. fold (candidates procs l). unfold candidate at 1.
  destruct (procs !! i) as [x|] eqn:Hx; simpl; [|by apply IH].
  destruct (decide (p_state x = RUNNABLE)); simpl; [|by apply IH].
  unfold pbs_before.
  destruct (Z.ltb_spec (p_dynamic_priority x) (p_dynamic_priority y)).
  { repeat pbs_step Hx. rewrite decide_True by auto. by apply IH. }
  pbs_step Hy. destruct (Z.eqb_spec (p_dynamic_priority x) (p_dynamic_priority y)) as [Ed|]; simpl.
  2:{ pbs_step Hy. rewrite decide_False by lia.
      destruct (Z.eqb_spec (p_dynamic_priority x) (p_dynamic_priority y)); [lia|]. by apply IH. }
  destruct (Z.ltb_spec (p_n_run x) (p_n_run y)).
  { repeat pbs_step Hx. rewrite decide_True by auto. by apply IH. }
  pbs_step Hy. rewrite (proj2 (Z.eqb_eq _ _) Ed). simpl.
  destruct (Z.eqb_spec (p_n_run x) (p_n_run y)); simpl; [|rewrite decide_False by lia; by apply IH].
  destruct (Z.ltb_spec (p_ctime x) (p_ctime y)); [rewrite decide_True by auto|rewrite decide_False by lia].
  - by apply IH.
  - by apply IH.
Qed.

(** The loop starts with no choice: [min_priority] exceeds every priority. *)
Lemma pbs_loop_start procs l mp index :
  (forall i x, i ∈ l -> runnable procs i x -> p_dynamic_priority x < mp) ->
  pbs_loop procs l mp index =
  match candidates procs l with [] => index | c :: cs => (pbs_fold cs c).1 end.
Proof.
  induction l as [|i l IH]; intros Hmp; [done|].
  assert (IH' := IH ltac:(intros j y Hj; apply Hmp; set_solver)). clear IH.
  cbn [pbs_loop candidates omap list_omap]. fold (candidates procs l). unfold candidate at 1.
  destruct (procs !! i) as [x|] eqn:Hx; simpl; [|done].
  destruct (decide (p_state x = RUNNABLE)) as [Hr|]; simpl; [|done].
  assert (p_dynamic_priority x < mp) as Hlt%Z.ltb_lt by (apply (Hmp i); [set_solver|done]).
  rewrite Hlt. repeat pbs_step Hx. by apply pbs_loop_fold.
Qed.

Lemma pbs_before_trans x y z : pbs_before x y -> pbs_before y z -> pbs_before x z.
Proof. unfold pbs_before. lia. Qed.

(** The fold returns the least process, the first one of several. *)
Lemma pbs_fold_spec cs c :
  (forall d, d ∈ cs -> (c.1 < d.1)%nat) -> StronglySorted (fun c d => (c.1 < d.1)%nat) cs ->
  let b := pbs_fold cs c in
  b ∈ c :: cs /\ forall d, d ∈ c :: cs -> ~ pbs_before d.2 b.2 /\ ((d.1 < b.1)%nat -> pbs_before b.2 d.2).
Proof.
  revert c. induction cs as [|e cs IH]; intros c Hc Hs; simpl.
  { split; [set_solver|]. intros d Hd%list_elem_of_singleton. subst d. unfold pbs_before. split; lia. }
  inversion Hs as [|? ? Hs' He]; subst. rewrite Forall_forall in He.
  destruct (decide (pbs_before e.2 c.2)) as [Hb|Hb].
  - destruct (IH e) as [Hin Hmin]; [set_solver|done|]. split; [set_solver|].
    intros d [->|Hd]%elem_of_cons; [|by apply Hmin].
    assert (Hn : ~ pbs_before e.2 (pbs_fold cs e).2) by (apply Hmin; set_solver).
    unfold pbs_before in *. split; [lia|intros _; lia].
  - destruct (IH c) as [Hin Hmin]; [set_solver|done|]. split; [set_solver|].
    intros d [->|[->|Hd]%elem_of_cons]%elem_of_cons; [apply Hmin; set_solver| |apply Hmin; set_solver].
    destruct (Hmin c) as [Hn1 Hn2]; [set_solver|].
    assert (Hce : (c.1 < e.1)%nat) by (apply Hc; set_solver).
    split; [unfold pbs_before in *; lia|]. intros Hlt.
    assert (Hb' : pbs_before (pbs_fold cs c).2 c.2) by (apply Hn2; lia). unfold pbs_before in *. lia.
Qed.

Lemma candidates_sorted procs n a :
  StronglySorted (fun c d => (c.1 < d.1)%nat) (candidates procs (seq a n)).
Proof.
  apply candidates_ind; [constructor|]. intros i x cs _ Hlt IH. constructor; [done|].
  apply Forall_forall. intros [j y] Hj. by eapply Hlt.
Qed.

(** The choice of pbs_scheduler among the runnable processes. *)
Definition pbs_best (procs : list proc) (j : nat) (y : proc) : Prop :=
  runnable procs j y /\
  forall i x, runnable procs i x -> ~ pbs_before x y /\ ((i < j)%nat -> pbs_before y x).

Lemma pbs_run h s i x :
  kwf s -> runnable (k_proc s) i x ->
  exists j y, pbs_scheduler h s = Done j h s /\ pbs_best (k_proc s) j y.
Proof.
  intros Hk Hi. pose proof (kw_proc s Hk) as Hl. unfold pbs_scheduler, gets. rewrite pbs_loop_start.
  2:{ intros k z _ [Hz _]. pose proof (Forall_lookup_1 _ _ _ _ (kw_procs s Hk) Hz) as [].
      lia. }
  pose proof (candidates_sorted (k_proc s) NPROC 0) as Hs. unfold upto in *.
  assert (Hin : (i, x) ∈ candidates (k_proc s) (seq 0 NPROC)) by (by apply elem_of_candidates).
  destruct (candidates _ _) as [|c cs] eqn:Ec; [by apply not_elem_of_nil in Hin|].
  inversion Hs as [|? ? Hs' Hc]; subst. rewrite Forall_forall in Hc.
  destruct (pbs_fold_spec cs c Hc Hs') as [Hb Hmin]. destruct (pbs_fold cs c) as [j y].
  exists j, y. split; [done|]. rewrite <-Ec in Hb, Hmin. split; [by apply elem_of_candidates|].
  intros k z Hz. apply (Hmin (k, z)). by apply elem_of_candidates.
Qed.

End pbs.

(** C27: under PBS, when a process is runnable, pbs_scheduler() chooses a runnable
    process that no other runnable one precedes by dynamic priority, then number of
    runs, then creation time, and of equals the one in the first slot; it changes
    nothing. *)
Theorem pbs_picks_priority (h : hart) (s : kernel) (i : nat) (x : proc) :
  kwf s -> runnable (k_proc s) i x ->
  exists j y, pbs_scheduler h s = Done j h s /\ runnable (k_proc s) j y /\
    forall k z, runnable (k_proc s) k z ->
      ~ pbs_before z y /\ ((k < j)%nat -> pbs_before y z).
Proof.
  intros Hk Hi. destruct (pbs_run h s i x Hk Hi) as (j & y & E & Hr & Hb). eauto.
Qed.

(** ** Giving a process the CPU *)

Definition set_priority_of (np : Z) (x : proc) : proc :=
  set_p_sleep_time 0 (set_p_niceness 5 (set_p_static_priority np x)).

Section dispatch.
Implicit Types (s : kernel) (h : hart).

Definition has_pid (pid : Z) (s : kernel) (i : nat) : bool :=
  match k_proc s !! i with Some x => p_pid x =? pid | None => false end.

(** The process actually_set_priority finds: the first one with the pid. *)
Lemma set_priority_run np pid h s :
  length (k_proc s) = NPROC ->
  exists r, actually_set_priority np pid h s =
    Done r h (match List.find (has_pid pid s) (upto NPROC) with
              | Some i => upd_proc i (set_priority_of np) s
              | None => s
              end).
Proof.
  intros Hl. unfold actually_set_priority.
  assert (Hb : forall i, i ∈ upto NPROC -> is_Some (k_proc s !! i)).
  { intros i Hi%elem_of_upto. apply lookup_lt_is_Some_2. lia. }
  induction (upto NPROC) as [|i l IH]; simpl; [eexists; by ksimpl|].
  destruct (Hb i) as [x Hx]; [set_solver|]. unfold has_pid at 1. rewrite Hx.
  rewrite !bind_assoc, (bind_pget _ _ _ _ _ x Hx). unfold id.
  destruct (p_pid x =? pid) eqn:E.
  - eexists. ksimpl. by autorewrite with kstate.
  - ksimpl. apply IH. set_solver.
Qed.

(** What the process that gets the CPU is turned into, but for its static priority. *)
Definition on_cpu (ticks : Z) (x : proc) : proc :=
  set_p_n_run (i32 (p_n_run x + 1)) (set_p_q_enter (i32 ticks) (set_p_state RUNNING
    (set_p_q (alter (fun n => i32 (n + 1)) (Z.to_nat (p_level x)) (p_q x))
      (set_p_change_queue (i32 (Z.shiftl 1 (p_level x))) x)))).

(** The table after the dispatch of [p]. *)
Definition dispatched (p : nat) (x : proc) (s : kernel) : list proc :=
  alter (on_cpu (k_ticks s)) p
    (match List.find (has_pid (p_pid x) s) (upto NPROC) with
     | Some i => alter (set_priority_of (p_dynamic_priority x)) i (k_proc s)
     | None => k_proc s
     end).

Lemma dispatch_run p x h s :
  length (k_proc s) = NPROC -> runnable (k_proc s) p x -> L_proc p ∉ h_held h ->
  exists k, dispatch p h s =
    Switch (set_h_proc (Some p) (locked (L_proc p) h)) (set_k_proc (dispatched p x s) s) k /\
    forall g s', k g s' = release (L_proc p) (set_h_proc None g) s'.
Proof.
  intros Hl [Hx Hr] Hn. unfold dispatch, dispatched. krun (acquire_run (L_proc p) h s Hn).
  rewrite (bind_pget _ _ _ _ _ x Hx). unfold id. rewrite decide_True by done. rewrite !bind_assoc.
  destruct (set_priority_run (p_dynamic_priority x) (p_pid x) (locked (L_proc p) h) s Hl) as [r Er].
  krun Er. ksimpl. eexists. split; [f_equal|intros g s'; reflexivity].
  destruct (List.find _ _); autorewrite with kstate; reflexivity.
Qed.

Lemma dispatch_skip p h s x :
  hart_wf h -> L_proc p ∉ h_held h -> k_proc s !! p = Some x -> p_state x <> RUNNABLE ->
  dispatch p h s = Done tt (settle h) s.
Proof.
  intros Hwf Hn Hx Hr. unfold dispatch. krun (acquire_run (L_proc p) h s Hn).
  rewrite (bind_pget _ _ _ _ _ x Hx). unfold id. rewrite decide_False by done. ksimpl.
  by apply (release_run _ h); [..|apply calm_refl].
Qed.

Lemma dispatched_lookup p x s :
  k_proc s !! p = Some x -> exists y, dispatched p x s !! p = Some y /\ p_state y = RUNNING /\
    p_n_run y = i32 (p_n_run x + 1) /\ p_q_enter y = i32 (k_ticks s).
Proof.
  intros Hx. unfold dispatched. rewrite list_lookup_alter_eq. destruct (List.find _ _) as [i|].
  - destruct (decide (i = p)) as [->|Hne].
    + rewrite list_lookup_alter_eq, Hx. simpl. by eexists.
    + rewrite list_lookup_alter_ne, Hx by done. simpl. by eexists.
  - rewrite Hx. simpl. by eexists.
Qed.

Lemma dispatched_other p x s i :
  i <> p -> p_state <$> dispatched p x s !! i = p_state <$> k_proc s !! i.
Proof.
  intros Hne. unfold dispatched. rewrite list_lookup_alter_ne by done.
  destruct (List.find _ _) as [k|]; [|done]. destruct (decide (k = i)) as [->|Hk].
  - rewrite list_lookup_alter_eq. by destruct (k_proc s !! i).
  - by rewrite list_lookup_alter_ne.
Qed.

End dispatch.

(** ** Round robin *)

Section rr.
Implicit Types (s : kernel) (h : hart).

(** A hart in the loop of scheduler(): no process, no lock. *)
Record idle (h : hart) : Prop := {
  idle_held : h_held h = [];
  idle_noff : h_noff h = 0;
}.

Lemma idle_wf h : idle h -> hart_wf h.
Proof. intros [E1 E2]. constructor; rewrite ?E1, ?E2; simpl; [lia|lia|constructor]. Qed.

Lemma idle_intr_on h : idle h -> idle (set_h_sie true h).
Proof. by intros []. Qed.

Lemma idle_settle h : idle h -> idle (settle h).
Proof. intros []. constructor; by rewrite ?settle_held, ?settle_noff. Qed.

Lemma idle_notin lk h : idle h -> lk ∉ h_held h.
Proof. intros [-> _]. apply not_elem_of_nil. Qed.

(** The slot round robin looks at after [d] others. *)
Definition rr_slot (alpha : Z) (d : nat) : nat :=
  Z.to_nat ((alpha + 1 + Z.of_nat d) mod Z.of_nat NPROC).

Lemma round_robin_run h s :
  0 <= k_alpha s < Z.of_nat NPROC ->
  RoundRobin h s = Done (rr_slot (k_alpha s) 0) h (set_k_alpha (Z.of_nat (rr_slot (k_alpha s) 0)) s).
Proof.
  intros Ha. unfold RoundRobin. ksimpl. unfold rr_slot.
  assert (E : Z.rem (i32 (k_alpha s + 1)) (Z.of_nat NPROC) = (k_alpha s + 1 + Z.of_nat 0) mod Z.of_nat NPROC).
  { unfold NPROC in *. rewrite i32_id by lia. rewrite Z.rem_mod_nonneg by lia. f_equal. lia. }
  rewrite E, Z2Nat.id by (apply Z.mod_pos_bound; done). done.
Qed.

Lemma rr_body_run h s :
  0 <= k_alpha s < Z.of_nat NPROC ->
  scheduler_body RR h s =
  dispatch (rr_slot (k_alpha s) 0) (set_h_sie true h) (set_k_alpha (Z.of_nat (rr_slot (k_alpha s) 0)) s).
Proof.
  intros Ha. unfold scheduler_body, pick, intr_on. rewrite !bind_assoc. ksimpl. rewrite ?bind_assoc.
  krun (round_robin_run (set_h_sie true h) s Ha). by ksimpl.
Qed.

Lemma rr_slot_S alpha d : rr_slot (Z.of_nat (rr_slot alpha 0)) d = rr_slot alpha (S d).
Proof.
  unfold rr_slot. rewrite Z2Nat.id by (apply Z.mod_pos_bound; done). f_equal.
  rewrite <-Z.add_assoc, Zplus_mod_idemp_l. f_equal. lia.
Qed.

Lemma rr_progress d fuel h s x :
  idle h -> length (k_proc s) = NPROC -> 0 <= k_alpha s < Z.of_nat NPROC ->
  (forall e y, (e < d)%nat -> ~ runnable (k_proc s) (rr_slot (k_alpha s) e) y) ->
  runnable (k_proc s) (rr_slot (k_alpha s) d) x -> (d < fuel)%nat ->
  let j := rr_slot (k_alpha s) d in
  exists h' k, scheduler_loop RR fuel h s =
      Switch h' (set_k_proc (dispatched j x s) (set_k_alpha (Z.of_nat j) s)) k /\
    h_proc h' = Some j.
Proof.
  revert fuel h s. induction d as [|d IH]; intros fuel h s Hi Hl Ha Hskip Hr Hf j.
  all: destruct fuel as [|fuel]; [lia|]; cbn [scheduler_loop].
  all: rewrite (bind_eq _ _ _ _ _ _ _ (rr_body_run h s Ha)); pose proof (idle_intr_on h Hi) as Hi'.
  - destruct (dispatch_run j x (set_h_sie true h) (set_k_alpha (Z.of_nat j) s)) as (k & Ek & _);
      [done|done|by apply idle_notin|].
    krun Ek. eauto.
  - set (s' := set_k_alpha _ s). destruct (lookup_lt_is_Some_2 (k_proc s') (rr_slot (k_alpha s) 0)) as [y Hy].
    { simpl. rewrite Hl. unfold rr_slot. pose proof (Z.mod_pos_bound (k_alpha s + 1 + 0) (Z.of_nat NPROC)). lia. }
    assert (Es : dispatch (rr_slot (k_alpha s) 0) (set_h_sie true h) s' = Done tt (settle (set_h_sie true h)) s').
    { eapply dispatch_skip; [by apply idle_wf|by apply idle_notin|exact Hy|].
      intros E. apply (Hskip 0%nat y); [lia|]. done. }
    krun Es. destruct (IH fuel (settle (set_h_sie true h)) s') as (h' & k & E & Hp).
    + by apply idle_settle.
    + done.
    + simpl. unfold rr_slot. pose proof (Z.mod_pos_bound (k_alpha s + 1 + 0) (Z.of_nat NPROC)). lia.
    + intros e z He. simpl. rewrite rr_slot_S. apply Hskip. lia.
    + simpl. by rewrite rr_slot_S.
    + lia.
    + simpl in *. rewrite rr_slot_S in E, Hp. exists h', k. by rewrite E.
Qed.

End rr.

(** ** Examples *)

Lemma fcfs_picks_oldest_witness :
  (exists j y, fcfs demo_user_hart demo_two = Done j demo_user_hart demo_two /\
    runnable (k_proc demo_two) j y /\
    forall k z, runnable (k_proc demo_two) k z ->
      p_ctime y <= p_ctime z /\ ((j < k)%nat -> p_ctime y < p_ctime z)) /\
  fcfs demo_user_hart demo_two = Done 2%nat demo_user_hart demo_two.
Proof.
  split; [|vm_compute; reflexivity].
  apply (fcfs_picks_oldest demo_user_hart demo_two 1 demo_first); [reflexivity|split; reflexivity|].
  vm_compute. discriminate.
Defined.

Lemma pbs_picks_priority_witness :
  (exists j y, pbs_scheduler demo_user_hart demo_two = Done j demo_user_hart demo_two /\
    runnable (k_proc demo_two) j y /\
    forall k z, runnable (k_proc demo_two) k z -> ~ pbs_before z y /\ ((k < j)%nat -> pbs_before y z)) /\
  pbs_scheduler demo_user_hart demo_two = Done 2%nat demo_user_hart demo_two.
Proof.
  split; [|vm_compute; reflexivity].
  apply (pbs_picks_priority demo_user_hart demo_two 1 demo_first); [apply demo_two_wf|split; reflexivity].
Defined.
