(* ===== verification/Mlfq.v ===== *)
(** * Mlfq

    The multi-level feedback queue of kernel/proc.c: the queues of the five levels
    against the [in_queue] and [level] fields of the processes, and what
    mlfq_scheduler chooses. *)
From stdpp Require Import base tactics list numbers gmap strings.
From S2P Require Import Prelude Machine Spinlock Printf Bytes Queue Kalloc Vm Kernel Proc.
From S2P Require Import ProcFacts Discipline Balance KernelInv Examples Scheduler.

(** ** The queues and the table *)

(** A process that is queued or wants to be. *)
Definition lives (x : proc) : Prop := p_in_queue x <> 0 \/ p_state x = RUNNABLE.

(** The queue of level [l] holds the list [qs l]: exactly the processes that are
    marked as queued and have that level, once each; such processes and runnable ones
    have different pids. *)
Record queued (s : kernel) (qs : nat -> list nat) : Prop := {
  qd_rep : forall l, (l < NMLFQ)%nat -> exists q, k_mlfq s !! l = Some q /\ rep q (qs l);
  qd_nodup : forall l, (l < NMLFQ)%nat -> NoDup (qs l);
  qd_mem : forall l i, (l < NMLFQ)%nat ->
    i ∈ qs l <-> exists x, k_proc s !! i = Some x /\ p_in_queue x <> 0 /\ p_level x = Z.of_nat l;
  qd_pid : forall i j x y, k_proc s !! i = Some x -> k_proc s !! j = Some y ->
    lives x -> lives y -> p_pid x = p_pid y -> i = j;
}.

(** [qs] with the queue of level [l] replaced. *)
Definition requeue (l : nat) (ql : list nat) (qs : nat -> list nat) (k : nat) : list nat :=
  if decide (k = l) then ql else qs k.

Lemma upd_proc_at p f x s :
  k_proc s !! p = Some x ->
  forall i, k_proc (upd_proc p f s) !! i = if decide (i = p) then Some (f x) else k_proc s !! i.
Proof.
  intros Hx i. rewrite k_proc_upd. case_decide as Hi; subst.
  - rewrite list_lookup_alter_eq. by rewrite Hx.
  - by rewrite list_lookup_alter_ne.
Qed.

Section queued.
Implicit Types (s : kernel) (qs : nat -> list nat).

(** An update of one process, and of the queue of its level. *)
Lemma queued_update s qs p f x l q' ql' :
  queued s qs -> k_proc s !! p = Some x -> (l < NMLFQ)%nat -> p_level x = Z.of_nat l ->
  rep q' ql' -> NoDup ql' -> (forall i, i <> p -> i ∈ ql' <-> i ∈ qs l) ->
  (p ∈ ql' <-> p_in_queue (f x) <> 0) -> (p_in_queue (f x) <> 0 -> p_level (f x) = Z.of_nat l) ->
  (lives (f x) -> lives x) -> p_pid (f x) = p_pid x ->
  queued (upd_proc p f (set_k_mlfq (<[l := q']> (k_mlfq s)) s)) (requeue l ql' qs).
Proof.
  intros [Hrep Hnd Hmem Hpid] Hx Hl Hlev Hr' Hnd' Hother Hp Hplev Hlive Hppid.
  pose proof (upd_proc_at p f x (set_k_mlfq (<[l := q']> (k_mlfq s)) s) Hx) as Hlook. simpl in Hlook.
  unfold requeue. constructor.
  - intros k Hk. simpl. case_decide as Hkl; subst.
    + exists q'. split; [|done]. apply list_lookup_insert_eq. destruct (Hrep l Hl) as (q & Hq & _).
      by apply lookup_lt_Some in Hq.
    + rewrite list_lookup_insert_ne by done. auto.
  - intros k Hk. case_decide; auto.
  - intros k i Hk. rewrite Hlook. case_decide as Hkl; subst; case_decide as Hi; subst.
    + rewrite Hp. naive_solver.
    + rewrite Hother by done. by apply Hmem.
    + rewrite Hmem by done. naive_solver lia.
    + by apply Hmem.
  - intros i j y z. rewrite !Hlook. repeat case_decide; subst; [done|..]; intros; simplify_eq.
    + eapply (Hpid p j x z); eauto. congruence.
    + symmetry. eapply (Hpid p i x y); eauto. congruence.
    + by eapply Hpid.
Qed.

(** An update of a process outside the queues. *)
Lemma queued_outside s qs p f x :
  queued s qs -> k_proc s !! p = Some x -> p_in_queue x = 0 -> p_in_queue (f x) = 0 ->
  (lives (f x) -> lives x) -> p_pid (f x) = p_pid x -> queued (upd_proc p f s) qs.
Proof.
  intros [Hrep Hnd Hmem Hpid] Hx Hq Hq' Hlive Hppid.
  pose proof (upd_proc_at p f x s Hx) as Hlook.
  constructor; [done|done| |].
  - intros k i Hk. rewrite Hlook, Hmem by done. case_decide; subst; naive_solver.
  - intros i j y z. rewrite !Hlook. repeat case_decide; subst; [done|..]; intros; simplify_eq.
    + eapply (Hpid p j x z); eauto. congruence.
    + symmetry. eapply (Hpid p i x y); eauto. congruence.
    + by eapply Hpid.
Qed.

(** The queues do not depend on the console. *)
Lemma queued_tty s qs t : queued s qs -> queued (set_k_tty t s) qs.
Proof. by intros []. Qed.

Lemma in_mlfq_run {A} (m : K Queue A) l q q' a h s :
  k_mlfq s !! l = Some q -> m h q = Done a h q' ->
  in_mlfq l m h s = Done a h (set_k_mlfq (<[l := q']> (k_mlfq s)) s).
Proof. intros Hq E. unfold in_mlfq, zoom. rewrite Hq. simpl. by rewrite E. Qed.

End queued.

(** ** Removing and adding one process *)

Section steps.
Implicit Types (s : kernel) (qs : nat -> list nat).

(** qerase of a queued process takes it out of the queue of its level. *)
Lemma qerase_queued s qs p x l h :
  queued s qs -> k_proc s !! p = Some x -> p_in_queue x <> 0 -> (l < NMLFQ)%nat -> p_level x = Z.of_nat l ->
  exists q', in_mlfq l (qerase (fun i => default 0 (p_pid <$> k_proc s !! i)) (p_pid x)) h s =
    Done tt h (set_k_mlfq (<[l := q']> (k_mlfq s)) s) /\
    rep q' (filter (fun i => i <> p) (qs l)).
Proof.
  intros Hq Hx Hin Hl Hlev. destruct (qd_rep _ _ Hq l Hl) as (q & Eq & R).
  assert (Hp : p ∈ qs l) by (apply (qd_mem _ _ Hq l p Hl); eauto).
  set (pidof := fun i : nat => default 0 (p_pid <$> k_proc s !! i)).
  destruct (list_find (fun i => pidof i = p_pid x) (qs l)) as [[j i]|] eqn:Ef.
  - destruct (qerase_found pidof (p_pid x) q (qs l) j i h R Ef) as (q' & E & R').
    exists q'. split; [by eapply in_mlfq_run|]. apply list_find_Some in Ef as (Ej & Hi & _).
    assert (i = p) as ->.
    { assert (Hil : i ∈ qs l) by (by eapply list_elem_of_lookup_2).
      apply (qd_mem _ _ Hq l i Hl) in Hil as (y & Hy & Hyq & _). unfold pidof in Hi. rewrite Hy in Hi.
      eapply (qd_pid _ _ Hq i p y x); eauto; by left. }
    rewrite <-(delete_filter _ j); [done|by apply (qd_nodup _ _ Hq)|done].
  - apply list_find_None in Ef. rewrite Forall_forall in Ef. destruct (Ef p Hp). unfold pidof. by rewrite Hx.
Qed.

(** push of a process that is not queued: there is room. *)
Lemma push_queued s qs p x l h :
  queued s qs -> length (k_proc s) = NPROC -> k_proc s !! p = Some x -> p_in_queue x = 0 -> (l < NMLFQ)%nat ->
  exists q', in_mlfq l (push p) h s = Done tt h (set_k_mlfq (<[l := q']> (k_mlfq s)) s) /\
    rep q' (qs l ++ [p]) /\ p ∉ qs l.
Proof.
  intros Hq Hlen Hx Hin Hl. destruct (qd_rep _ _ Hq l Hl) as (q & Eq & R).
  assert (Hp : p ∉ qs l) by (intros (y & Hy & Hyq & _)%(qd_mem _ _ Hq l p Hl); congruence).
  assert (Hroom : (length (p :: qs l) <= length (upto NPROC))%nat).
  { apply submseteq_length, NoDup_submseteq; [constructor; [done|by apply (qd_nodup _ _ Hq)]|].
    intros i [->|Hi]%elem_of_cons; apply elem_of_upto; rewrite <-Hlen.
    - by eapply lookup_lt_Some.
    - apply (qd_mem _ _ Hq l i Hl) in Hi as (y & Hy & _). by eapply lookup_lt_Some. }
  unfold upto in Hroom. rewrite length_seq in Hroom. simpl in Hroom.
  exists (pushed_queue p q). split_and!; [|apply rep_pushed; [done|lia]|done].
  eapply in_mlfq_run; [done|]. rewrite (push_run p q (qs l) h R). unfold Fifo.enq.
  destruct (Nat.eqb_spec (length (qs l)) NPROC); [lia|done].
Qed.

End steps.

(** ** Ageing *)

(** What ageing makes of a process: a runnable one that has not run for AGETICK ticks
    leaves its queue and goes up one level. *)
Definition old (ticks : Z) (x : proc) : bool :=
  bool_decide (p_state x = RUNNABLE) && (AGETICK <=? u32 (ticks - p_q_enter x)).
Definition aged (ticks : Z) (x : proc) : proc :=
  if old ticks x then
    set_p_q_enter (i32 ticks) (set_p_level (Z.max 0 (p_level x - 1)) (set_p_in_queue 0 x))
  else x.

(** The processes of a queue that are still marked as queued. *)
Definition marked (procs : list proc) (i : nat) : Prop :=
  match procs !! i with Some x => p_in_queue x <> 0 | None => False end.
#[export] Instance marked_dec procs i : Decision (marked procs i).
Proof. unfold marked. destruct (procs !! i); apply _. Defined.

Section ageing.
Context `{Layout} `{Symbols} `{WaitFuel}.
Implicit Types (s : kernel) (qs : nat -> list nat).

(** The parts of the kernel mlfq_scheduler works on: the table, the queues and the
    console. *)
Definition framed (s s' : kernel) : Prop :=
  exists t m ps, s' = set_k_tty t (set_k_mlfq m (set_k_proc ps s)) /\ panicked t = false.

Lemma framed_ticks s s' : framed s s' -> k_ticks s' = k_ticks s.
Proof. by intros (t & m & ps & -> & _). Qed.

Lemma k_proc_upd_id f i (l : list proc) x : l !! i = Some x -> f x = x -> alter f i l = l.
Proof.
  intros Hx Hf. apply list_eq. intros j. destruct (decide (i = j)) as [<-|Hne].
  - rewrite list_lookup_alter_eq, Hx. simpl. by rewrite Hf.
  - by rewrite list_lookup_alter_ne.
Qed.

Lemma map_upto_length f l procs : length (map_upto f l procs) = length procs.
Proof. revert procs. induction l as [|i l IH]; intros procs; simpl; [done|]. by rewrite IH, length_alter. Qed.

Lemma map_upto_snoc f pre p procs :
  map_upto f (pre ++ [p]) procs = alter (f p) p (map_upto f pre procs).
Proof. revert procs. induction pre as [|i pre IH]; intros procs; simpl; [done|]. apply IH. Qed.

Lemma queued_ext s qs qs' : (forall l, (l < NMLFQ)%nat -> qs l = qs' l) -> queued s qs -> queued s qs'.
Proof.
  intros E [Hr Hn Hm Hp]. constructor; [..|done]; intros l; intros; rewrite <-E by done; auto.
Qed.

(** A process that leaves its queue. *)
Lemma queued_leave s qs0 p f x l q' :
  let qs := fun l => filter (marked (k_proc s)) (qs0 l) in
  queued s qs -> k_proc s !! p = Some x -> (l < NMLFQ)%nat -> p_level x = Z.of_nat l ->
  rep q' (filter (fun i => i <> p) (qs l)) ->
  p_in_queue (f x) = 0 -> (lives (f x) -> lives x) -> p_pid (f x) = p_pid x ->
  let s' := upd_proc p f (set_k_mlfq (<[l := q']> (k_mlfq s)) s) in
  queued s' (fun l => filter (marked (k_proc s')) (qs0 l)).
Proof.
  intros qs Hq Hx Hl Hlev Hr Hf0 Hlive Hpid s'.
  assert (Hs' : queued s' (requeue l (filter (fun i => i <> p) (qs l)) qs)).
  { eapply queued_update; eauto.
    - apply NoDup_filter. by apply (qd_nodup _ _ Hq).
    - intros i Hi. rewrite list_elem_of_filter. tauto.
    - rewrite list_elem_of_filter. tauto.
    - by intros. }
  revert Hs'. apply queued_ext. intros k Hk.
  assert (E : filter (marked (k_proc s')) (qs0 k) = filter (fun i => i <> p) (qs k)).
  { unfold qs. rewrite list_filter_filter. apply list_filter_iff. intros i. unfold marked.
    unfold s'. rewrite (upd_proc_at p f x (set_k_mlfq (<[l := q']> (k_mlfq s)) s) Hx). simpl.
    case_decide; subst; tauto. }
  rewrite E. unfold requeue. case_decide; subst; [done|]. symmetry. apply filter_all.
  intros i Hi ->. apply (qd_mem _ _ Hq k p Hk) in Hi as (y & Hy & _ & Hyl). simplify_eq. lia.
Qed.

(** A process outside the queues that stays outside. *)
Lemma queued_stay s qs0 p f x :
  let qs := fun l => filter (marked (k_proc s)) (qs0 l) in
  queued s qs -> k_proc s !! p = Some x -> p_in_queue x = 0 -> p_in_queue (f x) = 0 ->
  (lives (f x) -> lives x) -> p_pid (f x) = p_pid x ->
  queued (upd_proc p f s) (fun l => filter (marked (k_proc (upd_proc p f s))) (qs0 l)).
Proof.
  intros qs Hq Hx H0' Hf0 Hlive Hpid. eapply queued_ext; [|by eapply (queued_outside s qs)].
  intros k Hk. unfold qs. apply list_filter_iff. intros i. unfold marked.
  rewrite (upd_proc_at p f x s Hx). case_decide; subst; [|done]. by rewrite Hx, H0', Hf0.
Qed.

Definition levels_ok (procs : list proc) : Prop :=
  forall i x, procs !! i = Some x -> 0 <= p_level x < Z.of_nat NMLFQ.

(** The rest of the body, once the process is in no queue. *)
Lemma ageing_tail_run p x h s ticks :
  k_proc s !! p = Some x -> 0 <= p_level x ->
  (level <- pget p p_level;;
   when (negb (level =? 0)) (pset p (set_p_level (level - 1)));;
   pset p (set_p_q_enter (i32 ticks))) h s =
  Done tt h (upd_proc p (fun x => set_p_q_enter (i32 ticks) (set_p_level (Z.max 0 (p_level x - 1)) x)) s).
Proof.
  intros Hx Hl. rewrite (bind_pget _ _ _ _ _ x Hx). ksimpl. case_if; ksimpl; autorewrite with kstate.
  - f_equal. eapply upd_proc_ext; [done|]. f_equal. f_equal. lia.
  - f_equal. eapply upd_proc_ext; [done|]. rewrite E. by destruct x; simpl in *; subst.
Qed.

Lemma old_lives ticks x : old ticks x = true -> lives x.
Proof. unfold old. intros [Ho _]%andb_true_iff. apply bool_decide_eq_true in Ho. by right. Qed.

Lemma ageing_step h s qs0 p x :
  let qs := fun l => filter (marked (k_proc s)) (qs0 l) in
  hart_wf h -> L_pr ∉ h_held h -> panicked (k_tty s) = false -> queued s qs ->
  k_proc s !! p = Some x -> 0 <= p_level x < Z.of_nat NMLFQ ->
  exists h' s', ageing_one p h s = Done tt h' s' /\ calm h h' /\ framed s s' /\
    k_proc s' = alter (aged (k_ticks s)) p (k_proc s) /\
    queued s' (fun l => filter (marked (k_proc s')) (qs0 l)).
Proof.
  intros qs Hwf Hn Hp Hq Hx Hlev. unfold ageing_one. rewrite (bind_pget _ _ _ _ _ x Hx). ksimpl. unfold id.
  fold (old (k_ticks s) x). destruct (old (k_ticks s) x) eqn:Ho; cbn [when].
  2:{ exists h, s. rewrite k_proc_upd_id with (x := x) by (done || (unfold aged; by rewrite Ho)).
      split_and!; [done|apply calm_refl| |done|done].
      exists (k_tty s), (k_mlfq s), (k_proc s). split; [by destruct s|done]. }
  destruct (kprintf_run "Ageing: %d
" [VInt (p_pid x)] h s eq_refl Hwf Hp Hn) as (bs & h' & E1 & Hc).
  krun E1. set (s1 := set_k_tty _ s).
  assert (Hl : (Z.to_nat (p_level x) < NMLFQ)%nat) by lia.
  destruct (truthy (p_in_queue x)) eqn:Eq; ksimpl.
  - unfold truthy in Eq. bool_to_prop.
    destruct (qerase_queued s1 qs p x (Z.to_nat (p_level x)) h') as (q' & E2 & R'); auto; [by apply queued_tty|lia|].
    krun E2. ksimpl.
    rewrite (ageing_tail_run p (set_p_in_queue 0 x)); [|by apply upd_proc_lookup|simpl; lia].
    do 2 eexists. split; [done|]. rewrite upd_proc_comp.
    split_and!; [done|by eexists _, _, _| |].
    + rewrite k_proc_upd. apply list_alter_ext; [|done]. intros y Hy.
      assert (y = x) as -> by (simpl in Hy; congruence). unfold aged. by rewrite Ho.
    + apply (queued_leave s1 qs0 p _ x); auto; [by apply queued_tty|lia|].
      intros _. by eapply old_lives.
  - unfold truthy in Eq. bool_to_prop. rewrite (ageing_tail_run p x) by (done || lia).
    do 2 eexists. split; [done|]. split_and!; [done| | |].
    + eexists _, _, _. split; [by destruct s|done].
    + rewrite k_proc_upd. apply list_alter_ext; [|done]. intros y Hy.
      assert (y = x) as -> by (simpl in Hy; congruence). unfold aged. rewrite Ho.
      by destruct x; simpl in *; subst.
    + apply (queued_stay s1 qs0 p _ x); auto. by apply queued_tty.
Qed.

Lemma framed_refl s : panicked (k_tty s) = false -> framed s s.
Proof. exists (k_tty s), (k_mlfq s), (k_proc s). split; [by destruct s|done]. Qed.

Lemma framed_update s p f m : panicked (k_tty s) = false -> framed s (upd_proc p f (set_k_mlfq m s)).
Proof. exists (k_tty s), m, (alter f p (k_proc s)). split; [by destruct s|done]. Qed.

Lemma framed_trans s1 s2 s3 : framed s1 s2 -> framed s2 s3 -> framed s1 s3.
Proof. intros (t & m & ps & -> & _) (t' & m' & ps' & -> & Hp). by exists t', m', ps'. Qed.

Lemma framed_tty s s' : framed s s' -> panicked (k_tty s') = false.
Proof. by intros (t & m & ps & -> & Hp). Qed.

(** The entry a loop over the table comes to is untouched. *)
Lemma map_upto_next f pre p post procs :
  upto NPROC = pre ++ p :: post -> map_upto f pre procs !! p = procs !! p.
Proof.
  intros E. apply map_upto_other. pose proof (NoDup_upto NPROC) as Hnd. rewrite E in Hnd.
  apply NoDup_app in Hnd as (_ & Hd & _). intros Hp. apply (Hd p Hp). constructor.
Qed.

Lemma upto_split pre p post (procs : list proc) :
  length procs = NPROC -> upto NPROC = pre ++ p :: post -> is_Some (procs !! p).
Proof.
  intros Hl E. apply lookup_lt_is_Some_2. rewrite Hl. apply elem_of_upto. rewrite E. set_solver.
Qed.

Lemma ageing_run h s qs :
  hart_wf h -> L_pr ∉ h_held h -> panicked (k_tty s) = false -> length (k_proc s) = NPROC ->
  levels_ok (k_proc s) -> queued s qs ->
  exists h' s', ageing h s = Done tt h' s' /\ calm h h' /\ framed s s' /\
    k_proc s' = imap (fun _ => aged (k_ticks s)) (k_proc s) /\
    queued s' (fun l => filter (marked (k_proc s')) (qs l)).
Proof.
  intros Hwf Hn Hp Hlen Hlev Hq. rewrite <-map_upto_imap by done. unfold ageing.
  apply (forM_spec (fun pre h' s' => calm h h' /\ framed s s' /\
    k_proc s' = map_upto (fun _ => aged (k_ticks s)) pre (k_proc s) /\
    queued s' (fun l => filter (marked (k_proc s')) (qs l)))).
  - split_and!; [apply calm_refl|by apply framed_refl|done|]. apply (queued_ext s qs); [|done]. intros l Hl.
    symmetry. apply filter_all. intros i Hi. apply (qd_mem _ _ Hq l i Hl) in Hi as (x & Hx & Hxq & _).
    unfold marked. by rewrite Hx.
  - intros pre p post h1 s1 E (Hc & Hf & Hps & Hq1). destruct (upto_split pre p post _ Hlen E) as [x Hx].
    destruct (ageing_step h1 s1 qs p x) as (h2 & s2 & E2 & Hc2 & Hf2 & Hps2 & Hq2).
    + by eapply calm_wf.
    + by eapply calm_notin.
    + by eapply framed_tty.
    + done.
    + rewrite Hps. by rewrite (map_upto_next _ _ _ _ _ E).
    + by eapply Hlev.
    + exists h2, s2. split_and!; [done|by eapply calm_trans|by eapply framed_trans| |done].
      rewrite Hps2, Hps, map_upto_snoc. by rewrite (framed_ticks s s1 Hf).
Qed.

End ageing.

(** ** Entering the queues *)

(** A runnable process that is not queued. *)
Definition enters (procs : list proc) (l : nat) (i : nat) : Prop :=
  match procs !! i with
  | Some x => p_state x = RUNNABLE /\ p_in_queue x = 0 /\ p_level x = Z.of_nat l
  | None => False
  end.
#[export] Instance enters_dec procs l i : Decision (enters procs l i).
Proof. unfold enters. destruct (procs !! i); apply _. Defined.

Definition enter_one (x : proc) : proc :=
  if bool_decide (p_state x = RUNNABLE) && (p_in_queue x =? 0) then set_p_in_queue 1 x else x.

Section enqueue.
Implicit Types (s : kernel) (qs : nat -> list nat).

Lemma enqueue_step h s qs p x :
  queued s qs -> length (k_proc s) = NPROC -> k_proc s !! p = Some x -> 0 <= p_level x < Z.of_nat NMLFQ ->
  panicked (k_tty s) = false ->
  exists s', mlfq_enqueue_one p h s = Done tt h s' /\ framed s s' /\
    k_proc s' = alter enter_one p (k_proc s) /\
    queued s' (fun l => qs l ++ filter (enters (k_proc s) l) [p]).
Proof.
  intros Hq Hlen Hx Hlev Hp. unfold mlfq_enqueue_one. rewrite (bind_pget _ _ _ _ _ x Hx). unfold id.
  destruct (bool_decide _ && _) eqn:Eb; cbn [when].
  - bool_to_prop. set (l := Z.to_nat (p_level x)) in *. assert (Hl : (l < NMLFQ)%nat) by lia.
    destruct (push_queued s qs p x l h) as (q' & E & R & Hnp); auto. krun E.
    exists (upd_proc p (set_p_in_queue 1) (set_k_mlfq (<[l := q']> (k_mlfq s)) s)). split; [done|].
    split_and!; [by apply framed_update| |].
    + rewrite k_proc_upd. apply list_alter_ext; [|done]. intros y Hy.
      assert (y = x) as -> by (simpl in Hy; congruence). unfold enter_one.
      by rewrite bool_decide_eq_true_2, (proj2 (Z.eqb_eq _ _) ltac:(eassumption)).
    + eapply queued_ext; [|eapply (queued_update s qs p _ x l q' (qs l ++ [p])); eauto]; simpl.
      * intros k Hk. unfold requeue. case_decide as Hkl; subst.
        -- rewrite filter_cons_True; [done|]. unfold enters. rewrite Hx. split_and!; auto. lia.
        -- rewrite filter_cons_False; [by rewrite app_nil_r|]. unfold enters. rewrite Hx. lia.
      * lia.
      * apply NoDup_app. split_and!; [by apply (qd_nodup _ _ Hq)|set_solver|apply NoDup_singleton].
      * set_solver.
      * split; [lia|set_solver].
      * lia.
      * intros _. by right.
  - exists s. split_and!; [done|by apply framed_refl| |].
    + symmetry. eapply k_proc_upd_id; [done|]. unfold enter_one. by rewrite Eb.
    + revert Hq. apply queued_ext. intros l Hl. rewrite filter_cons_False; [by rewrite app_nil_r|].
      unfold enters. rewrite Hx. intros (H1 & H2 & _). rewrite bool_decide_eq_true_2 in Eb by done.
      by rewrite H2 in Eb.
Qed.

(** An entry that the loop has passed does not enter again. *)
Lemma enqueue_run h s qs :
  length (k_proc s) = NPROC -> levels_ok (k_proc s) -> panicked (k_tty s) = false -> queued s qs ->
  exists h' s', mlfq_enqueue h s = Done tt h' s' /\ h' = h /\ framed s s' /\
    k_proc s' = map_upto (fun _ => enter_one) (upto NPROC) (k_proc s) /\
    queued s' (fun l => qs l ++ filter (enters (k_proc s) l) (upto NPROC)).
Proof.
  intros Hlen Hlev Hp Hq. unfold mlfq_enqueue.
  apply (forM_spec (fun pre h' s' => h' = h /\ framed s s' /\
    k_proc s' = map_upto (fun _ => enter_one) pre (k_proc s) /\
    queued s' (fun l => qs l ++ filter (enters (k_proc s) l) pre))).
  - split_and!; [done|by apply framed_refl|done|]. eapply queued_ext; [|done].
    intros l Hl. simpl. by rewrite app_nil_r.
  - intros pre p post h1 s1 E (-> & Hf & Hps & Hq1). destruct (upto_split pre p post _ Hlen E) as [x Hx].
    assert (Hx1 : k_proc s1 !! p = Some x) by (rewrite Hps; by rewrite (map_upto_next _ _ _ _ _ E)).
    destruct (enqueue_step h s1 _ p x Hq1) as (s2 & E2 & Hf2 & Hps2 & Hq2).
    + by rewrite Hps, map_upto_length.
    + done.
    + by eapply Hlev.
    + by eapply framed_tty.
    + exists h, s2. split_and!; [done|done|by eapply framed_trans|by rewrite Hps2, Hps, map_upto_snoc|].
      eapply queued_ext; [|done]. intros l Hl. simpl. rewrite filter_app, app_assoc. f_equal.
      assert (He : enters (k_proc s1) l p <-> enters (k_proc s) l p) by (unfold enters; by rewrite Hx, Hx1).
      rewrite !filter_cons. repeat case_decide; tauto.
Qed.

End enqueue.

(** ** Taking a process out *)

Section pick.
Implicit Types (s : kernel) (qs : nat -> list nat).

Lemma mlfq_level_pop fuel h s qs l p ql x :
  queued s qs -> (l < NMLFQ)%nat -> qs l = p :: ql -> k_proc s !! p = Some x -> panicked (k_tty s) = false ->
  exists s', framed s s' /\ k_proc s' = alter (set_p_in_queue 0) p (k_proc s) /\
    queued s' (requeue l ql qs) /\
    mlfq_level (S fuel) l h s =
    (if decide (p_state x = RUNNABLE) then
       Done (Some p) h (upd_proc p (set_p_q_enter (i32 (k_ticks s))) s')
     else mlfq_level fuel l h s').
Proof.
  intros Hq Hl Eq Hx Hp. destruct (qd_rep _ _ Hq l Hl) as (q & Hql & R). rewrite Eq in R.
  assert (Hin : p ∈ qs l) by (rewrite Eq; constructor).
  apply (qd_mem _ _ Hq l p Hl) in Hin as (y & Hy & Hyq & Hyl). simplify_eq.
  pose proof (qd_nodup _ _ Hq l Hl) as Hnd. rewrite Eq in Hnd. apply NoDup_cons in Hnd as [Hnp Hnd].
  exists (upd_proc p (set_p_in_queue 0) (set_k_mlfq (<[l := popped_queue q]> (k_mlfq s)) s)).
  split_and!; [by apply framed_update|done| |].
  - eapply (queued_update s qs p _ x l); eauto.
    + by eapply rep_popped.
    + intros i Hi. rewrite Eq. set_solver.
    + simpl. tauto.
    + intros _. by left.
  - cbn [mlfq_level].
    assert (E0 : in_mlfq l (gets q_size) h s = Done (q_size q) h (set_k_mlfq (<[l := q]> (k_mlfq s)) s))
      by (by eapply in_mlfq_run).
    assert (Es : set_k_mlfq (<[l := q]> (k_mlfq s)) s = s).
    { rewrite list_insert_id by done. by destruct s. }
    rewrite Es in E0. krun E0. rewrite (rep_size _ _ R). destruct (Z.eqb_spec (Z.of_nat (length (p :: ql))) 0); [done|].
    assert (E1 : in_mlfq l front h s = Done (Some p) h (set_k_mlfq (<[l := q]> (k_mlfq s)) s))
      by (eapply in_mlfq_run; [done|by rewrite (front_run q (p :: ql))]).
    rewrite Es in E1. krun E1.
    assert (E2 : in_mlfq l pop h s = Done tt h (set_k_mlfq (<[l := popped_queue q]> (k_mlfq s)) s))
      by (eapply in_mlfq_run; [done|by rewrite (pop_run q (p :: ql))]).
    krun E2. ksimpl. rewrite (bind_pget _ _ _ _ _ (set_p_in_queue 0 x)) by (by apply upd_proc_lookup).
    change (p_state (set_p_in_queue 0 x)) with (p_state x). destruct (decide _); ksimpl; reflexivity.
Qed.

(** Whether slot [i] holds a runnable process. *)
Definition ready (procs : list proc) (i : nat) : Prop := p_state <$> procs !! i = Some RUNNABLE.

(** Two tables whose processes are in the same states. *)
Definition same_states (procs procs' : list proc) : Prop :=
  forall i, p_state <$> procs' !! i = p_state <$> procs !! i.

Lemma same_states_alter f p procs :
  (forall x, p_state (f x) = p_state x) -> same_states procs (alter f p procs).
Proof.
  intros Hf i. destruct (decide (p = i)) as [->|Hne].
  - rewrite list_lookup_alter_eq. destruct (procs !! i); simpl; [by rewrite Hf|done].
  - by rewrite list_lookup_alter_ne.
Qed.

Lemma ready_same procs procs' i : same_states procs procs' -> ready procs' i <-> ready procs i.
Proof. intros E. unfold ready. by rewrite E. Qed.

Lemma none_ready_same procs procs' il :
  same_states procs procs' ->
  Forall (fun i => ~ ready procs' i) il -> Forall (fun i => ~ ready procs i) il.
Proof. intros E. rewrite !Forall_forall. intros Hno i Hi. rewrite <-(ready_same _ _ i E). by apply Hno. Qed.

Lemma mlfq_level_run fuel h s qs l :
  queued s qs -> (l < NMLFQ)%nat -> (length (qs l) <= fuel)%nat -> panicked (k_tty s) = false ->
  exists s', framed s s' /\ same_states (k_proc s) (k_proc s') /\
   ((exists pre p post, qs l = pre ++ p :: post /\ Forall (fun i => ~ ready (k_proc s) i) pre /\
       ready (k_proc s) p /\ mlfq_level fuel l h s = Done (Some p) h s' /\ queued s' (requeue l post qs) /\
       p_in_queue <$> k_proc s' !! p = Some 0) \/
    (Forall (fun i => ~ ready (k_proc s) i) (qs l) /\ mlfq_level fuel l h s = Done None h s' /\
       queued s' (requeue l [] qs))).
Proof.
  intros Hq Hl. remember (qs l) as ql eqn:Eql. revert qs fuel s Eql Hq.
  induction ql as [|p ql IH]; intros qs fuel s Eql Hq Hf Hp.
  - exists s. split_and!; [by apply framed_refl|done|]. right. split_and!; [constructor| |].
    + destruct (qd_rep _ _ Hq l Hl) as (q & Hql & R). rewrite <-Eql in R.
      assert (E0 : in_mlfq l (gets q_size) h s = Done 0 h s).
      { rewrite (in_mlfq_run (gets q_size) l q q (q_size q)) by done. rewrite (rep_size _ _ R).
        rewrite list_insert_id by done. by destruct s. }
      destruct fuel; cbn [mlfq_level]; by krun E0.
    + revert Hq. apply queued_ext. intros k _. unfold requeue. by case_decide; subst.
  - assert (Hin : p ∈ qs l) by (rewrite <-Eql; constructor).
    apply (qd_mem _ _ Hq l p Hl) in Hin as (x & Hx & Hxq & Hxl).
    destruct fuel as [|fuel]; [simpl in Hf; lia|].
    destruct (mlfq_level_pop fuel h s qs l p ql x) as (s1 & Hf1 & Hp1 & Hq1 & E1); auto.
    assert (Hs1 : same_states (k_proc s) (k_proc s1)) by (rewrite Hp1; by apply same_states_alter).
    assert (Hx1 : k_proc s1 !! p = Some (set_p_in_queue 0 x)) by (rewrite Hp1, list_lookup_alter_eq; by rewrite Hx).
    rewrite E1. clear E1. case_decide as Hr.
    + exists (upd_proc p (set_p_q_enter (i32 (k_ticks s))) s1). split_and!.
      * destruct Hf1 as (t & m & ps & -> & Ht). by exists t, m, (alter (set_p_q_enter (i32 (k_ticks s))) p ps).
      * intros i. rewrite <-Hs1. by apply same_states_alter.
      * left. exists [], p, ql. split_and!; auto.
        -- unfold ready. by rewrite Hx, <-Hr.
        -- by eapply queued_outside.
        -- rewrite (upd_proc_lookup _ _ _ _ Hx1). done.
    + destruct (IH (requeue l ql qs) fuel s1) as (s' & Hf' & Hs' & Hcase); auto.
      { unfold requeue. by rewrite decide_True. }
      { simpl in Hf. lia. }
      { by eapply framed_tty. }
      assert (Heq : forall ql', queued s' (requeue l ql' (requeue l ql qs)) -> queued s' (requeue l ql' qs)).
      { intros ql'. apply queued_ext. intros k _. unfold requeue. by repeat case_decide. }
      assert (Hnr : ~ ready (k_proc s) p) by (unfold ready; rewrite Hx; simpl; congruence).
      exists s'. split_and!; [by eapply framed_trans|intros i; by rewrite Hs', Hs1|].
      destruct Hcase as [(pre & p' & post & E & Hpre & Hp' & Er & Hq' & Hin')|(Hno & Er & Hq')]; [left|right].
      * exists (p :: pre), p', post. split_and!; [by rewrite E| |by rewrite <-(ready_same _ _ p' Hs1)|done|by apply Heq|done].
        constructor; [done|]. by eapply none_ready_same.
      * split_and!; auto. constructor; [done|]. by eapply none_ready_same.
Qed.

(** The levels in turn. *)
Lemma mlfq_pick_run ls h s qs :
  NoDup ls -> (forall l, l ∈ ls -> (l < NMLFQ)%nat) -> queued s qs -> panicked (k_tty s) = false ->
  exists s' qs', framed s s' /\ same_states (k_proc s) (k_proc s') /\ queued s' qs' /\
   ((exists ls1 l ls2 pre p post, ls = ls1 ++ l :: ls2 /\
       (forall k, k ∈ ls1 -> Forall (fun i => ~ ready (k_proc s) i) (qs k)) /\
       qs l = pre ++ p :: post /\ Forall (fun i => ~ ready (k_proc s) i) pre /\ ready (k_proc s) p /\
       forM_exit ls (mlfq_level NPROC) h s = Done (Some p) h s' /\ p_in_queue <$> k_proc s' !! p = Some 0) \/
    ((forall k, k ∈ ls -> Forall (fun i => ~ ready (k_proc s) i) (qs k)) /\
       forM_exit ls (mlfq_level NPROC) h s = Done None h s')).
Proof.
  revert s qs. induction ls as [|l ls IH]; intros s qs Hnd Hls Hq Hp.
  { exists s, qs. split_and!; [by apply framed_refl|done|done|]. right. split; [|done].
    intros k Hk. by apply not_elem_of_nil in Hk. }
  apply NoDup_cons in Hnd as [Hl Hnd]. assert (Hll : (l < NMLFQ)%nat) by (apply Hls; constructor).
  destruct (mlfq_level_run NPROC h s qs l Hq Hll) as (s1 & Hf1 & Hs1 & [Hfound|(Hno & E1 & Hq1)]); [|done|..].
  { destruct (qd_rep _ _ Hq l Hll) as (q & _ & R). apply (rep_bound _ _ R). }
  - destruct Hfound as (pre & p & post & E & Hpre & Hr & E1 & Hq1 & Hin).
    exists s1, (requeue l post qs). split_and!; [done|done|done|]. left.
    exists [], l, ls, pre, p, post. split_and!; auto.
    + intros k Hk. by apply not_elem_of_nil in Hk.
    + cbn [forM_exit]. by krun E1.
  - destruct (IH s1 (requeue l [] qs) Hnd) as (s2 & qs2 & Hf2 & Hs2 & Hq2 & Hcase).
    { intros k Hk. apply Hls. by constructor. }
    { done. }
    { by eapply framed_tty. }
    assert (Hsame : forall k, k ∈ ls -> requeue l [] qs k = qs k).
    { intros k Hk. unfold requeue. rewrite decide_False; [done|]. by intros ->. }
    exists s2, qs2. split_and!; [by eapply framed_trans|intros i; by rewrite Hs2, Hs1|done|].
    cbn [forM_exit]. rewrite (bind_done _ _ _ _ _ _ _ E1).
    destruct Hcase as [(ls1 & k & ls2 & pre & p & post & -> & Hb & E & Hpre & Hr & E2 & Hin)|[Hno2 E2]]; [left|right].
    + exists (l :: ls1), k, ls2, pre, p, post. split_and!; auto.
      * intros j [->|Hj]%elem_of_cons; [done|]. eapply none_ready_same; [done|].
        rewrite <-Hsame by (apply elem_of_app; by left). by apply Hb.
      * rewrite <-E. symmetry. apply Hsame, elem_of_app. right. constructor.
      * by eapply none_ready_same.
      * by rewrite <-(ready_same _ _ p Hs1).
    + split; [|done]. intros j [->|Hj]%elem_of_cons; [done|]. eapply none_ready_same; [done|].
      rewrite <-Hsame by done. by apply Hno2.
Qed.

End pick.

(** ** The whole scheduler *)

(** Who stands in the queue of level [l] when the choice is made: those queued before
    that did not age, then the runnable processes that enter. *)
Definition line (procs : list proc) (qs : nat -> list nat) (l : nat) : list nat :=
  filter (marked procs) (qs l) ++ filter (enters procs l) (upto NPROC).

Lemma seq_before n ls1 l ls2 k : upto n = ls1 ++ l :: ls2 -> (k < l)%nat -> k ∈ ls1.
Proof.
  intros E Hk. assert (Hl : upto n !! length ls1 = Some l).
  { rewrite E. by apply list_lookup_middle. }
  unfold upto in *. apply lookup_seq in Hl as [-> Hn]. simpl in Hk.
  apply list_elem_of_lookup. exists k. rewrite <-(lookup_app_l ls1 (length ls1 :: ls2)) by done.
  simpl in E. rewrite <-E. apply lookup_seq. lia.
Qed.

Section scheduler.
Context `{Layout} `{Symbols} `{WaitFuel}.
Implicit Types (s : kernel) (qs : nat -> list nat).

Lemma same_states_map_upto f l procs :
  (forall i x, p_state (f i x) = p_state x) -> same_states procs (map_upto f l procs).
Proof.
  intros Hf. revert procs. induction l as [|i l IH]; intros procs; simpl; [done|].
  intros j. rewrite IH. by apply same_states_alter.
Qed.

Lemma same_states_length procs procs' :
  length procs = NPROC -> same_states procs procs' -> length procs' = NPROC.
Proof.
  intros Hl Hs. apply Nat.le_antisymm.
  - destruct (Nat.le_gt_cases (length procs') NPROC) as [|Hlt]; [done|].
    specialize (Hs NPROC). rewrite (lookup_ge_None_2 procs) in Hs by lia.
    destruct (lookup_lt_is_Some_2 procs' NPROC Hlt) as [z Hz]. by rewrite Hz in Hs.
  - destruct (Nat.le_gt_cases NPROC (length procs')) as [|Hlt]; [done|].
    specialize (Hs (length procs')). rewrite (lookup_ge_None_2 procs') in Hs by lia.
    destruct (lookup_lt_is_Some_2 procs (length procs')) as [z Hz]; [lia|]. by rewrite Hz in Hs.
Qed.

Lemma same_states_aged ticks procs : same_states procs (imap (fun _ => aged ticks) procs).
Proof.
  intros i. rewrite list_lookup_imap. destruct (procs !! i); simpl; [|done]. unfold aged. by case_if.
Qed.

Lemma same_states_entered procs l : same_states procs (map_upto (fun _ => enter_one) l procs).
Proof. apply same_states_map_upto. intros i x. unfold enter_one. by case_if. Qed.

Lemma ready_runnable procs i x : runnable procs i x -> ready procs i.
Proof. intros [Hx Hs]. unfold ready. by rewrite Hx, <-Hs. Qed.

Lemma levels_aged ticks procs : levels_ok procs -> levels_ok (imap (fun _ => aged ticks) procs).
Proof.
  intros Hl i x. rewrite list_lookup_imap. destruct (procs !! i) as [y|] eqn:Ey; [|done].
  intros [= <-]. specialize (Hl i y Ey). unfold aged. case_if; [simpl|done]. unfold NMLFQ in *. lia.
Qed.

(** Every runnable process stands in the line of its level. *)
Lemma line_complete s qs i x :
  queued s (fun l => filter (marked (k_proc s)) (qs l)) -> levels_ok (k_proc s) ->
  length (k_proc s) = NPROC -> runnable (k_proc s) i x -> i ∈ line (k_proc s) qs (Z.to_nat (p_level x)).
Proof.
  intros Hq Hlev Hlen [Hx Hr]. specialize (Hlev i x Hx). unfold line. apply elem_of_app.
  destruct (decide (p_in_queue x = 0)) as [Hz|Hz]; [right|left].
  - apply list_elem_of_filter. split; [|apply elem_of_upto; apply lookup_lt_Some in Hx; lia].
    unfold enters. rewrite Hx. split_and!; auto. lia.
  - apply (qd_mem _ _ Hq); [lia|]. exists x. split_and!; auto. lia.
Qed.

Lemma kwf_levels s : kwf s -> levels_ok (k_proc s).
Proof. intros Hk i x Hx. pose proof (Forall_lookup_1 _ _ _ _ (kw_procs s Hk) Hx) as []. done. Qed.

Lemma mlfq_run h s qs :
  hart_wf h -> L_pr ∉ h_held h -> panicked (k_tty s) = false -> kwf s -> queued s qs ->
  let procs := imap (fun _ => aged (k_ticks s)) (k_proc s) in
  exists r h' s' qs', mlfq_scheduler h s = Done r h' s' /\ calm h h' /\ framed s s' /\ queued s' qs' /\
    same_states (k_proc s) (k_proc s') /\
    match r with
    | Some p => exists l pre post, line procs qs l = pre ++ p :: post /\ ready procs p /\
        Forall (fun i => ~ ready procs i) pre /\
        (forall i x, runnable procs i x -> Z.of_nat l <= p_level x) /\
        p_in_queue <$> k_proc s' !! p = Some 0
    | None => forall i, ~ ready procs i
    end.
Proof.
  intros Hwf Hn Hp Hk Hq procs. pose proof (kwf_levels s Hk) as Hlev. pose proof (kw_proc s Hk) as Hlen.
  destruct (ageing_run h s qs) as (h1 & s1 & E1 & Hc1 & Hf1 & Hps1 & Hq1); auto.
  assert (Hlev1 : levels_ok (k_proc s1)) by (rewrite Hps1; by apply levels_aged).
  assert (Hlen1 : length (k_proc s1) = NPROC) by (by rewrite Hps1, length_imap).
  destruct (enqueue_run h1 s1 _ Hlen1 Hlev1 (framed_tty _ _ Hf1) Hq1) as (h2 & s2 & E2 & -> & Hf2 & Hps2 & Hq2).
  fold (line (k_proc s1) qs) in Hq2.
  assert (Hs2 : same_states (k_proc s1) (k_proc s2)) by (rewrite Hps2; apply same_states_entered).
  destruct (mlfq_pick_run (upto NMLFQ) h1 s2 (line (k_proc s1) qs)) as (s3 & qs3 & Hf3 & Hs3 & Hq3 & Hcase);
    [apply NoDup_upto|intros l; by rewrite elem_of_upto|done|by eapply framed_tty|].
  assert (Hcomp := fun i x => line_complete s1 qs i x Hq1 Hlev1 Hlen1).
  rewrite Hps1 in *. fold procs in Hlev1, Hs2, Hcase, Hcomp |- *.
  assert (Hstates : same_states (k_proc s) (k_proc s3)).
  { intros i. rewrite Hs3, Hs2. apply same_states_aged. }
  assert (Hfr : framed s s3) by (by eapply framed_trans; [|eapply framed_trans]).
  unfold mlfq_scheduler. krun E1. krun E2.
  destruct Hcase as [(ls1 & l & ls2 & pre & p & post & El & Hb & E & Hpre & Hr & E3 & Hin)|[Hno E3]].
  - exists (Some p), h1, s3, qs3. split_and!; auto. exists l, pre, post.
    split_and!; auto; [by rewrite <-(ready_same _ _ p Hs2)| |].
    { by eapply none_ready_same. }
    intros i x Hx. destruct (Z.le_gt_cases (Z.of_nat l) (p_level x)) as [|Hlt]; [done|].
    destruct (Hlev1 i x) as [Hx0 Hx5]; [apply Hx|]. exfalso.
    assert (Hk1 : Z.to_nat (p_level x) ∈ ls1).
    { assert (Hin5 : Z.to_nat (p_level x) ∈ upto NMLFQ) by (apply elem_of_upto; lia).
      apply (seq_before NMLFQ ls1 l ls2 (Z.to_nat (p_level x))); [done|lia]. }
    pose proof (Hb _ Hk1) as Hnone. rewrite Forall_forall in Hnone.
    apply (Hnone i); [by apply Hcomp|]. apply (ready_same _ _ i Hs2). by eapply ready_runnable.
  - exists None, h1, s3, qs3. split_and!; auto. intros i Hr.
    unfold ready in Hr. destruct (procs !! i) as [x|] eqn:Hx; [|done]. simpl in Hr. assert (p_state x = RUNNABLE) by congruence.
    destruct (Hlev1 i x Hx) as [Hx0 Hx5].
    assert (Hin5 : Z.to_nat (p_level x) ∈ upto NMLFQ) by (apply elem_of_upto; lia).
    pose proof (Hno _ Hin5) as Hnone. rewrite Forall_forall in Hnone.
    apply (Hnone i); [by apply Hcomp|]. apply (ready_same _ _ i Hs2). by eapply ready_runnable.
Qed.

End scheduler.

(** C10: mlfq_scheduler() always returns, leaves every process in its state and keeps
    the queues consistent with the table (each queued process once, in the queue of its
    level). With the table aged, it chooses a runnable process of the lowest level that
    has one, the first runnable one in the line of that level: those already queued in
    their order, then those that enter by slot. It returns NULL only when no process
    is runnable. *)
Theorem mlfq_picks_highest `{Layout} `{Symbols} `{WaitFuel} (h : hart) (s : kernel) (qs : nat -> list nat) :
  hart_wf h -> L_pr ∉ h_held h -> panicked (k_tty s) = false -> kwf s -> queued s qs ->
  let procs := imap (fun _ => aged (k_ticks s)) (k_proc s) in
  exists r h' s' qs', mlfq_scheduler h s = Done r h' s' /\ calm h h' /\ queued s' qs' /\
    same_states (k_proc s) (k_proc s') /\
    match r with
    | Some p => exists l pre post, line procs qs l = pre ++ p :: post /\ ready procs p /\
        Forall (fun i => ~ ready procs i) pre /\
        (forall i x, runnable procs i x -> Z.of_nat l <= p_level x) /\
        p_in_queue <$> k_proc s' !! p = Some 0
    | None => forall i, ~ ready procs i
    end.
Proof.
  intros Hwf Hn Hp Hk Hq procs.
  destruct (mlfq_run h s qs Hwf Hn Hp Hk Hq) as (r & h' & s' & qs' & E & Hc & _ & Hq' & Hs & Hr).
  by exists r, h', s', qs'.
Qed.

(** ** Progress *)

Section progress.
Context `{Layout} `{Symbols} `{WaitFuel}.
Implicit Types (s : kernel) (h : hart).

(** What each policy needs to find the runnable process [x]. *)
Definition schedulable (pol : policy) (s : kernel) (x : proc) : Prop :=
  match pol with
  | RR => 0 <= k_alpha s < Z.of_nat NPROC
  | FCFS => p_ctime x <= i32 (k_ticks s)
  | PBS => True
  | MLFQ => panicked (k_tty s) = false /\ exists qs, queued s qs
  end.

(** [o] hands the CPU to a process that was runnable in [s]. *)
Definition switches (s : kernel) (o : outcome kernel unit) : Prop :=
  exists j y h' s' k, o = Switch h' s' k /\ h_proc h' = Some j /\ runnable (k_proc s) j y /\
    p_state <$> k_proc s' !! j = Some RUNNING.

(** The first of the slots after alpha that is ready. *)
Lemma rr_first s i x :
  runnable (k_proc s) i x -> length (k_proc s) = NPROC ->
  exists d y, (d < NPROC)%nat /\ runnable (k_proc s) (rr_slot (k_alpha s) d) y /\
    forall e z, (e < d)%nat -> ~ runnable (k_proc s) (rr_slot (k_alpha s) e) z.
Proof.
  intros Hi Hl. set (P := fun d => ready (k_proc s) (rr_slot (k_alpha s) d)).
  assert (Hdec : forall d, Decision (P d)) by (intros d; unfold P, ready; apply _).
  assert (Hin : (i < NPROC)%nat) by (destruct Hi as [Hi%lookup_lt_Some _]; lia).
  set (d0 := Z.to_nat ((Z.of_nat i - k_alpha s - 1) mod Z.of_nat NPROC)).
  pose proof (Z.mod_pos_bound (Z.of_nat i - k_alpha s - 1) (Z.of_nat NPROC) ltac:(done)) as Hb.
  destruct (least_index P d0) as (d & Hle & Hd & Hbefore).
  { unfold P. replace (rr_slot (k_alpha s) d0) with i; [by eapply ready_runnable|].
    unfold rr_slot, d0. rewrite Z2Nat.id by lia. rewrite Zplus_mod_idemp_r.
    replace (k_alpha s + 1 + (Z.of_nat i - k_alpha s - 1)) with (Z.of_nat i) by lia.
    rewrite Z.mod_small by lia. by rewrite Nat2Z.id. }
  unfold P, ready in Hd. destruct (k_proc s !! rr_slot (k_alpha s) d) as [y|] eqn:Ey; [|done].
  exists d, y. split_and!; [lia|split; [done|simpl in Hd; congruence]|].
  intros e z He Hz. apply (Hbefore e He). by eapply ready_runnable.
Qed.

(** A policy that has chosen a runnable process in one round. *)
Lemma pick_switches pol n h s h1 s1 j y :
  idle h -> length (k_proc s) = NPROC -> pick pol (set_h_sie true h) s = Done (Some j) h1 s1 ->
  calm (set_h_sie true h) h1 -> same_states (k_proc s) (k_proc s1) -> length (k_proc s1) = NPROC ->
  runnable (k_proc s) j y ->
  switches s (scheduler_loop pol (S n) h s).
Proof.
  intros Hi Hl Ep Hc Hs Hl1 Hr. cbn [scheduler_loop]. unfold scheduler_body, intr_on.
  ksimpl. rewrite ?bind_assoc. krun Ep.
  assert (Hr1 : ready (k_proc s1) j) by (rewrite (ready_same _ _ j Hs); by eapply ready_runnable).
  unfold ready in Hr1. destruct (k_proc s1 !! j) as [z|] eqn:Ez; [|done].
  assert (Hz : runnable (k_proc s1) j z) by (split; [done|simpl in Hr1; congruence]).
  destruct (dispatch_run j z h1 s1 Hl1 Hz) as (k & Ek & _).
  { eapply calm_notin; [done|]. apply idle_notin. by apply idle_intr_on. }
  krun Ek. destruct (dispatched_lookup j z s1 Ez) as (w & Hw & Hrun & _).
  eexists j, y, _, _, _. split_and!; [done|done|done|]. simpl. by rewrite Hw, <-Hrun.
Qed.


End progress.

(** C28: round robin is fair. From slot alpha on, scheduler() passes over the slots that
    are not runnable and gives the CPU to the first runnable process after alpha in
    cyclic order, and leaves alpha at it, so that every runnable process is reached
    after at most NPROC - 1 others. *)
Theorem round_robin_fair (d : nat) (h : hart) (s : kernel) (x : proc) :
  idle h -> length (k_proc s) = NPROC -> 0 <= k_alpha s < Z.of_nat NPROC ->
  (forall e y, (e < d)%nat -> ~ runnable (k_proc s) (rr_slot (k_alpha s) e) y) ->
  runnable (k_proc s) (rr_slot (k_alpha s) d) x ->
  let j := rr_slot (k_alpha s) d in
  exists h' s' k, scheduler RR (S d) h s = Switch h' s' k /\ h_proc h' = Some j /\
    k_alpha s' = Z.of_nat j /\ p_state <$> k_proc s' !! j = Some RUNNING.
Proof.
  intros Hi Hl Ha Hskip Hr j. unfold scheduler. ksimpl.
  destruct (rr_progress d (S d) (set_h_proc None h) s x) as (h' & k & E & Hp); auto; [by destruct Hi|].
  eexists h', _, k. split_and!; [exact E|done|done|].
  destruct Hr as [Hx Hxr]. destruct (dispatched_lookup _ _ s Hx) as (w & Hw & Hrun & _).
  unfold j. simpl. by rewrite Hw, <-Hrun.
Qed.

(** C29: the dispatch of a process by scheduler() replaces the static priority that
    set_priority() gave it by its current dynamic priority, resets its niceness to 5
    and forgets its sleep time. *)
Theorem dispatch_overwrites_priority (p : nat) (x : proc) (h : hart) (s : kernel) :
  length (k_proc s) = NPROC -> runnable (k_proc s) p x -> L_proc p ∉ h_held h ->
  (forall i y, k_proc s !! i = Some y -> p_pid y = p_pid x -> i = p) ->
  exists h' s' k y, dispatch p h s = Switch h' s' k /\ k_proc s' !! p = Some y /\
    p_static_priority y = p_dynamic_priority x /\ p_niceness y = 5 /\ p_sleep_time y = 0.
Proof.
  intros Hl Hr Hn Hpid. destruct (dispatch_run p x h s Hl Hr Hn) as (k & Ek & _). destruct Hr as [Hx Hr].
  assert (Hf : List.find (has_pid (p_pid x) s) (upto NPROC) = Some p).
  { destruct (List.find _ _) as [i|] eqn:Ef.
    - apply find_some in Ef as [_ Ei]. unfold has_pid in Ei.
      destruct (k_proc s !! i) as [y|] eqn:Ey; [|done]. apply Z.eqb_eq in Ei. f_equal. by eapply Hpid.
    - eapply (find_none _ _ ) in Ef; [|apply list_elem_of_In, elem_of_upto; rewrite <-Hl; by eapply lookup_lt_Some].
      unfold has_pid in Ef. by rewrite Hx, Z.eqb_refl in Ef. }
  eexists _, _, k, _. split; [exact Ek|]. simpl. unfold dispatched. rewrite Hf.
  rewrite !list_lookup_alter_eq, Hx. simpl. split; [done|]. done.
Qed.

(** ** Examples *)

Lemma demo_two_queued : queued demo_two (fun _ => []).
Proof.
  assert (Hin : forall i x, k_proc demo_two !! i = Some x -> p_in_queue x = 0).
  { intros i x Hx. apply list_elem_of_lookup_2 in Hx. revert x Hx. apply Forall_forall. by repeat constructor. }
  constructor.
  - intros l Hl. exists empty_queue. split; [by apply lookup_replicate|apply rep_empty].
  - constructor.
  - intros l i _. split; [intros Hi; by apply not_elem_of_nil in Hi|]. intros (x & Hx & Hq & _).
    by destruct (Hin i x Hx).
  - assert (Hr : forall i x, k_proc demo_two !! i = Some x -> lives x ->
      i = 1%nat /\ p_pid x = 7 \/ i = 2%nat /\ p_pid x = 8).
    { intros i x Hx [Hl|Hl]; [by destruct Hl; eapply Hin|].
      do 3 (destruct i as [|i]; [simpl in Hx; simplify_eq; first [done|by left|by right]|]).
      apply lookup_replicate in Hx as [-> _]. done. }
    intros i j x y Hx Hy Hlx Hly. destruct (Hr i x Hx Hlx), (Hr j y Hy Hly); naive_solver lia.
Qed.

Lemma mlfq_picks_highest_witness :
  let procs := imap (fun _ => aged (k_ticks demo_two)) (k_proc demo_two) in
  (exists r h' s' qs', mlfq_scheduler demo_user_hart demo_two = Done r h' s' /\
    calm demo_user_hart h' /\ queued s' qs' /\ same_states (k_proc demo_two) (k_proc s') /\
    match r with
    | Some p => exists l pre post, line procs (fun _ => []) l = pre ++ p :: post /\ ready procs p /\
        Forall (fun i => ~ ready procs i) pre /\
        (forall i x, runnable procs i x -> Z.of_nat l <= p_level x) /\
        p_in_queue <$> k_proc s' !! p = Some 0
    | None => forall i, ~ ready procs i
    end) /\
  match mlfq_scheduler demo_user_hart demo_two with Done r _ _ => r = Some 2%nat | _ => False end.
Proof.
  split.
  - apply mlfq_picks_highest; [apply demo_user_hart_wf|apply not_elem_of_nil|reflexivity| |apply demo_two_queued].
    apply demo_two_wf.
  - vm_compute. reflexivity.
Defined.


Lemma round_robin_fair_witness :
  exists h' s' k, scheduler RR 1 demo_user_hart demo_two = Switch h' s' k /\ h_proc h' = Some 1%nat /\
    k_alpha s' = 1 /\ p_state <$> k_proc s' !! 1%nat = Some RUNNING.
Proof.
  apply (round_robin_fair 0 demo_user_hart demo_two demo_first).
  - split; reflexivity.
  - reflexivity.
  - vm_compute. split; [discriminate|reflexivity].
  - intros e y He. lia.
  - split; reflexivity.
Defined.

Lemma dispatch_overwrites_priority_witness :
  exists h' s' k y, dispatch 2 demo_user_hart demo_two = Switch h' s' k /\ k_proc s' !! 2%nat = Some y /\
    p_static_priority y = 15 /\ p_niceness y = 5 /\ p_sleep_time y = 0.
Proof.
  apply (dispatch_overwrites_priority 2 demo_second).
  - reflexivity.
  - split; reflexivity.
  - apply not_elem_of_nil.
  - intros i y Hy Hp. destruct i as [|[|[|i]]]; [| |reflexivity|].
    + injection Hy as <-. discriminate Hp.
    + injection Hy as <-. discriminate Hp.
    + apply lookup_replicate in Hy as [-> _]. discriminate Hp.
Defined.
