(* ===== verification/ProcProps.v ===== *)
(** * ProcProps

    What the operations on processes in kernel/proc.c do: giving up the CPU, sleeping
    and waking, and killing. *)
From stdpp Require Import base tactics list numbers gmap strings.
From S2P Require Import Prelude Machine Spinlock Printf Bytes Queue Kalloc Vm Kernel Proc.
From S2P Require Import ProcFacts Discipline Balance KernelInv Examples Scheduler.

Section sched.
Context `{Layout} `{Symbols} `{WaitFuel}.
Implicit Types (s : kernel) (h : hart).

(** What sched does after it is resumed. *)
Definition sched_tail (intena : bool) : K kernel unit :=
  h <- get_hart;; put_hart (set_h_intena intena h).

(** sched with exactly the lock of the process held gives up the CPU. *)
Lemma sched_run p x h s :
  hart_wf h -> at_switch p h -> k_proc s !! p = Some x -> p_state x <> RUNNING ->
  sched h s = Switch h s (sched_tail (h_intena h)).
Proof.
  intros Hwf (Hp & Hh & Hn & Hs) Hx Hr. unfold sched.
  assert (Es : settle h = h) by (unfold settle; by rewrite Hn).
  krun (curproc_run h s p Hwf Hp). rewrite Es. rewrite (bind_done _ _ _ _ _ _ _ (holding_run (L_proc p) h s)).
  rewrite Hh, bool_decide_eq_true_2 by set_solver. cbn [negb]. ksimpl.
  rewrite Hn, Z.eqb_refl. cbn [negb].
  rewrite (bind_pget _ _ _ _ _ x Hx). rewrite decide_False by done.
  unfold intr_get. ksimpl. by rewrite Hs.
Qed.

(** The hart once the lock of its process is released. *)
Definition resumed (intena : bool) (g : hart) : hart := Hart (h_tp g) (h_proc g) 0 intena intena [].

Lemma release_resumed p g intena s :
  at_switch p g -> release (L_proc p) (set_h_intena intena g) s = Done tt (resumed intena g) s.
Proof.
  intros (Hp & Hh & Hn & Hs). destruct g as [tp pr noff ie sie held]. simpl in *. subst.
  unfold release, holding, get_hart, put_hart, bind, ret; simpl.
  rewrite bool_decide_eq_true_2 by set_solver. simpl. rewrite filter_cons_False by (intros Hc; by apply Hc).
  unfold pop_off, intr_get, intr_on, get_hart, put_hart, bind, when, ret; simpl. by destruct intena.
Qed.

Lemma at_switch_locked p h : h_proc h = Some p -> h_held h = [] -> h_noff h = 0 -> at_switch p (locked (L_proc p) h).
Proof. intros Hp Hh Hn. unfold at_switch, locked, pushed. simpl. by rewrite Hp, Hh, Hn. Qed.

(** The continuation of a thread that called sched: it gets the CPU back on hart [g]. *)
Lemma yield_run p x h s :
  h_proc h = Some p -> h_held h = [] -> h_noff h = 0 -> k_proc s !! p = Some x ->
  exists g k, yield h s = Switch g (upd_proc p (set_p_state RUNNABLE) s) k /\ at_switch p g /\
    forall g' s', at_switch p g' -> k g' s' = Done tt (resumed (h_sie h) g') s'.
Proof.
  intros Hp Hh Hn Hx. assert (Hwf : hart_wf h) by (constructor; rewrite ?Hh, ?Hn; simpl; [lia|lia|constructor]).
  unfold yield. krun (curproc_run h s p Hwf Hp).
  assert (Hnl : L_proc p ∉ h_held (settle h)) by (rewrite settle_held, Hh; apply not_elem_of_nil).
  krun (acquire_run (L_proc p) (settle h) s Hnl). ksimpl. rewrite locked_settle.
  assert (Ha := at_switch_locked p h Hp Hh Hn).
  assert (Es : sched (locked (L_proc p) h) (upd_proc p (set_p_state RUNNABLE) s) =
    Switch (locked (L_proc p) h) (upd_proc p (set_p_state RUNNABLE) s) (sched_tail (h_sie h))).
  { rewrite (sched_run p (set_p_state RUNNABLE x)); [|by apply wf_locked; [|rewrite Hh; apply not_elem_of_nil]
      |done|by apply upd_proc_lookup|done]. simpl. by rewrite Hn. }
  krun Es. do 2 eexists. split_and!; [done|done|]. intros g' s' Hg. unfold sched_tail. ksimpl.
  by apply release_resumed.
Qed.

Lemma sleep_run ch lk p x h s :
  h_proc h = Some p -> h_held h = [lk] -> h_noff h = 1 -> h_sie h = false -> lk <> L_proc p ->
  k_proc s !! p = Some x ->
  exists g k, sleep ch lk h s =
      Switch g (upd_proc p (fun x => set_p_state SLEEPING (set_p_chan (Some ch) x)) s) k /\ at_switch p g /\
    forall g' s', at_switch p g' ->
      k g' s' = Done tt (locked lk (resumed (h_intena h) g')) (upd_proc p (set_p_chan None) s').
Proof.
  intros Hp Hh Hn Hs Hne Hx.
  assert (Hwf : hart_wf h) by (constructor; rewrite ?Hh, ?Hn; simpl; [lia|done|apply NoDup_singleton]).
  unfold sleep. krun (curproc_run h s p Hwf Hp).
  assert (Es : settle h = h) by (unfold settle; by rewrite Hn). rewrite Es.
  assert (Hnl : L_proc p ∉ h_held h) by (rewrite Hh; set_solver).
  krun (acquire_run (L_proc p) h s Hnl).
  set (g := Hart (h_tp h) (Some p) 1 (h_intena h) false [L_proc p]).
  assert (Er : release lk (locked (L_proc p) h) s = Done tt g s).
  { destruct h as [tp pr noff ie sie held]. simpl in *. subst.
    unfold release, holding, get_hart, put_hart, bind, ret; simpl.
    rewrite bool_decide_eq_true_2 by set_solver. simpl.
    rewrite filter_cons_True, filter_cons_False by (congruence || (intros Hc; by apply Hc)).
    unfold pop_off, intr_get, intr_on, get_hart, put_hart, bind, when, ret; simpl. done. }
  krun Er. ksimpl. rewrite upd_proc_comp. set (s1 := upd_proc p _ s).
  assert (Ha : at_switch p g) by done.
  assert (Esched : sched g s1 = Switch g s1 (sched_tail (h_intena h))).
  { change (h_intena h) with (h_intena g). eapply (sched_run p); [constructor; simpl; [lia|done|apply NoDup_singleton]|done|by apply upd_proc_lookup|done]. }
  krun Esched. do 2 eexists. split_and!; [done|done|]. intros g' s' Hg. unfold sched_tail. ksimpl.
  krun (release_resumed p g' (h_intena h) (upd_proc p (set_p_chan None) s') Hg).
  apply acquire_run. apply not_elem_of_nil.
Qed.

End sched.


(** wakeup makes exactly those processes runnable that sleep on the channel, except
    the caller's own; nothing else in the kernel changes, and the hart keeps its
    locks and its interrupt state. *)
Theorem wakeup_exact `{Layout} `{Symbols} `{WaitFuel} (ch : chan) (h : hart) (s : kernel) :
  hart_wf h -> procs_free h -> length (k_proc s) = NPROC ->
  exists s', wakeup ch h s = Done tt (settle h) s' /\
    (exists procs, s' = set_k_proc procs s) /\
    forall i x, k_proc s !! i = Some x ->
      k_proc s' !! i =
        Some (if bool_decide (p_state x = SLEEPING /\ p_chan x = Some ch /\ h_proc h <> Some i)
              then set_p_state RUNNABLE x else x).
Proof.
  intros Hwf Hf Hl. eexists. split_and!; [by apply wakeup_run|by eexists|].
  intros i x Hx. simpl. unfold woken. rewrite list_lookup_imap, Hx. simpl. f_equal. unfold wake_one.
  repeat case_bool_decide; simpl; naive_solver.
Qed.

(** ** kill *)

Section kill.
Context `{Layout} `{Symbols} `{WaitFuel}.
Implicit Types (s : kernel) (h : hart).

(** A hart that holds no lock of a process. *)
Definition no_proc_lock (h : hart) : Prop := forall i, L_proc i ∉ h_held h.

Definition killed_one (x : proc) : proc :=
  let x' := set_p_killed 1 x in if bool_decide (p_state x = SLEEPING) then set_p_state RUNNABLE x' else x'.

Lemma kill_run pid h s :
  hart_wf h -> no_proc_lock h -> length (k_proc s) = NPROC ->
  exists h', calm h h' /\
    kill pid h s = match List.find (has_pid pid s) (upto NPROC) with
                   | Some i => Done 0 h' (upd_proc i killed_one s)
                   | None => Done (-1) h' s
                   end.
Proof.
  intros Hwf Hn Hl. unfold kill.
  set (body := fun p : nat => _ : K kernel (option Z)).
  assert (Hbody : forall i g x, calm h g -> k_proc s !! i = Some x -> body i g s =
    if p_pid x =? pid then Done (Some 0) (settle h) (upd_proc i killed_one s) else Done None (settle h) s).
  { intros i g x Hg Hx. unfold body.
    assert (Hni : L_proc i ∉ h_held g) by (rewrite (calm_held h g Hg); apply Hn).
    assert (Hgwf : hart_wf g) by (by eapply calm_wf).
    krun (acquire_run (L_proc i) g s Hni). rewrite (bind_pget _ _ _ _ _ x Hx). unfold id.
    destruct (p_pid x =? pid).
    - ksimpl. destruct (bool_decide _) eqn:Es; ksimpl.
      all: rewrite (bind_done _ _ _ _ _ _ _ (release_run (L_proc i) g _ _ Hgwf Hni (calm_refl _))).
      all: rewrite (settle_calm h g Hg); ksimpl; rewrite ?upd_proc_comp; f_equal.
      all: eapply upd_proc_ext; [done|]; unfold killed_one; by rewrite Es.
    - rewrite (bind_done _ _ _ _ _ _ _ (release_run (L_proc i) g _ s Hgwf Hni (calm_refl _))).
      by rewrite (settle_calm h g Hg). }
  assert (Hlook : forall i, i ∈ upto NPROC -> is_Some (k_proc s !! i)).
  { intros i Hi%elem_of_upto. apply lookup_lt_is_Some_2. lia. }
  pose proof (forM_exit_find (has_pid pid s) (upto NPROC) body h s) as Hfind.
  destruct (List.find _ _) as [i|] eqn:Ef.
  - destruct Hfind as (post & g & Hg & E).
    { intros i' g Hi' Hp Hg. destruct (Hlook i' Hi') as [x Hx]. exists (settle h).
      split; [|apply calm_settle]. rewrite (Hbody i' g x Hg Hx). unfold has_pid in Hp. rewrite Hx in Hp. by rewrite Hp. }
    apply find_some in Ef as [Hin Hp]. unfold has_pid in Hp. destruct (k_proc s !! i) as [x|] eqn:Hx; [|done].
    exists (settle h). split; [apply calm_settle|]. rewrite (bind_eq _ _ _ _ _ _ _ E), bind_assoc.
    pose proof (Hbody i g x Hg Hx) as Eb. rewrite Hp in Eb. krun Eb. by ksimpl.
  - destruct Hfind as (g & E & Hg).
    { intros i' g Hi' Hp Hg. destruct (Hlook i' Hi') as [x Hx]. exists (settle h).
      split; [|apply calm_settle]. rewrite (Hbody i' g x Hg Hx). unfold has_pid in Hp. rewrite Hx in Hp. by rewrite Hp. }
    exists g. split; [done|]. by krun E.
Qed.

Lemma find_first (P : nat -> bool) n i :
  List.find P (upto n) = Some i -> forall j, (j < i)%nat -> P j = false.
Proof.
  unfold upto. cut (forall a, List.find P (seq a n) = Some i -> forall j, (a <= j < i)%nat -> P j = false).
  { intros Hc E j Hj. apply (Hc 0%nat); [done|lia]. }
  induction n as [|n IH]; intros a; simpl; [done|]. destruct (P a) eqn:Ea.
  - intros [= <-] j. lia.
  - intros E j Hj. destruct (decide (j = a)) as [->|]; [done|]. apply (IH (S a)); [done|lia].
Qed.

End kill.

(** kill marks the first process with the pid as killed and, if it sleeps, makes
    it runnable so that it notices; it returns 0 and touches no other process. When no
    process has the pid it returns -1 and changes nothing. *)
Theorem kill_marks_process `{Layout} `{Symbols} `{WaitFuel} (pid : Z) (h : hart) (s : kernel) :
  hart_wf h -> no_proc_lock h -> length (k_proc s) = NPROC ->
  exists r h' s', kill pid h s = Done r h' s' /\ calm h h' /\
    ((r = 0 /\ exists i x y, k_proc s !! i = Some x /\ p_pid x = pid /\
        (forall j z, (j < i)%nat -> k_proc s !! j = Some z -> p_pid z <> pid) /\
        k_proc s' !! i = Some y /\ p_killed y = 1 /\ p_pid y = pid /\
        p_state y = (if decide (p_state x = SLEEPING) then RUNNABLE else p_state x) /\
        forall j, j <> i -> k_proc s' !! j = k_proc s !! j) \/
     (r = -1 /\ s' = s /\ forall j z, k_proc s !! j = Some z -> p_pid z <> pid)).
Proof.
  intros Hwf Hn Hl. destruct (kill_run pid h s Hwf Hn Hl) as (h' & Hc & E).
  destruct (List.find _ _) as [i|] eqn:Ef; rewrite E; do 3 eexists; (split_and!; [done|done|]).
  - left. split; [done|]. pose proof (find_first _ _ _ Ef) as Hfirst. apply find_some in Ef as [_ Hp].
    unfold has_pid in Hp. destruct (k_proc s !! i) as [x|] eqn:Hx; [|done]. apply Z.eqb_eq in Hp.
    exists i, x, (killed_one x).
    split_and!; [done|done| |by apply upd_proc_lookup|..]; try (unfold killed_one; by case_bool_decide).
    + intros j z Hj Hz. specialize (Hfirst j Hj). unfold has_pid in Hfirst. rewrite Hz in Hfirst. by apply Z.eqb_neq.
    + unfold killed_one. case_bool_decide; by case_decide.
    + intros j Hj. by apply upd_proc_lookup_ne.
  - right. split_and!; [done|done|]. intros j z Hz. apply Z.eqb_neq.
    pose proof (find_none _ _ Ef j) as Hj. unfold has_pid in Hj. rewrite Hz in Hj. apply Hj.
    apply list_elem_of_In, elem_of_upto. rewrite <-Hl. by eapply lookup_lt_Some.
Qed.

(** ** Examples *)

(** Process 0 in sys_sleep, about to wait for the next tick. *)
Definition demo_sleeper : hart := Hart 0 (Some 0%nat) 1 true false [L_ticks].
Definition demo_asleep : kernel := upd_proc 0 (fun x => set_p_state SLEEPING (set_p_chan (Some Ch_ticks) x)) demo_kernel.


Lemma wakeup_exact_witness :
  exists s', wakeup Ch_ticks (demo_hart 1) demo_asleep = Done tt (settle (demo_hart 1)) s' /\
    p_state <$> k_proc s' !! 0%nat = Some RUNNABLE /\ k_proc s' !! 1%nat = Some zero_proc.
Proof.
  destruct (wakeup_exact Ch_ticks (demo_hart 1) demo_asleep (demo_hart_wf 1)) as (s' & E & _ & Hx).
  - intros i Hi. by apply not_elem_of_nil in Hi.
  - reflexivity.
  - exists s'. split; [exact E|]. split; [|exact (Hx 1%nat zero_proc eq_refl)].
    rewrite (Hx 0%nat _ eq_refl). reflexivity.
Defined.

Lemma kill_marks_process_witness :
  exists h' s' y, kill 7 (demo_hart 1) demo_asleep = Done 0 h' s' /\ k_proc s' !! 0%nat = Some y /\
    p_killed y = 1 /\ p_state y = RUNNABLE.
Proof.
  destruct (kill_marks_process 7 (demo_hart 1) demo_asleep (demo_hart_wf 1)) as (r & h' & s' & E & _ & Hr).
  - intros i Hi. by apply not_elem_of_nil in Hi.
  - reflexivity.
  - destruct Hr as [(-> & i & x & y & Hx & Hp & _ & Hy & Hk & _ & Hs & _)|(_ & _ & Hn)].
    + assert (i = 0%nat) as ->.
      { destruct i as [|i]; [reflexivity|]. apply lookup_replicate in Hx as [-> _]. discriminate Hp. }
      exists h', s', y. split; [exact E|]. split; [exact Hy|]. split; [exact Hk|].
      rewrite Hs. injection Hx as <-. reflexivity.
    + destruct (Hn 0%nat _ eq_refl). reflexivity.
Defined.
