(* ===== verification/ProcMem.v ===== *)
(** * ProcMem

    The memory of a process in kernel/proc.c: the page table proc_pagetable builds,
    its release by proc_freepagetable and freeproc, and allocproc, which leaves
    nothing behind when memory runs out. *)
From stdpp Require Import base tactics list numbers gmap strings.
From S2P Require Import Prelude Machine Spinlock Printf Bytes Queue Kalloc Vm Pagetable VmSpec.
From S2P Require Import UserMem UserFree VmProps Kernel Proc ProcFacts Discipline Balance KernelInv.
From S2P Require Import Examples Scheduler ProcProps.

Section procmem.
Context `{LayoutOk} `{Symbols} `{WaitFuel}.
Implicit Types (s : kernel) (h : hart) (t : pm).

(** The address space of a process: [n] pages of user memory from 0, the trapframe
    [tf] and the trampoline at the top, readable by the kernel only, nothing else. *)
Record pspace (t : pm) (root : Z) (ps fl : list Z) (n : nat) (tf : Z) : Prop := {
  ps_user : uspace t root ps fl n;
  ps_tramp : forall va, TRAMPOLINE <= va < MAXVA -> entry (pm_mem t) root va = leaf l_trampoline PERM_RX;
  ps_tf : forall va, TRAPFRAME <= va < TRAMPOLINE -> entry (pm_mem t) root va = leaf tf PERM_RW;
}.

(** A table without user pages. *)
Lemma uspace_empty t root ps fl :
  vm_state t root ps fl -> (forall va, 0 <= va < TRAPFRAME -> entry (pm_mem t) root va = 0) ->
  (forall va, TRAPFRAME <= va < MAXVA -> has (entry (pm_mem t) root va) PTE_U = false) ->
  uspace t root ps fl 0.
Proof.
  intros Hv Hz Hk. constructor; [done|intros; lia|constructor|constructor| | |done|done].
  - intros p Hp. by apply elem_of_nil in Hp.
  - rewrite TRAPFRAME_MAXVA, MAXVA_eq. unfold PGSIZE. lia.
Qed.

(** uvmfree of a table with no mapping gives back its pages. *)
Lemma uvmfree_empty t root ps fl h :
  kmem_ready h -> vm_state t root ps fl -> (forall va, 0 <= va < MAXVA -> entry (pm_mem t) root va = 0) ->
  exists h' t' fl', uvmfree root 0 h t = Done tt h' t' /\ calm h h' /\ free_list t' fl' /\
    fl' ≡ₚ ps ++ fl /\ same_outside ps (pm_mem t) (pm_mem t') /\ mem_ok (pm_mem t').
Proof.
  intros Hh Hv Hz. pose proof TRAPFRAME_MAXVA as Ht. pose proof (eq_refl : PGSIZE = 4096) as Hpg.
  assert (U : uspace t root ps fl (npages 0)).
  { apply uspace_empty; [done|intros; apply Hz; lia|]. intros va Hva. rewrite Hz; [apply has_0|].
    rewrite MAXVA_eq in *. lia. }
  destruct (uvmfree_run t root ps fl 0 h Hh U) as (h' & t' & fl' & E & Hc & Hf & Hp & Ho & Hm).
  - rewrite Ht, MAXVA_eq. lia.
  - intros va Hva. apply Hz. rewrite Ht, MAXVA_eq in *. lia.
  - exists h', t', fl'. split_and!; auto. by rewrite app_nil_r in Ho.
Qed.

Lemma page_index_top va : 0 <= va < MAXVA ->
  (va / PGSIZE = TRAMPOLINE / PGSIZE <-> TRAMPOLINE <= va) /\
  (va / PGSIZE = TRAPFRAME / PGSIZE <-> TRAPFRAME <= va < TRAMPOLINE).
Proof. unfold TRAPFRAME, TRAMPOLINE. rewrite MAXVA_eq. unfold PGSIZE. intros Hva. split; zlia. Qed.

Lemma pa_ok_trampoline : pa_ok l_trampoline.
Proof. destruct trampoline_frame. split; [done|lia]. Qed.

(** The tables on the way to the top two pages. *)
Definition top_paths : list (list Z) := [[]; [255]; [255; 511]].

Lemma top_path va π : TRAPFRAME <= va < MAXVA -> π `prefix_of` path_of va -> π ∈ top_paths.
Proof.
  unfold TRAPFRAME, TRAMPOLINE. rewrite MAXVA_eq. unfold PGSIZE. intros Hva [l Hl].
  assert (E : path_of va = [255; 511]) by (unfold path_of; rewrite !PX_eq by lia; do 2 f_equal; zlia).
  rewrite E in Hl. unfold top_paths. destruct π as [|a [|b [|c π]]]; [left| | |discriminate Hl].
  - injection Hl as <- _. right. left.
  - injection Hl as <- <- _. right. right. left.
Qed.

(** What proc_pagetable leaves in memory: a new address space, or, when three pages at
    most are free, the free pages it found. *)
Definition built (t0 : pm) (fl : list Z) (tf r : Z) (t : pm) : Prop :=
  (r <> 0 /\ exists ps fl', pspace t r ps fl' 0 tf /\ (length ps <= 3)%nat /\ fl ≡ₚ ps ++ fl' /\
     same_outside ps (pm_mem t0) (pm_mem t)) \/
  (r = 0 /\ (length fl <= 3)%nat /\ exists fl', free_list t fl' /\ mem_ok (pm_mem t) /\ fl' ≡ₚ fl /\
     same_outside fl (pm_mem t0) (pm_mem t)).

Lemma grow_track root t1 ps1 fl1 t2 ps2 fl2 m0 fl :
  vm_grow root t1 ps1 fl1 t2 ps2 fl2 -> fl ≡ₚ ps1 ++ fl1 -> same_outside ps1 m0 (pm_mem t1) ->
  fl ≡ₚ ps2 ++ fl2 /\ same_outside ps2 m0 (pm_mem t2).
Proof.
  intros G Hall Ho. destruct (vg_pages _ _ _ _ _ _ _ G) as (new & -> & Hps). split.
  - rewrite Hall, Hps. by rewrite (Permutation_app_comm new ps1), <-app_assoc.
  - eapply same_outside_trans; [|apply (vg_outside _ _ _ _ _ _ _ G)].
    eapply same_outside_mono; [|exact Ho]. apply (vg_mono _ _ _ _ _ _ _ G).
Qed.

(** Giving up: the table has no mapping left. *)
Lemma abandon_run t root ps fl1 m0 fl h s :
  kmem_ready h -> vm_state t root ps fl1 -> (forall va, 0 <= va < MAXVA -> entry (pm_mem t) root va = 0) ->
  fl ≡ₚ ps ++ fl1 -> same_outside ps m0 (pm_mem t) ->
  exists h' t', (in_pm (uvmfree root 0);; ret 0) h (set_k_pm t s) = Done 0 h' (set_k_pm t' s) /\ calm h h' /\
    exists fl', free_list t' fl' /\ mem_ok (pm_mem t') /\ fl' ≡ₚ fl /\ same_outside fl m0 (pm_mem t').
Proof.
  intros Hh Hv Hz Hall Ho. destruct (uvmfree_empty t root ps fl1 h Hh Hv Hz) as (h' & t' & fl' & E & Hc & Hf & Hp & Ho' & Hm).
  exists h', t'. krun (in_pm_run (uvmfree root 0) h (set_k_pm t s) tt h' t' E). split_and!; [done|done|].
  exists fl'. split_and!; [done|done|by rewrite Hp|].
  eapply same_outside_mono; [|eapply same_outside_trans; [exact Ho|exact Ho']].
  intros x Hx. rewrite Hall. apply elem_of_app. by left.
Qed.

(** The second mapping, once the trampoline is in place. *)
Lemma map_trapframe_run t2 q ps2 fl2 tf m0 fl h s :
  kmem_ready h -> vm_state t2 q ps2 fl2 -> q <> 0 -> page_ok tf ->
  (forall va, 0 <= va < MAXVA -> entry (pm_mem t2) q va =
    if decide (TRAMPOLINE <= va) then leaf l_trampoline PERM_RX else 0) ->
  (forall π p, vpath π -> reach (pm_mem t2) q π = Some p -> π ∈ top_paths) ->
  fl ≡ₚ ps2 ++ fl2 -> same_outside ps2 m0 (pm_mem t2) ->
  exists r h' t, (r <- in_pm (mappages q TRAPFRAME PGSIZE tf (Z.lor PTE_R PTE_W));;
    if r <? 0 then in_pm (uvmunmap q TRAMPOLINE 1 false);; in_pm (uvmfree q 0);; ret 0 else ret q)
      h (set_k_pm t2 s) = Done r h' (set_k_pm t s) /\ calm h h' /\
    ((r <> 0 /\ exists ps fl', pspace t r ps fl' 0 tf /\ (length ps <= 3)%nat /\ fl ≡ₚ ps ++ fl' /\ same_outside ps m0 (pm_mem t)) \/
     (r = 0 /\ (length fl <= 3)%nat /\ exists fl', free_list t fl' /\ mem_ok (pm_mem t) /\ fl' ≡ₚ fl /\ same_outside fl m0 (pm_mem t))).
Proof.
  intros Hh Hv Hq0 Htf He Htop Hall Ho. pose proof TRAPFRAME_MAXVA as Ht. pose proof MAXVA_eq as Hmax.
  pose proof (eq_refl : PGSIZE = 4096) as Hpg. assert (Htr : TRAMPOLINE = MAXVA - PGSIZE) by done.
  destruct PERM_range as [Hrx Hrw].
  destruct (mappages_page q ps2 fl2 TRAPFRAME tf PERM_RW h t2) as (r3 & h3 & t3 & ps3 & fl3 & E3 & Hc3 & G3 & S3 & Hr3); auto.
  { rewrite He by lia. rewrite decide_False by lia. apply has_0. }
  destruct (grow_track _ _ _ _ _ _ _ m0 fl G3) as [Hall3 Ho3]; [done|done|].
  assert (Hh3 : kmem_ready h3) by (by eapply kmem_ready_calm).
  assert (Hl3 : (length ps3 <= 3)%nat).
  { apply (tables_bound t3 q ps3 fl3 top_paths); [apply G3|]. intros π p' Hvπ Hr.
    destruct (S3 π p' Hvπ Hr) as [[p2 Hr2]|(va & Hva & Hpre)]; [by eapply Htop|]. eapply top_path, Hpre.
    clear -Hva Ht Hmax Hpg. rewrite Ht, Hmax, Hpg in *. zlia. }
  krun (in_pm_run _ h (set_k_pm t2 s) r3 h3 t3 E3). change (set_k_pm t3 (set_k_pm t2 s)) with (set_k_pm t3 s).
  destruct Hr3 as [[-> He3]|(-> & -> & He3)];
    [change (0 <? 0) with false|change (-1 <? 0) with true]; cbv iota.
  - exists q, h3, t3. split_and!; [done|done|]. left. split; [done|]. exists ps3, fl3. split_and!; [|done|done|done].
    assert (He3' : forall va, 0 <= va < MAXVA -> entry (pm_mem t3) q va =
      if decide (TRAPFRAME <= va < TRAMPOLINE) then leaf tf PERM_RW
      else if decide (TRAMPOLINE <= va) then leaf l_trampoline PERM_RX else 0).
    { intros va Hva. rewrite He3, He by done. destruct (page_index_top va Hva) as [_ Hi].
      repeat case_decide; tauto. }
    constructor; [apply uspace_empty; [apply G3|..]|..]; intros va Hva; rewrite He3' by lia;
      repeat case_decide; try lia; auto.
    + rewrite has_leaf; [done|by apply page_ok_pa|done|vm_compute; intuition discriminate].
    + rewrite has_leaf; [done|apply pa_ok_trampoline|done|vm_compute; intuition discriminate].
  - destruct (uvmunmap_run q ps3 [] TRAMPOLINE 1 false h3 t3) as (h4 & t4 & E4 & Hc4 & Hv4 & Ho4 & He4); auto.
    { apply G3. }
    { rewrite Htr, Hmax. lia. }
    { rewrite Htr. lia. }
    { intros i Hi. assert (i = 0) as -> by lia. rewrite Z.mul_0_l, Z.add_0_r, He3, He by lia.
      rewrite decide_True by lia. split; [apply has_V_leaf; [apply pa_ok_trampoline|done]|].
      rewrite PTE_FLAGS_leaf; [done|apply pa_ok_trampoline|done]. }
    { by intros. }
    change (Z.of_nat 1) with 1 in E4. krun (in_pm_run _ h3 (set_k_pm t3 s) tt h4 t4 E4).
    destruct (abandon_run t4 q ps3 [] m0 fl h4 s) as (h5 & t5 & E5 & Hc5 & Hres); auto.
    { by eapply kmem_ready_calm. }
    { intros va Hva. rewrite He4 by done. unfold unmap_range. rewrite He3, He by done.
      repeat case_decide; try done; lia. }
    { eapply same_outside_trans; [exact Ho3|]. by rewrite app_nil_r in Ho4. }
    assert (Hlen : (length fl <= 3)%nat) by (by rewrite Hall3, app_nil_r).
    exists 0, h5, t5. split_and!; [exact E5|eauto with xv6|by right].
Qed.

Lemma proc_pagetable_run p x h s fl :
  kmem_ready h -> free_list (k_pm s) fl -> mem_ok (pm_mem (k_pm s)) -> k_proc s !! p = Some x ->
  page_ok (p_trapframe x) ->
  exists r h' t, proc_pagetable p h s = Done r h' (set_k_pm t s) /\ calm h h' /\
    built (k_pm s) fl (p_trapframe x) r t.
Proof.
  intros Hh Hf Hm Hx Htf. unfold proc_pagetable, built.
  pose proof (uvmcreate_run h (k_pm s) fl Hh Hf Hm) as Hcr. destruct fl as [|q fl].
  { krun (in_pm_run uvmcreate h s 0 (settle h) (k_pm s) Hcr). exists 0, (settle h), (k_pm s).
    split_and!; [done|auto with xv6|]. right. split; [done|]. split; [simpl; lia|]. exists [].
    split_and!; auto using same_outside_refl. }
  destruct Hcr as (t1 & E1 & U1 & Ho1 & Hz1). krun (in_pm_run uvmcreate h s q (settle h) t1 E1).
  assert (Hq0 : q <> 0) by (by apply (free_list_head _ _ _ Hf)).
  destruct (Z.eqb_spec q 0) as [|_]; [done|].
  pose proof TRAPFRAME_MAXVA as Ht. pose proof MAXVA_eq as Hmax. pose proof (eq_refl : PGSIZE = 4096) as Hpg.
  assert (Htr : TRAMPOLINE = MAXVA - PGSIZE) by done.
  destruct PERM_range as [Hrx Hrw]. destruct trampoline_frame as [Hta Htp].
  destruct (mappages_frame q [q] fl TRAMPOLINE l_trampoline PERM_RX (settle h) t1)
    as (r2 & h2 & t2 & ps2 & fl2 & E2 & Hc2 & G2 & S2 & Hr2); auto.
  { by apply kmem_ready_settle. }
  { apply U1. }
  { rewrite Hz1. apply has_0. }
  destruct (grow_track _ _ _ _ _ _ _ (pm_mem (k_pm s)) (q :: fl) G2) as [Hall2 Ho2]; [done|done|].
  assert (Hh2 : kmem_ready h2) by (eapply kmem_ready_calm; [exact Hc2|by apply kmem_ready_settle]).
  assert (Hcc2 : calm h h2) by eauto with xv6.
  assert (Htop : forall π p, vpath π -> reach (pm_mem t2) q π = Some p -> π ∈ top_paths).
  { intros π p' Hvπ Hr. destruct (S2 π p' Hvπ Hr) as [[p1 Hr1]|(va & Hva & Hpre)].
    - rewrite (root_only _ _ _ _ (vs_own _ _ _ _ (us_vm _ _ _ _ _ U1)) Hvπ Hr1). left.
    - eapply top_path, Hpre. clear -Hva Ht Hmax Hpg Htr. rewrite Ht, Htr, Hmax, Hpg in *. zlia. }
  krun (in_pm_run _ (settle h) (set_k_pm t1 s) r2 h2 t2 E2). change (set_k_pm t2 (set_k_pm t1 s)) with (set_k_pm t2 s).
  destruct Hr2 as [[-> He2]|(-> & -> & He2)].
  2:{ change (-1 <? 0) with true. cbv iota. destruct (abandon_run t2 q ps2 [] (pm_mem (k_pm s)) (q :: fl) h2 s)
        as (h3 & t3 & E3 & Hc3 & Hres); auto; [apply G2|intros va Hva; by rewrite He2, Hz1|].
      assert (Hlen : (length (q :: fl) <= 3)%nat) by (rewrite Hall2, app_nil_r; apply (tables_bound t2 q ps2 [] top_paths); [apply G2|done]).
      exists 0, h3, t3. split_and!; [exact E3|eauto with xv6|by right]. }
  change (0 <? 0) with false. cbv iota. rewrite (bind_pget _ _ _ _ _ x) by done.
  assert (Htop2 : forall va, 0 <= va < MAXVA -> entry (pm_mem t2) q va =
    if decide (TRAMPOLINE <= va) then leaf l_trampoline PERM_RX else 0).
  { intros va Hva. rewrite He2, Hz1 by done. destruct (page_index_top va Hva) as [Hi _].
    repeat case_decide; tauto. }
  destruct (map_trapframe_run t2 q ps2 fl2 (p_trapframe x) (pm_mem (k_pm s)) (q :: fl) h2 s)
    as (r & h3 & t3 & E3 & Hc3 & Hb); auto; [apply G2|].
  exists r, h3, t3. split_and!; [exact E3|eauto with xv6|exact Hb].
Qed.

(** ** Release *)

(** The top two pages of the table do not matter to the image. *)
Lemma uspace_below t t' root ps fl n :
  uspace t root ps fl n -> vm_state t' root ps fl ->
  (forall va, 0 <= va < TRAPFRAME -> entry (pm_mem t') root va = entry (pm_mem t) root va) ->
  (forall va, TRAPFRAME <= va < MAXVA -> has (entry (pm_mem t') root va) PTE_U = false) ->
  uspace t' root ps fl n /\ upages (pm_mem t') root 0 n = upages (pm_mem t) root 0 n.
Proof.
  intros [Hv Hl Hok Hnd Hd Hb Ht Hk] Hv' He Hk'.
  assert (E : upages (pm_mem t') root 0 n = upages (pm_mem t) root 0 n).
  { apply upages_same; [done|]. intros va Hva. apply He. lia. }
  split; [|done]. constructor; rewrite ?E; auto.
  - intros i Hi. rewrite He; [by apply Hl|]. unfold PGSIZE in *. lia.
  - intros va Hva. rewrite He; [by apply Ht|]. unfold PGSIZE in *. lia.
Qed.

Lemma is_leaf_leaf pa perm : pa_ok pa -> 0 <= perm < 2 ^ 10 -> Z.lor perm PTE_V <> PTE_V -> is_leaf (leaf pa perm).
Proof. intros Hpa Hp Hne. split; [by apply has_V_leaf|by rewrite PTE_FLAGS_leaf]. Qed.

(** Taking one of the two top pages out of a table. *)
Lemma unmap_top t root ps fl n va pa perm h :
  kmem_ready h -> uspace t root ps fl n -> (va = TRAMPOLINE \/ va = TRAPFRAME) ->
  entry (pm_mem t) root va = leaf pa perm -> pa_ok pa -> 0 <= perm < 2 ^ 10 -> Z.lor perm PTE_V <> PTE_V ->
  exists h' t', uvmunmap root va 1 false h t = Done tt h' t' /\ calm h h' /\ uspace t' root ps fl n /\
    upages (pm_mem t') root 0 n = upages (pm_mem t) root 0 n /\ same_outside ps (pm_mem t) (pm_mem t') /\
    forall x, 0 <= x < MAXVA -> entry (pm_mem t') root x = unmap_range (entry (pm_mem t) root) va 1 x.
Proof.
  intros Hh U Hva He Hpa Hperm Hne. pose proof TRAPFRAME_MAXVA as Ht. pose proof MAXVA_eq as Hmax.
  pose proof (eq_refl : PGSIZE = 4096) as Hpg. assert (Htr : TRAMPOLINE = MAXVA - PGSIZE) by done.
  assert (Hb : TRAPFRAME <= va <= TRAMPOLINE) by lia.
  destruct (uvmunmap_run root ps fl va 1 false h t) as (h' & t' & E & Hc & Hv' & Ho & He'); auto.
  - apply U.
  - destruct Hva as [-> | ->]; [done|]. rewrite Ht, Hmax, Hpg. done.
  - lia.
  - lia.
  - intros i Hi. assert (i = 0) as -> by lia. rewrite Z.mul_0_l, Z.add_0_r, He. by apply is_leaf_leaf.
  - by intros.
  - exists h', t'. rewrite app_nil_r in Ho. change (Z.of_nat 1) with 1 in *.
    destruct (uspace_below t t' root ps fl n U) as [U' Hu]; [exact Hv'|..].
    + intros x Hx. rewrite He' by lia. unfold unmap_range. rewrite decide_False by lia. done.
    + intros x Hx. rewrite He' by lia. unfold unmap_range. case_decide; [apply has_0|]. by apply (us_kernel _ _ _ _ _ U).
    + by split_and!.
Qed.

Lemma proc_freepagetable_run t root ps fl sz tf h s :
  kmem_ready h -> pspace t root ps fl (npages sz) tf -> page_ok tf -> 0 <= sz <= TRAPFRAME ->
  exists h' t' fl', proc_freepagetable root sz h (set_k_pm t s) = Done tt h' (set_k_pm t' s) /\ calm h h' /\
    free_list t' fl' /\ fl' ≡ₚ all_pages (pm_mem t) root ps fl (npages sz) /\
    same_outside (ps ++ upages (pm_mem t) root 0 (npages sz)) (pm_mem t) (pm_mem t') /\ mem_ok (pm_mem t').
Proof.
  intros Hh [U Htr Htf] Hok Hsz. destruct PERM_range as [Hrx Hrw]. pose proof TRAPFRAME_MAXVA as Ht.
  pose proof MAXVA_eq as Hmax. pose proof (eq_refl : PGSIZE = 4096) as Hpg.
  assert (Hta : TRAMPOLINE = MAXVA - PGSIZE) by done. unfold proc_freepagetable.
  destruct (unmap_top t root ps fl (npages sz) TRAMPOLINE l_trampoline PERM_RX h)
    as (h1 & t1 & E1 & Hc1 & U1 & Hu1 & Ho1 & He1); auto; [apply Htr; lia|apply pa_ok_trampoline|].
  krun (in_pm_run _ h (set_k_pm t s) tt h1 t1 E1).
  assert (Hh1 : kmem_ready h1) by (by eapply kmem_ready_calm).
  destruct (unmap_top t1 root ps fl (npages sz) TRAPFRAME tf PERM_RW h1)
    as (h2 & t2 & E2 & Hc2 & U2 & Hu2 & Ho2 & He2); auto.
  { rewrite He1 by lia. unfold unmap_range. rewrite decide_False by lia. apply Htf. lia. }
  { by apply page_ok_pa. }
  krun (in_pm_run _ h1 (set_k_pm t1 (set_k_pm t s)) tt h2 t2 E2).
  destruct (uvmfree_run t2 root ps fl sz h2) as (h3 & t3 & fl' & E3 & Hc3 & Hf3 & Hp3 & Ho3 & Hm3); auto.
  { by eapply kmem_ready_calm. }
  { intros va Hva. rewrite He2 by lia. unfold unmap_range. case_decide; [done|].
    rewrite He1 by lia. unfold unmap_range. rewrite decide_True by lia. done. }
  exists h3, t3, fl'. rewrite (in_pm_run _ h2 (set_k_pm t2 (set_k_pm t1 (set_k_pm t s))) tt h3 t3 E3).
  rewrite Hu2, Hu1 in Ho3. split_and!; [done|eauto with xv6|done| | |done].
  - rewrite Hp3. unfold all_pages. by rewrite Hu2, Hu1.
  - eapply same_outside_trans; [|exact Ho3]. eapply same_outside_mono; [|eapply same_outside_trans; [exact Ho1|exact Ho2]].
    intros x Hx. apply elem_of_app. by left.
Qed.

(** The pages [own] a process holds: its trapframe, and its page table with its image. *)
Inductive owns (t : pm) (fl : list Z) (x : proc) : list Z -> Prop :=
| owns_nothing :
    p_trapframe x = 0 -> p_pagetable x = 0 -> free_list t fl -> mem_ok (pm_mem t) -> owns t fl x []
| owns_trapframe :
    page_ok (p_trapframe x) -> p_trapframe x ∉ fl -> p_pagetable x = 0 -> free_list t fl ->
    mem_ok (pm_mem t) -> owns t fl x [p_trapframe x]
| owns_space ps :
    page_ok (p_trapframe x) -> p_trapframe x ∉ fl -> p_trapframe x ∉ ps ->
    p_trapframe x ∉ upages (pm_mem t) (p_pagetable x) 0 (npages (p_sz x)) ->
    p_pagetable x <> 0 -> 0 <= p_sz x <= TRAPFRAME ->
    pspace t (p_pagetable x) ps fl (npages (p_sz x)) (p_trapframe x) ->
    owns t fl x (p_trapframe x :: ps ++ upages (pm_mem t) (p_pagetable x) 0 (npages (p_sz x))).

(** The slot after freeproc. *)
Definition freed_slot (x : proc) : proc :=
  set_p_state UNUSED (set_p_xstate 0 (set_p_killed 0 (set_p_chan None
    (set_p_name (<[0%nat := 0]> (p_name x)) (set_p_parent None (set_p_pid 0 (set_p_sz 0
      (set_p_pagetable 0 (set_p_trapframe 0 x))))))))).

Definition freeproc_rest (p : nat) : K kernel unit :=
  pset p (set_p_pagetable 0);;
  pset p (set_p_sz 0);;
  pset p (set_p_pid 0);;
  pset p (set_p_parent None);;
  pset p (fun x => set_p_name (<[0%nat := 0]> (p_name x)) x);;
  pset p (set_p_chan None);;
  pset p (set_p_killed 0);;
  pset p (set_p_xstate 0);;
  pset p (set_p_state UNUSED).

(** freeproc once the trapframe is gone: without a page table, or with one. *)
Lemma freeproc_tail_none p x h t s :
  k_proc s !! p = Some x -> p_pagetable x = 0 ->
  (pagetable <- pget p p_pagetable;; sz <- pget p p_sz;;
   when (truthy pagetable) (proc_freepagetable pagetable sz);; freeproc_rest p)
    h (upd_proc p (set_p_trapframe 0) (set_k_pm t s)) = Done tt h (upd_proc p freed_slot (set_k_pm t s)).
Proof.
  intros Hx Hpt. rewrite !(bind_pget _ _ _ _ _ (set_p_trapframe 0 x)) by (by apply upd_proc_lookup).
  change (p_pagetable (set_p_trapframe 0 x)) with (p_pagetable x). rewrite Hpt. unfold freeproc_rest. ksimpl.
  by rewrite !upd_proc_comp.
Qed.

Lemma freeproc_tail_space p x h t s ps fl :
  kmem_ready h -> k_proc s !! p = Some x -> p_pagetable x <> 0 -> 0 <= p_sz x <= TRAPFRAME ->
  page_ok (p_trapframe x) -> pspace t (p_pagetable x) ps fl (npages (p_sz x)) (p_trapframe x) ->
  exists h' t' fl', (pagetable <- pget p p_pagetable;; sz <- pget p p_sz;;
   when (truthy pagetable) (proc_freepagetable pagetable sz);; freeproc_rest p)
    h (upd_proc p (set_p_trapframe 0) (set_k_pm t s)) = Done tt h' (upd_proc p freed_slot (set_k_pm t' s)) /\
    calm h h' /\ free_list t' fl' /\ fl' ≡ₚ all_pages (pm_mem t) (p_pagetable x) ps fl (npages (p_sz x)) /\
    mem_ok (pm_mem t').
Proof.
  intros Hh Hx Hpt Hsz Hok Hps. rewrite !(bind_pget _ _ _ _ _ (set_p_trapframe 0 x)) by (by apply upd_proc_lookup).
  change (p_pagetable (set_p_trapframe 0 x)) with (p_pagetable x). change (p_sz (set_p_trapframe 0 x)) with (p_sz x).
  unfold truthy. destruct (Z.eqb_spec (p_pagetable x) 0); [done|]. cbn [negb when].
  destruct (proc_freepagetable_run t (p_pagetable x) ps fl (p_sz x) (p_trapframe x) h
    (upd_proc p (set_p_trapframe 0) s)) as (h' & t' & fl' & E & Hc & Hf & Hp & _ & Hm); auto.
  exists h', t', fl'. change (upd_proc p (set_p_trapframe 0) (set_k_pm t s))
    with (set_k_pm t (upd_proc p (set_p_trapframe 0) s)). krun E. split_and!; auto.
  unfold freeproc_rest. ksimpl. change (set_k_pm t' (upd_proc p (set_p_trapframe 0) s))
    with (upd_proc p (set_p_trapframe 0) (set_k_pm t' s)). by rewrite !upd_proc_comp.
Qed.

Lemma freeproc_run p x h s fl own :
  kmem_ready h -> k_proc s !! p = Some x -> owns (k_pm s) fl x own ->
  exists h' t' fl', freeproc p h s = Done tt h' (upd_proc p freed_slot (set_k_pm t' s)) /\ calm h h' /\
    free_list t' fl' /\ fl' ≡ₚ own ++ fl /\ mem_ok (pm_mem t').
Proof.
  intros Hh Hx Hown. unfold freeproc. rewrite (bind_pget _ _ _ _ _ x Hx). fold (freeproc_rest p).
  assert (Hfree : page_ok (p_trapframe x) ->
    when (truthy (p_trapframe x)) (in_pm (kfree (p_trapframe x))) h s =
    Done tt (settle h) (set_k_pm (freed (p_trapframe x) (k_pm s)) s)).
  { intros Hok. pose proof (page_ok_pos _ Hok) as Hpos. unfold truthy.
    destruct (Z.eqb_spec (p_trapframe x) 0); [lia|]. cbn [negb when]. destruct Hh as [Hwf Hk].
    apply in_pm_run. by apply kfree_run. }
  assert (Hh' : kmem_ready (settle h)) by (by apply kmem_ready_settle).
  destruct Hown as [Htf Hpt Hf Hm|Hok Hn Hpt Hf Hm|ps Hok Hnf Hnp Hnu Hpt Hsz Hps].
  - rewrite Htf. ksimpl. exists h, (k_pm s), fl.
    replace (upd_proc p (set_p_trapframe 0) s) with (upd_proc p (set_p_trapframe 0) (set_k_pm (k_pm s) s)) by (by destruct s).
    rewrite (freeproc_tail_none p x) by done. by split_and!; auto using calm_refl.
  - krun (Hfree Hok). ksimpl. rewrite (freeproc_tail_none p x) by done.
    do 3 eexists. split_and!; [done|auto with xv6|by apply freed_list|done|by apply freed_ok].
  - krun (Hfree Hok). ksimpl. destruct Hps as [U Htr Htfe].
    destruct (uspace_kfree (k_pm s) (p_pagetable x) ps fl (npages (p_sz x)) (p_trapframe x) h)
      as (_ & U' & He & _); auto.
    destruct (freeproc_tail_space p x (settle h) (freed (p_trapframe x) (k_pm s)) s ps (p_trapframe x :: fl))
      as (h' & t' & fl' & E & Hc & Hf & Hp & Hm); auto.
    { constructor; [done|..]; intros; rewrite He; auto. }
    exists h', t', fl'. split_and!; [exact E|eauto with xv6|done| |done]. rewrite Hp. unfold all_pages.
    rewrite (upages_same (pm_mem (k_pm s))); [|apply U|intros; apply He].
    simpl. rewrite <-app_assoc, !app_assoc. by rewrite Permutation_middle.
Qed.

(** ** Allocation *)

Definition is_unused (s : kernel) (i : nat) : bool :=
  match k_proc s !! i with Some x => bool_decide (p_state x = UNUSED) | None => false end.

Lemma locked_calm lk h g : calm h g -> locked lk g = locked lk h.
Proof. intros [-> | ->]; [done|apply locked_settle]. Qed.

Lemma find_unused_run h s :
  hart_wf h -> no_proc_lock h -> length (k_proc s) = NPROC ->
  match List.find (is_unused s) (upto NPROC) with
  | Some p => find_unused h s = Done (Some p) (locked (L_proc p) h) s
  | None => exists g, find_unused h s = Done None g s /\ calm h g
  end.
Proof.
  intros Hwf Hn Hl. unfold find_unused. set (body := fun p : nat => _ : K kernel (option nat)).
  assert (Hbody : forall i g x, calm h g -> k_proc s !! i = Some x -> body i g s =
    if decide (p_state x = UNUSED) then Done (Some i) (locked (L_proc i) h) s else Done None (settle h) s).
  { intros i g x Hg Hx. unfold body.
    assert (Hni : L_proc i ∉ h_held g) by (rewrite (calm_held h g Hg); apply Hn).
    krun (acquire_run (L_proc i) g s Hni). rewrite (bind_pget _ _ _ _ _ x Hx), (locked_calm _ h g Hg).
    case_decide; [done|].
    rewrite (bind_done _ _ _ _ _ _ _ (release_run (L_proc i) h _ s Hwf (Hn i) (calm_refl _))). done. }
  pose proof (forM_exit_find (is_unused s) (upto NPROC) body h s) as Hfind.
  assert (Hskip : forall i g, i ∈ upto NPROC -> is_unused s i = false -> calm h g ->
    exists g', body i g s = Done None g' s /\ calm h g').
  { intros i g Hi Hu Hg. apply elem_of_upto in Hi.
    destruct (lookup_lt_is_Some_2 (k_proc s) i) as [x Hx]; [lia|]. exists (settle h).
    split; [|apply calm_settle]. rewrite (Hbody i g x Hg Hx). unfold is_unused in Hu. rewrite Hx in Hu.
    bool_to_prop. by rewrite decide_False. }
  specialize (Hfind Hskip). destruct (List.find _ _) as [i|] eqn:Ef; [|done].
  destruct Hfind as (post & g & Hg & E). rewrite E. apply find_some in Ef as [_ Hu].
  unfold is_unused in Hu. destruct (k_proc s !! i) as [x|] eqn:Hx; [|done]. bool_to_prop.
  pose proof (Hbody i g x Hg Hx) as Eb. rewrite decide_True in Eb by done. by krun Eb.
Qed.

Lemma allocpid_run h s :
  hart_wf h -> L_pid ∉ h_held h ->
  allocpid h s = Done (k_nextpid s) (settle h) (set_k_nextpid (i32 (k_nextpid s + 1)) s).
Proof.
  intros Hwf Hn. unfold allocpid. krun (acquire_run L_pid h s Hn). ksimpl.
  by rewrite (bind_done _ _ _ _ _ _ _ (release_run L_pid h _ _ Hwf Hn (calm_refl _))).
Qed.

(** The slot that allocproc fills, before and after it has memory. *)
Definition used_slot (pid ticks : Z) (x : proc) : proc :=
  set_p_dynamic_priority 60 (set_p_static_priority 60 (set_p_niceness 5 (set_p_rtime 0
    (set_p_ctime (i32 ticks) (set_p_state USED (set_p_pid pid x)))))).
Definition ready_slot (pid ticks tf pagetable : Z) (x : proc) : proc :=
  set_p_context_sp (p_kstack x + PGSIZE) (set_p_context_ra sym_forkret
    (set_p_pagetable pagetable (set_p_trapframe tf (used_slot pid ticks x)))).

(** What allocproc does once it has found slot [p]. *)
Definition allocproc_rest (p : nat) : K kernel (option nat) :=
  tf <- in_pm kalloc;;
  pset p (set_p_trapframe tf);;
  if tf =? 0 then freeproc p;; release (L_proc p);; ret None else
  pagetable <- proc_pagetable p;;
  pset p (set_p_pagetable pagetable);;
  if pagetable =? 0 then freeproc p;; release (L_proc p);; ret None else
  kstack <- pget p p_kstack;;
  pset p (set_p_context_ra sym_forkret);;
  pset p (set_p_context_sp (kstack + PGSIZE));;
  ret (Some p).

Lemma allocproc_split p x h s :
  hart_wf h -> no_proc_lock h -> L_pid ∉ h_held h -> length (k_proc s) = NPROC -> k_proc s !! p = Some x ->
  List.find (is_unused s) (upto NPROC) = Some p ->
  allocproc h s = allocproc_rest p (locked (L_proc p) h)
    (upd_proc p (used_slot (k_nextpid s) (k_ticks s)) (set_k_nextpid (i32 (k_nextpid s + 1)) s)).
Proof.
  intros Hwf Hn Hpid Hl Hx Hf. unfold allocproc. pose proof (find_unused_run h s Hwf Hn Hl) as Hu.
  rewrite Hf in Hu. krun Hu. rewrite (bind_done _ _ _ _ _ _ _ (allocpid_run (locked (L_proc p) h) s
    (wf_locked _ _ Hwf (Hn p)) ltac:(simpl; set_solver))). rewrite (locked_noff _ _ Hwf).
  ksimpl. rewrite !upd_proc_comp. done.
Qed.

(** The failure path: the slot is freed and its lock released. *)
Lemma allocproc_fail p x h g s fl own :
  kmem_ready h -> L_proc p ∉ h_held h -> calm (locked (L_proc p) h) g ->
  k_proc s !! p = Some x -> owns (k_pm s) fl x own ->
  exists t fl', (freeproc p;; release (L_proc p);; ret (@None nat)) g s =
      Done None (settle h) (upd_proc p freed_slot (set_k_pm t s)) /\
    free_list t fl' /\ fl' ≡ₚ own ++ fl /\ mem_ok (pm_mem t).
Proof.
  intros [Hwf Hk] Hn Hg Hx Ho. destruct (freeproc_run p x g s fl own) as (h' & t & fl' & E & Hc & Hf & Hp & Hm); auto.
  { eapply kmem_ready_calm; [exact Hg|]. split; [by apply wf_locked|]. simpl. set_solver. }
  exists t, fl'. krun E. split_and!; auto.
  assert (Hr := release_run (L_proc p) h h' (upd_proc p freed_slot (set_k_pm t s)) Hwf Hn
    (calm_trans _ _ _ Hg Hc)). by krun Hr.
Qed.

Lemma allocproc_rest_run p x h s fl :
  kmem_ready h -> L_proc p ∉ h_held h -> k_proc s !! p = Some x -> p_pagetable x = 0 ->
  free_list (k_pm s) fl -> mem_ok (pm_mem (k_pm s)) ->
  exists r h' s', allocproc_rest p (locked (L_proc p) h) s = Done r h' s' /\
   ((r = Some p /\ calm (locked (L_proc p) h) h' /\ exists tf root ps fl' t,
       s' = upd_proc p (fun x => set_p_context_sp (p_kstack x + PGSIZE) (set_p_context_ra sym_forkret
              (set_p_pagetable root (set_p_trapframe tf x)))) (set_k_pm t s) /\
       pspace t root ps fl' 0 tf /\ (length ps <= 3)%nat /\ fl ≡ₚ tf :: ps ++ fl' /\ root <> 0 /\ page_ok tf /\ same_outside (tf :: ps) (pm_mem (k_pm s)) (pm_mem t)) \/
    (r = None /\ (length fl <= 4)%nat /\ h' = settle h /\ exists t fl', s' = upd_proc p freed_slot (set_k_pm t s) /\
       free_list t fl' /\ fl' ≡ₚ fl /\ mem_ok (pm_mem t))).
Proof.
  intros Hh Hn Hx Hpt Hf Hm. assert (Hg : kmem_ready (locked (L_proc p) h)).
  { destruct Hh. split; [by apply wf_locked|]. simpl. set_solver. }
  destruct Hg as [Hgwf Hgk]. unfold allocproc_rest. pose proof (kalloc_run _ _ _ Hf Hgwf Hgk) as Ek.
  assert (Eg : settle (locked (L_proc p) h) = locked (L_proc p) h) by (apply locked_noff; apply Hh).
  rewrite Eg in Ek. destruct fl as [|tf fl]; krun (in_pm_run _ _ s _ _ _ Ek); ksimpl.
  - change (0 =? 0) with true. cbv iota. replace (set_k_pm (k_pm s) s) with s by (by destruct s).
    destruct (allocproc_fail p (set_p_trapframe 0 x) h (locked (L_proc p) h) (upd_proc p (set_p_trapframe 0) s) [] [])
      as (t & fl' & E & Hf' & Hp & Hm'); auto using calm_refl, upd_proc_lookup; [by apply owns_nothing|].
    rewrite E. do 3 eexists. split; [done|]. right. split_and!; [done|simpl; lia|done|]. exists t, fl'.
    split_and!; auto. change (set_k_pm t (upd_proc p (set_p_trapframe 0) s))
      with (upd_proc p (set_p_trapframe 0) (set_k_pm t s)). by rewrite upd_proc_comp.
  - destruct (free_list_head _ _ _ Hf) as (Hok & Htf0 & Hnf). destruct (Z.eqb_spec tf 0); [done|].
    set (s1 := upd_proc p (set_p_trapframe tf) (set_k_pm (allocd tf (k_pm s)) s)).
    assert (Hx1 : k_proc s1 !! p = Some (set_p_trapframe tf x)) by (by apply upd_proc_lookup).
    destruct (proc_pagetable_run p (set_p_trapframe tf x) (locked (L_proc p) h) s1 fl)
      as (root & g & t & E & Hc & Hb); auto;
      [done|by apply allocd_list|by apply allocd_ok|].
    krun E. ksimpl. simpl in Hb.
    destruct Hb as [(Hr0 & ps & fl' & Hps & Hlps & Hall & Hout)|(-> & Hlen & fl' & Hf' & Hm' & Hall & _)].
    + destruct (Z.eqb_spec root 0); [done|].
      rewrite (bind_pget _ _ _ _ _ (set_p_pagetable root (set_p_trapframe tf x))) by (by apply upd_proc_lookup).
      ksimpl. do 3 eexists. split; [done|]. left. split_and!; [done|done|]. exists tf, root, ps, fl', t.
      split_and!; [|done|done|by rewrite Hall|done|done|].
      2: { eapply same_outside_trans; [eapply same_outside_mono; [|apply allocd_outside]|eapply same_outside_mono; [|exact Hout]].
           - apply singleton_sub. left.
           - intros y Hy. by right. }
      unfold s1. change (set_k_pm t (upd_proc p (set_p_trapframe tf) (set_k_pm (allocd tf (k_pm s)) s)))
        with (upd_proc p (set_p_trapframe tf) (set_k_pm t s)). rewrite !upd_proc_comp.
      by eapply upd_proc_ext.
    + change (0 =? 0) with true. cbv iota. set (s2 := upd_proc p (set_p_pagetable 0) (set_k_pm t s1)).
      destruct (allocproc_fail p (set_p_pagetable 0 (set_p_trapframe tf x)) h g s2 fl' [tf])
        as (t3 & fl3 & E3 & Hf3 & Hp3 & Hm3); auto; [by apply upd_proc_lookup| |].
      { apply (owns_trapframe _ _ (set_p_pagetable 0 (set_p_trapframe tf x))); auto. simpl. by rewrite Hall. }
      rewrite E3. do 3 eexists. split; [done|]. right. split_and!; [done|simpl; lia|done|]. exists t3, fl3.
      split_and!; [|done|by rewrite Hp3, Hall|done]. unfold s2, s1.
      transitivity (upd_proc p freed_slot (upd_proc p (set_p_pagetable 0) (upd_proc p (set_p_trapframe tf)
        (set_k_pm t3 s)))); [reflexivity|by rewrite !upd_proc_comp].
Qed.


(** C23: freeproc gives back every page a process holds, its trapframe, its page table
    and its image, each exactly once, and leaves the slot unused with no trace of the
    process; it touches no other slot. *)
Theorem freeproc_returns_every_page (p : nat) (x : proc) (h : hart) (s : kernel) (fl own : list Z) :
  kmem_ready h -> k_proc s !! p = Some x -> owns (k_pm s) fl x own ->
  exists h' s' fl' y, freeproc p h s = Done tt h' s' /\ calm h h' /\
    free_list (k_pm s') fl' /\ fl' ≡ₚ own ++ fl /\
    k_proc s' !! p = Some y /\ p_state y = UNUSED /\ p_pid y = 0 /\ p_parent y = None /\ p_chan y = None /\
    p_killed y = 0 /\ p_sz y = 0 /\ p_pagetable y = 0 /\ p_trapframe y = 0 /\
    forall i, i <> p -> k_proc s' !! i = k_proc s !! i.
Proof.
  intros Hh Hx Ho. destruct (freeproc_run p x h s fl own Hh Hx Ho) as (h' & t & fl' & E & Hc & Hf & Hp & _).
  exists h', (upd_proc p freed_slot (set_k_pm t s)), fl', (freed_slot x).
  split_and!; [done|done|done|done|by apply upd_proc_lookup|done..|]. intros i Hi. by rewrite upd_proc_lookup_ne.
Qed.

End procmem.

(** ** Examples *)

(** The machine after boot, and with one page given to the process in slot 0. *)
#[local] Opaque demo_boot.

Definition demo_empty : kernel := boot_kernel demo_boot (replicate 64 zero_proc).
Definition demo_half : kernel :=
  boot_kernel (allocd demo_page demo_boot) (set_p_trapframe demo_page (set_p_state USED zero_proc) :: replicate 63 zero_proc).

Lemma demo_no_proc_lock : no_proc_lock (demo_hart 0).
Proof. intros i. apply not_elem_of_nil. Qed.


Lemma freeproc_returns_every_page_witness :
  exists h' s' fl', freeproc 0 (demo_hart 0) demo_half = Done tt h' s' /\
    free_list (k_pm s') fl' /\ fl' ≡ₚ demo_page :: demo_fl.
Proof.
  destruct demo_boot_free as [Hf Hok]. destruct (free_list_head _ _ _ Hf) as (Hp & _ & Hn).
  destruct (freeproc_returns_every_page 0 (set_p_trapframe demo_page (set_p_state USED zero_proc)) (demo_hart 0)
    demo_half demo_fl [demo_page] demo_ready eq_refl) as (h' & s' & fl' & y & E & _ & Hf' & Hall & _).
  - apply (owns_trapframe _ _ (set_p_trapframe demo_page (set_p_state USED zero_proc)));
      [exact Hp|exact Hn|reflexivity|apply allocd_list; exact Hf|apply allocd_ok; exact Hok].
  - exists h', s', fl'. split; [exact E|]. split; [exact Hf'|exact Hall].
Defined.
