(* ===== verification/PipeProps.v ===== *)
(** * PipeProps

    kernel/pipe.c implements a bounded first-in first-out stream of bytes between the
    memory of the writing process and the memory of the reading one. *)
From stdpp Require Import base tactics list numbers gmap strings.
From S2P Require Import Prelude Machine Spinlock Printf Bytes Block Queue Kalloc Vm Pagetable VmSpec.
From S2P Require Import UserMem UserCopy VmProps Kernel Proc ProcFacts Discipline Balance KernelInv.
From S2P Require Import Pipe Examples Scheduler ProcProps.

(** ** The bytes in a pipe *)

(** The slot of the byte [k] places behind the next one to read. *)
Definition pipe_slot (x : pipe) (k : nat) : nat := Z.to_nat ((pi_nread x + Z.of_nat k) mod PIPESIZE).

(** The pipe holds the bytes [l], oldest first. The counters run modulo 2^32. *)
Record pipe_rep (x : pipe) (l : list Z) : Prop := {
  pr_len : length (pi_data x) = Z.to_nat PIPESIZE;
  pr_nread : 0 <= pi_nread x < 2 ^ 32;
  pr_bound : Z.of_nat (length l) <= PIPESIZE;
  pr_nwrite : pi_nwrite x = u32 (pi_nread x + Z.of_nat (length l));
  pr_data : forall k b, l !! k = Some b -> pi_data x !! pipe_slot x k = Some b;
  pr_bytes : bytes_ok l;
}.

Section rep.
Implicit Types (x : pipe) (l : list Z).

Lemma PIPESIZE_eq : PIPESIZE = 512.
Proof. done. Qed.

Lemma pipe_slot_inj x j k :
  (j < 512)%nat -> (k < 512)%nat -> pipe_slot x j = pipe_slot x k -> j = k.
Proof. unfold pipe_slot. rewrite PIPESIZE_eq. intros Hj Hk E. zlia. Qed.

(** The writer's slot: the counters wrap at a multiple of the size. *)
Lemma pipe_write_slot x l : pipe_rep x l -> Z.to_nat (pi_nwrite x mod PIPESIZE) = pipe_slot x (length l).
Proof.
  intros R. rewrite (pr_nwrite _ _ R). unfold pipe_slot, u32. rewrite PIPESIZE_eq. f_equal.
  change (2 ^ 32) with (512 * 8388608). rewrite Z.rem_mul_r by lia. rewrite Z.mul_comm, Z_mod_plus_full.
  by rewrite Zmod_mod.
Qed.

Lemma pipe_full x l : pipe_rep x l -> (pi_nwrite x =? u32 (pi_nread x + PIPESIZE)) = (Z.of_nat (length l) =? PIPESIZE).
Proof.
  intros R. pose proof (pr_nread _ _ R). pose proof (pr_bound _ _ R). rewrite (pr_nwrite _ _ R), PIPESIZE_eq in *.
  unfold u32. change (2 ^ 32) with 4294967296 in *.
  destruct (Z.eqb_spec (Z.of_nat (length l)) 512) as [->|Hne]; [by rewrite Z.eqb_refl|]. apply Z.eqb_neq. zlia.
Qed.

Lemma pipe_empty x l : pipe_rep x l -> (pi_nread x =? pi_nwrite x) = (Z.of_nat (length l) =? 0).
Proof.
  intros R. pose proof (pr_nread _ _ R). pose proof (pr_bound _ _ R). rewrite (pr_nwrite _ _ R), PIPESIZE_eq in *.
  unfold u32. change (2 ^ 32) with 4294967296 in *. destruct (Z.eqb_spec (Z.of_nat (length l)) 0) as [->|Hne].
  - apply Z.eqb_eq. rewrite Z.add_0_r, Z.mod_small; lia.
  - apply Z.eqb_neq. zlia.
Qed.

(** One byte in. *)
Definition pipe_put (b : Z) (x : pipe) : pipe :=
  set_pi_nwrite (u32 (pi_nwrite x + 1))
    (set_pi_data (<[Z.to_nat (pi_nwrite x mod PIPESIZE) := b]> (pi_data x)) x).

Lemma pipe_rep_put x l b :
  pipe_rep x l -> Z.of_nat (length l) < PIPESIZE -> 0 <= b < 256 -> pipe_rep (pipe_put b x) (l ++ [b]).
Proof.
  intros R Hl Hb. pose proof R as [H1 H2 H3 H4 H5 H6]. rewrite PIPESIZE_eq in *.
  constructor; simpl; rewrite ?length_insert, ?length_app; simpl; [done|done|rewrite PIPESIZE_eq; lia| | |].
  - rewrite H4. unfold u32. rewrite Zplus_mod_idemp_l. f_equal. lia.
  - intros k c Hc. change (pipe_slot (pipe_put b x) k) with (pipe_slot x k). rewrite (pipe_write_slot x l R).
    apply lookup_snoc_Some in Hc as [[Hk Hc]|[-> ->]].
    + rewrite list_lookup_insert_ne; [by apply H5|]. intros E. apply pipe_slot_inj in E; lia.
    + apply list_lookup_insert_eq. rewrite H1. unfold pipe_slot. rewrite PIPESIZE_eq.
      pose proof (Z.mod_pos_bound (pi_nread x + Z.of_nat (length l)) 512). lia.
  - apply Forall_app. split; [done|]. by constructor.
Qed.

(** One byte out. *)
Definition pipe_take (x : pipe) : pipe := set_pi_nread (u32 (pi_nread x + 1)) x.

Lemma pipe_rep_take x b l : pipe_rep x (b :: l) ->
  pi_data x !! Z.to_nat (pi_nread x mod PIPESIZE) = Some b /\ pipe_rep (pipe_take x) l.
Proof.
  intros [H1 H2 H3 H4 H5 H6]. split.
  - pose proof (H5 0%nat b eq_refl) as E. unfold pipe_slot in E. by rewrite Z.add_0_r in E.
  - rewrite PIPESIZE_eq in *. simpl in H3. constructor; simpl; [done| |rewrite PIPESIZE_eq; lia| | |].
    + apply u32_range.
    + rewrite H4. unfold u32. rewrite Zplus_mod_idemp_l. f_equal. simpl. lia.
    + intros k c Hc. pose proof (H5 (S k) c Hc) as E. unfold pipe_slot in *. rewrite PIPESIZE_eq in *. simpl.
      rewrite <-E. f_equal. unfold u32. f_equal. change (2 ^ 32) with (512 * 8388608).
      rewrite <-(Zplus_mod_idemp_l (_ mod _)). rewrite Z.rem_mul_r by lia.
      rewrite (Z.mul_comm 512), Z_mod_plus_full, Zmod_mod, Zplus_mod_idemp_l. f_equal. lia.
    + by inversion H6.
Qed.

End rep.

(** ** Writing *)

Section write.
Context `{LayoutOk} `{Symbols} `{WaitFuel}.
Implicit Types (s : kernel) (h g : hart) (x : pipe) (l : list Z).

Definition upd_pipe (pi : Z) (f : pipe -> pipe) (s : kernel) : kernel :=
  set_k_pipe (alter f pi (k_pipe s)) s.

Lemma bind_pipe_get {A B} pi (f : pipe -> A) (k : A -> K kernel B) h s x :
  k_pipe s !! pi = Some x -> bind (pipe_get pi f) k h s = k (f x) h s.
Proof. intros E. unfold pipe_get, bind, gets. simpl. by rewrite E. Qed.

Lemma bind_pipe_set {B} pi (f : pipe -> pipe) (k : unit -> K kernel B) h s :
  bind (pipe_set pi f) k h s = k tt h (upd_pipe pi f s).
Proof. done. Qed.

Lemma upd_pipe_lookup pi f s x : k_pipe s !! pi = Some x -> k_pipe (upd_pipe pi f s) !! pi = Some (f x).
Proof. intros E. unfold upd_pipe. simpl. by rewrite lookup_alter_eq, E. Qed.

Lemma upd_pipe_comp pi f f' s : upd_pipe pi f' (upd_pipe pi f s) = upd_pipe pi (fun x => f' (f x)) s.
Proof.
  change (set_k_pipe (alter f' pi (alter f pi (k_pipe s))) s = upd_pipe pi (fun x => f' (f x)) s).
  by rewrite alter_alter_eq.
Qed.

(** The process [pr] runs in an address space whose pages are [ps]. *)
Definition in_space (s : kernel) (pr : nat) (root : Z) (ps fl : list Z) (n : nat) : Prop :=
  exists y, k_proc s !! pr = Some y /\ p_pagetable y = root /\ p_killed y = 0 /\ uspace (k_pm s) root ps fl n.

(** One byte of user memory. *)
Lemma copyin_byte root ps fl n va h (t : pm) :
  uspace t root ps fl n -> 0 <= va -> va + 1 < 2 ^ 64 -> accessible (pm_mem t) root va = true ->
  copyin root va 1 h t = Done (0, [umem (pm_mem t) root va]) h t.
Proof.
  intros U Hva Hb Ha. unfold copyin. rewrite (copyin_loop_run t root ps fl n U); [done|done|lia|done|].
  intros x Hx. by replace x with va by lia.
Qed.

(** The rounds that find room, all of them. *)
Lemma pipewrite_rounds m fuel pi pr root ps fl np addr n i g s x l :
  in_space s pr root ps fl np -> k_pipe s !! pi = Some x -> pipe_rep x l -> pi_readopen x <> 0 ->
  Z.of_nat (length l) + Z.of_nat m <= PIPESIZE -> 0 <= i -> i + Z.of_nat m <= n -> 0 <= addr -> addr + n < 2 ^ 64 ->
  (forall va, addr + i <= va < addr + i + Z.of_nat m -> accessible (pm_mem (k_pm s)) root va = true) ->
  exists f, pipewrite_loop (m + fuel) pi pr addr n i g s =
      pipewrite_loop fuel pi pr addr n (i + Z.of_nat m) g (upd_pipe pi f s) /\
    pipe_rep (f x) (l ++ ubytes (pm_mem (k_pm s)) root (addr + i) m) /\
    pi_readopen (f x) = pi_readopen x /\ pi_writeopen (f x) = pi_writeopen x.
Proof.
  revert i s x l. induction m as [|m IH]; intros i s x l Hsp Hx R Hro Hroom Hi Hin Haddr Hn Hacc.
  { exists id. rewrite Z.add_0_r, app_nil_r. split_and!; auto.
    replace (upd_pipe pi id s) with s; [done|]. unfold upd_pipe. rewrite alter_id by done. by destruct s. }
  destruct Hsp as (y & Hy & Hroot & Hkill & U). cbn [pipewrite_loop Nat.add].
  destruct (Z.ltb_spec i n); [|lia]. cbn [negb]. rewrite (bind_pipe_get _ _ _ _ _ x Hx).
  rewrite (bind_pget _ _ _ _ _ y Hy). unfold id. rewrite Hkill. change (truthy 0) with false.
  destruct (Z.eqb_spec (pi_readopen x) 0); [done|]. cbn [orb]. rewrite (pipe_full x l R).
  destruct (Z.eqb_spec (Z.of_nat (length l)) PIPESIZE); [lia|]. rewrite (bind_pget _ _ _ _ _ y Hy), Hroot.
  assert (Ec : copyin root (u64 (addr + i)) 1 g (k_pm s) = Done (0, [umem (pm_mem (k_pm s)) root (addr + i)]) g (k_pm s)).
  { rewrite u64_id by lia. eapply copyin_byte; [done|lia|lia|]. apply Hacc. lia. }
  krun (in_pm_run _ g s _ _ _ Ec). replace (set_k_pm (k_pm s) s) with s by (by destruct s).
  change ((0, [umem (pm_mem (k_pm s)) root (addr + i)]).1 =? -1) with false. cbv iota. simpl head.
  rewrite !bind_pipe_set, upd_pipe_comp. set (b := umem (pm_mem (k_pm s)) root (addr + i)).
  destruct (IH (i + 1) (upd_pipe pi (pipe_put b) s) (pipe_put b x) (l ++ [b])) as (f & E & R' & Hr' & Hw').
  - by exists y.
  - by apply upd_pipe_lookup.
  - apply pipe_rep_put; [done|lia|]. apply U.
  - done.
  - rewrite length_app. simpl. lia.
  - lia.
  - lia.
  - done.
  - done.
  - intros va Hva. apply Hacc. lia.
  - exists (fun x => f (pipe_put b x)). rewrite upd_pipe_comp in E. split_and!; auto.
    + replace (i + Z.of_nat (S m)) with (i + 1 + Z.of_nat m) by lia. exact E.
    + simpl ubytes. fold b. rewrite <-app_assoc in R'. simpl in R'. by rewrite Z.add_assoc in R'.
Qed.

(** [l] becomes the contents of the pipe, and nothing of the kernel but the pipe and
    the states of processes changes. *)
Definition pipe_becomes (pi : Z) (l : list Z) (s s' : kernel) : Prop :=
  exists x' procs, pipe_rep x' l /\
    s' = set_k_proc procs (set_k_pipe (<[pi := x']> (k_pipe s)) s) /\ length procs = length (k_proc s).

Lemma upd_pipe_insert pi f s x : k_pipe s !! pi = Some x -> upd_pipe pi f s = set_k_pipe (<[pi := f x]> (k_pipe s)) s.
Proof.
  intros Hx. unfold upd_pipe. f_equal. apply map_eq. intros j. destruct (decide (j = pi)) as [->|Hne].
  - by rewrite lookup_insert_eq, lookup_alter_eq, Hx.
  - by rewrite lookup_insert_ne, lookup_alter_ne.
Qed.

Lemma pipe_becomes_upd pi f s x l procs :
  k_pipe s !! pi = Some x -> pipe_rep (f x) l -> length procs = length (k_proc s) ->
  pipe_becomes pi l s (set_k_proc procs (upd_pipe pi f s)).
Proof. intros Hx R Hl. exists (f x), procs. split_and!; [done|by rewrite (upd_pipe_insert pi f s x)|done]. Qed.

(** Enough room: the whole buffer goes in. *)
Lemma pipewrite_fits pi pr root ps fl np addr n h s x l :
  in_syscall h pr -> in_space s pr root ps fl np -> length (k_proc s) = NPROC ->
  k_pipe s !! pi = Some x -> pipe_rep x l -> pi_readopen x <> 0 ->
  0 <= n -> Z.of_nat (length l) + n <= PIPESIZE -> 0 <= addr -> addr + n < 2 ^ 64 ->
  (forall va, addr <= va < addr + n -> accessible (pm_mem (k_pm s)) root va = true) ->
  exists s', pipewrite pi addr n h s = Done n (settle h) s' /\
    pipe_becomes pi (l ++ ubytes (pm_mem (k_pm s)) root addr (Z.to_nat n)) s s'.
Proof.
  intros Hs Hsp Hl Hx R Hro Hn Hroom Haddr Hb Hacc. pose proof (in_syscall_wf _ _ Hs) as Hwf.
  destruct (pipewrite_rounds (Z.to_nat n) wait_fuel pi pr root ps fl np addr n 0 (locked (L_pipe pi) h) s x l)
    as (f & E & R' & _); auto; try lia.
  { intros va Hva. apply Hacc. lia. }
  rewrite Z.add_0_r in R'. rewrite Z.add_0_l, Z2Nat.id in E by lia.
  exists (set_k_proc (woken (Ch_nread pi) (Some pr) (k_proc s)) (upd_pipe pi f s)). split.
  - unfold pipewrite. krun (curproc_run h s pr Hwf (proj1 Hs)).
    assert (Hni : L_pipe pi ∉ h_held (settle h)) by (rewrite settle_held; destruct Hs as (_ & -> & _); apply not_elem_of_nil).
    krun (acquire_run (L_pipe pi) (settle h) s Hni). rewrite locked_settle, (bind_eq _ _ _ _ _ _ _ E).
    assert (Eend : pipewrite_loop wait_fuel pi pr addr n n (locked (L_pipe pi) h) (upd_pipe pi f s) =
      Done (inr n) (locked (L_pipe pi) h) (upd_pipe pi f s)).
    { destruct wait_fuel; cbn [pipewrite_loop]; by rewrite Z.ltb_irrefl. }
    krun Eend. by apply (wakeup_release (L_pipe pi) (Ch_nread pi) pr h (upd_pipe pi f s)).
  - eapply pipe_becomes_upd; [done|done|]. apply length_imap.
Qed.

(** Too little room: the pipe is filled, the readers are woken, the writer sleeps. *)
Lemma pipewrite_blocks pi pr root ps fl np addr n h s x l :
  in_syscall h pr -> in_space s pr root ps fl np -> length (k_proc s) = NPROC ->
  k_pipe s !! pi = Some x -> pipe_rep x l -> pi_readopen x <> 0 ->
  PIPESIZE < Z.of_nat (length l) + n -> 0 <= addr -> addr + n < 2 ^ 64 ->
  (forall va, addr <= va < addr + n -> accessible (pm_mem (k_pm s)) root va = true) ->
  let m := (Z.to_nat PIPESIZE - length l)%nat in
  exists g s' k y, pipewrite pi addr n h s = Switch g s' k /\ at_switch pr g /\
    pipe_becomes pi (l ++ ubytes (pm_mem (k_pm s)) root addr m) s s' /\
    k_proc s' !! pr = Some y /\ p_state y = SLEEPING /\ p_chan y = Some (Ch_nwrite pi).
Proof.
  intros Hs Hsp Hl Hx R Hro Hroom Haddr Hb Hacc m. pose proof (in_syscall_wf _ _ Hs) as Hwf.
  pose proof (pr_bound _ _ R) as Hlb. pose proof PIPESIZE_eq as Hps.
  destruct (pipewrite_rounds m (Z.to_nat n - m + wait_fuel) pi pr root ps fl np addr n 0 (locked (L_pipe pi) h) s x l)
    as (f & E & R' & Hr' & _); auto; try (unfold m; lia).
  { intros va Hva. apply Hacc. unfold m in *. lia. }
  rewrite Z.add_0_r in R'. rewrite Z.add_0_l in E.
  replace (m + (Z.to_nat n - m + wait_fuel))%nat with (Z.to_nat n + wait_fuel)%nat in E by (unfold m; lia).
  destruct (syscall_locked (L_pipe pi) h pr Hs ltac:(done)) as (Hgwf & Hgf & Hset & Hgp & Hgh & Hgn & Hgs).
  destruct Hsp as (y & Hy & Hroot & Hkill & U).
  set (s1 := set_k_proc (woken (Ch_nread pi) (Some pr) (k_proc s)) (upd_pipe pi f s)).
  assert (Hy1 : k_proc s1 !! pr = Some y) by (simpl; by rewrite woken_me).
  destruct (sleep_run (Ch_nwrite pi) (L_pipe pi) pr y (locked (L_pipe pi) h) s1) as (g & k & Esl & Hat & _); auto.
  assert (Eloop : exists k', pipewrite_loop (Z.to_nat n - m + wait_fuel) pi pr addr n (Z.of_nat m) (locked (L_pipe pi) h)
    (upd_pipe pi f s) = Switch g (upd_proc pr (fun x : proc => set_p_state SLEEPING (set_p_chan (Some (Ch_nwrite pi)) x)) s1) k').
  { destruct (Z.to_nat n - m + wait_fuel)%nat eqn:Ef; [unfold m in Ef; lia|]. cbn [pipewrite_loop].
    destruct (Z.ltb_spec (Z.of_nat m) n); [|unfold m in *; lia]. cbn [negb].
    rewrite (bind_pipe_get _ _ _ _ _ (f x)) by (by apply upd_pipe_lookup).
    rewrite (bind_pget _ _ _ _ (upd_pipe pi f s) y Hy). unfold id. rewrite Hkill, Hr'. change (truthy 0) with false.
    destruct (Z.eqb_spec (pi_readopen x) 0); [done|]. cbn [orb]. rewrite (pipe_full _ _ R').
    rewrite length_app, length_ubytes. destruct (Z.eqb_spec (Z.of_nat (length l + m)) PIPESIZE); [|unfold m in *; lia].
    pose proof (wakeup_run (Ch_nread pi) _ (upd_pipe pi f s) Hgwf Hgf Hl) as Ew. rewrite Hset, Hgp in Ew. krun Ew.
    fold s1. krun Esl. by eexists. }
  destruct Eloop as [k' Eloop]. unfold pipewrite. krun (curproc_run h s pr Hwf (proj1 Hs)).
  assert (Hni : L_pipe pi ∉ h_held (settle h)) by (rewrite settle_held; destruct Hs as (_ & -> & _); apply not_elem_of_nil).
  krun (acquire_run (L_pipe pi) (settle h) s Hni). rewrite locked_settle, (bind_eq _ _ _ _ _ _ _ E). krun Eloop.
  do 4 eexists. split_and!; [reflexivity|exact Hat| |by apply upd_proc_lookup|done|done].
  apply (pipe_becomes_upd pi f s x _ (alter _ pr (woken (Ch_nread pi) (Some pr) (k_proc s)))); [done|done|].
  rewrite length_alter. apply length_imap.
Qed.

(** ** Reading *)

(** One byte into user memory. *)
Lemma copyout_byte root ps fl n va b h (t : pm) :
  uspace t root ps fl n -> 0 <= b < 256 -> 0 <= va -> va + 1 < 2 ^ 64 - PGSIZE -> accessible (pm_mem t) root va = true ->
  exists t', copyout root va [b] h t = Done 0 h t' /\ uspace t' root ps fl n /\
    (forall a, entry (pm_mem t') root a = entry (pm_mem t) root a) /\
    (forall a, 0 <= a < Z.of_nat n * PGSIZE ->
       umem (pm_mem t') root a = if decide (a = va) then b else umem (pm_mem t) root a).
Proof.
  intros U Hb Hva Hv Ha.
  destruct (copyout_loop_run 1 t root ps fl n va [b] h) as (r & t' & E & U' & He & C); auto.
  simpl length in C. destruct C as [(-> & _ & Hm)|(_ & (a & Hin & Hf) & _)].
  - exists t'. split_and!; auto. intros a Han. rewrite (Hm a Han). destruct (decide (a = va)) as [->|Hne].
    + rewrite decide_True by lia. rewrite Z.sub_diag. by apply u8_id.
    + by rewrite decide_False by lia.
  - replace a with va in Hf by lia. congruence.
Qed.

(** [bs] is stored at [va], and the rest of the address space is as it was. *)
Definition stored (root va : Z) (bs : list Z) (n : nat) (t t' : pm) : Prop :=
  (forall a, entry (pm_mem t') root a = entry (pm_mem t) root a) /\
  forall a, 0 <= a < Z.of_nat n * PGSIZE -> umem (pm_mem t') root a =
    if decide (va <= a < va + Z.of_nat (length bs)) then default 0 (bs !! Z.to_nat (a - va)) else umem (pm_mem t) root a.

Lemma stored_nil root va n t : stored root va [] n t t.
Proof. split; [done|]. intros a Ha. by rewrite decide_False by (simpl; lia). Qed.

Lemma stored_cons root va b bs n t t1 t2 :
  (forall a, entry (pm_mem t1) root a = entry (pm_mem t) root a) ->
  (forall a, 0 <= a < Z.of_nat n * PGSIZE ->
     umem (pm_mem t1) root a = if decide (a = va) then b else umem (pm_mem t) root a) ->
  stored root (va + 1) bs n t1 t2 -> stored root va (b :: bs) n t t2.
Proof.
  intros He Hm [He2 Hm2]. split; [intros a; by rewrite He2, He|]. intros a Ha. rewrite (Hm2 a Ha), (Hm a Ha).
  simpl length. destruct (decide (a = va)) as [->|Hne].
  - rewrite decide_False, decide_True by lia. by rewrite Z.sub_diag.
  - destruct (decide (va + 1 <= a < va + 1 + Z.of_nat (length bs))).
    + rewrite decide_True by lia. replace (Z.to_nat (a - va)) with (S (Z.to_nat (a - (va + 1)))) by lia. done.
    + by rewrite decide_False by lia.
Qed.

(** The rounds that find a byte, all of them. *)
Lemma piperead_rounds bs k pi pr root ps fl np addr i g s x l :
  in_space s pr root ps fl np -> k_pipe s !! pi = Some x -> pipe_rep x (bs ++ l) ->
  0 <= i -> 0 <= addr -> addr + i + Z.of_nat (length bs) < 2 ^ 64 - PGSIZE ->
  (forall va, addr + i <= va < addr + i + Z.of_nat (length bs) -> accessible (pm_mem (k_pm s)) root va = true) ->
  exists f t', piperead_loop (length bs + k) pi pr addr i g s =
      piperead_loop k pi pr addr (i + Z.of_nat (length bs)) g (set_k_pm t' (upd_pipe pi f s)) /\
    uspace t' root ps fl np /\ stored root (addr + i) bs np (k_pm s) t' /\
    pipe_rep (f x) l /\ pi_readopen (f x) = pi_readopen x /\ pi_writeopen (f x) = pi_writeopen x.
Proof.
  revert i s x. induction bs as [|b bs IH]; intros i s x Hsp Hx R Hi Haddr Hb Hacc.
  { destruct Hsp as (y & Hy & Hroot & Hkill & U). exists id, (k_pm s). rewrite Z.add_0_r.
    split_and!; [|done|apply stored_nil|done..].
    replace (set_k_pm (k_pm s) (upd_pipe pi id s)) with s; [done|].
    unfold upd_pipe. rewrite alter_id by done. by destruct s. }
  destruct Hsp as (y & Hy & Hroot & Hkill & U). cbn [piperead_loop length Nat.add].
  rewrite (bind_pipe_get _ _ _ _ _ x Hx). unfold id at 1 2. rewrite (pipe_empty x _ R).
  destruct (Z.eqb_spec (Z.of_nat (length ((b :: bs) ++ l))) 0) as [E|_]; [simpl in E; lia|].
  destruct (pipe_rep_take x b (bs ++ l) R) as [Hd R']. unfold id at 1 2. rewrite Hd. ksimpl.
  rewrite bind_pipe_set. fold pipe_take. rewrite (bind_pget _ _ _ _ (upd_pipe pi pipe_take s) y Hy), Hroot.
  simpl length in *. pose proof (pr_bytes _ _ R) as Hbs. apply Forall_cons in Hbs as [Hbb _].
  destruct (copyout_byte root ps fl np (addr + i) b g (k_pm s)) as (t1 & Ec & U1 & He1 & Hm1); auto;
    [lia|lia|apply Hacc; lia|].
  assert (Ec' : in_pm (copyout root (u64 (addr + i)) [b]) g (upd_pipe pi pipe_take s) =
    Done 0 g (set_k_pm t1 (upd_pipe pi pipe_take s))).
  { rewrite u64_id by (unfold PGSIZE in *; lia). by apply in_pm_run. }
  krun Ec'. change (0 =? -1) with false. cbv iota.
  destruct (IH (i + 1) (set_k_pm t1 (upd_pipe pi pipe_take s)) (pipe_take x)) as (f & t' & E & U' & Hst & R2 & Hr2 & Hw2).
  - by exists y.
  - by apply upd_pipe_lookup.
  - done.
  - lia.
  - done.
  - lia.
  - intros va Hva. unfold accessible. simpl. rewrite He1. apply Hacc. lia.
  - exists (fun x => f (pipe_take x)), t'. split_and!; auto.
    + replace (i + Z.of_nat (S (length bs))) with (i + 1 + Z.of_nat (length bs)) by lia. rewrite E.
      by rewrite <-(upd_pipe_comp pi pipe_take f s).
    + eapply stored_cons; [exact He1|exact Hm1|]. by rewrite <-Z.add_assoc.
Qed.

Lemma piperead_wait_go fuel pi pr g s x l :
  k_pipe s !! pi = Some x -> pipe_rep x l -> l <> [] \/ pi_writeopen x = 0 ->
  piperead_wait fuel pi pr g s = Done true g s.
Proof.
  intros Hx R Hgo. assert (Hb : (pi_nread x =? pi_nwrite x) && truthy (pi_writeopen x) = false).
  { rewrite (pipe_empty x l R). destruct Hgo as [Hl| ->]; [|by rewrite andb_false_r]. by destruct l. }
  destruct fuel; cbn [piperead_wait]; rewrite (bind_pipe_get _ _ _ _ _ x Hx); unfold id; by rewrite Hb.
Qed.

(** Bytes in the pipe, or no writer left: what there is, up to [n] bytes. *)
Lemma piperead_gets pi pr root ps fl np addr n h s x l :
  in_syscall h pr -> in_space s pr root ps fl np -> length (k_proc s) = NPROC ->
  k_pipe s !! pi = Some x -> pipe_rep x l -> l <> [] \/ pi_writeopen x = 0 ->
  0 <= n -> 0 <= addr -> addr + n < 2 ^ 64 - PGSIZE ->
  (forall va, addr <= va < addr + n -> accessible (pm_mem (k_pm s)) root va = true) ->
  exists s' t', piperead pi addr n h s = Done (Z.min n (Z.of_nat (length l))) (settle h) s' /\
    uspace t' root ps fl np /\ stored root addr (take (Z.to_nat n) l) np (k_pm s) t' /\
    pipe_becomes pi (drop (Z.to_nat n) l) (set_k_pm t' s) s'.
Proof.
  intros Hs Hsp Hl Hx R Hgo Hn Haddr Hb Hacc. pose proof (in_syscall_wf _ _ Hs) as Hwf.
  set (bs := take (Z.to_nat n) l). assert (Hbs : Z.of_nat (length bs) = Z.min n (Z.of_nat (length l))).
  { unfold bs. rewrite length_take. lia. }
  destruct (piperead_rounds bs (Z.to_nat n - length bs) pi pr root ps fl np addr 0 (locked (L_pipe pi) h) s x
    (drop (Z.to_nat n) l)) as (f & t' & E & U' & Hst & R' & Hr' & _); auto; try lia.
  { unfold bs. by rewrite take_drop. }
  { intros va Hva. apply Hacc. lia. }
  rewrite Z.add_0_r in Hst. rewrite Z.add_0_l, Hbs in E.
  replace (length bs + (Z.to_nat n - length bs))%nat with (Z.to_nat n) in E by lia.
  set (s1 := set_k_pm t' (upd_pipe pi f s)) in *.
  exists (set_k_proc (woken (Ch_nwrite pi) (Some pr) (k_proc s)) s1), t'. split_and!; [|done|done|].
  - unfold piperead. krun (curproc_run h s pr Hwf (proj1 Hs)).
    assert (Hni : L_pipe pi ∉ h_held (settle h)) by (rewrite settle_held; destruct Hs as (_ & -> & _); apply not_elem_of_nil).
    krun (acquire_run (L_pipe pi) (settle h) s Hni). rewrite locked_settle.
    krun (piperead_wait_go wait_fuel pi pr (locked (L_pipe pi) h) s x l Hx R Hgo). cbn [negb]. rewrite (bind_eq _ _ _ _ _ _ _ E).
    assert (Eend : piperead_loop (Z.to_nat n - length bs) pi pr addr (Z.min n (Z.of_nat (length l))) (locked (L_pipe pi) h) s1 =
      Done (Z.min n (Z.of_nat (length l))) (locked (L_pipe pi) h) s1).
    { destruct (Z.to_nat n - length bs)%nat eqn:Ek; [done|]. cbn [piperead_loop].
      rewrite (bind_pipe_get _ _ _ _ _ (f x)) by (by apply (upd_pipe_lookup pi f s)). unfold id.
      rewrite (pipe_empty _ _ R'). rewrite length_drop. by rewrite (proj2 (Z.eqb_eq _ _)) by lia. }
    krun Eend. by apply (wakeup_release (L_pipe pi) (Ch_nwrite pi) pr h s1).
  - apply (pipe_becomes_upd pi f (set_k_pm t' s) x); [done|done|apply length_imap].
Qed.

(** Nothing in the pipe yet: the reader sleeps. *)
Lemma piperead_blocks pi pr y addr n h s x :
  in_syscall h pr -> k_proc s !! pr = Some y -> p_killed y = 0 ->
  k_pipe s !! pi = Some x -> pipe_rep x [] -> pi_writeopen x <> 0 -> wait_fuel <> 0%nat ->
  exists g k, piperead pi addr n h s =
      Switch g (upd_proc pr (fun y => set_p_state SLEEPING (set_p_chan (Some (Ch_nread pi)) y)) s) k /\ at_switch pr g.
Proof.
  intros Hs Hy Hkill Hx R Hw Hfuel. pose proof (in_syscall_wf _ _ Hs) as Hwf.
  destruct (syscall_locked (L_pipe pi) h pr Hs ltac:(done)) as (Hgwf & Hgf & Hset & Hgp & Hgh & Hgn & Hgs).
  destruct (sleep_run (Ch_nread pi) (L_pipe pi) pr y (locked (L_pipe pi) h) s) as (g & k & Esl & Hat & _); auto.
  unfold piperead. krun (curproc_run h s pr Hwf (proj1 Hs)).
  assert (Hni : L_pipe pi ∉ h_held (settle h)) by (rewrite settle_held; destruct Hs as (_ & -> & _); apply not_elem_of_nil).
  krun (acquire_run (L_pipe pi) (settle h) s Hni). rewrite locked_settle.
  destruct wait_fuel as [|fuel]; [done|]. cbn [piperead_wait]. rewrite !bind_assoc, (bind_pipe_get _ _ _ _ _ x Hx).
  unfold id at 1 2 3. rewrite (pipe_empty _ _ R). unfold truthy at 1. destruct (Z.eqb_spec (pi_writeopen x) 0); [done|].
  change (negb ((Z.of_nat (length (@nil Z)) =? 0) && negb false)) with false. cbv iota.
  rewrite !bind_assoc, (bind_pget _ _ _ _ _ y Hy), Hkill. change (truthy 0) with false.
  cbv iota. rewrite !bind_assoc. krun Esl. by do 2 eexists.
Qed.

(** C24: a pipe is a bounded first-in first-out queue of bytes. A write that fits puts
    the bytes of the caller's buffer behind those in the pipe and returns their number;
    one that does not fit fills the pipe to its 512 bytes and sleeps until a reader makes
    room. A read takes bytes from the front, stores them in the caller's buffer and
    nowhere else, and returns their number, 0 when there is neither a byte nor a writer;
    with no byte but a writer it sleeps. The counters may wrap around. *)
Theorem pipe_is_bounded_queue (pi : Z) (pr : nat) (root : Z) (ps fl : list Z) (np : nat) (addr n : Z) (h : hart)
    (s : kernel) (x : pipe) (l : list Z) :
  in_syscall h pr -> in_space s pr root ps fl np -> length (k_proc s) = NPROC ->
  k_pipe s !! pi = Some x -> pipe_rep x l -> wait_fuel <> 0%nat ->
  0 <= n -> 0 <= addr -> addr + n < 2 ^ 64 - PGSIZE ->
  (forall va, addr <= va < addr + n -> accessible (pm_mem (k_pm s)) root va = true) ->
  (pi_readopen x <> 0 ->
   if decide (Z.of_nat (length l) + n <= PIPESIZE) then
     exists s', pipewrite pi addr n h s = Done n (settle h) s' /\
       pipe_becomes pi (l ++ ubytes (pm_mem (k_pm s)) root addr (Z.to_nat n)) s s'
   else
     exists g s' k y, pipewrite pi addr n h s = Switch g s' k /\ at_switch pr g /\
       pipe_becomes pi (l ++ ubytes (pm_mem (k_pm s)) root addr (Z.to_nat PIPESIZE - length l)) s s' /\
       k_proc s' !! pr = Some y /\ p_state y = SLEEPING /\ p_chan y = Some (Ch_nwrite pi)) /\
  (l <> [] \/ pi_writeopen x = 0 ->
   exists s' t', piperead pi addr n h s = Done (Z.min n (Z.of_nat (length l))) (settle h) s' /\
     uspace t' root ps fl np /\ stored root addr (take (Z.to_nat n) l) np (k_pm s) t' /\
     pipe_becomes pi (drop (Z.to_nat n) l) (set_k_pm t' s) s') /\
  (l = [] -> pi_writeopen x <> 0 ->
   exists g k, piperead pi addr n h s =
     Switch g (upd_proc pr (fun y => set_p_state SLEEPING (set_p_chan (Some (Ch_nread pi)) y)) s) k /\ at_switch pr g).
Proof.
  intros Hs Hsp Hl Hx R Hw Hn Ha Hb Hacc. split_and!.
  - intros Hro. destruct (decide _).
    + eapply pipewrite_fits; eauto. unfold PGSIZE in *; lia.
    + eapply pipewrite_blocks; eauto; unfold PGSIZE in *; lia.
  - intros Hgo. by eapply piperead_gets.
  - intros -> Hwo. destruct Hsp as (y & Hy & _ & Hkill & _). by eapply piperead_blocks.
Qed.

End write.

(** ** Example *)

(** A process with one page of memory, and an empty pipe about to wrap its counters. *)
#[local] Opaque demo_as1.

Definition demo_pipe : pipe := Pipe (replicate 512 0) (2 ^ 32 - 1) (2 ^ 32 - 1) 1 1.
Definition demo_piped : kernel :=
  set_k_pipe {[ demo_page := demo_pipe ]}
    (boot_kernel demo_as1 (set_p_pagetable demo_page demo_running :: replicate 63 zero_proc)).

Lemma demo_pipe_rep : pipe_rep demo_pipe [].
Proof. constructor; [reflexivity|simpl; lia|simpl; unfold PIPESIZE; lia|reflexivity|intros k b E; discriminate E|constructor]. Qed.

Lemma pipe_is_bounded_queue_witness :
  exists s' x', pipewrite demo_page 8 5 demo_user_hart demo_piped = Done 5 (settle demo_user_hart) s' /\
    k_pipe s' !! demo_page = Some x' /\ pipe_rep x' (ubytes (pm_mem demo_as1) demo_page 8 5).
Proof.
  destruct demo_grown as (ps & fl & G).
  destruct (pipe_is_bounded_queue demo_page 0 demo_page ps fl 1 8 5 demo_user_hart demo_piped demo_pipe [])
    as [Hw _].
  - split; [reflexivity|split; reflexivity].
  - exists (set_p_pagetable demo_page demo_running). split; [reflexivity|]. split; [reflexivity|].
    split; [reflexivity|]. exact (gr_space _ _ _ _ _ _ _ _ _ G).
  - reflexivity.
  - apply lookup_insert_eq.
  - exact demo_pipe_rep.
  - discriminate.
  - lia.
  - lia.
  - unfold PGSIZE. lia.
  - intros va Hva. apply demo_accessible. unfold PGSIZE. lia.
  - specialize (Hw ltac:(discriminate)). rewrite decide_True in Hw by (unfold PIPESIZE; simpl; lia).
    destruct Hw as (s' & E & x' & procs & R & -> & _). eexists _, x'. split; [exact E|].
    split; [apply lookup_insert_eq|exact R].
Defined.
