(* ===== verification/System.v ===== *)
(** * System

    The machine as a whole: harts that run the scheduler or a process, processes that
    are suspended in the kernel, and the steps between the points at which a hart is in
    user space or at the top of the loop of scheduler(). A step runs one trap, one
    round of the scheduler or one interrupt on one hart, with the switches that
    kernel/swtch.S makes in between; the steps of different harts interleave in any
    order. *)
From stdpp Require Import base tactics list numbers gmap strings relations.
From S2P Require Import Prelude Machine Spinlock Printf Bytes Block Queue Kalloc Vm Kernel Proc ProcFacts.
From S2P Require Import Discipline Balance KernelInv KernelBalance Sleeplock Virtio Bio Log Fs.
From S2P Require Import Console Pipe File Fork Exec Sysfile Trap Examples KernelProps Scheduler.

(** ** States *)

(** The rest of a process's kernel code, and the rest of a round of the scheduler. *)
Abbreviation uthread := (hart -> kernel -> outcome kernel userret).
Abbreviation sthread := (hart -> kernel -> outcome kernel unit).

(** A hart is at the top of the scheduler's loop, or in user space running [p]; then
    [k] is the scheduler, suspended on its own stack. *)
Inductive mode := Idle | Runs (p : nat) (k : sthread).

Record cpu := Cpu { c_hart : hart; c_mode : mode }.

(** [sy_parked] are the processes suspended in sched(). *)
Record system := System {
  sy_kernel : kernel;
  sy_cpus : list cpu;
  sy_parked : gmap nat uthread;
}.

Section system.
Context `{Layout} `{Symbols} `{WaitFuel} `{Uninit} `{UninitTrace} (pol : policy).
Implicit Types (s : kernel) (h g : hart) (y : system) (m : gmap nat uthread).

(** ** Steps *)

(** swtch to a process: it goes on where it called sched(), or it is new and starts at
    forkret(). *)
Definition resume (sstatus satp : Z) (m : gmap nat uthread) (p : nat) : uthread :=
  match m !! p with
  | Some t => t
  | None => forkret sstatus satp
  end.

(** A zombie never runs again. *)
Definition park (p : nat) (t : uthread) (s : kernel) (m : gmap nat uthread) : gmap nat uthread :=
  if decide (k_states s !! p = Some ZOMBIE) then delete p m else <[p := t]> m.

Inductive step : system -> system -> Prop :=
  | step_idle c h s cpus m h' s' :
      cpus !! c = Some (Cpu h Idle) -> scheduler_body pol h s = Done tt h' s' ->
      step (System s cpus m) (System s' (<[c := Cpu h' Idle]> cpus) m)
  | step_run c h s cpus m g s1 k p r1 r2 u h' s' :
      cpus !! c = Some (Cpu h Idle) -> scheduler_body pol h s = Switch g s1 k -> h_proc g = Some p ->
      resume r1 r2 m p g s1 = Done u h' s' ->
      step (System s cpus m) (System s' (<[c := Cpu h' (Runs p k)]> cpus) (delete p m))
  | step_run_park c h s cpus m g s1 k p r1 r2 g' s2 t h' s' :
      cpus !! c = Some (Cpu h Idle) -> scheduler_body pol h s = Switch g s1 k -> h_proc g = Some p ->
      resume r1 r2 m p g s1 = Switch g' s2 t -> k g' s2 = Done tt h' s' ->
      step (System s cpus m) (System s' (<[c := Cpu h' Idle]> cpus) (park p t s' m))
  | step_trap c h s cpus m p k r u h' s' :
      cpus !! c = Some (Cpu h (Runs p k)) -> usertrap pol r h s = Done u h' s' ->
      step (System s cpus m) (System s' (<[c := Cpu h' (Runs p k)]> cpus) m)
  | step_trap_park c h s cpus m p k r g s1 t h' s' :
      cpus !! c = Some (Cpu h (Runs p k)) -> usertrap pol r h s = Switch g s1 t -> k g s1 = Done tt h' s' ->
      step (System s cpus m) (System s' (<[c := Cpu h' Idle]> cpus) (park p t s' m))
  | step_interrupt c h s cpus m r u h' s' :
      cpus !! c = Some (Cpu h Idle) -> kerneltrap pol r h s = Done u h' s' ->
      step (System s cpus m) (System s' (<[c := Cpu h' Idle]> cpus) m)
  (** The devices and the user programs, whatever they do to memory and device registers. *)
  | step_outside s cpus m s' :
      kwf s' -> k_states s' = k_states s -> step (System s cpus m) (System s' cpus m).

(** ** The invariant *)

(** A hart in user space. *)
Definition user_ctx (p : nat) : lctx := LCtx [] 0 (Some p) false false.

(** A hart at the top of the scheduler's loop. *)
Definition at_top (h : hart) : Prop := idle h /\ h_proc h = None.

(** The scheduler takes the CPU back from [p]. *)
Definition takes_back (p : nat) (k : sthread) : Prop :=
  forall g s, at_switch p g -> exists h, k g s = Done tt h s /\ at_top h.

(** The rest of the kernel code of [p] behaves once [p] runs again. *)
Definition resumable (p : nat) (t : uthread) : Prop :=
  forall g s, at_switch p g -> kwf s -> k_states s !! p = Some RUNNING ->
    wpo kstates (Some p) s (t g s) (fun _ c => c = user_ctx p).

Definition waiting (st : option procstate) : Prop := st = Some RUNNABLE \/ st = Some SLEEPING.

Record sys_inv (y : system) : Prop := {
  si_wf : kwf (sy_kernel y);
  si_idle : forall c h, sy_cpus y !! c = Some (Cpu h Idle) -> at_top h;
  si_runs : forall c h p k, sy_cpus y !! c = Some (Cpu h (Runs p k)) ->
    abs h = user_ctx p /\ k_states (sy_kernel y) !! p = Some RUNNING /\ takes_back p k;
  si_one : forall c c' h h' p k k', sy_cpus y !! c = Some (Cpu h (Runs p k)) ->
    sy_cpus y !! c' = Some (Cpu h' (Runs p k')) -> c = c';
  si_running : forall p, k_states (sy_kernel y) !! p = Some RUNNING ->
    exists c h k, sy_cpus y !! c = Some (Cpu h (Runs p k));
  si_parked : forall p t, sy_parked y !! p = Some t ->
    waiting (k_states (sy_kernel y) !! p) /\ resumable p t;
}.

(** ** How the invariant changes *)

Lemma st_step_running a b : option_Forall2 st_step a b -> a = Some RUNNING <-> b = Some RUNNING.
Proof.
  intros [x z Hs|]; [|done]. split; intros [= ->].
  - by destruct Hs as [<-|[[[=] _]|[[[=]|[[=]|[=]]] _]]].
  - by destruct Hs as [->|[[_ [=]]|[_ [[[=]|[[=]|[=]]]|[=]]]]].
Qed.

Lemma st_step_waiting a b : option_Forall2 st_step a b -> waiting a -> waiting b.
Proof.
  intros [x z Hs|] Hw; [|done]. destruct Hs as [<-|[[-> ->]|[Hv _]]]; [done|by left|].
  by destruct Hw as [[= ->]|[= ->]], Hv as [[=]|[[=]|[=]]].
Qed.

(** Cases on the hart that a lookup after a step is about. *)
Ltac cpus :=
  repeat match goal with
  | H : <[_ := _]> _ !! _ = Some _ |- _ => apply list_lookup_insert_Some in H as [(-> & ? & _)|[? H]]
  end; simplify_eq.

Lemma inv_same c h h' md s s' cpus m :
  sys_inv (System s cpus m) -> cpus !! c = Some (Cpu h md) -> kwf s' -> evo st_step s s' ->
  match md with Idle => at_top h' | Runs p _ => abs h' = user_ctx p end ->
  sys_inv (System s' (<[c := Cpu h' md]> cpus) m).
Proof.
  intros [Hwf Hidle Hruns Hone Hrun Hpark] Hc Hk He Hh; simpl in *. constructor; simpl; [done|..].
  - intros c' g Hg. cpus; eauto.
  - intros c' g p k Hg. cpus.
    + destruct (Hruns _ _ _ _ Hc) as (_ & Hst & Hb). split_and!; [done| |done]. by apply (st_step_running _ _ (He p)).
    + destruct (Hruns _ _ _ _ Hg) as (Ha & Hst & Hb). split_and!; [done| |done]. by apply (st_step_running _ _ (He p)).
  - intros c1 c2 h1 h2 p k1 k2 H1' H2'. cpus; eauto; exfalso; eauto.
  - intros p Hp. apply (st_step_running _ _ (He p)) in Hp. destruct (Hrun p Hp) as (c' & g & k & Hg).
    destruct (decide (c' = c)) as [->|Hne].
    + rewrite Hc in Hg. injection Hg as -> ->. exists c, h', k. apply list_lookup_insert_eq.
      by eapply lookup_lt_Some.
    + exists c', g, k. by rewrite list_lookup_insert_ne.
  - intros p t Ht. destruct (Hpark p t Ht) as [Hw Hr]. split; [|done]. by apply (st_step_waiting _ _ (He p)).
Qed.

(** The scheduler gives the CPU [c] to [p]. *)
Lemma inv_start c h h' p k s s0 s' cpus m :
  sys_inv (System s cpus m) -> cpus !! c = Some (Cpu h Idle) -> kwf s' -> evo st_step s s0 ->
  k_states s0 !! p = Some RUNNABLE -> k_states s' = <[p := RUNNING]> (k_states s0) ->
  abs h' = user_ctx p -> takes_back p k ->
  sys_inv (System s' (<[c := Cpu h' (Runs p k)]> cpus) (delete p m)).
Proof.
  intros [Hwf Hidle Hruns Hone Hrun Hpark] Hc Hk He Hp0 Es Hh Hb; simpl in *.
  assert (Hold : forall q, q <> p -> option_Forall2 st_step (k_states s !! q) (k_states s' !! q)).
  { intros q Hq. rewrite Es, list_lookup_insert_ne by done. apply He. }
  assert (Hnew : k_states s' !! p = Some RUNNING).
  { rewrite Es. apply list_lookup_insert_eq. by eapply lookup_lt_Some. }
  assert (Hnot : forall c' g k', cpus !! c' = Some (Cpu g (Runs p k')) -> False).
  { intros c' g k' Hg. destruct (Hruns _ _ _ _ Hg) as (_ & Hst & _).
    apply (st_step_running _ _ (He p)) in Hst. congruence. }
  constructor; simpl; [done|..].
  - intros c' g Hg. cpus; eauto.
  - intros c' g q k' Hg. cpus; [done|]. destruct (Hruns _ _ _ _ Hg) as (Ha & Hst & Hb').
    split_and!; [done| |done]. assert (q <> p) as Hq by (intros ->; eauto).
    by apply (st_step_running _ _ (Hold q Hq)).
  - intros c1 c2 h1 h2 q k1 k2 H1' H2'. cpus; eauto; exfalso; eauto.
  - intros q Hq. destruct (decide (q = p)) as [->|Hne].
    + exists c, h', k. apply list_lookup_insert_eq. by eapply lookup_lt_Some.
    + apply (st_step_running _ _ (Hold q Hne)) in Hq. destruct (Hrun q Hq) as (c' & g & k' & Hg).
      exists c', g, k'. rewrite list_lookup_insert_ne; [done|]. intros ->. congruence.
  - intros q t [Hne Ht]%lookup_delete_Some. destruct (Hpark q t Ht) as [Hw Hr]. split; [|done].
    by apply (st_step_waiting _ _ (Hold q (not_eq_sym Hne))).
Qed.

(** [p] gives the CPU [c] back. *)
Lemma inv_park c h h' p k t s s' cpus m :
  sys_inv (System s cpus m) -> cpus !! c = Some (Cpu h (Runs p k)) -> kwf s' -> evo_leave st_step p s s' ->
  at_top h' -> resumable p t -> sys_inv (System s' (<[c := Cpu h' Idle]> cpus) (park p t s' m)).
Proof.
  intros [Hwf Hidle Hruns Hone Hrun Hpark] Hc Hk [Hold Hgone] Hh Ht; simpl in *.
  assert (Hnew : k_states s' !! p <> Some RUNNING) by (destruct Hgone as [->|[->| ->]]; congruence).
  constructor; simpl; [done|..].
  - intros c' g Hg. cpus; eauto.
  - intros c' g q k' Hg. cpus. destruct (Hruns _ _ _ _ Hg) as (Ha & Hst & Hb'). split_and!; [done| |done].
    assert (q <> p) as Hq by (intros ->; eauto). by apply (st_step_running _ _ (Hold q Hq)).
  - intros c1 c2 h1 h2 q k1 k2 H1' H2'. cpus. eauto.
  - intros q Hq. assert (q <> p) as Hne by congruence.
    apply (st_step_running _ _ (Hold q Hne)) in Hq. destruct (Hrun q Hq) as (c' & g & k' & Hg).
    exists c', g, k'. rewrite list_lookup_insert_ne; [done|]. intros ->. congruence.
  - intros q t' Hq. assert (Hcase : q = p /\ t' = t /\ waiting (k_states s' !! p) \/ q <> p /\ m !! q = Some t').
    { unfold park in Hq. destruct (decide _) as [Hz|Hz].
      - apply lookup_delete_Some in Hq as [Hne Hq]. auto.
      - apply lookup_insert_Some in Hq as [[-> ->]|[Hne Hq]]; [left|auto]. split_and!; [done..|].
        destruct Hgone as [->|[->| ?]]; [by left|by right|done]. }
    destruct Hcase as [(-> & -> & Hw)|[Hne Hq']]; [done|]. destruct (Hpark q t' Hq') as [Hw Hr]. split; [|done].
    by apply (st_step_waiting _ _ (Hold q Hne)).
Qed.

Lemma park_delete p t s m : park p t s (delete p m) = park p t s m.
Proof. unfold park. destruct (decide _); [by rewrite delete_delete_eq|by rewrite insert_delete_eq]. Qed.

(** ** What the code does in a step *)

Lemma at_top_abs h h' : at_top h -> abs h' = abs h -> at_top h'.
Proof.
  intros [[Hh Hn] Hp] E. split; [constructor|].
  - rewrite <-Hh. exact (f_equal lc_held E).
  - rewrite <-Hn. exact (f_equal lc_noff E).
  - rewrite <-Hp. exact (f_equal lc_proc E).
Qed.

Lemma takes_back_release p k :
  (forall g s, k g s = release (L_proc p) (set_h_proc None g) s) -> takes_back p k.
Proof.
  intros Hk g s (Hp & Hh & Hn & Hs). rewrite Hk.
  destruct (release_abs (L_proc p) [] (LCtx [] 0 None (h_intena g) (h_intena g)) (set_h_proc None g) s)
    as (h' & E & Eh').
  - by constructor.
  - apply not_elem_of_nil.
  - apply not_elem_of_nil.
  - unfold abs, acq. simpl. by rewrite Hh, Hn, Hs.
  - exists h'. split; [done|]. simpl in Eh'. unfold abs in Eh'. injection Eh' as E1 E2 E3 E4.
    split; [by constructor|done].
Qed.

Lemma states_dispatched p x s :
  k_proc s !! p = Some x -> k_states (set_k_proc (dispatched p x s) s) = <[p := RUNNING]> (k_states s).
Proof.
  intros Hx. assert (Hlt : (p < length (k_states s))%nat).
  { unfold k_states. rewrite length_fmap. by eapply lookup_lt_Some. }
  apply list_eq. intros q. destruct (decide (q = p)) as [->|Hne].
  - rewrite list_lookup_insert_eq, states_lookup by done. simpl.
    destruct (dispatched_lookup p x s Hx) as (z & -> & Hz & _). simpl. by rewrite Hz.
  - rewrite list_lookup_insert_ne, !states_lookup by done. simpl. by apply dispatched_other.
Qed.

(** A round of the scheduler that gives the CPU to process [p]. *)
Definition dispatches (s : kernel) (g : hart) (s1 : kernel) (k : sthread) (p : nat) : Prop :=
  exists s0, at_switch p g /\ kwf s1 /\ evo st_step s s0 /\ k_states s0 !! p = Some RUNNABLE /\
    k_states s1 = <[p := RUNNING]> (k_states s0) /\ takes_back p k.

Lemma dispatch_outcome p h s :
  at_top h -> kwf s ->
  match dispatch p h s with
  | Done _ h' s' => at_top h' /\ s' = s
  | Switch g s1 k => dispatches s g s1 k p
  | _ => True
  end.
Proof.
  intros [Hi Hn] Hk. destruct (k_proc s !! p) as [x|] eqn:Hx.
  - destruct (decide (p_state x = RUNNABLE)) as [Hr|Hr].
    + destruct (dispatch_run p x h s (kw_proc s Hk) (conj Hx Hr) (idle_notin _ h Hi)) as (k & E & Hrel).
      pose proof (tri_dispatch p (abs h) (idle_noff h Hi) Hn (abs_wf h (idle_wf h Hi)) h s eq_refl Hk) as Hw.
      rewrite E in Hw |- *. destruct Hw as [Hk1 (q & Hq & _ & _ & _)].
      assert (q = p) as -> by (destruct Hq as [Hq _]; simpl in Hq; congruence).
      exists s. split_and!; [done|done|apply evo_refl, _|by rewrite states_lookup, Hx; simpl; rewrite Hr| |].
      * by apply states_dispatched.
      * by apply takes_back_release.
    + rewrite (dispatch_skip p h s x); [|by apply idle_wf|by apply idle_notin|done|done].
      split; [|done]. split; [by apply idle_settle|]. by rewrite settle_proc.
  - unfold dispatch. krun (acquire_run (L_proc p) h s (idle_notin _ h Hi)).
    unfold pget, gets, bind. simpl. by rewrite Hx.
Qed.

Lemma body_outcome h s :
  at_top h -> kwf s ->
  match scheduler_body pol h s with
  | Done _ h' s' => at_top h' /\ kwf s' /\ evo st_step s s'
  | Switch g s1 k => exists p, dispatches s g s1 k p
  | _ => True
  end.
Proof.
  intros [Hi Hn] Hk. unfold scheduler_body, intr_on. rewrite !bind_assoc. ksimpl.
  set (h1 := set_h_sie true h). assert (Hi1 : idle h1) by (by apply idle_intr_on).
  pose proof (bal_pick still pol (abs h1) (abs_wf h1 (idle_wf h1 Hi1)) h1 s eq_refl Hk) as Hp. unfold bind.
  destruct (pick pol h1 s) as [r h2 s2|msg|g s2 k|]; simpl in *; [|done| |done].
  - destruct Hp as (Ha & Hk2 & He). apply (kp_still kstates None) in He.
    assert (Ht : at_top h2) by (by apply (at_top_abs h1)).
    destruct r as [p|]; [|done]. pose proof (dispatch_outcome p h2 s2 Ht Hk2) as Hd.
    destruct (dispatch p h2 s2) as [u h3 s3|msg|g s3 k|]; [|done| |done].
    + destruct Hd as [Ht3 ->]. done.
    + exists p. destruct Hd as (s0 & H1' & H2' & H3' & H4' & H5' & H6'). exists s0. split_and!; [done|done| |done..].
      exact (evo_trans st_step _ _ _ He H3').
  - by destruct Hp as [_ (q & _ & _ & [] & _)].
Qed.

Lemma resume_outcome r1 r2 p g s y :
  sys_inv y -> at_switch p g -> kwf s -> k_states s !! p = Some RUNNING ->
  wpo kstates (Some p) s (resume r1 r2 (sy_parked y) p g s) (fun _ c => c = user_ctx p).
Proof.
  intros Hy Hg Hk Hr. unfold resume. destruct (sy_parked y !! p) as [t|] eqn:Ht.
  - destruct (si_parked y Hy p t Ht) as [_ Hres]. by apply Hres.
  - destruct Hg as (E1 & E2 & E3 & E4). set (a := LCtx [] 0 (Some p) (h_intena g) (h_intena g)).
    apply (tri_forkret kstates r1 r2 p a); [by constructor|done|done|apply not_elem_of_nil|by constructor| |done].
    unfold abs, acq. simpl. by rewrite E1, E2, E3, E4.
Qed.

Lemma user_outcome p h s r :
  abs h = user_ctx p -> kwf s -> wpo kstates (Some p) s (usertrap pol r h s) (fun _ c => c = user_ctx p).
Proof.
  intros Hh Hk. apply (tri_usertrap kstates pol r (user_ctx p)); [done|done|by constructor|done|done].
Qed.

(** What is left of a process that switched can be resumed later. *)
Lemma switch_resumable p q s0 s g s1 t (o : outcome kernel userret) :
  o = Switch g s1 t -> wpo kstates (Some p) s0 o (fun _ c => c = user_ctx p) -> q = p -> s = s1 ->
  kwf s /\ at_switch q g /\ evo_leave st_step q s0 s /\ resumable q t.
Proof.
  intros -> [Hk (p' & Hp' & [Hq|[= <-]] & Hl & Hres)] -> ->; [done|]. split_and!; [done..|].
  intros g' s' Hg' Hk' Hr'. by apply Hres.
Qed.

Lemma step_inv y y' : step y y' -> sys_inv y -> sys_inv y'.
Proof.
  intros Hst Hy. destruct Hst as
    [c h s cpus m h' s' Hc E
    |c h s cpus m g s1 k p r1 r2 u h' s' Hc E Hp Er
    |c h s cpus m g s1 k p r1 r2 g' s2 t h' s' Hc E Hp Er Ek
    |c h s cpus m p k r u h' s' Hc E
    |c h s cpus m p k r g s1 t h' s' Hc E Ek
    |c h s cpus m r u h' s' Hc E
    |s cpus m s' Hk Es].
  - pose proof (body_outcome h s (si_idle _ Hy c h Hc) (si_wf _ Hy)) as Ho. rewrite E in Ho.
    destruct Ho as (Ht & Hk & He). by eapply (inv_same c h h' Idle).
  - pose proof (body_outcome h s (si_idle _ Hy c h Hc) (si_wf _ Hy)) as Ho. rewrite E in Ho.
    destruct Ho as (q & s0 & Hsw & Hk1 & He & Hr & Es & Hb). assert (q = p) as -> by (destruct Hsw; congruence).
    assert (Hr1 : k_states s1 !! p = Some RUNNING).
    { rewrite Es. apply list_lookup_insert_eq. by eapply lookup_lt_Some. }
    pose proof (resume_outcome r1 r2 p g s1 _ Hy Hsw Hk1 Hr1) as Hw. simpl sy_parked in Hw. rewrite Er in Hw.
    destruct Hw as (Ha & Hk' & He').
    pose proof (inv_start c h h' p k s s0 s1 cpus m Hy Hc Hk1 He Hr Es Ha Hb) as Hy1.
    rewrite <-(list_insert_insert_eq cpus c (Cpu h' (Runs p k)) (Cpu h' (Runs p k))).
    eapply (inv_same c h' h' (Runs p k)); [exact Hy1| |done|done|done].
    apply list_lookup_insert_eq. by eapply lookup_lt_Some.
  - pose proof (body_outcome h s (si_idle _ Hy c h Hc) (si_wf _ Hy)) as Ho. rewrite E in Ho.
    destruct Ho as (q & s0 & Hsw & Hk1 & He & Hr & Es & Hb). assert (q = p) as -> by (destruct Hsw; congruence).
    assert (Hr1 : k_states s1 !! p = Some RUNNING).
    { rewrite Es. apply list_lookup_insert_eq. by eapply lookup_lt_Some. }
    pose proof (resume_outcome r1 r2 p g s1 _ Hy Hsw Hk1 Hr1) as Hw. simpl sy_parked in Hw.
    destruct (switch_resumable p p s1 s2 g' s2 t _ Er Hw) as (Hk2 & Hsw' & Hl & Hres); [done..|].
    destruct (Hb g' s2 Hsw') as (h2 & Ek' & Ht). rewrite Ek in Ek'. injection Ek' as <- <-.
    set (hu := Hart 0 (Some p) 0 false false []).
    pose proof (inv_start c h hu p k s s0 s1 cpus m Hy Hc Hk1 He Hr Es eq_refl Hb) as Hy1.
    rewrite <-park_delete, <-(list_insert_insert_eq cpus c (Cpu h' Idle) (Cpu hu (Runs p k))).
    eapply inv_park; [exact Hy1| |done|done|done|done].
    apply list_lookup_insert_eq. by eapply lookup_lt_Some.
  - destruct (si_runs _ Hy _ _ _ _ Hc) as (Ha & _ & _).
    pose proof (user_outcome p h s r Ha (si_wf _ Hy)) as Hw. rewrite E in Hw. destruct Hw as (Ha' & Hk' & He').
    by eapply (inv_same c h h' (Runs p k)).
  - destruct (si_runs _ Hy _ _ _ _ Hc) as (Ha & _ & Hb).
    pose proof (user_outcome p h s r Ha (si_wf _ Hy)) as Hw.
    destruct (switch_resumable p p s s1 g s1 t _ E Hw) as (Hk1 & Hsw & Hl & Hres); [done..|].
    destruct (Hb g s1 Hsw) as (h2 & Ek' & Ht). rewrite Ek in Ek'. injection Ek' as <- <-.
    by eapply inv_park.
  - destruct (si_idle _ Hy _ _ Hc) as [Hi Hn].
    pose proof (tri_kerneltrap kstates pol r (abs h) (abs_wf h (idle_wf h Hi)) h s eq_refl (si_wf _ Hy)) as Hw.
    rewrite E in Hw. destruct Hw as ((Ha & _) & Hk' & He'). eapply (inv_same c h h' Idle); [done..|].
    by apply (at_top_abs h).
  - destruct Hy as [Hwf Hidle Hruns Hone Hrun Hpark]. simpl in *. constructor; simpl; rewrite ?Es; auto.
Qed.

(** All harts have entered scheduler(), and no process has run yet. *)
Definition initial (y : system) : Prop :=
  kwf (sy_kernel y) /\ sy_parked y = ∅ /\
  (forall c x, sy_cpus y !! c = Some x -> c_mode x = Idle /\ at_top (c_hart x)) /\
  forall p, k_states (sy_kernel y) !! p <> Some RUNNING.

Lemma initial_inv y : initial y -> sys_inv y.
Proof.
  intros (Hk & Hm & Hc & Hr). constructor; [done|..].
  - intros c h Hh. apply (Hc c (Cpu h Idle) Hh).
  - intros c h p k Hh. by destruct (Hc c _ Hh).
  - intros c c' h h' p k k' Hh. by destruct (Hc c _ Hh).
  - intros p Hp. by destruct (Hr p).
  - intros p t. by rewrite Hm, lookup_empty.
Qed.

Lemma reachable_inv y0 y : initial y0 -> rtc step y0 y -> sys_inv y.
Proof.
  intros Hi Hr. apply initial_inv in Hi. induction Hr as [|y1 y2 y3 Hs _ IH]; [done|]. apply IH. by eapply step_inv.
Qed.


End system.

(** ** Example *)

(** Two harts in the scheduler and a new process that is runnable; one of them runs it. *)
Definition demo_top : hart := Hart 0 None 0 false false [].
Definition demo_top1 : hart := Hart 1 None 0 false false [].
Definition demo_boot_done : kernel := set_k_first false demo_waiting.
Definition demo_system : system := System demo_boot_done [Cpu demo_top Idle; Cpu demo_top1 Idle] ∅.

Lemma demo_system_initial : initial demo_system.
Proof.
  split_and!; [| |intros c x Hc|intros p Hp].
  - pose proof demo_waiting_wf as []. by constructor.
  - done.
  - destruct c as [|[|c]]; [..|done]; injection Hc as <-; by split.
  - apply list_elem_of_lookup_2 in Hp. unfold k_states, demo_boot_done, demo_waiting in Hp. simpl in Hp.
    repeat (apply elem_of_cons in Hp as [Hp|Hp]; [done|]). by apply elem_of_nil in Hp.
Qed.

Lemma demo_system_runs :
  exists y h k, step FCFS demo_system y /\ sy_cpus y !! 0%nat = Some (Cpu h (Runs 0 k)).
Proof.
  do 3 eexists. split.
  - eapply (step_run FCFS 0 demo_top demo_boot_done [Cpu demo_top Idle; Cpu demo_top1 Idle] ∅ _ _ _ 0%nat 0 0).
    + reflexivity.
    + vm_compute. reflexivity.
    + reflexivity.
    + vm_compute. reflexivity.
  - reflexivity.
Qed.

