(* ===== verification/Grep.v ===== *)
(** * Grep

    user/grep.c: the regular expression matcher, against the language a pattern
    denotes, and the loop that reads a file through a buffer of 1024 bytes and prints
    the lines that match.

    A C string is the list of its bytes before the terminating NUL. *)
From stdpp Require Import base tactics list sets numbers strings.
From S2P Require Import Prelude.

Definition CARET : Z := 94.
Definition DOLLAR : Z := 36.
Definition STAR : Z := 42.
Definition DOT : Z := 46.
Definition NL : Z := 10.

(** ** The matcher *)

(** [matchstar c re text]; [mh] is [matchhere re]. *)
Fixpoint matchstar (mh : list Z -> bool) (c : Z) (text : list Z) : bool :=
  mh text ||
  match text with
  | [] => false
  | t :: text' => if (t =? c) || (c =? DOT) then matchstar mh c text' else false
  end.

Fixpoint matchhere (re text : list Z) : bool :=
  match re with
  | [] => true
  | c :: re1 =>
      let one := match text with
                 | [] => false
                 | t :: text' => if (c =? DOT) || (c =? t) then matchhere re1 text' else false
                 end in
      match re1 with
      | [] => if c =? DOLLAR then bool_decide (text = []) else one
      | d :: re2 => if d =? STAR then matchstar (matchhere re2) c text else one
      end
  end.

(** The loop of match, which looks at the empty string too. *)
Fixpoint match_loop (re text : list Z) : bool :=
  matchhere re text ||
  match text with
  | [] => false
  | _ :: text' => match_loop re text'
  end.

Definition match_ (re text : list Z) : bool :=
  match re with
  | c :: re' => if c =? CARET then matchhere re' text else match_loop re text
  | [] => match_loop re text
  end.

(** ** The patterns and their language *)

Inductive regexp :=
  | Eps
  | Lit (c : Z)
  | Any
  | Seq (r1 r2 : regexp)
  | Star (r : regexp).

Inductive lang : regexp -> list Z -> Prop :=
  | lang_eps : lang Eps []
  | lang_lit c : lang (Lit c) [c]
  | lang_any c : lang Any [c]
  | lang_seq r1 r2 l1 l2 : lang r1 l1 -> lang r2 l2 -> lang (Seq r1 r2) (l1 ++ l2)
  | lang_star_nil r : lang (Star r) []
  | lang_star_app r l1 l2 : lang r l1 -> lang (Star r) l2 -> lang (Star r) (l1 ++ l2).

Definition atom (c : Z) : regexp := if c =? DOT then Any else Lit c.

(** The expression a pattern without a leading ^ stands for, and whether it must reach
    the end of the text. *)
Fixpoint pattern (re : list Z) : regexp * bool :=
  match re with
  | [] => (Eps, false)
  | c :: re1 =>
      match re1 with
      | [] => if c =? DOLLAR then (Eps, true) else (atom c, false)
      | d :: re2 =>
          if d =? STAR then let '(r, e) := pattern re2 in (Seq (Star (atom c)) r, e)
          else let '(r, e) := pattern re1 in (Seq (atom c) r, e)
      end
  end.

(** A prefix of [text] is in the language. *)
Definition here (re text : list Z) : Prop :=
  exists l rest, text = l ++ rest /\ lang (pattern re).1 l /\ ((pattern re).2 = true -> rest = []).

Section matcher.
Implicit Types (re text l : list Z) (c : Z).

Lemma lang_atom c l : lang (atom c) l <-> exists t, l = [t] /\ (c = DOT \/ c = t).
Proof.
  unfold atom. destruct (Z.eqb_spec c DOT) as [->|Hne]; split.
  - intros Hl. inversion Hl; subst. eauto.
  - intros (t & -> & _). constructor.
  - intros Hl. inversion Hl; subst. eauto.
  - intros (t & -> & [?| ->]); [done|constructor].
Qed.

Lemma lang_star_cons r l : lang (Star r) l -> l <> [] ->
  exists l1 l2, l = l1 ++ l2 /\ l1 <> [] /\ lang r l1 /\ lang (Star r) l2.
Proof.
  remember (Star r) as e eqn:Ee. intros Hl. induction Hl as [| | | | |r' l1 l2 H1 _ H2 IH]; try done.
  injection Ee as ->. intros Hne. destruct l1 as [|x l1]; [by apply IH|]. by exists (x :: l1), l2.
Qed.

(** The star of one character, one character at a time. *)
Lemma lang_star_atom c l : lang (Star (atom c)) l <-> Forall (fun t => c = DOT \/ c = t) l.
Proof.
  split.
  - induction l as [|t l IH]; intros Hl; [constructor|].
    destruct (lang_star_cons _ _ Hl) as (l1 & l2 & E & _ & H1 & H2); [done|].
    apply lang_atom in H1 as (t' & -> & Ht). injection E as <- ->. constructor; auto.
  - induction 1 as [|t l Ht _ IH]; [constructor|]. change (t :: l) with ([t] ++ l).
    constructor; [|done]. apply lang_atom. eauto.
Qed.

Lemma lang_seq_inv r1 r2 l : lang (Seq r1 r2) l <-> exists l1 l2, l = l1 ++ l2 /\ lang r1 l1 /\ lang r2 l2.
Proof.
  split; [intros Hl; inversion Hl; subst; eauto|]. intros (l1 & l2 & -> & H1 & H2). by constructor.
Qed.

Lemma matchstar_spec mh c text :
  matchstar mh c text = true <->
  exists l rest, text = l ++ rest /\ Forall (fun t => c = DOT \/ c = t) l /\ mh rest = true.
Proof.
  induction text as [|t text IH]; simpl.
  - rewrite orb_false_r. split; [intros Hm; by exists [], []|].
    intros (l & rest & E & _ & Hm). symmetry in E. by apply app_nil in E as [-> ->].
  - rewrite orb_true_iff. split.
    + intros [Hm|Hm]; [by exists [], (t :: text)|]. destruct (Z.eqb_spec t c) as [->|Ht]; simpl in Hm.
      * apply IH in Hm as (l & rest & -> & Hl & Hm). exists (c :: l), rest. split_and!; [done| |done].
        constructor; auto.
      * destruct (Z.eqb_spec c DOT) as [->|]; [|done]. apply IH in Hm as (l & rest & -> & Hl & Hm).
        exists (t :: l), rest. split_and!; [done| |done]. constructor; auto.
    + intros ([|x l] & rest & E & Hl & Hm); [left; by rewrite E|right].
      injection E as -> ->. apply Forall_cons in Hl as [Hx Hl].
      assert ((x =? c) || (c =? DOT) = true) as ->.
      { apply orb_true_iff. rewrite !Z.eqb_eq. destruct Hx as [->| ->]; auto. }
      apply IH. eauto.
Qed.

(** One character and then the rest. *)
Lemma here_one c re text :
  pattern (c :: re) = (Seq (atom c) (pattern re).1, (pattern re).2) ->
  here (c :: re) text <-> exists t text', text = t :: text' /\ (c = DOT \/ c = t) /\ here re text'.
Proof.
  intros Ep. unfold here. rewrite Ep. simpl. split.
  - intros (l & rest & -> & Hl & He). apply lang_seq_inv in Hl as (l1 & l2 & -> & H1 & H2).
    apply lang_atom in H1 as (t & -> & Ht). exists t, (l2 ++ rest). split_and!; [done|done|]. by exists l2, rest.
  - intros (t & text' & -> & Ht & l & rest & -> & Hl & He). exists (t :: l), rest. split_and!; [done| |done].
    apply lang_seq_inv. exists [t], l. split_and!; [done| |done]. apply lang_atom. eauto.
Qed.

Lemma one_spec c text (f : list Z -> bool) :
  match text with [] => false | t :: text' => if (c =? DOT) || (c =? t) then f text' else false end = true <->
  exists t text', text = t :: text' /\ (c = DOT \/ c = t) /\ f text' = true.
Proof.
  destruct text as [|t text]; [split; [done|]; by intros (? & ? & ? & _)|].
  destruct (Z.eqb_spec c DOT), (Z.eqb_spec c t); simpl; split; intros Hm; try (eexists _, _; eauto; fail);
    try (destruct Hm as (? & ? & [= <- <-] & ? & ?); done); try done.
  destruct Hm as (? & ? & [= <- <-] & [?|?] & ?); done.
Qed.

Lemma matchhere_spec re text : matchhere re text = true <-> here re text.
Proof.
  revert text. induction re as [re IH] using (induction_ltof1 _ (@length Z)). intros text.
  unfold ltof in IH. destruct re as [|c [|d re]].
  - split; [|done]. intros _. exists [], text. split_and!; [done|constructor|done].
  - simpl matchhere. destruct (Z.eqb_spec c DOLLAR) as [->|Hne].
    + rewrite bool_decide_eq_true. unfold here. simpl. split.
      * intros ->. exists [], []. split_and!; [done|constructor|done].
      * intros (l & rest & -> & Hl & He). inversion Hl. by rewrite (He eq_refl).
    + rewrite one_spec. unfold here. simpl. destruct (Z.eqb_spec c DOLLAR); [done|]. simpl. split.
      * intros (t & text' & -> & Ht & _). exists [t], text'. split_and!; [done| |done]. apply lang_atom. eauto.
      * intros (l & rest & -> & Hl & _). apply lang_atom in Hl as (t & -> & Ht). simpl. eauto 10.
  - assert (E : matchhere (c :: d :: re) text = if d =? STAR then matchstar (matchhere re) c text else
      match text with [] => false | t :: text' => if (c =? DOT) || (c =? t) then matchhere (d :: re) text' else false end)
      by done.
    rewrite E. clear E. destruct (Z.eqb_spec d STAR) as [->|Hd].
    + rewrite matchstar_spec. unfold here.
      replace (pattern (c :: STAR :: re)) with (Seq (Star (atom c)) (pattern re).1, (pattern re).2)
        by (simpl; by destruct (pattern re)). simpl. split.
      * intros (l & rest & -> & Hl & Hm). apply IH in Hm as (l2 & rest2 & -> & H2 & He); [|simpl; lia].
        exists (l ++ l2), rest2. split_and!; [by rewrite app_assoc| |done]. apply lang_seq_inv.
        exists l, l2. split_and!; [done|by apply lang_star_atom|done].
      * intros (l & rest & -> & Hl & He). apply lang_seq_inv in Hl as (l1 & l2 & -> & H1 & H2).
        exists l1, (l2 ++ rest). split_and!; [by rewrite app_assoc|by apply lang_star_atom|].
        apply IH; [simpl; lia|]. by exists l2, rest.
    + rewrite one_spec, here_one.
      * split; intros (t & text' & E & Ht & Hm); exists t, text'; (split_and!; [done|done|]);
          [apply IH in Hm; [done|simpl; lia]|apply IH; [simpl; lia|done]].
      * cbn [pattern]. destruct (Z.eqb_spec d STAR); [done|]. change (match re with [] => _ | _ => _ end)
          with (pattern (d :: re)). by destruct (pattern (d :: re)).
Qed.

Lemma match_loop_spec re text : match_loop re text = true <-> exists pre suf, text = pre ++ suf /\ here re suf.
Proof.
  induction text as [|t text IH]; simpl; rewrite orb_true_iff, matchhere_spec.
  - split; [intros [Hm|[=]]; by exists [], []|]. intros (pre & suf & E & Hm). left.
    symmetry in E. by apply app_nil in E as [-> ->].
  - rewrite IH. split.
    + intros [Hm|(pre & suf & -> & Hm)]; [by exists [], (t :: text)|by exists (t :: pre), suf].
    + intros ([|x pre] & suf & E & Hm); simpl in E; [left; by subst|right]. injection E as -> ->. eauto.
Qed.

(** C38: match() decides whether the text contains a string of the pattern's language,
    at the start of the text if the pattern begins with ^ and up to its end if it ends
    with $, where . is any character and c* any number of c. *)
Theorem match_decides_pattern (re text : list Z) :
  let anchored := bool_decide (head re = Some CARET) in
  let p := pattern (if anchored then tail re else re) in
  match_ re text = true <->
  exists pre l post, text = pre ++ l ++ post /\ lang p.1 l /\
    (anchored = true -> pre = []) /\ (p.2 = true -> post = []).
Proof.
  intros anchored p. assert (E : match_ re text =
    if anchored then matchhere (tail re) text else match_loop re text).
  { unfold match_, anchored. destruct re as [|c re]; [done|]. simpl. destruct (Z.eqb_spec c CARET) as [->|Hne]; [done|].
    by rewrite bool_decide_eq_false_2 by congruence. }
  rewrite E. subst p. destruct anchored.
  - rewrite matchhere_spec. unfold here. split.
    + intros (l & rest & -> & Hl & He). by exists [], l, rest.
    + intros (pre & l & post & -> & Hl & Hp & He). rewrite (Hp eq_refl). by exists l, post.
  - rewrite match_loop_spec. unfold here. split.
    + intros (pre & suf & -> & l & rest & -> & Hl & He). by exists pre, l, rest.
    + intros (pre & l & post & -> & Hl & _ & He). exists pre, (l ++ post). split; [done|]. by exists l, post.
Qed.

End matcher.

(** ** Reading a file *)

(** user/ulib.c: the index of the first [c] in a string. *)
Fixpoint strchr (s : list Z) (c : Z) : option nat :=
  match s with
  | [] => None
  | x :: s' => if x =? 0 then None else if x =? c then Some 0%nat else S <$> strchr s' c
  end.

(** sizeof(buf) *)
Definition BUFSIZE : nat := 1024.

(** read(fd, .., size) on a file with the bytes [inp] left: at least one of them unless
    there is none or [size] is 0; how many is up to the kernel ([want]). *)
Definition read_some (want size : nat) (inp : list Z) : list Z := take (want `min` size) inp.

(** The inner loop: what it writes, and the part of the buffer after the last newline.
    [p] are the bytes up to buf[m]; each round consumes at least the newline. *)
Fixpoint grep_lines (fuel : nat) (re p : list Z) : option (list Z * list Z) :=
  match strchr p NL with
  | None => Some ([], p)
  | Some q =>
      match fuel with
      | O => None
      | S f =>
          '(out, rest) ← grep_lines f re (drop (S q) p);
          Some ((if match_ re (take q p) then take q p ++ [NL] else []) ++ out, rest)
      end
  end.

(** The outer loop, with the bytes [buf] kept from the last round. The result is what is
    written to file descriptor 1; [want i] is the most the
    kernel returns when [i] rounds are left. *)
Fixpoint grep (fuel : nat) (want : nat -> nat) (re buf inp : list Z) : option (list Z) :=
  let chunk := read_some (want fuel) (BUFSIZE - length buf - 1) inp in
  match chunk with
  | [] => Some []
  | _ =>
      match fuel with
      | O => None
      | S f =>
          let buf := buf ++ chunk in
          '(out, rest) ← grep_lines (length buf) re buf;
          out' ← grep f want re rest (drop (length chunk) inp);
          Some (out ++ out')
      end
  end.

(** The lines of a text that end in a newline, and what follows the last of them. *)
Fixpoint lines (l : list Z) : list (list Z) * list Z :=
  match l with
  | [] => ([], [])
  | x :: l =>
      if x =? NL then ([] :: (lines l).1, (lines l).2)
      else match lines l with
           | ([], rest) => ([], x :: rest)
           | (line :: ls, rest) => ((x :: line) :: ls, rest)
           end
  end.

(** Those that match, each with its newline. *)
Definition matching (re : list Z) (ls : list (list Z)) : list Z :=
  concat (map (fun line => line ++ [NL]) (List.filter (match_ re) ls)).

Section reading.
Implicit Types (re p l inp : list Z).

Definition no_nul (l : list Z) : Prop := Forall (fun b => b <> 0) l.

Lemma strchr_none l : no_nul l -> (strchr l NL = None) <-> (NL ∉ l).
Proof.
  induction 1 as [|x l Hx _ IH]; simpl; [split; [intros _; apply not_elem_of_nil|done]|].
  rewrite not_elem_of_cons. destruct (Z.eqb_spec x 0); [done|]. destruct (Z.eqb_spec x NL) as [->|Hn].
  - split; [done|]. intros [[] _]. done.
  - rewrite fmap_None, IH. split; [|tauto]. intros Hl. split; [congruence|done].
Qed.

Lemma strchr_some l q : no_nul l -> strchr l NL = Some q ->
  exists line rest, l = line ++ NL :: rest /\ (NL ∉ line) /\ q = length line.
Proof.
  intros Hl. revert q. induction Hl as [|x l Hx _ IH]; intros q; simpl; [done|].
  destruct (Z.eqb_spec x 0); [done|]. destruct (Z.eqb_spec x NL) as [->|Hn].
  - intros [= <-]. exists [], l. split_and!; [done|apply not_elem_of_nil|done].
  - intros Hq. apply fmap_Some in Hq as (q' & Hq' & ->). destruct (IH q' Hq') as (line & rest & -> & Hnl & ->).
    exists (x :: line), rest. split_and!; [done| |done]. rewrite not_elem_of_cons. split; [congruence|done].
Qed.

Lemma lines_partial l : NL ∉ l -> lines l = ([], l).
Proof.
  induction l as [|x l IH]; intros Hl; [done|]. apply not_elem_of_cons in Hl as [Hx Hl]. simpl. rewrite IH by done.
  by destruct (Z.eqb_spec x NL); [congruence|].
Qed.

Lemma lines_line line rest : NL ∉ line -> lines (line ++ NL :: rest) = (line :: (lines rest).1, (lines rest).2).
Proof.
  induction line as [|x line IH]; intros Hl; [done|]. apply not_elem_of_cons in Hl as [Hx Hl].
  simpl. rewrite IH by done. by destruct (Z.eqb_spec x NL); [congruence|].
Qed.

Lemma matching_app re (l1 l2 : list (list Z)) : matching re (l1 ++ l2) = matching re l1 ++ matching re l2.
Proof. unfold matching. by rewrite List.filter_app, map_app, concat_app. Qed.

Lemma matching_cons re line ls :
  matching re (line :: ls) = (if match_ re line then line ++ [NL] else []) ++ matching re ls.
Proof. unfold matching. simpl. by destruct (match_ re line). Qed.

Lemma lines_app l1 l2 :
  lines (l1 ++ l2) = ((lines l1).1 ++ (lines ((lines l1).2 ++ l2)).1, (lines ((lines l1).2 ++ l2)).2).
Proof.
  induction l1 as [|x l1 IH]; simpl; [by destruct (lines l2)|]. rewrite IH. destruct (Z.eqb_spec x NL) as [->|Hn].
  - by simpl.
  - destruct (lines l1) as [[|line ls] rest]; simpl; [|done].
    destruct (Z.eqb_spec x NL); [done|]. by destruct (lines (rest ++ l2)) as [[|line ls] rest'].
Qed.

Lemma lines_rest l : (NL ∉ (lines l).2) /\ ((lines l).1 = [] -> (lines l).2 = l).
Proof.
  induction l as [|x l [IH1 IH2]]; simpl; [split; [apply not_elem_of_nil|done]|].
  destruct (Z.eqb_spec x NL) as [->|Hn]; simpl; [done|].
  destruct (lines l) as [[|line ls] rest]; simpl in *; [|done]. rewrite IH2 in * by done.
  split; [|done]. apply not_elem_of_cons. split; [congruence|done].
Qed.

Lemma lines_rest_incl l x : x ∈ (lines l).2 -> x ∈ l.
Proof.
  induction l as [|y l IH]; simpl; [done|]. destruct (Z.eqb_spec y NL) as [->|Hn]; simpl; [set_solver|].
  destruct (lines l) as [[|line ls] rest]; simpl in *; set_solver.
Qed.

Lemma no_nul_rest l : no_nul l -> no_nul (lines l).2.
Proof. unfold no_nul. rewrite !Forall_forall. intros Hl x Hx. by apply Hl, lines_rest_incl. Qed.

Lemma grep_lines_run fuel re p :
  no_nul p -> (length p <= fuel)%nat -> grep_lines fuel re p = Some (matching re (lines p).1, (lines p).2).
Proof.
  revert p. induction fuel as [|f IH]; intros p Hp Hf; simpl.
  - destruct p; [done|simpl in Hf; lia].
  - destruct (strchr p NL) as [q|] eqn:E.
    + destruct (strchr_some p q Hp E) as (line & rest & -> & Hl & ->).
      unfold no_nul in Hp. rewrite Forall_app, Forall_cons in Hp. destruct Hp as (_ & _ & Hr).
      rewrite take_app_length. rewrite length_app in Hf. simpl in Hf.
      replace (drop (S (length line)) (line ++ NL :: rest)) with rest.
      2: { change (NL :: rest) with ([NL] ++ rest). rewrite app_assoc, drop_app_length'; [done|]. rewrite length_app. simpl. lia. }
      rewrite IH by (done || lia). simpl. rewrite lines_line by done. simpl. by rewrite matching_cons.
    + apply strchr_none in E; [|done]. by rewrite lines_partial.
Qed.

(** The lines that fit in the buffer with their newline. *)
Definition fits (l : list Z) : Prop := Forall (fun line => length line < BUFSIZE - 1)%nat (lines l).1.

Lemma grep_run fuel want re buf inp :
  (forall i, want i <> 0%nat) -> no_nul (buf ++ inp) -> NL ∉ buf -> fits (buf ++ inp) -> (length inp <= fuel)%nat ->
  grep fuel want re buf inp = Some (matching re (lines (buf ++ inp)).1).
Proof.
  intros Hw. revert buf inp. induction fuel as [|f IH]; intros buf inp Hn Hb Hfit Hf.
  - destruct inp; [|simpl in Hf; lia]. rewrite app_nil_r, lines_partial by done. simpl.
    unfold read_some. by rewrite take_nil.
  - simpl. set (chunk := read_some _ _ inp). destruct (decide (chunk = [])) as [Ec|Ec].
    + rewrite Ec. assert (NL ∉ inp) as Hi; [|by rewrite lines_partial by (apply not_elem_of_app; done)].
      unfold no_nul in Hn. rewrite Forall_app in Hn. destruct Hn as [_ Hn]. apply strchr_none; [done|].
      destruct (strchr inp NL) as [q|] eqn:Eq; [|done]. exfalso.
      destruct (strchr_some inp q Hn Eq) as (line & rest & -> & Hl & _).
      unfold fits in Hfit. rewrite app_assoc, lines_line in Hfit by (by apply not_elem_of_app).
      apply Forall_cons in Hfit as [Hlen _]. rewrite length_app in Hlen. unfold BUFSIZE in Hlen.
      apply (f_equal length) in Ec. unfold chunk, read_some in Ec. rewrite length_take, length_app in Ec.
      specialize (Hw (S f)). unfold BUFSIZE in Ec. simpl length in Ec. lia.
    + assert (Einp : inp = chunk ++ drop (length chunk) inp).
      { unfold chunk, read_some. set (n := Nat.min _ _). rewrite length_take. destruct (decide (n <= length inp)%nat).
        - rewrite Nat.min_l by done. by rewrite take_drop.
        - rewrite Nat.min_r by lia. rewrite take_ge, drop_ge by lia. by rewrite app_nil_r. }
      assert (E : grep_lines (length (buf ++ chunk)) re (buf ++ chunk) =
        Some (matching re (lines (buf ++ chunk)).1, (lines (buf ++ chunk)).2)).
      { apply grep_lines_run; [|done]. rewrite Einp in Hn. unfold no_nul in *. rewrite !Forall_app in *. tauto. }
      assert (Hsplit : lines (buf ++ inp) = ((lines (buf ++ chunk)).1 ++
        (lines ((lines (buf ++ chunk)).2 ++ drop (length chunk) inp)).1,
        (lines ((lines (buf ++ chunk)).2 ++ drop (length chunk) inp)).2)).
      { rewrite <-lines_app, <-app_assoc. by rewrite <-Einp. }
      assert (Hlc : (0 < length chunk)%nat) by (destruct chunk; simpl; [done|lia]).
      destruct chunk as [|x chunk'] eqn:Echunk; [done|]. rewrite <-Echunk in *. rewrite E. simpl.
      rewrite IH.
      * simpl. rewrite Hsplit. simpl. by rewrite matching_app.
      * rewrite Einp in Hn. unfold no_nul in *. rewrite !Forall_app in *. destruct Hn as (H1 & H2 & H3).
        split; [|done]. apply no_nul_rest. by apply Forall_app.
      * apply lines_rest.
      * unfold fits in *. rewrite Hsplit in Hfit. simpl in Hfit. by apply Forall_app in Hfit as [_ ?].
      * rewrite length_drop. lia.
Qed.


End reading.

