(* ===== verification/BioProps.v ===== *)
(** * BioProps

    kernel/bio.c keeps its buffers in order of use: the doubly linked list through
    [prev] and [next] represents a list of all buffers, most recently used first; bget
    finds the buffer of a block, or recycles the least recently used one that nobody
    refers to; brelse moves a buffer to the front. *)
From stdpp Require Import base tactics list sets numbers gmap strings.
From S2P Require Import Prelude Machine Spinlock Printf Bytes Block Queue Kalloc Vm Kernel Proc ProcFacts.
From S2P Require Import Discipline Balance Sleeplock Virtio Bio KernelInv Examples Scheduler ProcProps.

(** ** Chains of pointers *)

(** Following [f] from [x] visits [l] and ends in [y]. *)
Fixpoint chain (f : nat -> option nat) (x : nat) (l : list nat) (y : nat) : Prop :=
  match l with
  | [] => f x = Some y
  | z :: l => f x = Some z /\ chain f z l y
  end.

Definition fupd (f : nat -> option nat) (p v : nat) : nat -> option nat :=
  fun x => if decide (x = p) then Some v else f x.

Section chain.
Implicit Types (f g : nat -> option nat) (x y p b : nat) (l : list nat).

Lemma chain_ext f g x l y : (forall z, z ∈ x :: l -> g z = f z) -> chain f x l y -> chain g x l y.
Proof.
  revert x. induction l as [|z l IH]; intros x Hg; simpl; [rewrite Hg by set_solver; done|].
  intros [Hx Hl]. rewrite Hg by set_solver. split; [done|]. apply IH; [|done]. intros w Hw. apply Hg. set_solver.
Qed.

Lemma chain_fupd f x l y p v : p ∉ x :: l -> chain f x l y -> chain (fupd f p v) x l y.
Proof.
  intros Hp. apply chain_ext. intros z Hz. unfold fupd. rewrite decide_False; [done|]. intros ->. done.
Qed.

Lemma chain_app f x l1 b l2 y : chain f x (l1 ++ b :: l2) y <-> chain f x l1 b /\ chain f b l2 y.
Proof. revert x. induction l1 as [|z l1 IH]; intros x; simpl; [done|]. rewrite IH. tauto. Qed.

(** The first and the last link. *)
Lemma chain_head f x l y : chain f x l y -> f x = Some (hd y l).
Proof. by destruct l; simpl; [|intros [? _]]. Qed.

Lemma last_cons z l x : List.last (z :: l) x = List.last l z.
Proof. revert z. induction l as [|w l IH]; intros z; [done|]. specialize (IH z). destruct l; [done|exact IH]. Qed.

Lemma chain_last f x l y : chain f x l y -> f (List.last l x) = Some y.
Proof.
  revert x. induction l as [|z l IH]; intros x; [done|]. intros [_ Hl]. rewrite last_cons. by apply IH.
Qed.

Lemma last_in l x : List.last l x ∈ x :: l.
Proof. revert x. induction l as [|z l IH]; intros x; [set_solver|]. rewrite last_cons. specialize (IH z). set_solver. Qed.

(** Taking [b] out: its predecessor is linked to its successor. *)
Lemma chain_unlink f x l1 b l2 y :
  NoDup (x :: l1 ++ b :: l2) -> chain f x (l1 ++ b :: l2) y ->
  chain (fupd f (List.last l1 x) (hd y l2)) x (l1 ++ l2) y.
Proof.
  revert x. induction l1 as [|z l1 IH]; intros x Hnd Hc.
  - simpl in *. destruct Hc as [Hx Hl]. apply NoDup_cons in Hnd as [Hnx _].
    destruct l2 as [|w l2]; simpl in *; [unfold fupd; by rewrite decide_True|].
    split; [unfold fupd; by rewrite decide_True|]. apply chain_fupd; [set_solver|tauto].
  - destruct Hc as [Hx Hl]. rewrite last_cons. apply NoDup_cons in Hnd as [Hnx Hnd]. split; [|by apply IH].
    unfold fupd. rewrite decide_False; [done|]. pose proof (last_in l1 z). set_solver.
Qed.

(** Putting [b] behind [p]. *)
Lemma chain_insert f x l1 b l2 y :
  NoDup (x :: l1 ++ l2) -> b ∉ x :: l1 ++ l2 -> chain f x (l1 ++ l2) y ->
  chain (fupd (fupd f b (hd y l2)) (List.last l1 x) b) x (l1 ++ b :: l2) y.
Proof.
  revert x. induction l1 as [|z l1 IH]; intros x Hnd Hb Hc.
  - simpl in *. apply NoDup_cons in Hnd as [Hnx _]. split; [unfold fupd; by rewrite decide_True|].
    destruct l2 as [|w l2]; simpl in *.
    + unfold fupd. rewrite decide_False, decide_True by set_solver. done.
    + split; [unfold fupd; rewrite decide_False, decide_True by set_solver; done|].
      apply chain_fupd; [set_solver|]. apply chain_fupd; [set_solver|tauto].
  - destruct Hc as [Hx Hl]. rewrite last_cons. apply NoDup_cons in Hnd as [Hnx Hnd]. split; [|apply IH; set_solver].
    unfold fupd. pose proof (last_in l1 z). rewrite !decide_False by set_solver. done.
Qed.

End chain.

(** ** The list of buffers *)

Section links.
Implicit Types (c : bcache) (l : list nat) (b n v x : nat).

Definition upd_buf b (f : buf_t -> buf_t) c : bcache := set_bc_buf (alter f b (bc_buf c)) c.

(** The cache links the buffers of [l], the most recently used first. *)
Record lru c l : Prop := Lru {
  lru_len : length (bc_buf c) = NBUF;
  lru_nodup : NoDup (NBUF :: l);
  lru_range : forall b, b ∈ l -> (b < NBUF)%nat;
  lru_next : chain (fun x => next_of x c) NBUF l NBUF;
  lru_prev : chain (fun x => prev_of x c) NBUF (reverse l) NBUF;
}.

Definition to_front b l : list nat := b :: filter (.≠ b) l.

(** [c'] has the buffers of [c] but for the links. *)
Definition unlinked (x : buf_t) : buf_t := set_b_next NBUF (set_b_prev NBUF x).
Definition same_bufs c c' : Prop := unlinked <$> bc_buf c' = unlinked <$> bc_buf c.

Lemma next_upd b f c x : (forall y, b_next (f y) = b_next y) -> next_of x (upd_buf b f c) = next_of x c.
Proof.
  intros Hf. unfold next_of, upd_buf. simpl. destruct (x =? NBUF)%nat; [done|].
  destruct (decide (b = x)) as [->|Hne]; [rewrite list_lookup_alter_eq|by rewrite list_lookup_alter_ne].
  destruct (bc_buf c !! x); simpl; [by rewrite Hf|done].
Qed.

Lemma prev_upd b f c x : (forall y, b_prev (f y) = b_prev y) -> prev_of x (upd_buf b f c) = prev_of x c.
Proof.
  intros Hf. unfold prev_of, upd_buf. simpl. destruct (x =? NBUF)%nat; [done|].
  destruct (decide (b = x)) as [->|Hne]; [rewrite list_lookup_alter_eq|by rewrite list_lookup_alter_ne].
  destruct (bc_buf c !! x); simpl; [by rewrite Hf|done].
Qed.

Lemma next_set_next b v c x : (b <= NBUF)%nat -> length (bc_buf c) = NBUF ->
  next_of x (set_next b v c) = fupd (fun x => next_of x c) b v x.
Proof.
  intros Hb Hl. unfold next_of, set_next, fupd. destruct (Nat.eqb_spec b NBUF) as [->|Hne]; simpl.
  - by destruct (Nat.eqb_spec x NBUF); [rewrite decide_True|rewrite decide_False].
  - case_decide as E; [subst x|].
    + destruct (Nat.eqb_spec b NBUF); [done|]. rewrite list_lookup_alter_eq.
      by destruct (lookup_lt_is_Some_2 (bc_buf c) b) as [y ->]; [lia|].
    + destruct (Nat.eqb_spec x NBUF); [done|]. by rewrite list_lookup_alter_ne.
Qed.

Lemma prev_set_prev b v c x : (b <= NBUF)%nat -> length (bc_buf c) = NBUF ->
  prev_of x (set_prev b v c) = fupd (fun x => prev_of x c) b v x.
Proof.
  intros Hb Hl. unfold prev_of, set_prev, fupd. destruct (Nat.eqb_spec b NBUF) as [->|Hne]; simpl.
  - by destruct (Nat.eqb_spec x NBUF); [rewrite decide_True|rewrite decide_False].
  - case_decide as E; [subst x|].
    + destruct (Nat.eqb_spec b NBUF); [done|]. rewrite list_lookup_alter_eq.
      by destruct (lookup_lt_is_Some_2 (bc_buf c) b) as [y ->]; [lia|].
    + destruct (Nat.eqb_spec x NBUF); [done|]. by rewrite list_lookup_alter_ne.
Qed.

Lemma next_set_prev b v c x : next_of x (set_prev b v c) = next_of x c.
Proof. unfold set_prev. destruct (b =? NBUF)%nat; [done|]. by apply next_upd. Qed.

Lemma prev_set_next b v c x : prev_of x (set_next b v c) = prev_of x c.
Proof. unfold set_next. destruct (b =? NBUF)%nat; [done|]. by apply prev_upd. Qed.

Lemma len_set_next b v c : length (bc_buf (set_next b v c)) = length (bc_buf c).
Proof. unfold set_next. destruct (b =? NBUF)%nat; [done|]. apply length_alter. Qed.

Lemma len_set_prev b v c : length (bc_buf (set_prev b v c)) = length (bc_buf c).
Proof. unfold set_prev. destruct (b =? NBUF)%nat; [done|]. apply length_alter. Qed.

Lemma same_alter f b (l : list buf_t) : (forall y, unlinked (f y) = unlinked y) -> unlinked <$> alter f b l = unlinked <$> l.
Proof.
  intros Hf. apply list_eq. intros j. rewrite !list_lookup_fmap. destruct (decide (b = j)) as [->|Hne].
  - rewrite list_lookup_alter_eq. destruct (l !! j); simpl; [by rewrite Hf|done].
  - by rewrite list_lookup_alter_ne.
Qed.

Lemma same_set_next b v c c0 : same_bufs c0 c -> same_bufs c0 (set_next b v c).
Proof. unfold same_bufs, set_next. intros <-. destruct (b =? NBUF)%nat; [done|]. by apply same_alter. Qed.

Lemma same_set_prev b v c c0 : same_bufs c0 c -> same_bufs c0 (set_prev b v c).
Proof. unfold same_bufs, set_prev. intros <-. destruct (b =? NBUF)%nat; [done|]. by apply same_alter. Qed.

(** ** Moving a buffer *)

Lemma hd_reverse x l : hd x (reverse l) = List.last l x.
Proof.
  induction l as [|z l IH] using rev_ind; [done|]. rewrite reverse_snoc. simpl. by rewrite last_last.
Qed.

Lemma last_reverse x l : List.last (reverse l) x = hd x l.
Proof. by rewrite <-hd_reverse, reverse_involutive. Qed.

(** Reading a list off link functions that agree with the updated ones. *)
Lemma lru_intro c l f g :
  length (bc_buf c) = NBUF -> NoDup (NBUF :: l) -> (forall b, b ∈ l -> (b < NBUF)%nat) ->
  (forall x, next_of x c = f x) -> (forall x, prev_of x c = g x) ->
  chain f NBUF l NBUF -> chain g NBUF (reverse l) NBUF -> lru c l.
Proof.
  intros ? ? ? Hf Hg Cf Cg. constructor; [done..| |].
  - eapply chain_ext; [intros z _; apply Hf|done].
  - eapply chain_ext; [intros z _; apply Hg|done].
Qed.

Lemma lru_front c c' l b :
  lru c l -> b ∉ l -> (b < NBUF)%nat -> length (bc_buf c') = NBUF ->
  (forall x, next_of x c' = fupd (fupd (fun x => next_of x c) b (hd NBUF l)) NBUF b x) ->
  (forall x, prev_of x c' = fupd (fupd (fun x => prev_of x c) b NBUF) (hd NBUF l) b x) ->
  lru c' (b :: l).
Proof.
  intros [Hl Hnd Hr Hn Hp] Hb Hlt Hl' En Ep. pose proof Hnd as [HN Hndl]%NoDup_cons.
  assert (b <> NBUF) by lia.
  eapply lru_intro; [done| |set_solver|exact En|exact Ep| |].
  - rewrite !NoDup_cons. set_solver.
  - apply (chain_insert _ NBUF [] b l); [done|set_solver|done].
  - rewrite reverse_cons.
    replace (hd NBUF l) with (List.last (reverse l) NBUF) by apply last_reverse.
    apply (chain_insert _ NBUF (reverse l) b []); rewrite ?app_nil_r; [|set_solver|done].
    apply NoDup_cons. split; [set_solver|]. by rewrite reverse_Permutation.
Qed.

Lemma lru_unlink c c' l1 b l2 :
  lru c (l1 ++ b :: l2) -> length (bc_buf c') = NBUF ->
  (forall x, next_of x c' = fupd (fun x => next_of x c) (List.last l1 NBUF) (hd NBUF l2) x) ->
  (forall x, prev_of x c' = fupd (fun x => prev_of x c) (hd NBUF l2) (List.last l1 NBUF) x) ->
  lru c' (l1 ++ l2).
Proof.
  intros [Hl Hnd Hr Hn Hp] Hl' En Ep. pose proof Hnd as [HN Hndl]%NoDup_cons.
  eapply lru_intro; [done| |set_solver|exact En|exact Ep| |].
  - apply NoDup_cons. split; [set_solver|]. apply NoDup_app in Hndl as (? & Hd & [? ?]%NoDup_cons).
    apply NoDup_app. set_solver.
  - by apply (chain_unlink _ NBUF l1 b l2).
  - rewrite reverse_app, reverse_cons, <-app_assoc in Hp. rewrite reverse_app.
    rewrite <-(last_reverse NBUF l2), <-(hd_reverse NBUF l1). apply (chain_unlink _ NBUF _ b); [|done].
    apply NoDup_cons. split; [set_solver|]. rewrite <-reverse_Permutation in Hndl.
    by rewrite reverse_app, reverse_cons, <-app_assoc in Hndl.
Qed.

Lemma filter_ne_id b l : b ∉ l -> filter (.≠ b) l = l.
Proof.
  induction l as [|x l IH]; intros Hb; [done|]. rewrite filter_cons_True by set_solver. by rewrite IH by set_solver.
Qed.

Lemma to_front_split l1 b l2 : NoDup (l1 ++ b :: l2) -> to_front b (l1 ++ b :: l2) = b :: l1 ++ l2.
Proof.
  intros Hnd. unfold to_front. f_equal. rewrite filter_app, filter_cons_False by (intros Hc; done).
  apply NoDup_app in Hnd as (_ & Hd & [Hb _]%NoDup_cons).
  rewrite !filter_ne_id; [done|done|]. intros Hb1. apply (Hd b Hb1). set_solver.
Qed.

(** ** The searches *)

Definition cached (dev blockno : Z) c b : bool :=
  match bc_buf c !! b with Some x => (b_dev x =? dev) && (b_blockno x =? blockno) | None => false end.
Definition unused c b : bool :=
  match bc_buf c !! b with Some x => b_refcnt x =? 0 | None => false end.

Lemma next_of_buf b c v : (b < NBUF)%nat -> next_of b c = Some v -> exists x : buf_t, bc_buf c !! b = Some x /\ b_next x = v.
Proof.
  intros Hb. unfold next_of. destruct (Nat.eqb_spec b NBUF); [lia|]. intros (x & ? & ?)%fmap_Some. eauto.
Qed.

Lemma prev_of_buf b c v : (b < NBUF)%nat -> prev_of b c = Some v -> exists x : buf_t, bc_buf c !! b = Some x /\ b_prev x = v.
Proof.
  intros Hb. unfold prev_of. destruct (Nat.eqb_spec b NBUF); [lia|]. intros (x & ? & ?)%fmap_Some. eauto.
Qed.

Lemma find_cached_list dev blockno c p l fuel :
  chain (fun x => next_of x c) p l NBUF -> (forall b, b ∈ l -> (b < NBUF)%nat) -> (length l <= fuel)%nat ->
  find_cached fuel c (hd NBUF l) dev blockno = Some (List.find (cached dev blockno c) l).
Proof.
  revert p fuel. induction l as [|b l IH]; intros p fuel Hc Hr Hf; [by destruct fuel|].
  destruct fuel as [|fuel]; [simpl in Hf; lia|]. destruct Hc as [_ Hc].
  assert (Hb : (b < NBUF)%nat) by (apply Hr; set_solver).
  destruct (next_of_buf b c (hd NBUF l) Hb (chain_head _ _ _ _ Hc)) as (x & Hx & En).
  cbn [hd find_cached List.find]. unfold cached at 1. destruct (Nat.eqb_spec b NBUF); [lia|].
  rewrite Hx. cbn [mbind option_bind]. destruct (_ && _); [done|]. rewrite En.
  eapply IH; [exact Hc|set_solver|simpl in Hf; lia].
Qed.

Lemma find_unused_list c p l fuel :
  chain (fun x => prev_of x c) p l NBUF -> (forall b, b ∈ l -> (b < NBUF)%nat) -> (length l <= fuel)%nat ->
  find_unused_buf fuel c (hd NBUF l) = Some (List.find (unused c) l).
Proof.
  revert p fuel. induction l as [|b l IH]; intros p fuel Hc Hr Hf; [by destruct fuel|].
  destruct fuel as [|fuel]; [simpl in Hf; lia|]. destruct Hc as [_ Hc].
  assert (Hb : (b < NBUF)%nat) by (apply Hr; set_solver).
  destruct (prev_of_buf b c (hd NBUF l) Hb (chain_head _ _ _ _ Hc)) as (x & Hx & En).
  cbn [hd find_unused_buf List.find]. unfold unused at 1. destruct (Nat.eqb_spec b NBUF); [lia|].
  rewrite Hx. cbn [mbind option_bind]. destruct (b_refcnt x =? 0); [done|]. rewrite En.
  eapply IH; [exact Hc|set_solver|simpl in Hf; lia].
Qed.

Lemma lru_length c l : lru c l -> (length l <= NBUF)%nat.
Proof.
  intros [_ [_ Hnd]%NoDup_cons Hr _ _]. rewrite <-(length_seq NBUF 0).
  apply submseteq_length, NoDup_submseteq; [done|]. intros b Hb. apply elem_of_upto, Hr, Hb.
Qed.

Lemma lru_head c l : lru c l -> bc_head_next c = hd NBUF l /\ bc_head_prev c = hd NBUF (reverse l).
Proof.
  intros [_ _ _ Hn Hp]. apply chain_head in Hn, Hp. unfold next_of, prev_of in Hn, Hp.
  rewrite Nat.eqb_refl in Hn, Hp. by simplify_eq.
Qed.

Lemma lru_finds c l dev blockno : lru c l ->
  find_cached NBUF c (bc_head_next c) dev blockno = Some (List.find (cached dev blockno c) l) /\
  find_unused_buf NBUF c (bc_head_prev c) = Some (List.find (unused c) (reverse l)).
Proof.
  intros L. pose proof (lru_length c l L). destruct (lru_head c l L) as [-> ->]. destruct L as [_ _ Hr Hn Hp]. split.
  - by eapply find_cached_list.
  - eapply find_unused_list; [done|set_solver|by rewrite length_reverse].
Qed.

Lemma lru_upd c l b f :
  (forall y, b_next (f y) = b_next y) -> (forall y, b_prev (f y) = b_prev y) -> lru c l -> lru (upd_buf b f c) l.
Proof.
  intros Hn Hp [Hl Hnd Hr Cn Cp]. eapply lru_intro; [|done|done|..|exact Cn|exact Cp].
  - simpl. by rewrite length_alter.
  - intros x. by apply next_upd.
  - intros x. by apply prev_upd.
Qed.

End links.

(** ** Running the operations *)

Section runs.
Context `{Layout} `{Symbols} `{WaitFuel}.
Implicit Types (s : kernel) (h : hart) (c : bcache) (l : list nat) (b : nat).

Lemma bind_bc_set {A} f (g : unit -> K kernel A) h s :
  bind (bc_set f) g h s = g tt h (set_k_bcache (f (k_bcache s)) s).
Proof. done. Qed.

Lemma bind_buf_set {A} b f (g : unit -> K kernel A) h s :
  bind (buf_set b f) g h s = g tt h (set_k_bcache (upd_buf b f (k_bcache s)) s).
Proof. done. Qed.

Lemma bind_buf_get {A B} b (f : buf_t -> A) (g : A -> K kernel B) h s x :
  bc_buf (k_bcache s) !! b = Some x -> bind (buf_get b f) g h s = g (f x) h s.
Proof. intros E. unfold buf_get, bind, gets. simpl. by rewrite E. Qed.

Lemma bind_get_next {A} b v (g : nat -> K kernel A) h s :
  next_of b (k_bcache s) = Some v -> bind (get_next b) g h s = g v h s.
Proof. intros E. unfold get_next, bc_get, bind, gets. simpl. by rewrite E. Qed.

Lemma bind_get_prev {A} b v (g : nat -> K kernel A) h s :
  prev_of b (k_bcache s) = Some v -> bind (get_prev b) g h s = g v h s.
Proof. intros E. unfold get_prev, bc_get, bind, gets. simpl. by rewrite E. Qed.

Lemma next_head c : next_of NBUF c = Some (bc_head_next c).
Proof. unfold next_of. by rewrite Nat.eqb_refl. Qed.

Lemma hd_in l : (forall b, b ∈ l -> (b < NBUF)%nat) -> (hd NBUF l <= NBUF)%nat.
Proof. intros Hr. destruct l as [|b l]; [done|]. specialize (Hr b ltac:(set_solver)). simpl. lia. Qed.

Lemma last_le l : (forall b, b ∈ l -> (b < NBUF)%nat) -> (List.last l NBUF <= NBUF)%nat.
Proof.
  intros Hr. pose proof (last_in l NBUF) as Hi. apply elem_of_cons in Hi as [->|Hi]; [done|]. apply Hr in Hi. lia.
Qed.

(** *** link_front puts a buffer that is not in the list in front of it. *)

Definition fronted b c : bcache :=
  set_next NBUF b (set_prev (bc_head_next c) b (set_prev b NBUF (set_next b (bc_head_next c) c))).

Lemma link_front_run b h s : (b < NBUF)%nat -> link_front b h s = Done tt h (set_k_bcache (fronted b (k_bcache s)) s).
Proof.
  intros Hb. unfold link_front. rewrite (bind_get_next _ _ _ _ _ (next_head _)), !bind_bc_set.
  erewrite bind_get_next by (simpl; rewrite next_set_prev; unfold set_next; destruct (Nat.eqb_spec b NBUF); [lia|apply next_head]).
  done.
Qed.

Lemma fronted_links b c l x : lru c l -> (b < NBUF)%nat ->
  next_of x (fronted b c) = fupd (fupd (fun x => next_of x c) b (hd NBUF l)) NBUF b x /\
  prev_of x (fronted b c) = fupd (fupd (fun x => prev_of x c) b NBUF) (hd NBUF l) b x.
Proof.
  intros L Hb. pose proof (hd_in l (lru_range _ _ L)). destruct (lru_head c l L) as [E _].
  pose proof (lru_len _ _ L). unfold fronted. rewrite E. split.
  - rewrite next_set_next by (rewrite ?len_set_prev, ?len_set_next; lia). unfold fupd. case_decide; [done|].
    rewrite !next_set_prev, next_set_next by lia. done.
  - rewrite prev_set_next, prev_set_prev by (rewrite ?len_set_prev, ?len_set_next; lia). unfold fupd.
    case_decide; [done|]. rewrite prev_set_prev by (rewrite ?len_set_next; lia). unfold fupd.
    case_decide; [done|]. by rewrite prev_set_next.
Qed.

Lemma fronted_lru b c l : lru c l -> b ∉ l -> (b < NBUF)%nat -> lru (fronted b c) (b :: l) /\ same_bufs c (fronted b c).
Proof.
  intros L Hbl Hb. split.
  - eapply lru_front; [exact L|done|done|..].
    + unfold fronted. rewrite !len_set_next, !len_set_prev, !len_set_next. apply L.
    + intros x. by apply fronted_links.
    + intros x. by apply fronted_links.
  - unfold fronted. by apply same_set_next, same_set_prev, same_set_prev, same_set_next.
Qed.

(** *** brelse *)

(** The two assignments that take [b] out of the list. *)
Definition unlink (b n p : nat) c : bcache := set_next p n (set_prev n p c).

Lemma unlink_lru l1 b l2 c : lru c (l1 ++ b :: l2) ->
  let c' := unlink b (hd NBUF l2) (List.last l1 NBUF) c in lru c' (l1 ++ l2) /\ same_bufs c c'.
Proof.
  intros L c'. pose proof (hd_in l2) as Hh. pose proof (last_le l1) as Hl. pose proof (lru_range _ _ L).
  specialize (Hh ltac:(set_solver)). specialize (Hl ltac:(set_solver)). pose proof (lru_len _ _ L). split.
  - eapply lru_unlink; [exact L|..]; unfold c', unlink.
    + rewrite len_set_next, len_set_prev. lia.
    + intros x. rewrite next_set_next by (rewrite ?len_set_prev; lia). unfold fupd. by rewrite next_set_prev.
    + intros x. rewrite prev_set_next. by rewrite prev_set_prev by lia.
  - unfold c', unlink. by apply same_set_next, same_set_prev.
Qed.

(** Where the links of a buffer of the list lead. *)
Lemma lru_at c l1 b l2 : lru c (l1 ++ b :: l2) ->
  next_of b c = Some (hd NBUF l2) /\ prev_of b c = Some (List.last l1 NBUF).
Proof.
  intros [_ _ _ Hn Hp]. rewrite reverse_app, reverse_cons, <-app_assoc in Hp.
  apply chain_app in Hn as [_ Hn], Hp as [_ Hp]. apply chain_head in Hn, Hp. by rewrite hd_reverse in Hp.
Qed.

Definition move_front (b : nat) : K kernel unit :=
  n <- get_next b;;
  p <- get_prev b;;
  bc_set (set_prev n p);;
  p <- get_prev b;;
  n <- get_next b;;
  bc_set (set_next p n);;
  link_front b.

Lemma move_front_run b h s l : lru (k_bcache s) l -> b ∈ l ->
  exists c, move_front b h s = Done tt h (set_k_bcache c s) /\ lru c (to_front b l) /\ same_bufs (k_bcache s) c.
Proof.
  intros L Hb. pose proof (lru_range _ _ L b Hb) as Hlt. pose proof (lru_nodup _ _ L) as Hnd.
  apply list_elem_of_split in Hb as (l1 & l2 & ->). destruct (lru_at _ _ _ _ L) as [En Ep].
  destruct (unlink_lru _ _ _ _ L) as [L' S']. set (n := hd NBUF l2) in *. set (p := List.last l1 NBUF) in *.
  apply NoDup_cons in Hnd as [_ Hnd]. pose proof Hnd as (_ & Hd & [Hb2 _]%NoDup_cons)%NoDup_app.
  assert (Hbl : b ∉ l1 ++ l2) by (intros Hi; apply elem_of_app in Hi as [Hi|Hi]; [apply (Hd b Hi); set_solver|done]).
  assert (Hnb : n <> b).
  { unfold n. destruct l2 as [|w l2]; simpl; [lia|]. set_solver. }
  assert (Ep' : prev_of b (set_prev n p (k_bcache s)) = Some p).
  { pose proof (lru_range _ _ L). rewrite prev_set_prev; [|apply hd_in; set_solver|apply L]. unfold fupd.
    by rewrite decide_False by congruence. }
  destruct (fronted_lru b _ _ L' Hbl Hlt) as [L'' S''].
  exists (fronted b (unlink b n p (k_bcache s))). split_and!.
  - unfold move_front. rewrite (bind_get_next _ _ _ _ _ En), (bind_get_prev _ _ _ _ _ Ep), bind_bc_set.
    erewrite bind_get_prev by exact Ep'. erewrite bind_get_next by (simpl; rewrite next_set_prev; exact En).
    rewrite bind_bc_set. by rewrite link_front_run.
  - by rewrite to_front_split.
  - unfold same_bufs in *. congruence.
Qed.

Definition holds_buf (y : proc) (x : buf_t) : bool := truthy (sl_locked (b_lock x)) && (sl_pid (b_lock x) =? p_pid y).

Lemma holdingsleep_run b h s pr x y :
  in_syscall h pr -> k_proc s !! pr = Some y -> bc_buf (k_bcache s) !! b = Some x ->
  holdingsleep (SL_buf b) h s = Done (holds_buf y x) (settle h) s.
Proof.
  intros Hs Hy Hx. destruct (syscall_locked (L_buf b) h pr Hs ltac:(done)) as (Hwf & Hf & Hset & Hp & _).
  unfold holdingsleep. krun (acquire_run (L_buf b) h s (in_syscall_notin _ _ _ Hs)).
  simpl sl_get. rewrite (bind_buf_get _ _ _ _ _ _ Hx). unfold id.
  assert (Erel : release (L_buf b) (locked (L_buf b) h) s = Done tt (settle h) s).
  { apply release_run; [by eapply in_syscall_wf|by eapply in_syscall_notin|apply calm_refl]. }
  unfold holds_buf. destruct (truthy _); simpl andb.
  - rewrite !bind_assoc. pose proof (curproc_run _ s pr Hwf Hp) as Ec. rewrite Hset in Ec. krun Ec.
    rewrite bind_assoc, (bind_pget _ _ _ _ _ y Hy). ksimpl. by krun Erel.
  - ksimpl. by krun Erel.
Qed.

Lemma releasesleep_run b h s pr :
  in_syscall h pr -> length (k_proc s) = NPROC ->
  releasesleep (SL_buf b) h s =
  Done tt (settle h) (set_k_bcache (upd_buf b (fun x => set_b_lock (set_sl_pid 0 (set_sl_locked 0 (b_lock x))) x) (k_bcache s))
    (set_k_proc (woken (Ch_buflock b) (Some pr) (k_proc s)) s)).
Proof.
  intros Hs Hl. destruct (syscall_locked (L_buf b) h pr Hs ltac:(done)) as (Hwf & Hf & Hset & Hp & _).
  unfold releasesleep. krun (acquire_run (L_buf b) h s (in_syscall_notin _ _ _ Hs)).
  simpl sl_set. rewrite !bind_buf_set. set (s1 := set_k_bcache _ _).
  pose proof (wakeup_run (Ch_buflock b) _ s1 Hwf Hf Hl) as Ew. rewrite Hset, Hp in Ew. krun Ew.
  rewrite (release_run _ h); [|by eapply in_syscall_wf|by eapply in_syscall_notin|apply calm_refl].
  f_equal. unfold s1, upd_buf. simpl. by rewrite alter_comp.
Qed.

(** What brelse does to the buffer. *)
Definition released (x : buf_t) : buf_t :=
  set_b_refcnt (u32 (b_refcnt x - 1)) (set_b_lock (set_sl_pid 0 (set_sl_locked 0 (b_lock x))) x).

Lemma brelse_run b h s pr x y l :
  in_syscall h pr -> length (k_proc s) = NPROC -> k_proc s !! pr = Some y ->
  lru (k_bcache s) l -> b ∈ l -> bc_buf (k_bcache s) !! b = Some x -> holds_buf y x = true ->
  exists c, brelse b h s = Done tt (settle h) (set_k_bcache c (set_k_proc (woken (Ch_buflock b) (Some pr) (k_proc s)) s)) /\
    lru c (if b_refcnt (released x) =? 0 then to_front b l else l) /\ same_bufs (upd_buf b released (k_bcache s)) c.
Proof.
  intros Hs Hl Hy L Hb Hx Hh. unfold brelse. krun (holdingsleep_run b h s pr x y Hs Hy Hx). rewrite Hh. cbv iota beta delta [negb].
  pose proof (in_syscall_settle _ _ Hs) as Hs'. krun (releasesleep_run b _ s pr Hs' Hl). rewrite settle_idemp.
  set (s1 := set_k_bcache _ _). krun (acquire_run L_bcache _ s1 (in_syscall_notin L_bcache _ _ Hs')).
  rewrite bind_buf_set. set (s2 := set_k_bcache _ s1).
  assert (E2 : k_bcache s2 = upd_buf b released (k_bcache s)).
  { unfold s2, s1, upd_buf. simpl. by rewrite alter_comp. }
  assert (Hx2 : bc_buf (k_bcache s2) !! b = Some (released x)).
  { rewrite E2. unfold upd_buf. simpl. by rewrite list_lookup_alter_eq, Hx. }
  assert (L2 : lru (k_bcache s2) l) by (rewrite E2; by apply lru_upd).
  assert (Erel : forall s, release L_bcache (locked L_bcache (settle h)) s = Done tt (settle h) s).
  { intros t. rewrite (release_run _ (settle h)), settle_idemp; [done|by eapply in_syscall_wf|by eapply in_syscall_notin|apply calm_refl]. }
  rewrite (bind_buf_get _ _ _ _ _ _ Hx2). unfold when. destruct (b_refcnt (released x) =? 0).
  - destruct (move_front_run b (locked L_bcache (settle h)) s2 l L2 Hb) as (c & Em & Lc & Sc).
    exists c. rewrite E2 in Sc. split_and!; [|done|done].
    change (bind (move_front b) (fun _ => release L_bcache) (locked L_bcache (settle h)) s2 = Done tt (settle h) (set_k_bcache c
      (set_k_proc (woken (Ch_buflock b) (Some pr) (k_proc s)) s))). krun Em. by rewrite Erel.
  - exists (k_bcache s2). ksimpl. rewrite Erel. split_and!; [done|done|]. by rewrite E2.
Qed.

Lemma brelse_panics b h s pr x y :
  in_syscall h pr -> k_proc s !! pr = Some y -> bc_buf (k_bcache s) !! b = Some x -> holds_buf y x = false ->
  brelse b h s = Panic "brelse".
Proof. intros Hs Hy Hx Hh. unfold brelse. krun (holdingsleep_run b h s pr x y Hs Hy Hx). by rewrite Hh. Qed.

(** *** binit *)

Lemma lru_ext c c' l : length (bc_buf c') = NBUF ->
  (forall x, next_of x c' = next_of x c) -> (forall x, prev_of x c' = prev_of x c) -> lru c l -> lru c' l.
Proof. intros Hl En Ep [_ Hnd Hr Hn Hp]. by eapply (lru_intro _ _ (fun x => next_of x c) (fun x => prev_of x c)). Qed.

Definition binit_body (b : nat) : K kernel unit :=
  n <- get_next NBUF;;
  bc_set (set_next b n);;
  bc_set (set_prev b NBUF);;
  initsleeplock (SL_buf b);;
  n <- get_next NBUF;;
  bc_set (set_prev n b);;
  bc_set (set_next NBUF b).

Lemma binit_body_run b h s l : lru (k_bcache s) l -> b ∉ l -> (b < NBUF)%nat ->
  exists c, binit_body b h s = Done tt h (set_k_bcache c s) /\ lru c (b :: l).
Proof.
  intros L Hbl Hb. pose proof (lru_len _ _ L) as Hl. destruct (fronted_lru b _ l L Hbl Hb) as [Lf _].
  destruct (lru_head _ _ L) as [E _]. pose proof (hd_in l (lru_range _ _ L)) as Hh. unfold fronted in Lf. rewrite E in Lf.
  unfold binit_body. rewrite (bind_get_next _ _ _ _ _ (next_head _)), !bind_bc_set. rewrite E.
  unfold initsleeplock. simpl sl_set. rewrite bind_assoc, !bind_buf_set.
  erewrite bind_get_next; [|simpl; rewrite !next_upd by done; rewrite next_set_prev; unfold set_next;
    destruct (Nat.eqb_spec b NBUF); [lia|]; rewrite next_head; simpl; rewrite E; done].
  rewrite bind_bc_set. eexists. split; [reflexivity|]. simpl k_bcache.
  eapply lru_ext; [| | |exact Lf].
  - rewrite len_set_next, len_set_prev. simpl. by rewrite !length_alter, len_set_prev, len_set_next.
  - intros x. rewrite !next_set_next by (rewrite ?len_set_prev; simpl; rewrite ?length_alter, ?len_set_prev, ?len_set_next; lia).
    unfold fupd. case_decide; [done|]. rewrite next_set_prev. rewrite !next_upd by done. by rewrite !next_set_prev.
  - intros x. rewrite !prev_set_next, !prev_set_prev by (rewrite ?len_set_prev; simpl; rewrite ?length_alter, ?len_set_prev, ?len_set_next; lia).
    unfold fupd. case_decide; [done|]. rewrite !prev_upd by done. by rewrite prev_set_prev by (rewrite ?len_set_next; lia).
Qed.

Lemma binit_run h s : length (bc_buf (k_bcache s)) = NBUF ->
  exists c, binit h s = Done tt h (set_k_bcache c s) /\ lru c (reverse (upto NBUF)).
Proof.
  intros Hl. unfold binit. rewrite !bind_bc_set. set (s0 := set_k_bcache _ (set_k_bcache _ s)).
  assert (L0 : lru (k_bcache s0) (reverse (seq 0 0))).
  { constructor; [exact Hl|apply NoDup_singleton|intros b; rewrite elem_of_nil; done|done|done]. }
  cut (forall n k t, (k + n = NBUF)%nat -> lru (k_bcache t) (reverse (seq 0 k)) ->
    exists c, forM (seq k n) binit_body h t = Done tt h (set_k_bcache c t) /\ lru c (reverse (seq 0 NBUF))).
  { intros Hc. exact (Hc NBUF 0%nat s0 eq_refl L0). }
  induction n as [|n IH]; intros k t Hk L.
  - replace NBUF with k in * by lia. exists (k_bcache t). split; [by destruct t|done].
  - destruct (binit_body_run k h t _ L) as (c & E & L').
    + rewrite elem_of_reverse, elem_of_seq. lia.
    + lia.
    + simpl. krun E. destruct (IH (S k) (set_k_bcache c t)) as (c' & E' & L''); [lia| |].
      * rewrite seq_S, reverse_snoc. exact L'.
      * exists c'. by rewrite E'.
Qed.

(** *** bget *)

Definition grabbed (x : buf_t) : buf_t := set_b_refcnt (u32 (b_refcnt x + 1)) x.
Definition recycled (dev blockno : Z) (x : buf_t) : buf_t :=
  set_b_refcnt 1 (set_b_valid 0 (set_b_blockno blockno (set_b_dev dev x))).

(** The buffer bget chooses and what it makes of the cache: the one that caches the
    block, or else the least recently used one without a reference. *)
Definition choose (dev blockno : Z) l c : option (nat * bcache) :=
  match List.find (cached dev blockno c) l with
  | Some b => Some (b, upd_buf b grabbed c)
  | None => (fun b => (b, upd_buf b (recycled dev blockno) c)) <$> List.find (unused c) (reverse l)
  end.

(** At most one buffer for a block; device 0 marks the buffers never used. *)
Definition one_per_block c : Prop :=
  forall i j (x y : buf_t), bc_buf c !! i = Some x -> bc_buf c !! j = Some y ->
    b_dev x <> 0 -> b_dev x = b_dev y -> b_blockno x = b_blockno y -> i = j.

Lemma bget_run dev blockno h s l :
  hart_wf h -> L_bcache ∉ h_held h -> lru (k_bcache s) l ->
  bget dev blockno h s =
  match choose dev blockno l (k_bcache s) with
  | Some (b, c) => bind (acquiresleep (SL_buf b)) (fun _ => ret b) (settle h) (set_k_bcache c s)
  | None => Panic "bget: no buffers"
  end.
Proof.
  intros Hwf Hn L. destruct (lru_finds _ _ dev blockno L) as [Ec Eu].
  unfold bget, bc_get, choose. krun (acquire_run L_bcache h s Hn). rewrite bind_gets. unfold id. rewrite Ec.
  assert (Erel : forall s, release L_bcache (locked L_bcache h) s = Done tt (settle h) s).
  { intros t. by apply release_run; [..|apply calm_refl]. }
  destruct (List.find (cached _ _ _) l) as [b|].
  - cbn [deref]. ksimpl. rewrite bind_buf_set. by krun (Erel (set_k_bcache (upd_buf b grabbed (k_bcache s)) s)).
  - cbn [deref]. ksimpl. rewrite Eu. cbn [deref]. ksimpl. destruct (List.find _ (reverse l)) as [b|]; [|done].
    rewrite !bind_buf_set. set (s1 := set_k_bcache _ _). krun (Erel s1). cbn [fmap option_fmap option_map].
    f_equal. unfold s1, upd_buf. simpl. by rewrite !alter_comp.
Qed.

Lemma choose_ok dev blockno l c b c' :
  lru c l -> (forall b, (b < NBUF)%nat -> b ∈ l) -> one_per_block c -> choose dev blockno l c = Some (b, c') ->
  b ∈ l /\ lru c' l /\ one_per_block c' /\
  exists x, bc_buf c' !! b = Some x /\ b_dev x = dev /\ b_blockno x = blockno.
Proof.
  intros L Hall Ho. unfold choose. destruct (List.find (cached _ _ _) l) as [i|] eqn:Ef.
  - intros [= <- <-]. apply find_some in Ef as [Hi Hc]. unfold cached in Hc.
    destruct (bc_buf c !! i) as [x|] eqn:Hx; [|done]. apply andb_true_iff in Hc as [?%Z.eqb_eq ?%Z.eqb_eq].
    split_and!; [by apply list_elem_of_In|by apply lru_upd| |].
    + intros j k y z Hj Hk. unfold upd_buf in *. simpl in *.
      assert (Hf : forall j y, alter grabbed i (bc_buf c) !! j = Some y ->
        exists y', bc_buf c !! j = Some y' /\ b_dev y' = b_dev y /\ b_blockno y' = b_blockno y).
      { intros j' y' Hj'. destruct (decide (i = j')) as [<-|Hne]; [|rewrite list_lookup_alter_ne in Hj' by done; eauto].
        rewrite list_lookup_alter_eq, Hx in Hj'. simplify_eq/=. eauto. }
      destruct (Hf _ _ Hj) as (y' & Hy' & <- & <-). destruct (Hf _ _ Hk) as (z' & Hz' & <- & <-). by eapply Ho.
    + exists (grabbed x). unfold upd_buf. simpl. by rewrite list_lookup_alter_eq, Hx.
  - intros (i & Ei & [= -> ->])%fmap_Some. apply find_some in Ei as [Hi Hu]. unfold unused in Hu.
    destruct (bc_buf c !! i) as [x|] eqn:Hx; [|done].
    apply list_elem_of_In in Hi. rewrite elem_of_reverse in Hi.
    split_and!; [done|by apply lru_upd| |].
    + assert (Hnone : forall j y, bc_buf c !! j = Some y -> b_dev y = dev -> b_blockno y = blockno -> False).
      { intros j y Hy Hd Hb. pose proof (lookup_lt_Some _ _ _ Hy) as Hlt. rewrite (lru_len _ _ L) in Hlt.
        pose proof (find_none _ _ Ef j (proj1 (list_elem_of_In _ _) (Hall j Hlt))) as Hf. unfold cached in Hf.
        rewrite Hy, Hd, Hb, !Z.eqb_refl in Hf. done. }
      intros j k y z Hj Hk Hd Ed Eb. unfold upd_buf in *. simpl in *.
      assert (Hf : forall j y, alter (recycled dev blockno) i (bc_buf c) !! j = Some y ->
        j = i /\ b_dev y = dev /\ b_blockno y = blockno \/ bc_buf c !! j = Some y).
      { intros j' y' Hj'. destruct (decide (i = j')) as [<-|Hne]; [|rewrite list_lookup_alter_ne in Hj' by done; auto].
        rewrite list_lookup_alter_eq, Hx in Hj'. simplify_eq/=. auto. }
      destruct (Hf _ _ Hj) as [(-> & E1 & E2)|Hy], (Hf _ _ Hk) as [(-> & E3 & E4)|Hz]; [done|..].
      * exfalso. apply (Hnone k z Hz); congruence.
      * exfalso. apply (Hnone j y Hy); congruence.
      * by eapply Ho.
    + eexists. unfold upd_buf. simpl. rewrite list_lookup_alter_eq, Hx. done.
Qed.

(** C25: the buffer cache keeps its buffers in order of use. binit links all of them.
    bget takes the buffer that caches the block and counts a reference, or else recycles
    the least recently used buffer without a reference, or else panics, before it waits
    for the lock of the buffer; the buffer is then that of the block, the order is
    unchanged, and no block has two buffers. brelse, by the holder of the lock of the
    buffer (anyone else panics), unlocks it, wakes those who wait for it, drops a
    reference, and moves the buffer to the front when that was the last one. *)
Theorem buffer_cache_is_lru (h : hart) (s : kernel) (pr : nat) (y : proc) :
  in_syscall h pr -> length (k_proc s) = NPROC -> k_proc s !! pr = Some y ->
  (length (bc_buf (k_bcache s)) = NBUF ->
   exists c, binit h s = Done tt h (set_k_bcache c s) /\ lru c (reverse (upto NBUF))) /\
  forall l, lru (k_bcache s) l -> l ≡ₚ upto NBUF -> one_per_block (k_bcache s) ->
  (forall dev blockno,
   match choose dev blockno l (k_bcache s) with
   | None => bget dev blockno h s = Panic "bget: no buffers"
   | Some (b, c) =>
       bget dev blockno h s = bind (acquiresleep (SL_buf b)) (fun _ => ret b) (settle h) (set_k_bcache c s) /\
       lru c l /\ one_per_block c /\
       exists x, bc_buf c !! b = Some x /\ b_dev x = dev /\ b_blockno x = blockno
   end) /\
  (forall b x, bc_buf (k_bcache s) !! b = Some x ->
   if holds_buf y x then
     exists c, brelse b h s = Done tt (settle h)
         (set_k_bcache c (set_k_proc (woken (Ch_buflock b) (Some pr) (k_proc s)) s)) /\
       lru c (if b_refcnt (released x) =? 0 then to_front b l else l) /\
       same_bufs (upd_buf b released (k_bcache s)) c
   else brelse b h s = Panic "brelse").
Proof.
  intros Hs Hl Hy. split; [apply binit_run|]. intros l L Hp Ho.
  assert (Hall : forall b, (b < NBUF)%nat -> b ∈ l) by (intros b; by rewrite Hp, elem_of_upto). split.
  - intros dev blockno.
    pose proof (bget_run dev blockno h s l (in_syscall_wf _ _ Hs) (in_syscall_notin _ _ _ Hs) L) as E.
    destruct (choose dev blockno l (k_bcache s)) as [[b c]|] eqn:Ec; [|exact E].
    split; [exact E|]. by apply (choose_ok dev blockno l (k_bcache s)).
  - intros b x Hx. pose proof (lookup_lt_Some _ _ _ Hx) as Hlt. rewrite (lru_len _ _ L) in Hlt.
    destruct (holds_buf y x) eqn:Eh.
    + by eapply brelse_run; eauto.
    + by eapply brelse_panics.
Qed.

End runs.

(** ** Example *)

(** The cache after binit: looking up a block recycles buffer 0. *)
Definition demo_bcache : bcache :=
  match binit demo_user_hart demo_kernel with Done _ _ s => k_bcache s | _ => k_bcache demo_kernel end.
Definition demo_cached : kernel := set_k_bcache demo_bcache demo_kernel.

Lemma forallb_lookup {A} (P : A -> bool) (l : list A) i x : forallb P l = true -> l !! i = Some x -> P x = true.
Proof. intros F Hx. rewrite forallb_forall in F. apply F, list_elem_of_In. by eapply list_elem_of_lookup_2. Qed.

Lemma demo_unused : forall i (x : buf_t), bc_buf demo_bcache !! i = Some x -> b_dev x = 0.
Proof.
  assert (F : forallb (fun x => b_dev x =? 0) (bc_buf demo_bcache) = true) by (vm_compute; reflexivity).
  intros i x Hx. exact (proj1 (Z.eqb_eq _ _) (forallb_lookup _ _ _ _ F Hx)).
Qed.

Lemma demo_lru : lru demo_bcache (reverse (upto NBUF)).
Proof. destruct (binit_run demo_user_hart demo_kernel eq_refl) as (c & E & L). unfold demo_bcache. rewrite E. exact L. Qed.

Lemma demo_choose : choose 1 33 (reverse (upto NBUF)) demo_bcache = Some (0%nat, upd_buf 0 (recycled 1 33) demo_bcache).
Proof. vm_compute. reflexivity. Qed.

#[local] Opaque demo_bcache.

Lemma buffer_cache_is_lru_witness :
  exists c, bget 1 33 demo_user_hart demo_cached =
    bind (acquiresleep (SL_buf 0)) (fun _ => ret 0%nat) (settle demo_user_hart) (set_k_bcache c demo_cached) /\
    lru c (reverse (upto NBUF)).
Proof.
  destruct (buffer_cache_is_lru demo_user_hart demo_cached 0 demo_running) as [_ Hg].
  - split; [reflexivity|split; reflexivity].
  - reflexivity.
  - reflexivity.
  - change (k_bcache demo_cached) with demo_bcache in Hg. destruct (Hg _ demo_lru) as [Hget _].
    + apply reverse_Permutation.
    + intros i j x y Hx _ Hd. destruct (Hd (demo_unused i x Hx)).
    + specialize (Hget 1 33). rewrite demo_choose in Hget. destruct Hget as (E & Lc & _). eauto.
Defined.
