(* ===== verification/Ulib.v ===== *)
(** * Ulib

    User programs as interaction trees over the system calls of user/user.h, and the
    library they are linked with: user/ulib.c and user/printf.c.

    An event is a system call as the program sees it: the strings and buffers it passes are
    lists of bytes, the result carries what the kernel stored through the pointers. A
    program is a tree of these calls; what a call returns is up to the environment. *)
From Stdlib Require Import ZArith List.
From ITree Require Import ITree ITreeFacts.
From stdpp Require Import base tactics list numbers gmap strings.
From S2P Require Import Prelude Bytes Printf.

Declare Scope prog_scope.
Delimit Scope prog_scope with prog.
Notation "x <- t ;; k" := (ITree.bind t (fun x => k))
  (at level 100, t at next level, right associativity) : prog_scope.
Notation "t ;; k" := (ITree.bind t (fun _ => k)) (at level 100, right associativity) : prog_scope.
Local Open Scope prog_scope.

(** ** System calls *)

(** struct stat of kernel/stat.h *)
Record stat_t := Stat { st_dev : Z; st_ino : Z; st_type : Z; st_nlink : Z; st_size : Z }.

Variant sysE : Type -> Type :=
  | Fork : sysE Z
  | Exit (status : Z) : sysE Empty_set
  | Wait : sysE (Z * Z)                              (* pid, status *)
  | Pipe : sysE (Z * (Z * Z))                        (* result, p[0], p[1] *)
  | Write (fd : Z) (data : list Z) : sysE Z
  | Read (fd n : Z) : sysE (Z * list Z)              (* result, what was stored *)
  | Close (fd : Z) : sysE Z
  | Kill (pid : Z) : sysE Z
  | Exec (path : list Z) (argv : list (list Z)) : sysE Z
  | Open (path : list Z) (mode : Z) : sysE Z
  | Mknod (path : list Z) (major minor : Z) : sysE Z
  | Unlink (path : list Z) : sysE Z
  | Fstat (fd : Z) : sysE (Z * stat_t)
  | Link (old new : list Z) : sysE Z
  | Mkdir (path : list Z) : sysE Z
  | Chdir (path : list Z) : sysE Z
  | Dup (fd : Z) : sysE Z
  | Getpid : sysE Z
  | Sbrk (n : Z) : sysE Z
  | Sleep (n : Z) : sysE Z
  | Uptime : sysE Z
  | Trace (mask : Z) : sysE Z
  | Waitx : sysE (Z * (Z * Z))                       (* pid, second and third result *)
  | Set_priority (priority pid : Z) : sysE Z.

Abbreviation prog := (itree sysE).
Abbreviation call := (@ITree.trigger sysE).

Definition exit {A} (status : Z) : prog A :=
  v <- call (Exit status);; match v with end.

(** An access through a wild pointer: usertrap kills the process. *)
Definition fault {A} : prog A := exit (-1).

(** [for (x in l) f(x)] *)
Fixpoint each {A} (l : list A) (f : A -> prog unit) : prog unit :=
  match l with
  | [] => Ret tt
  | x :: l => f x;; each l f
  end.

(** A string constant that ends in a newline. *)
Definition ln (s : string) : string := String.append s (String.String (Ascii.ascii_of_nat 10) EmptyString).

(** ** user/ulib.c

    A string is the list of its bytes before the NUL. *)

Module Lib.

(** The bytes stored at [s]. *)
Fixpoint strcpy (t : list Z) : list Z :=
  match t with [] => [0] | c :: t => c :: strcpy t end.

Fixpoint strcmp (p q : list Z) : Z :=
  match p, q with
  | [], [] => 0
  | [], c :: _ => - u8 c
  | c :: _, [] => u8 c
  | c :: p, d :: q => if c =? d then strcmp p q else u8 c - u8 d
  end.

Fixpoint strlen (s : list Z) : Z :=
  match s with [] => 0 | _ :: s => 1 + strlen s end.

Definition memset (m : mem) (dst c n : Z) : mem := memset_loop m dst c (Z.to_nat (u32 n)).

Fixpoint strchr (s : list Z) (c : Z) : option nat :=
  match s with
  | [] => None
  | x :: s => if x =? c then Some 0%nat else S <$> strchr s c
  end.

Definition memmove (m : mem) (dst src n : Z) : mem :=
  if dst <? src then copy_up m dst src (Z.to_nat n)
  else copy_down m (dst + n) (src + n) (Z.to_nat n).

Definition memcpy (m : mem) (dst src n : Z) : mem := memmove m dst src n.

(** char is unsigned on RISC-V. *)
Fixpoint memcmp (p1 p2 : nat -> Z) (n : nat) : Z :=
  match n with
  | O => 0
  | S n => if negb (p1 0%nat =? p2 0%nat) then p1 0%nat - p2 0%nat else memcmp (shift p1) (shift p2) n
  end.

Fixpoint atoi_loop (n : Z) (s : list Z) : Z :=
  match s with
  | [] => n
  | c :: s => if (48 <=? c) && (c <=? 57) then atoi_loop (i32 (n * 10 + c - 48)) s else n
  end.
Definition atoi (s : list Z) : Z := atoi_loop 0 s.

(** The bytes gets leaves in [buf] before the NUL; [n] is the room for them. *)
Fixpoint gets_loop (n : nat) : prog (list Z) :=
  match n with
  | O => Ret []
  | S n =>
      r <- call (Read 0 1);;
      if r.1 <? 1 then Ret [] else
      let c := hd 0 r.2 in
      if (c =? 10) || (c =? 13) then Ret [c] else
      l <- gets_loop n;; Ret (c :: l)
  end.
Definition gets (max : Z) : prog (list Z) := gets_loop (Z.to_nat (max - 1)).

(** [None]: [*st] is not written. *)
Definition stat (n : list Z) : prog (Z * option stat_t) :=
  fd <- call (Open n 0);;
  if fd <? 0 then Ret (-1, None) else
  r <- call (Fstat fd);;
  call (Close fd);;
  Ret (r.1, Some r.2).

(** ** user/printf.c *)

Definition digits : list Z := str "0123456789ABCDEF".
Definition digit (d : Z) : Z := default 0 (digits !! Z.to_nat d).

Definition putc (fd c : Z) : prog unit := call (Write fd [u8 c]);; Ret tt.

Fixpoint printint_loop (fuel : nat) (x base : Z) : list Z :=
  match fuel with
  | O => []
  | S f => digit (x mod base) :: (let x := x / base in if x =? 0 then [] else printint_loop f x base)
  end.

(** A 32-bit number has at most 32 digits. *)
Definition printint (fd xx base : Z) (sgn : bool) : prog unit :=
  let neg := sgn && (xx <? 0) in
  let x := if neg then u32 (- xx) else u32 xx in
  let buf := printint_loop 32 x base in
  let buf := if neg then buf ++ [45] else buf in
  each (reverse buf) (putc fd).

Definition printptr (fd x : Z) : prog unit :=
  putc fd 48;;
  putc fd 120;;
  each (upto 16) (fun i => putc fd (digit (Z.shiftr (u64 (Z.shiftl x (4 * Z.of_nat i))) 60))).

(** [state] is 0 or '%'. A missing argument is a wild read. *)
Fixpoint vprintf (fd : Z) (state : bool) (fmt : list Z) (ap : list va) : prog unit :=
  match fmt with
  | [] => Ret tt
  | c :: fmt =>
      if negb state then
        if c =? 37 then vprintf fd true fmt ap
        else putc fd c;; vprintf fd false fmt ap
      else if c =? 100 then
        match ap with VInt x :: ap => printint fd (i32 x) 10 true;; vprintf fd false fmt ap | _ => fault end
      else if c =? 108 then
        match ap with VInt x :: ap => printint fd (i32 x) 10 false;; vprintf fd false fmt ap | _ => fault end
      else if c =? 120 then
        match ap with VInt x :: ap => printint fd (i32 x) 16 false;; vprintf fd false fmt ap | _ => fault end
      else if c =? 112 then
        match ap with VInt x :: ap => printptr fd (u64 x);; vprintf fd false fmt ap | _ => fault end
      else if c =? 115 then
        match ap with
        | VStr s :: ap => each (default (str "(null)") s) (putc fd);; vprintf fd false fmt ap
        | _ => fault
        end
      else if c =? 99 then
        match ap with VInt x :: ap => putc fd (u32 x);; vprintf fd false fmt ap | _ => fault end
      else if c =? 37 then putc fd c;; vprintf fd false fmt ap
      else putc fd 37;; putc fd c;; vprintf fd false fmt ap
  end.

Definition fprintf (fd : Z) (fmt : string) (ap : list va) : prog unit := vprintf fd false (str fmt) ap.
Definition printf (fmt : string) (ap : list va) : prog unit := vprintf 1 false (str fmt) ap.

End Lib.
