(* ===== verification/Uprogs.v ===== *)
(** * Uprogs

    The small user programs: cat.c, wc.c, echo.c, kill.c, ln.c, mkdir.c, rm.c, ls.c,
    strace.c, time.c, schedulertest.c, setpriority.c, set_priority.c, zombie.c, init.c,
    forktest.c, stressfs.c. [argv] includes the name of the program.

    The programs are linked with the entry point main and without start-up code, so a
    main that returns jumps to whatever is in the return address register. *)
From Stdlib Require Import ZArith List.
From ITree Require Import ITree ITreeFacts.
From stdpp Require Import base tactics list numbers gmap strings.
From S2P Require Import Prelude Bytes Printf Kernel Fs File Sysfile Ulib.
Import Lib.
Local Open Scope prog_scope.

(** argv[i] *)
Definition arg (argv : list (list Z)) (i : nat) : list Z := default [] (argv !! i).

Module Cat.

Definition cat (fd : Z) : prog unit :=
  ITree.iter (fun _ : unit =>
    r <- call (Read fd 512);;
    if 0 <? r.1 then
      w <- call (Write 1 r.2);;
      if negb (w =? r.1) then fprintf 2 (ln "cat: write error") [];; exit 1
      else Ret (inl tt)
    else if r.1 <? 0 then fprintf 2 (ln "cat: read error") [];; exit 1
    else Ret (inr tt)) tt.

Definition main (argv : list (list Z)) : prog Empty_set :=
  if (length argv <=? 1)%nat then cat 0;; exit 0 else
  each (tail argv) (fun name =>
    fd <- call (Open name 0);;
    if fd <? 0 then fprintf 2 (ln "cat: cannot open %s") [VStr (Some name)];; exit 1 else
    cat fd;;
    call (Close fd);;
    Ret tt);;
  exit 0.

End Cat.

Module Wc.

(** l, w, c and inword; the counters are ints. *)
Record counts := Counts { n_l : Z; n_w : Z; n_c : Z; inword : bool }.

Definition count1 (x : counts) (ch : Z) : counts :=
  let c := i32 (n_c x + 1) in
  let l := if ch =? 10 then i32 (n_l x + 1) else n_l x in
  match strchr [32; 13; 9; 10; 11] ch with
  | Some _ => Counts l (n_w x) c false
  | None => if inword x then Counts l (n_w x) c true else Counts l (i32 (n_w x + 1)) c true
  end.

Definition wc (fd : Z) (name : list Z) : prog unit :=
  x <- ITree.iter (fun x : counts =>
    r <- call (Read fd 512);;
    if 0 <? r.1 then Ret (inl (foldl count1 x r.2))
    else if r.1 <? 0 then printf (ln "wc: read error") [];; exit 1
    else Ret (inr x)) (Counts 0 0 0 false);;
  printf (ln "%d %d %d %s") [VInt (n_l x); VInt (n_w x); VInt (n_c x); VStr (Some name)].

Definition main (argv : list (list Z)) : prog Empty_set :=
  if (length argv <=? 1)%nat then wc 0 [];; exit 0 else
  each (tail argv) (fun name =>
    fd <- call (Open name 0);;
    if fd <? 0 then printf (ln "wc: cannot open %s") [VStr (Some name)];; exit 1 else
    wc fd name;;
    call (Close fd);;
    Ret tt);;
  exit 0.

End Wc.

Module Echo.

Fixpoint echo (args : list (list Z)) : prog unit :=
  match args with
  | [] => Ret tt
  | a :: args =>
      call (Write 1 a);;
      call (Write 1 (match args with [] => [10] | _ => [32] end));;
      echo args
  end.
Definition main (argv : list (list Z)) : prog Empty_set := echo (tail argv);; exit 0.

End Echo.

(** Apply [f] to the arguments until it says stop. *)
Fixpoint each_until (l : list (list Z)) (f : list Z -> prog bool) : prog unit :=
  match l with
  | [] => Ret tt
  | x :: l => stop <- f x;; if stop : bool then Ret tt else each_until l f
  end.

Definition kill_main (argv : list (list Z)) : prog Empty_set :=
  if (length argv <? 2)%nat then fprintf 2 (ln "usage: kill pid...") [];; exit 1 else
  each (tail argv) (fun a => call (Kill (atoi a));; Ret tt);;
  exit 0.

Definition ln_main (argv : list (list Z)) : prog Empty_set :=
  if negb (length argv =? 3)%nat then fprintf 2 (ln "Usage: ln old new") [];; exit 1 else
  r <- call (Link (arg argv 1) (arg argv 2));;
  (if r <? 0 then fprintf 2 (ln "link %s %s: failed") [VStr (Some (arg argv 1)); VStr (Some (arg argv 2))] else Ret tt);;
  exit 0.

Definition mkdir_main (argv : list (list Z)) : prog Empty_set :=
  if (length argv <? 2)%nat then fprintf 2 (ln "Usage: mkdir files...") [];; exit 1 else
  each_until (tail argv) (fun a =>
    r <- call (Mkdir a);;
    if r <? 0 then fprintf 2 (ln "mkdir: %s failed to create") [VStr (Some a)];; Ret true else Ret false);;
  exit 0.

Definition rm_main (argv : list (list Z)) : prog Empty_set :=
  if (length argv <? 2)%nat then fprintf 2 (ln "Usage: rm files...") [];; exit 1 else
  each_until (tail argv) (fun a =>
    r <- call (Unlink a);;
    if r <? 0 then fprintf 2 (ln "rm: %s failed to delete") [VStr (Some a)];; Ret true else Ret false);;
  exit 0.

(** nargv[] is not initialised and gets no NULL: [junk] are the strings the rest of it
    happens to point to before a NULL. *)
Definition strace_main (junk : list (list Z)) (argv : list (list Z)) : prog Empty_set :=
  let c := hd 0 (arg argv 1) in
  if (length argv <? 3)%nat || ((c <? 48) || (57 <? c)) then
    fprintf 2 (ln "Usage: %s mask command") [VStr (Some (arg argv 0))];; exit 1 else
  r <- call (Trace (atoi (arg argv 1)));;
  if r <? 0 then fprintf 2 (ln "trace failed") [];; exit 1 else
  call (Exec (arg argv 2) (take 98 (drop 2 argv) ++ junk));;
  exit 0.

Definition setpriority_main (argv : list (list Z)) : prog Empty_set :=
  if negb (length argv =? 3)%nat then printf (ln "Invalid Argument Count") [];; exit 1 else
  call (Set_priority (atoi (arg argv 1)) (atoi (arg argv 2)));;
  exit 0.

Definition set_priority_main (argv : list (list Z)) : prog Empty_set :=
  if negb (length argv =? 3)%nat then printf "Usage: setPriority new_priority pid" [];; exit 1 else
  call (Set_priority (atoi (arg argv 1)) (atoi (arg argv 2)));;
  exit 1.

Definition zombie_main : prog Empty_set :=
  pid <- call Fork;;
  (if 0 <? pid then call (Sleep 5);; Ret tt else Ret tt);;
  exit 0.

Module Init.

(** Wait until the shell exits; other children are orphans. *)
Definition reap (pid : Z) : prog unit :=
  ITree.iter (fun _ : unit =>
    r <- call Wait;;
    if r.1 =? pid then Ret (inr tt)
    else if r.1 <? 0 then printf (ln "init: wait returned an error") [];; exit 1
    else Ret (inl tt)) tt.

Definition main : prog Empty_set :=
  fd <- call (Open (str "console") O_RDWR);;
  (if fd <? 0 then
     call (Mknod (str "console") CONSOLE 0);;
     call (Open (str "console") O_RDWR);;
     Ret tt
   else Ret tt);;
  call (Dup 0);;
  call (Dup 0);;
  ITree.iter (fun _ : unit =>
    printf (ln "init: starting sh") [];;
    pid <- call Fork;;
    if pid <? 0 then printf (ln "init: fork failed") [];; exit 1 else
    if pid =? 0 then
      call (Exec (str "sh") [str "sh"]);;
      printf (ln "init: exec sh failed") [];;
      exit 1
    else
      reap pid;;
      Ret (inl tt)) tt.

End Init.

Module Forktest.

Definition N : nat := 1000.

Definition print (s : string) : prog unit := call (Write 1 (str s));; Ret tt.

(** The number of children, [todo] of N still to be tried. *)
Fixpoint fork_loop (todo n : nat) : prog nat :=
  match todo with
  | O => Ret n
  | S todo =>
      pid <- call Fork;;
      if pid <? 0 then Ret n else
      if pid =? 0 then exit 0 else fork_loop todo (S n)
  end.

Fixpoint wait_loop (n : nat) : prog unit :=
  match n with
  | O => Ret tt
  | S n =>
      r <- call Wait;;
      if r.1 <? 0 then print (ln "wait stopped early");; exit 1 else wait_loop n
  end.

Definition forktest : prog unit :=
  print (ln "fork test");;
  n <- fork_loop N 0;;
  if (n =? N)%nat then print (ln "fork claimed to work N times!");; exit 1 else
  wait_loop n;;
  r <- call Wait;;
  if negb (r.1 =? -1) then print (ln "wait got too many");; exit 1 else
  print (ln "fork test OK").

Definition main : prog Empty_set := forktest;; exit 0.

End Forktest.

Module Stressfs.

(** The index [i] after the loop that forks four times at most. *)
Fixpoint spawn (todo : nat) (i : Z) : prog Z :=
  match todo with
  | O => Ret i
  | S todo => pid <- call Fork;; if 0 <? pid then Ret i else spawn todo (i + 1)
  end.

Definition main : prog Empty_set :=
  printf (ln "stressfs starting") [];;
  let data := replicate 512 97 in
  i <- spawn 4 0;;
  printf (ln "write %d") [VInt i];;
  let path := str "stressfs" ++ [u8 (48 + i)] in
  fd <- call (Open path (Z.lor O_CREATE O_RDWR));;
  each (upto 20) (fun _ => call (Write fd data);; Ret tt);;
  call (Close fd);;
  printf (ln "read") [];;
  fd <- call (Open path O_RDONLY);;
  each (upto 20) (fun _ => call (Read fd 512);; Ret tt);;
  call (Close fd);;
  call Wait;;
  exit 0.

End Stressfs.

Module Time.

Definition main (argv : list (list Z)) : prog Empty_set :=
  pid <- call Fork;;
  if pid <? 0 then printf (ln "fork(): failed") [];; exit 1 else
  if pid =? 0 then
    if (length argv =? 1)%nat then call (Sleep 10);; exit 0
    else
      call (Exec (arg argv 1) (tail argv));;
      printf (ln "exec(): failed") [];;
      exit 1
  else
    r <- call Waitx;;
    let '(_, (wtime, rtime)) := r in
    printf (ln (String.append (ln "") (String.append (ln "waiting:%d") "running:%d"))) [VInt wtime; VInt rtime];;
    exit 0.

End Time.

Module Schedulertest.

Definition NFORK : nat := 10.
Definition IO : nat := 5.

(** The number of children started; [pbs] says whether the kernel is built with PBS. The
    loop of a CPU-bound child does nothing a caller could see. *)
Fixpoint start (pbs : bool) (todo n : nat) : prog nat :=
  match todo with
  | O => Ret n
  | S todo =>
      pid <- call Fork;;
      if pid <? 0 then Ret n else
      if pid =? 0 then (if (n <? IO)%nat then call (Sleep 200);; exit 0 else exit 0)
      else
        (if pbs then call (Set_priority (60 - Z.of_nat IO + Z.of_nat n) pid);; Ret tt else Ret tt);;
        start pbs todo (S n)
  end.

Fixpoint collect (n : nat) (trtime twtime : Z) : prog (Z * Z) :=
  match n with
  | O => Ret (trtime, twtime)
  | S n =>
      r <- call Waitx;;
      let '(pid, (rtime, wtime)) := r in
      if 0 <=? pid then collect n (i32 (trtime + rtime)) (i32 (twtime + wtime))
      else collect n trtime twtime
  end.

(** main returns instead of calling exit. *)
Definition main (pbs : bool) : prog Empty_set :=
  n <- start pbs NFORK 0;;
  r <- collect n 0 0;;
  printf (ln "Average rtime %d,  wtime %d") [VInt (divw r.1 10); VInt (divw r.2 10)];;
  fault.

End Schedulertest.

Module Ls.

(** What follows the last slash. *)
Fixpoint after_slash (path : list Z) : list Z :=
  match path with
  | [] => []
  | c :: path' => if existsb (Z.eqb 47) path' then after_slash path' else if c =? 47 then path' else path
  end.

Definition fmtname (path : list Z) : list Z :=
  let p := after_slash path in
  if Z.of_nat DIRSIZ <=? strlen p then p else p ++ replicate (DIRSIZ - length p) 32.

Definition show (fmt : string) (path : list Z) (st : stat_t) : prog unit :=
  printf fmt [VStr (Some (fmtname path)); VInt (st_type st); VInt (st_ino st); VInt (st_size st)].

(** One round per directory entry. *)
Definition entries (fd : Z) (path : list Z) : prog unit :=
  ITree.iter (fun _ : unit =>
    r <- call (Read fd 16);;
    if negb (r.1 =? 16) then Ret (inr tt) else
    if le_value (take 2 r.2) =? 0 then Ret (inl tt) else
    let buf := path ++ [47] ++ cstr (take DIRSIZ (drop 2 r.2)) in
    s <- stat buf;;
    match s with
    | (r, Some st) =>
        if r <? 0 then printf (ln "ls: cannot stat %s") [VStr (Some buf)];; Ret (inl tt)
        else show (ln "%s %d %d %d") buf st;; Ret (inl tt)
    | (_, None) => printf (ln "ls: cannot stat %s") [VStr (Some buf)];; Ret (inl tt)
    end) tt.

Definition ls (path : list Z) : prog unit :=
  fd <- call (Open path 0);;
  if fd <? 0 then fprintf 2 (ln "ls: cannot open %s") [VStr (Some path)] else
  r <- call (Fstat fd);;
  if r.1 <? 0 then
    fprintf 2 (ln "ls: cannot stat %s") [VStr (Some path)];;
    call (Close fd);;
    Ret tt
  else
    (if st_type r.2 =? T_FILE then show (ln "%s %d %d %l") path r.2
     else if st_type r.2 =? T_DIR then
       if 512 <? strlen path + 1 + Z.of_nat DIRSIZ + 1 then printf (ln "ls: path too long") []
       else entries fd path
     else Ret tt);;
    call (Close fd);;
    Ret tt.

Definition main (argv : list (list Z)) : prog Empty_set :=
  if (length argv <? 2)%nat then ls (str ".");; exit 0 else
  each (tail argv) ls;;
  exit 0.

End Ls.
