(* ===== verification/Shell.v ===== *)
(** * Shell

    The parser of user/sh.c: the tokens of a command line, the recursive descent into a
    [struct cmd], and nulterminate, which cuts the line into strings in place.

    The line is the array [buf], a list of bytes that ends in NUL; a [char *] into it is
    an index. [struct cmd] is a tree whose strings are of type [S]: while parsing, the
    pair of the pointers to the start of a token and behind its end ([argv] and [eargv],
    [file] and [efile]); for a reader of the command, the string itself. *)
From stdpp Require Import base tactics list sets numbers strings.
From S2P Require Import Prelude Printf Kernel Sysfile.

(** ** Data *)

Definition MAXARGS : nat := 10.

Inductive cmd (S : Type) :=
  | EXEC (argv : list S)
  | REDIR (c : cmd S) (file : S) (mode fd : Z)
  | PIPE (left right : cmd S)
  | LIST (left right : cmd S)
  | BACK (c : cmd S).
#[global] Arguments EXEC {S} argv.
#[global] Arguments REDIR {S} c file mode fd.
#[global] Arguments PIPE {S} left right.
#[global] Arguments LIST {S} left right.
#[global] Arguments BACK {S} c.

(** q and eq of a token *)
Definition token : Type := nat * nat.

Definition NL : Z := 10.
Definition SPACE : Z := 32.
(** ' ', '\t', '\r', '\n', '\v' *)
Definition whitespace : list Z := [SPACE; 9; 13; NL; 11].
Definition LT : Z := 60.
Definition GT : Z := 62.
Definition BAR : Z := 124.
Definition AMP : Z := 38.
Definition SEMI : Z := 59.
Definition LPAR : Z := 40.
Definition RPAR : Z := 41.
Definition symbols : list Z := [LT; BAR; GT; AMP; SEMI; LPAR; RPAR].

(** strchr(set, c) != 0 for a character that is not NUL; for NUL it is 0 too. *)
Definition in_set (set : list Z) (c : Z) : bool := existsb (Z.eqb c) set.
#[global] Arguments in_set : simpl never.

(** The tokens gettoken returns: 0, a symbol, '+' for >>, and 'a' for a word. *)
Inductive tok := T_end | T_sym (c : Z) | T_append | T_word.

(** ** The parser's monad: the position [*ps], and what is printed before exit(1) *)

Inductive presult (A : Type) :=
  | POk (a : A) (s : nat)
  | PErr (out : list Z)
  | PNoFuel.
#[global] Arguments POk {A} a s.
#[global] Arguments PErr {A} out.
#[global] Arguments PNoFuel {A}.

Definition P (A : Type) : Type := nat -> presult A.
Definition pret {A} (a : A) : P A := fun s => POk a s.
Definition pbind {A B} (m : P A) (f : A -> P B) : P B := fun s =>
  match m s with POk a s' => f a s' | PErr out => PErr out | PNoFuel => PNoFuel end.
(** panic() prints the message on file descriptor 2 and exits. *)
Definition panic {A} (msg : string) : P A := fun _ => PErr (str msg ++ [NL]).
Definition pnofuel {A} : P A := fun _ => PNoFuel.

Declare Scope shell_scope.
Delimit Scope shell_scope with shell.
Notation "x <- m ;; k" := (pbind m (fun x => k)) (at level 100, m at next level, right associativity) : shell_scope.
Notation "m ;; k" := (pbind m (fun _ => k)) (at level 100, right associativity) : shell_scope.
Local Open Scope shell_scope.

Definition O_OUT : Z := Z.lor (Z.lor O_WRONLY O_CREATE) O_TRUNC.
Definition O_APP : Z := Z.lor O_WRONLY O_CREATE.

Section parser.
(** The line and the pointer to its NUL. *)
Context (buf : list Z) (es : nat).

Definition at_ (s : nat) : Z := default 0 (buf !! s).

(** [while (s < es && f( *s )) s++] *)
Fixpoint skip (f : Z -> bool) (n : nat) (s : nat) : nat :=
  match n with
  | O => s
  | S n => if f (at_ s) then skip f n (S s) else s
  end.
Definition skip_space (s : nat) : nat := skip (in_set whitespace) (es - s) s.

Definition word_char (c : Z) : bool := negb (in_set whitespace c) && negb (in_set symbols c).

Definition gettoken : P (tok * token) := fun s =>
  let q := skip_space s in
  let c := at_ q in
  let '(t, e) :=
    if c =? 0 then (T_end, q)
    else if c =? GT then
      if at_ (S q) =? GT then (T_append, S (S q)) else (T_sym c, S q)
    else if in_set symbols c then (T_sym c, S q)
    else (T_word, skip word_char (es - q) q) in
  POk (t, (q, e)) (skip_space e).

Definition peek (toks : list Z) : P bool := fun s =>
  let q := skip_space s in POk (in_set toks (at_ q)) q.

Fixpoint parseredirs_loop (fuel : nat) (c : cmd token) : P (cmd token) :=
  b <- peek [LT; GT];;
  if negb b then pret c else
  match fuel with
  | O => pnofuel
  | S f =>
      t <- gettoken;;
      w <- gettoken;;
      match w with
      | (T_word, file) =>
          match t.1 with
          | T_sym s => parseredirs_loop f (if s =? LT then REDIR c file O_RDONLY 0 else REDIR c file O_OUT 1)
          | T_append => parseredirs_loop f (REDIR c file O_APP 1)
          | _ => parseredirs_loop f c
          end
      | _ => panic "missing file for redirection"
      end
  end.
Definition parseredirs (c : cmd token) : P (cmd token) := parseredirs_loop es c.

(** [cmd->argv[argc] = q]: the execcmd is at the bottom of the redirections around it. *)
Fixpoint add_arg (c : cmd token) (w : token) : cmd token :=
  match c with
  | EXEC argv => EXEC (argv ++ [w])
  | REDIR c file mode fd => REDIR (add_arg c w) file mode fd
  | _ => c
  end.

Fixpoint parseargs (fuel : nat) (ret : cmd token) (argc : nat) : P (cmd token) :=
  b <- peek [BAR; RPAR; AMP; SEMI];;
  if b then pret ret else
  match fuel with
  | O => pnofuel
  | S f =>
      t <- gettoken;;
      match t with
      | (T_end, _) => pret ret
      | (T_word, w) =>
          if (MAXARGS <=? S argc)%nat then panic "too many args" else
          ret <- parseredirs (add_arg ret w);;
          parseargs f ret (S argc)
      | _ => panic "syntax"
      end
  end.

Fixpoint parseback (fuel : nat) (c : cmd token) : P (cmd token) :=
  b <- peek [AMP];;
  if negb b then pret c else
  match fuel with
  | O => pnofuel
  | S f => gettoken;; parseback f (BACK c)
  end.

Fixpoint parseline (fuel : nat) : P (cmd token) :=
  match fuel with
  | O => pnofuel
  | S f =>
      c <- parsepipe f;;
      c <- parseback es c;;
      b <- peek [SEMI];;
      if b then gettoken;; r <- parseline f;; pret (LIST c r) else pret c
  end
with parsepipe (fuel : nat) : P (cmd token) :=
  match fuel with
  | O => pnofuel
  | S f =>
      c <- parseexec f;;
      b <- peek [BAR];;
      if b then gettoken;; r <- parsepipe f;; pret (PIPE c r) else pret c
  end
with parseexec (fuel : nat) : P (cmd token) :=
  match fuel with
  | O => pnofuel
  | S f =>
      b <- peek [LPAR];;
      if b then parseblock f else
      ret <- parseredirs (EXEC []);;
      parseargs (S es) ret 0
  end
with parseblock (fuel : nat) : P (cmd token) :=
  match fuel with
  | O => pnofuel
  | S f =>
      b <- peek [LPAR];;
      if negb b then panic "parseblock" else
      gettoken;;
      c <- parseline f;;
      b <- peek [RPAR];;
      if negb b then panic "syntax - missing )" else
      gettoken;;
      parseredirs c
  end.

(** Writing the NULs behind the tokens. *)
Fixpoint nulterminate (c : cmd token) (b : list Z) : list Z :=
  match c with
  | EXEC argv => foldl (fun b w => <[w.2 := 0]> b) b argv
  | REDIR c file _ _ => <[file.2 := 0]> (nulterminate c b)
  | PIPE l r => nulterminate r (nulterminate l b)
  | LIST l r => nulterminate r (nulterminate l b)
  | BACK c => nulterminate c b
  end.

End parser.

(** strlen, and the command with the line after nulterminate. *)
Definition strlen (buf : list Z) : nat := length (cstr buf).

Definition parsecmd (buf : list Z) : presult (cmd token * list Z) :=
  let es := strlen buf in
  match (c <- parseline buf es (4 * es + 4);; peek buf es [];; pret c) 0%nat with
  | POk c s =>
      if (s =? es)%nat then POk (c, nulterminate c buf) s
      else PErr (str "leftovers: " ++ cstr (drop s buf) ++ [NL] ++ str "syntax" ++ [NL])
  | PErr out => PErr out
  | PNoFuel => PNoFuel
  end.

(** The strings of a command, read from the line. *)
Fixpoint cmd_map {S T} (f : S -> T) (c : cmd S) : cmd T :=
  match c with
  | EXEC argv => EXEC (f <$> argv)
  | REDIR c file mode fd => REDIR (cmd_map f c) (f file) mode fd
  | PIPE l r => PIPE (cmd_map f l) (cmd_map f r)
  | LIST l r => LIST (cmd_map f l) (cmd_map f r)
  | BACK c => BACK (cmd_map f c)
  end.
Definition strings (buf : list Z) : cmd token -> cmd (list Z) := cmd_map (fun w => cstr (drop w.1 buf)).
