(* ===== verification/ShellProps.v ===== *)
(** * ShellProps

    The parser of the shell terminates on every line, all its pointers stay inside the
    line, and it reads back every command from every way to write it down. *)
From stdpp Require Import base tactics list sets numbers strings.
From S2P Require Import Prelude Printf Kernel Sysfile Shell.

(** ** Results of the parser *)

Section results.
Context (es : nat).

(** The parser does not run out of fuel, moves forward inside the line, and its result
    satisfies [Q]. *)
Definition safe {A} (s : nat) (r : presult A) (Q : A -> nat -> Prop) : Prop :=
  match r with
  | POk a s' => (s <= s' <= es)%nat /\ Q a s'
  | PErr _ => True
  | PNoFuel => False
  end.

Lemma safe_bind {A B} (m : P A) (f : A -> P B) s (Q : A -> nat -> Prop) (R : B -> nat -> Prop) :
  safe s (m s) Q -> (forall a s', (s <= s' <= es)%nat -> Q a s' -> safe s' (f a s') R) ->
  safe s (pbind m f s) R.
Proof.
  unfold pbind. intros Hm Hf. destruct (m s) as [a s'| |]; [|done|done]. destruct Hm as [Hs Hq].
  specialize (Hf a s' Hs Hq). destruct (f a s') as [b s''| |]; simpl in *; [|done|done].
  split; [lia|tauto].
Qed.

Lemma pbind_ok {A B} (m : P A) (f : A -> P B) s a s' : m s = POk a s' -> pbind m f s = f a s'.
Proof. unfold pbind. by intros ->. Qed.

Lemma safe_ret {A} s (a : A) (Q : A -> nat -> Prop) : (s <= es)%nat -> Q a s -> safe s (pret a s) Q.
Proof. intros. split; [lia|done]. Qed.

Lemma safe_mono {A} s (r : presult A) (Q R : A -> nat -> Prop) :
  safe s r Q -> (forall a s', (s <= s' <= es)%nat -> Q a s' -> R a s') -> safe s r R.
Proof. destruct r; simpl; [|done|done]. intros [? ?] HR. split; [done|]. by apply HR. Qed.

End results.

(** ** Tokens *)

Lemma in_set_spec set c : in_set set c = true <-> c ∈ set.
Proof.
  unfold in_set. rewrite existsb_exists. split.
  - intros (x & Hx & ->%Z.eqb_eq). by apply list_elem_of_In.
  - intros Hc. exists c. split; [by apply list_elem_of_In|apply Z.eqb_refl].
Qed.

Section tokens.
(** The array: a line without NUL, its NUL, and whatever follows. *)
Context (line junk : list Z) (Hnz : Forall (fun c => c <> 0) line).
Let buf : list Z := line ++ 0 :: junk.
Let es : nat := length line.

Lemma at_line s c : line !! s = Some c -> at_ buf s = c.
Proof. intros E. unfold at_, buf. by rewrite lookup_app_l, E by (by eapply lookup_lt_Some). Qed.

Lemma at_es : at_ buf es = 0.
Proof. unfold at_, buf, es. by rewrite list_lookup_middle. Qed.

Lemma at_nonzero s : (s < es)%nat -> at_ buf s <> 0.
Proof.
  intros Hs. destruct (lookup_lt_is_Some_2 line s Hs) as [c E]. rewrite (at_line _ _ E).
  exact (proj1 (Forall_lookup _ _) Hnz s c E).
Qed.

Lemma at_zero s : (s <= es)%nat -> at_ buf s = 0 <-> s = es.
Proof.
  intros Hs. split; [|intros ->; apply at_es]. intros E. destruct (decide (s = es)) as [|Hne]; [done|].
  by destruct (at_nonzero s ltac:(lia)).
Qed.

(** skip stops in range, at the end or at a character outside [f], after characters of [f]. *)
Lemma skip_spec f s n : (s + n = es)%nat ->
  let e := skip buf f n s in
  (s <= e <= es)%nat /\ (forall i, s <= i < e -> f (at_ buf i) = true)%nat /\
  (e = es \/ f (at_ buf e) = false).
Proof.
  revert s. induction n as [|n IH]; intros s Hs; simpl; [split_and!; [lia|lia|intros; lia|left; lia]|].
  destruct (f (at_ buf s)) eqn:Ef; [|split_and!; [lia|lia|intros; lia|by right]].
  destruct (IH (S s) ltac:(lia)) as ([? ?] & Hi & He). split_and!; [lia|lia| |done].
  intros i Hr. destruct (decide (i = s)) as [->|]; [done|]. apply Hi. lia.
Qed.

Lemma skip_space_spec s : (s <= es)%nat ->
  (s <= skip_space buf es s <= es)%nat /\
  (forall i, s <= i < skip_space buf es s -> at_ buf i ∈ whitespace)%nat /\
  ~ at_ buf (skip_space buf es s) ∈ whitespace.
Proof.
  intros Hs. unfold skip_space. destruct (skip_spec (in_set whitespace) s (es - s) ltac:(lia)) as (? & Hi & He).
  split_and!; [lia|lia|intros i Hr; by apply in_set_spec, Hi|]. rewrite <-in_set_spec. destruct He as [->|He].
  - rewrite at_es. done.
  - by rewrite He.
Qed.

Lemma skip_space_idemp s : (s <= es)%nat -> skip_space buf es (skip_space buf es s) = skip_space buf es s.
Proof.
  intros Hs. destruct (skip_space_spec s Hs) as (? & _ & Hn). set (q := skip_space buf es s) in *.
  assert (Hw : in_set whitespace (at_ buf q) = false).
  { destruct (in_set whitespace (at_ buf q)) eqn:E; [|done]. by apply in_set_spec in E. }
  clearbody q. unfold skip_space. destruct (es - q)%nat; cbn [skip]; [done|by rewrite Hw].
Qed.

(** A word of the line, between two pointers. *)
Definition word_at (w : token) : Prop :=
  (w.1 < w.2 <= es)%nat /\ (forall i, w.1 <= i < w.2 -> word_char (at_ buf i) = true)%nat /\
  (w.2 = es \/ word_char (at_ buf w.2) = false).

Definition token_spec (s : nat) (x : tok * token) (s' : nat) : Prop :=
  let '(t, (q, e)) := x in
  (s <= q <= e)%nat /\ (e <= s')%nat /\ (t <> T_end -> s < s')%nat /\ (t = T_end -> q = es) /\
  (t = T_word -> word_at (q, e)).

Lemma gettoken_safe s : (s <= es)%nat -> safe es s (gettoken buf es s) (token_spec s).
Proof.
  intros Hs. unfold gettoken. destruct (skip_space_spec s Hs) as ([Hq1 Hq2] & _ & Hn).
  set (q := skip_space buf es s) in *.
  assert (Hend : forall e, (q <= e <= es)%nat -> (e <= skip_space buf es e <= es)%nat).
  { intros e He. by destruct (skip_space_spec e ltac:(lia)). }
  destruct (at_ buf q =? 0) eqn:E0.
  { apply Z.eqb_eq, at_zero in E0; [|done]. specialize (Hend q ltac:(lia)). simpl. split_and!; try lia; try done. }
  apply Z.eqb_neq in E0. assert (Hlt : (q < es)%nat).
  { destruct (decide (q = es)) as [E|]; [|lia]. by rewrite E, at_es in E0. }
  destruct (at_ buf q =? GT) eqn:Egt; [destruct (at_ buf (S q) =? GT) eqn:Egt2|destruct (in_set symbols (at_ buf q)) eqn:Esym].
  - apply Z.eqb_eq in Egt2. assert (S q < es)%nat.
    { destruct (decide (S q = es)) as [E|]; [|lia]. by rewrite E, at_es in Egt2. }
    specialize (Hend (S (S q)) ltac:(lia)). simpl. split_and!; try lia; done.
  - specialize (Hend (S q) ltac:(lia)). simpl. split_and!; try lia; done.
  - specialize (Hend (S q) ltac:(lia)). simpl. split_and!; try lia; done.
  - destruct (skip_spec word_char q (es - q) ltac:(lia)) as (He & Hi & Hx).
    set (e := skip buf word_char (es - q) q) in *. specialize (Hend e ltac:(lia)).
    assert (q < e)%nat.
    { destruct (decide (q = e)) as [Eq|]; [|lia]. destruct Hx as [Hx|Hx]; [lia|]. rewrite <-Eq in Hx.
      unfold word_char in Hx. rewrite Esym in Hx. destruct (in_set whitespace (at_ buf q)) eqn:Ew; [|done].
      by apply in_set_spec in Ew. }
    simpl. split_and!; try lia; [done|]. intros _. split_and!; [simpl; lia|simpl; lia|exact Hi|exact Hx].
Qed.

(** peek leaves the position at a character that is not white space. *)
Definition at_token (s : nat) : Prop := skip_space buf es s = s.

Lemma peek_safe toks s : (s <= es)%nat ->
  safe es s (peek buf es toks s) (fun b s' => at_token s' /\ (b = true <-> at_ buf s' ∈ toks)).
Proof.
  intros Hs. unfold peek. simpl. destruct (skip_space_spec s Hs) as (? & _).
  split; [lia|]. split; [by apply skip_space_idemp|apply in_set_spec].
Qed.

(** At a symbol gettoken moves on. *)
Lemma gettoken_moves s : (s <= es)%nat -> at_token s -> at_ buf s <> 0 ->
  safe es s (gettoken buf es s) (fun x s' => token_spec s x s' /\ (s < s')%nat).
Proof.
  intros Hs Ht H0. pose proof (gettoken_safe s Hs) as Hg. unfold gettoken in *. rewrite Ht in *.
  apply Z.eqb_neq in H0. rewrite H0 in *.
  destruct (at_ buf s =? GT); [destruct (at_ buf (S s) =? GT)|destruct (in_set symbols (at_ buf s))]; simpl in *;
    destruct Hg as (Hr & Hx); (split; [exact Hr|split; [exact Hx|]]); destruct Hx as (_ & _ & Hx & _); apply Hx; discriminate.
Qed.

(** ** Termination and bounds *)

Fixpoint cmd_tokens {S} (c : cmd S) : list S :=
  match c with
  | EXEC argv => argv
  | REDIR c file _ _ => cmd_tokens c ++ [file]
  | PIPE l r | LIST l r => cmd_tokens l ++ cmd_tokens r
  | BACK c => cmd_tokens c
  end.

(** argv[] has room for the NULL at the end. *)
Fixpoint args_fit {S} (c : cmd S) : Prop :=
  match c with
  | EXEC argv => (length argv < MAXARGS)%nat
  | REDIR c _ _ _ | BACK c => args_fit c
  | PIPE l r | LIST l r => args_fit l /\ args_fit r
  end.

Definition cmd_ok (c : cmd token) : Prop := Forall word_at (cmd_tokens c) /\ args_fit c.

(** The number of arguments of the execcmd under redirections. *)
Fixpoint bottom {S} (c : cmd S) : option nat :=
  match c with
  | EXEC argv => Some (length argv)
  | REDIR c _ _ _ => bottom c
  | _ => None
  end.

Lemma add_arg_ok c w n : bottom c = Some n -> (S n < MAXARGS)%nat -> cmd_ok c -> word_at w ->
  cmd_ok (add_arg c w) /\ bottom (add_arg c w) = Some (S n).
Proof.
  intros Hb Hn [Hc Ha] Hw. induction c as [argv|c IH f m d|l _ r _|l _ r _|c _]; simpl in *; try discriminate.
  - injection Hb as <-. split; [split; simpl|f_equal]; rewrite ?Forall_app, ?Forall_singleton, ?length_app; simpl; [done|lia|lia].
  - apply Forall_app in Hc as [Hc Hf]. destruct (IH Hb Hc Ha) as [[? ?] ?]. split; [|done]. split; simpl; [|done].
    by apply Forall_app.
Qed.

Lemma redir_ok c w m d : cmd_ok c -> word_at w -> cmd_ok (REDIR c w m d).
Proof. intros [Hc Ha] Hw. split; simpl; [|done]. by rewrite Forall_app, Forall_singleton. Qed.

(** The tests for symbols find a symbol, so the position is not at the end. *)
Lemma symbol_nonzero (toks : list Z) s : in_set toks 0 = false -> at_ buf s ∈ toks -> at_ buf s <> 0.
Proof. intros H0 Hs E. rewrite E in Hs. apply in_set_spec in Hs. congruence. Qed.

Ltac bounded := simpl; lia.

Lemma parseredirs_loop_safe fuel c s : (s <= es)%nat -> (es - s <= fuel)%nat -> cmd_ok c ->
  safe es s (parseredirs_loop buf es fuel c s) (fun c' _ => cmd_ok c' /\ bottom c' = bottom c).
Proof.
  revert c s. induction fuel as [|f IH]; intros c s Hs Hf Hc; simpl parseredirs_loop;
    (eapply safe_bind; [by apply peek_safe|]); intros b s1 H1 [Ht Hb]; destruct b; simpl negb; cbv iota;
    try (apply safe_ret; [bounded|done]).
  - assert (s1 = es) as E by lia. destruct Hb as [Hb _]. specialize (Hb eq_refl). rewrite E, at_es in Hb. set_solver.
  - eapply safe_bind; [apply gettoken_moves; [lia|done|]|].
    { by eapply symbol_nonzero; [|by apply Hb]. }
    intros [t ?] s2 H2 [_ Hlt]. eapply safe_bind; [apply gettoken_safe; lia|]. intros [t2 w] s3 H3 Hw. simpl fst.
    destruct t2; try exact I. destruct w as [q e]. destruct Hw as (_ & _ & _ & _ & Hw). specialize (Hw eq_refl).
    assert (Hk : forall c', cmd_ok c' -> bottom c' = bottom c ->
      safe es s3 (parseredirs_loop buf es f c' s3) (fun c' _ => cmd_ok c' /\ bottom c' = bottom c)).
    { intros c' Hc' <-. apply IH; [lia|lia|done]. }
    destruct t as [|x| |]; apply Hk; try done; try by apply redir_ok.
    + simpl. destruct (x =? LT); by apply redir_ok.
    + simpl. by destruct (x =? LT).
Qed.

Lemma parseredirs_safe c s : (s <= es)%nat -> cmd_ok c ->
  safe es s (parseredirs buf es c s) (fun c' _ => cmd_ok c' /\ bottom c' = bottom c).
Proof. intros Hs Hc. apply parseredirs_loop_safe; [done|lia|done]. Qed.

Lemma parseargs_safe fuel c argc s :
  (s <= es)%nat -> (es - s < fuel)%nat -> cmd_ok c -> bottom c = Some argc ->
  safe es s (parseargs buf es fuel c argc s) (fun c' _ => cmd_ok c').
Proof.
  revert c argc s. induction fuel as [|f IH]; intros c argc s Hs Hf Hc Hb; [lia|]. cbn [parseargs].
  eapply safe_bind; [by apply peek_safe|]. intros b s1 H1 [Ht Hp]. destruct b; [by apply safe_ret; [lia|]|].
  eapply safe_bind; [apply gettoken_safe; lia|]. intros [t [q e]] s2 H2 (_ & _ & Hlt & _ & Hw).
  destruct t; [by apply safe_ret; [lia|]|exact I|exact I|]. specialize (Hlt ltac:(done)). specialize (Hw eq_refl).
  destruct (Nat.leb_spec MAXARGS (S argc)); [exact I|].
  destruct (add_arg_ok c (q, e) argc Hb ltac:(done) Hc Hw) as [Hc' Hb'].
  eapply safe_bind; [apply parseredirs_safe; [lia|exact Hc']|]. intros c2 s3 H3 [Hc2 Hb2].
  apply IH; [lia|lia|done|congruence].
Qed.

Lemma parseback_safe fuel c s : (s <= es)%nat -> (es - s <= fuel)%nat -> cmd_ok c ->
  safe es s (parseback buf es fuel c s) (fun c' _ => cmd_ok c').
Proof.
  revert c s. induction fuel as [|f IH]; intros c s Hs Hf Hc; cbn [parseback];
    (eapply safe_bind; [by apply peek_safe|]); intros b s1 H1 [Ht Hb]; destruct b; cbn [negb];
    try (apply safe_ret; [lia|done]).
  - assert (s1 = es) as E by lia. destruct Hb as [Hb _]. specialize (Hb eq_refl). rewrite E, at_es in Hb. set_solver.
  - eapply safe_bind; [apply gettoken_moves; [lia|done|]|].
    { by eapply symbol_nonzero; [|by apply Hb]. }
    intros x s2 H2 [_ Hlt]. apply IH; [lia|lia|done].
Qed.

(** The recursion of the parser: going into parentheses, behind a bar or a semicolon
    takes a character of the line. *)
Lemma parse_safe fuel :
  (forall s, (s <= es)%nat -> (4 * (es - s) + 4 <= fuel)%nat -> safe es s (parseline buf es fuel s) (fun c _ => cmd_ok c)) /\
  (forall s, (s <= es)%nat -> (4 * (es - s) + 3 <= fuel)%nat -> safe es s (parsepipe buf es fuel s) (fun c _ => cmd_ok c)) /\
  (forall s, (s <= es)%nat -> (4 * (es - s) + 2 <= fuel)%nat -> safe es s (parseexec buf es fuel s) (fun c _ => cmd_ok c)) /\
  (forall s, (s <= es)%nat -> (4 * (es - s) + 1 <= fuel)%nat -> safe es s (parseblock buf es fuel s) (fun c _ => cmd_ok c)).
Proof.
  induction fuel as [|f (IHl & IHp & IHe & IHb)]; [split_and!; intros; lia|]. split_and!; intros s Hs Hf.
  - cbn [parseline]. eapply safe_bind; [apply IHp; lia|]. intros c s1 H1 Hc.
    eapply safe_bind; [apply parseback_safe; [lia|lia|done]|]. intros c2 s2 H2 Hc2.
    eapply safe_bind; [apply peek_safe; lia|]. intros b s3 H3 [Ht Hb]. destruct b; [|by apply safe_ret; [lia|]].
    eapply safe_bind; [apply gettoken_moves; [lia|done|by eapply symbol_nonzero; [|by apply Hb]]|].
    intros x s4 H4 [_ Hlt]. eapply safe_bind; [apply IHl; lia|]. intros r s5 H5 Hr. apply safe_ret; [lia|].
    destruct Hc2, Hr. split; simpl; [by apply Forall_app|done].
  - cbn [parsepipe]. eapply safe_bind; [apply IHe; lia|]. intros c s1 H1 Hc.
    eapply safe_bind; [apply peek_safe; lia|]. intros b s3 H3 [Ht Hb]. destruct b; [|by apply safe_ret; [lia|]].
    eapply safe_bind; [apply gettoken_moves; [lia|done|by eapply symbol_nonzero; [|by apply Hb]]|].
    intros x s4 H4 [_ Hlt]. eapply safe_bind; [apply IHp; lia|]. intros r s5 H5 Hr. apply safe_ret; [lia|].
    destruct Hc, Hr. split; simpl; [by apply Forall_app|done].
  - cbn [parseexec]. eapply safe_bind; [apply peek_safe; lia|]. intros b s1 H1 [Ht Hb].
    destruct b; [apply IHb; lia|].
    eapply safe_bind; [apply parseredirs_safe; [lia|]|].
    { split; simpl; [constructor|unfold MAXARGS; lia]. }
    intros c s2 H2 [Hc Hbc]. apply parseargs_safe; [lia|lia|done|done].
  - cbn [parseblock]. eapply safe_bind; [apply peek_safe; lia|]. intros b s1 H1 [Ht Hb].
    destruct b; cbn [negb]; [|exact I].
    eapply safe_bind; [apply gettoken_moves; [lia|done|by eapply symbol_nonzero; [|by apply Hb]]|].
    intros x s2 H2 [_ Hlt]. eapply safe_bind; [apply IHl; lia|]. intros c s3 H3 Hc.
    eapply safe_bind; [apply peek_safe; lia|]. intros b s4 H4 _. destruct b; cbn [negb]; [|exact I].
    eapply safe_bind; [apply gettoken_safe; lia|]. intros y s5 H5 _.
    eapply safe_mono; [apply parseredirs_safe; [lia|done]|]. tauto.
Qed.

(** ** The strings nulterminate makes *)

Definition put_nul (b : list Z) (w : token) : list Z := <[w.2 := 0]> b.

Lemma nulterminate_fold c b : nulterminate c b = foldl put_nul b (cmd_tokens c).
Proof.
  revert b. induction c as [argv|c IH f m d|l IHl r IHr|l IHl r IHr|c IH]; intros b; simpl; [done|..].
  - by rewrite foldl_app, IH.
  - by rewrite foldl_app, IHl, IHr.
  - by rewrite foldl_app, IHl, IHr.
  - apply IH.
Qed.

Lemma put_nul_length ws b : length (foldl put_nul b ws) = length b.
Proof. revert b. induction ws as [|w ws IH]; intros b; [done|]. simpl. rewrite IH. apply length_insert. Qed.

Lemma put_nul_other ws b i : (forall w, w ∈ ws -> w.2 <> i) -> foldl put_nul b ws !! i = b !! i.
Proof.
  revert b. induction ws as [|w ws IH]; intros b Hn; [done|]. simpl. rewrite IH by set_solver.
  apply list_lookup_insert_ne. apply Hn. set_solver.
Qed.

Lemma put_nul_end ws b w : w ∈ ws -> (w.2 < length b)%nat -> foldl put_nul b ws !! w.2 = Some 0.
Proof.
  intros Hw Hl. destruct (list_elem_of_split ws w Hw) as (l1 & l2 & ->). rewrite foldl_app. simpl.
  set (b1 := put_nul (foldl put_nul b l1) w).
  assert (H1 : b1 !! w.2 = Some 0) by (apply list_lookup_insert_eq; by rewrite put_nul_length).
  revert H1. generalize b1. clear. induction l2 as [|v l2 IH]; intros b1 H1; [done|]. simpl. apply IH. unfold put_nul.
  destruct (decide (v.2 = w.2)) as [->|Hne]; [|by rewrite list_lookup_insert_ne].
  apply list_lookup_insert_eq. by eapply lookup_lt_Some.
Qed.

(** The text of a word in the line. *)
Definition word_text (w : token) : list Z := take (w.2 - w.1) (drop w.1 line).

Lemma cstr_prefix l rest : Forall (fun c => c <> 0) l -> cstr (l ++ 0 :: rest) = l.
Proof.
  induction 1 as [|c l Hc Hl IH]; [done|]. simpl. destruct (Z.eqb_spec c 0); [done|]. by rewrite IH.
Qed.

Lemma word_string ws w : Forall word_at ws -> w ∈ ws -> cstr (drop w.1 (foldl put_nul buf ws)) = word_text w.
Proof.
  intros Hws Hw. pose proof (proj1 (Forall_forall _ _) Hws w Hw) as (Hr & Hc & He).
  destruct w as [q e]; simpl in *. set (b := foldl put_nul buf ws).
  assert (Hlen : length b = length buf) by apply put_nul_length.
  assert (Hlb : (es < length buf)%nat) by (unfold buf, es; rewrite length_app; simpl; lia).
  assert (Hb : drop q b = take (e - q) (drop q line) ++ 0 :: drop (S e) b).
  { apply list_eq. intros i. rewrite lookup_drop. destruct (decide (i < e - q)%nat) as [Hi|Hi].
    - rewrite lookup_app_l by (rewrite length_take, length_drop; unfold es in *; lia).
      rewrite lookup_take_lt, lookup_drop by lia. unfold b. rewrite put_nul_other.
      + unfold buf. apply lookup_app_l. unfold es in *. lia.
      + intros v Hv Hvi. pose proof (proj1 (Forall_forall _ _) Hws v Hv) as (_ & _ & Hve).
        destruct Hve as [Hve|Hve]; [lia|]. rewrite Hvi in Hve. rewrite Hc in Hve by lia. done.
    - rewrite lookup_app_r by (rewrite length_take, length_drop; unfold es in *; lia).
      rewrite length_take, length_drop. replace ((e - q) `min` (length line - q))%nat with (e - q)%nat by (unfold es in *; lia).
      destruct (decide (i = e - q)%nat) as [->|].
      + rewrite Nat.sub_diag. simpl. replace (q + (e - q))%nat with e by lia.
        apply (put_nul_end ws buf (q, e)); [done|simpl; lia].
      + destruct (i - (e - q))%nat as [|k] eqn:Ek; [lia|]. simpl. rewrite lookup_drop. f_equal. lia. }
  rewrite Hb. apply cstr_prefix. apply Forall_take, Forall_drop, Hnz.
Qed.

Lemma cmd_map_ext {S T} (f g : S -> T) c : (forall x, x ∈ cmd_tokens c -> f x = g x) -> cmd_map f c = cmd_map g c.
Proof.
  induction c as [argv|c IH ? ? ?|l IHl r IHr|l IHl r IHr|c IH]; intros He; simpl in *.
  - f_equal. apply list_fmap_ext. intros i x Hx. apply He. by eapply list_elem_of_lookup_2.
  - rewrite IH by set_solver. f_equal. apply He. set_solver.
  - rewrite IHl, IHr by set_solver. done.
  - rewrite IHl, IHr by set_solver. done.
  - by rewrite IH.
Qed.

Lemma strings_terminated c : cmd_ok c -> strings (nulterminate c buf) c = cmd_map word_text c.
Proof. intros [Hc _]. rewrite nulterminate_fold. apply cmd_map_ext. intros w Hw. by apply word_string. Qed.

Lemma strlen_line : strlen buf = es.
Proof. unfold strlen, buf. by rewrite cstr_prefix. Qed.

End tokens.

(** C35: on every line the shell's parser terminates (the fuel of parsecmd is enough),
    with a syntax error, or with a command: it has then read the whole line, every
    pointer of the command is into the line, no command has more arguments than argv[]
    has room for, and after nulterminate, which writes NULs behind the words in place,
    each string of the command is the word of the line the parser saw. *)
Theorem parsecmd_total (line junk : list Z) :
  Forall (fun c => c <> 0) line ->
  match parsecmd (line ++ 0 :: junk) with
  | POk (c, buf) s =>
      s = length line /\ Forall (fun w => w.1 < w.2 <= length line)%nat (cmd_tokens c) /\ args_fit c /\
      strings buf c = cmd_map (word_text line) c /\ length buf = length (line ++ 0 :: junk)
  | PErr _ => True
  | PNoFuel => False
  end.
Proof.
  intros Hnz. unfold parsecmd. rewrite (strlen_line line junk Hnz).
  assert (Hp : safe (length line) 0 ((c <- parseline (line ++ 0 :: junk) (length line) (4 * length line + 4);;
      peek (line ++ 0 :: junk) (length line) [];; pret c)%shell 0%nat) (fun c _ => cmd_ok line junk c)).
  { eapply safe_bind; [apply (parse_safe line junk Hnz); lia|]. intros c s1 H1 Hc.
    eapply safe_bind; [apply peek_safe; lia|]. intros b s2 H2 _. apply safe_ret; [lia|done]. }
  destruct (pbind _ _ _) as [c s| |]; [|done|done]. destruct Hp as [Hs Hc].
  destruct (Nat.eqb_spec s (length line)) as [->|]; [|done]. split; [done|]. split_and!.
  - destruct Hc as [Hc _]. eapply Forall_impl; [exact Hc|]. by intros w (? & _).
  - apply Hc.
  - by apply strings_terminated.
  - by rewrite nulterminate_fold, put_nul_length.
Qed.

Definition demo_line : list Z := str "(ls -l >x; cat<y|wc & ) >>  out.txt;echo hi ".

Lemma parsecmd_total_witness :
  match parsecmd (demo_line ++ [0]) with
  | POk (c, buf) s => s = 44%nat /\ strings buf c = cmd_map (word_text demo_line) c
  | _ => False
  end.
Proof.
  pose proof (parsecmd_total demo_line [] ltac:(repeat constructor; discriminate)) as Hp.
  destruct (parsecmd (demo_line ++ [0])) as [[c buf] s|out|] eqn:E.
  - destruct Hp as (-> & _ & _ & Hs & _). split; [reflexivity|exact Hs].
  - vm_compute in E. discriminate E.
  - destruct Hp.
Defined.

(** ** Writing commands down *)

Inductive lexeme := Sym (c : Z) | App | Word (w : list Z).

Definition text (l : lexeme) : list Z :=
  match l with Sym c => [c] | App => [GT; GT] | Word w => w end.

Definition lex_tok (l : lexeme) : tok :=
  match l with Sym c => T_sym c | App => T_append | Word _ => T_word end.

Definition is_word (w : list Z) : Prop := w <> [] /\ Forall (fun c => word_char c = true) w.

Definition lex_ok (l : lexeme) : Prop :=
  match l with Sym c => c ∈ symbols | App => True | Word w => is_word w end.

(** What may follow a lexeme directly: a word must end, and > must not become >>. *)
Definition boundary (l : lexeme) (rest : list Z) : Prop :=
  match l, rest with
  | _, [] => True
  | Word _, c :: _ => word_char c = false
  | Sym x, c :: _ => x = GT -> c <> GT
  | App, _ => True
  end.

(** [txt] is a way to write the lexemes down, with any white space between them. *)
Inductive renders : list lexeme -> list Z -> Prop :=
  | renders_nil ws : Forall (fun c => c ∈ whitespace) ws -> renders [] ws
  | renders_cons ws l ls txt :
      Forall (fun c => c ∈ whitespace) ws -> lex_ok l -> boundary l txt -> renders ls txt ->
      renders (l :: ls) (ws ++ text l ++ txt).

(** A command as lexemes, with parentheses where the grammar needs them. *)
Inductive level := L_line | L_back | L_pipe | L_exec.

Definition paren (b : bool) (ls : list lexeme) : list lexeme :=
  if b then Sym LPAR :: ls ++ [Sym RPAR] else ls.

Definition redir_lex (mode : Z) : lexeme :=
  if mode =? O_RDONLY then Sym LT else if mode =? O_OUT then Sym GT else App.

Fixpoint print (lv : level) (c : cmd (list Z)) : list lexeme :=
  match c with
  | EXEC argv => Word <$> argv
  | REDIR c file mode _ => print L_exec c ++ [redir_lex mode; Word file]
  | PIPE l r => paren (match lv with L_exec => true | _ => false end) (print L_exec l ++ Sym BAR :: print L_pipe r)
  | BACK c => paren (match lv with L_exec | L_pipe => true | _ => false end) (print L_back c ++ [Sym AMP])
  | LIST l r => paren (match lv with L_line => false | _ => true end) (print L_back l ++ Sym SEMI :: print L_line r)
  end.

(** The commands the shell has a syntax for. *)
Fixpoint expressible (c : cmd (list Z)) : Prop :=
  match c with
  | EXEC argv => Forall is_word argv /\ (length argv < MAXARGS)%nat
  | REDIR c file mode fd =>
      expressible c /\ is_word file /\
      (mode = O_RDONLY /\ fd = 0 \/ mode = O_OUT /\ fd = 1 \/ mode = O_APP /\ fd = 1)
  | PIPE l r | LIST l r => expressible l /\ expressible r
  | BACK c => expressible c
  end.

Section lexer.
Context (line junk : list Z) (Hnz : Forall (fun c => c <> 0) line).
Let buf : list Z := line ++ 0 :: junk.
Let es : nat := length line.

Lemma at_drop s c rest : drop s line = c :: rest -> at_ buf s = c /\ (s < es)%nat /\ drop (S s) line = rest.
Proof.
  intros E. assert (Hl : line !! s = Some c).
  { replace s with (s + 0)%nat by lia. rewrite <-lookup_drop, E. done. }
  split; [by apply at_line|]. split; [by eapply lookup_lt_Some|].
  rewrite (drop_S _ _ _ Hl) in E. by injection E.
Qed.

Lemma at_drop_nil s : (s <= es)%nat -> drop s line = [] -> s = es.
Proof. intros Hs E. apply (f_equal length) in E. rewrite length_drop in E. simpl in E. unfold es in *. lia. Qed.

Lemma drop_app_line s pre rest : drop s line = pre ++ rest -> drop (s + length pre) line = rest.
Proof. intros E. rewrite <-drop_drop, E. apply drop_app_length. Qed.

Lemma drop_app_le s pre rest : (s <= es)%nat -> drop s line = pre ++ rest -> (s + length pre <= es)%nat.
Proof. intros Hs E. apply (f_equal length) in E. rewrite length_drop, length_app in E. unfold es in *. lia. Qed.

(** skip passes a prefix of characters in [f]. *)
Lemma skip_app f s pre rest : (s <= es)%nat -> drop s line = pre ++ rest -> Forall (fun c => f c = true) pre ->
  match rest with [] => True | c :: _ => f c = false end -> skip buf f (es - s) s = (s + length pre)%nat.
Proof.
  revert s. induction pre as [|c pre IH]; intros s Hs E Hp Hr.
  - simpl in *. rewrite Nat.add_0_r. destruct (es - s)%nat eqn:En; [done|]. cbn [skip].
    destruct rest as [|c rest]; [apply at_drop_nil in E; lia|]. destruct (at_drop _ _ _ E) as (-> & _). by rewrite Hr.
  - destruct (at_drop _ _ _ E) as (Ec & Hlt & E'). apply Forall_cons in Hp as [Hc Hp].
    destruct (es - s)%nat eqn:En; [lia|]. cbn [skip]. rewrite Ec, Hc. replace n with (es - S s)%nat by lia.
    rewrite (IH (S s)); [simpl; lia|lia|done|done|done].
Qed.

Lemma skip_space_app s ws rest : (s <= es)%nat -> drop s line = ws ++ rest -> Forall (fun c => c ∈ whitespace) ws ->
  match rest with [] => True | c :: _ => c ∉ whitespace end -> skip_space buf es s = (s + length ws)%nat.
Proof.
  intros Hs E Hw Hr. eapply skip_app; [done|exact E|..].
  - eapply Forall_impl; [exact Hw|]. intros c. apply in_set_spec.
  - destruct rest as [|c rest]; [done|]. destruct (in_set whitespace c) eqn:Ec; [|done]. by apply in_set_spec in Ec.
Qed.

Definition first (ls : list lexeme) : Z := match ls with [] => 0 | l :: _ => hd 0 (text l) end.

Lemma lex_text l : lex_ok l -> exists c r, text l = c :: r /\ c ∉ whitespace.
Proof.
  destruct l as [c| |[|c w]]; intros Hl; simpl in *.
  - exists c, []. split; [done|]. unfold symbols, whitespace, LT, BAR, GT, AMP, SEMI, LPAR, RPAR, SPACE, NL in *. set_solver by lia.
  - exists GT, [GT]. split; [done|]. by rewrite <-in_set_spec.
  - by destruct Hl.
  - exists c, w. split; [done|]. destruct Hl as [_ [Hc _]%Forall_cons]. unfold word_char in Hc. rewrite <-in_set_spec.
    by destruct (in_set whitespace c).
Qed.

Lemma renders_skip ls s : (s <= es)%nat -> renders ls (drop s line) ->
  let q := skip_space buf es s in
  (s <= q <= es)%nat /\ renders ls (drop q line) /\ at_ buf q = first ls /\
  match ls with
  | [] => q = es
  | l :: ls => exists txt, drop q line = text l ++ txt /\ lex_ok l /\ boundary l txt /\ renders ls txt
  end.
Proof.
  intros Hs Hr q. remember (drop s line) as txt eqn:E. destruct Hr as [ws Hws|ws l ls txt Hws Hl Hb Hr].
  - rewrite <-(app_nil_r ws) in E. assert (Eq : q = (s + length ws)%nat) by (by eapply skip_space_app).
    pose proof (drop_app_le s ws [] Hs (eq_sym E)). pose proof (drop_app_line s ws [] (eq_sym E)) as Ed. rewrite <-Eq in *.
    assert (q = es) as Ees by (by apply at_drop_nil). split_and!; [lia|lia|rewrite Ed; by constructor| |done].
    rewrite Ees. apply at_es.
  - destruct (lex_text l Hl) as (c & r & Et & Hc).
    assert (Eq : q = (s + length ws)%nat).
    { eapply skip_space_app; [done|by symmetry|done|]. by rewrite Et. }
    pose proof (drop_app_le s ws _ Hs (eq_sym E)). pose proof (drop_app_line s ws _ (eq_sym E)) as Ed. rewrite <-Eq in *.
    split_and!; [lia|lia| | |eauto].
    + rewrite Ed. by apply (renders_cons [] l ls txt).
    + simpl. rewrite Et in *. by apply at_drop in Ed as (-> & _).
Qed.

Lemma peek_lex toks ls s : (s <= es)%nat -> renders ls (drop s line) ->
  exists s', peek buf es toks s = POk (in_set toks (first ls)) s' /\ (s <= s' <= es)%nat /\ renders ls (drop s' line).
Proof.
  intros Hs Hr. destruct (renders_skip ls s Hs Hr) as (Hq & Hr' & Ea & _).
  exists (skip_space buf es s). unfold peek. by rewrite Ea.
Qed.

Lemma peek_is b toks ls s : (s <= es)%nat -> renders ls (drop s line) -> in_set toks (first ls) = b ->
  exists s', peek buf es toks s = POk b s' /\ (s <= s' <= es)%nat /\ renders ls (drop s' line).
Proof. intros Hs Hr <-. by apply peek_lex. Qed.

Lemma word_char_spec c : word_char c = true -> in_set symbols c = false /\ c <> GT /\ c <> 0 \/ c = 0.
Proof.
  intros Hc. destruct (decide (c = 0)); [by right|left]. unfold word_char in Hc. apply andb_true_iff in Hc as [_ Hc].
  split_and!; [by destruct (in_set symbols c)| |done]. by intros ->.
Qed.

Lemma gettoken_lex l ls s : (s <= es)%nat -> renders (l :: ls) (drop s line) ->
  exists q e s', gettoken buf es s = POk (lex_tok l, (q, e)) s' /\ (s < s' <= es)%nat /\ renders ls (drop s' line) /\
    forall w, l = Word w -> word_at line junk (q, e) /\ word_text line (q, e) = w.
Proof.
  intros Hs Hr. destruct (renders_skip _ s Hs Hr) as (Hq & _ & Ea & txt & Ed & Hl & Hb & Hrt).
  unfold gettoken. set (q := skip_space buf es s) in *.
  assert (Hend : forall e, drop e line = txt -> (q < e <= es)%nat ->
    (s < skip_space buf es e <= es)%nat /\ renders ls (drop (skip_space buf es e) line)).
  { intros e Ee He. rewrite <-Ee in Hrt. destruct (renders_skip ls e ltac:(lia) Hrt) as (? & ? & _). split; [lia|done]. }
  destruct l as [c| |w]; simpl in Ed, Hl.
  - destruct (at_drop _ _ _ Ed) as (Ec & Hlt & Ed'). rewrite Ec.
    assert (c <> 0) by (rewrite <-Ec; by apply at_nonzero). rewrite (proj2 (Z.eqb_neq c 0)) by done.
    destruct (Hend (S q) Ed' ltac:(lia)) as [He Hr'].
    exists q, (S q), (skip_space buf es (S q)). split_and!; [|lia|lia|done|done].
    destruct (Z.eqb_spec c GT) as [->|].
    + destruct (Z.eqb_spec (at_ buf (S q)) GT) as [Eg|]; [|done]. exfalso. destruct txt as [|d txt].
      * apply at_drop_nil in Ed'; [|lia]. rewrite Ed' in Eg. pose proof (at_es line junk). unfold buf, es in Eg. congruence.
      * apply at_drop in Ed' as (Ed' & _). rewrite Ed' in Eg. by apply Hb.
    + by rewrite (proj2 (in_set_spec symbols c) Hl).
  - destruct (at_drop _ _ _ Ed) as (Ec & Hlt & Ed'). destruct (at_drop _ _ _ Ed') as (Ec' & Hlt' & Ed'').
    rewrite Ec, Ec'. destruct (Hend (S (S q)) Ed'' ltac:(lia)) as [He Hr'].
    exists q, (S (S q)), (skip_space buf es (S (S q))). by split_and!; [|lia|lia| |].
  - destruct Hl as [Hne Hw]. pose proof (drop_app_le q w txt ltac:(lia) Ed) as Hle.
    pose proof (drop_app_line q w txt Ed) as Ed'.
    assert (Hlen : (0 < length w)%nat) by (destruct w; [done|simpl; lia]).
    assert (Esk : skip buf word_char (es - q) q = (q + length w)%nat).
    { eapply skip_app; [lia|exact Ed|done|]. by destruct txt. }
    destruct (Hend (q + length w)%nat Ed' ltac:(lia)) as [He Hr'].
    exists q, (q + length w)%nat, (skip_space buf es (q + length w)).
    destruct w as [|c w]; [done|]. destruct (at_drop _ _ _ Ed) as (Ec & Hlt & _).
    assert (H0 : c <> 0) by (rewrite <-Ec; exact (at_nonzero line junk Hnz q Hlt)). apply Forall_cons in Hw as [Hwc Hw].
    destruct (word_char_spec c Hwc) as [(Hsym & Hgt & H0')|H0']; [|done].
    rewrite Ec, (proj2 (Z.eqb_neq c 0)), (proj2 (Z.eqb_neq c GT)), Hsym, Esk by done.
    split_and!; [done|lia|lia|done|]. intros w' [= <-]. split.
    + pose proof (skip_spec line junk word_char q (es - q)) as Hsk. fold buf es in Hsk. rewrite Esk in Hsk.
      destruct Hsk as (? & ? & ?); [unfold es in *; lia|]. split_and!; [simpl in *; lia|simpl in *; unfold es in *; lia|done|done].
    + unfold word_text. simpl. replace (q + S (length w) - q)%nat with (length (c :: w)) by (simpl; lia).
      rewrite Ed. apply take_app_length.
Qed.

Lemma gettoken_end s : (s <= es)%nat -> renders [] (drop s line) -> gettoken buf es s = POk (T_end, (es, es)) es.
Proof.
  intros Hs Hr. destruct (renders_skip [] s Hs Hr) as (_ & _ & Ea & Eq). unfold gettoken. rewrite Ea, Eq. simpl.
  unfold skip_space. by rewrite Nat.sub_diag.
Qed.

(** ** Parsing what was written *)

(** The parser's tree [t] stands for the command [c]. *)
Definition stands (t : cmd token) (c : cmd (list Z)) : Prop := cmd_ok line junk t /\ cmd_map (word_text line) t = c.

Definition parses (m : P (cmd token)) (s : nat) (c : cmd (list Z)) (ls : list lexeme) : Prop :=
  exists t s', m s = POk t s' /\ (s <= s' <= es)%nat /\ renders ls (drop s' line) /\ stands t c.

(** What comes next: the end, or a symbol of [set]. *)
Definition follow (set : list Z) (ls : list lexeme) : Prop :=
  match ls with [] => True | Sym c :: _ => c ∈ set | _ => False end.

Lemma follow_first set ls : follow set ls -> ls = [] /\ first ls = 0 \/ first ls ∈ set.
Proof. destruct ls as [|[c| |w] ls]; simpl; auto; done. Qed.

Lemma follow_mono set set' ls : set ⊆ set' -> follow set ls -> follow set' ls.
Proof. destruct ls as [|[c| |w] ls]; simpl; auto. Qed.

Lemma follow_no set ls toks : follow set ls -> in_set toks 0 = false -> Forall (fun c => in_set toks c = false) set ->
  in_set toks (first ls) = false.
Proof.
  intros Hf H0 Hn. destruct (follow_first _ _ Hf) as [[_ ->]|Hin]; [done|]. by apply (proj1 (Forall_forall _ _) Hn).
Qed.

Definition redir : Type := list Z * Z * Z.
Definition wrap (rs : list redir) (c : cmd (list Z)) : cmd (list Z) :=
  foldl (fun c '(file, mode, fd) => REDIR c file mode fd) c rs.
Definition redir_ok_ (r : redir) : Prop := let '(file, mode, fd) := r in
  is_word file /\ (mode = O_RDONLY /\ fd = 0 \/ mode = O_OUT /\ fd = 1 \/ mode = O_APP /\ fd = 1).
Definition redirs (rs : list redir) : list lexeme :=
  rs ≫= (fun '(file, mode, _) => [redir_lex mode; Word file]).

Lemma stands_redir t c w file mode fd :
  stands t c -> word_at line junk w -> word_text line w = file -> stands (REDIR t w mode fd) (REDIR c file mode fd).
Proof. intros [Ht <-] Hw <-. split; [by apply redir_ok|done]. Qed.

Lemma parseredirs_lex rs fuel t c s ls : (s <= es)%nat -> (es - s <= fuel)%nat -> Forall redir_ok_ rs -> stands t c ->
  renders (redirs rs ++ ls) (drop s line) -> in_set [LT; GT] (first ls) = false ->
  parses (parseredirs_loop buf es fuel t) s (wrap rs c) ls.
Proof.
  revert fuel t c s. induction rs as [|[[file mode] fd] rs IH]; intros fuel t c s Hs Hf Hrs Ht Hr Hl.
  - simpl in Hr. destruct (peek_lex [LT; GT] _ s Hs Hr) as (s1 & E1 & H1 & Hr1). rewrite Hl in E1.
    exists t, s1. split_and!; [|lia|lia|done|done]. destruct fuel; cbn [parseredirs_loop]; by rewrite (pbind_ok _ _ _ _ _ E1).
  - apply Forall_cons in Hrs as [[Hw Hm] Hrs].
    change (renders ([redir_lex mode; Word file] ++ redirs rs ++ ls) (drop s line)) in Hr.
    destruct (peek_lex [LT; GT] _ s Hs Hr) as (s1 & E1 & H1 & Hr1).
    assert (Ef : in_set [LT; GT] (first ([redir_lex mode; Word file] ++ redirs rs ++ ls)) = true).
    { simpl. by destruct Hm as [[-> _]|[[-> _]|[-> _]]]. }
    rewrite Ef in E1. clear Ef. destruct (gettoken_lex _ _ s1 ltac:(lia) Hr1) as (q & e & s2 & E2 & H2 & Hr2 & _).
    destruct (gettoken_lex _ _ s2 ltac:(lia) Hr2) as (q' & e' & s3 & E3 & H3 & Hr3 & Hw3).
    destruct (Hw3 file eq_refl) as [Hw3a Hw3b]. destruct fuel as [|f]; [lia|].
    destruct (IH f (REDIR t (q', e') mode fd) (REDIR c file mode fd) s3) as (t' & s' & Et & Hs' & Hr' & Hst); [lia|lia|done| |done|done|].
    { by apply stands_redir. }
    exists t', s'. split_and!; [|lia|lia|done|done].
    cbn [parseredirs_loop]. rewrite (pbind_ok _ _ _ _ _ E1). cbn [negb].
    rewrite (pbind_ok _ _ _ _ _ E2), (pbind_ok _ _ _ _ _ E3). cbn [lex_tok fst].
    destruct Hm as [[-> ->]|[[-> ->]|[-> ->]]]; exact Et.
Qed.

Lemma parseargs_stop fuel t argc s ls : (s <= es)%nat -> (0 < fuel)%nat -> renders ls (drop s line) ->
  follow [BAR; RPAR; AMP; SEMI] ls ->
  exists s', parseargs buf es fuel t argc s = POk t s' /\ (s <= s' <= es)%nat /\ renders ls (drop s' line).
Proof.
  intros Hs Hf Hr Hl. destruct (peek_lex [BAR; RPAR; AMP; SEMI] ls s Hs Hr) as (s1 & E1 & H1 & Hr1).
  destruct fuel as [|f]; [lia|]. cbn [parseargs]. rewrite (pbind_ok _ _ _ _ _ E1).
  destruct (follow_first _ _ Hl) as [[-> ->]|Hin].
  - cbv iota. change (in_set [BAR; RPAR; AMP; SEMI] 0) with false. cbv iota.
    rewrite (pbind_ok _ _ _ _ _ (gettoken_end s1 ltac:(lia) Hr1)). exists es. split_and!; [done|lia|lia|].
    unfold es. rewrite drop_all. by constructor.
  - rewrite (proj2 (in_set_spec _ _) Hin). exists s1. by split_and!; [|lia|lia|].
Qed.

Lemma word_first w ls toks : is_word w -> Forall (fun c => c ∈ symbols) toks -> in_set toks (first (Word w :: ls)) = false.
Proof.
  intros [Hne Hw] Ht. destruct w as [|c w]; [done|]. simpl. apply Forall_cons in Hw as [Hc _].
  destruct (in_set toks c) eqn:E; [|done]. apply in_set_spec in E. apply (proj1 (Forall_forall _ _) Ht) in E.
  unfold word_char in Hc. apply in_set_spec in E. rewrite E, andb_false_r in Hc. done.
Qed.

Lemma parseargs_lex args : forall toks given rs fuel s ls,
  (s <= es)%nat -> (es - s < fuel)%nat -> stands (EXEC toks) (EXEC given) -> Forall is_word args -> Forall redir_ok_ rs ->
  (length (given ++ args) < MAXARGS)%nat -> args <> [] -> follow [BAR; RPAR; AMP; SEMI] ls ->
  renders ((Word <$> args) ++ redirs rs ++ ls) (drop s line) ->
  parses (parseargs buf es fuel (EXEC toks) (length given)) s (wrap rs (EXEC (given ++ args))) ls.
Proof.
  induction args as [|w args IH]; intros toks given rs fuel s ls Hs Hf Ht Hw Hrs Hlen Hne Hl Hr; [done|]. clear Hne.
  apply Forall_cons in Hw as [Hww Hw]. rewrite length_app in Hlen. simpl in Hlen.
  destruct (peek_lex [BAR; RPAR; AMP; SEMI] _ s Hs Hr) as (s1 & E1 & H1 & Hr1). simpl fmap in E1, Hr1. simpl app in E1, Hr1.
  rewrite word_first in E1; [|done|by repeat constructor; apply in_set_spec].
  destruct (gettoken_lex _ _ s1 ltac:(lia) Hr1) as (q & e & s2 & E2 & H2 & Hr2 & Hw2).
  destruct (Hw2 w eq_refl) as [Hwa Hwb]. destruct fuel as [|f]; [lia|].
  assert (Hst : stands (add_arg (EXEC toks) (q, e)) (EXEC (given ++ [w]))).
  { destruct Ht as [[Hc Ha] Em]. simpl in *. injection Em as Em. split.
    - split; simpl; [by rewrite Forall_app, Forall_singleton|]. rewrite length_app. simpl.
      apply (f_equal length) in Em. rewrite length_fmap in Em. lia.
    - simpl. by rewrite fmap_app, Em, <-Hwb. }
  destruct (parseredirs_lex (if decide (args = []) then rs else []) es (add_arg (EXEC toks) (q, e)) (EXEC (given ++ [w])) s2
    ((Word <$> args) ++ (if decide (args = []) then [] else redirs rs) ++ ls)) as (t & s3 & E3 & H3 & Hr3 & Ht3).
  - lia.
  - lia.
  - by destruct (decide _).
  - done.
  - destruct (decide (args = [])) as [->|]; [|done]. exact Hr2.
  - destruct args as [|w' args]; [|apply Forall_cons in Hw as [Hw' _]; apply word_first; [done|repeat constructor; by apply in_set_spec]].
    simpl. by eapply follow_no; [exact Hl|done|by repeat constructor].
  - cut (parses (parseargs buf es f t (S (length given))) s3 (wrap rs (EXEC (given ++ w :: args))) ls).
    { intros (t' & s' & E' & Hs' & Hr' & Ht'). exists t', s'. split_and!; [|lia|lia|done|done].
      cbn [parseargs]. rewrite (pbind_ok _ _ _ _ _ E1), (pbind_ok _ _ _ _ _ E2). cbn [lex_tok].
      destruct (Nat.leb_spec MAXARGS (S (length given))); [lia|]. by rewrite (pbind_ok _ _ _ _ _ E3). }
    destruct (decide (args = [])) as [->|Hne].
    + destruct (parseargs_stop f t (S (length given)) s3 ls) as (s4 & E4 & H4 & Hr4); [lia|lia|done|done|].
      exists t, s4. by split_and!; [|lia|lia|..].
    + assert (exists toks', t = EXEC toks') as [toks' ->].
      { destruct Ht3 as [_ Hm]. destruct t; try discriminate Hm. by eexists. }
      replace (S (length given)) with (length (given ++ [w])) by (rewrite length_app; simpl; lia).
      replace (given ++ w :: args) with ((given ++ [w]) ++ args) by (by rewrite <-app_assoc). apply IH; [lia|lia|exact Ht3|done|done| |done|done|exact Hr3].
      rewrite !length_app. simpl. lia.
Qed.

(** One statement per level of the grammar; [rs] and [n] are redirections and ampersands
    behind the command. *)
Definition exec_spec (c : cmd (list Z)) : Prop := forall rs ls s fuel,
  (s <= es)%nat -> (4 * (es - s) + 2 <= fuel)%nat -> Forall redir_ok_ rs -> follow [BAR; RPAR; AMP; SEMI] ls ->
  renders (print L_exec c ++ redirs rs ++ ls) (drop s line) -> parses (parseexec buf es fuel) s (wrap rs c) ls.

Definition pipe_spec (c : cmd (list Z)) : Prop := forall ls s fuel,
  (s <= es)%nat -> (4 * (es - s) + 3 <= fuel)%nat -> follow [RPAR; AMP; SEMI] ls ->
  renders (print L_pipe c ++ ls) (drop s line) -> parses (parsepipe buf es fuel) s c ls.

Definition back_spec (c : cmd (list Z)) : Prop := forall n ls s fuel,
  (s <= es)%nat -> (4 * (es - s) + 3 <= fuel)%nat -> follow [RPAR; SEMI] ls ->
  renders (print L_back c ++ replicate n (Sym AMP) ++ ls) (drop s line) ->
  parses (c <- parsepipe buf es fuel;; parseback buf es es c)%shell s (Nat.iter n BACK c) ls.

Definition line_spec (c : cmd (list Z)) : Prop := forall ls s fuel,
  (s <= es)%nat -> (4 * (es - s) + 4 <= fuel)%nat -> follow [RPAR] ls ->
  renders (print L_line c ++ ls) (drop s line) -> parses (parseline buf es fuel) s c ls.

Lemma parseback_lex n : forall t c fuel s ls, (s <= es)%nat -> (es - s <= fuel)%nat -> stands t c -> follow [RPAR; SEMI] ls ->
  renders (replicate n (Sym AMP) ++ ls) (drop s line) -> parses (parseback buf es fuel t) s (Nat.iter n BACK c) ls.
Proof.
  induction n as [|n IH]; intros t c fuel s ls Hs Hf Ht Hl Hr; simpl in Hr.
  - destruct (peek_is false [AMP] _ s Hs Hr (follow_no _ _ [AMP] Hl eq_refl ltac:(by repeat constructor))) as (s1 & E1 & H1 & Hr1).
    exists t, s1. split_and!; [|lia|lia|done|done]. destruct fuel; cbn [parseback]; by rewrite (pbind_ok _ _ _ _ _ E1).
  - destruct (peek_is true [AMP] _ s Hs Hr eq_refl) as (s1 & E1 & H1 & Hr1).
    destruct (gettoken_lex _ _ s1 ltac:(lia) Hr1) as (q & e & s2 & E2 & H2 & Hr2 & _). destruct fuel as [|f]; [lia|].
    destruct (IH (BACK t) (BACK c) f s2 ls) as (t' & s' & E' & Hs' & Hr' & Ht'); [lia|lia| |done|done|].
    { destruct Ht as [Hok <-]. by split. }
    exists t', s'. rewrite Nat.iter_succ_r. split_and!; [|lia|lia|done|done].
    cbn [parseback]. rewrite (pbind_ok _ _ _ _ _ E1). cbn [negb]. by rewrite (pbind_ok _ _ _ _ _ E2).
Qed.

Lemma pbind_assoc {A B C} (m : P A) (f : A -> P B) (g : B -> P C) s :
  pbind (pbind m f) g s = pbind m (fun x => pbind (f x) g) s.
Proof. unfold pbind. by destruct (m s). Qed.

Lemma pipe_of_exec c : print L_pipe c = print L_exec c -> exec_spec c -> pipe_spec c.
Proof.
  intros Ep He ls s fuel Hs Hf Hl Hr. destruct fuel as [|f]; [lia|].
  destruct (He [] ls s f) as (t & s1 & E1 & H1 & Hr1 & Ht1); [lia|lia|done|by eapply follow_mono; [|done]; set_solver|by rewrite <-Ep|].
  destruct (peek_lex [BAR] _ s1 ltac:(lia) Hr1) as (s2 & E2 & H2 & Hr2).
  rewrite (follow_no _ _ _ Hl) in E2; [|done|by repeat constructor].
  exists t, s2. split_and!; [|lia|lia|done|done]. cbn [parsepipe].
  by rewrite (pbind_ok _ _ _ _ _ E1), (pbind_ok _ _ _ _ _ E2).
Qed.

Lemma follow_amps n ls : follow [RPAR; SEMI] ls -> follow [RPAR; AMP; SEMI] (replicate n (Sym AMP) ++ ls).
Proof. destruct n; simpl; [apply follow_mono; set_solver|set_solver]. Qed.

Lemma back_of_pipe c : print L_back c = print L_pipe c -> pipe_spec c -> back_spec c.
Proof.
  intros Ep He n ls s fuel Hs Hf Hl Hr.
  destruct (He (replicate n (Sym AMP) ++ ls) s fuel) as (t & s1 & E1 & H1 & Hr1 & Ht1);
    [lia|lia|by apply follow_amps|by rewrite <-Ep|].
  destruct (parseback_lex n t c es s1 ls) as (t' & s2 & E2 & H2 & Hr2 & Ht2); [lia|lia|done|done|done|].
  exists t', s2. split_and!; [|lia|lia|done|done]. by rewrite (pbind_ok _ _ _ _ _ E1).
Qed.

Lemma line_of_back c : print L_line c = print L_back c -> back_spec c -> line_spec c.
Proof.
  intros Ep He ls s fuel Hs Hf Hl Hr. destruct fuel as [|f]; [lia|].
  destruct (He 0%nat ls s f) as (t & s1 & E1 & H1 & Hr1 & Ht1); [lia|lia|by eapply follow_mono; [|done]; set_solver|by rewrite <-Ep|].
  destruct (peek_lex [SEMI] _ s1 ltac:(lia) Hr1) as (s2 & E2 & H2 & Hr2).
  rewrite (follow_no _ _ _ Hl) in E2; [|done|by repeat constructor].
  exists t, s2. split_and!; [|lia|lia|done|done]. cbn [parseline]. rewrite <-pbind_assoc.
  by rewrite (pbind_ok _ _ _ _ _ E1), (pbind_ok _ _ _ _ _ E2).
Qed.

Lemma exec_of_line c : print L_exec c = Sym LPAR :: print L_line c ++ [Sym RPAR] -> line_spec c -> exec_spec c.
Proof.
  intros Ep He rs ls s fuel Hs Hf Hrs Hl Hr. rewrite Ep in Hr. simpl in Hr. rewrite <-app_assoc in Hr.
  destruct fuel as [|[|f]]; [lia|lia|].
  destruct (peek_is true [LPAR] _ s Hs Hr eq_refl) as (s1 & E1 & H1 & Hr1).
  destruct (peek_is true [LPAR] _ s1 ltac:(lia) Hr1 eq_refl) as (s2 & E2 & H2 & Hr2).
  destruct (gettoken_lex _ _ s2 ltac:(lia) Hr2) as (q & e & s3 & E3 & H3 & Hr3 & _).
  destruct (He ([Sym RPAR] ++ redirs rs ++ ls) s3 f) as (t & s4 & E4 & H4 & Hr4 & Ht4); [lia|lia|simpl; set_solver|done|].
  destruct (peek_is true [RPAR] _ s4 ltac:(lia) Hr4 eq_refl) as (s5 & E5 & H5 & Hr5).
  destruct (gettoken_lex _ _ s5 ltac:(lia) Hr5) as (q6 & e6 & s6 & E6 & H6 & Hr6 & _).
  destruct (parseredirs_lex rs es t c s6 ls) as (t7 & s7 & E7 & H7 & Hr7 & Ht7); [lia|lia|done|done|done| |].
  { by eapply follow_no; [exact Hl|done|by repeat constructor]. }
  exists t7, s7. split_and!; [|lia|lia|done|done]. cbn [parseexec]. rewrite (pbind_ok _ _ _ _ _ E1).
  cbn [parseblock]. rewrite (pbind_ok _ _ _ _ _ E2). cbn [negb].
  rewrite (pbind_ok _ _ _ _ _ E3), (pbind_ok _ _ _ _ _ E4), (pbind_ok _ _ _ _ _ E5). cbn [negb].
  by rewrite (pbind_ok _ _ _ _ _ E6).
Qed.

Lemma exec_words argv : Forall is_word argv -> (length argv < MAXARGS)%nat -> exec_spec (EXEC argv).
Proof.
  intros Hw Hlen rs ls s fuel Hs Hf Hrs Hl Hr. destruct fuel as [|f]; [lia|].
  assert (Hst : stands (EXEC []) (EXEC [])) by (split; [split; simpl; [constructor|unfold MAXARGS; lia]|done]).
  assert (E0 : in_set [LPAR] (first (print L_exec (EXEC argv) ++ redirs rs ++ ls)) = false).
  { destruct argv as [|w argv]; [|apply Forall_cons in Hw as [Hw _]; apply word_first; [done|repeat constructor; by apply in_set_spec]].
    destruct rs as [|[[file mode] fd] rs]; [by eapply follow_no; [exact Hl|done|repeat constructor]|].
    apply Forall_cons in Hrs as [[_ Hm] _]. by destruct Hm as [[-> _]|[[-> _]|[-> _]]]. }
  destruct (peek_is false [LPAR] _ s Hs Hr E0) as (s1 & E1 & H1 & Hr1).
  cut (exists t s2, parseredirs buf es (EXEC []) s1 = POk t s2 /\ (s1 <= s2 <= es)%nat /\
    parses (parseargs buf es (S es) t 0) s2 (wrap rs (EXEC argv)) ls).
  { intros (t & s2 & E2 & H2 & t' & s3 & E3 & H3 & Hr3 & Ht3). exists t', s3. split_and!; [|lia|lia|done|done].
    cbn [parseexec]. by rewrite (pbind_ok _ _ _ _ _ E1), (pbind_ok _ _ _ _ _ E2). }
  destruct argv as [|w argv].
  - destruct (parseredirs_lex rs es (EXEC []) (EXEC []) s1 ls) as (t & s2 & E2 & H2 & Hr2 & Ht2); [lia|lia|done|done|done| |].
    { by eapply follow_no; [exact Hl|done|repeat constructor]. }
    exists t, s2. split_and!; [done|lia|lia|].
    destruct (parseargs_stop (S es) t 0 s2 ls) as (s3 & E3 & H3 & Hr3); [lia|lia|done|done|].
    exists t, s3. by split_and!; [|lia|lia|..].
  - pose proof Hw as [Hw1 _]%Forall_cons.
    destruct (parseredirs_lex [] es (EXEC []) (EXEC []) s1 (print L_exec (EXEC (w :: argv)) ++ redirs rs ++ ls))
      as (t & s2 & E2 & H2 & Hr2 & Ht2); [lia|lia|done|done|done| |].
    { apply word_first; [done|repeat constructor; by apply in_set_spec]. }
    exists t, s2. split_and!; [done|lia|lia|].
    assert (exists toks, t = EXEC toks) as [toks ->].
    { destruct Ht2 as [_ Hm]. destruct t; try discriminate Hm. by eexists. }
    by apply (parseargs_lex (w :: argv) toks [] rs); [lia|lia|..].
Qed.

Lemma pipe_pipe l r : exec_spec l -> pipe_spec r -> pipe_spec (PIPE l r).
Proof.
  intros He Hp ls s fuel Hs Hf Hl Hr. simpl in Hr. rewrite <-app_assoc in Hr. simpl in Hr.
  destruct fuel as [|f]; [lia|].
  destruct (He [] (Sym BAR :: print L_pipe r ++ ls) s f) as (t & s1 & E1 & H1 & Hr1 & [Hok1 Hm1]); [lia|lia|done|simpl; set_solver|done|].
  destruct (peek_is true [BAR] _ s1 ltac:(lia) Hr1 eq_refl) as (s2 & E2 & H2 & Hr2).
  destruct (gettoken_lex _ _ s2 ltac:(lia) Hr2) as (q & e & s3 & E3 & H3 & Hr3 & _).
  destruct (Hp ls s3 f) as (t4 & s4 & E4 & H4 & Hr4 & [Hok4 Hm4]); [lia|lia|done|done|].
  exists (PIPE t t4), s4. split_and!; [|lia|lia|done|].
  - cbn [parsepipe]. rewrite (pbind_ok _ _ _ _ _ E1), (pbind_ok _ _ _ _ _ E2), (pbind_ok _ _ _ _ _ E3).
    by rewrite (pbind_ok _ _ _ _ _ E4).
  - destruct Hok1, Hok4. split; [split; simpl; [by apply Forall_app|done]|]. simpl. by rewrite Hm1, Hm4.
Qed.

Lemma line_list l r : back_spec l -> line_spec r -> line_spec (LIST l r).
Proof.
  intros Hb Hn ls s fuel Hs Hf Hl Hr. simpl in Hr. rewrite <-app_assoc in Hr. simpl in Hr.
  destruct fuel as [|f]; [lia|].
  destruct (Hb 0%nat (Sym SEMI :: print L_line r ++ ls) s f) as (t & s1 & E1 & H1 & Hr1 & [Hok1 Hm1]); [lia|lia|simpl; set_solver|done|].
  destruct (peek_is true [SEMI] _ s1 ltac:(lia) Hr1 eq_refl) as (s2 & E2 & H2 & Hr2).
  destruct (gettoken_lex _ _ s2 ltac:(lia) Hr2) as (q & e & s3 & E3 & H3 & Hr3 & _).
  destruct (Hn ls s3 f) as (t4 & s4 & E4 & H4 & Hr4 & [Hok4 Hm4]); [lia|lia|done|done|].
  exists (LIST t t4), s4. split_and!; [|lia|lia|done|].
  - cbn [parseline]. rewrite <-pbind_assoc, (pbind_ok _ _ _ _ _ E1), (pbind_ok _ _ _ _ _ E2), (pbind_ok _ _ _ _ _ E3).
    by rewrite (pbind_ok _ _ _ _ _ E4).
  - destruct Hok1, Hok4. split; [split; simpl; [by apply Forall_app|done]|]. simpl in *. by rewrite Hm1, Hm4.
Qed.

Lemma parse_print c : expressible c -> exec_spec c /\ pipe_spec c /\ back_spec c /\ line_spec c.
Proof.
  induction c as [argv|c IH file mode fd|l IHl r IHr|l IHl r IHr|c IH]; simpl; intros Hx.
  - assert (He : exec_spec (EXEC argv)) by (apply exec_words; tauto).
    assert (Hp : pipe_spec (EXEC argv)) by (by apply pipe_of_exec).
    assert (Hb : back_spec (EXEC argv)) by (by apply back_of_pipe). split_and!; [done..|]. by apply line_of_back.
  - destruct Hx as (Hx & Hf & Hm). destruct (IH Hx) as (IHe & _).
    assert (He : exec_spec (REDIR c file mode fd)).
    { intros rs ls s fuel Hs Hfu Hrs Hl Hr. apply (IHe ((file, mode, fd) :: rs)); try done.
      - by constructor.
      - simpl in Hr. by rewrite <-app_assoc in Hr. }
    assert (Hp : pipe_spec (REDIR c file mode fd)) by (by apply pipe_of_exec).
    assert (Hb : back_spec (REDIR c file mode fd)) by (by apply back_of_pipe). split_and!; [done..|]. by apply line_of_back.
  - destruct (IHl ltac:(tauto)) as (IHle & _). destruct (IHr ltac:(tauto)) as (_ & IHrp & _).
    assert (Hp : pipe_spec (PIPE l r)) by (by apply pipe_pipe).
    assert (Hb : back_spec (PIPE l r)) by (by apply back_of_pipe).
    assert (Hn : line_spec (PIPE l r)) by (by apply line_of_back). split_and!; [by apply exec_of_line|done..].
  - destruct (IHl ltac:(tauto)) as (_ & _ & IHlb & _). destruct (IHr ltac:(tauto)) as (_ & _ & _ & IHrn).
    assert (Hn : line_spec (LIST l r)) by (by apply line_list).
    assert (He : exec_spec (LIST l r)) by (by apply exec_of_line).
    assert (Hp : pipe_spec (LIST l r)) by (by apply pipe_of_exec). split_and!; [done|done|by apply back_of_pipe|done].
  - destruct (IH Hx) as (_ & _ & IHb & _).
    assert (Hb : back_spec (BACK c)).
    { intros n ls s fuel Hs Hf Hl Hr. simpl in Hr. rewrite <-app_assoc in Hr.
      rewrite <-Nat.iter_succ_r. by apply (IHb (S n)). }
    assert (Hn : line_spec (BACK c)) by (by apply line_of_back).
    assert (He : exec_spec (BACK c)) by (by apply exec_of_line).
    assert (Hp : pipe_spec (BACK c)) by (by apply pipe_of_exec). by split_and!.
Qed.

End lexer.

(** C36: the shell reads back what is written: for every command it has a syntax for
    (words without special characters, fewer than MAXARGS arguments), written with
    parentheses where needed and with any white space, parsecmd yields exactly that
    command, and its strings in the line after nulterminate are the words. *)
Theorem parsecmd_reads_back (c : cmd (list Z)) (line junk : list Z) :
  expressible c -> renders (print L_line c) line -> Forall (fun x => x <> 0) line ->
  exists t buf, parsecmd (line ++ 0 :: junk) = POk (t, buf) (length line) /\ strings buf t = c.
Proof.
  intros Hx Hr Hnz. destruct (parse_print line junk Hnz c Hx) as (_ & _ & _ & Hn).
  destruct (Hn [] 0%nat (4 * length line + 4)%nat) as (t & s1 & E1 & H1 & Hr1 & [Hok Hm]); [lia|lia|done| |].
  { by rewrite app_nil_r. }
  destruct (renders_skip line junk Hnz [] s1 ltac:(lia) Hr1) as (_ & _ & _ & Eq).
  exists t, (nulterminate t (line ++ 0 :: junk)). split; [|rewrite strings_terminated by done; exact Hm].
  unfold parsecmd. rewrite (strlen_line line junk Hnz).
  rewrite (pbind_ok _ _ _ _ _ E1). unfold peek, pbind, pret. rewrite Eq, Nat.eqb_refl. done.
Qed.

(** ls  -l>x; cat & *)
Definition demo_cmd : cmd (list Z) :=
  LIST (REDIR (EXEC [str "ls"; str "-l"]) (str "x") O_OUT 1) (BACK (EXEC [str "cat"])).

Lemma demo_renders : renders (print L_line demo_cmd) (str "ls  -l>x; cat &").
Proof.
  assert (Hw : forall w, w <> [] -> forallb word_char w = true -> is_word w).
  { intros w Hne Hw. split; [done|]. apply Forall_forall. intros c Hc. rewrite forallb_forall in Hw.
    by apply Hw, list_elem_of_In. }
  apply (renders_cons [] (Word (str "ls")) _ (str "  -l>x; cat &")); [constructor|by apply Hw|done|].
  apply (renders_cons (str "  ") (Word (str "-l")) _ (str ">x; cat &"));
    [repeat constructor; by apply in_set_spec|by apply Hw|done|].
  apply (renders_cons [] (Sym GT) _ (str "x; cat &")); [constructor|by apply in_set_spec|done|].
  apply (renders_cons [] (Word (str "x")) _ (str "; cat &")); [constructor|by apply Hw|done|].
  apply (renders_cons [] (Sym SEMI) _ (str " cat &")); [constructor|by apply in_set_spec|done|].
  apply (renders_cons (str " ") (Word (str "cat")) _ (str " &"));
    [repeat constructor; by apply in_set_spec|by apply Hw|done|].
  apply (renders_cons (str " ") (Sym AMP) _ []); [repeat constructor; by apply in_set_spec|by apply in_set_spec|done|].
  constructor. constructor.
Qed.

Lemma demo_expressible : expressible demo_cmd.
Proof. simpl. unfold MAXARGS, is_word. split_and!; try (repeat constructor; done); try lia; auto. Qed.

Lemma parsecmd_reads_back_witness :
  exists t buf, parsecmd (str "ls  -l>x; cat &" ++ [0]) = POk (t, buf) 15%nat /\ strings buf t = demo_cmd.
Proof.
  apply (parsecmd_reads_back demo_cmd (str "ls  -l>x; cat &") []).
  - exact demo_expressible.
  - exact demo_renders.
  - repeat constructor; discriminate.
Defined.
