(* ===== verification/ShellRun.v ===== *)
(** * ShellRun

    The other half of user/sh.c: runcmd, which starts the processes of a command and wires
    their file descriptors, and the loop that reads commands. The commands runcmd starts
    get the descriptors the command asks for, and no others. *)
From Stdlib Require Import ZArith List.
From ITree Require Import ITree ITreeFacts.
From stdpp Require Import base tactics list numbers gmap sets strings.
From S2P Require Import Prelude Printf Kernel Sysfile Ulib Shell ShellProps.
Import Lib.
Local Open Scope prog_scope.

Definition panic {A} (s : string) : prog A :=
  fprintf 2 (ln "%s") [VStr (Some (str s))];;
  exit 1.

Definition fork1 : prog Z :=
  pid <- call Fork;;
  if pid =? -1 then panic "fork" else Ret pid.

Fixpoint runcmd (c : cmd (list Z)) : prog Empty_set :=
  match c with
  | EXEC argv =>
      match argv with
      | [] => exit 1
      | a0 :: _ =>
          call (Exec a0 argv);;
          fprintf 2 (ln "exec %s failed") [VStr (Some a0)];;
          exit 0
      end
  | REDIR c file mode fd =>
      call (Close fd);;
      r <- call (Open file mode);;
      if r <? 0 then
        fprintf 2 (ln "open %s failed") [VStr (Some file)];;
        exit 1
      else runcmd c
  | LIST l r =>
      pid <- fork1;;
      if pid =? 0 then runcmd l else
      call Wait;;
      runcmd r
  | PIPE l r =>
      p <- call Pipe;;
      let '(res, (p0, p1)) := p in
      if res <? 0 then panic "pipe" else
      pid <- fork1;;
      if pid =? 0 then
        call (Close 1);;
        call (Dup p1);;
        call (Close p0);;
        call (Close p1);;
        runcmd l
      else
      pid <- fork1;;
      if pid =? 0 then
        call (Close 0);;
        call (Dup p0);;
        call (Close p0);;
        call (Close p1);;
        runcmd r
      else
      call (Close p0);;
      call (Close p1);;
      call Wait;;
      call Wait;;
      exit 0
  | BACK c =>
      pid <- fork1;;
      if pid =? 0 then runcmd c else exit 0
  end.

(** The contents of [buf] (memset, then gets), or [None] at the end of the input. *)
Definition getcmd (nbuf : nat) : prog (option (list Z)) :=
  fprintf 2 "$ " [];;
  l <- gets (Z.of_nat nbuf);;
  let buf := l ++ replicate (nbuf - length l) 0 in
  if hd 0 buf =? 0 then Ret None else Ret (Some buf).

(** runcmd(parsecmd(buf)) *)
Definition run_line (buf : list Z) : prog Empty_set :=
  match parsecmd buf with
  | POk (c, buf) _ => runcmd (strings buf c)
  | PErr out => each out (putc 2);; exit 1
  | PNoFuel => fault
  end.

Definition main : prog Empty_set :=
  ITree.iter (fun _ : unit =>
    fd <- call (Open (str "console") O_RDWR);;
    if fd <? 0 then Ret (inr tt) else
    if 3 <=? fd then call (Close fd);; Ret (inr tt) else Ret (inl tt)) tt;;
  ITree.iter (fun _ : unit =>
    b <- getcmd 100;;
    match b with
    | None => exit 0
    | Some buf =>
        if bool_decide (take 3 buf = str "cd ") then
          let buf := <[Z.to_nat (Z.of_nat (Shell.strlen buf) - 1) := 0]> buf in
          let dir := cstr (drop 3 buf) in
          r <- call (Chdir dir);;
          (if r <? 0 then fprintf 2 (ln "cannot cd %s") [VStr (Some dir)] else Ret tt);;
          Ret (inl tt)
        else
          pid <- fork1;;
          if pid =? 0 then v <- run_line buf;; match v : Empty_set with end else
          call Wait;;
          Ret (inl tt)
    end) tt.

(** ** What the commands are started with *)

(** What a descriptor refers to. *)
Inductive desc := Given (n : nat) | File (path : list Z) (mode : Z) | PipeRead (n : nat) | PipeWrite (n : nat).

(** A process that called exec: its arguments and open descriptors. *)
Record launch := Launch { l_argv : list (list Z); l_fds : gmap Z desc }.

(** fdalloc takes the lowest free descriptor. *)
Definition lowest (fds : gmap Z desc) : option Z :=
  List.find (fun i => bool_decide (fds !! i = None)) (Z.of_nat <$> upto NOFILE).

(** Running a tree whose calls succeed: fork runs the child and then the parent with a
    copy of the descriptors; exec ends the run with a launch. [n] counts the pipes. *)
Fixpoint run (fuel : nat) (t : prog Empty_set) (fds : gmap Z desc) (n : nat) : option (list launch * nat) :=
  match fuel with
  | O => None
  | S f =>
      match observe t with
      | RetF v => match v with end
      | TauF t => run f t fds n
      | VisF e k =>
          match e in sysE X return (X -> prog Empty_set) -> option (list launch * nat) with
          | Fork => fun k =>
              r1 ← run f (k 0) fds n;
              r2 ← run f (k 1) fds r1.2;
              Some (r1.1 ++ r2.1, r2.2)
          | Exit _ => fun _ => Some ([], n)
          | Wait => fun k => run f (k (1, 0)) fds n
          | Pipe => fun k =>
              a ← lowest fds;
              let fds1 := <[a := PipeRead n]> fds in
              b ← lowest fds1;
              run f (k (0, (a, b))) (<[b := PipeWrite n]> fds1) (S n)
          | Close fd => fun k => run f (k (if fds !! fd is Some _ then 0 else -1)) (delete fd fds) n
          | Dup fd => fun k => d ← fds !! fd; a ← lowest fds; run f (k a) (<[a := d]> fds) n
          | Open path mode => fun k => a ← lowest fds; run f (k a) (<[a := File path mode]> fds) n
          | Exec _ argv => fun _ => Some ([Launch argv fds], n)
          | _ => fun _ => None
          end k
      end
  end.

(** What the command asks for. *)
Fixpoint pipes {X} (c : cmd X) : nat :=
  match c with
  | EXEC _ => 0%nat
  | REDIR c _ _ _ | BACK c => pipes c
  | PIPE l r => S (pipes l + pipes r)%nat
  | LIST l r => (pipes l + pipes r)%nat
  end.

Fixpoint wires (c : cmd (list Z)) (fds : gmap Z desc) (n : nat) : list launch :=
  match c with
  | EXEC argv => match argv with [] => [] | _ => [Launch argv fds] end
  | REDIR c file mode fd => wires c (<[fd := File file mode]> fds) n
  | PIPE l r => wires l (<[1 := PipeWrite n]> fds) (S n) ++ wires r (<[0 := PipeRead n]> fds) (S n + pipes l)%nat
  | LIST l r => wires l fds n ++ wires r fds (n + pipes l)%nat
  | BACK c => wires c fds n
  end.

(** ** Running a tree *)

Section run.
Implicit Types (t : prog Empty_set) (fds : gmap Z desc) (n : nat).

(** [run] looks only at what a tree shows. *)
Lemma run_observe f t t' fds n : observe t = observe t' -> run f t fds n = run f t' fds n.
Proof. destruct f; [done|]. simpl. by intros ->. Qed.

Lemma run_ret {A} f (a : A) (k : A -> prog Empty_set) fds n : run f (ITree.bind (Ret a) k) fds n = run f (k a) fds n.
Proof. by apply run_observe. Qed.

Lemma run_more f g t fds n r : run f t fds n = Some r -> (f <= g)%nat -> run g t fds n = Some r.
Proof.
  revert g t fds n r. induction f as [|f IH]; intros g t fds n r E Hg; [done|]. destruct g as [|g]; [lia|].
  assert (Hfg : (f <= g)%nat) by lia. simpl in *. destruct (observe t) as [v|t'|X e k]; [done|by eapply IH|].
  assert (IH' : forall t fds n r, run f t fds n = Some r -> run g t fds n = Some r) by (intros; by eapply IH).
  destruct e; try done; try (by apply IH').
  - destruct (run f (k 0) fds n) as [r1|] eqn:E1; [|done]. simpl in E. rewrite (IH' _ _ _ _ E1). simpl.
    destruct (run f (k 1) fds r1.2) as [r2|] eqn:E2; [|done]. by rewrite (IH' _ _ _ _ E2).
  - destruct (lowest fds) as [a|]; [|done]. simpl in *. destruct (lowest _) as [b|]; [|done]. simpl in *. by apply IH'.
  - destruct (lowest fds) as [a|]; [|done]. simpl in *. by apply IH'.
  - destruct (fds !! fd) as [d|]; [|done]. simpl in *. destruct (lowest fds) as [a|]; [|done]. simpl in *. by apply IH'.
Qed.

(** The run ends with [r]. *)
Definition ends t fds n (r : list launch * nat) : Prop := exists f, run f t fds n = Some r.

Lemma ends_close fd k fds n r :
  ends (k (if fds !! fd is Some _ then 0 else -1)) (delete fd fds) n r -> ends (ITree.bind (call (Close fd)) k) fds n r.
Proof. intros (f & E). exists (S f). simpl. by rewrite run_ret. Qed.

Lemma ends_dup fd d a k fds n r : fds !! fd = Some d -> lowest fds = Some a ->
  ends (k a) (<[a := d]> fds) n r -> ends (ITree.bind (call (Dup fd)) k) fds n r.
Proof. intros Ed Ea (f & E). exists (S f). simpl. rewrite Ed. simpl. rewrite Ea. simpl. by rewrite run_ret. Qed.

Lemma ends_open path mode a k fds n r : lowest fds = Some a ->
  ends (k a) (<[a := File path mode]> fds) n r -> ends (ITree.bind (call (Open path mode)) k) fds n r.
Proof. intros Ea (f & E). exists (S f). simpl. rewrite Ea. simpl. by rewrite run_ret. Qed.

Lemma ends_wait k fds n r : ends (k (1, 0)) fds n r -> ends (ITree.bind (call Wait) k) fds n r.
Proof. intros (f & E). exists (S f). simpl. by rewrite run_ret. Qed.

Lemma ends_pipe a b k fds n r : lowest fds = Some a -> lowest (<[a := PipeRead n]> fds) = Some b ->
  ends (k (0, (a, b))) (<[b := PipeWrite n]> (<[a := PipeRead n]> fds)) (S n) r ->
  ends (ITree.bind (call Pipe) k) fds n r.
Proof. intros Ea Eb (f & E). exists (S f). simpl. rewrite Ea. simpl. rewrite Eb. simpl. by rewrite run_ret. Qed.

Lemma ends_exit st fds n : ends (exit st) fds n ([], n).
Proof. by exists 1%nat. Qed.

Lemma ends_exec path argv k fds n : ends (ITree.bind (call (Exec path argv)) k) fds n ([Launch argv fds], n).
Proof. by exists 1%nat. Qed.

(** fork1 and what follows *)
Lemma ends_fork1 k fds n l1 n1 l2 n2 :
  ends (k 0) fds n (l1, n1) -> ends (k 1) fds n1 (l2, n2) -> ends (ITree.bind fork1 k) fds n (l1 ++ l2, n2).
Proof.
  intros (f1 & E1) (f2 & E2). exists (S (f1 `max` f2)). simpl.
  rewrite (run_observe _ _ (k 0)), (run_more f1 _ _ _ _ _ E1) by (done || lia). simpl.
  rewrite (run_observe _ _ (k 1)), (run_more f2 _ _ _ _ _ E2) by (done || lia). done.
Qed.

(** Descriptors 0, 1 and 2 are open and no others. *)
Definition std fds : Prop := forall i, is_Some (fds !! i) <-> 0 <= i <= 2.

Lemma find_least (P : Z -> bool) (a : Z) (m k : nat) :
  Z.of_nat k <= a < Z.of_nat (k + m) -> P a = true -> (forall i, Z.of_nat k <= i < a -> P i = false) ->
  List.find P (Z.of_nat <$> seq k m) = Some a.
Proof.
  revert k. induction m as [|m IH]; intros k Ha Hp Hn; [lia|]. simpl. destruct (decide (Z.of_nat k = a)) as [->|].
  - by rewrite Hp.
  - rewrite Hn by lia. apply IH; [lia|done|]. intros i Hi. apply Hn. lia.
Qed.

Lemma lowest_is fds a : 0 <= a < Z.of_nat NOFILE -> fds !! a = None -> (forall i, 0 <= i < a -> is_Some (fds !! i)) ->
  lowest fds = Some a.
Proof.
  intros Ha Hn Hs. apply find_least; [simpl; lia|by rewrite bool_decide_eq_true|].
  intros i Hi. apply bool_decide_eq_false. intros E. destruct (Hs i ltac:(lia)). congruence.
Qed.

Lemma std_lookup fds i : std fds -> (0 <= i <= 2 -> is_Some (fds !! i)) /\ (~ 0 <= i <= 2 -> fds !! i = None).
Proof.
  intros Hs. split; [apply Hs|]. intros Hi. apply eq_None_not_Some. by rewrite (Hs i).
Qed.

Lemma std_insert fds i d : 0 <= i <= 2 -> std fds -> std (<[i := d]> fds).
Proof.
  intros Hi Hs j. destruct (decide (i = j)) as [->|Hne]; [rewrite lookup_insert_eq; split; [lia|done]|].
  rewrite lookup_insert_ne by done. apply Hs.
Qed.

(** The descriptors of a child that takes an end of the pipe as [fd]. *)
Lemma plumbed fds fd d x y : std fds -> 0 <= fd <= 2 ->
  delete 4 (delete 3 (<[fd := d]> (delete fd (<[4 := x]> (<[3 := y]> fds))))) = <[fd := d]> fds.
Proof.
  intros Hs Hfd. apply map_eq. intros i. destruct (decide (i = 4)) as [->|H4].
  { rewrite lookup_delete_eq, lookup_insert_ne by lia. symmetry. apply (std_lookup fds 4 Hs). lia. }
  rewrite lookup_delete_ne by done. destruct (decide (i = 3)) as [->|H3].
  { rewrite lookup_delete_eq, lookup_insert_ne by lia. symmetry. apply (std_lookup fds 3 Hs). lia. }
  rewrite lookup_delete_ne by done. destruct (decide (i = fd)) as [->|Hne]; [by rewrite !lookup_insert_eq|].
  rewrite !lookup_insert_ne, lookup_delete_ne, !lookup_insert_ne by done. done.
Qed.

Ltac lookups := repeat first
  [rewrite lookup_insert_eq | rewrite lookup_delete_eq | rewrite lookup_insert_ne by lia | rewrite lookup_delete_ne by lia].

Lemma plumb_ends fds fd x y d t n r :
  std fds -> fd = 0 /\ d = y \/ fd = 1 /\ d = x -> ends t (<[fd := d]> fds) n r ->
  ends (call (Close fd);; call (Dup (if fd =? 0 then 3 else 4));; call (Close 3);; call (Close 4);; t)
    (<[4 := x]> (<[3 := y]> fds)) n r.
Proof.
  intros Hs Hd Ht. apply ends_close. eapply (ends_dup _ d fd).
  - destruct Hd as [[-> ->]|[-> ->]]; simpl; by lookups.
  - apply lowest_is; [unfold NOFILE; lia|by lookups|]. intros i Hi. lookups. apply (std_lookup fds i Hs). lia.
  - apply ends_close, ends_close. by rewrite plumbed by (done || lia).
Qed.

Lemma runcmd_ends c : forall fds n, expressible c -> std fds ->
  ends (runcmd c) fds n (wires c fds n, (n + pipes c)%nat).
Proof.
  induction c as [argv|c IH file mode fd|l IHl r IHr|l IHl r IHr|c IH]; intros fds n Hx Hs; simpl in Hx.
  - rewrite Nat.add_0_r. destruct argv as [|a argv]; [apply ends_exit|apply ends_exec].
  - destruct Hx as (Hx & _ & Hm). assert (Hfd : 0 <= fd <= 1) by lia. simpl. apply ends_close.
    apply (ends_open _ _ fd).
    + apply lowest_is; [unfold NOFILE; lia|by lookups|]. intros i Hi. lookups. apply (std_lookup fds i Hs). lia.
    + rewrite (proj2 (Z.ltb_ge fd 0)) by lia. rewrite insert_delete_eq. apply IH; [done|]. apply std_insert; [lia|done].
  - destruct Hx as [Hl Hr]. cbn [runcmd wires pipes].
    apply (ends_pipe 3 4).
    + apply lowest_is; [unfold NOFILE; lia|apply (std_lookup fds 3 Hs); lia|]. intros i Hi. apply (std_lookup fds i Hs). lia.
    + apply lowest_is; [unfold NOFILE; lia|lookups; apply (std_lookup fds 4 Hs); lia|].
      intros i Hi. destruct (decide (i = 3)) as [->|]; lookups; [done|]. apply (std_lookup fds i Hs). lia.
    + cbv beta iota. change (0 <? 0) with false. cbv iota.
      apply (ends_fork1 _ _ _ _ (S n + pipes l)%nat).
      * change (0 =? 0) with true. cbv iota.
        apply (plumb_ends fds 1 _ _ (PipeWrite n)); auto. apply IHl; [done|]. by apply std_insert; [lia|].
      * change (1 =? 0) with false. cbv iota.
        rewrite <-(app_nil_r (wires r _ _)).
        apply (ends_fork1 _ _ _ _ (n + S (pipes l + pipes r))%nat).
        -- change (0 =? 0) with true. cbv iota.
           apply (plumb_ends fds 0 _ _ (PipeRead n)); auto.
           replace (n + S (pipes l + pipes r))%nat with (S n + pipes l + pipes r)%nat by lia.
           apply IHr; [done|]. by apply std_insert; [lia|].
        -- change (1 =? 0) with false. cbv iota. apply ends_close, ends_close, ends_wait, ends_wait, ends_exit.
  - destruct Hx as [Hl Hr]. cbn [runcmd wires pipes]. apply (ends_fork1 _ _ _ _ (n + pipes l)%nat).
    + by apply IHl.
    + apply ends_wait. replace (n + (pipes l + pipes r))%nat with (n + pipes l + pipes r)%nat by lia. by apply IHr.
  - cbn [runcmd wires pipes]. rewrite <-(app_nil_r (wires c fds n)). eapply ends_fork1; [by apply IH|apply ends_exit].
Qed.

End run.


Definition demo_fds : gmap Z desc := {[0 := Given 0; 1 := Given 1; 2 := Given 2]}.

Lemma demo_fds_std : std demo_fds.
Proof.
  intros i. unfold demo_fds. split.
  - intros [d Hd]. apply lookup_insert_Some in Hd as [[<- _]|[_ Hd]]; [lia|].
    apply lookup_insert_Some in Hd as [[<- _]|[_ Hd]]; [lia|]. apply lookup_singleton_Some in Hd as [<- _]. lia.
  - intros Hi. destruct (decide (i = 0)) as [->|]; [by eexists|]. destruct (decide (i = 1)) as [->|]; [by eexists|].
    assert (i = 2) as -> by lia. by eexists.
Qed.

(** cat < in | wc: the first process reads the file and writes into the pipe. *)
Definition demo_pipeline : cmd (list Z) :=
  PIPE (REDIR (EXEC [str "cat"]) (str "in") O_RDONLY 0) (EXEC [str "wc"]).

