(* ===== verification/Umalloc.v ===== *)
(** * Umalloc

    user/umalloc.c: the allocator of user programs, a circular list of free blocks in
    the order of their addresses. It never gives out memory that is in use, gives back
    and merges what is freed, and terminates.

    Memory is divided into units of sizeof(Header) = 16 bytes; the unit at address [a]
    is looked at only as a header. sbrk is the system call: [room brk n] says whether
    the kernel lets a process of size [brk] grow by [n]. *)
From stdpp Require Import base tactics list numbers gmap sets.
From S2P Require Import Prelude.

(** union header *)
Record header := Hd { h_ptr : Z; h_size : Z }.

(** The units of memory, freep and the size of the process. *)
Record heap := Heap { hp_mem : gmap Z header; hp_freep : Z; hp_brk : Z }.

Definition HSIZE : Z := 16.

(** A block: the address of its header and its size in units. *)
Abbreviation block := (Z * Z)%type.

Section umalloc.
(** &base, and what the kernel grants *)
Context (base : Z) (room : Z -> Z -> bool).

Definition sbrk (n : Z) (h : heap) : Z * heap :=
  if room (hp_brk h) n then (hp_brk h, Heap (hp_mem h) (hp_freep h) (hp_brk h + n)) else (-1, h).

(** The loop of free: the block of the list behind which [bp] belongs. *)
Fixpoint free_loop (fuel : nat) (m : gmap Z header) (bp p : Z) : option Z :=
  x ← m !! p;
  let n := h_ptr x in
  if (p <? bp) && (bp <? n) then Some p
  else if (n <=? p) && ((p <? bp) || (bp <? n)) then Some p
  else match fuel with O => None | S f => free_loop f m bp n end.

Definition free (fuel : nat) (ap : Z) (h : heap) : option heap :=
  let bp := ap - HSIZE in
  let m := hp_mem h in
  p ← free_loop fuel m bp (hp_freep h);
  b ← m !! bp;
  x ← m !! p;
  m1 ← (if bp + HSIZE * h_size b =? h_ptr x then
          n ← m !! h_ptr x;
          Some (<[bp := Hd (h_ptr n) (u32 (h_size b + h_size n))]> m)
        else Some (<[bp := Hd (h_ptr x) (h_size b)]> m));
  b ← m1 !! bp;
  x ← m1 !! p;
  let m2 := if p + HSIZE * h_size x =? bp
            then <[p := Hd (h_ptr b) (u32 (h_size x + h_size b))]> m1
            else <[p := Hd bp (h_size x)]> m1 in
  Some (Heap m2 p (hp_brk h)).

(** [Some (0, _)]: sbrk failed. The new memory is zero. *)
Definition morecore (fuel : nat) (nu : Z) (h : heap) : option (Z * heap) :=
  let nu := if nu <? 4096 then 4096 else nu in
  let '(p, h) := sbrk (i32 (u64 (nu * HSIZE))) h in
  if p =? -1 then Some (0, h) else
  let h := Heap (<[p := Hd 0 nu]> (hp_mem h)) (hp_freep h) (hp_brk h) in
  h ← free fuel (p + HSIZE) h;
  Some (hp_freep h, h).

(** The block [p] behind [prevp] is large enough: all of it, or its tail. *)
Definition carve (nunits prevp p : Z) (h : heap) : option (Z * heap) :=
  let m := hp_mem h in
  x ← m !! p;
  q ← m !! prevp;
  if h_size x =? nunits then
    Some (p + HSIZE, Heap (<[prevp := Hd (h_ptr x) (h_size q)]> m) prevp (hp_brk h))
  else
    let rest := h_size x - nunits in
    let m := <[p := Hd (h_ptr x) rest]> m in
    let a := p + HSIZE * rest in
    let y := default (Hd 0 0) (m !! a) in
    Some (a + HSIZE, Heap (<[a := Hd (h_ptr y) nunits]> m) prevp (hp_brk h)).

Fixpoint malloc_loop (fuel : nat) (nunits prevp p : Z) (h : heap) : option (Z * heap) :=
  match fuel with
  | O => None
  | S f =>
      x ← hp_mem h !! p;
      if nunits <=? h_size x then carve nunits prevp p h
      else if p =? hp_freep h then
        r ← morecore fuel nunits h;
        if r.1 =? 0 then Some (0, r.2) else
        x ← hp_mem r.2 !! r.1;
        malloc_loop f nunits r.1 (h_ptr x) r.2
      else malloc_loop f nunits p (h_ptr x) h
  end.

Definition malloc (fuel : nat) (nbytes : Z) (h : heap) : option (Z * heap) :=
  let nunits := u32 (u64 (nbytes + HSIZE - 1) / HSIZE + 1) in
  let h := if hp_freep h =? 0 then Heap (<[base := Hd base 0]> (hp_mem h)) base (hp_brk h) else h in
  x ← hp_mem h !! hp_freep h;
  malloc_loop fuel nunits (hp_freep h) (h_ptr x) h.

End umalloc.

(** ** Blocks *)

Definition units (b : block) : list Z := (fun k => b.1 + HSIZE * Z.of_nat k) <$> seq 0 (Z.to_nat b.2).
Definition cover (l : list block) : list Z := l ≫= units.

Implicit Types (m : gmap Z header) (l : list block) (b : block) (a e : Z).

Lemma elem_of_units u b : u ∈ units b <-> exists k, 0 <= k < b.2 /\ u = b.1 + HSIZE * k.
Proof.
  unfold units. rewrite list_elem_of_fmap. split.
  - intros (k & -> & Hk%elem_of_seq). exists (Z.of_nat k). split; [lia|done].
  - intros (k & Hk & ->). exists (Z.to_nat k). rewrite elem_of_seq. split; [by rewrite Z2Nat.id by lia|lia].
Qed.

Lemma units_head b : 0 < b.2 -> b.1 ∈ units b.
Proof. intros Hs. apply elem_of_units. exists 0. lia. Qed.

(** Cutting a block in two. *)
Lemma units_split a s t : 0 <= s -> 0 <= t -> units (a, s + t) = units (a, s) ++ units (a + HSIZE * s, t).
Proof.
  intros Hs Ht. unfold units. cbn [fst snd]. rewrite Z2Nat.inj_add, seq_app, fmap_app by lia. f_equal.
  simpl. rewrite <-(Nat.add_0_r (Z.to_nat s)) at 1. rewrite <-fmap_add_seq, <-list_fmap_compose.
  apply list_fmap_ext. intros i k Hk. unfold compose. rewrite Nat2Z.inj_add, Z2Nat.id by lia. ring.
Qed.

Lemma cover_cons b l : cover (b :: l) = units b ++ cover l.
Proof. done. Qed.

Lemma cover_app l1 l2 : cover (l1 ++ l2) = cover l1 ++ cover l2.
Proof. unfold cover. apply bind_app. Qed.

#[global] Instance cover_Permutation : Proper ((≡ₚ) ==> (≡ₚ)) cover.
Proof. intros l l' E. unfold cover. by rewrite E. Qed.

Lemma elem_of_cover u l : u ∈ cover l <-> exists b, b ∈ l /\ u ∈ units b.
Proof. unfold cover. rewrite list_elem_of_bind. split; intros (b & ? & ?); eauto. Qed.

Definition aligned (b : block) : Prop := b.1 mod HSIZE = 0 /\ 0 < b.2.

(** Of two disjoint blocks the one with the lower address ends before the other. *)
Lemma units_order b1 b2 : aligned b1 -> aligned b2 -> (forall u, u ∈ units b1 -> u ∉ units b2) -> b1.1 < b2.1 ->
  b1.1 + HSIZE * b1.2 <= b2.1.
Proof.
  intros [A1 S1] [A2 S2] Hd Hlt. destruct (decide (b1.1 + HSIZE * b1.2 <= b2.1)) as [|Hn]; [done|]. exfalso.
  apply (Hd b2.1); [|by apply units_head]. apply elem_of_units. exists ((b2.1 - b1.1) / HSIZE).
  unfold HSIZE in *. zlia.
Qed.

Section heap.
Context (base : Z).

(** ** The list *)

(** The address of the first block of [l], or [e]. *)
Definition addr_or e l : Z := match l with [] => e | b :: _ => b.1 end.

(** The headers of [l] hold its sizes and lead from one block to the next and then to [e]. *)
Fixpoint links m l e : Prop :=
  match l with
  | [] => True
  | b :: l => m !! b.1 = Some (Hd (addr_or e l) b.2) /\ links m l e
  end.

Lemma addr_or_app e l1 l2 : addr_or e (l1 ++ l2) = addr_or (addr_or e l2) l1.
Proof. by destruct l1. Qed.

Lemma links_app m l1 l2 e : links m (l1 ++ l2) e <-> links m l1 (addr_or e l2) /\ links m l2 e.
Proof.
  induction l1 as [|b l1 IH]; simpl; [tauto|]. rewrite IH, addr_or_app. tauto.
Qed.

Lemma links_ext m m' l e : (forall b, b ∈ l -> m' !! b.1 = m !! b.1) -> links m l e -> links m' l e.
Proof.
  induction l as [|b l IH]; simpl; [done|]. intros Hm [Hb Hl]. split; [rewrite Hm; [done|set_solver]|].
  apply IH; [|done]. intros c Hc. apply Hm. set_solver.
Qed.

Lemma links_lookup m l e b : links m l e -> b ∈ l -> exists n, m !! b.1 = Some (Hd n b.2).
Proof.
  induction l as [|c l IH]; simpl; [by rewrite elem_of_nil|]. intros [Hc Hl] [->|Hb]%elem_of_cons; [eauto|by apply IH].
Qed.

(** The blocks are in order, with room between any two. *)
Fixpoint apart l : Prop :=
  match l with
  | [] => True
  | b :: l' => (forall c, c ∈ l' -> b.1 + HSIZE * b.2 < c.1) /\ apart l'
  end.

Lemma apart_app l1 l2 : apart (l1 ++ l2) <->
  apart l1 /\ apart l2 /\ forall b c, b ∈ l1 -> c ∈ l2 -> b.1 + HSIZE * b.2 < c.1.
Proof.
  induction l1 as [|b l1 IH]; simpl.
  - split; [intros; split_and!; [done|done|]; intros ? ? ?%elem_of_nil; done|tauto].
  - rewrite IH. split.
    + intros (Hb & H1 & H2 & H12). split_and!; [intros c Hc; apply Hb; set_solver|done|done|].
      intros x c [->|Hx]%elem_of_cons Hc; [apply Hb; set_solver|by apply H12].
    + intros ((Hb & H1) & H2 & H12). split_and!; [|done|done|].
      * intros c [Hc|Hc]%elem_of_app; [by apply Hb|]. apply H12; [set_solver|done].
      * intros x c Hx Hc. apply H12; [set_solver|done].
Qed.

(** The circular list of the free blocks [L], with the header base in front. *)
Record ring m (N : list block) : Prop := {
  r_links : links m N base;
  r_apart : apart N;
  r_head : exists L, N = (base, 0) :: L;
}.

(** The same list, from another block on. *)
Lemma links_rotate m N1 N2 : ring m (N1 ++ N2) -> links m (N2 ++ N1) (addr_or base N2).
Proof.
  intros [Hl _ (L & E)]. apply links_app in Hl as [H1 H2]. apply links_app. split; [|done].
  destruct N1 as [|x N1]; simpl in *; [by rewrite E in *|]. by injection E as -> _.
Qed.

(** ** The search of free *)

Definition stops (n p bp : Z) : bool := (p <? bp) && (bp <? n) || (n <=? p) && ((p <? bp) || (bp <? n)).
Definition stop m bp p : bool := match m !! p with Some x => stops (h_ptr x) p bp | None => false end.

Lemma free_loop_run m bp R1 : forall b R2 e fuel, links m (R1 ++ b :: R2) e ->
  (forall c, c ∈ R1 -> stop m bp c.1 = false) -> stop m bp b.1 = true -> (length R1 <= fuel)%nat ->
  free_loop fuel m bp (addr_or e (R1 ++ b :: R2)) = Some b.1.
Proof.
  induction R1 as [|c R1 IH]; intros b R2 e fuel Hl Hn Hb Hf.
  - destruct Hl as [Hm _]. unfold stop, stops in Hb. rewrite Hm in Hb. simpl in *.
    destruct fuel; simpl; rewrite Hm; simpl; destruct (_ && (bp <? _)); simpl in *; try done; by rewrite Hb.
  - pose proof (Hn c ltac:(set_solver)) as Hc. destruct Hl as [Hm Hl]. unfold stop, stops in Hc. rewrite Hm in Hc.
    destruct fuel as [|f]; [simpl in Hf; lia|]. simpl. rewrite Hm. simpl in *.
    apply orb_false_iff in Hc as [Hc1 Hc2]. rewrite Hc1, Hc2. apply IH; [done|set_solver|done|lia].
Qed.

(** Where [bp] belongs. *)
Lemma apart_split (L : list block) bp : forall b : block, apart (b :: L) -> b.1 < bp -> (forall c, c ∈ L -> c.1 <> bp /\ 0 <= c.2) ->
  exists (N1 : list block) (p : block) (N2 : list block), b :: L = N1 ++ p :: N2 /\ p.1 < bp /\ forall c, c ∈ N2 -> bp < c.1.
Proof.
  induction L as [|c L IH]; intros b Ha Hb Hne.
  - exists [], b, []. split_and!; [done|done|set_solver].
  - destruct Ha as [_ Ha]. destruct (Hne c ltac:(set_solver)) as [Hc Hc2]. destruct (decide (c.1 < bp)) as [Hlt|].
    + destruct (IH c Ha Hlt) as (N1 & p & N2 & E & Hp & H2); [set_solver|].
      exists (b :: N1), p, N2. split_and!; [by rewrite E|done|done].
    + exists [], b, (c :: L). split_and!; [done|done|]. intros x [->|Hx]%elem_of_cons; [lia|].
      destruct Ha as [Ha _]. specialize (Ha x Hx). unfold HSIZE in Ha. lia.
Qed.

(** The search stops at [p] and nowhere else. *)
Lemma stop_only m N1 (p : block) N2 bp : ring m (N1 ++ p :: N2) -> (forall c, c ∈ N1 ++ p :: N2 -> 0 <= c.2) -> base < bp ->
  p.1 < bp -> (forall c, c ∈ N2 -> bp < c.1) ->
  stop m bp p.1 = true /\ forall c, c ∈ N1 ++ N2 -> stop m bp c.1 = false.
Proof.
  intros [Hl Ha (L & EL)] Hz Hb Hp H2. apply links_app in Hl as [Hl1 [Hm Hl2]]. apply apart_app in Ha as (Ha1 & [Hap Ha2] & Ha12).
  split.
  - unfold stop. rewrite Hm. simpl. unfold stops. destruct N2 as [|n N2]; simpl.
    + assert (base <= p.1).
      { destruct N1 as [|x N1]; simpl in EL; injection EL as -> _; [done|]. specialize (Ha12 (base, 0) p ltac:(set_solver) ltac:(set_solver)).
        unfold HSIZE in *. simpl in *. lia. }
      rewrite (proj2 (Z.leb_le _ _)), (proj2 (Z.ltb_lt p.1 bp)) by lia. simpl. by destruct (bp <? base).
    + rewrite (proj2 (Z.ltb_lt p.1 bp)), (proj2 (Z.ltb_lt bp n.1)); [done|apply H2; set_solver|done].
  - intros c [Hc|Hc]%elem_of_app.
    + apply list_elem_of_split in Hc as (A & B & ->). apply links_app in Hl1 as [_ [Hc _]].
      unfold stop. rewrite Hc. unfold stops. cbn [h_ptr].
      set (n := addr_or p.1 B). assert (Hn : c.1 < n <= p.1).
      { assert (c.1 < p.1).
        { pose proof (Ha12 c p ltac:(set_solver) ltac:(set_solver)). pose proof (Hz c ltac:(set_solver)). unfold HSIZE in *. lia. }
        unfold n. destruct B as [|x B]; simpl; [lia|].
        pose proof (Ha12 x p ltac:(set_solver) ltac:(set_solver)). pose proof (Hz x ltac:(set_solver)).
        apply apart_app in Ha1 as (_ & [Hca _] & _). pose proof (Hca x ltac:(set_solver)).
        pose proof (Hz c ltac:(set_solver)). unfold HSIZE in *. lia. }
      change (addr_or (addr_or base (p :: N2)) B) with n.
      rewrite (proj2 (Z.ltb_ge bp n)), (proj2 (Z.leb_gt n c.1)) by lia. by rewrite andb_false_r.
    + pose proof (H2 c Hc). apply list_elem_of_split in Hc as (A & B & ->). apply links_app in Hl2 as [_ [Hc _]].
      unfold stop. rewrite Hc. unfold stops. cbn [h_ptr].
      rewrite (proj2 (Z.ltb_ge c.1 bp)) by lia. simpl. destruct B as [|x B]; simpl.
      * rewrite (proj2 (Z.ltb_ge bp base)) by lia. apply andb_false_r.
      * rewrite (proj2 (Z.leb_gt x.1 c.1)); [done|]. apply apart_app in Ha2 as (_ & [Hca _] & _).
        pose proof (Hca x ltac:(set_solver)). pose proof (Hz c ltac:(set_solver)). unfold HSIZE in *. lia.
Qed.

(** The search finds it from any block of the list. *)
Lemma free_loop_finds m N1 (p : block) N2 bp f fuel : ring m (N1 ++ p :: N2) -> (forall c, c ∈ N1 ++ p :: N2 -> 0 <= c.2) -> base < bp ->
  p.1 < bp -> (forall c, c ∈ N2 -> bp < c.1) -> f ∈ (N1 ++ p :: N2).*1 -> (length (N1 ++ p :: N2) <= fuel)%nat ->
  free_loop fuel m bp f = Some p.1.
Proof.
  intros R Hz Hb Hp H2 Hf Hfu. destruct (stop_only m N1 p N2 bp R Hz Hb Hp H2) as [Hs Hn].
  apply list_elem_of_fmap in Hf as (x & -> & Hx).
  assert (exists A B, N1 ++ p :: N2 = A ++ B /\ addr_or base B = x.1 /\ B <> []) as (A & B & E & Ex & HB).
  { apply list_elem_of_split in Hx as (A & B & ->). by exists A, (x :: B). }
  rewrite E in R. pose proof (links_rotate m A B R) as Hr.
  assert (Hin : p ∈ B ++ A) by (assert (p ∈ A ++ B) by (rewrite <-E; set_solver); set_solver).
  apply list_elem_of_split in Hin as (R1 & R2 & ER). rewrite ER in Hr.
  assert (Haddr : addr_or (addr_or base B) (R1 ++ p :: R2) = x.1) by (rewrite <-ER, <-Ex; by destruct B).
  rewrite <-Haddr. eapply free_loop_run; [exact Hr| |done|].
  - intros c Hc. apply Hn.
    assert (Hperm : N1 ++ N2 ≡ₚ R1 ++ R2).
    { apply (Permutation_cons_inv (a := p)). rewrite !Permutation_middle, E, <-ER. apply Permutation_app_comm. }
    rewrite Hperm. set_solver.
  - apply (f_equal length) in ER. rewrite !length_app in *. simpl in *. apply (f_equal length) in E. rewrite !length_app in *. simpl in *. lia.
Qed.

(** ** Putting a block back *)

Definition TOP : Z := 2 ^ 32.

(** [b] is apart from the blocks of [N]; they all lie below [TOP]. *)
Definition placed (b : block) (N : list block) : Prop :=
  0 <= b.1 /\ 0 < b.2 /\ b.1 + HSIZE * b.2 <= TOP /\
  forall c, c ∈ N -> 0 <= c.1 /\ 0 <= c.2 /\ c.1 + HSIZE * c.2 <= TOP /\
    (c.1 < b.1 /\ c.1 + HSIZE * c.2 <= b.1 \/ b.1 + HSIZE * b.2 <= c.1).

(** Merging with the block behind. *)
Lemma join_right m bp s N2 : links m N2 base -> apart N2 -> (forall c, c ∈ N2 -> bp < c.1) -> base < bp ->
  placed (bp, s) N2 ->
  exists s1 rest,
    (if bp + HSIZE * s =? addr_or base N2 then
       n ← m !! addr_or base N2;
       Some (<[bp := Hd (h_ptr n) (u32 (s + h_size n))]> m)
     else Some (<[bp := Hd (addr_or base N2) s]> m)) = Some (<[bp := Hd (addr_or base rest) s1]> m) /\
    links m rest base /\ apart rest /\ (forall c, c ∈ rest -> bp + HSIZE * s1 < c.1) /\
    cover ((bp, s1) :: rest) = units (bp, s) ++ cover N2 /\ s <= s1 /\ bp + HSIZE * s1 <= TOP /\ (forall c, c ∈ rest -> c ∈ N2) /\
    (length rest <= length N2)%nat.
Proof.
  intros Hl Ha Hgt Hb (Hp0 & Hp1 & Hp2 & Hp). simpl in *.
  destruct (Z.eqb_spec (bp + HSIZE * s) (addr_or base N2)) as [E|Hne].
  - destruct N2 as [|n N2]; simpl in *; [unfold HSIZE in *; lia|]. destruct Hl as [Hm Hl]. destruct Ha as [Hn Ha].
    destruct (Hp n ltac:(set_solver)) as (? & ? & Hnt & _).
    exists (s + n.2), N2. rewrite Hm. simpl. rewrite u32_id by (unfold TOP, HSIZE in *; lia).
    split_and!; [done|done|done| | |lia|unfold HSIZE in *; lia|set_solver|simpl; lia].
    + intros c Hc. specialize (Hn c Hc). unfold HSIZE in *. lia.
    + rewrite units_split, <-app_assoc, E by lia. by destruct n.
  - exists s, N2. split_and!; [done|done|done| |done|lia|done|done|done]. intros c Hc.
    destruct N2 as [|n N2]; [by apply elem_of_nil in Hc|]. simpl in *. destruct Ha as [Hn Ha].
    assert (bp + HSIZE * s < n.1).
    { destruct (Hp n ltac:(set_solver)) as (_ & _ & _ & [[? _]|?]); [|lia]. specialize (Hgt n ltac:(set_solver)). lia. }
    apply elem_of_cons in Hc as [->|Hc]; [done|]. specialize (Hn c Hc). destruct (Hp n ltac:(set_solver)) as (_ & ? & _).
    unfold HSIZE in *. lia.
Qed.

(** The header of base has size 0, so nothing is merged into it. *)
Lemma join_left m N1 p bp s1 rest :
  links m N1 p.1 -> apart N1 -> (forall b, b ∈ N1 -> b.1 + HSIZE * b.2 < p.1 /\ 0 <= b.2) ->
  links m rest base -> apart rest -> (forall c, c ∈ rest -> bp + HSIZE * s1 < c.1) ->
  0 <= p.1 -> 0 <= p.2 -> p.1 < bp -> p.1 + HSIZE * p.2 <= bp -> 0 < s1 -> bp + HSIZE * s1 <= TOP ->
  (exists L, N1 ++ [p] = (base, 0) :: L) ->
  let m1 := <[bp := Hd (addr_or base rest) s1]> m in
  let m2 := if p.1 + HSIZE * p.2 =? bp then <[p.1 := Hd (addr_or base rest) (u32 (p.2 + s1))]> m1
            else <[p.1 := Hd bp p.2]> m1 in
  exists N', ring m2 N' /\ p.1 ∈ N'.*1 /\ cover N' = cover N1 ++ units p ++ cover ((bp, s1) :: rest) /\
    (exists c, c ∈ N' /\ s1 <= c.2) /\
    (forall c, c ∈ N' -> c.1 ∈ bp :: (N1 ++ p :: rest).*1 /\ (c.1 = base \/ 0 < c.2 \/ c ∈ N1 ++ p :: rest)) /\
    (length N' <= S (length (N1 ++ p :: rest)))%nat.
Proof.
  intros Hl1 Ha1 H1 Hl2 Ha2 H2 Hp0 Hpz Hlt Hle Hs1 Ht (L & EL) m1.
  assert (Hne1 : forall m', (forall a, a <> p.1 -> a <> bp -> m' !! a = m !! a) -> links m' N1 p.1 /\ links m' rest base).
  { intros m' Hm'. split; (eapply links_ext; [|eassumption]); intros c Hc; apply Hm'.
    - specialize (H1 c Hc). unfold HSIZE in *. lia.
    - specialize (H1 c Hc). unfold HSIZE in *. lia.
    - specialize (H2 c Hc). unfold HSIZE in *. lia.
    - specialize (H2 c Hc). unfold HSIZE in *. lia. }
  assert (Hm1 : forall v a, a <> p.1 -> a <> bp -> (<[p.1 := v]> m1) !! a = m !! a).
  { intros v a Ha Hb. unfold m1. by rewrite !lookup_insert_ne. }
  destruct (Z.eqb_spec (p.1 + HSIZE * p.2) bp) as [E|Hne].
  - assert (Hp2 : 0 < p.2) by (unfold HSIZE in *; lia).
    assert (exists x N1', N1 = x :: N1') as (x & N1' & ->).
    { destruct N1; [|eauto]. simpl in EL. injection EL as -> _. simpl in Hp2. lia. }
    exists ((x :: N1') ++ (p.1, p.2 + s1) :: rest).
    rewrite u32_id by (unfold TOP, HSIZE in *; lia).
    destruct (Hne1 _ (Hm1 (Hd (addr_or base rest) (p.2 + s1)))) as [Hl1' Hl2'].
    split_and!.
    + constructor.
      * apply links_app. split; [done|]. split; [by rewrite lookup_insert_eq|done].
      * apply apart_app. split_and!; [done| |].
        -- split; [|done]. intros c Hc. specialize (H2 c Hc). simpl. unfold HSIZE in *. lia.
        -- intros b c Hb [->|Hc]%elem_of_cons; [apply (H1 b Hb)|]. specialize (H1 b Hb). specialize (H2 c Hc). unfold HSIZE in *. simpl. lia.
      * simpl in EL. injection EL as -> EL. by eexists.
    + rewrite fmap_app. set_solver.
    + rewrite cover_app, !cover_cons, units_split, E, <-!app_assoc by lia. by destruct p.
    + exists (p.1, p.2 + s1). split; [set_solver|simpl; lia].
    + intros c [Hc|[->|Hc]%elem_of_cons]%elem_of_app; (split; [|]); [set_solver|set_solver|simpl; rewrite fmap_app; set_solver|simpl; lia|set_solver|set_solver].
    + rewrite !length_app. simpl. lia.
  - exists (N1 ++ p :: (bp, s1) :: rest).
    destruct (Hne1 _ (Hm1 (Hd bp p.2))) as [Hl1' Hl2'].
    split_and!.
    + constructor.
      * apply links_app. split; [done|]. split; [by rewrite lookup_insert_eq|]. split; [|done].
        rewrite lookup_insert_ne by (simpl; lia). simpl. unfold m1. by rewrite lookup_insert_eq.
      * apply apart_app. split_and!; [done| |].
        -- split; [|split; [done|done]]. intros c [->|Hc]%elem_of_cons; [simpl; lia|]. specialize (H2 c Hc). unfold HSIZE in *. lia.
        -- intros b c Hb [->|[->|Hc]%elem_of_cons]%elem_of_cons; [apply (H1 b Hb)| |].
           ++ specialize (H1 b Hb). simpl. unfold HSIZE in *. lia.
           ++ specialize (H1 b Hb). specialize (H2 c Hc). unfold HSIZE in *. lia.
      * destruct N1 as [|x N1]; simpl in EL |- *; injection EL as -> EL; by eexists.
    + rewrite fmap_app. set_solver.
    + rewrite cover_app, !cover_cons. done.
    + exists (bp, s1). split; [set_solver|simpl; lia].
    + intros c [Hc|[->|[->|Hc]%elem_of_cons]%elem_of_cons]%elem_of_app; (split; [|]); rewrite ?fmap_app; set_solver.
    + rewrite !length_app. simpl. lia.
Qed.

(** ** The invariant

    [L] are the free blocks, [A] those in use. *)
Record heap_ok (h : heap) (L A : list block) : Prop := {
  ho_ring : ring (hp_mem h) ((base, 0) :: L);
  ho_aligned : Forall aligned (L ++ A);
  ho_nodup : NoDup (cover (L ++ A));
  ho_live : forall b, b ∈ A -> exists n, hp_mem h !! b.1 = Some (Hd n b.2);
  ho_bound : forall b, b ∈ L ++ A -> base < b.1 /\ b.1 + HSIZE * b.2 <= hp_brk h;
  ho_freep : hp_freep h ∈ ((base, 0) :: L).*1;
  ho_base : 0 < base < hp_brk h;
  ho_brk : hp_brk h mod HSIZE = 0 /\ hp_brk h <= TOP;
}.

Lemma cover_disjoint b1 b2 l1 l2 l3 u :
  NoDup (cover (l1 ++ b1 :: l2 ++ b2 :: l3)) -> u ∈ units b1 -> u ∉ units b2.
Proof.
  rewrite cover_app, cover_cons, cover_app, cover_cons. intros Hnd H1 H2.
  apply NoDup_app in Hnd as (_ & _ & Hnd). apply NoDup_app in Hnd as (_ & Hd & _). apply (Hd u H1). set_solver.
Qed.

Lemma ok_placed h L b A : heap_ok h L (b :: A) -> placed b ((base, 0) :: L).
Proof.
  intros [R Hal Hnd Hlv Hbd Hf Hb [Hk Ht]]. destruct (Hbd b ltac:(set_solver)) as [Hb1 Hb2].
  rewrite Forall_app, Forall_cons in Hal. destruct Hal as (HalL & Halb & _). pose proof Halb as [_ Hpos].
  split_and!; [lia|done|lia|]. intros c [->|Hc]%elem_of_cons.
  { simpl. unfold TOP, HSIZE in *. lia. }
  destruct (Hbd c ltac:(set_solver)) as [Hc1 Hc2]. pose proof (proj1 (Forall_forall _ _) HalL c Hc) as Halc.
  pose proof Halc as [_ Hcpos]. split_and!; [lia|lia|lia|].
  apply list_elem_of_split in Hc as (L1 & L2 & ->). rewrite <-app_assoc in Hnd. simpl in Hnd.
  assert (Hd : forall u, u ∈ units c -> u ∉ units b) by (intros u; eapply cover_disjoint; exact Hnd).
  assert (Hne : c.1 <> b.1).
  { intros E. apply (Hd c.1); [by apply units_head|]. rewrite E. by apply units_head. }
  destruct (decide (c.1 < b.1)) as [Hlt|Hge].
  - left. split; [done|]. by apply units_order.
  - right. apply units_order; [done|done| |lia]. intros u Hu Hu'. by apply (Hd u).
Qed.

(** What free does to the list, with the block in its place. *)
Lemma free_ring fuel h N1 (p : block) N2 bp s g :
  ring (hp_mem h) (N1 ++ p :: N2) -> hp_freep h ∈ (N1 ++ p :: N2).*1 -> (length (N1 ++ p :: N2) <= fuel)%nat ->
  hp_mem h !! bp = Some (Hd g s) -> placed (bp, s) (N1 ++ p :: N2) -> base < bp -> p.1 < bp -> (forall c, c ∈ N2 -> bp < c.1) ->
  exists m N', free fuel (bp + HSIZE) h = Some (Heap m p.1 (hp_brk h)) /\ ring m N' /\ p.1 ∈ N'.*1 /\
    cover N' ≡ₚ units (bp, s) ++ cover (N1 ++ p :: N2) /\ (exists c, c ∈ N' /\ s <= c.2) /\
    (forall c, c ∈ N' -> c.1 ∈ bp :: (N1 ++ p :: N2).*1 /\ (c.1 = base \/ 0 < c.2 \/ c ∈ N1 ++ p :: N2)) /\
    (forall a, a <> bp -> a <> p.1 -> m !! a = hp_mem h !! a) /\ (length N' <= S (length (N1 ++ p :: N2)))%nat.
Proof.
  intros R Hf Hfu Hm Hpl Hb Hp H2. destruct Hpl as (Hbp0 & Hs0 & Hbt & Hpl). simpl in Hbp0, Hs0, Hbt, Hpl.
  assert (Hz : forall c, c ∈ N1 ++ p :: N2 -> 0 <= c.2) by (intros c Hc; by destruct (Hpl c Hc) as (_ & ? & _)).
  pose proof (free_loop_finds _ _ _ _ _ _ _ R Hz Hb Hp H2 Hf Hfu) as Ep.
  destruct R as [Hl Ha (L & EL)]. apply links_app in Hl as [Hl1 [Hmp Hl2]]. apply apart_app in Ha as (Ha1 & [Hap Ha2] & Ha12).
  destruct (join_right (hp_mem h) bp s N2) as (s1 & rest & E1 & Hlr & Har & Hgr & Hcov & Hs1 & Ht1 & Hsub & Hlen); [done|done|done|done| |].
  { split_and!; [done..|]. intros c Hc. apply Hpl. set_solver. }
  destruct (Hpl p ltac:(set_solver)) as (Hp0 & Hpz & _ & Hpp).
  assert (Hpe : p.1 + HSIZE * p.2 <= bp) by (unfold HSIZE in *; lia).
  destruct (join_left (hp_mem h) N1 p bp s1 rest) as (N' & R' & Hin & Hcov' & Hbig & Hall & Hlen'); try done; try lia.
  { intros b Hbi. split; [apply Ha12; set_solver|]. apply Hz. set_solver. }
  { destruct N1 as [|x N1]; simpl in EL |- *; injection EL as -> _; by eexists. }
  set (m2 := if _ =? bp then _ else _) in R'. exists m2, N'. split_and!; [|done|done| | | | |].
  - unfold free. replace (bp + HSIZE - HSIZE) with bp by lia. rewrite Ep. simpl. rewrite Hm. simpl. rewrite Hmp. simpl.
    rewrite E1. simpl. rewrite lookup_insert_eq. simpl. rewrite lookup_insert_ne by lia. rewrite Hmp. done.
  - rewrite Hcov', Hcov, cover_app, cover_cons. solve_Permutation.
  - destruct Hbig as (c & Hc & Hcs). exists c. split; [done|lia].
  - intros c Hc. destruct (Hall c Hc) as [H1 H3].
    assert (Hin' : forall x, x ∈ N1 ++ p :: rest -> x ∈ N1 ++ p :: N2).
    { intros x. rewrite !elem_of_app, !elem_of_cons. intros [?|[?|?%Hsub]]; auto. }
    split; [|destruct H3 as [?|[?|?%Hin']]; auto]. apply elem_of_cons in H1 as [->|H1]; apply elem_of_cons; [by left|right].
    apply list_elem_of_fmap in H1 as (x & -> & Hx). by apply list_elem_of_fmap_2, Hin'.
  - intros a Ha Hap'. unfold m2. destruct (p.1 + HSIZE * p.2 =? bp); by rewrite !lookup_insert_ne by done.
  - rewrite !length_app in *. simpl in *. lia.
Qed.

(** Every unit of a block lies below what bounds the blocks. *)
Lemma cover_bound (l : list block) u top : (forall b, b ∈ l -> b.1 + HSIZE * b.2 <= top) -> u ∈ cover l -> u + HSIZE <= top.
Proof.
  intros Hl (b & Hb & (k & Hk & ->)%elem_of_units)%elem_of_cover. specialize (Hl b Hb). unfold HSIZE in *. lia.
Qed.

Lemma last_unit b : 0 < b.2 -> b.1 + HSIZE * (b.2 - 1) ∈ units b.
Proof. intros Hs. apply elem_of_units. exists (b.2 - 1). split; [lia|done]. Qed.

(** The invariant from what free_ring says. *)
Lemma ok_intro h h' L L' A bp s :
  heap_ok h L ((bp, s) :: A) -> hp_brk h' = hp_brk h -> ring (hp_mem h') ((base, 0) :: L') ->
  hp_freep h' ∈ ((base, 0) :: L').*1 -> cover L' ≡ₚ units (bp, s) ++ cover L ->
  (forall c, c ∈ L' -> c.1 ∈ bp :: ((base, 0) :: L).*1 /\ (c.1 = base \/ 0 < c.2 \/ c ∈ (base, 0) :: L)) ->
  (forall u, u ∈ cover A -> hp_mem h' !! u = hp_mem h !! u) -> heap_ok h' L' A.
Proof.
  intros [R Hal Hnd Hlv Hbd Hf Hb Hk] Ebrk R' Hf' Hcov Hall Hsame.
  rewrite Forall_app, Forall_cons in Hal. destruct Hal as (HalL & Halb & HalA).
  assert (Hgt : forall c, c ∈ L' -> base < c.1).
  { intros c Hc. destruct R' as [_ [Ha _] _]. specialize (Ha c Hc). unfold HSIZE in *. simpl in Ha. lia. }
  assert (HalL' : Forall aligned L').
  { apply Forall_forall. intros c Hc. specialize (Hgt c Hc). destruct (Hall c Hc) as [Ha Hs].
    assert (HL : forall d, d ∈ L -> aligned d) by (by apply Forall_forall). split.
    - apply elem_of_cons in Ha as [->|Ha]; [apply Halb|]. apply list_elem_of_fmap in Ha as (d & E & Hd).
      apply elem_of_cons in Hd as [->|Hd]; [simpl in E; lia|]. rewrite E. apply (HL d Hd).
    - destruct Hs as [Hs|[Hs|Hs]]; [lia|done|]. apply elem_of_cons in Hs as [->|Hs]; [simpl in Hgt; lia|]. apply (HL c Hs). }
  constructor; rewrite ?Ebrk; auto.
  - by apply Forall_app.
  - rewrite cover_app, Hcov. rewrite cover_app, cover_cons in Hnd.
    rewrite (Permutation_app_comm (units _) (cover L)), <-app_assoc. done.
  - intros b HbA. destruct (Hlv b ltac:(set_solver)) as [n Hn]. exists n. rewrite Hsame; [done|].
    apply elem_of_cover. exists b. split; [done|]. apply units_head. by apply (proj1 (Forall_forall _ _) HalA).
  - intros b [HbL|HbA]%elem_of_app; [|apply Hbd; set_solver]. split; [by apply Hgt|].
    pose proof (proj1 (Forall_forall _ _) HalL' b HbL) as [_ Hpos].
    assert (Hu : b.1 + HSIZE * (b.2 - 1) ∈ cover (L ++ (bp, s) :: A)).
    { rewrite cover_app, cover_cons, app_assoc, elem_of_app. left. rewrite Permutation_app_comm, <-Hcov.
      apply elem_of_cover. exists b. split; [done|]. by apply last_unit. }
    apply (cover_bound _ _ (hp_brk h)) in Hu; [unfold HSIZE in *; lia|]. intros c Hc. by apply Hbd.
Qed.

Lemma free_ok fuel h L A bp s : heap_ok h L ((bp, s) :: A) -> (length L < fuel)%nat ->
  exists h' L', free fuel (bp + HSIZE) h = Some h' /\ heap_ok h' L' A /\ cover L' ≡ₚ units (bp, s) ++ cover L /\
    hp_brk h' = hp_brk h /\ (forall u, u ∈ cover A -> hp_mem h' !! u = hp_mem h !! u) /\
    (exists c, c ∈ L' /\ s <= c.2) /\ (length L' <= S (length L))%nat.
Proof.
  intros Hok Hfu. pose proof (ok_placed _ _ _ _ Hok) as Hpl. pose proof Hok as [R Hal Hnd Hlv Hbd Hf Hb Hk].
  destruct (Hlv (bp, s) ltac:(set_solver)) as [g Hm]. destruct (Hbd (bp, s) ltac:(set_solver)) as [Hbb _].
  destruct (apart_split L bp (base, 0)) as (N1 & p & N2 & EN & Hp & H2); [apply R|done| |].
  { intros c Hc. destruct Hpl as (_ & Hs & _ & Hpl). destruct (Hpl c ltac:(set_solver)) as (_ & ? & _ & Hd). simpl in *.
    split; [|done]. unfold HSIZE in *. lia. }
  rewrite EN in R, Hf, Hpl.
  destruct (free_ring fuel h N1 p N2 bp s g) as (m & N' & E & R' & Hin & Hcov & Hbig & Hall & Hsame & Hlen); try done.
  { rewrite <-EN. simpl. lia. }
  rewrite <-EN in Hcov, Hall. destruct (r_head _ _ R') as (L' & ->).
  assert (HcovL : cover L' ≡ₚ units (bp, s) ++ cover L) by exact Hcov.
  assert (Hs : forall u, u ∈ cover A -> m !! u = hp_mem h !! u).
  { intros u Hu. rewrite cover_app, cover_cons in Hnd. apply NoDup_app in Hnd as (_ & Hd1 & Hnd).
    apply NoDup_app in Hnd as (_ & Hd2 & _). apply Hsame.
    - intros ->. apply (Hd2 bp); [|done]. apply (units_head (bp, s)). by destruct Hpl as (_ & ? & _).
    - intros ->. assert (Hpi : p ∈ (base, 0) :: L) by (rewrite EN; set_solver).
      apply elem_of_cons in Hpi as [->|Hpi].
      + apply elem_of_cover in Hu as (b & HbA & (k & Hk' & Eu)%elem_of_units). destruct (Hbd b ltac:(set_solver)) as [? _].
        simpl in Eu. unfold HSIZE in *. lia.
      + apply (Hd1 p.1); [|by apply elem_of_app; right]. apply elem_of_cover. exists p. split; [done|]. apply units_head.
        rewrite Forall_app in Hal. by apply (proj1 (Forall_forall _ _) (proj1 Hal)). }
  exists (Heap m p.1 (hp_brk h)), L'. split_and!; [done| |done|done|done| |].
  - eapply ok_intro; try done. intros c Hc. apply Hall. set_solver.
  - destruct Hbig as (c & Hc & Hcs). exists c. split; [|done]. apply elem_of_cons in Hc as [->|Hc]; [|done].
    destruct Hpl as (_ & ? & _). simpl in *. lia.
  - rewrite <-EN in Hlen. simpl in Hlen. lia.
Qed.

(** ** Taking a block *)

Lemma cover_in b l u : b ∈ l -> u ∈ units b -> u ∈ cover l.
Proof. intros Hb Hu. apply elem_of_cover. eauto. Qed.

(** Addresses of blocks in use are not headers of free ones. *)
Lemma live_ne h L A u : heap_ok h L A -> u ∈ cover A -> u ∉ cover L /\ u ∉ ((base, 0) :: L).*1.
Proof.
  intros [_ Hal Hnd _ Hbd _ _ _] Hu. rewrite cover_app in Hnd. apply NoDup_app in Hnd as (_ & Hd & _).
  assert (HuL : u ∉ cover L) by (intros HuL; by apply (Hd u)). split; [done|].
  intros (b & -> & Hb)%list_elem_of_fmap. apply elem_of_cons in Hb as [->|Hb].
  - apply elem_of_cover in Hu as (c & Hc & (k & Hk & E)%elem_of_units). destruct (Hbd c ltac:(set_solver)) as [? _].
    simpl in E. unfold HSIZE in *. lia.
  - apply HuL. eapply cover_in; [done|]. apply units_head. rewrite Forall_app in Hal.
    by apply (proj1 (Forall_forall _ _) (proj1 Hal)).
Qed.

(** The invariant when [a] of the free memory goes into use. *)
Lemma ok_take h h' L L' A a n :
  heap_ok h L A -> hp_brk h' = hp_brk h -> ring (hp_mem h') ((base, 0) :: L') -> hp_freep h' ∈ ((base, 0) :: L').*1 ->
  units (a, n) ++ cover L' ≡ₚ cover L -> aligned (a, n) -> Forall aligned L' -> (exists g, hp_mem h' !! a = Some (Hd g n)) ->
  (forall u, u ∈ cover A -> hp_mem h' !! u = hp_mem h !! u) -> heap_ok h' L' ((a, n) :: A).
Proof.
  intros [R Hal Hnd Hlv Hbd Hf Hb Hk] Ebrk R' Hf' Hcov Ha HL' Hg Hsame. apply Forall_app in Hal as [HL HA].
  assert (Hin : forall b, b ∈ (a, n) :: L' -> aligned b -> base < b.1 /\ b.1 + HSIZE * b.2 <= hp_brk h).
  { intros b Hbi [Hb1 Hb2].
    assert (Hu : forall u, u ∈ units b -> u ∈ cover L).
    { intros u Hu. rewrite <-Hcov. apply elem_of_cons in Hbi as [->|Hbi]; apply elem_of_app; [by left|right].
      by eapply cover_in. }
    pose proof (Hu _ (last_unit b Hb2)) as Hlast. apply (cover_bound _ _ (hp_brk h)) in Hlast;
      [|intros c Hc; apply Hbd; set_solver].
    pose proof (Hu _ (units_head b Hb2)) as Hfirst. apply elem_of_cover in Hfirst as (c & Hc & (k & Hk' & E)%elem_of_units).
    destruct (Hbd c ltac:(set_solver)) as [? _]. unfold HSIZE in *. lia. }
  constructor; rewrite ?Ebrk; auto.
  - rewrite Forall_app, Forall_cons. auto.
  - rewrite cover_app, cover_cons. rewrite cover_app, <-Hcov in Hnd.
    rewrite app_assoc, (Permutation_app_comm (cover L')). done.
  - intros b [->|Hbi]%elem_of_cons; [done|]. destruct (Hlv b Hbi) as [g Hg']. exists g. rewrite Hsame; [done|].
    eapply cover_in; [done|]. apply units_head. by apply (proj1 (Forall_forall _ _) HA).
  - intros b. rewrite elem_of_app, elem_of_cons. intros [HbL|[->|HbA]].
    + apply Hin; [set_solver|]. by apply (proj1 (Forall_forall _ _) HL').
    + apply Hin; [set_solver|done].
    + apply Hbd. set_solver.
Qed.

Lemma ok_sizes h L A : heap_ok h L A -> forall c, c ∈ (base, 0) :: L -> 0 <= c.2.
Proof.
  intros [_ Hal _ _ _ _ _ _] c [->|Hc]%elem_of_cons; [done|]. apply Forall_app in Hal as [Hal _].
  destruct (proj1 (Forall_forall _ _) Hal c Hc). lia.
Qed.

Section carve.
Context (h : heap) (L A N1 : list block) (q p : block) (N2 : list block) (nunits : Z).
Context (Hok : heap_ok h L A) (EN : (base, 0) :: L = N1 ++ q :: p :: N2) (Hn : 0 < nunits <= p.2).

#[local] Lemma carve_in : p ∈ L /\ aligned p.
Proof.
  assert (HpL : p ∈ L).
  { assert (Hpi : p ∈ (base, 0) :: L) by (rewrite EN; set_solver). apply elem_of_cons in Hpi as [->|]; [simpl in Hn; lia|done]. }
  split; [done|]. destruct Hok as [_ Hal _ _ _ _ _ _]. apply Forall_app in Hal as [Hal _].
  by apply (proj1 (Forall_forall _ _) Hal).
Qed.

#[local] Lemma carve_split : exists L1, L = L1 ++ p :: N2 /\ forall X, N1 ++ q :: X = (base, 0) :: L1 ++ X.
Proof.
  clear Hok Hn. destruct N1 as [|x N0]; simpl in EN; injection EN as -> ->; [by exists []|]. exists (N0 ++ [q]).
  split; [|intros X]; by rewrite <-app_assoc.
Qed.

#[local] Lemma carve_order : apart (N1 ++ q :: p :: N2) /\ q.1 < p.1.
Proof.
  pose proof (ok_sizes _ _ _ Hok q) as Hz. destruct Hok as [[_ Ha _] _ _ _ _ _ _ _]. rewrite EN in Ha, Hz.
  split; [done|]. apply apart_app in Ha as (_ & [Haq _] & _). pose proof (Haq p ltac:(set_solver)).
  specialize (Hz ltac:(set_solver)). unfold HSIZE in *. lia.
Qed.

(** Only the headers of [q] and [p], and the inside of [p], are written. *)
#[local] Lemma carve_links m' :
  (forall a, a <> q.1 -> ~ (p.1 <= a < p.1 + HSIZE * p.2) -> m' !! a = hp_mem h !! a) ->
  links m' N1 q.1 /\ links m' N2 base.
Proof.
  intros Hm'. pose proof (ok_sizes _ _ _ Hok) as Hz. destruct carve_order as [Ha _].
  destruct Hok as [[Hl _ _] _ _ _ _ _ _ _]. rewrite EN in Hl, Hz. apply links_app in Hl as [Hl1 [_ [_ Hl2]]].
  apply apart_app in Ha as (_ & [Haq [Hap _]] & Ha12).
  split; (eapply links_ext; [|eassumption]); intros c Hc; apply Hm'.
  - pose proof (Ha12 c q Hc ltac:(set_solver)). pose proof (Hz c ltac:(set_solver)). unfold HSIZE in *. lia.
  - pose proof (Ha12 c p Hc ltac:(set_solver)). pose proof (Hz c ltac:(set_solver)). unfold HSIZE in *. lia.
  - pose proof (Haq c ltac:(set_solver)). pose proof (Hz q ltac:(set_solver)). unfold HSIZE in *. lia.
  - pose proof (Hap c Hc). lia.
Qed.

#[local] Lemma carve_live u : u ∈ cover A -> u <> q.1 /\ u <> p.1 /\ u ∉ units p.
Proof.
  intros Hu. destruct (live_ne h L A u Hok Hu) as [Hu1 Hu2]. rewrite EN in Hu2. split_and!.
  - intros ->. apply Hu2. rewrite fmap_app. set_solver.
  - intros ->. apply Hu2. rewrite fmap_app. set_solver.
  - intros Hup. apply Hu1. eapply cover_in; [apply carve_in|done].
Qed.

#[local] Lemma carve_headers : hp_mem h !! q.1 = Some (Hd p.1 q.2) /\ hp_mem h !! p.1 = Some (Hd (addr_or base N2) p.2).
Proof.
  destruct Hok as [[Hl _ _] _ _ _ _ _ _ _]. rewrite EN in Hl. by apply links_app in Hl as [_ [Hq [Hp _]]].
Qed.

Definition taken (h' : heap) (L' : list block) (a : Z) : Prop :=
  heap_ok h' L' ((a, nunits) :: A) /\ units (a, nunits) ++ cover L' ≡ₚ cover L /\ hp_brk h' = hp_brk h /\
  (forall u, u ∈ cover A -> hp_mem h' !! u = hp_mem h !! u) /\ (length L' <= length L)%nat.

#[local] Lemma carve_whole (m' := <[q.1 := Hd (addr_or base N2) q.2]> (hp_mem h)) : p.2 = nunits ->
  exists L', taken (Heap m' q.1 (hp_brk h)) L' p.1.
Proof.
  intros E. destruct carve_in as [HpL [Hpa _]], carve_split as (L1 & EL & EX), carve_order as [Ha Hqp], carve_headers as [Hmq Hmp].
  destruct (carve_links m') as [Hl1 Hl2].
  { intros a Haq _. unfold m'. by rewrite lookup_insert_ne. }
  apply apart_app in Ha as (Ha1 & [Haq [Hap Ha2]] & Ha12).
  assert (Hcov : units (p.1, nunits) ++ cover (L1 ++ N2) ≡ₚ cover L).
  { rewrite EL, !cover_app, cover_cons. rewrite <-E. clear. destruct p. solve_Permutation. }
  assert (Hsame : forall u, u ∈ cover A -> m' !! u = hp_mem h !! u).
  { intros u Hu. destruct (carve_live u Hu) as (? & _). unfold m'. by rewrite lookup_insert_ne. }
  exists (L1 ++ N2). split_and!; [|done|done|done|rewrite EL, !length_app; simpl; lia].
  eapply ok_take; try done; cbn [hp_mem hp_freep hp_brk].
  - rewrite <-EX. constructor; [|apply apart_app; split_and!; [done| |]|rewrite EX; by eexists].
    + apply links_app. split; [done|]. split; [|done]. unfold m'. by rewrite lookup_insert_eq.
    + split; [|done]. intros c Hc. apply Haq. set_solver.
    + intros b c Hb1 Hc. apply Ha12; [done|]. set_solver.
  - rewrite <-EX, fmap_app. set_solver.
  - split; simpl; [done|lia].
  - destruct Hok as [_ Hal _ _ _ _ _ _]. rewrite EL in Hal. rewrite !Forall_app, Forall_cons in Hal. rewrite Forall_app. tauto.
  - exists (addr_or base N2). unfold m'. rewrite lookup_insert_ne by lia. by rewrite Hmp, E.
Qed.

#[local] Lemma carve_tail g (rest := p.2 - nunits) (a := p.1 + HSIZE * rest)
  (m' := <[a := Hd g nunits]> (<[p.1 := Hd (addr_or base N2) rest]> (hp_mem h))) : p.2 <> nunits ->
  exists L', taken (Heap m' q.1 (hp_brk h)) L' a.
Proof.
  intros Hne. destruct carve_in as [HpL [Hpa _]], carve_split as (L1 & EL & EX), carve_order as [Ha Hqp], carve_headers as [Hmq Hmp].
  assert (Hau : p.1 < a < p.1 + HSIZE * p.2) by (unfold a, rest, HSIZE; lia).
  destruct (carve_links m') as [Hl1 Hl2].
  { intros x Hxq Hx. unfold m'. rewrite !lookup_insert_ne; [done|lia|lia]. }
  apply apart_app in Ha as (Ha1 & [Haq [Hap Ha2]] & Ha12).
  assert (Hcov : units (a, nunits) ++ cover (L1 ++ (p.1, rest) :: N2) ≡ₚ cover L).
  { rewrite EL, !cover_app, !cover_cons.
    replace (units p) with (units (p.1, rest + nunits)) by (unfold rest; destruct p; simpl; do 2 f_equal; lia).
    rewrite units_split by (unfold rest; lia). fold a. clear. solve_Permutation. }
  assert (Hsame : forall u, u ∈ cover A -> m' !! u = hp_mem h !! u).
  { intros u Hu. destruct (carve_live u Hu) as (_ & ? & Hup). unfold m'. rewrite !lookup_insert_ne; [done|done|].
    intros <-. apply Hup. apply elem_of_units. exists rest. unfold rest. split; [lia|done]. }
  exists (L1 ++ (p.1, rest) :: N2). split_and!; [|done|done|done|rewrite EL, !length_app; simpl; lia].
  eapply ok_take; try done; cbn [hp_mem hp_freep hp_brk].
  - rewrite <-EX. constructor; [|apply apart_app; split_and!; [done| |]|rewrite EX; by eexists].
    + apply links_app. split; [done|]. split; [|split; [|done]]; simpl; unfold m'.
      * rewrite !lookup_insert_ne by lia. by rewrite Hmq.
      * rewrite lookup_insert_ne by lia. by rewrite lookup_insert_eq.
    + split; [|split; [|done]].
      * intros c [->|Hc]%elem_of_cons; [apply (Haq p); set_solver|]. apply Haq. set_solver.
      * intros c Hc. pose proof (Hap c Hc). simpl. unfold rest, HSIZE in *. lia.
    + intros b c Hb1 [->|[->|Hc]%elem_of_cons]%elem_of_cons; [apply Ha12; set_solver|apply (Ha12 b p); set_solver|].
      apply Ha12; set_solver.
  - rewrite <-EX, fmap_app. set_solver.
  - split; simpl; [|lia]. unfold a. unfold HSIZE in *. zlia.
  - destruct Hok as [_ Hal _ _ _ _ _ _]. rewrite EL in Hal. rewrite !Forall_app, Forall_cons in Hal.
    rewrite Forall_app, Forall_cons. split_and!; [tauto| |tauto]. split; simpl; [done|unfold rest; lia].
  - eexists. unfold m'. by rewrite lookup_insert_eq.
Qed.

Lemma carve_ok : exists a h' L', carve nunits q.1 p.1 h = Some (a + HSIZE, h') /\ taken h' L' a.
Proof.
  destruct carve_headers as [Hmq Hmp]. unfold carve. rewrite Hmp. simpl. rewrite Hmq. simpl.
  destruct (Z.eqb_spec p.2 nunits) as [E|Hne].
  - destruct (carve_whole E) as (L' & HL'). eauto 10.
  - destruct (carve_tail (h_ptr (default (Hd 0 0) (<[p.1 := Hd (addr_or base N2) (p.2 - nunits)]> (hp_mem h) !!
      (p.1 + HSIZE * (p.2 - nunits))))) Hne) as (L' & HL'). eauto 10.
Qed.

End carve.

(** ** The search of malloc *)

Context (room : Z -> Z -> bool).

Lemma apart_inj l b c : apart l -> (forall x, x ∈ l -> 0 <= x.2) -> b ∈ l -> c ∈ l -> b.1 = c.1 -> b = c.
Proof.
  induction l as [|x l IH]; intros Ha Hz Hb Hc E; [by apply elem_of_nil in Hb|]. destruct Ha as [Hx Ha].
  pose proof (Hz x ltac:(set_solver)). apply elem_of_cons in Hb as [->|Hb], Hc as [->|Hc]; [done|..].
  - specialize (Hx c Hc). unfold HSIZE in *. lia.
  - specialize (Hx b Hb). unfold HSIZE in *. lia.
  - apply IH; try done. intros y Hy. apply Hz. set_solver.
Qed.

(** The block before [p]. *)
Lemma pred_unique h L A q (p : block) : heap_ok h L A -> q ∈ (base, 0) :: L -> p ∈ (base, 0) :: L -> 0 < p.2 ->
  hp_mem h !! q.1 = Some (Hd p.1 q.2) -> exists N1 N2, (base, 0) :: L = N1 ++ q :: p :: N2.
Proof.
  intros Hok Hq Hp Hs Hm. pose proof (ok_sizes _ _ _ Hok) as Hz. pose proof Hok as [[Hl Ha _] _ _ _ Hbd _ _ _].
  pose proof Hq as Hq'. apply list_elem_of_split in Hq' as (N1 & R & EN). rewrite EN in Hl.
  apply links_app in Hl as [_ [Hmq _]]. rewrite Hmq in Hm. injection Hm as Hm.
  assert (base < p.1).
  { apply elem_of_cons in Hp as [->|Hp]; [simpl in Hs; lia|]. apply (Hbd p). set_solver. }
  destruct R as [|p' N2]; simpl in Hm; [lia|]. exists N1, N2.
  assert (p' = p) as -> by (eapply apart_inj; [exact Ha|exact Hz|rewrite EN; set_solver|done|done]). done.
Qed.

Section scan.
Context (h : heap) (L A : list block) (nunits : Z).
Context (Hok : heap_ok h L A) (Hn : 0 < nunits).

Definition passed (c : block) : Prop := c ∈ (base, 0) :: L /\ c.2 < nunits /\ c.1 <> hp_freep h.

Lemma scan_finds R1 : forall (p : block) R2 e q fuel,
  links (hp_mem h) (R1 ++ p :: R2) e -> Forall passed R1 -> p ∈ (base, 0) :: L -> nunits <= p.2 ->
  q ∈ (base, 0) :: L -> hp_mem h !! q.1 = Some (Hd (addr_or e (R1 ++ p :: R2)) q.2) -> (length R1 < fuel)%nat ->
  exists N1 q' N2, (base, 0) :: L = N1 ++ q' :: p :: N2 /\
    malloc_loop room fuel nunits q.1 (addr_or e (R1 ++ p :: R2)) h = carve nunits q'.1 p.1 h.
Proof.
  induction R1 as [|c R1 IH]; intros p R2 e q fuel Hl Hpa Hp Hpn Hq Hm Hf; (destruct fuel as [|f]; [simpl in Hf; lia|]).
  - simpl in Hm. destruct (pred_unique h L A q p) as (N1 & N2 & EN); try done; [lia|]. exists N1, q, N2. split; [done|].
    destruct Hl as [Hmp _]. cbn [addr_or app malloc_loop]. rewrite Hmp. cbn [mbind option_bind h_size].
    by rewrite (proj2 (Z.leb_le _ _)) by done.
  - destruct Hl as [Hmc Hl]. apply Forall_cons in Hpa as [(Hc1 & Hc2 & Hc3) Hpa].
    destruct (IH p R2 e c f) as (N1 & q' & N2 & EN & E); try done; [simpl in Hf; lia|].
    exists N1, q', N2. split; [done|]. cbn [addr_or app malloc_loop]. rewrite Hmc. cbn [mbind option_bind h_size h_ptr].
    rewrite (proj2 (Z.leb_gt _ _)), (proj2 (Z.eqb_neq _ _)) by done. exact E.
Qed.

Lemma scan_misses R1 : forall f R2 e q fuel,
  links (hp_mem h) (R1 ++ f :: R2) e -> Forall passed R1 -> f.1 = hp_freep h -> f.2 < nunits ->
  malloc_loop room (length R1 + S fuel) nunits q (addr_or e (R1 ++ f :: R2)) h =
  (r ← morecore room (S fuel) nunits h;
   if r.1 =? 0 then Some (0, r.2) else
   x ← hp_mem r.2 !! r.1;
   malloc_loop room fuel nunits r.1 (h_ptr x) r.2).
Proof.
  induction R1 as [|c R1 IH]; intros f R2 e q fuel Hl Hpa Hf Hfn.
  - destruct Hl as [Hmf _]. cbn [addr_or app malloc_loop length Nat.add]. rewrite Hmf. cbn [mbind option_bind h_size].
    rewrite (proj2 (Z.leb_gt _ _)), (proj2 (Z.eqb_eq _ _)) by done. done.
  - destruct Hl as [Hmc Hl]. apply Forall_cons in Hpa as [(Hc1 & Hc2 & Hc3) Hpa].
    cbn [addr_or app malloc_loop length Nat.add]. rewrite Hmc. cbn [mbind option_bind h_size h_ptr].
    rewrite (proj2 (Z.leb_gt _ _)), (proj2 (Z.eqb_neq _ _)) by done. by apply IH.
Qed.

(** The list from the block behind freep on, up to freep itself. *)
Lemma scan_order : exists R f e, f.1 = hp_freep h /\ links (hp_mem h) (R ++ [f]) e /\ R ++ [f] ≡ₚ (base, 0) :: L /\
  hp_mem h !! f.1 = Some (Hd (addr_or e (R ++ [f])) f.2) /\ forall c, c ∈ R -> c ∈ (base, 0) :: L /\ c.1 <> hp_freep h.
Proof.
  pose proof (ok_sizes _ _ _ Hok) as Hz. pose proof Hok as [R _ _ _ _ Hf _ _].
  apply list_elem_of_fmap in Hf as (f & Ef & Hf). apply list_elem_of_split in Hf as (F1 & F2 & EN).
  exists (F2 ++ F1), f, (addr_or base F2). pose proof R as [Hl Ha _]. rewrite EN in R, Hl, Ha.
  replace (F1 ++ f :: F2) with ((F1 ++ [f]) ++ F2) in R by (by rewrite <-app_assoc).
  apply links_rotate in R. rewrite app_assoc in R. split_and!; [done|done| | |].
  - rewrite EN. solve_Permutation.
  - apply links_app in Hl as [_ [Hmf _]]. rewrite Hmf. do 2 f_equal. rewrite <-app_assoc, addr_or_app.
    destruct F2 as [|x F2]; [|done]. simpl. rewrite addr_or_app. simpl.
    destruct F1 as [|x F1]; simpl in *; injection EN as <-; done.
  - intros c Hc. assert (HcN : c ∈ F1 ++ f :: F2) by set_solver. split; [by rewrite EN|]. rewrite Ef. intros E.
    assert (Hne : forall b, b ∈ F1 ++ F2 -> b.1 <> f.1).
    { rewrite EN in Hz. apply apart_app in Ha as (_ & [Hfa _] & H12). intros b [Hb|Hb]%elem_of_app.
      - pose proof (H12 b f Hb ltac:(set_solver)). pose proof (Hz b ltac:(set_solver)). unfold HSIZE in *. lia.
      - pose proof (Hfa b Hb). pose proof (Hz f ltac:(set_solver)). unfold HSIZE in *. lia. }
    apply (Hne c); [set_solver|done].
Qed.

(** The first block that is large enough, found before the search comes back to freep. *)
Lemma scan_fit (x := hp_mem h !! hp_freep h) fuel : (S (length L) <= fuel)%nat ->
  (exists c, c ∈ L /\ nunits <= c.2) ->
  exists g a h' L', x = Some g /\ malloc_loop room fuel nunits (hp_freep h) (h_ptr g) h = Some (a + HSIZE, h') /\
    taken h L A nunits h' L' a.
Proof.
  intros Hfu (c & Hc & Hcn). destruct scan_order as (R & f & e & Ef & Hl & HP & Hmf & HR).
  assert (Hex : c ∈ R ++ [f]) by (rewrite HP; set_solver).
  destruct (list_find (fun b : block => nunits <= b.2) (R ++ [f])) as [[i p]|] eqn:Efind; cycle 1.
  { apply list_find_None in Efind. by apply (proj1 (Forall_forall _ _) Efind) in Hex. }
  apply list_find_Some in Efind as (Hi & Hpn & Hfirst). set (R1 := take i (R ++ [f])). set (R2 := drop (S i) (R ++ [f])).
  assert (ER : R ++ [f] = R1 ++ p :: R2) by (symmetry; by apply take_drop_middle).
  assert (Hlen : (i < length (R ++ [f]))%nat) by (by eapply lookup_lt_Some).
  assert (HR1 : Forall passed R1).
  { apply Forall_lookup. intros j b Hj. unfold R1 in Hj. apply lookup_take_Some in Hj as [Hj Hji].
    rewrite length_app in Hlen. simpl in Hlen. rewrite lookup_app_l in Hj by lia.
    destruct (HR b ltac:(by eapply list_elem_of_lookup_2)) as [Hb1 Hb2]. split_and!; [done| |done].
    pose proof (Hfirst j b). rewrite lookup_app_l in H by lia. specialize (H Hj Hji). lia. }
  assert (HfN : f ∈ (base, 0) :: L) by (rewrite <-HP; set_solver).
  assert (HpN : p ∈ (base, 0) :: L) by (rewrite <-HP, ER; set_solver).
  rewrite ER in Hl, Hmf. pose proof (Permutation_length HP) as HPl. simpl in HPl.
  destruct (scan_finds R1 p R2 e f fuel) as (N1 & q & N2 & EN & E); try done.
  { unfold R1. rewrite length_take. lia. }
  destruct (carve_ok h L A N1 q p N2 nunits Hok EN) as (a & h' & L' & Ec & Ht); [lia|].
  exists (Hd (addr_or e (R1 ++ p :: R2)) f.2), a, h', L'. unfold x. rewrite <-Ef. split_and!; [done| |done].
  simpl. by rewrite E.
Qed.

(** No block is large enough: the kernel is asked. *)
Lemma scan_full fuel : (forall c, c ∈ L -> c.2 < nunits) ->
  exists g, hp_mem h !! hp_freep h = Some g /\
  malloc_loop room (length L + S fuel) nunits (hp_freep h) (h_ptr g) h =
  (r ← morecore room (S fuel) nunits h;
   if r.1 =? 0 then Some (0, r.2) else
   x ← hp_mem r.2 !! r.1;
   malloc_loop room fuel nunits r.1 (h_ptr x) r.2).
Proof.
  intros Hall. destruct scan_order as (R & f & e & Ef & Hl & HP & Hmf & HR).
  assert (HallN : forall c, c ∈ (base, 0) :: L -> c.2 < nunits).
  { intros c [->|Hc]%elem_of_cons; [simpl; lia|auto]. }
  exists (Hd (addr_or e (R ++ [f])) f.2). rewrite <-Ef at 1. split; [done|]. cbn [h_ptr].
  pose proof (Permutation_length HP) as HPl. rewrite length_app in HPl. simpl in HPl.
  replace (length L) with (length R) by lia. apply scan_misses; try done.
  - apply Forall_forall. intros c Hc. destruct (HR c Hc). split_and!; auto.
  - apply HallN. rewrite <-HP. set_solver.
Qed.

End scan.

(** ** More memory *)

Context (room_top : forall brk n, room brk n = true -> brk + n <= TOP).

(** The memory the kernel adds, as a block in use. *)
Lemma ok_grow h L A n : heap_ok h L A -> 0 < n -> hp_brk h + HSIZE * n <= TOP ->
  heap_ok (Heap (<[hp_brk h := Hd 0 n]> (hp_mem h)) (hp_freep h) (hp_brk h + HSIZE * n)) L ((hp_brk h, n) :: A).
Proof.
  intros Hok Hn Hroom. pose proof (ok_sizes _ _ _ Hok) as Hz. pose proof Hok as [[Hl Ha Hh] Hal Hnd Hlv Hbd Hf Hb [Hk Ht]].
  assert (Hlow : forall c, c ∈ L ++ A -> 0 < c.2 /\ c.1 < hp_brk h).
  { intros c Hc. destruct (proj1 (Forall_forall _ _) Hal c Hc) as [_ Hc2]. pose proof (Hbd c Hc). unfold HSIZE in *. lia. }
  constructor; cbn [hp_mem hp_freep hp_brk]; try done.
  - constructor; [|done|done]. eapply links_ext; [|done]. intros c Hc. rewrite lookup_insert_ne; [done|].
    apply elem_of_cons in Hc as [->|Hc]; [simpl; lia|]. destruct (Hlow c ltac:(set_solver)). lia.
  - rewrite Forall_app, Forall_cons. apply Forall_app in Hal as [? ?]. split_and!; try done.
  - rewrite cover_app, cover_cons, Permutation_app_swap_app, <-cover_app. apply NoDup_app. split_and!; [|intros u Hu Hu'|done].
    + unfold units. apply NoDup_fmap_2; [|apply NoDup_seq]. intros x y E. unfold HSIZE in E. lia.
    + apply (cover_bound _ _ (hp_brk h)) in Hu'; [|intros b Hb'; by apply Hbd].
      apply elem_of_units in Hu as (k & Hk' & ->). simpl in Hu'. unfold HSIZE in *. lia.
  - intros b [->|Hb']%elem_of_cons; [exists 0; simpl; by rewrite lookup_insert_eq|].
    destruct (Hlv b Hb') as [g Hg]. exists g. rewrite lookup_insert_ne; [done|].
    destruct (Hlow b ltac:(set_solver)). lia.
  - intros b. rewrite elem_of_app, elem_of_cons. intros [Hb'|[->|Hb']]; [|simpl; lia|].
    + pose proof (Hbd b ltac:(set_solver)). unfold HSIZE in *. lia.
    + pose proof (Hbd b ltac:(set_solver)). unfold HSIZE in *. lia.
  - unfold HSIZE in *. lia.
  - split; [|done]. unfold HSIZE in *. zlia.
Qed.

(** What morecore asks for. *)
Definition grain (nunits : Z) : Z := Z.max 4096 nunits.

Lemma morecore_ok fuel h L A nunits : heap_ok h L A -> 0 < nunits -> HSIZE * nunits < 2 ^ 31 -> (length L < fuel)%nat ->
  if room (hp_brk h) (HSIZE * grain nunits) then
    exists h' L', morecore room fuel nunits h = Some (hp_freep h', h') /\ heap_ok h' L' A /\
      hp_brk h' = hp_brk h + HSIZE * grain nunits /\ cover L' ≡ₚ units (hp_brk h, grain nunits) ++ cover L /\
      (forall u, u ∈ cover A -> hp_mem h' !! u = hp_mem h !! u) /\ (exists c, c ∈ L' /\ nunits <= c.2) /\
      (length L' <= S (length L))%nat
  else morecore room fuel nunits h = Some (0, h).
Proof.
  intros Hok Hn Hsz Hf. unfold morecore.
  assert (Eg : (if nunits <? 4096 then 4096 else nunits) = grain nunits) by (unfold grain; destruct (Z.ltb_spec nunits 4096); lia).
  rewrite Eg. clear Eg. assert (Hg : nunits <= grain nunits /\ HSIZE * grain nunits < 2 ^ 31) by (unfold grain, HSIZE in *; lia).
  generalize dependent (grain nunits). intros nu Hg. rewrite (Z.mul_comm nu), (u64_id (HSIZE * nu)), i32_id by (unfold HSIZE in *; lia).
  unfold sbrk. destruct (room (hp_brk h) (HSIZE * nu)) eqn:Hr; [|done].
  pose proof Hok as [_ _ _ _ Hbd _ Hb _]. rewrite (proj2 (Z.eqb_neq (hp_brk h) (-1))) by lia. cbn [hp_mem hp_freep hp_brk].
  pose proof (ok_grow h L A nu Hok ltac:(lia) (room_top _ _ Hr)) as Hok1.
  destruct (free_ok fuel _ _ _ _ _ Hok1 Hf) as (h' & L' & E & Hok' & Hcov & Ebrk & Hsame & (c & Hc & Hcn) & Hlen).
  rewrite E. simpl. exists h', L'. split_and!; try done.
  - intros u Hu. rewrite Hsame by done. simpl. rewrite lookup_insert_ne; [done|].
    apply (cover_bound _ _ (hp_brk h)) in Hu; [|intros b Hb'; apply Hbd; set_solver]. unfold HSIZE in *. lia.
  - exists c. split; [done|lia].
Qed.

End heap.
