(* ===== verification/UmallocProps.v ===== *)
(** * UmallocProps

    The allocator of user/umalloc.c serving a program: whatever sequence of malloc and
    free the program makes, every call returns, the memory of the blocks it holds is
    disjoint and inside the process, malloc refuses only when the kernel does, and once
    everything is freed the free list is again the one block of all the memory. *)
From stdpp Require Import base tactics list numbers gmap sets.
From S2P Require Import Prelude Umalloc.

(** What the program asks for; [Free i] frees the [i]th of the blocks it holds. *)
Inductive request := Malloc (nbytes : Z) | Free (i : nat).

Section client.
Context (base : Z) (room : Z -> Z -> bool).

(** The blocks the program holds: the pointers malloc returned and the sizes asked for. *)
Definition serve (fuel : nat) (r : request) (st : heap * list (Z * Z)) : option (heap * list (Z * Z)) :=
  match r with
  | Malloc n =>
      x ← malloc base room fuel n st.1;
      Some (x.2, if x.1 =? 0 then st.2 else (x.1, n) :: st.2)
  | Free i =>
      match st.2 !! i with
      | Some (a, _) => h ← free fuel a st.1; Some (h, delete i st.2)
      | None => Some st
      end
  end.

Fixpoint serve_all (fuel : nat) (rs : list request) (st : heap * list (Z * Z)) : option (heap * list (Z * Z)) :=
  match rs with
  | [] => Some st
  | r :: rs => st ← serve fuel r st; serve_all fuel rs st
  end.

Definition request_ok (r : request) : Prop :=
  match r with Malloc n => 0 <= n < 2 ^ 31 - 32 | Free _ => True end.

Context (room_top : forall brk n, room brk n = true -> brk + n <= TOP).

Lemma nunits_of n : 0 <= n < 2 ^ 31 - 32 ->
  exists s, u32 (u64 (n + HSIZE - 1) / HSIZE + 1) = s /\ 0 < s /\ HSIZE * s < n + 32 /\ n <= HSIZE * (s - 1).
Proof.
  intros Hn. eexists. split; [reflexivity|]. rewrite u64_id by (unfold HSIZE; lia).
  rewrite u32_id by (unfold HSIZE; zlia). unfold HSIZE in *. zlia.
Qed.

(** What malloc did to the heap: [n] bytes at [a + HSIZE], in a block taken from the free
    ones or from those the kernel added; or nothing. *)
Definition malloc_result (h : heap) (L A : list block) (n : Z) (r : Z * heap) : Prop :=
  (exists s, r = (0, h) /\ HSIZE * s < n + 32 /\ room (hp_brk h) (HSIZE * grain s) = false /\ forall c, c ∈ L -> c.2 < s) \/
  exists a s L' k, r.1 = a + HSIZE /\ n <= HSIZE * (s - 1) /\ heap_ok base r.2 L' ((a, s) :: A) /\ 0 <= k /\
    hp_brk r.2 = hp_brk h + HSIZE * k /\
    units (a, s) ++ cover L' ≡ₚ units (hp_brk h, k) ++ cover L /\ (length L' <= S (length L))%nat.

Lemma malloc_run fuel h L A n : heap_ok base h L A -> 0 <= n < 2 ^ 31 - 32 -> (2 * length L + 4 <= fuel)%nat ->
  exists r, malloc base room fuel n h = Some r /\ malloc_result h L A n r.
Proof.
  intros Hok Hn Hfu. destruct (nunits_of n Hn) as (s & Es & Hs & Hs32 & Hns). unfold malloc. rewrite Es.
  pose proof Hok as [_ _ _ _ Hbd Hf Hb _].
  assert (Hf0 : hp_freep h =? 0 = false).
  { apply Z.eqb_neq. apply list_elem_of_fmap in Hf as (c & -> & [->|Hc]%elem_of_cons); [simpl; lia|].
    destruct (Hbd c ltac:(set_solver)). lia. }
  rewrite Hf0. destruct (decide (Exists (fun c : block => s <= c.2) L)) as [Hfit|Hnofit].
  - apply Exists_exists in Hfit as (c & Hc & Hcs).
    destruct (scan_fit base room h L A s Hok Hs fuel) as (g & a & h' & L' & Eg & E & Hok' & Hcov & Ebrk & _ & Hlen);
      [lia|eauto|].
    rewrite Eg. simpl. rewrite E. eexists. split; [done|]. right. exists a, s, L', 0. split_and!; try done; cbn [snd]; [|lia].
    rewrite Ebrk. lia.
  - assert (Hall : forall c, c ∈ L -> c.2 < s).
    { intros c Hc. destruct (decide (c.2 < s)); [done|]. destruct Hnofit. apply Exists_exists. exists c. split; [done|lia]. }
    set (f := (fuel - length L - 1)%nat). replace fuel with (length L + S f)%nat by lia.
    destruct (scan_full base room h L A s Hok Hs f Hall) as (g & Eg & E). rewrite Eg. simpl. rewrite E. clear E.
    pose proof (morecore_ok base room room_top (S f) h L A s Hok Hs ltac:(lia) ltac:(lia)) as Hm.
    destruct (room (hp_brk h) (HSIZE * grain s)) eqn:Hr.
    + destruct Hm as (h1 & L1 & E & Hok1 & Ebrk1 & Hcov1 & _ & Hbig & Hlen1). rewrite E. simpl.
      assert (Hf1 : hp_freep h1 =? 0 = false).
      { apply Z.eqb_neq. destruct Hok1 as [_ _ _ _ Hbd1 Hf1 Hb1 _].
        apply list_elem_of_fmap in Hf1 as (c & -> & [->|Hc]%elem_of_cons); [simpl; lia|].
        destruct (Hbd1 c ltac:(set_solver)). lia. }
      rewrite Hf1. destruct (scan_fit base room h1 L1 A s Hok1 Hs f) as (g1 & a & h' & L' & Eg1 & E1 & Hok' & Hcov & Ebrk & _ & Hlen);
        [lia|done|].
      rewrite Eg1. simpl. rewrite E1. eexists. split; [done|]. right. exists a, s, L', (grain s).
      split_and!; try done; cbn [snd]; [unfold grain; lia|congruence|by rewrite Hcov|lia].
    + rewrite Hm. simpl. eexists. split; [done|]. left. eauto.
Qed.

Lemma malloc_answers fuel h L A n : heap_ok base h L A -> 0 <= n < 2 ^ 31 - 32 -> (2 * length L + 4 <= fuel)%nat ->
  exists r, malloc base room fuel n h = Some r /\
    (r.1 = 0 -> exists s, HSIZE * s < n + 32 /\ room (hp_brk h) (HSIZE * grain s) = false).
Proof.
  intros Hok Hn Hfu. destruct (malloc_run fuel h L A n Hok Hn Hfu) as (r & E & Hr). exists r. split; [done|].
  intros Hr0. destruct Hr as [(s & -> & Hs & Hroom & _)|(a & s & L' & k & Ea & _ & Hok' & _)]; [eauto|].
  destruct Hok' as [_ _ _ _ Hbd _ _ _]. destruct (Hbd (a, s) ltac:(set_solver)) as [Hlo _]. simpl in Hlo.
  destruct Hok as [_ _ _ _ _ _ Hb _]. unfold HSIZE in *. lia.
Qed.

(** ** The program *)

Context (brk0 : Z) (Hbase : 0 < base < brk0) (Hbrk0 : brk0 mod HSIZE = 0 /\ brk0 <= TOP).

Definition holds (b : block) (r : Z * Z) : Prop := r.1 = b.1 + HSIZE /\ r.2 <= HSIZE * (b.2 - 1).

(** The free blocks [L] and those in use [A] are the memory the kernel gave. *)
Record served (h : heap) (live : list (Z * Z)) (n : nat) (L A : list block) (k : Z) : Prop := {
  sv_ok : heap_ok base h L A;
  sv_live : Forall2 holds A live;
  sv_k : 0 <= k /\ hp_brk h = brk0 + HSIZE * k;
  sv_all : cover (L ++ A) ≡ₚ units (brk0, k);
  sv_len : (length L <= n)%nat;
}.

(** Before the first malloc freep is 0. *)
Definition serving (n : nat) (st : heap * list (Z * Z)) : Prop :=
  (hp_freep st.1 = 0 /\ hp_brk st.1 = brk0 /\ st.2 = []) \/ exists L A k, served st.1 st.2 n L A k.

Lemma serving_first h : hp_freep h = 0 -> hp_brk h = brk0 ->
  exists h', (forall fuel n, malloc base room fuel n h = malloc base room fuel n h') /\ served h' [] 0 [] [] 0.
Proof.
  intros Hf Hb. exists (Heap (<[base := Hd base 0]> (hp_mem h)) base brk0). split.
  - intros fuel n. unfold malloc. rewrite Hf, Hb. simpl. by rewrite (proj2 (Z.eqb_neq base 0)) by lia.
  - constructor; [|constructor|simpl; lia|done|done]. constructor; simpl; try done.
    + constructor; [|split; [intros c Hc; by apply elem_of_nil in Hc|done]|by eexists].
      split; [|done]. simpl. by rewrite lookup_insert_eq.
    + constructor.
    + intros b Hb'. by apply elem_of_nil in Hb'.
    + intros b Hb'. by apply elem_of_nil in Hb'.
    + set_solver.
Qed.

Lemma served_malloc fuel h live m L A k n : served h live m L A k -> 0 <= n < 2 ^ 31 - 32 -> (2 * m + 4 <= fuel)%nat ->
  exists st, serve fuel (Malloc n) (h, live) = Some st /\ serving (S m) st.
Proof.
  intros [Hok Hlv Hk Hall Hlen] Hn Hfu.
  destruct (malloc_run fuel h L A n Hok Hn ltac:(lia)) as ([p h'] & E & [(s & Er & _)|Hres]); simpl; rewrite E; simpl.
  - injection Er as -> ->. eexists. split; [done|]. right. exists L, A, k. by constructor; auto.
  - destruct Hres as (a & s & L' & j & Ep & Hns & Hok' & Hj & Ebrk & Hcov & Hlen'). simpl in Ep, Hok', Ebrk. subst p.
    assert (Ha0 : a + HSIZE =? 0 = false).
    { apply Z.eqb_neq. destruct Hok' as [_ _ _ _ Hbd _ _ _]. destruct (Hbd (a, s) ltac:(set_solver)) as [Hlo _].
      simpl in Hlo. unfold HSIZE. lia. }
    rewrite Ha0. eexists. split; [done|]. right. exists L', ((a, s) :: A), (k + j). destruct Hk as [Hk0 Hk]. constructor; cbn [fst snd]; try done.
    + by constructor.
    + lia.
    + rewrite cover_app, cover_cons. rewrite units_split, <-Hk, <-Hall by lia. rewrite !cover_app.
      rewrite Permutation_app_swap_app, app_assoc, Hcov. clear. solve_Permutation.
    + lia.
Qed.

Lemma served_free fuel h live m L A k i : served h live m L A k -> (2 * m + 4 <= fuel)%nat ->
  exists st, serve fuel (Free i) (h, live) = Some st /\ serving (S m) st.
Proof.
  intros Hsv Hfu. pose proof Hsv as [Hok Hlv Hk Hall Hlen]. simpl. destruct (live !! i) as [[p n]|] eqn:Ei; cycle 1.
  { eexists. split; [done|]. right. exists L, A, k. by constructor; auto. }
  destruct (Forall2_lookup_r _ _ _ _ _ Hlv Ei) as ([a s] & Ea & [Ep Hn]). simpl in Ep. subst p.
  assert (HP : A ≡ₚ (a, s) :: delete i A) by (by apply delete_Permutation).
  assert (Hok1 : heap_ok base h L ((a, s) :: delete i A)).
  { destruct Hok as [R Hal Hnd Hl Hbd Hf Hb Hbk]. constructor; try done.
    - by rewrite <-HP.
    - by rewrite <-HP.
    - intros b Hbi. apply Hl. by rewrite HP.
    - intros b Hbi. apply Hbd. by rewrite HP. }
  destruct (free_ok base fuel h L (delete i A) a s Hok1 ltac:(lia)) as (h' & L' & E & Hok' & Hcov & Ebrk & _ & _ & Hlen').
  rewrite E. simpl. eexists. split; [done|]. right. exists L', (delete i A), k. constructor; cbn [fst snd]; try done.
  - by apply Forall2_delete.
  - by rewrite Ebrk.
  - rewrite <-Hall, !cover_app, Hcov. rewrite HP at 2. rewrite cover_cons. clear. solve_Permutation.
  - lia.
Qed.

Lemma serve_serving fuel r st m : serving m st -> request_ok r -> (2 * m + 4 <= fuel)%nat ->
  exists st', serve fuel r st = Some st' /\ serving (S m) st'.
Proof.
  destruct st as [h live]. intros [(Hf & Hb & Hl)|(L & A & k & Hsv)] Hr Hfu; simpl in *.
  - subst live. destruct r as [n|i].
    + destruct (serving_first h Hf Hb) as (h' & E & Hsv). simpl. rewrite E.
      apply (served_malloc fuel h' [] m [] [] 0 n); [|done|done]. destruct Hsv. constructor; auto. simpl. lia.
    + exists (h, []). split; [done|]. by left.
  - destruct r as [n|i]; [by eapply served_malloc|by eapply served_free].
Qed.

Lemma serve_all_serving fuel rs : forall st m, serving m st -> Forall request_ok rs -> (2 * (m + length rs) + 4 <= fuel)%nat ->
  exists st', serve_all fuel rs st = Some st' /\ serving (m + length rs) st'.
Proof.
  induction rs as [|r rs IH]; intros st m Hst Hrs Hfu; simpl.
  - exists st. by rewrite Nat.add_0_r.
  - apply Forall_cons in Hrs as [Hr Hrs]. simpl in Hfu.
    destruct (serve_serving fuel r st m Hst Hr ltac:(lia)) as (st1 & -> & Hst1). simpl.
    destruct (IH st1 (S m) Hst1 Hrs ltac:(lia)) as (st' & E & Hst'). exists st'. split; [done|].
    by rewrite Nat.add_succ_r.
Qed.

(** ** What the program sees *)

(** The blocks it holds do not overlap and lie in the process. *)
Lemma served_disjoint h live n L A k i j a x b y : served h live n L A k -> i <> j ->
  live !! i = Some (a, x) -> live !! j = Some (b, y) -> a + x <= b \/ b + y <= a.
Proof.
  intros [Hok Hlv _ _ _] Hij Hi Hj. destruct (Forall2_lookup_r _ _ _ _ _ Hlv Hi) as ([c s] & Hc & [Ec Hx]).
  destruct (Forall2_lookup_r _ _ _ _ _ Hlv Hj) as ([d t] & Hd & [Ed Hy]). simpl in Ec, Hx, Ed, Hy.
  destruct Hok as [_ Hal Hnd _ _ _ _ _]. apply Forall_app in Hal as [_ HA]. rewrite cover_app in Hnd. apply NoDup_app in Hnd as (_ & _ & Hnd).
  assert (Hcd : forall u, u ∈ units (c, s) -> u ∉ units (d, t)).
  { assert (HP : A ≡ₚ (c, s) :: delete i A) by (by apply delete_Permutation).
    assert (Hd' : (d, t) ∈ delete i A).
    { apply list_elem_of_lookup. destruct (decide (j < i)%nat).
      - exists j. by rewrite list_lookup_delete_lt.
      - exists (pred j). rewrite list_lookup_delete_ge by lia. by replace (S (pred j)) with j by lia. }
    rewrite HP, cover_cons in Hnd. apply NoDup_app in Hnd as (_ & Hdis & _).
    intros u Hu Hu'. apply (Hdis u Hu). by eapply cover_in. }
  pose proof (proj1 (Forall_lookup _ _) HA _ _ Hc) as Hac. pose proof (proj1 (Forall_lookup _ _) HA _ _ Hd) as Had.
  destruct (Z.lt_trichotomy c d) as [Hlt|[->|Hlt]].
  - pose proof (units_order _ _ Hac Had Hcd Hlt) as Ho. simpl in Ho. unfold HSIZE in *. lia.
  - exfalso. apply (Hcd d); [apply (units_head (d, s))|apply (units_head (d, t))]; [apply Hac|apply Had].
  - assert (Hdc : forall u, u ∈ units (d, t) -> u ∉ units (c, s)) by (intros u H1 H2; by apply (Hcd u)).
    pose proof (units_order _ _ Had Hac Hdc Hlt) as Ho. simpl in Ho. unfold HSIZE in *. lia.
Qed.

Lemma served_inside h live n L A k a x : served h live n L A k -> (a, x) ∈ live ->
  a mod HSIZE = 0 /\ brk0 < a /\ a + x <= hp_brk h.
Proof.
  intros [Hok Hlv Hk Hall _] Ha. apply list_elem_of_lookup in Ha as (i & Hi).
  destruct (Forall2_lookup_r _ _ _ _ _ Hlv Hi) as ([c s] & Hc & [Ec Hx]). simpl in Ec, Hx.
  apply list_elem_of_lookup_2 in Hc. destruct Hok as [_ Hal _ _ Hbd _ _ _].
  destruct (proj1 (Forall_forall _ _) Hal (c, s) ltac:(set_solver)) as [Hmod Hs]. simpl in Hmod, Hs.
  destruct (Hbd (c, s) ltac:(set_solver)) as [_ Htop]. simpl in Htop.
  assert (Hcu : c ∈ units (brk0, k)).
  { rewrite <-Hall, cover_app. apply elem_of_app. right. eapply cover_in; [done|]. by apply (units_head (c, s)). }
  apply elem_of_units in Hcu as (g & Hg & Eg). simpl in Hg, Eg. split_and!.
  - rewrite Ec. unfold HSIZE in *. zlia.
  - unfold HSIZE in *. lia.
  - unfold HSIZE in *. lia.
Qed.

(** Blocks with room between any two that make up one stretch of memory are one block. *)
Lemma apart_whole L b0 k : apart L -> Forall aligned L -> 0 < k -> b0 mod HSIZE = 0 -> cover L ≡ₚ units (b0, k) -> L = [(b0, k)].
Proof.
  intros Ha Hal Hk Hb Hcov. destruct L as [|c L].
  { exfalso. assert (Hin : b0 ∈ cover []) by (rewrite Hcov; by apply (units_head (b0, k))). by apply elem_of_nil in Hin. }
  apply Forall_cons in Hal as [[Hcm Hcs] HalL]. destruct Ha as [Hac Ha].
  assert (HuL : forall u, u ∈ units (b0, k) -> u ∈ cover (c :: L)) by (intros u; by rewrite Hcov).
  assert (Hin : forall b, b ∈ c :: L -> aligned b -> exists g, 0 <= g < k /\ b.1 = b0 + HSIZE * g).
  { intros b Hbi [_ Hbs]. assert (Hbu : b.1 ∈ units (b0, k)) by (rewrite <-Hcov; eapply cover_in; [done|]; by apply units_head).
    by apply elem_of_units in Hbu. }
  destruct (Hin c ltac:(set_solver) ltac:(done)) as (g & Hg & Eg). destruct L as [|d L].
  - rewrite cover_cons, app_nil_r in Hcov. pose proof (Permutation_length Hcov) as Hlen.
    unfold units in Hlen. rewrite !length_fmap, !length_seq in Hlen. cbn [snd] in Hlen. f_equal.
    assert (Hb0 : b0 ∈ units c) by (rewrite Hcov; by apply (units_head (b0, k))).
    apply elem_of_units in Hb0 as (g' & Hg' & Eg'). destruct c as [c1 c2]. simpl in *. unfold HSIZE in *. f_equal; lia.
  - exfalso. pose proof (Hac d ltac:(set_solver)) as Hcd. apply Forall_cons in HalL as [Hald HalL].
    destruct (Hin d ltac:(set_solver) Hald) as (g2 & Hg2 & Eg2).
    assert (Hgap : c.1 + HSIZE * c.2 ∈ cover (c :: d :: L)).
    { apply HuL, elem_of_units. exists (g + c.2). simpl. unfold HSIZE in *. split; lia. }
    apply elem_of_cover in Hgap as (b & Hbi & (j & Hj & Ej)%elem_of_units).
    apply elem_of_cons in Hbi as [->|Hbi]; [unfold HSIZE in *; lia|]. pose proof (Hac b Hbi). unfold HSIZE in *. lia.
Qed.

Lemma served_empty h n L A k : served h [] n L A k -> 0 < k ->
  hp_mem h !! base = Some (Hd brk0 0) /\ hp_mem h !! brk0 = Some (Hd base k).
Proof.
  intros [Hok Hlv _ Hall _] Hk. apply Forall2_nil_inv_r in Hlv as ->. rewrite app_nil_r in Hall.
  destruct Hok as [[Hl [_ Ha] _] Hal _ _ _ _ _ _]. rewrite app_nil_r in Hal.
  rewrite (apart_whole L brk0 k) in Hl by (done || apply Hbrk0). simpl in Hl. tauto.
Qed.

End client.


