(* ===== verification/Storage.v ===== *)
(** * Storage

    A logic for the code above the disk driver. A process runs a system call while no
    other one uses the file system; when it gives up the CPU the device serves the
    request in the avail ring, the interrupt handler runs on some other hart, and the
    scheduler resumes the process. [wp] says of an outcome that under this environment
    the code returns, with what it returns satisfying a postcondition and the contents
    of the disk satisfying a crash condition at every moment on the way.

    The device is a parameter; [DeviceOk] is what the virtio standard says of a block
    device that finds one request in its ring. *)
From stdpp Require Import base tactics list numbers gmap strings.
From S2P Require Import Prelude Machine Spinlock Printf Bytes Block Queue Kalloc Vm Kernel Proc ProcFacts.
From S2P Require Import Sleeplock Virtio Bio Discipline ProcProps BioProps.

(** The contents of the disk, by block of BSIZE bytes. *)
Abbreviation disk := (Z -> list Z).

Definition write_block (n : Z) (v : list Z) (d : disk) : disk := fun m => if decide (m = n) then v else d m.

(** All blocks are of BSIZE bytes. *)
Definition disk_ok (d : disk) : Prop := forall n, length (d n) = Z.to_nat BSIZE.

Lemma disk_ok_write n v d : disk_ok d -> length v = Z.to_nat BSIZE -> disk_ok (write_block n v d).
Proof. intros Hd Hv m. unfold write_block. by case_decide. Qed.

Lemma write_block_eq n v d : write_block n v d n = v.
Proof. unfold write_block. by rewrite decide_True. Qed.

Lemma write_block_ne n m v d : m <> n -> write_block n v d m = d m.
Proof. intros. unfold write_block. by rewrite decide_False. Qed.

(** What a device does to the memory of the kernel and the disk between two steps of the
    driver. *)
Class Device := device : kernel -> disk -> kernel * disk.

(** The device has served the chain that starts at descriptor [i0]. *)
Definition served_chain (i0 : nat) (k : disk_t) : disk_t :=
  set_d_used_idx (u16 (d_used_idx k + 1))
    (set_d_used_ring (<[Z.to_nat (d_used_idx k mod Z.of_nat NUM) := Z.of_nat i0]> (d_used_ring k))
      (set_d_info_status (<[i0 := 0]> (d_info_status k)) k)).

(** One chain is in the avail ring and not in the used ring: a header, the data and a status byte. *)
Record one_request (k : disk_t) (i0 i1 i2 b : nat) (typ flags sector : Z) : Prop := {
  rq_idx : d_avail_idx k = u16 (d_used_idx k + 1);
  rq_head : d_avail_ring k !! Z.to_nat (d_used_idx k mod Z.of_nat NUM) = Some (Z.of_nat i0);
  rq_op : d_ops k !! i0 = Some (BlkReq typ 0 sector);
  rq_d0 : d_desc k !! i0 = Some (Desc (A_ops i0) 16 VRING_DESC_F_NEXT (Z.of_nat i1));
  rq_d1 : d_desc k !! i1 = Some (Desc (A_data b) BSIZE flags (Z.of_nat i2));
  rq_d2 : d_desc k !! i2 = Some (Desc (A_status i0) 1 VRING_DESC_F_WRITE 0);
}.

(** A sector has 512 bytes. *)
Class DeviceOk `{Device} : Prop := {
  device_reads : forall s d i0 i1 i2 b sector,
    one_request (k_disk s) i0 i1 i2 b VIRTIO_BLK_T_IN (Z.lor VRING_DESC_F_WRITE VRING_DESC_F_NEXT) sector ->
    device s d = (set_k_disk (served_chain i0 (k_disk s))
      (set_k_bcache (upd_buf b (set_b_data (d (sector / 2))) (k_bcache s)) s), d);
  device_writes : forall s d i0 i1 i2 b sector x,
    one_request (k_disk s) i0 i1 i2 b VIRTIO_BLK_T_OUT VRING_DESC_F_NEXT sector ->
    bc_buf (k_bcache s) !! b = Some x ->
    device s d = (set_k_disk (served_chain i0 (k_disk s)) s, write_block (sector / 2) (b_data x) d);
}.

(** The number of the device; 0 marks the buffers never used. *)
Class DiskDev := { disk_dev : Z; disk_dev_ne : disk_dev <> 0 }.

(** Waiting loops may find their condition false at least once. *)
Class WaitPos `{WaitFuel} : Prop := wait_pos : (0 < wait_fuel)%nat.

(** ** The environment *)

(** What a process keeps while it is scheduled. *)
Record same_proc (x y : proc) : Prop := {
  sp_pid : p_pid y = p_pid x;
  sp_sz : p_sz y = p_sz x;
  sp_pagetable : p_pagetable y = p_pagetable x;
  sp_trapframe : p_trapframe y = p_trapframe x;
  sp_ofile : p_ofile y = p_ofile x;
  sp_cwd : p_cwd y = p_cwd x;
}.

(** What nobody else changes while process [pr] is in the file system. *)
Record kept (pr : nat) (s s' : kernel) : Prop := {
  kp_log : k_log s' = k_log s;
  kp_sb : k_sb s' = k_sb s;
  kp_inode : k_inode s' = k_inode s;
  kp_file : k_file s' = k_file s;
  kp_pm : k_pm s' = k_pm s;
  kp_len : length (k_proc s') = length (k_proc s);
  kp_proc : forall x, k_proc s !! pr = Some x -> exists y, k_proc s' !! pr = Some y /\ same_proc x y;
}.

(** The scheduler runs [pr] again. *)
Record rescheduled (pr : nat) (s s' : kernel) : Prop := {
  rs_kept : kept pr s s';
  rs_bcache : k_bcache s' = k_bcache s;
  rs_disk : k_disk s' = k_disk s;
}.

(** A hart that can take the interrupt. *)
Definition interruptible (pr : nat) (h : hart) : Prop := h_held h = [] /\ h_noff h = 0 /\ h_proc h <> Some pr.

Section wp.
Context `{Layout} `{Symbols} `{WaitFuel} `{Device}.

Fixpoint wp {A} (pr : nat) (C : disk -> Prop) (o : outcome kernel A) (d : disk)
    (Q : A -> hart -> kernel -> disk -> Prop) : Prop :=
  match o with
  | Done a h s => C d /\ Q a h s d
  | Panic _ => False
  | NoFuel => False
  | Switch h s k =>
      C d /\ at_switch pr h /\
      forall hi, interruptible pr hi ->
      exists hi' s2, virtio_disk_intr hi (device s d).1 = Done tt hi' s2 /\
        p_state <$> k_proc s2 !! pr = Some RUNNABLE /\
        forall h3 s3, at_switch pr h3 -> rescheduled pr s2 s3 -> wp pr C (k h3 s3) (device s d).2 Q
  end.

Implicit Types (s : kernel) (h : hart) (d : disk) (C : disk -> Prop).

Lemma wp_mono {A} pr C (o : outcome kernel A) d (Q Q' : A -> hart -> kernel -> disk -> Prop) :
  wp pr C o d Q -> (forall a h s d, Q a h s d -> Q' a h s d) -> wp pr C o d Q'.
Proof.
  intros Hw HQ. revert d Hw. induction o as [a h s|msg|h s k IH|]; intros d; simpl; [|done| |done].
  - intros [? ?]. auto.
  - intros (Hc & Ha & Hk). split_and!; [done|done|]. intros hi Hi. destruct (Hk hi Hi) as (hi' & s2 & E & Hr & Hk').
    exists hi', s2. split_and!; [done|done|]. intros h3 s3 H3 Hs3. apply IH. by apply Hk'.
Qed.

(** A weaker crash condition. *)
Lemma wp_crash {A} pr C C' (o : outcome kernel A) d (Q : A -> hart -> kernel -> disk -> Prop) :
  (forall d, C d -> C' d) -> wp pr C o d Q -> wp pr C' o d Q.
Proof.
  intros HC. revert d. induction o as [a h s|msg|h s k IH|]; intros d; simpl; [|done| |done].
  - intros [? ?]. auto.
  - intros (Hc & Ha & Hk). split_and!; [auto|done|]. intros hi Hi. destruct (Hk hi Hi) as (hi' & s2 & E & Hr & Hk').
    exists hi', s2. split_and!; [done|done|]. intros h3 s3 H3 Hs3. apply IH. by apply Hk'.
Qed.

Lemma wp_obind {A B} pr C (o : outcome kernel A) (f : A -> K kernel B) d Q :
  wp pr C o d (fun a h s d => wp pr C (f a h s) d Q) -> wp pr C (obind f o) d Q.
Proof.
  revert d. induction o as [a h s|msg|h s k IH|]; intros d; simpl; [tauto|done| |done].
  intros (Hc & Ha & Hk). split_and!; [done|done|]. intros hi Hi. destruct (Hk hi Hi) as (hi' & s2 & E & Hr & Hk').
  exists hi', s2. split_and!; [done|done|]. intros h3 s3 H3 Hs3. apply IH. by apply Hk'.
Qed.

Lemma wp_bind {A B} pr C (m : K kernel A) (f : A -> K kernel B) h s d Q :
  wp pr C (m h s) d (fun a h s d => wp pr C (f a h s) d Q) -> wp pr C (bind m f h s) d Q.
Proof. apply wp_obind. Qed.

(** A computation that runs through without giving up the CPU. *)
Lemma wp_run {A B} pr C (m : K kernel A) (f : A -> K kernel B) h s d Q a h' s' :
  m h s = Done a h' s' -> wp pr C (f a h' s') d Q -> wp pr C (bind m f h s) d Q.
Proof. intros E. by rewrite (bind_done _ _ _ _ _ _ _ E). Qed.

(** A loop, by an invariant of the rounds done. *)
Lemma wp_forM pr C (I : nat -> hart -> kernel -> disk -> Prop) (body : nat -> K kernel unit) n h s d Q :
  (forall i h s d, I i h s d -> C d) -> I 0%nat h s d ->
  (forall i h s d, (i < n)%nat -> I i h s d -> wp pr C (body i h s) d (fun _ => I (S i))) ->
  (forall h s d, I n h s d -> Q tt h s d) -> wp pr C (forM (upto n) body h s) d Q.
Proof.
  intros HC H0' Hbody HQ. unfold upto.
  cut (forall k i h s d, (i + k = n)%nat -> I i h s d -> wp pr C (forM (seq i k) body h s) d Q).
  { intros Hc. by apply Hc. }
  induction k as [|k IH]; intros i h' s' d' Hi HI; cbn [seq forM].
  - cbn [ret wp]. replace i with n in HI by lia. eauto.
  - apply wp_bind. eapply wp_mono; [apply Hbody; [lia|exact HI]|]. intros [] h2 s2 d2 H2'. apply IH; [lia|done].
Qed.

End wp.

(** ** The driver *)

(** No request is under way. *)
Record drv_idle (k : disk_t) : Prop := {
  di_desc : length (d_desc k) = NUM;
  di_avail : length (d_avail_ring k) = NUM;
  di_used : length (d_used_ring k) = NUM;
  di_free : d_free k = replicate NUM true;
  di_info : length (d_info_b k) = NUM;
  di_status : length (d_info_status k) = NUM;
  di_ops : length (d_ops k) = NUM;
  di_idx : d_avail_idx k = d_used_idx k /\ d_seen_idx k = d_used_idx k /\ 0 <= d_used_idx k < 2 ^ 16;
}.

Section driver.
Context `{Layout} `{Symbols} `{WaitFuel}.
Implicit Types (s : kernel) (h : hart) (k : disk_t).

Lemma bind_disk_set {A} f (g : unit -> K kernel A) h s :
  bind (disk_set f) g h s = g tt h (set_k_disk (f (k_disk s)) s).
Proof. done. Qed.

Lemma disk_set_run f h s : disk_set f h s = Done tt h (set_k_disk (f (k_disk s)) s).
Proof. done. Qed.

Lemma alloc3_run h s : drv_idle (k_disk s) ->
  alloc3_desc h s = Done (Some (0%nat, 1%nat, 2%nat)) h
    (set_k_disk (set_d_free [false; false; false; true; true; true; true; true] (k_disk s)) s).
Proof.
  intros Hi. pose proof (di_free _ Hi) as Hf. destruct s, k_disk. simpl in Hf. subst d_free. reflexivity.
Qed.

(** The state when the request has been handed over. *)
Definition submitted (b : nat) (write : bool) (sector : Z) (k : disk_t) : disk_t :=
  Disk (<[2%nat := Desc (A_status 0) 1 VRING_DESC_F_WRITE 0]>
         (<[1%nat := Desc (A_data b) BSIZE (Z.lor (if write then 0 else VRING_DESC_F_WRITE) VRING_DESC_F_NEXT) 2]>
           (<[0%nat := Desc (A_ops 0) 16 VRING_DESC_F_NEXT 1]> (d_desc k))))
    (u16 (d_avail_idx k + 1))
    (<[Z.to_nat (d_avail_idx k mod Z.of_nat NUM) := 0]> (d_avail_ring k))
    (d_used_idx k) (d_used_ring k) (d_free k) (d_seen_idx k)
    (<[0%nat := Some b]> (d_info_b k)) (<[0%nat := 0xff]> (d_info_status k))
    (<[0%nat := BlkReq (if write then VIRTIO_BLK_T_OUT else VIRTIO_BLK_T_IN) 0 sector]> (d_ops k)).

Lemma alter_to {A} (v : A) f i (l : list A) : (forall x, f x = v) -> alter f i l = <[i := v]> l.
Proof.
  intros Hf. apply list_eq. intros j. destruct (decide (i = j)) as [<-|Hne].
  - rewrite list_lookup_alter_eq. destruct (l !! i) as [x|] eqn:E; simpl.
    + rewrite list_lookup_insert_eq by (by eapply lookup_lt_Some). by rewrite Hf.
    + rewrite list_insert_ge by (by apply lookup_ge_None). by rewrite E.
  - by rewrite list_lookup_alter_ne, list_lookup_insert_ne.
Qed.

Lemma virtio_submit_run b write sector h s :
  virtio_submit b write sector 0 1 2 h s =
  Done tt h (set_k_disk (submitted b write sector (k_disk s)) (set_k_bcache (upd_buf b (set_b_disk 1) (k_bcache s)) s)).
Proof.
  unfold virtio_submit, desc_set. rewrite !bind_disk_set, bind_buf_set, !bind_disk_set. rewrite disk_set_run. f_equal.
  destruct s, k_disk. unfold submitted. simpl.
  by rewrite !(alter_to _ (fun _ => _) _ _ (fun _ => eq_refl)).
Qed.

Lemma submitted_request b (write : bool) sector k fr : drv_idle k ->
  one_request (submitted b write sector (set_d_free fr k)) 0 1 2 b (if write then VIRTIO_BLK_T_OUT else VIRTIO_BLK_T_IN)
    (Z.lor (if write then 0 else VRING_DESC_F_WRITE) VRING_DESC_F_NEXT) sector.
Proof.
  intros [Hde Hav _ _ _ _ Hop (Ei & _ & Hu)]. unfold NUM in *.
  constructor; unfold submitted; cbn [set_d_free d_avail_idx d_used_idx d_avail_ring d_ops d_desc].
  - by rewrite Ei.
  - rewrite Ei. apply list_lookup_insert_eq. rewrite Hav. unfold NUM. zlia.
  - apply list_lookup_insert_eq. lia.
  - rewrite !list_lookup_insert_ne by done. apply list_lookup_insert_eq. lia.
  - rewrite list_lookup_insert_ne by done. apply list_lookup_insert_eq. rewrite length_insert. lia.
  - apply list_lookup_insert_eq. rewrite !length_insert. lia.
Qed.

Lemma interruptible_locked pr hi lk : interruptible pr hi -> (forall i, lk <> L_proc i) ->
  let g := locked lk hi in
  hart_wf hi /\ hart_wf g /\ procs_free g /\ settle g = g /\ h_proc g = h_proc hi /\ (lk ∉ h_held hi).
Proof.
  intros (Hh & Hn & Hp) Hlk g. assert (Hwf : hart_wf hi) by (constructor; rewrite ?Hh, ?Hn; simpl; [lia|lia|constructor]).
  assert (Hnl : lk ∉ h_held hi) by (rewrite Hh; apply not_elem_of_nil).
  split_and!; [done|by apply wf_locked| |by apply locked_noff|done|done].
  intros i Hi. subst g. unfold locked, pushed in Hi. simpl in Hi. rewrite Hh in Hi. apply list_elem_of_singleton in Hi.
  by destruct (Hlk i).
Qed.

(** The interrupt for the one request: the process that waits for buffer [b] is woken. *)
Lemma virtio_disk_intr_run pr hi s k b write sector : interruptible pr hi -> length (k_proc s) = NPROC -> drv_idle k ->
  (forall fr, k_disk s = served_chain 0 (submitted b write sector (set_d_free fr k)) ->
  virtio_disk_intr hi s = Done tt (settle hi)
    (set_k_disk (set_d_seen_idx (u16 (d_used_idx k + 1)) (k_disk s))
      (set_k_proc (woken (Ch_buf b) (h_proc hi) (k_proc s))
        (set_k_bcache (upd_buf b (set_b_disk 0) (k_bcache s)) s)))).
Proof.
  intros Hi Hl Hk fr Ek. destruct (interruptible_locked pr hi L_vdisk Hi ltac:(done)) as (Hwf & Hwg & Hf & Hset & Hp & Hn).
  destruct Hk as [_ _ Hus _ Hin Hst _ (Ei & Es & Hu)]. unfold virtio_disk_intr. krun (acquire_run L_vdisk hi s Hn).
  unfold disk_get. ksimpl. unfold id.
  assert (Eused : d_used_idx (k_disk s) = u16 (d_used_idx k + 1)) by (by rewrite Ek).
  assert (Eseen : d_seen_idx (k_disk s) = d_used_idx k) by (by rewrite Ek, <-Es).
  assert (Efuel : Z.to_nat (u16 (d_used_idx (k_disk s) - d_seen_idx (k_disk s))) = 1%nat).
  { rewrite Eused, Eseen. unfold u16. rewrite Zminus_mod_idemp_l. replace (d_used_idx k + 1 - d_used_idx k) with 1 by lia. done. }
  rewrite Efuel. cbn [intr_loop]. unfold disk_get. rewrite !bind_assoc, bind_gets. unfold id. rewrite Eseen, Eused.
  rewrite (proj2 (Z.eqb_neq _ _)) by (unfold u16; zlia).
  assert (E1 : d_used_ring (k_disk s) !! Z.to_nat (d_used_idx k mod Z.of_nat NUM) = Some 0)
    by (rewrite Ek; apply list_lookup_insert_eq; cbn; rewrite Hus; unfold NUM; zlia).
  assert (E2 : d_info_status (k_disk s) !! 0%nat = Some 0)
    by (rewrite Ek; apply list_lookup_insert_eq; cbn; rewrite length_insert, Hst; unfold NUM; lia).
  assert (E3 : d_info_b (k_disk s) !! 0%nat = Some (Some b))
    by (rewrite Ek; apply list_lookup_insert_eq; cbn; rewrite Hin; unfold NUM; lia).
  rewrite E1. cbn [deref Z.to_nat]. rewrite bind_assoc, bind_ret. change (Z.to_nat 0) with 0%nat. rewrite E2, E3.
  cbn [deref]. ksimpl. rewrite Z.eqb_refl. cbn [negb]. ksimpl. cbn [deref]. ksimpl.
  rewrite bind_buf_set. set (s1 := set_k_bcache _ s).
  pose proof (wakeup_run (Ch_buf b) _ s1 Hwg Hf Hl) as Ew. rewrite Hset, Hp in Ew.
  rewrite bind_assoc. krun Ew. rewrite bind_assoc, bind_disk_set. ksimpl. cbn [k_disk set_k_disk set_k_proc].
  set (s2 := set_k_disk _ _). change (k_disk s1) with (k_disk s).
  cbn [d_seen_idx set_d_seen_idx d_used_idx]. rewrite Eseen, Eused, Z.eqb_refl, bind_ret.
  rewrite (release_run L_vdisk hi) by (done || apply calm_refl). subst s2 s1. cbn [k_disk set_k_bcache set_k_proc]. by rewrite Eseen.
Qed.

(** *** Giving the descriptors back *)

Definition freed (i : nat) (k : disk_t) : disk_t :=
  set_d_free (<[i := true]> (d_free k)) (set_d_desc (<[i := Desc A_none 0 0 0]> (d_desc k)) k).

Lemma free_desc_run pr i h s : in_syscall h pr -> length (k_proc s) = NPROC -> (i < NUM)%nat ->
  d_free (k_disk s) !! i = Some false ->
  free_desc i (locked L_vdisk h) s = Done tt (locked L_vdisk h)
    (set_k_proc (woken Ch_free (Some pr) (k_proc s)) (set_k_disk (freed i (k_disk s)) s)).
Proof.
  intros Hs Hl Hi Hf. destruct (syscall_locked L_vdisk h pr Hs ltac:(done)) as (Hwf & Hpf & Hset & Hp & _).
  unfold free_desc, free_get, disk_get, desc_set, free_set. rewrite (proj2 (Nat.leb_gt _ _)) by done.
  rewrite bind_assoc, bind_gets, Hf. cbn [deref]. ksimpl. rewrite !bind_disk_set. set (s1 := set_k_disk _ _).
  pose proof (wakeup_run Ch_free _ s1 Hwf Hpf Hl) as Ew. rewrite Hset, Hp in Ew. rewrite Ew. f_equal.
  subst s1. destruct s, k_disk. unfold freed. simpl. rewrite !alter_comp.
  by erewrite (alter_to (Desc A_none 0 0 0)) by done.
Qed.

Definition after_free pr i s : kernel :=
  set_k_proc (woken Ch_free (Some pr) (k_proc s)) (set_k_disk (freed i (k_disk s)) s).

Lemma free_chain_step pr f i h s x : in_syscall h pr -> length (k_proc s) = NPROC -> (i < NUM)%nat ->
  d_free (k_disk s) !! i = Some false -> d_desc (k_disk s) !! i = Some x ->
  free_chain_loop (S f) i (locked L_vdisk h) s =
  (if truthy (Z.land (vd_flags x) VRING_DESC_F_NEXT) then free_chain_loop f (Z.to_nat (vd_next x)) else ret tt)
    (locked L_vdisk h) (after_free pr i s).
Proof.
  intros Hs Hl Hi Hf Hx. cbn [free_chain_loop]. unfold desc_get, disk_get. ksimpl. rewrite Hx. cbn [deref]. ksimpl.
  rewrite Hx. cbn [deref]. ksimpl. krun (free_desc_run pr i h s Hs Hl Hi Hf). done.
Qed.

Lemma after_free_length pr i s : length (k_proc (after_free pr i s)) = length (k_proc s).
Proof. apply length_imap. Qed.

Lemma free_chain_run pr h s x0 x1 x2 fl : in_syscall h pr -> length (k_proc s) = NPROC -> length (d_desc (k_disk s)) = NUM ->
  d_desc (k_disk s) !! 0%nat = Some (Desc x0 16 VRING_DESC_F_NEXT 1) ->
  d_desc (k_disk s) !! 1%nat = Some (Desc x1 BSIZE (Z.lor fl VRING_DESC_F_NEXT) 2) -> truthy (Z.land (Z.lor fl VRING_DESC_F_NEXT) VRING_DESC_F_NEXT) = true ->
  d_desc (k_disk s) !! 2%nat = Some (Desc x2 1 VRING_DESC_F_WRITE 0) ->
  d_free (k_disk s) = [false; false; false; true; true; true; true; true] ->
  free_chain 0 (locked L_vdisk h) s = Done tt (locked L_vdisk h) (after_free pr 2 (after_free pr 1 (after_free pr 0 s))).
Proof.
  intros Hs Hl Hn H0' H1' Ht H2' Hf. unfold free_chain, NUM.
  rewrite (free_chain_step pr _ 0 h s _ Hs Hl ltac:(unfold NUM; lia) ltac:(by rewrite Hf) H0'). cbn [vd_flags vd_next].
  change (truthy (Z.land VRING_DESC_F_NEXT VRING_DESC_F_NEXT)) with true. cbv iota. change (Z.to_nat 1) with 1%nat.
  set (s1 := after_free pr 0 s). assert (Hl1 : length (k_proc s1) = NPROC) by (by subst s1; rewrite after_free_length).
  assert (E1 : d_desc (k_disk s1) !! 1%nat = d_desc (k_disk s) !! 1%nat) by (by apply list_lookup_insert_ne).
  rewrite (free_chain_step pr _ 1 h s1 _ Hs Hl1 ltac:(unfold NUM; lia) ltac:(simpl; by rewrite Hf) ltac:(by rewrite E1)).
  cbn [vd_flags vd_next]. rewrite Ht. change (Z.to_nat 2) with 2%nat.
  set (s2 := after_free pr 1 s1). assert (Hl2 : length (k_proc s2) = NPROC) by (by subst s2; rewrite after_free_length).
  assert (E2 : d_desc (k_disk s2) !! 2%nat = d_desc (k_disk s) !! 2%nat).
  { simpl. rewrite !list_lookup_insert_ne by done. done. }
  rewrite (free_chain_step pr _ 2 h s2 _ Hs Hl2 ltac:(unfold NUM; lia) ltac:(simpl; by rewrite Hf) ltac:(by rewrite E2)).
  done.
Qed.

End driver.

(** ** A request from beginning to end *)

Section request.
Context `{Layout} `{Symbols} `{WaitPos} `{DeviceOk}.
Implicit Types (s : kernel) (h : hart) (d : disk) (C : disk -> Prop).

Lemma same_proc_refl x : same_proc x x.
Proof. done. Qed.

Lemma same_proc_trans x y z : same_proc x y -> same_proc y z -> same_proc x z.
Proof. intros [] []. constructor; congruence. Qed.

Lemma kept_refl pr s : kept pr s s.
Proof. constructor; try done. intros x Hx. exists x. split; [done|apply same_proc_refl]. Qed.

Lemma kept_trans pr s1 s2 s3 : kept pr s1 s2 -> kept pr s2 s3 -> kept pr s1 s3.
Proof.
  intros [? ? ? ? ? ? H12] [? ? ? ? ? ? H23]. constructor; try congruence. intros x Hx.
  destruct (H12 x Hx) as (y & Hy & Sxy). destruct (H23 y Hy) as (z & Hz & Syz). exists z. split; [done|]. by eapply same_proc_trans.
Qed.

(** A change of the process table that [pr] does not see. *)
Lemma kept_procs pr s s' : k_log s' = k_log s -> k_sb s' = k_sb s -> k_inode s' = k_inode s -> k_file s' = k_file s ->
  k_pm s' = k_pm s -> length (k_proc s') = length (k_proc s) ->
  (forall x, k_proc s !! pr = Some x -> exists y, k_proc s' !! pr = Some y /\ same_proc x y) -> kept pr s s'.
Proof. by constructor. Qed.

(** The buffer after a request, and the disk. *)
Definition transferred (write : bool) (b : nat) (n : Z) d (c : bcache) : bcache :=
  if write then c else upd_buf b (set_b_data (d n)) c.
Definition disk_after (write : bool) (n : Z) (v : list Z) d : disk := if write then write_block n v d else d.

Lemma upd_buf_comp b f g c : upd_buf b g (upd_buf b f c) = upd_buf b (fun x => g (f x)) c.
Proof. unfold upd_buf. simpl. by rewrite alter_comp. Qed.

Lemma upd_buf_lookup b f c x : bc_buf c !! b = Some x -> bc_buf (upd_buf b f c) !! b = Some (f x).
Proof. intros Hx. unfold upd_buf. simpl. by rewrite list_lookup_alter_eq, Hx. Qed.

Lemma upd_buf_id b f c x : bc_buf c !! b = Some x -> f x = x -> upd_buf b f c = c.
Proof.
  intros Hx Hf. unfold upd_buf. destruct c as [bs hn hp]. unfold set_bc_buf. simpl in *. f_equal.
  apply list_eq. intros j. destruct (decide (b = j)) as [<-|Hne].
  - rewrite list_lookup_alter_eq, Hx. simpl. by rewrite Hf.
  - by rewrite list_lookup_alter_ne.
Qed.

Lemma disk_wait_wp pr C h s d b x y k fr (write : bool) n f Q :
  in_syscall h pr -> length (k_proc s) = NPROC -> k_proc s !! pr = Some y -> drv_idle k ->
  k_disk s = submitted b write (n * 2) (set_d_free fr k) -> bc_buf (k_bcache s) !! b = Some x -> b_disk x = 1 ->
  C d -> let d' := disk_after write n (b_data x) d in
  (forall h' s', in_syscall h' pr -> kept pr s s' ->
    k_disk s' = set_d_seen_idx (u16 (d_used_idx k + 1)) (served_chain 0 (k_disk s)) ->
    k_bcache s' = upd_buf b (set_b_disk 0) (transferred write b n d (k_bcache s)) -> C d' /\ Q tt (locked L_vdisk h') s' d') ->
  wp pr C (disk_wait (S f) b (locked L_vdisk h) s) d Q.
Proof.
  intros Hs Hl Hy Hk Ek Hx Hd HC d' HQ. destruct (syscall_locked L_vdisk h pr Hs ltac:(done)) as (_ & _ & _ & Hp & Hh & Hn & Hsie).
  cbn [disk_wait]. rewrite (bind_buf_get _ _ _ _ _ _ Hx), Hd. change (negb (1 =? 1)) with false. cbv iota.
  destruct (sleep_run (Ch_buf b) L_vdisk pr y (locked L_vdisk h) s Hp Hh Hn Hsie ltac:(done) Hy) as (g & kk & Esl & Ha & Hkk).
  krun Esl. cbn [wp]. split_and!; [done|done|]. intros hi Hi. set (s1 := upd_proc pr _ s).
  set (s2 := set_k_disk (served_chain 0 (k_disk s)) (set_k_bcache (transferred write b n d (k_bcache s)) s1)).
  assert (Edev : device s1 d = (s2, d')).
  { pose proof (submitted_request b write (n * 2) k fr Hk) as Hrq. rewrite <-Ek in Hrq.
    unfold s2, d', transferred, disk_after. assert (En : n * 2 / 2 = n) by (apply Z.div_mul; lia). destruct write.
    - rewrite (device_writes s1 d 0 1 2 b (n * 2) x Hrq Hx), En. by destruct s.
    - by rewrite (device_reads s1 d 0 1 2 b (n * 2) Hrq), En. }
  rewrite Edev. cbn [fst snd].
  assert (Hl2 : length (k_proc s2) = NPROC) by (simpl; by rewrite length_alter).
  pose proof (virtio_disk_intr_run pr hi s2 k b write (n * 2) Hi Hl2 Hk fr) as Ei.
  do 2 eexists. split; [apply Ei; unfold s2; simpl; by rewrite Ek|]. clear Ei.
  set (y2 := set_p_state RUNNABLE (set_p_state SLEEPING (set_p_chan (Some (Ch_buf b)) y))).
  assert (Hy2 : woken (Ch_buf b) (h_proc hi) (k_proc s2) !! pr = Some y2).
  { unfold woken. rewrite list_lookup_imap. simpl. rewrite list_lookup_alter_eq, Hy. simpl. unfold wake_one.
    destruct Hi as (_ & _ & Hi). by rewrite !bool_decide_eq_true_2 by done. }
  split; [simpl; simpl in Hy2; by rewrite Hy2|]. intros h3 s3 H3' [[K1 K2 K3 K4 K5 K6 K7] Kb Kd].
  krun (Hkk h3 s3 H3'). destruct (K7 y2 Hy2) as (y3 & Hy3 & Sy).
  assert (Hx3 : exists x3, bc_buf (k_bcache (upd_proc pr (set_p_chan None) s3)) !! b = Some x3 /\ b_disk x3 = 0).
  { simpl. rewrite Kb. simpl. unfold transferred. destruct write; [|unfold upd_buf; simpl; rewrite alter_comp];
      rewrite list_lookup_alter_eq, Hx; eexists; split; done. }
  destruct Hx3 as (x3 & Hx3 & Hd3).
  replace (disk_wait f b) with (bind (buf_get b b_disk) (fun dk => if negb (dk =? 1) then ret tt else
    match f with O => nofuel | S f => sleep (Ch_buf b) L_vdisk;; disk_wait f b end)) by (by destruct f).
  rewrite (bind_buf_get _ _ _ _ _ _ Hx3), Hd3. change (negb (0 =? 1)) with true. cbv iota. cbn [ret wp].
  apply HQ.
  - destruct H3' as (Hp3 & _). split_and!; [done|done|done].
  - constructor; simpl in *; rewrite ?length_alter; try done.
    + rewrite K6. unfold woken. by rewrite length_imap, length_alter.
    + intros y' Hy'. rewrite Hy in Hy'. injection Hy' as <-. exists (set_p_chan None y3).
      rewrite list_lookup_alter_eq, Hy3. split; [done|]. by destruct Sy.
  - done.
  - done.
Qed.

Lemma kept_disk pr s k : kept pr s (set_k_disk k s).
Proof. constructor; try done. intros x Hx. exists x. split; [done|apply same_proc_refl]. Qed.

Lemma kept_woken pr ch s : kept pr s (set_k_proc (woken ch (Some pr) (k_proc s)) s).
Proof.
  constructor; try done; simpl; [apply length_imap|]. intros x Hx. exists x. rewrite woken_me. split; [done|apply same_proc_refl].
Qed.

Lemma after_free_kept pr i s : kept pr s (after_free pr i s).
Proof. apply (kept_trans _ _ (set_k_disk (freed i (k_disk s)) s)); [apply kept_disk|apply (kept_woken pr Ch_free (set_k_disk _ s))]. Qed.

Lemma kept_bcache pr s c : kept pr s (set_k_bcache c s).
Proof. constructor; try done. intros x Hx. exists x. split; [done|apply same_proc_refl]. Qed.

(** The driver once the request is over. *)
Lemma finished_idle k b (write : bool) sector : drv_idle k ->
  let fr := [false; false; false; true; true; true; true; true] in
  let k1 := set_d_seen_idx (u16 (d_used_idx k + 1)) (served_chain 0 (submitted b write sector (set_d_free fr k))) in
  drv_idle (freed 2 (freed 1 (freed 0 (set_d_info_b (<[0%nat := None]> (d_info_b k1)) k1)))).
Proof.
  intros [Hde Hav Hus _ Hin Hst Hop (Ei & Es & Hu)] fr k1. constructor; simpl; rewrite ?length_insert; try done.
  rewrite Ei. split_and!; [done|done|apply Z.mod_pos_bound; lia|apply Z.mod_pos_bound; lia].
Qed.

Lemma virtio_disk_rw_wp pr C h s d b x y (write : bool) Q :
  in_syscall h pr -> length (k_proc s) = NPROC -> k_proc s !! pr = Some y -> drv_idle (k_disk s) ->
  bc_buf (k_bcache s) !! b = Some x -> b_disk x = 0 -> 0 <= b_blockno x < 2 ^ 31 ->
  C d -> let d' := disk_after write (b_blockno x) (b_data x) d in
  (forall h' s', in_syscall h' pr -> kept pr s s' -> drv_idle (k_disk s') ->
    k_bcache s' = transferred write b (b_blockno x) d (k_bcache s) -> C d' /\ Q tt h' s' d') ->
  wp pr C (virtio_disk_rw b write h s) d Q.
Proof.
  intros Hs Hl Hy Hk Hx Hd Hn HC d' HQ. pose proof wait_pos as Hw. set (k := k_disk s) in *. set (n := b_blockno x) in *. unfold virtio_disk_rw.
  rewrite (bind_buf_get _ _ _ _ _ _ Hx). fold n. replace (u32 (n * (BSIZE / 512))) with (n * 2) by (symmetry; apply u32_id; simpl; lia).
  krun (acquire_run L_vdisk h s (in_syscall_notin _ _ _ Hs)).
  assert (Ea : forall f, alloc3_wait f (locked L_vdisk h) s = Done (0%nat, 1%nat, 2%nat) (locked L_vdisk h)
    (set_k_disk (set_d_free [false; false; false; true; true; true; true; true] k) s)).
  { intros f. destruct f; cbn [alloc3_wait]; by krun (alloc3_run (locked L_vdisk h) s Hk). }
  krun (Ea wait_fuel). set (fr := [false; false; false; true; true; true; true; true]). set (s0 := set_k_disk _ s).
  krun (virtio_submit_run b write (n * 2) (locked L_vdisk h) s0). set (s1 := set_k_disk _ _).
  destruct wait_fuel as [|f]; [lia|]. apply wp_bind.
  eapply (disk_wait_wp pr C h s1 d b (set_b_disk 1 x) y k fr write n f); try done.
  { simpl. by rewrite list_lookup_alter_eq, Hx. }
  intros h' s' Hs' Kp Ek Eb. rewrite bind_disk_set. set (s2 := set_k_disk _ s').
  assert (Hl' : length (k_proc s') = NPROC) by (by rewrite (kp_len _ _ _ Kp)).
  pose proof (submitted_request b write (n * 2) k fr Hk) as [_ _ _ R0 R1 R2].
  assert (Edesc : d_desc (k_disk s2) = d_desc (submitted b write (n * 2) (set_d_free fr k))) by (simpl; by rewrite Ek).
  assert (Ef : free_chain 0 (locked L_vdisk h') s2 = Done tt (locked L_vdisk h') (after_free pr 2 (after_free pr 1 (after_free pr 0 s2)))).
  { apply (free_chain_run pr h' s2 (A_ops 0) (A_data b) (A_status 0) (if write then 0 else VRING_DESC_F_WRITE) Hs' Hl');
      rewrite ?Edesc; [|done|done|by destruct write|done|simpl; by rewrite Ek].
    cbn. rewrite !length_insert. apply Hk. }
  krun Ef. set (s3 := after_free pr 2 _).
  rewrite (release_run L_vdisk h' _ s3 (in_syscall_wf _ _ Hs') (in_syscall_notin _ _ _ Hs') (calm_refl _)). cbn [wp].
  assert (HQ3 : C d' /\ Q tt (settle h') s3 d'); [|by split; [apply HQ3|]].
  apply HQ; [by apply in_syscall_settle| | |].
  - eapply kept_trans; [apply (kept_disk pr s)|]. eapply kept_trans; [|eapply kept_trans; [exact Kp|]].
    + eapply kept_trans; [apply kept_bcache|apply kept_disk].
    + eapply kept_trans; [apply kept_disk|]. do 2 (eapply kept_trans; [apply after_free_kept|]). apply after_free_kept.
  - subst s3 s2. unfold after_free. cbn [k_disk set_k_disk set_k_proc]. rewrite Ek. by apply (finished_idle k b write (n * 2)).
  - change (k_bcache s3) with (k_bcache s'). rewrite Eb. cbn [s1 s0 k_bcache set_k_disk set_k_bcache]. unfold transferred. destruct write.
    + rewrite upd_buf_comp. apply (upd_buf_id b _ _ x Hx). destruct x. simpl in *. by subst.
    + rewrite !upd_buf_comp. unfold upd_buf. f_equal.
      apply list_eq. intros j. destruct (decide (b = j)) as [<-|Hne]; [|by rewrite !list_lookup_alter_ne].
      rewrite !list_lookup_alter_eq, Hx. simpl. f_equal. destruct x. simpl in *. by subst.
Qed.

End request.
