(* ===== verification/BlockIO.v ===== *)
(** * BlockIO

    What the buffer cache of kernel/bio.c gives the code above it, in the logic of
    Storage: every block has one current contents, its view. bread hands out the
    buffer of a block, locked and with the view of the block in it; what is stored in
    a buffer that is held becomes the view; bwrite makes the disk agree with it; a
    buffer may only be given back when the disk agrees with it or the block is pinned. *)
From stdpp Require Import base tactics list numbers gmap strings.
From S2P Require Import Prelude Machine Spinlock Printf Bytes Block Queue Kalloc Vm Kernel Proc ProcFacts.
From S2P Require Import Sleeplock Virtio Bio Log Discipline ProcProps BioProps Storage.

Section io.
Context `{Layout} `{Symbols} `{WaitPos} `{DeviceOk} `{DiskDev}.
#[local] Abbreviation dev := disk_dev.
Implicit Types (s : kernel) (h : hart) (d v : disk) (C : disk -> Prop) (G : list (nat * Z)) (P : list Z) (b : nat) (x : buf_t) (n : Z).

(** Buffer [b] when the buffers [G] are held by the process with pid [pid] and the
    blocks [P] are pinned. *)
Record used_buf (pid : Z) v G P b x : Prop := {
  ub_dev : b_dev x = dev;
  ub_valid : b_valid x = 1;
  ub_data : b_data x = v (b_blockno x);
  ub_range : 0 <= b_blockno x < 2 ^ 31;
  ub_refcnt : b_refcnt x = (if decide (b ∈ G.*1) then 1 else 0) + (if decide (b_blockno x ∈ P) then 1 else 0);
  ub_lock : if decide (b ∈ G.*1) then sl_locked (b_lock x) = 1 /\ sl_pid (b_lock x) = pid else sl_locked (b_lock x) = 0;
}.
Record unused_buf G b x : Prop := {
  nb_dev : b_dev x = 0;
  nb_free : b ∉ G.*1;
  nb_refcnt : b_refcnt x = 0;
  nb_lock : sl_locked (b_lock x) = 0;
}.
Definition buf_ok pid v G P b x : Prop := b_disk x = 0 /\ (unused_buf G b x \/ used_buf pid v G P b x).

(** Block [n] is in buffer [b]. *)
Definition buffered s b n : Prop := exists x, bc_buf (k_bcache s) !! b = Some x /\ b_dev x = dev /\ b_blockno x = n.

Record io_ok (pr : nat) s d v G P : Prop := {
  io_procs : length (k_proc s) = NPROC;
  io_idle : drv_idle (k_disk s);
  io_lru : exists l, lru (k_bcache s) l /\ l ≡ₚ upto NBUF;
  io_one : one_per_block (k_bcache s);
  io_bufs : exists y, k_proc s !! pr = Some y /\
    forall b x, bc_buf (k_bcache s) !! b = Some x -> buf_ok (p_pid y) v G P b x;
  io_held : forall b n, (b, n) ∈ G -> buffered s b n;
  io_pins : forall n, n ∈ P -> exists b, buffered s b n;
  io_clean : forall n, n ∉ P -> n ∉ G.*2 -> v n = d n;
  io_len : disk_ok v /\ disk_ok d;
  io_nodup : NoDup G.*1 /\ NoDup G.*2 /\ NoDup P;
}.

Lemma io_perm pr s d v G G' P P' : G ≡ₚ G' -> P ≡ₚ P' -> io_ok pr s d v G P -> io_ok pr s d v G' P'.
Proof.
  intros EG EP [? ? ? ? (y & Hy & Hb) Hh Hp Hc ? (N1 & N2 & N3)].
  assert (HG : forall b, b ∈ G.*1 <-> b ∈ G'.*1) by (intros b; by rewrite EG).
  assert (HP : forall n, n ∈ P <-> n ∈ P') by (intros n; by rewrite EP). constructor; try done.
  - exists y. split; [done|]. intros b x Hx. destruct (Hb b x Hx) as [Hd [[? Hf ? ?]|[? ? ? ? Hr Hl]]]; (split; [done|]); [left|right];
      constructor; try done.
    + by rewrite <-HG.
    + rewrite Hr. f_equal; by apply decide_ext.
    + rewrite <-(decide_ext _ _ _ _ (HG b)). exact Hl.
  - intros b n. rewrite <-EG. apply Hh.
  - intros n. rewrite <-HP. apply Hp.
  - intros n. rewrite <-HP, <-EG. apply Hc.
  - by rewrite <-EG, <-EP.
Qed.

Lemma io_view pr s d v v' G P : (forall m, v' m = v m) -> io_ok pr s d v G P -> io_ok pr s d v' G P.
Proof.
  intros E [I1 I2 I3 I4 (y & Hy & Hb) I6 I7 I8 [I9 I10] I11]. constructor; try done.
  - exists y. split; [done|]. intros b x Hx. destruct (Hb b x Hx) as [Hd [Hn|[U1 U2 U3 U4 U5 U6]]]; (split; [done|]); [by left|right].
    constructor; try done. by rewrite E.
  - intros n Hn Hg. rewrite E. by apply I8.
  - split; [|done]. intros n. by rewrite E.
Qed.

(** The buffer of a block. *)
Lemma io_buf pr s d v G P b n : io_ok pr s d v G P -> buffered s b n ->
  exists x y, bc_buf (k_bcache s) !! b = Some x /\ k_proc s !! pr = Some y /\ b_disk x = 0 /\ used_buf (p_pid y) v G P b x /\ b_blockno x = n.
Proof.
  intros [_ _ _ _ (y & Hy & Hb) _ _ _ _ _] (x & Hx & Hd & Hn). exists x, y. pose proof disk_dev_ne.
  destruct (Hb b x Hx) as [? [[]|?]]; [congruence|].
  split_and!; done.
Qed.

Lemma in_fst G b n : (b, n) ∈ G -> b ∈ G.*1.
Proof. intros Hi. apply (list_elem_of_fmap_2 fst _ _ Hi). Qed.

Lemma in_snd G b n : (b, n) ∈ G -> n ∈ G.*2.
Proof. intros Hi. apply (list_elem_of_fmap_2 snd _ _ Hi). Qed.

Lemma used_free pid v G P b x : used_buf pid v G P b x -> b ∉ G.*1 ->
  b_refcnt x = (if decide (b_blockno x ∈ P) then 1 else 0) /\ sl_locked (b_lock x) = 0.
Proof. intros [_ _ _ _ U5 U6] Hf. rewrite decide_False in U5 by done. destruct (decide (b ∈ G.*1)); [done|]. split; [lia|done]. Qed.

Lemma used_held pid v G P b x : used_buf pid v G P b x -> b ∈ G.*1 ->
  b_refcnt x = 1 + (if decide (b_blockno x ∈ P) then 1 else 0) /\ sl_locked (b_lock x) = 1 /\ sl_pid (b_lock x) = pid.
Proof. intros [_ _ _ _ U5 U6] Hf. rewrite decide_True in U5 by done. destruct (decide (b ∈ G.*1)); [|done]. split; [lia|done]. Qed.

Lemma used_intro_held pid v G P b n x : b_dev x = dev -> b_valid x = 1 -> b_data x = v (b_blockno x) -> 0 <= b_blockno x < 2 ^ 31 ->
  b_refcnt x = 1 + (if decide (b_blockno x ∈ P) then 1 else 0) -> sl_locked (b_lock x) = 1 -> sl_pid (b_lock x) = pid ->
  (b, n) ∈ G -> used_buf pid v G P b x.
Proof.
  intros. assert (b ∈ G.*1) by (by eapply in_fst). constructor; try done.
  - by rewrite (decide_True _ _ (P := b ∈ G.*1)).
  - by destruct (decide (b ∈ G.*1)).
Qed.

(** A buffer that is held holds one block. *)
Lemma io_held_block pr s d v G P b x : io_ok pr s d v G P -> bc_buf (k_bcache s) !! b = Some x -> b ∈ G.*1 ->
  (b, b_blockno x) ∈ G.
Proof.
  intros Hio Hx ([b' n] & -> & Hi)%list_elem_of_fmap. destruct (io_held _ _ _ _ _ _ Hio _ _ Hi) as (x' & Hx' & _ & <-).
  simpl in *. by replace x with x' by congruence.
Qed.

(** ** Setting the data of a buffer *)

Lemma data_get_run {A} b x (f : list Z -> A) h s : bc_buf (k_bcache s) !! b = Some x -> data_get b f h s = Done (f (b_data x)) h s.
Proof. intros Hx. unfold data_get, buf_get, bind, gets. simpl. by rewrite Hx. Qed.

Lemma data_set_run b f h s : data_set b f h s = Done tt h (set_k_bcache (upd_buf b (fun x => set_b_data (f (b_data x)) x) (k_bcache s)) s).
Proof. done. Qed.

Lemma one_upd b f c : (forall x, b_dev (f x) = b_dev x) -> (forall x, b_blockno (f x) = b_blockno x) ->
  one_per_block c -> one_per_block (upd_buf b f c).
Proof.
  intros Hd Hn Ho i j x y Hi Hj. unfold upd_buf in *. simpl in *.
  assert (Hf : forall j y, alter f b (bc_buf c) !! j = Some y ->
    exists y', bc_buf c !! j = Some y' /\ b_dev y' = b_dev y /\ b_blockno y' = b_blockno y).
  { intros j' y' Hj'. destruct (decide (b = j')) as [<-|Hne]; [|rewrite list_lookup_alter_ne in Hj' by done; eauto].
    rewrite list_lookup_alter_eq in Hj'. apply fmap_Some in Hj' as (z & Hz & ->). exists z. by rewrite Hd, Hn. }
  destruct (Hf _ _ Hi) as (x' & Hx' & <- & <-). destruct (Hf _ _ Hj) as (y' & Hy' & <- & <-). by eapply Ho.
Qed.

(** ** Changing one buffer *)

Lemma buf_ok_unlinked pid v G P b x x' : unlinked x' = unlinked x -> buf_ok pid v G P b x -> buf_ok pid v G P b x'.
Proof.
  intros E. assert (b_disk x' = b_disk x /\ b_dev x' = b_dev x /\ b_blockno x' = b_blockno x /\ b_valid x' = b_valid x /\
    b_data x' = b_data x /\ b_refcnt x' = b_refcnt x /\ b_lock x' = b_lock x) as (E1 & E2 & E3 & E4 & E5 & E6 & E7).
  { destruct x, x'. by injection E as -> -> -> -> -> -> ->. }
  intros [Hd [[]|[]]]; (split; [congruence|]); [left|right]; constructor; try congruence.
  - by rewrite E6, E3.
  - by rewrite E7.
Qed.

Lemma buf_ok_frame pid v v' G G' P P' b x : buf_ok pid v G P b x -> (b ∈ G.*1 <-> b ∈ G'.*1) ->
  (b_dev x = dev -> v' (b_blockno x) = v (b_blockno x) /\ (b_blockno x ∈ P <-> b_blockno x ∈ P')) -> buf_ok pid v' G' P' b x.
Proof.
  intros [Hd [[? Hf ? ?]|[Hdev ? Hda ? Hr Hl]]] HG Hx; (split; [done|]); [left|right]; constructor; try done.
  - by rewrite <-HG.
  - destruct (Hx Hdev) as [-> _]. done.
  - rewrite Hr. destruct (Hx Hdev) as [_ HP]. f_equal; by apply decide_ext.
  - rewrite <-(decide_ext _ _ _ _ HG). exact Hl.
Qed.

(** [s'] has the buffers of [s] up to the links, but [x'] for [b]. *)
Definition rebuffered s b x' s' : Prop := same_bufs (upd_buf b (fun _ => x') (k_bcache s)) (k_bcache s').

Lemma rebuffered_at s b x x' s' : rebuffered s b x' s' -> bc_buf (k_bcache s) !! b = Some x ->
  exists x'', bc_buf (k_bcache s') !! b = Some x'' /\ unlinked x'' = unlinked x'.
Proof.
  intros E Hx. assert (El : (unlinked <$> bc_buf (k_bcache s')) !! b = Some (unlinked x')).
  { rewrite E, list_lookup_fmap. unfold upd_buf. simpl. by rewrite list_lookup_alter_eq, Hx. }
  rewrite list_lookup_fmap in El. by apply fmap_Some in El as (x'' & ? & ?); eauto.
Qed.

Lemma rebuffered_ne s b x' s' c z : rebuffered s b x' s' -> c <> b -> bc_buf (k_bcache s') !! c = Some z ->
  exists z', bc_buf (k_bcache s) !! c = Some z' /\ unlinked z = unlinked z'.
Proof.
  intros E Hne Hz. assert (El : (unlinked <$> bc_buf (k_bcache s')) !! c = Some (unlinked z)) by (by rewrite list_lookup_fmap, Hz).
  rewrite E, list_lookup_fmap in El. unfold upd_buf in El. simpl in El. rewrite list_lookup_alter_ne in El by done.
  apply fmap_Some in El as (z' & ? & ?). eauto.
Qed.

Lemma rebuffered_ne' s b x' s' c z : rebuffered s b x' s' -> c <> b -> bc_buf (k_bcache s) !! c = Some z ->
  exists z', bc_buf (k_bcache s') !! c = Some z' /\ unlinked z' = unlinked z.
Proof.
  intros E Hne Hz. assert (El : (unlinked <$> bc_buf (k_bcache s')) !! c = Some (unlinked z)).
  { rewrite E, list_lookup_fmap. unfold upd_buf. simpl. by rewrite list_lookup_alter_ne, Hz. }
  rewrite list_lookup_fmap in El. apply fmap_Some in El as (z' & ? & ?). eauto.
Qed.

Lemma unlinked_key x x' : unlinked x' = unlinked x -> b_dev x' = b_dev x /\ b_blockno x' = b_blockno x.
Proof. destruct x, x'. by injection 1 as -> -> -> -> -> -> ->. Qed.

(** What has to hold of the other buffers, the views and the pins when buffer [b] is to
    hold block [n]. *)
Record changes b n v v' G G' P P' : Prop := {
  ch_held : forall c, c <> b -> (c ∈ G.*1 <-> c ∈ G'.*1);
  ch_view : forall m, m <> n -> v' m = v m;
  ch_pins : forall m, m <> n -> (m ∈ P <-> m ∈ P');
  ch_in : forall c m, (c, m) ∈ G' -> (c, m) ∈ G /\ c <> b \/ (c, m) = (b, n);
}.

Lemma io_change pr s s' d d' v v' G G' P P' b x x' n y :
  io_ok pr s d v G P -> kept pr s s' -> drv_idle (k_disk s') -> (exists l, lru (k_bcache s') l /\ l ≡ₚ upto NBUF) ->
  bc_buf (k_bcache s) !! b = Some x ->
  (forall c z, c <> b -> bc_buf (k_bcache s) !! c = Some z -> b_dev z = dev -> b_blockno z <> n) ->
  (b_dev x = dev -> b_blockno x <> n -> b_blockno x ∉ P) ->
  rebuffered s b x' s' -> b_blockno x' = n -> b_disk x' = 0 -> k_proc s' !! pr = Some y -> used_buf (p_pid y) v' G' P' b x' ->
  changes b n v v' G G' P P' ->
  (forall m, m ∉ P' -> m ∉ G'.*2 -> v' m = d' m) -> length (v' n) = Z.to_nat BSIZE -> disk_ok d' ->
  NoDup G'.*1 /\ NoDup G'.*2 /\ NoDup P' -> io_ok pr s' d' v' G' P'.
Proof.
  intros Hio [_ _ _ _ _ Kl Kp] Hidle Hlru Hx Hother Hold Hre Hn Hd Hy Hok [CG Cv CP Cin] Hclean Hlen Hdlen Hnd.
  destruct Hio as [Hprocs _ _ Hone (y0 & Hy0 & Hb) Hheld Hpins _ Hlen0 _].
  destruct (Kp y0 Hy0) as (y1 & Hy1 & [Epid _ _ _ _ _]). replace y1 with y in * by congruence.
  destruct (rebuffered_at s b x x' s' Hre Hx) as (x2 & Hx2 & Ex2). destruct (unlinked_key _ _ Ex2) as [Ed2 En2].
  assert (Hbx : buffered s' b n) by (exists x2; split_and!; [done|rewrite Ed2; apply Hok|congruence]).
  assert (Hkeep : forall c m, c <> b -> buffered s c m -> buffered s' c m).
  { intros c m Hne (z & Hz & Hzd & Hzn). destruct (rebuffered_ne' s b x' s' c z Hre Hne Hz) as (z' & Hz' & E).
    destruct (unlinked_key _ _ E) as [E1 E2]. exists z'. split_and!; [done|congruence|congruence]. }
  constructor; try done.
  - congruence.
  - intros i j z1 z2 Hi Hj Hz1 Ed En. destruct (decide (i = b)) as [->|Hib], (decide (j = b)) as [->|Hjb]; [done|..].
    + exfalso. replace z1 with x2 in * by congruence. destruct (rebuffered_ne s b x' s' j z2 Hre Hjb Hj) as (z & Hz & E).
      destruct (unlinked_key _ _ E). pose proof (ub_dev _ _ _ _ _ _ Hok). apply (Hother j z Hjb Hz); congruence.
    + exfalso. replace z2 with x2 in * by congruence. destruct (rebuffered_ne s b x' s' i z1 Hre Hib Hi) as (z & Hz & E).
      destruct (unlinked_key _ _ E). pose proof (ub_dev _ _ _ _ _ _ Hok). apply (Hother i z Hib Hz); congruence.
    + destruct (rebuffered_ne s b x' s' i z1 Hre Hib Hi) as (z1' & Hz1' & E1), (rebuffered_ne s b x' s' j z2 Hre Hjb Hj) as (z2' & Hz2' & E2).
      destruct (unlinked_key _ _ E1), (unlinked_key _ _ E2). eapply (Hone i j z1' z2'); congruence.
  - exists y. split; [done|]. intros c z Hz. destruct (decide (c = b)) as [->|Hne].
    + replace z with x2 by congruence. eapply buf_ok_unlinked; [exact Ex2|]. split; [done|by right].
    + destruct (rebuffered_ne s b x' s' c z Hre Hne Hz) as (z' & Hz' & E). eapply buf_ok_unlinked; [exact E|].
      rewrite Epid. eapply buf_ok_frame; [by apply Hb|by apply CG|]. intros Hzd. pose proof (Hother c z' Hne Hz' Hzd). auto.
  - intros c m Hcm. destruct (Cin c m Hcm) as [[Hin Hne]|[= -> ->]]; [|done]. by apply Hkeep, Hheld.
  - intros m Hm. destruct (decide (m = n)) as [->|Hmn]; [by exists b|]. apply CP in Hm; [|done].
    destruct (Hpins m Hm) as (c & Hc). exists c. apply Hkeep; [|done]. intros ->. destruct Hc as (z & Hz & Hzd & Hzn).
    replace z with x in * by congruence. by apply (Hold Hzd); congruence.
  - split; [|done]. intros m. destruct (decide (m = n)) as [->|Hmn]; [done|]. rewrite Cv by done. apply Hlen0.
Qed.

Lemma upd_buf_const b f c x : bc_buf c !! b = Some x -> upd_buf b f c = upd_buf b (fun _ => f x) c.
Proof.
  intros Hx. unfold upd_buf. f_equal. apply list_eq. intros j. destruct (decide (b = j)) as [<-|Hne].
  - by rewrite !list_lookup_alter_eq, Hx.
  - by rewrite !list_lookup_alter_ne.
Qed.

Lemma rebuffered_upd s b x f s' : bc_buf (k_bcache s) !! b = Some x -> k_bcache s' = upd_buf b f (k_bcache s) -> rebuffered s b (f x) s'.
Proof. intros Hx E. unfold rebuffered. by rewrite E, (upd_buf_const b f _ x Hx). Qed.

(** ** bread *)

Definition lock_by (pid : Z) x : buf_t := set_b_lock (set_sl_pid pid (set_sl_locked 1 (b_lock x))) x.

Lemma acquiresleep_run b h s pr x y :
  in_syscall h pr -> k_proc s !! pr = Some y -> bc_buf (k_bcache s) !! b = Some x -> sl_locked (b_lock x) = 0 ->
  acquiresleep (SL_buf b) h s = Done tt (settle h) (set_k_bcache (upd_buf b (lock_by (p_pid y)) (k_bcache s)) s).
Proof.
  intros Hs Hy Hx Hl. destruct (syscall_locked (L_buf b) h pr Hs ltac:(done)) as (Hwf & Hf & Hset & Hp & _).
  unfold acquiresleep. krun (acquire_run (L_buf b) h s (in_syscall_notin _ _ _ Hs)).
  assert (Ea : forall f, acquiresleep_loop f (SL_buf b) (locked (L_buf b) h) s = Done tt (locked (L_buf b) h) s).
  { intros f. destruct f; cbn [acquiresleep_loop sl_get]; by rewrite (bind_buf_get _ _ _ _ _ _ Hx), Hl. }
  krun (Ea wait_fuel). simpl sl_set. rewrite bind_buf_set. set (s1 := set_k_bcache _ s).
  pose proof (curproc_run _ s1 pr Hwf Hp) as Ec. rewrite Hset in Ec. krun Ec.
  rewrite (bind_pget _ _ _ _ s1 y Hy), bind_buf_set.
  rewrite (release_run _ h); [|by eapply in_syscall_wf|by eapply in_syscall_notin|apply calm_refl].
  f_equal. unfold s1, upd_buf. simpl. by rewrite alter_comp.
Qed.

(** A buffer is left as long as not all are held or pinned. *)
Lemma io_spare pr s d v G P l : io_ok pr s d v G P -> (length G + length P < NBUF)%nat -> l ≡ₚ upto NBUF ->
  exists b, List.find (unused (k_bcache s)) (reverse l) = Some b.
Proof.
  intros Hio Hlt Hl. destruct (List.find _ _) as [b|] eqn:E; [by exists b|]. exfalso.
  pose proof Hio as [_ _ (l0 & L & _) Hone (y & Hy & Hb) _ _ _ _ _].
  assert (Hall : forall b, (b < NBUF)%nat -> exists x, bc_buf (k_bcache s) !! b = Some x /\ b_dev x = dev /\
    (b ∉ G.*1 -> b_blockno x ∈ P)).
  { intros b Hlt'. destruct (lookup_lt_is_Some_2 (bc_buf (k_bcache s)) b) as [x Hx]; [by rewrite (lru_len _ _ L)|].
    assert (Hin : b ∈ reverse l) by (by rewrite elem_of_reverse, Hl, elem_of_upto).
    pose proof (find_none _ _ E b (proj1 (list_elem_of_In _ _) Hin)) as Hu. unfold unused in Hu. rewrite Hx in Hu.
    exists x. split; [done|]. destruct (Hb b x Hx) as [_ [[]|[]]]; [by rewrite nb_refcnt0 in Hu|].
    split; [done|]. intros Hg. rewrite decide_False in ub_refcnt0 by done. apply Z.eqb_neq in Hu.
    destruct (decide (b_blockno x ∈ P)); [done|lia]. }
  set (blk := fun b => match bc_buf (k_bcache s) !! b with Some x => b_blockno x | None => 0 end).
  set (rest := filter (fun b => b ∉ G.*1) (upto NBUF)).
  assert (Hrest : (length rest <= length P)%nat).
  { rewrite <-(length_fmap blk rest). apply submseteq_length, NoDup_submseteq.
    - apply NoDup_fmap_2_strong; [|apply NoDup_filter, NoDup_upto]. intros i j Hi Hj Eij. unfold rest in Hi, Hj.
      apply list_elem_of_filter in Hi as [_ Hi%elem_of_upto], Hj as [_ Hj%elem_of_upto].
      destruct (Hall i Hi) as (xi & Ei & Di & _), (Hall j Hj) as (xj & Ej & Dj & _). unfold blk in Eij. rewrite Ei, Ej in Eij.
      pose proof disk_dev_ne. by eapply (Hone i j xi xj); congruence.
    - intros m (b & -> & Hi)%list_elem_of_fmap. apply list_elem_of_filter in Hi as [Hg Hi%elem_of_upto].
      destruct (Hall b Hi) as (x & Ex & _ & Hp). unfold blk. rewrite Ex. auto. }
  assert (Hsub : (length (upto NBUF) <= length (G.*1 ++ rest))%nat).
  { apply submseteq_length, NoDup_submseteq; [apply NoDup_upto|]. intros b Hbi. apply elem_of_app.
    destruct (decide (b ∈ G.*1)); [by left|]. right. by apply list_elem_of_filter. }
  rewrite length_app, length_fmap in Hsub. unfold upto in Hsub. rewrite length_seq in Hsub. lia.
Qed.

Lemma changes_hold b n v G P : n ∉ G.*2 -> b ∉ G.*1 -> changes b n v v G ((b, n) :: G) P P.
Proof.
  intros Hn Hb. constructor; try done.
  - intros c Hc. rewrite fmap_cons, elem_of_cons. simpl. tauto.
  - intros c m [E|Hi]%elem_of_cons; [by right|left]. split; [done|]. intros ->. apply Hb. by eapply in_fst.
Qed.

(** The block is in buffer [b], which is free. *)
Lemma bread_cached_wp pr C h s d v G P b n Q : in_syscall h pr -> io_ok pr s d v G P -> n ∉ G.*2 -> buffered s b n -> C d ->
  (forall h' s', in_syscall h' pr -> kept pr s s' -> io_ok pr s' d v ((b, n) :: G) P -> Q b h' s' d) ->
  wp pr C ((b <- (acquiresleep (SL_buf b);; ret b);;
    valid <- buf_get b b_valid;;
    when (valid =? 0) (virtio_disk_rw b false;; buf_set b (set_b_valid 1));; ret b)
    (settle h) (set_k_bcache (upd_buf b grabbed (k_bcache s)) s)) d Q.
Proof.
  intros Hs Hio Hn Hbn HC HQ. destruct (io_buf _ _ _ _ _ _ _ _ Hio Hbn) as (x & y & Hx & Hy & Hd & HU & En). pose proof HU as [U1 U2 U3 U4 _ _].
  assert (Hfree : b ∉ G.*1).
  { intros Hb. apply Hn. rewrite <-En. eapply in_snd. by eapply io_held_block. }
  destruct (used_free _ _ _ _ _ _ HU Hfree) as [U5 U6]. pose proof (in_syscall_settle _ _ Hs) as Hs'.
  assert (Hx1 : bc_buf (k_bcache (set_k_bcache (upd_buf b grabbed (k_bcache s)) s)) !! b = Some (grabbed x)) by (by apply upd_buf_lookup).
  rewrite bind_assoc. krun (acquiresleep_run b (settle h) (set_k_bcache (upd_buf b grabbed (k_bcache s)) s) pr (grabbed x) y Hs' Hy Hx1 U6). rewrite bind_ret, settle_idemp.
  set (s1 := set_k_bcache _ _). set (x' := lock_by (p_pid y) (grabbed x)).
  assert (Ec : k_bcache s1 = upd_buf b (fun x => lock_by (p_pid y) (grabbed x)) (k_bcache s)) by apply upd_buf_comp.
  assert (Hx' : bc_buf (k_bcache s1) !! b = Some x') by (rewrite Ec; exact (upd_buf_lookup b _ _ x Hx)).
  rewrite (bind_buf_get _ _ _ _ _ _ Hx'). change (b_valid x') with (b_valid x). rewrite U2. cbn [Z.eqb when]. ksimpl. cbn [ret wp].
  split; [done|]. apply HQ; [done| |].
  { eapply kept_trans; [apply kept_bcache|apply kept_bcache]. }
  pose proof Hio as [_ I2 (l & L & El) I4 _ _ _ I8 I9 (N1 & N2 & N3)].
  eapply (io_change pr s s1 d d v v G _ P P b x x' n y Hio); try done.
  - eapply kept_trans; [apply kept_bcache|apply kept_bcache].
  - exists l. split; [|done]. rewrite Ec. by apply lru_upd.
  - intros c z Hc Hz Hzd Hzn. apply Hc. pose proof disk_dev_ne. eapply (I4 c b z x); congruence.
  - exact (rebuffered_upd s b x _ s1 Hx Ec).
  - apply (used_intro_held _ _ _ _ _ n); try done; [|apply elem_of_cons; by left].
    change (b_refcnt x') with (u32 (b_refcnt x + 1)). change (b_blockno x') with (b_blockno x). rewrite U5, Z.add_comm.
    apply u32_id. case_decide; lia.
  - by apply changes_hold.
  - intros m Hm Hg. apply I8; [done|]. intros Hg'. apply Hg. rewrite fmap_cons. apply elem_of_cons. by right.
  - apply I9.
  - apply I9.
  - rewrite !fmap_cons. split_and!; [|by apply NoDup_cons|done]. by apply NoDup_cons.
Qed.

(** The block is in no buffer: the unused buffer [b] is filled from the disk. *)
Lemma bread_recycled_wp pr C h s d v G P b n x Q : in_syscall h pr -> io_ok pr s d v G P -> n ∉ G.*2 -> 0 <= n < 2 ^ 31 ->
  (forall c, ~ buffered s c n) -> bc_buf (k_bcache s) !! b = Some x -> b_refcnt x = 0 -> C d ->
  (forall h' s', in_syscall h' pr -> kept pr s s' -> io_ok pr s' d v ((b, n) :: G) P -> Q b h' s' d) ->
  wp pr C ((b <- (acquiresleep (SL_buf b);; ret b);;
    valid <- buf_get b b_valid;;
    when (valid =? 0) (virtio_disk_rw b false;; buf_set b (set_b_valid 1));; ret b)
    (settle h) (set_k_bcache (upd_buf b (recycled dev n) (k_bcache s)) s)) d Q.
Proof.
  intros Hs Hio Hn Hr Hno Hx Hrc HC HQ. pose proof Hio as [I1 I2 (l & L & El) I4 (y & Hy & Hb) I6 I7 I8 I9 (N1 & N2 & N3)].
  destruct (Hb b x Hx) as [Hd Hbx].
  assert (b ∉ G.*1 /\ sl_locked (b_lock x) = 0 /\ (b_dev x = dev -> b_blockno x ∉ P)) as (Hfree & Hlock & Hnp).
  { pose proof disk_dev_ne. destruct Hbx as [[U1 U2 U3 U4]|HU]; [split_and!; [done|done|congruence]|].
    assert (Hf : b ∉ G.*1).
    { intros Hg. destruct (used_held _ _ _ _ _ _ HU Hg) as [E _]. rewrite Hrc in E. case_decide; lia. }
    destruct (used_free _ _ _ _ _ _ HU Hf) as [E ?]. split_and!; [done|done|]. intros _ Hp. rewrite Hrc, decide_True in E by done. lia. }
  pose proof (in_syscall_settle _ _ Hs) as Hs'.
  assert (Hx1 : bc_buf (k_bcache (set_k_bcache (upd_buf b (recycled dev n) (k_bcache s)) s)) !! b = Some (recycled dev n x)) by (by apply upd_buf_lookup).
  rewrite bind_assoc. krun (acquiresleep_run b (settle h) (set_k_bcache (upd_buf b (recycled dev n) (k_bcache s)) s) pr (recycled dev n x) y Hs' Hy Hx1 Hlock). rewrite bind_ret, settle_idemp.
  set (s1 := set_k_bcache _ _). set (x1 := lock_by (p_pid y) (recycled dev n x)).
  assert (Ec : k_bcache s1 = upd_buf b (fun x => lock_by (p_pid y) (recycled dev n x)) (k_bcache s)) by apply upd_buf_comp.
  assert (Hx2 : bc_buf (k_bcache s1) !! b = Some x1) by (rewrite Ec; exact (upd_buf_lookup b _ _ x Hx)).
  rewrite (bind_buf_get _ _ _ _ _ _ Hx2). change (b_valid x1) with 0. cbn [Z.eqb when]. rewrite bind_assoc. apply wp_bind.
  assert (K1 : kept pr s s1) by (eapply kept_trans; [apply kept_bcache|apply kept_bcache]).
  eapply (virtio_disk_rw_wp pr C (settle h) s1 d b x1 y false); try done.
  intros h' s' Hs2 Kp Hidle Eb. split; [done|]. rewrite bind_buf_set. cbn [ret wp]. split; [done|].
  set (s2 := set_k_bcache _ s'). set (x' := set_b_valid 1 (set_b_data (d n) x1)).
  assert (Kp2 : kept pr s s2) by (eapply kept_trans; [exact K1|eapply kept_trans; [exact Kp|apply kept_bcache]]).
  assert (Ec2 : k_bcache s2 = upd_buf b (fun x => set_b_valid 1 (set_b_data (d n) (lock_by (p_pid y) (recycled dev n x)))) (k_bcache s)).
  { unfold s2. cbn [k_bcache set_k_bcache]. rewrite Eb. unfold transferred. change (b_blockno x1) with n. by rewrite Ec, !upd_buf_comp. }
  destruct (kp_proc _ _ _ Kp2 y Hy) as (y2 & Hy2 & [Epid _ _ _ _ _]).
  assert (HnP : n ∉ P) by (intros HnP; destruct (I7 n HnP) as (c & Hc); by apply (Hno c)).
  apply HQ; [done|done|].
  eapply (io_change pr s s2 d d v v G _ P P b x x' n y2 Hio); try done.
  - exists l. split; [|done]. rewrite Ec2. by apply lru_upd.
  - intros c z Hc Hz Hzd Hzn. apply (Hno c). by exists z.
  - intros Hxd _. by apply Hnp.
  - exact (rebuffered_upd s b x _ s2 Hx Ec2).
  - apply (used_intro_held _ _ _ _ _ n); try done; [symmetry; by apply I8|by rewrite decide_False|apply elem_of_cons; by left].
  - by apply changes_hold.
  - intros m Hm Hg. apply I8; [done|]. intros Hg'. apply Hg. rewrite fmap_cons. apply elem_of_cons. by right.
  - apply I9.
  - apply I9.
  - rewrite !fmap_cons. split_and!; [|by apply NoDup_cons|done]. by apply NoDup_cons.
Qed.

(** bread returns the buffer of the block, which the process then holds. *)
Lemma bread_wp pr C h s d v G P n Q : in_syscall h pr -> io_ok pr s d v G P -> n ∉ G.*2 -> 0 <= n < 2 ^ 31 ->
  n ∈ P \/ (length G + length P < NBUF)%nat -> C d ->
  (forall b h' s', in_syscall h' pr -> kept pr s s' -> io_ok pr s' d v ((b, n) :: G) P -> Q b h' s' d) ->
  wp pr C (bread dev n h s) d Q.
Proof.
  intros Hs Hio Hn Hr Hlt HC HQ. pose proof Hio as [_ _ (l & L & El) I4 (y & Hy & Hb) _ _ _ _ _].
  unfold bread. pose proof (bget_run dev n h s l (in_syscall_wf _ _ Hs) (in_syscall_notin _ _ _ Hs) L) as E.
  unfold choose in E. destruct (List.find (cached dev n (k_bcache s)) l) as [b|] eqn:Ef.
  - apply find_some in Ef as [_ Hc]. unfold cached in Hc. destruct (bc_buf (k_bcache s) !! b) as [x|] eqn:Hx; [|done].
    apply andb_true_iff in Hc as [Hd%Z.eqb_eq Hbn%Z.eqb_eq]. rewrite (bind_eq _ _ _ _ _ _ _ E).
    eapply bread_cached_wp; try done; [|intros; by apply HQ]. by exists x.
  - assert (Hno : forall c, ~ buffered s c n).
    { intros c (z & Hz & Hzd & Hzn). pose proof (lookup_lt_Some _ _ _ Hz) as Hlt'. rewrite (lru_len _ _ L) in Hlt'.
      assert (Hcl : c ∈ l) by (by rewrite El, elem_of_upto).
      pose proof (find_none _ _ Ef c (proj1 (list_elem_of_In _ _) Hcl)) as Hf. unfold cached in Hf.
      by rewrite Hz, Hzd, Hzn, !Z.eqb_refl in Hf. }
    destruct Hlt as [Hp|Hlt]; [destruct (io_pins _ _ _ _ _ _ Hio n Hp) as (c & Hc); by destruct (Hno c)|].
    destruct (io_spare _ _ _ _ _ _ l Hio Hlt El) as (b & Eb). rewrite Eb in E. cbn [fmap option_fmap option_map] in E.
    rewrite (bind_eq _ _ _ _ _ _ _ E). apply find_some in Eb as [Hbi Hu]. unfold unused in Hu.
    destruct (bc_buf (k_bcache s) !! b) as [x|] eqn:Hx; [|done]. apply Z.eqb_eq in Hu.
    eapply (bread_recycled_wp pr C h s d v G P b n x); try done. intros. by apply HQ.
Qed.

(** ** A buffer that is held *)

Lemma io_held_buf pr s d v G P b n : io_ok pr s d v G P -> (b, n) ∈ G ->
  exists x y, bc_buf (k_bcache s) !! b = Some x /\ k_proc s !! pr = Some y /\ b_disk x = 0 /\ used_buf (p_pid y) v G P b x /\
    b_blockno x = n /\ holds_buf y x = true.
Proof.
  intros Hio Hi. destruct (io_buf _ _ _ _ _ _ _ _ Hio (io_held _ _ _ _ _ _ Hio _ _ Hi)) as (x & y & Hx & Hy & Hd & HU & En).
  exists x, y. split_and!; try done. destruct (used_held _ _ _ _ _ _ HU ltac:(by eapply in_fst)) as (_ & E1 & E2).
  unfold holds_buf. by rewrite E1, E2, Z.eqb_refl.
Qed.

(** What it holds is the view of its block. *)
Lemma io_data pr s d v G P b n : io_ok pr s d v G P -> (b, n) ∈ G ->
  exists x, bc_buf (k_bcache s) !! b = Some x /\ b_data x = v n /\ b_blockno x = n.
Proof.
  intros Hio Hi. destruct (io_held_buf _ _ _ _ _ _ _ _ Hio Hi) as (x & y & Hx & _ & _ & [_ _ E _ _ _] & En & _).
  exists x. split_and!; [done|congruence|done].
Qed.

Lemma other_block pr s d v G P b x : io_ok pr s d v G P -> bc_buf (k_bcache s) !! b = Some x -> b_dev x = dev ->
  forall c z, c <> b -> bc_buf (k_bcache s) !! c = Some z -> b_dev z = dev -> b_blockno z <> b_blockno x.
Proof. intros Hio Hx Hd c z Hc Hz Hzd E. apply Hc. pose proof disk_dev_ne. eapply (io_one _ _ _ _ _ _ Hio c b z x); congruence. Qed.

Lemma held_eq pr s d v G P c b m n : io_ok pr s d v G P -> (c, m) ∈ G -> (b, n) ∈ G -> c = b -> m = n.
Proof.
  intros Hio Hc Hb ->. destruct (io_held _ _ _ _ _ _ Hio _ _ Hc) as (x & Hx & _ & <-), (io_held _ _ _ _ _ _ Hio _ _ Hb) as (z & Hz & _ & <-).
  congruence.
Qed.

(** An update of a held buffer that keeps its block. *)
Lemma io_upd pr s s' d d' v v' G G' P P' b n f :
  io_ok pr s d v G P -> (b, n) ∈ G -> kept pr s s' -> drv_idle (k_disk s') ->
  (exists c l, lru c l /\ l ≡ₚ upto NBUF /\ k_bcache s' = c /\ same_bufs (upd_buf b f (k_bcache s)) c) ->
  (forall x y, bc_buf (k_bcache s) !! b = Some x -> b_disk x = 0 -> used_buf (p_pid y) v G P b x -> b_blockno x = n ->
    b_blockno (f x) = n /\ b_disk (f x) = 0 /\ used_buf (p_pid y) v' G' P' b (f x)) ->
  changes b n v v' G G' P P' ->
  (forall m, m ∉ P' -> m ∉ G'.*2 -> v' m = d' m) -> length (v' n) = Z.to_nat BSIZE -> disk_ok d' ->
  NoDup G'.*1 /\ NoDup G'.*2 /\ NoDup P' -> io_ok pr s' d' v' G' P'.
Proof.
  intros Hio Hi Kp Hidle (c & l & L & El & Ec & Hsame) Hf Hch Hcl Hlen Hdlen Hnd.
  destruct (io_held_buf _ _ _ _ _ _ _ _ Hio Hi) as (x & y & Hx & Hy & Hd & HU & En & _).
  destruct (kp_proc _ _ _ Kp y Hy) as (y' & Hy' & [Epid _ _ _ _ _]).
  destruct (Hf x y Hx Hd HU En) as (E1 & E2 & HU').
  eapply (io_change pr s s' d d' v v' G G' P P' b x (f x) n y' Hio); try done.
  - exists l. by rewrite Ec.
  - rewrite <-En. eapply (other_block pr s d v G P b x Hio Hx). apply HU.
  - unfold rebuffered. rewrite Ec. by rewrite <-(upd_buf_const b f _ x Hx).
  - by rewrite Epid.
Qed.

Lemma changes_keep b n v v' G P P' : (b, n) ∈ G -> (forall c m, (c, m) ∈ G -> c = b -> m = n) -> (forall m, m <> n -> v' m = v m) ->
  (forall m, m <> n -> (m ∈ P <-> m ∈ P')) -> changes b n v v' G G P P'.
Proof.
  intros Hb Hu Hv HP. constructor; try done. intros c m Hc. destruct (decide (c = b)) as [->|]; [right|by left].
  by rewrite (Hu b m Hc eq_refl).
Qed.

(** Storing into it changes the view. *)
Lemma io_data_set pr s d v G P b n f : io_ok pr s d v G P -> (b, n) ∈ G -> length (f (v n)) = Z.to_nat BSIZE ->
  io_ok pr (set_k_bcache (upd_buf b (fun x => set_b_data (f (b_data x)) x) (k_bcache s)) s) d (write_block n (f (v n)) v) G P.
Proof.
  intros Hio Hi Hlen. pose proof Hio as [_ I2 (l & L & El) _ _ _ _ I8 _ I10].
  assert (Ev : write_block n (f (v n)) v n = f (v n)) by (unfold write_block; by rewrite decide_True).
  apply (io_upd pr s _ d d v _ G G P P b n (fun x => set_b_data (f (b_data x)) x) Hio Hi); try done; [apply kept_bcache| | | | |by rewrite Ev|apply Hio].
  - exists (upd_buf b (fun x => set_b_data (f (b_data x)) x) (k_bcache s)), l. split_and!; [|done|done|done]. by apply lru_upd.
  - intros x y Hx Hd [U1 U2 U3 U4 U5 U6] En. split_and!; [done|done|]. constructor; try done. cbn [b_data set_b_data b_blockno].
    by rewrite U3, En, Ev.
  - apply changes_keep; [done| |intros m Hm; unfold write_block; by rewrite decide_False|done]. intros c m Hc. by eapply held_eq.
  - intros m Hm Hg. unfold write_block. rewrite decide_False; [by apply I8|]. intros ->. apply Hg. by eapply in_snd.
Qed.

(** ** bwrite *)

Lemma io_same_cache pr s s' d d' v G P : io_ok pr s d v G P -> kept pr s s' -> drv_idle (k_disk s') -> k_bcache s' = k_bcache s ->
  (forall m, m ∉ P -> m ∉ G.*2 -> d' m = d m) -> disk_ok d' -> io_ok pr s' d' v G P.
Proof.
  intros [I1 I2 I3 I4 (y & Hy & Hb) I6 I7 I8 I9 I10] Kp Hidle Ec Hd Hdl.
  destruct (kp_proc _ _ _ Kp y Hy) as (y' & Hy' & [Epid _ _ _ _ _]).
  constructor; try done; unfold buffered; rewrite ?Ec; try done.
  - by rewrite (kp_len _ _ _ Kp).
  - exists y'. rewrite Epid. done.
  - intros m Hm Hg. rewrite Hd by done. by apply I8.
  - split; [apply I9|done].
Qed.

Lemma bwrite_wp pr C h s d v G P b n Q : in_syscall h pr -> io_ok pr s d v G P -> (b, n) ∈ G -> C d -> C (write_block n (v n) d) ->
  (forall h' s', in_syscall h' pr -> kept pr s s' -> io_ok pr s' (write_block n (v n) d) v G P -> Q tt h' s' (write_block n (v n) d)) ->
  wp pr C (bwrite b h s) d Q.
Proof.
  intros Hs Hio Hi HC HC' HQ. destruct (io_held_buf _ _ _ _ _ _ _ _ Hio Hi) as (x & y & Hx & Hy & Hd & HU & En & Hh).
  unfold bwrite. krun (holdingsleep_run b h s pr x y Hs Hy Hx). rewrite Hh. cbn [negb].
  eapply (virtio_disk_rw_wp pr C (settle h) s d b x y true); try done; [by apply in_syscall_settle|apply Hio|apply Hio|apply HU|].
  rewrite En, (ub_data _ _ _ _ _ _ HU), En. cbn [disk_after transferred]. intros h' s' Hs' Kp Hidle Ec. split; [done|].
  apply HQ; [done|done|]. eapply io_same_cache; try done.
  - intros m _ Hg. rewrite write_block_ne; [done|]. intros ->. apply Hg. by eapply in_snd.
  - apply disk_ok_write; apply Hio.
Qed.

(** ** brelse *)

Lemma to_front_perm b l : NoDup l -> b ∈ l -> to_front b l ≡ₚ l.
Proof. intros Hnd (l1 & l2 & ->)%list_elem_of_split. rewrite to_front_split by done. apply Permutation_middle. Qed.

(** A buffer goes back when the disk has its contents, or when it is pinned. *)
Lemma brelse_wp pr C h s d v G P b n Q : in_syscall h pr -> io_ok pr s d v ((b, n) :: G) P -> n ∈ P \/ v n = d n -> C d ->
  (forall h' s', in_syscall h' pr -> kept pr s s' -> io_ok pr s' d v G P -> Q tt h' s' d) -> wp pr C (brelse b h s) d Q.
Proof.
  intros Hs Hio Hc HC HQ. assert (Hi : (b, n) ∈ (b, n) :: G) by (apply elem_of_cons; by left).
  destruct (io_held_buf _ _ _ _ _ _ _ _ Hio Hi) as (x & y & Hx & Hy & Hd & HU & En & Hh).
  pose proof Hio as [I1 I2 (l & L & El) _ _ _ _ I8 I9 (N1 & N2 & N3)].
  rewrite fmap_cons in N1. rewrite fmap_cons in N2. apply NoDup_cons in N1 as [Hb1 N1], N2 as [Hn2 N2]. change (b ∉ G.*1) in Hb1.
  assert (Hbl : b ∈ l) by (rewrite El, elem_of_upto, <-(lru_len _ _ L); by eapply lookup_lt_Some).
  destruct (brelse_run b h s pr x y l Hs I1 Hy L Hbl Hx Hh) as (c & E & Lc & Sc).
  rewrite E. cbn [wp]. split; [done|]. set (s' := set_k_bcache c _).
  assert (Kp : kept pr s s').
  { eapply kept_trans; [apply kept_woken|apply kept_bcache]. }
  apply HQ; [by apply in_syscall_settle|done|].
  eapply (io_upd pr s s' d d v v _ G P P b n released Hio Hi Kp I2); try done.
  - do 2 eexists. split_and!; [exact Lc| |done|done]. case_match; [|done]. pose proof (lru_nodup _ _ L) as [_ Hnd]%NoDup_cons.
    by rewrite to_front_perm.
  - intros z w Hz Hzd HUz Ezn. destruct (used_held _ _ _ _ _ _ HUz ltac:(by eapply in_fst)) as (R & _ & _).
    destruct HUz as [U1 U2 U3 U4 _ _]. split_and!; [done|done|]. constructor; try done.
    + change (b_refcnt (released z)) with (u32 (b_refcnt z - 1)). change (b_blockno (released z)) with (b_blockno z).
      rewrite R, (decide_False _ _ (P := b ∈ G.*1)) by done. case_decide; apply u32_id; lia.
    + by rewrite decide_False.
  - constructor; try done.
    + intros c' Hc'. rewrite fmap_cons, elem_of_cons. simpl. naive_solver.
    + intros c' m Hcm. left. split; [by apply elem_of_cons; right|]. intros ->. apply Hb1. by eapply in_fst.
  - intros m Hm Hg. destruct (decide (m = n)) as [->|Hne]; [by destruct Hc|]. apply I8; [done|]. rewrite fmap_cons, elem_of_cons. naive_solver.
  - apply I9.
  - apply I9.
Qed.

(** ** bpin and bunpin *)

Lemma bpin_run b h s : hart_wf h -> L_bcache ∉ h_held h ->
  bpin b h s = Done tt (settle h) (set_k_bcache (upd_buf b grabbed (k_bcache s)) s).
Proof.
  intros Hwf Hn. unfold bpin. krun (acquire_run L_bcache h s Hn). rewrite bind_buf_set.
  by rewrite (release_run _ h); [|done|done|apply calm_refl].
Qed.

Lemma bunpin_run b h s pr : in_syscall h pr ->
  bunpin b h s = Done tt (settle h) (set_k_bcache (upd_buf b (fun x => set_b_refcnt (u32 (b_refcnt x - 1)) x) (k_bcache s)) s).
Proof.
  intros Hs. unfold bunpin. krun (acquire_run L_bcache h s (in_syscall_notin _ _ _ Hs)). rewrite bind_buf_set.
  by rewrite (release_run _ h); [|by eapply in_syscall_wf|by eapply in_syscall_notin|apply calm_refl].
Qed.

Lemma io_pin pr s d v G P b n : io_ok pr s d v G P -> (b, n) ∈ G -> n ∉ P ->
  io_ok pr (set_k_bcache (upd_buf b grabbed (k_bcache s)) s) d v G (n :: P).
Proof.
  intros Hio Hi Hn. pose proof Hio as [_ I2 (l & L & El) _ _ _ _ I8 I9 (N1 & N2 & N3)].
  apply (io_upd pr s _ d d v v G G P (n :: P) b n grabbed Hio Hi); try done; [apply kept_bcache| | | | |apply I9|apply I9|].
  - exists (upd_buf b grabbed (k_bcache s)), l. split_and!; [|done|done|done]. by apply lru_upd.
  - intros x y Hx Hd HU En. destruct (used_held _ _ _ _ _ _ HU ltac:(by eapply in_fst)) as (R & R1 & R2).
    destruct HU as [U1 U2 U3 U4 _ _]. split_and!; [done|done|]. apply (used_intro_held _ _ _ _ _ n); try done.
    change (b_refcnt (grabbed x)) with (u32 (b_refcnt x + 1)). change (b_blockno (grabbed x)) with (b_blockno x).
    rewrite R, decide_False, decide_True by (rewrite En; try apply elem_of_cons; auto). done.
  - apply changes_keep; [done| |done|intros m Hm; rewrite elem_of_cons; naive_solver]. intros c m Hc. by eapply held_eq.
  - intros m Hm Hg. apply I8; [|done]. intros Hp. apply Hm, elem_of_cons. by right.
  - split_and!; [done|done|by apply NoDup_cons].
Qed.

Lemma io_unpin pr s d v G P b n : io_ok pr s d v G (n :: P) -> (b, n) ∈ G ->
  io_ok pr (set_k_bcache (upd_buf b (fun x => set_b_refcnt (u32 (b_refcnt x - 1)) x) (k_bcache s)) s) d v G P.
Proof.
  intros Hio Hi. pose proof Hio as [_ I2 (l & L & El) _ _ _ _ I8 I9 (N1 & N2 & [Hn N3]%NoDup_cons)].
  set (f := fun x => set_b_refcnt (u32 (b_refcnt x - 1)) x).
  apply (io_upd pr s _ d d v v G G (n :: P) P b n f Hio Hi); try done; [apply kept_bcache| | | | |apply I9|apply I9].
  - exists (upd_buf b f (k_bcache s)), l. split_and!; [|done|done|done]. by apply lru_upd.
  - intros x y Hx Hd HU En. destruct (used_held _ _ _ _ _ _ HU ltac:(by eapply in_fst)) as (R & R1 & R2).
    destruct HU as [U1 U2 U3 U4 _ _]. split_and!; [done|done|]. apply (used_intro_held _ _ _ _ _ n); try done.
    change (b_refcnt (f x)) with (u32 (b_refcnt x - 1)). change (b_blockno (f x)) with (b_blockno x).
    rewrite R, decide_True, decide_False by (rewrite En; try apply elem_of_cons; auto). done.
  - apply changes_keep; [done| |done|intros m Hm; rewrite elem_of_cons; naive_solver]. intros c m Hc. by eapply held_eq.
  - intros m Hm Hg. apply I8; [|done]. intros [->|Hp]%elem_of_cons; [|done]. apply Hg. by eapply in_snd.
Qed.

(** ** Rules for the code between *)

Lemma wp_data_get {A B} pr C (g : list Z -> A) (f : A -> K kernel B) h s d v G P b n Q : io_ok pr s d v G P -> (b, n) ∈ G ->
  wp pr C (f (g (v n)) h s) d Q -> wp pr C (bind (data_get b g) f h s) d Q.
Proof. intros Hio Hi. destruct (io_data _ _ _ _ _ _ _ _ Hio Hi) as (x & Hx & E & _). krun (data_get_run b x g h s Hx). by rewrite E. Qed.

Lemma wp_data_set {B} pr C g (f : unit -> K kernel B) h s d v G P b n Q : io_ok pr s d v G P -> (b, n) ∈ G ->
  length (g (v n)) = Z.to_nat BSIZE ->
  (forall s', kept pr s s' -> io_ok pr s' d (write_block n (g (v n)) v) G P -> wp pr C (f tt h s') d Q) ->
  wp pr C (bind (data_set b g) f h s) d Q.
Proof.
  intros Hio Hi Hl HQ. krun (data_set_run b g h s). apply HQ; [apply kept_bcache|]. by apply io_data_set.
Qed.

Lemma wp_bunpin {B} pr C (f : unit -> K kernel B) h s d v G P b n Q : in_syscall h pr -> io_ok pr s d v G (n :: P) -> (b, n) ∈ G ->
  (forall h' s', in_syscall h' pr -> kept pr s s' -> io_ok pr s' d v G P -> wp pr C (f tt h' s') d Q) ->
  wp pr C (bind (bunpin b) f h s) d Q.
Proof.
  intros Hs Hio Hi HQ. krun (bunpin_run b h s pr Hs). apply HQ; [by apply in_syscall_settle|apply kept_bcache|].
  by eapply io_unpin.
Qed.

(** ** After booting *)

(** The buffer cache after binit, and the driver after virtio_disk_init. *)
Record fresh (pr : nat) s : Prop := {
  fr_procs : length (k_proc s) = NPROC;
  fr_proc : exists y, k_proc s !! pr = Some y;
  fr_idle : drv_idle (k_disk s);
  fr_lru : exists l, lru (k_bcache s) l /\ l ≡ₚ upto NBUF;
  fr_bufs : forall b x, bc_buf (k_bcache s) !! b = Some x ->
    b_disk x = 0 /\ b_dev x = 0 /\ b_refcnt x = 0 /\ sl_locked (b_lock x) = 0;
}.

Lemma io_fresh pr s d : fresh pr s -> disk_ok d -> io_ok pr s d d [] [].
Proof.
  intros [F1 (y & Hy) F3 F4 F5] Hd. constructor; try done.
  - intros i j x z Hi Hj Hne. by destruct (F5 i x Hi) as (_ & ? & _).
  - exists y. split; [done|]. intros b x Hx. destruct (F5 b x Hx) as (? & ? & ? & ?). split; [done|]. left.
    constructor; try done. apply not_elem_of_nil.
  - intros b n Hb. by apply elem_of_nil in Hb.
  - intros n Hn. by apply elem_of_nil in Hn.
  - split_and!; constructor.
Qed.

End io.
