(* ===== verification/DiskExamples.v ===== *)
(** * DiskExamples

    A block device and a kernel for the examples about the disk: the device takes the
    next chain from the avail ring, and the kernel has just initialised its buffer cache. *)
From stdpp Require Import base tactics list numbers gmap strings.
From S2P Require Import Prelude Machine Spinlock Printf Bytes Block Queue Kalloc Vm Kernel Proc ProcFacts.
From S2P Require Import Sleeplock Virtio Bio Log Discipline ProcProps BioProps Storage BlockIO Examples.

(** The chain of the next request: the index of its first descriptor, the buffer and the header. *)
Definition next_request (k : disk_t) : option (nat * nat * virtio_blk_req) :=
  i0 ← Z.to_nat <$> d_avail_ring k !! Z.to_nat (d_used_idx k mod Z.of_nat NUM);
  op ← d_ops k !! i0;
  d0 ← d_desc k !! i0;
  d1 ← d_desc k !! Z.to_nat (vd_next d0);
  match vd_addr d1 with A_data b => Some (i0, b, op) | _ => None end.

#[export] Instance demo_device : Device := fun s d =>
  match next_request (k_disk s) with
  | Some (i0, b, op) =>
      let s' := set_k_disk (served_chain i0 (k_disk s)) s in
      if vr_type op =? VIRTIO_BLK_T_IN then
        (set_k_bcache (upd_buf b (set_b_data (d (vr_sector op / 2))) (k_bcache s)) s', d)
      else
        (s', match bc_buf (k_bcache s) !! b with Some x => write_block (vr_sector op / 2) (b_data x) d | None => d end)
  | None => (s, d)
  end.

Lemma next_request_one k i0 i1 i2 b typ flags sector : one_request k i0 i1 i2 b typ flags sector ->
  next_request k = Some (i0, b, BlkReq typ 0 sector).
Proof.
  intros [R1 R2 R3 R4 R5 R6]. unfold next_request. rewrite R2. simpl. rewrite Nat2Z.id, R3. simpl. rewrite R4. simpl.
  rewrite Nat2Z.id, R5. done.
Qed.

#[export] Instance demo_device_ok : DeviceOk.
Proof.
  constructor.
  - intros s d i0 i1 i2 b sector R. unfold device, demo_device. rewrite (next_request_one _ _ _ _ _ _ _ _ R). done.
  - intros s d i0 i1 i2 b sector x R Hx. unfold device, demo_device. rewrite (next_request_one _ _ _ _ _ _ _ _ R). simpl.
    by rewrite Hx.
Qed.

#[export] Instance demo_wait_pos : WaitPos.
Proof. unfold WaitPos, wait_fuel, demo_fuel. lia. Qed.

#[export, refine] Instance demo_disk_dev : DiskDev := {| disk_dev := 1 |}.
Proof. done. Defined.

Lemma demo_bufs : forall b (x : buf_t), bc_buf demo_bcache !! b = Some x ->
  b_disk x = 0 /\ b_dev x = 0 /\ b_refcnt x = 0 /\ sl_locked (b_lock x) = 0.
Proof.
  assert (F : forallb (fun x => (b_disk x =? 0) && (b_dev x =? 0) && (b_refcnt x =? 0) && (sl_locked (b_lock x) =? 0)) (bc_buf demo_bcache) = true)
    by (vm_compute; reflexivity).
  intros b x Hx. pose proof (forallb_lookup _ _ _ _ F Hx) as E. rewrite !andb_true_iff, !Z.eqb_eq in E. tauto.
Qed.

Lemma demo_idle : drv_idle boot_disk.
Proof. constructor; done. Qed.

Lemma demo_fresh : fresh 0 demo_cached.
Proof.
  constructor.
  - reflexivity.
  - by exists demo_running.
  - exact demo_idle.
  - exists (reverse (upto NBUF)). split; [exact demo_lru|apply reverse_Permutation].
  - exact demo_bufs.
Qed.
