(* ===== verification/LogProps.v ===== *)
(** * LogProps

    The redo log of kernel/log.c is crash safe. Whenever the machine stops during a
    commit, recovery on the next boot leaves the disk with either all of the blocks of
    the transaction or none of them; it may itself be interrupted and run again. *)
From stdpp Require Import base tactics list numbers gmap strings.
From S2P Require Import Prelude Machine Spinlock Printf Bytes Block Queue Kalloc Vm Kernel Proc ProcFacts.
From S2P Require Import Sleeplock Virtio Bio Log Discipline ProcProps BioProps Storage BlockIO Examples DiskExamples.

(** ** The log on disk *)

(** The block numbers in a header. *)
Definition head_of (hb : list Z) : list Z :=
  (fun i => i32 (get32 hb (4 + 4 * i))) <$> seq 0 (Z.to_nat (i32 (get32 hb 0))).

(** write_head on the contents of the header block. *)
Fixpoint put_blocks (i : nat) (bl : list Z) (hb : list Z) : list Z :=
  match bl with [] => hb | m :: bl => put_blocks (S i) bl (put32 hb (4 + 4 * i) m) end.
Definition put_head (bl : list Z) (hb : list Z) : list Z := put_blocks 0 bl (put32 hb 0 (Z.of_nat (length bl))).

Section head.
Implicit Types (bl hb : list Z).

Lemma length_put32 hb (off : nat) x : (off + 4 <= Z.to_nat BSIZE)%nat -> length hb = Z.to_nat BSIZE -> length (put32 hb off x) = Z.to_nat BSIZE.
Proof. intros Ho Hl. unfold put32. rewrite length_putn; lia. Qed.

Lemma put_blocks_length i bl hb : (4 + 4 * (i + length bl) <= length hb)%nat -> length (put_blocks i bl hb) = length hb.
Proof.
  revert i hb. induction bl as [|m bl IH]; intros i hb Hl; [done|]. cbn [put_blocks length] in *.
  rewrite IH; unfold put32; rewrite ?length_putn; [done|lia|lia|lia].
Qed.

Lemma put_blocks_get i bl hb j : (4 + 4 * (i + length bl) <= length hb)%nat -> Forall (fun m => 0 <= m < 2 ^ 31) bl ->
  get32 (put_blocks i bl hb) (4 + 4 * j) =
  if decide (i <= j < i + length bl)%nat then default 0 (bl !! (j - i)%nat) else get32 hb (4 + 4 * j).
Proof.
  revert i hb. induction bl as [|m bl IH]; intros i hb Hl Hbl; cbn [put_blocks length] in *.
  - by rewrite decide_False by lia.
  - apply Forall_cons in Hbl as [Hm Hbl]. rewrite IH by (unfold put32; rewrite ?length_putn; (done || lia)).
    destruct (decide (j = i)) as [->|Hne].
    + rewrite decide_False, decide_True by lia. rewrite Nat.sub_diag. apply getn_putn; simpl; lia.
    + unfold get32, put32. rewrite getn_putn_other by lia. destruct (decide (i < j < i + S (length bl))%nat).
      * rewrite !decide_True by lia. by replace (j - i)%nat with (S (j - S i))%nat by lia.
      * by rewrite !decide_False by lia.
Qed.

Lemma put_blocks_get0 i bl hb : (4 + 4 * (i + length bl) <= length hb)%nat -> get32 (put_blocks i bl hb) 0 = get32 hb 0.
Proof.
  revert i hb. induction bl as [|m bl IH]; intros i hb Hl; [done|]. cbn [put_blocks length] in *. rewrite IH by (unfold put32; rewrite ?length_putn; lia).
  apply getn_putn_other; lia.
Qed.

Lemma put_head_count bl hb : (length bl <= 30)%nat -> length hb = Z.to_nat BSIZE -> i32 (get32 (put_head bl hb) 0) = Z.of_nat (length bl).
Proof.
  intros Hl Hhb. change (Z.to_nat BSIZE) with 1024%nat in Hhb. unfold put_head. set (hb1 := put32 hb 0 _).
  assert (Hhb1 : length hb1 = 1024%nat) by (unfold hb1, put32; rewrite length_putn; lia).
  rewrite put_blocks_get0 by lia. unfold hb1, get32, put32. rewrite getn_putn by (simpl; lia). apply i32_id. lia.
Qed.

Lemma head_of_put bl hb : Forall (fun m => 0 <= m < 2 ^ 31) bl -> (length bl <= 30)%nat -> length hb = Z.to_nat BSIZE ->
  head_of (put_head bl hb) = bl.
Proof.
  intros Hbl Hl Hhb. change (Z.to_nat BSIZE) with 1024%nat in Hhb. unfold put_head. set (hb1 := put32 hb 0 _).
  assert (Hhb1 : length hb1 = 1024%nat) by (unfold hb1, put32; rewrite length_putn; lia).
  pose proof (put_head_count bl hb Hl Hhb) as E0. unfold put_head in E0. fold hb1 in E0.
  unfold head_of. rewrite E0, Nat2Z.id. apply list_eq. intros i. rewrite list_lookup_fmap.
  destruct (decide (i < length bl)%nat) as [Hi|Hi].
  - rewrite lookup_seq_lt by lia. cbn [fmap option_fmap option_map]. rewrite Nat.add_0_l. rewrite (put_blocks_get 0 bl hb1 i) by (done || lia). rewrite decide_True by lia.
    rewrite Nat.sub_0_r. destruct (lookup_lt_is_Some_2 bl i Hi) as [m Em]. rewrite Em. simpl. f_equal. apply i32_id.
    pose proof (proj1 (Forall_lookup _ _) Hbl i m Em) as Hm. cbv beta in Hm. lia.
  - rewrite lookup_seq_ge by lia. simpl. symmetry. apply lookup_ge_None. lia.
Qed.

Lemma length_put_head bl hb : (length bl <= 30)%nat -> length hb = Z.to_nat BSIZE -> length (put_head bl hb) = Z.to_nat BSIZE.
Proof.
  intros Hl Hhb. change (Z.to_nat BSIZE) with 1024%nat in *. unfold put_head. rewrite put_blocks_length; unfold put32; rewrite ?length_putn; lia.
Qed.

End head.

Section log.
Context `{Layout} `{Symbols} `{WaitPos} `{DeviceOk} `{DiskDev}.
(** The log occupies LOGSIZE blocks: the header, and behind it the slots for data. *)
Context (start : Z) (start_range : 0 <= start /\ start + LOGSIZE < 2 ^ 31).
Implicit Types (s : kernel) (h : hart) (d v : disk) (C : disk -> Prop) (P bl : list Z) (m : Z).

Definition in_log m : Prop := start <= m < start + LOGSIZE.
Definition nslots : nat := Z.to_nat (LOGSIZE - 1).
Definition slot (i : nat) : Z := start + 1 + Z.of_nat i.

Definition committed d : list Z := head_of (d start).

(** The disk that recovery makes of [d]. *)
Definition redo d : disk := fun m =>
  match list_find (m =.) (committed d) with Some (i, _) => d (slot i) | None => d m end.

(** The log in memory, with the blocks [bl]. *)
Record log_ok s bl : Prop := {
  lo_dev : l_dev (k_log s) = disk_dev;
  lo_start : l_start (k_log s) = start;
  lo_n : lh_n (k_log s) = Z.of_nat (length bl);
  lo_len : length (lh_block (k_log s)) = Z.to_nat LOGSIZE;
  lo_blocks : take (length bl) (lh_block (k_log s)) = bl;
}.

(** Blocks that can be logged. *)
Record loggable bl : Prop := {
  lg_nodup : NoDup bl;
  lg_home : forall m, m ∈ bl -> 0 <= m < 2 ^ 31 /\ ~ in_log m;
  lg_len : (length bl <= nslots)%nat;
}.

Lemma loggable_len bl : loggable bl -> (length bl < NBUF)%nat /\ (length bl <= 30)%nat.
Proof. intros [_ _ Hl]. unfold nslots, LOGSIZE, NBUF in *. lia. Qed.

Lemma log_ok_kept pr s s' bl : kept pr s s' -> log_ok s bl -> log_ok s' bl.
Proof. intros K []. constructor; by rewrite (kp_log _ _ _ K). Qed.

Lemma lh_block_get_run s bl i m h : log_ok s bl -> bl !! i = Some m -> lh_block_get i h s = Done m h s.
Proof.
  intros [_ _ _ _ E] Hm. rewrite <-E in Hm. apply lookup_take_Some in Hm as [Hm _].
  unfold lh_block_get, log_get, bind, gets. simpl. by rewrite Hm.
Qed.

Lemma slot_range i : (i < nslots)%nat -> in_log (slot i) /\ slot i <> start /\ 0 <= slot i < 2 ^ 31.
Proof. intros Hi. unfold in_log, slot. unfold nslots, LOGSIZE in *. lia. Qed.

Lemma slot_inj i j : slot i = slot j -> i = j.
Proof. unfold slot. lia. Qed.

(** ** Copying a block to the log *)

Definition write_log_body (tail : nat) : K kernel unit :=
  dev <- log_get l_dev;;
  start <- log_get l_start;;
  to <- bread dev (u32 (start + Z.of_nat tail + 1));;
  blk <- lh_block_get tail;;
  from <- bread dev (u32 blk);;
  src <- data_get from id;;
  data_set to (fun _ => src);;
  bwrite to;;
  brelse from;;
  brelse to.

Lemma write_log_body_wp pr C h s d v P bl i blk Q :
  in_syscall h pr -> io_ok pr s d v [] P -> log_ok s bl -> loggable bl -> bl !! i = Some blk -> blk ∈ P ->
  (forall m, m ∈ P -> ~ in_log m) -> (length P < NBUF)%nat ->
  let d' := write_block (slot i) (v blk) d in C d -> C d' ->
  (forall h' s', in_syscall h' pr -> kept pr s s' -> io_ok pr s' d' (write_block (slot i) (v blk) v) [] P -> Q tt h' s' d') ->
  wp pr C (write_log_body i h s) d Q.
Proof.
  intros Hs Hio Hlog [Hnd Hhome Hlen] Hi Hp HPl HNB d' HC HC' HQ.
  assert (Hib : (i < nslots)%nat) by (pose proof (lookup_lt_Some _ _ _ Hi); lia).
  destruct (slot_range i Hib) as (Hsl & Hns & Hsr). destruct (Hhome blk ltac:(by eapply list_elem_of_lookup_2)) as [Hbr Hbl].
  unfold write_log_body, log_get. rewrite !bind_gets, (lo_dev _ _ Hlog), (lo_start _ _ Hlog).
  replace (u32 (start + Z.of_nat i + 1)) with (slot i) by (unfold slot; rewrite u32_id; unfold slot in Hsr; lia).
  apply wp_bind. eapply bread_wp; try done; [apply not_elem_of_nil|by right|].
  intros to h1 s1 Hs1 K1 Hio1. pose proof (log_ok_kept _ _ _ _ K1 Hlog) as Hlog1.
  krun (lh_block_get_run s1 bl i blk h1 Hlog1 Hi). rewrite (u32_id blk) by lia.
  assert (Hne : blk <> slot i) by congruence.
  apply wp_bind. eapply bread_wp; try done; [simpl; set_solver|by left|].
  intros from h2 s2 Hs2 K2 Hio2.
  eapply wp_data_get; [exact Hio2|by left|]. unfold id.
  eapply wp_data_set; [exact Hio2|by right; left|apply Hio|]. intros s3 K3 Hio3.
  apply wp_bind. eapply bwrite_wp; try done; [by right; left|by rewrite write_block_eq|].
  rewrite write_block_eq. intros h4 s4 Hs4 K4 Hio4.
  apply wp_bind. eapply brelse_wp; try done; [by left|]. intros h5 s5 Hs5 K5 Hio5.
  eapply brelse_wp; try done; [right; by rewrite !write_block_eq|]. intros h6 s6 Hs6 K6 Hio6.
  apply HQ; [done| |done]. repeat (eapply kept_trans; [eassumption|]). apply kept_refl.
Qed.

(** The data blocks of the log. *)
Definition in_data m : Prop := start < m < start + LOGSIZE.

Lemma slot_data i : (i < nslots)%nat -> in_data (slot i).
Proof. intros Hi. unfold in_data, slot. unfold nslots, LOGSIZE in *. lia. Qed.

Lemma loggable_slot bl i m : loggable bl -> bl !! i = Some m -> (i < nslots)%nat /\ ~ in_log m /\ m <> slot i.
Proof.
  intros [_ Hh Hl] Hi. pose proof (lookup_lt_Some _ _ _ Hi). assert (Hb : (i < nslots)%nat) by lia.
  destruct (slot_range i Hb) as [Hin _]. destruct (Hh m ltac:(by eapply list_elem_of_lookup_2)) as [_ Hn].
  split_and!; [done|done|]. intros ->. done.
Qed.

Lemma write_log_wp pr C h s d v P bl Q :
  in_syscall h pr -> io_ok pr s d v [] P -> log_ok s bl -> loggable bl -> P ≡ₚ bl -> (length bl < NBUF)%nat ->
  (forall d', disk_ok d' -> (forall m, ~ in_data m -> d' m = d m) -> C d') ->
  (forall h' s' d' v', in_syscall h' pr -> kept pr s s' -> io_ok pr s' d' v' [] P ->
    (forall m, ~ in_data m -> d' m = d m /\ v' m = v m) -> (forall i m, bl !! i = Some m -> d' (slot i) = v m) -> Q tt h' s' d') ->
  wp pr C (write_log h s) d Q.
Proof.
  intros Hs Hio Hlog Hlg HP HNB HC HQ. unfold write_log, log_get at 1. rewrite bind_gets, (lo_n _ _ Hlog), Nat2Z.id.
  change (wp pr C (forM (upto (length bl)) write_log_body h s) d Q).
  apply (wp_forM pr C (fun i h' s' d' => in_syscall h' pr /\ kept pr s s' /\ exists v', io_ok pr s' d' v' [] P /\
    (forall m, ~ in_data m -> d' m = d m /\ v' m = v m) /\ (forall j m, (j < i)%nat -> bl !! j = Some m -> d' (slot j) = v m))).
  - intros i h' s' d' (_ & _ & v' & Hio' & Hsame & _). apply HC; [apply Hio'|]. intros m Hm. by apply Hsame.
  - split_and!; [done|apply kept_refl|]. exists v. split_and!; [done|done|lia].
  - intros i h' s' d' Hi (Hs' & K & v' & Hio' & Hsame & Hdone). destruct (lookup_lt_is_Some_2 bl i Hi) as [blk Hblk].
    destruct (loggable_slot bl i blk Hlg Hblk) as (Hib & Hnl & Hne).
    assert (Hnd : ~ in_data blk) by (unfold in_data, in_log in *; lia).
    assert (Ev : v' blk = v blk) by (by apply Hsame).
    assert (Hkeep : forall m, ~ in_data m -> write_block (slot i) (v' blk) d' m = d m).
    { intros m Hm. rewrite write_block_ne; [by apply Hsame|]. intros ->. apply Hm. by apply slot_data. }
    eapply (write_log_body_wp pr C h' s' d' v' P bl i blk); try done.
    + by eapply log_ok_kept.
    + rewrite HP. by eapply list_elem_of_lookup_2.
    + intros m. rewrite HP. intros Hm. by apply (lg_home _ Hlg).
    + by rewrite HP.
    + apply HC; [apply Hio'|]. intros m Hm. by apply Hsame.
    + apply HC; [|done]. apply disk_ok_write; apply Hio'.
    + intros h2 s2 Hs2 K2 Hio2. split_and!; [done|by eapply kept_trans|]. eexists. split_and!; [exact Hio2| |].
      * intros m Hm. split; [by apply Hkeep|]. rewrite write_block_ne; [by apply Hsame|]. intros ->. apply Hm. by apply slot_data.
      * intros j m Hj Hm. destruct (decide (j = i)) as [->|Hji]; [rewrite write_block_eq; congruence|].
        rewrite write_block_ne; [apply Hdone; [lia|done]|]. intros E. by apply slot_inj in E.
  - intros h' s' d' (Hs' & K & v' & Hio' & Hsame & Hdone). eapply HQ; try done. intros i m Hm. apply Hdone; [|done].
    by eapply lookup_lt_Some.
Qed.

(** ** Copying a block home *)

Definition install_body (recovering : bool) (tail : nat) : K kernel unit :=
  dev <- log_get l_dev;;
  start <- log_get l_start;;
  lbuf <- bread dev (u32 (start + Z.of_nat tail + 1));;
  blk <- lh_block_get tail;;
  dbuf <- bread dev (u32 blk);;
  src <- data_get lbuf id;;
  data_set dbuf (fun _ => src);;
  bwrite dbuf;;
  when (negb recovering) (bunpin dbuf);;
  brelse lbuf;;
  brelse dbuf.

Lemma install_body_wp pr C h s d v (recovering : bool) P P' bl i blk Q :
  in_syscall h pr -> io_ok pr s d v [] P -> log_ok s bl -> loggable bl -> bl !! i = Some blk ->
  (if recovering then P = [] /\ P' = [] else P ≡ₚ blk :: P' /\ (length P < NBUF)%nat) -> (forall m, m ∈ P -> ~ in_log m) ->
  let d' := write_block blk (v (slot i)) d in C d -> C d' ->
  (forall h' s', in_syscall h' pr -> kept pr s s' -> io_ok pr s' d' (write_block blk (v (slot i)) v) [] P' -> Q tt h' s' d') ->
  wp pr C (install_body recovering i h s) d Q.
Proof.
  intros Hs Hio Hlog Hlg Hi Hrec HPl d' HC HC' HQ. destruct (loggable_slot bl i blk Hlg Hi) as (Hib & Hnl & Hne).
  destruct (slot_range i Hib) as (Hsl & _ & Hsr). destruct (lg_home _ Hlg blk ltac:(by eapply list_elem_of_lookup_2)) as [Hbr _].
  assert (Hclean : v (slot i) = d (slot i)).
  { apply (io_clean _ _ _ _ _ _ Hio); [intros Hp; by apply (HPl _ Hp)|apply not_elem_of_nil]. }
  unfold install_body, log_get. rewrite !bind_gets, (lo_dev _ _ Hlog), (lo_start _ _ Hlog).
  replace (u32 (start + Z.of_nat i + 1)) with (slot i) by (unfold slot; rewrite u32_id; unfold slot in Hsr; lia).
  apply wp_bind. eapply bread_wp; try done; [apply not_elem_of_nil|right|].
  { destruct recovering; [destruct Hrec as [-> _]; unfold NBUF; simpl; lia|by destruct Hrec]. }
  intros lbuf h1 s1 Hs1 K1 Hio1. krun (lh_block_get_run s1 bl i blk h1 (log_ok_kept _ _ _ _ K1 Hlog) Hi). rewrite (u32_id blk) by lia.
  apply wp_bind. eapply bread_wp; try done; [simpl; set_solver| |].
  { destruct recovering; [right; destruct Hrec as [-> _]; unfold NBUF; simpl; lia|]. left. destruct Hrec as [-> _]. by left. }
  intros dbuf h2 s2 Hs2 K2 Hio2. eapply wp_data_get; [exact Hio2|by right; left|]. unfold id.
  eapply wp_data_set; [exact Hio2|by left|apply Hio|]. intros s3 K3 Hio3.
  apply wp_bind. eapply bwrite_wp; try done; [by left|by rewrite write_block_eq|].
  rewrite write_block_eq. fold d'. intros h4 s4 Hs4 K4 Hio4.
  assert (Hrest : forall h5 s5, in_syscall h5 pr -> kept pr s4 s5 ->
    io_ok pr s5 d' (write_block blk (v (slot i)) v) [(dbuf, blk); (lbuf, slot i)] P' ->
    wp pr C ((brelse lbuf;; brelse dbuf) h5 s5) d' Q).
  { intros h5 s5 Hs5 K5 Hio5. apply wp_bind. eapply brelse_wp; try done; [by eapply io_perm, Hio5; [apply Permutation_swap|]| |].
    { right. unfold d'. by rewrite !write_block_ne by done. }
    intros h6 s6 Hs6 K6 Hio6. eapply brelse_wp; try done; [right; unfold d'; by rewrite !write_block_eq|].
    intros h7 s7 Hs7 K7 Hio7. apply HQ; [done| |done]. repeat (eapply kept_trans; [eassumption|]). apply kept_refl. }
  destruct recovering; cbn [negb when].
  - ksimpl. destruct Hrec as [-> ->]. apply Hrest; [done|apply kept_refl|done].
  - eapply wp_bunpin; [done|eapply io_perm, Hio4; [done|apply Hrec]|by left|]. intros h5 s5 Hs5 K5 Hio5. by apply Hrest.
Qed.

(** Some of the blocks [bl] have been copied home. *)
Definition partly bl d d' : Prop := forall m, d' m = d m \/ exists i, bl !! i = Some m /\ d' m = d (slot i).
(** All of them have. *)
Definition installed bl d d' : Prop :=
  (forall i m, bl !! i = Some m -> d' m = d (slot i)) /\ (forall m, m ∉ bl -> d' m = d m).

(** The first [i] have. *)
Definition copied (i : nat) bl d d' : Prop :=
  (forall j m, (j < i)%nat -> bl !! j = Some m -> d' m = d (slot j)) /\
  (forall m, (forall j, bl !! j = Some m -> (i <= j)%nat) -> d' m = d m).

Lemma copied_partly i bl d d' : copied i bl d d' -> partly bl d d'.
Proof.
  intros [Hdone Hsame] m.
  destruct (decide (m ∈ take i bl)) as [(j & [Hm Hj]%lookup_take_Some)%list_elem_of_lookup|Hno].
  - right. exists j. split; [done|]. by apply Hdone.
  - left. apply Hsame. intros j Hm. destruct (decide (i <= j)%nat); [done|]. destruct Hno.
    apply (list_elem_of_lookup_2 _ j). apply lookup_take_Some. split; [done|lia].
Qed.

Lemma copied_all bl d d' : copied (length bl) bl d d' -> installed bl d d'.
Proof.
  intros [Hdone Hsame]. split.
  - intros i m Hm. apply Hdone; [by eapply lookup_lt_Some|done].
  - intros m Hm. apply Hsame. intros j Hj. destruct Hm. by eapply list_elem_of_lookup_2.
Qed.

Lemma copied_S i bl d d' m : NoDup bl -> bl !! i = Some m -> copied i bl d d' -> copied (S i) bl d (write_block m (d (slot i)) d').
Proof.
  intros Hnd Hi [Hdone Hsame]. split.
  - intros j m' Hj Hm. destruct (decide (j = i)) as [->|Hji]; [replace m' with m by congruence; by rewrite write_block_eq|].
    rewrite write_block_ne; [apply Hdone; [lia|done]|]. intros ->. apply Hji. by eapply NoDup_lookup.
  - intros m' Hm. rewrite write_block_ne; [apply Hsame; intros j Hj; specialize (Hm j Hj); lia|].
    intros ->. specialize (Hm i Hi). lia.
Qed.

Lemma install_trans_wp pr C h s d v (recovering : bool) P bl Q :
  in_syscall h pr -> io_ok pr s d v [] P -> log_ok s bl -> loggable bl ->
  (if recovering then P = [] else P = bl /\ (length bl < NBUF)%nat) ->
  (forall d', partly bl d d' -> C d') ->
  (forall h' s' d' v', in_syscall h' pr -> kept pr s s' -> io_ok pr s' d' v' [] [] -> installed bl d d' -> Q tt h' s' d') ->
  wp pr C (install_trans recovering h s) d Q.
Proof.
  intros Hs Hio Hlog Hlg HP HC HQ. unfold install_trans, log_get at 1. rewrite bind_gets, (lo_n _ _ Hlog), Nat2Z.id.
  change (wp pr C (forM (upto (length bl)) (install_body recovering) h s) d Q).
  set (pins := fun i => if recovering then [] else drop i bl).
  assert (Hpins : forall i m, m ∈ pins i -> ~ in_log m).
  { intros i m Hm. unfold pins in Hm. destruct recovering; [by apply elem_of_nil in Hm|].
    apply (lg_home _ Hlg). eapply subseteq_drop, Hm. }
  apply (wp_forM pr C (fun i h' s' d' => in_syscall h' pr /\ kept pr s s' /\ copied i bl d d' /\ exists v', io_ok pr s' d' v' [] (pins i))).
  - intros i h' s' d' (_ & _ & Hc & _). eapply HC, copied_partly, Hc.
  - split_and!; [done|apply kept_refl|split; [lia|done]|]. exists v. unfold pins. destruct recovering; [by subst|].
    rewrite drop_0. by destruct HP as [-> _].
  - intros i h' s' d' Hi (Hs' & K & Hc & v' & Hio'). destruct (lookup_lt_is_Some_2 bl i Hi) as [blk Hblk].
    destruct (loggable_slot bl i blk Hlg Hblk) as (Hib & Hnl & Hne). destruct (slot_range i Hib) as (Hsl & _ & _).
    assert (Hsv : v' (slot i) = d (slot i)).
    { replace (d (slot i)) with (d' (slot i)).
      - apply (io_clean _ _ _ _ _ _ Hio'); [intros Hp; by apply (Hpins _ _ Hp)|apply not_elem_of_nil].
      - apply Hc. intros j Hj. by destruct (lg_home _ Hlg (slot i) ltac:(by eapply list_elem_of_lookup_2)) as [_ []]. }
    pose proof (copied_S i bl d d' blk (lg_nodup _ Hlg) Hblk Hc) as Hc'.
    eapply (install_body_wp pr C h' s' d' v' recovering (pins i) (pins (S i)) bl i blk); try done; rewrite ?Hsv.
    + by eapply log_ok_kept.
    + unfold pins. destruct recovering; [done|]. erewrite drop_S by done. split; [done|]. destruct HP as [_ HP].
      erewrite <-drop_S by done. rewrite length_drop. lia.
    + apply Hpins.
    + eapply HC, copied_partly, Hc.
    + eapply HC, copied_partly, Hc'.
    + intros h2 s2 Hs2 K2 Hio2. split_and!; [done|by eapply kept_trans|done|]. eauto.
  - intros h' s' d' (Hs' & K & Hc & v' & Hio'). eapply HQ; try done; [|by apply copied_all].
    replace (pins (length bl)) with (@nil Z) in Hio'; [exact Hio'|]. unfold pins. destruct recovering; [done|].
    by rewrite drop_ge.
Qed.

(** ** The header *)

Lemma put_blocks_snoc i bl m hb : put_blocks i (bl ++ [m]) hb = put32 (put_blocks i bl hb) (4 + 4 * (i + length bl)) m.
Proof.
  revert i hb. induction bl as [|x bl IH]; intros i hb; cbn [put_blocks app length]; [by rewrite Nat.add_0_r|].
  rewrite IH. do 2 f_equal. lia.
Qed.

Lemma write_head_wp pr C h s d v P bl Q :
  in_syscall h pr -> io_ok pr s d v [] P -> log_ok s bl -> (length bl <= Z.to_nat LOGSIZE)%nat -> (length P < NBUF)%nat -> start ∉ P ->
  let d' := write_block start (put_head bl (d start)) d in C d -> C d' ->
  (forall h' s' v', in_syscall h' pr -> kept pr s s' -> io_ok pr s' d' v' [] P -> (forall m, m <> start -> v' m = v m) -> Q tt h' s' d') ->
  wp pr C (write_head h s) d Q.
Proof.
  intros Hs Hio Hlog Hlen HNB HnP d' HC HC' HQ. unfold write_head, log_get.
  rewrite !bind_gets, (lo_dev _ _ Hlog), (lo_start _ _ Hlog), (u32_id start) by (unfold LOGSIZE in *; lia).
  apply wp_bind. eapply bread_wp; try done; [apply not_elem_of_nil|unfold LOGSIZE in *; lia|by right|].
  intros buf h1 s1 Hs1 K1 Hio1. rewrite bind_gets, (kp_log _ _ _ K1), (lo_n _ _ Hlog), Nat2Z.id.
  assert (Ev : v start = d start) by (apply (io_clean _ _ _ _ _ _ Hio); [done|apply not_elem_of_nil]).
  pose proof (proj1 (io_len _ _ _ _ _ _ Hio) start) as Hl. change (Z.to_nat LOGSIZE) with 30%nat in Hlen.
  eapply wp_data_set; [exact Hio1|by left|apply length_put32; [unfold BSIZE; lia|done]|]. intros s2 K2 Hio2. rewrite Ev in Hio2, Hl.
  apply wp_bind. set (hb := put32 (d start) 0 (Z.of_nat (length bl))) in *.
  assert (Hhb : length hb = Z.to_nat BSIZE) by (apply length_put32; [unfold BSIZE; lia|done]).
  apply (wp_forM pr C (fun i h' s' d0 => d0 = d /\ in_syscall h' pr /\ kept pr s s' /\ exists v', io_ok pr s' d v' [(buf, start)] P /\
    v' start = put_blocks 0 (take i bl) hb /\ forall m, m <> start -> v' m = v m)).
  - by intros i h' s' d0 (-> & _).
  - split_and!; [done|done|by eapply kept_trans|]. eexists. split_and!; [exact Hio2|by rewrite write_block_eq|].
    intros m Hm. by rewrite write_block_ne.
  - intros i h' s' d0 Hi (-> & Hs' & K & v' & Hio' & Ev' & Hsame). destruct (lookup_lt_is_Some_2 bl i Hi) as [blk Hblk].
    krun (lh_block_get_run s' bl i blk h' (log_ok_kept _ _ _ _ K Hlog) Hblk). rewrite data_set_run. cbn [wp].
    split; [done|]. split_and!; [done|done|eapply kept_trans; [exact K|apply kept_bcache]|].
    exists (write_block start (put32 (v' start) (4 + 4 * i) blk) v'). split_and!.
    + apply (io_data_set pr s' d v' _ P buf start (fun hb => put32 hb (4 + 4 * i) blk) Hio'); [by left|].
      apply length_put32; [unfold BSIZE; lia|]. apply Hio'.
    + rewrite write_block_eq, Ev'. erewrite take_S_r by done. rewrite put_blocks_snoc, length_take, Nat.min_l by lia. done.
    + intros m Hm. rewrite write_block_ne by done. by apply Hsame.
  - intros h' s' d0 (-> & Hs' & K & v' & Hio' & Ev' & Hsame). rewrite take_ge in Ev' by done. fold (put_head bl (d start)) in Ev'.
    apply wp_bind. eapply bwrite_wp; try done; [by left|by rewrite Ev'|]. rewrite Ev'. intros h2 s2' Hs2 K2' Hio2'.
    eapply brelse_wp; try done; [right; by rewrite write_block_eq|]. intros h3 s3 Hs3 K3 Hio3. eapply HQ; try done.
    repeat (eapply kept_trans; [eassumption|]). apply kept_refl.
Qed.

(** ** Commit *)

Lemma redo_empty d m : committed d = [] -> redo d m = d m.
Proof. intros E. unfold redo. by rewrite E. Qed.

Lemma redo_in d bl i m : committed d = bl -> NoDup bl -> bl !! i = Some m -> redo d m = d (slot i).
Proof.
  intros E Hnd Hi. unfold redo. rewrite E. destruct (list_find (m =.) bl) as [[j m']|] eqn:Ef.
  - apply list_find_Some in Ef as (Hj & -> & _). by rewrite (NoDup_lookup _ _ _ _ Hnd Hj Hi).
  - apply list_find_None in Ef. by destruct (proj1 (Forall_lookup _ _) Ef i m Hi).
Qed.

Lemma redo_out d bl m : committed d = bl -> m ∉ bl -> redo d m = d m.
Proof.
  intros E Hm. unfold redo. rewrite E. destruct (list_find (m =.) bl) as [[j m']|] eqn:Ef; [|done].
  apply list_find_Some in Ef as (Hj & -> & _). destruct Hm. by eapply list_elem_of_lookup_2.
Qed.

(** A disk with a header that recovery can read. *)
Definition log_valid d : Prop := disk_ok d /\ 0 <= i32 (get32 (d start) 0) /\ loggable (committed d).

Lemma log_valid_same d d' : disk_ok d' -> d' start = d start -> log_valid d -> log_valid d'.
Proof. intros Hd E [_ H2']. unfold log_valid, committed. by rewrite E. Qed.

(** Recovery from [d'] leaves the blocks as they are on [d], or as they are in [v]. *)
Definition atomic d v d' : Prop :=
  log_valid d' /\ ((forall m, ~ in_log m -> redo d' m = d m) \/ (forall m, ~ in_log m -> redo d' m = v m)).

Lemma loggable_nil : loggable [].
Proof. constructor; [constructor|intros m Hm; by apply elem_of_nil in Hm|simpl; lia]. Qed.

Lemma io_log pr s d v G P l : io_ok pr s d v G P -> io_ok pr (set_k_log l s) d v G P.
Proof. intros []. by constructor. Qed.

(** The log may have changed. *)
Definition kept_but_log (pr : nat) s s' : Prop := kept pr s (set_k_log (k_log s) s').

Lemma kept_set_log pr s s' l : kept pr s s' -> kept_but_log pr s (set_k_log l s').
Proof. intros []. by constructor. Qed.

Lemma kept_but_log_trans pr s s' s'' : kept_but_log pr s s' -> kept pr s' s'' -> kept_but_log pr s s''.
Proof.
  intros [_ ? ? ? ? ? P1] [_ ? ? ? ? ? P2]. constructor; simpl in *; try congruence. intros x Hx.
  destruct (P1 x Hx) as (y & Hy & S1). destruct (P2 y Hy) as (z & Hz & S2). exists z. split; [done|]. by eapply same_proc_trans.
Qed.

Lemma log_ok_zero s bl : log_ok s bl -> log_ok (set_k_log (set_lh_n 0 (k_log s)) s) [].
Proof. intros []. by constructor. Qed.

(** What the disk means once the header is written, while the blocks are copied home. *)
Lemma redo_partly d d' bl : loggable bl -> committed d = bl -> partly bl d d' ->
  d' start = d start /\ committed d' = bl /\ forall m, ~ in_log m -> redo d' m = redo d m.
Proof.
  intros Hlg E Hp. pose proof (lg_nodup _ Hlg) as Hnd.
  assert (Hlog : forall k, in_log k -> d' k = d k).
  { intros k Hk. destruct (Hp k) as [|(i & Hi & _)]; [done|]. destruct (loggable_slot bl i k Hlg Hi) as (_ & [] & _). done. }
  assert (Es : d' start = d start) by (apply Hlog; unfold in_log, LOGSIZE; lia).
  assert (E' : committed d' = bl) by (unfold committed; by rewrite Es). split_and!; [done|done|].
  intros m Hm. destruct (decide (m ∈ bl)) as [(i & Hi)%list_elem_of_lookup|Hn].
  - rewrite !(redo_in _ bl i m) by done. apply Hlog. apply slot_range. by eapply loggable_slot.
  - rewrite !(redo_out _ bl m) by done. destruct (Hp m) as [|(i & Hi & _)]; [done|]. destruct Hn. by eapply list_elem_of_lookup_2.
Qed.

Lemma partly_ok bl d d' : disk_ok d -> partly bl d d' -> disk_ok d'.
Proof. intros Hd Hp m. destruct (Hp m) as [->|(i & _ & ->)]; apply Hd. Qed.

Lemma installed_partly bl d d' : installed bl d d' -> partly bl d d'.
Proof.
  intros [Hin Hout] m. destruct (decide (m ∈ bl)) as [(i & Hi)%list_elem_of_lookup|Hn]; [right|left]; eauto.
Qed.

Lemma installed_redo d d' bl : loggable bl -> committed d = bl -> installed bl d d' -> forall m, ~ in_log m -> d' m = redo d m.
Proof.
  intros Hlg E [Hin Hout] m _. destruct (decide (m ∈ bl)) as [(i & Hi)%list_elem_of_lookup|Hn].
  - rewrite (redo_in d bl i m E (lg_nodup _ Hlg) Hi). by apply Hin.
  - rewrite (redo_out d bl m E Hn). by apply Hout.
Qed.

Lemma loggable_forall bl : loggable bl -> Forall (fun m => 0 <= m < 2 ^ 31) bl.
Proof. intros Hlg. apply Forall_forall. intros m Hm. by apply (lg_home _ Hlg). Qed.

Lemma loggable_start bl : loggable bl -> start ∉ bl.
Proof. intros Hlg Hs. destruct (lg_home _ Hlg start Hs) as [_ []]. unfold in_log, LOGSIZE. lia. Qed.

Lemma head_written d bl hb : disk_ok d -> loggable bl -> length hb = Z.to_nat BSIZE ->
  let d' := write_block start (put_head bl hb) d in committed d' = bl /\ log_valid d'.
Proof.
  intros Hd Hlg Hhb d'. assert (E : committed d' = bl).
  { unfold committed, d'. rewrite write_block_eq. apply head_of_put; [by apply loggable_forall|by apply loggable_len|done]. }
  split; [done|]. split_and!; [|unfold d'; rewrite write_block_eq, put_head_count; [lia|by apply loggable_len|done]|by rewrite E].
  apply disk_ok_write; [done|]. apply length_put_head; [by apply loggable_len|done].
Qed.

(** With the header written, recovery makes [v] of the disk. *)
Lemma redo_new d d1 v bl hb : disk_ok d1 -> loggable bl -> length hb = Z.to_nat BSIZE ->
  (forall m, ~ in_data m -> d1 m = d m) -> (forall i m, bl !! i = Some m -> d1 (slot i) = v m) -> (forall m, m ∉ bl -> v m = d m) ->
  let d2 := write_block start (put_head bl hb) d1 in
  committed d2 = bl /\ log_valid d2 /\ forall m, ~ in_log m -> redo d2 m = v m.
Proof.
  intros Hd1 Hlg Hhb Hsame Hslots Hclean d2. destruct (head_written d1 bl hb Hd1 Hlg Hhb) as [E Hval].
  split_and!; [done|done|]. intros m Hm. destruct (decide (m ∈ bl)) as [(i & Hi)%list_elem_of_lookup|Hn].
  - rewrite (redo_in _ bl i m) by (done || apply Hlg). unfold d2. destruct (loggable_slot bl i m Hlg Hi) as (Hib & _).
    destruct (slot_range i Hib) as (_ & Hns & _). rewrite write_block_ne by done. by apply Hslots.
  - rewrite (redo_out _ bl m) by done. unfold d2. rewrite write_block_ne, Hsame, Hclean; [done|done| |].
    + unfold in_data, in_log in *. lia.
    + intros ->. apply Hm. unfold in_log, LOGSIZE. lia.
Qed.

Lemma commit_wp pr h s d v bl Q :
  in_syscall h pr -> io_ok pr s d v [] bl -> log_ok s bl -> loggable bl -> log_valid d -> committed d = [] ->
  (forall h' s' d' v', in_syscall h' pr -> kept_but_log pr s s' -> k_log s' = set_lh_n 0 (k_log s) -> io_ok pr s' d' v' [] [] ->
    log_valid d' -> committed d' = [] -> (forall m, ~ in_log m -> d' m = v m) -> Q tt h' s' d') ->
  wp pr (atomic d v) (commit h s) d Q.
Proof.
  intros Hs Hio Hlog Hlg Hval Hempty HQ. set (C := atomic d v). destruct (loggable_len _ Hlg) as [HNB _].
  assert (Hclean : forall m, m ∉ bl -> v m = d m) by (intros m Hm; by apply (io_clean _ _ _ _ _ _ Hio); [|apply not_elem_of_nil]).
  assert (Hold : forall d', disk_ok d' -> (forall m, ~ in_data m -> d' m = d m) -> C d').
  { intros d' Hdk Hd'. assert (E : committed d' = []) by (unfold committed; rewrite Hd'; [done|]; unfold in_data; lia).
    split; [eapply log_valid_same, Hval; [done|]; apply Hd'; unfold in_data; lia|]. left. intros m Hm. rewrite redo_empty by done.
    apply Hd'. unfold in_data, in_log in *. lia. }
  unfold commit, log_get at 1. rewrite bind_gets, (lo_n _ _ Hlog). destruct (Z.ltb_spec 0 (Z.of_nat (length bl))) as [Hpos|Hz]; cbn [when].
  2: { destruct bl; [|simpl in Hz; lia]. cbn [ret wp]. split; [apply Hold; [apply Hio|done]|]. eapply HQ; try done.
    - by destruct s; constructor; try done; intros x Hx; exists x; split; [|apply same_proc_refl].
    - pose proof (lo_n _ _ Hlog) as En. destruct (k_log s). simpl in En. by rewrite En.
    - intros m _. symmetry. apply Hclean, not_elem_of_nil. }
  apply wp_bind. eapply write_log_wp; try done. intros h1 s1 d1 v1 Hs1 K1 Hio1 Hsame1 Hslots1.
  assert (Hl : length (d start) = Z.to_nat BSIZE).
  { rewrite <-Hclean by (by apply loggable_start). apply Hio. }
  assert (E1 : d1 start = d start) by (apply Hsame1; unfold in_data; lia).
  destruct (redo_new d d1 v bl (d start) ltac:(apply Hio1) Hlg Hl ltac:(intros; by apply Hsame1) Hslots1 Hclean) as (Ehead & Hval2 & Enew).
  apply wp_bind. eapply (write_head_wp pr C h1 s1 d1 v1 bl bl); try done; rewrite ?E1.
  { by eapply log_ok_kept. } { by apply loggable_len. } { by apply loggable_start. }
  { apply Hold; [apply Hio1|]. intros; by apply Hsame1. } { split; [done|by right]. }
  set (d2 := write_block start (put_head bl (d start)) d1) in *. intros h2 s2 v2 Hs2 K2 Hio2 Hsame2.
  apply wp_bind. eapply (install_trans_wp pr C h2 s2 d2 v2 false bl bl); try done.
  { eapply log_ok_kept; [exact K2|]. by eapply log_ok_kept. }
  { intros d' Hp. destruct (redo_partly d2 d' bl Hlg Ehead Hp) as (Es & Ec & Er). split; [|right; intros m Hm; rewrite Er by done; by apply Enew].
    apply (log_valid_same d2); [|done|done]. eapply partly_ok; [apply Hio2|done]. }
  intros h3 s3 d3 v3 Hs3 K3 Hio3 Hin3. pose proof (installed_redo d2 d3 bl Hlg Ehead Hin3) as Ehome.
  assert (K03 : kept pr s s3) by (repeat (eapply kept_trans; [eassumption|]); apply kept_refl).
  unfold log_set. rewrite bind_modify. set (s4 := set_k_log _ s3).
  assert (Hl3 : length (d3 start) = Z.to_nat BSIZE).
  { rewrite <-(io_clean _ _ _ _ _ _ Hio3); [apply Hio3|apply not_elem_of_nil|apply not_elem_of_nil]. }
  destruct (head_written d3 [] (d3 start) ltac:(apply Hio3) loggable_nil Hl3) as [E4 Hval4].
  assert (Hhome : forall m, ~ in_log m -> write_block start (put_head [] (d3 start)) d3 m = v m).
  { intros m Hm. rewrite write_block_ne, Ehome; [by apply Enew|done|]. intros ->. apply Hm. unfold in_log, LOGSIZE. lia. }
  eapply (write_head_wp pr C h3 s4 d3 v3 [] []); try done.
  - by apply io_log.
  - eapply (log_ok_zero s3 bl), log_ok_kept; [exact K03|done].
  - simpl. lia.
  - simpl. unfold NBUF. lia.
  - apply not_elem_of_nil.
  - destruct (redo_partly d2 d3 bl Hlg Ehead (installed_partly _ _ _ Hin3)) as (Es & Ec & Er). split; [|right; intros m Hm; rewrite Er by done; by apply Enew].
    apply (log_valid_same d2); [apply Hio3|done|done].
  - split; [done|]. right. intros m Hm. rewrite redo_empty by done. by apply Hhome.
  - intros h5 s5 v5 Hs5 K5 Hio5 _. eapply HQ; try done.
    + eapply kept_but_log_trans; [by apply (kept_set_log pr s s3)|done].
    + rewrite (kp_log _ _ _ K5). unfold s4. simpl. by rewrite (kp_log _ _ _ K03).
Qed.

(** ** Recovery *)

Lemma take_insert_S {A} (l : list A) i x : (i < length l)%nat -> take (S i) (<[i := x]> l) = take i l ++ [x].
Proof.
  intros Hi. rewrite (take_S_r _ _ x) by (by apply list_lookup_insert_eq). by rewrite take_insert_ge by lia.
Qed.

Lemma head_of_lookup hb i m : head_of hb !! i = Some m -> m = i32 (get32 hb (4 + 4 * i)).
Proof. unfold head_of. rewrite list_lookup_fmap. intros (k & (Hk & _)%lookup_seq & ->)%fmap_Some. by subst. Qed.

Lemma read_head_wp pr C h s d v bl Q :
  in_syscall h pr -> io_ok pr s d v [] [] -> l_dev (k_log s) = disk_dev -> l_start (k_log s) = start ->
  length (lh_block (k_log s)) = Z.to_nat LOGSIZE -> log_valid d -> committed d = bl -> C d ->
  (forall h' s', in_syscall h' pr -> kept_but_log pr s s' -> log_ok s' bl -> io_ok pr s' d v [] [] -> Q tt h' s' d) ->
  wp pr C (read_head h s) d Q.
Proof.
  intros Hs Hio Hdev Hst Hlen (_ & Hcnt & Hlg) Hc HC HQ. rewrite Hc in Hlg. unfold read_head, log_get. rewrite !bind_gets, Hdev, Hst.
  rewrite (u32_id start) by (unfold LOGSIZE in *; lia).
  apply wp_bind. eapply bread_wp; try done; [apply not_elem_of_nil|unfold LOGSIZE in *; lia|right; unfold NBUF; simpl; lia|].
  intros buf h1 s1 Hs1 K1 Hio1. eapply wp_data_get; [exact Hio1|by left|]. unfold id.
  assert (Ev : v start = d start) by (apply (io_clean _ _ _ _ _ _ Hio); apply not_elem_of_nil). rewrite Ev. set (hb := d start) in *.
  assert (En : Z.to_nat (i32 (get32 hb 0)) = length bl).
  { rewrite <-Hc. unfold committed, head_of. by rewrite length_fmap, length_seq. }
  unfold log_set at 1. rewrite bind_modify, bind_gets. cbn [k_log set_k_log lh_n set_lh_n]. rewrite En. apply wp_bind.
  pose proof (kp_log _ _ _ K1) as El. set (s2 := set_k_log _ s1).
  apply (wp_forM pr C (fun i h' s' d' => d' = d /\ h' = h1 /\ exists lb, length lb = Z.to_nat LOGSIZE /\ take i lb = take i bl /\
    s' = set_k_log (set_lh_block lb (set_lh_n (i32 (get32 hb 0)) (k_log s1))) s1)).
  - by intros i h' s' d' (-> & _).
  - split_and!; [done|done|]. exists (lh_block (k_log s1)). rewrite El. split_and!; [done|done|]. subst s2. rewrite El.
    by destruct (k_log s).
  - intros i h' s' d' Hi (-> & -> & lb & Hlb & Htake & ->). destruct (lookup_lt_is_Some_2 bl i Hi) as [m Hm].
    destruct (loggable_len _ Hlg) as [_ Hlen30]. change (Z.to_nat LOGSIZE) with 30%nat in Hlb. assert (Em : i32 (get32 hb (4 + 4 * i)) = m) by (symmetry; apply head_of_lookup; by rewrite <-Hc in Hm).
    unfold lh_block_set, log_get, log_set. rewrite bind_gets. cbn [k_log set_k_log lh_block set_lh_block]. rewrite Hlb.
    rewrite (proj2 (Nat.ltb_lt _ _)) by lia. unfold modify. cbn [wp]. split; [done|]. split_and!; [done|done|].
    exists (<[i := m]> lb). split_and!; [by rewrite length_insert| |by rewrite Em].
    rewrite take_insert_S by lia. rewrite Htake. symmetry. by apply take_S_r.
  - intros h' s' d' (-> & -> & lb & Hlb & Htake & ->). set (s3 := set_k_log _ s1).
    assert (Hio3 : io_ok pr s3 d v [(buf, start)] []) by (by apply io_log).
    eapply brelse_wp; try done; [by right|]. intros h4 s4 Hs4 K4 Hio4. apply HQ; [done| | |done].
    + eapply kept_but_log_trans; [by apply (kept_set_log pr s s1)|done].
    + apply (log_ok_kept pr s3 s4 bl K4). rewrite (take_ge bl) in Htake by done. constructor; simpl; rewrite ?El; try done.
      rewrite <-En. by rewrite Z2Nat.id.
Qed.

Lemma kept_but_log_set pr s s' l : kept_but_log pr s s' -> kept_but_log pr s (set_k_log l s').
Proof. intros []. by constructor. Qed.

(** Recovery, interrupted at [d']. *)
Definition redone d d' : Prop := log_valid d' /\ forall m, ~ in_log m -> redo d' m = redo d m.

Lemma recover_from_log_wp pr C h s d v Q :
  in_syscall h pr -> io_ok pr s d v [] [] -> l_dev (k_log s) = disk_dev -> l_start (k_log s) = start ->
  length (lh_block (k_log s)) = Z.to_nat LOGSIZE -> log_valid d -> (forall d', redone d d' -> C d') ->
  (forall h' s' d' v', in_syscall h' pr -> kept_but_log pr s s' -> log_ok s' [] -> io_ok pr s' d' v' [] [] ->
    log_valid d' -> committed d' = [] -> (forall m, ~ in_log m -> d' m = redo d m) -> Q tt h' s' d') ->
  wp pr C (recover_from_log h s) d Q.
Proof.
  intros Hs Hio Hdev Hst Hlen Hval HC HQ. set (bl := committed d). pose proof Hval as (_ & _ & Hlg). fold bl in Hlg.
  unfold recover_from_log. apply wp_bind. eapply (read_head_wp pr C h s d v bl); try done; [by apply HC|].
  intros h1 s1 Hs1 K1 Hlog1 Hio1. apply wp_bind. eapply (install_trans_wp pr C h1 s1 d v true [] bl); try done.
  { intros d' Hp. apply HC. destruct (redo_partly d d' bl Hlg eq_refl Hp) as (Es & _ & Er). split; [|done].
    apply (log_valid_same d); [|done|done]. eapply partly_ok; [apply Hio|done]. }
  intros h2 s2 d2 v2 Hs2 K2 Hio2 Hin. pose proof (installed_redo d d2 bl Hlg eq_refl Hin) as Ehome.
  unfold log_set. rewrite bind_modify. set (s3 := set_k_log _ s2).
  assert (Hl2 : length (d2 start) = Z.to_nat BSIZE) by apply Hio2.
  destruct (head_written d2 [] (d2 start) ltac:(apply Hio2) loggable_nil Hl2) as [E4 Hval4].
  assert (Hhome : forall m, ~ in_log m -> write_block start (put_head [] (d2 start)) d2 m = redo d m).
  { intros m Hm. rewrite write_block_ne, Ehome; [done|done|]. intros ->. apply Hm. unfold in_log, LOGSIZE. lia. }
  eapply (write_head_wp pr C h2 s3 d2 v2 [] []); try done.
  - by apply io_log.
  - eapply (log_ok_zero s2 bl), log_ok_kept; [exact K2|done].
  - simpl. lia.
  - simpl. unfold NBUF. lia.
  - apply not_elem_of_nil.
  - apply HC. destruct (redo_partly d d2 bl Hlg eq_refl (installed_partly _ _ _ Hin)) as (Es & _ & Er). split; [|done].
    apply (log_valid_same d); [apply Hio2|done|done].
  - apply HC. split; [done|]. intros m Hm. rewrite redo_empty by done. by apply Hhome.
  - intros h5 s5 v5 Hs5 K5 Hio5 _. eapply HQ; try done.
    + eapply kept_but_log_trans; [|exact K5]. apply kept_but_log_set. by eapply kept_but_log_trans.
    + eapply log_ok_kept; [exact K5|]. eapply (log_ok_zero s2 bl), log_ok_kept; [exact K2|done].
Qed.

Lemma initlog_wp pr C h s d v Q :
  in_syscall h pr -> io_ok pr s d v [] [] -> sb_logstart (k_sb s) = start ->
  length (lh_block (k_log s)) = Z.to_nat LOGSIZE -> log_valid d -> (forall d', redone d d' -> C d') ->
  (forall h' s' d' v', in_syscall h' pr -> kept_but_log pr s s' -> log_ok s' [] -> io_ok pr s' d' v' [] [] ->
    log_valid d' -> committed d' = [] -> (forall m, ~ in_log m -> d' m = redo d m) -> Q tt h' s' d') ->
  wp pr C (initlog disk_dev h s) d Q.
Proof.
  intros Hs Hio Hst Hlen Hval HC HQ. unfold initlog, log_set. rewrite !bind_gets, !bind_modify. set (s1 := set_k_log _ _).
  eapply (recover_from_log_wp pr C h s1 d v); try done.
  - by do 3 apply io_log.
  - simpl. rewrite Hst. apply i32_id. unfold LOGSIZE in *. lia.
  - intros h' s' d' v' Hs' K. eapply HQ; try done. destruct K as [? ? ? ? ? ? P]. constructor; try done.
Qed.

End log.

(** C6: the log is crash safe. A process commits a transaction of up to LOGSIZE - 1 blocks
    [bl]; [d] is the disk before and [v] the contents the blocks have in the buffer
    cache. Commit returns with the blocks on the disk and the log empty. Whenever the
    machine stops on the way, the log on the disk is readable, and initlog on the next
    boot returns with an empty log and either all of the blocks as they were before or
    all of them as the transaction left them; this also holds when recovery is itself
    stopped any number of times. *)
Theorem log_crash_safe `{Layout} `{Symbols} `{WaitPos} `{DeviceOk} `{DiskDev} (start : Z) (pr : nat) (h : hart) (s : kernel)
    (d v : disk) (bl : list Z) :
  0 <= start /\ start + LOGSIZE < 2 ^ 31 ->
  in_syscall h pr -> io_ok pr s d v [] bl -> log_ok start s bl -> loggable start bl ->
  log_valid start d -> committed start d = [] ->
  wp pr (atomic start d v) (commit h s) d
    (fun _ h' s' d' => in_syscall h' pr /\ lh_n (k_log s') = 0 /\ committed start d' = [] /\
       forall m, ~ in_log start m -> d' m = v m) /\
  forall d1, atomic start d v d1 ->
  forall pr0 h0 s0, in_syscall h0 pr0 -> fresh pr0 s0 -> sb_logstart (k_sb s0) = start ->
    length (lh_block (k_log s0)) = Z.to_nat LOGSIZE ->
  wp pr0 (atomic start d v) (initlog disk_dev h0 s0) d1
    (fun _ _ s' d2 => lh_n (k_log s') = 0 /\ committed start d2 = [] /\
       ((forall m, ~ in_log start m -> d2 m = d m) \/ (forall m, ~ in_log start m -> d2 m = v m))).
Proof.
  intros Hst Hs Hio Hlog Hlg Hval Hempty. split.
  - eapply commit_wp; try done. intros h' s' d' v' Hs' _ El _ _ Ec Hd'. rewrite El. done.
  - intros d1 [Hval1 Hat] pr0 h0 s0 Hs0 Hf Hsb Hlb.
    assert (Hre : forall d', redone start d1 d' -> atomic start d v d').
    { intros d' [Hv' Hr]. split; [done|]. destruct Hat as [Ho|Hn]; [left|right]; intros m Hm; rewrite Hr; auto. }
    eapply (initlog_wp start Hst pr0 _ h0 s0 d1 d1); try done; [by apply io_fresh; [|apply Hval1]|].
    intros h' s' d2 v2 _ _ Hlog2 _ _ Ec Hd2. split_and!; [apply (lo_n _ _ _ Hlog2)|done|].
    destruct Hat as [Ho|Hn]; [left|right]; intros m Hm; rewrite Hd2; auto.
Qed.

#[local] Opaque demo_bcache.

(** Block 50 has been changed and logged; the log begins at block 2 of an empty disk. *)
Definition demo_disk : disk := fun _ => replicate 1024 0.
Definition demo_view : disk := write_block 50 (replicate 1024 7) demo_disk.
Definition demo_logged : kernel :=
  set_k_log (Log 2 30 1 1 1 1 (50 :: replicate 29 0))
    (set_k_bcache (upd_buf 0 (fun x => Buf 1 0 1 50 (b_lock x) 1 (b_prev x) (b_next x) (replicate 1024 7)) demo_bcache) demo_kernel).

Lemma demo_logged_ok : io_ok 0 demo_logged demo_disk demo_view [] [50].
Proof.
  apply io_log. pose proof (io_fresh 0 demo_cached demo_disk demo_fresh ltac:(done)) as Hio.
  assert (Hlt : (0 < length (bc_buf demo_bcache))%nat) by (rewrite (lru_len _ _ demo_lru); unfold NBUF; lia).
  destruct (lookup_lt_is_Some_2 _ _ Hlt) as [x Hx]. destruct (demo_bufs 0 x Hx) as (X1 & X2 & X3 & X4).
  set (s1 := set_k_bcache _ demo_kernel). assert (Ey : k_proc s1 !! 0%nat = Some demo_running) by reflexivity.
  apply (io_change 0 demo_cached s1 demo_disk demo_disk demo_disk demo_view [] [] [] [50] 0 x
    (Buf 1 0 1 50 (b_lock x) 1 (b_prev x) (b_next x) (replicate 1024 7)) 50 demo_running Hio).
  - apply (kept_bcache 0 demo_cached).
  - exact demo_idle.
  - exists (reverse (upto NBUF)). split; [apply lru_upd; [done|done|exact demo_lru]|apply reverse_Permutation].
  - exact Hx.
  - intros c z _ Hz Hzd. destruct (demo_bufs c z Hz) as (_ & Ez & _). rewrite Ez in Hzd. discriminate.
  - intros Hxd. rewrite X2 in Hxd. discriminate.
  - exact (rebuffered_upd demo_cached 0 x _ s1 Hx eq_refl).
  - reflexivity.
  - reflexivity.
  - exact Ey.
  - constructor; [reflexivity|reflexivity|reflexivity|simpl; lia|reflexivity|exact X4].
  - clear. constructor; [done|intros m Hm; by apply write_block_ne| |by intros c m ?%elem_of_nil].
    intros m Hm. rewrite list_elem_of_singleton. split; [by intros ?%elem_of_nil|done].
  - clear. intros m Hm _. apply write_block_ne. intros ->. apply Hm. by left.
  - reflexivity.
  - intros n. reflexivity.
  - split_and!; [constructor|constructor|apply NoDup_singleton].
Qed.

Lemma demo_loggable : loggable 2 [50].
Proof.
  constructor; [apply NoDup_singleton| |simpl; unfold nslots, LOGSIZE; lia].
  intros m ->%list_elem_of_singleton. unfold in_log, LOGSIZE. lia.
Qed.

Lemma log_crash_safe_witness :
  wp 0 (atomic 2 demo_disk demo_view) (commit demo_user_hart demo_logged) demo_disk
    (fun _ h' s' d' => in_syscall h' 0 /\ lh_n (k_log s') = 0 /\ committed 2 d' = [] /\
       forall m, ~ in_log 2 m -> d' m = demo_view m).
Proof.
  destruct (log_crash_safe 2 0 demo_user_hart demo_logged demo_disk demo_view [50]) as [Hc _].
  - unfold LOGSIZE. lia.
  - split; [reflexivity|split; reflexivity].
  - exact demo_logged_ok.
  - constructor; reflexivity.
  - exact demo_loggable.
  - split; [intros n; reflexivity|]. split; [vm_compute; discriminate|]. apply loggable_nil.
  - reflexivity.
  - exact Hc.
Defined.
