(* ===== verification/Transaction.v ===== *)
(** * Transaction

    The code of kernel/fs.c runs between begin_op and end_op: it changes buffers, hands
    them to log_write, and the disk stays as it is until end_op commits. *)
From stdpp Require Import base tactics list numbers gmap strings.
From S2P Require Import Prelude Machine Spinlock Printf Bytes Block Queue Kalloc Vm Kernel Proc ProcFacts.
From S2P Require Import Sleeplock Virtio Bio Log Discipline ProcProps BioProps Storage BlockIO LogProps Examples.

Lemma kept_but_log_relog pr s l s' : kept_but_log pr (set_k_log l s) s' -> kept_but_log pr s s'.
Proof. intros []. by constructor. Qed.

(** The blocks of a transaction once block [n] is in it. *)
Definition logged (n : Z) (P : list Z) : list Z := if decide (n ∈ P) then P else P ++ [n].

Lemma logged_in n P : n ∈ logged n P.
Proof. unfold logged. case_decide; [done|]. apply elem_of_app. right. by left. Qed.

Lemma logged_mono n P : P ⊆ logged n P.
Proof. unfold logged. case_decide; [done|]. intros x Hx. apply elem_of_app. by left. Qed.

Lemma logged_old n P : n ∈ P -> logged n P = P.
Proof. intros Hn. unfold logged. by rewrite decide_True. Qed.

Lemma logged_len n P : (length (logged n P) <= S (length P))%nat.
Proof. unfold logged. case_decide; rewrite ?length_app; simpl; lia. Qed.

Lemma logged_elem m n P : m ∈ logged n P <-> m = n \/ m ∈ P.
Proof. unfold logged. case_decide; [naive_solver|]. rewrite elem_of_app, list_elem_of_singleton. tauto. Qed.

(** The loop of log_write finds the block or the end. *)
Lemma absorb_index_spec bl P n i : take (length P) (drop i bl) = P -> Forall (fun m => 0 <= m < 2 ^ 31) P ->
  absorb_index i (length P) bl n = (i + from_option fst (length P) (list_find (n =.) P))%nat.
Proof.
  revert i. induction P as [|m P IH]; intros i Ht HP; cbn [length absorb_index].
  - simpl. lia.
  - apply Forall_cons in HP as [Hm HP]. destruct (bl !! i) as [x|] eqn:Ex.
    2: { rewrite drop_ge in Ht by (by apply lookup_ge_None). done. }
    rewrite (drop_S _ _ _ Ex) in Ht. cbn [length take] in Ht. injection Ht as -> Ht. simpl. rewrite u32_id by lia.
    destruct (Z.eqb_spec m n) as [->|Hne]; [rewrite decide_True by done; simpl; lia|].
    rewrite decide_False by congruence. rewrite (IH (S i) Ht HP). destruct (list_find (n =.) P) as [[j y]|]; simpl; lia.
Qed.

Lemma kept_but_log_refl pr s : kept_but_log pr s s.
Proof. constructor; try done. intros x Hx. exists x. split; [done|apply same_proc_refl]. Qed.

Lemma kept_kept_but_log pr s s' : kept pr s s' -> kept_but_log pr s s'.
Proof. intros []. by constructor. Qed.

Lemma kept_but_log_comp pr s s' s'' : kept_but_log pr s s' -> kept_but_log pr s' s'' -> kept_but_log pr s s''.
Proof.
  intros K K'. unfold kept_but_log. apply (kept_trans pr s (set_k_log (k_log s) s')); [done|].
  destruct K'; constructor; done.
Qed.

(** The state at the end of a chain of steps. *)
Ltac kept_step := first [eassumption | eapply kept_kept_but_log; eassumption].
Ltac kept_chain := first [apply kept_but_log_refl | kept_step | eapply kept_but_log_comp; [kept_step|kept_chain]].

Section txn.
Context `{Layout} `{Symbols} `{WaitPos} `{DeviceOk} `{DiskDev}.
Context (start : Z) (start_range : 0 <= start /\ start + LOGSIZE < 2 ^ 31).
(** Process [pr] runs; the disk is [d]. *)
Context (pr : nat) (C : disk -> Prop) (d : disk) (d_ok : C d).
Implicit Types (s : kernel) (h : hart) (v : disk) (G : list (nat * Z)) (P : list Z) (b : nat) (n : Z).

(** Inside a transaction, with the blocks [P] logged and the buffers [G] held. *)
Record txn s v G P : Prop := {
  tx_io : io_ok pr s d v G P;
  tx_log : log_ok start s P;
  tx_lg : loggable start P;
  tx_size : l_size (k_log s) = LOGSIZE;
  tx_open : l_outstanding (k_log s) = 1 /\ l_committing (k_log s) = 0;
}.

Lemma txn_kept s s' v v' G G' P : txn s v G P -> kept pr s s' -> io_ok pr s' d v' G' P -> txn s' v' G' P.
Proof.
  intros [_ Hlog Hlg Hsz Ho] K Hio. constructor; [done|by eapply log_ok_kept|done|..]; by rewrite (kp_log _ _ _ K).
Qed.

Lemma txn_perm s v G G' P : G ≡ₚ G' -> txn s v G P -> txn s v G' P.
Proof. intros HG [Hio]. constructor; try done. by eapply io_perm. Qed.

Lemma tx_clean s v G P n : txn s v G P -> n ∉ G.*2 -> n ∈ P \/ v n = d n.
Proof.
  intros [Hio] Hn. destruct (decide (n ∈ P)); [by left|right]. by apply (io_clean _ _ _ _ _ _ Hio).
Qed.

Lemma tx_block s v G P n : txn s v G P -> length (v n) = Z.to_nat BSIZE.
Proof. intros [Hio]. apply Hio. Qed.

Lemma bread_tx h s v G P n Q : in_syscall h pr -> txn s v G P -> n ∉ G.*2 -> 0 <= n < 2 ^ 31 ->
  n ∈ P \/ (length G + length P < NBUF)%nat ->
  (forall b h' s', in_syscall h' pr -> kept pr s s' -> txn s' v ((b, n) :: G) P -> Q b h' s' d) ->
  wp pr C (bread disk_dev n h s) d Q.
Proof.
  intros Hs Ht Hn Hr Hroom HQ. eapply bread_wp; try done; [apply Ht|]. intros b h' s' Hs' K Hio. apply HQ; [done|done|].
  by eapply txn_kept.
Qed.

Lemma brelse_tx h s v G P b n Q : in_syscall h pr -> txn s v ((b, n) :: G) P -> n ∈ P \/ v n = d n ->
  (forall h' s', in_syscall h' pr -> kept pr s s' -> txn s' v G P -> Q tt h' s' d) ->
  wp pr C (brelse b h s) d Q.
Proof.
  intros Hs Ht Hn HQ. eapply brelse_wp; try done; [apply Ht|]. intros h' s' Hs' K Hio. apply HQ; [done|done|]. by eapply txn_kept.
Qed.

Lemma data_get_tx {A B} (g : list Z -> A) (f : A -> K kernel B) h s v G P b n Q : txn s v G P -> (b, n) ∈ G ->
  wp pr C (f (g (v n)) h s) d Q -> wp pr C (bind (data_get b g) f h s) d Q.
Proof. intros Ht. eapply wp_data_get. apply Ht. Qed.

Lemma data_set_tx {B} g (f : unit -> K kernel B) h s v G P b n Q : txn s v G P -> (b, n) ∈ G ->
  length (g (v n)) = Z.to_nat BSIZE ->
  (forall s', kept pr s s' -> txn s' (write_block n (g (v n)) v) G P -> wp pr C (f tt h s') d Q) ->
  wp pr C (bind (data_set b g) f h s) d Q.
Proof.
  intros Ht Hb Hl Hf. eapply wp_data_set; [apply Ht|done|done|]. intros s' K Hio. apply Hf; [done|]. by eapply txn_kept.
Qed.

(** ** log_write *)

Lemma loggable_logged n P : loggable start P -> (length P < nslots)%nat -> 0 <= n < 2 ^ 31 -> ~ in_log start n ->
  loggable start (logged n P).
Proof.
  intros [Hnd Hh Hl] Hlt Hr Hn. unfold logged. case_decide; [done|]. constructor.
  - apply NoDup_app. split_and!; [done| |apply NoDup_singleton]. by intros m Hm ->%list_elem_of_singleton.
  - intros m [Hm| ->%list_elem_of_singleton]%elem_of_app; auto.
  - rewrite length_app. simpl. lia.
Qed.

(** The log with [n] at its index. *)
Definition log_with (l : log_t) n P : log_t :=
  match list_find (n =.) P with
  | Some (i, _) => set_lh_block (<[i := n]> (lh_block l)) l
  | None => set_lh_n (lh_n l + 1) (set_lh_block (<[length P := n]> (lh_block l)) l)
  end.

Lemma log_with_ok s n P l : log_ok start s P -> loggable start P -> (length P < nslots)%nat -> l = log_with (k_log s) n P ->
  log_ok start (set_k_log l s) (logged n P).
Proof.
  intros [Hd Hst Hn Hl Hb] Hlg Hlt ->. unfold log_with, logged. destruct (list_find (n =.) P) as [[i x]|] eqn:E.
  - apply list_find_Some in E as (Hi & <- & _). pose proof (list_elem_of_lookup_2 _ _ _ Hi) as Hin.
    rewrite decide_True by done. constructor; simpl; try done; [by rewrite length_insert|].
    rewrite list_insert_id; [done|]. rewrite <-Hb in Hi. by apply lookup_take_Some in Hi as [? _].
  - apply list_find_None in E. rewrite decide_False.
    2: { intros Hin. by apply (proj1 (Forall_forall _ _) E n Hin). }
    constructor; simpl; try done; [rewrite Hn, length_app; simpl; lia|by rewrite length_insert|].
    rewrite length_app. simpl. rewrite Nat.add_1_r, take_insert_S, Hb; [done|]. rewrite Hl. unfold nslots, LOGSIZE in *. lia.
Qed.

(** log_write enters the block of a held buffer into the transaction. *)
Lemma log_write_run h s v G P b n : in_syscall h pr -> txn s v G P -> (b, n) ∈ G -> (length P < nslots)%nat -> ~ in_log start n ->
  exists s', log_write b h s = Done tt (settle h) s' /\ kept_but_log pr s s' /\ txn s' v G (logged n P).
Proof.
  intros Hs Ht Hb Hlt Hnl. destruct (syscall_locked L_log h pr Hs ltac:(done)) as (Hwf & _ & Hset & _ & Hheld & _).
  destruct (io_data _ _ _ _ _ _ _ _ (tx_io _ _ _ _ Ht) Hb) as (x & Hx & _ & Ex).
  destruct (io_held_buf _ _ _ _ _ _ _ _ (tx_io _ _ _ _ Ht) Hb) as (x' & y & Hx' & _ & _ & Hu & _). assert (x' = x) as -> by congruence.
  assert (Hr : 0 <= n < 2 ^ 31) by (rewrite <-Ex; apply Hu). pose proof (tx_log _ _ _ _ Ht) as Hlog.
  pose proof (lo_n _ _ _ Hlog) as En. pose proof (lo_len _ _ _ Hlog) as El.
  assert (HnB : L_bcache ∉ h_held (locked L_log h)) by (rewrite Hheld; intros Hc%list_elem_of_singleton; done).
  assert (Erel : forall t : kernel, release L_log (locked L_log h) t = Done tt (settle h) t).
  { intros t. apply release_run; [by eapply in_syscall_wf|by eapply in_syscall_notin|apply calm_refl]. }
  unfold log_write. krun (acquire_run L_log h s (in_syscall_notin _ _ _ Hs)). unfold log_get, log_set. rewrite bind_gets. unfold id.
  rewrite En, (tx_size _ _ _ _ Ht). unfold nslots, LOGSIZE in *.
  rewrite (proj2 (Z.leb_gt _ _)), (proj2 (Z.leb_gt _ _)) by lia. cbn [orb].
  rewrite (proj1 (tx_open _ _ _ _ Ht)). cbn [Z.ltb Z.compare Pos.compare Pos.compare_cont].
  rewrite (bind_buf_get _ _ _ _ _ _ Hx), Ex, Nat2Z.id, (absorb_index_spec _ P n 0), (i32_id n); [|lia|apply (lo_blocks _ _ _ Hlog)|eapply loggable_forall, Ht].
  set (i := (0 + _)%nat). assert (Hi : (i <= length P)%nat).
  { subst i. destruct (list_find (n =.) P) as [[j z]|] eqn:E; simpl; [|lia]. apply list_find_Some in E as (Hj & _). apply lookup_lt_Some in Hj. lia. }
  unfold lh_block_set, log_get, log_set. rewrite bind_assoc, bind_gets. rewrite El, (proj2 (Nat.ltb_lt _ _)) by lia. rewrite bind_modify.
  assert (Hfin : forall l s1, l = log_with (k_log s) n P -> kept pr s s1 -> io_ok pr s1 d v G (logged n P) ->
    kept_but_log pr s (set_k_log l s1) /\ txn (set_k_log l s1) v G (logged n P)).
  { intros l s1 E K Hio. split; [by apply kept_set_log|]. constructor; [by apply io_log| |by apply loggable_logged; [apply Ht|..]|..].
    - apply (log_with_ok s1 n P l); [by eapply log_ok_kept|apply Ht|done|by rewrite (kp_log _ _ _ K)].
    - simpl. rewrite E, <-(tx_size _ _ _ _ Ht). unfold log_with. by destruct (list_find _ _) as [[]|].
    - simpl. rewrite E. pose proof (tx_open _ _ _ _ Ht). unfold log_with. by destruct (list_find _ _) as [[]|]. }
  destruct (list_find (n =.) P) as [[j z]|] eqn:E; subst i; simpl.
  - pose proof E as (Hj & <- & _)%list_find_Some. rewrite (proj2 (Z.eqb_neq _ _)) by (apply lookup_lt_Some in Hj; lia). ksimpl.
    eexists. split; [apply Erel|]. apply Hfin; [|apply kept_refl|]; unfold log_with; rewrite ?E; [done|].
    rewrite logged_old by (by eapply list_elem_of_lookup_2). apply Ht.
  - rewrite Z.eqb_refl. unfold when. rewrite bind_assoc. krun (bpin_run b (locked L_log h)
      (set_k_log (set_lh_block (<[length P := n]> (lh_block (k_log s))) (k_log s)) s) Hwf HnB).
    rewrite Hset, bind_modify. eexists. split; [apply Erel|].
    apply (Hfin _ (set_k_bcache (upd_buf b grabbed (k_bcache s)) s)); [unfold log_with; by rewrite E|apply kept_bcache|].
    assert (Hni : n ∉ P) by (intros Hin; apply list_find_None in E; by apply (proj1 (Forall_forall _ _) E n Hin)).
    eapply io_perm, io_pin; [done| |apply Ht|done|done]. unfold logged. rewrite decide_False by done. by rewrite (Permutation_app_comm P).
Qed.

Lemma log_write_tx {B} (f : unit -> K kernel B) h s v G P b n Q : in_syscall h pr -> txn s v G P -> (b, n) ∈ G ->
  (length P < nslots)%nat -> ~ in_log start n ->
  (forall h' s', in_syscall h' pr -> kept_but_log pr s s' -> txn s' v G (logged n P) -> wp pr C (f tt h' s') d Q) ->
  wp pr C (bind (log_write b) f h s) d Q.
Proof.
  intros Hs Ht Hb Hlt Hn Hf. destruct (log_write_run h s v G P b n Hs Ht Hb Hlt Hn) as (s' & E & K & Ht').
  eapply wp_run; [exact E|]. apply Hf; [by apply in_syscall_settle|done|done].
Qed.

End txn.

(** ** begin_op and end_op *)

Section op.
Context `{Layout} `{Symbols} `{WaitPos} `{DeviceOk} `{DiskDev}.
Context (start : Z) (start_range : 0 <= start /\ start + LOGSIZE < 2 ^ 31).
Implicit Types (s : kernel) (h : hart) (d v : disk) (P : list Z) (pr : nat).

(** No operation is under way. *)
Record quiet pr s d v : Prop := {
  qt_io : io_ok pr s d v [] [];
  qt_log : log_ok start s [];
  qt_size : l_size (k_log s) = LOGSIZE;
  qt_closed : l_outstanding (k_log s) = 0 /\ l_committing (k_log s) = 0;
  qt_disk : log_valid start d /\ committed start d = [];
}.

(** begin_op lets an operation in when the log has room for MAXOPBLOCKS blocks of each. *)
Lemma begin_op_admits pr h s : in_syscall h pr -> l_committing (k_log s) = 0 -> lh_n (k_log s) + (l_outstanding (k_log s) + 1) * MAXOPBLOCKS <= LOGSIZE ->
  begin_op h s = Done tt (settle h) (set_k_log (set_l_outstanding (l_outstanding (k_log s) + 1) (k_log s)) s).
Proof.
  intros Hs Hc Hn. unfold begin_op. krun (acquire_run L_log h s (in_syscall_notin _ _ _ Hs)).
  destruct wait_fuel; cbn [begin_op_loop]; unfold log_get, log_set; rewrite bind_gets; unfold id; rewrite Hc; cbn [truthy negb Z.eqb andb];
    rewrite (proj2 (Z.leb_le _ _)) by done; rewrite bind_modify;
    (apply release_run; [by eapply in_syscall_wf|by eapply in_syscall_notin|apply calm_refl]).
Qed.

Lemma begin_op_run pr h s d v : in_syscall h pr -> quiet pr s d v ->
  exists s', begin_op h s = Done tt (settle h) s' /\ kept_but_log pr s s' /\ txn start pr d s' v [] [].
Proof.
  intros Hs [Hio Hlog Hsz (Ho & Hc) _]. pose proof (lo_n _ _ _ Hlog) as En. simpl in En.
  rewrite (begin_op_admits pr) by (rewrite ?Ho, ?En; unfold MAXOPBLOCKS, LOGSIZE; done || lia). rewrite Ho.
  eexists. split; [done|]. split; [apply kept_set_log, kept_refl|]. constructor; [by apply io_log| |apply loggable_nil|done|done].
  destruct Hlog. by constructor.
Qed.

(** The transaction reaches the disk as a whole. *)
Lemma end_op_wp pr h s d v P Q : in_syscall h pr -> txn start pr d s v [] P -> log_valid start d -> committed start d = [] ->
  (forall h' s' d' v', in_syscall h' pr -> kept_but_log pr s s' -> quiet pr s' d' v' -> (forall m, ~ in_log start m -> d' m = v m) -> Q tt h' s' d') ->
  wp pr (atomic start d v) (end_op h s) d Q.
Proof.
  intros Hs [Hio Hlog Hlg Hsz (Ho & Hc)] Hval Hcom HQ. unfold end_op, log_get, log_set.
  krun (acquire_run L_log h s (in_syscall_notin _ _ _ Hs)). rewrite bind_modify, bind_gets. unfold id. cbn [k_log set_k_log].
  cbn [l_committing l_outstanding set_l_outstanding]. rewrite Ho, Hc. cbn [truthy negb Z.eqb].
  change (1 - 1) with 0. cbn [Z.eqb when]. rewrite bind_modify. cbn [k_log set_k_log].
  set (s1 := set_k_log (set_l_committing _ _) _).
  assert (Erel : forall g (t : kernel), in_syscall g pr -> release L_log (locked L_log g) t = Done tt (settle g) t).
  { intros g t Hg. apply release_run; [by eapply in_syscall_wf|by eapply in_syscall_notin|apply calm_refl]. }
  krun (Erel h s1 Hs). apply in_syscall_settle in Hs as Hs1.
  apply wp_bind. eapply commit_wp; try done; [by apply io_log, io_log|by destruct Hlog|].
  intros h2 s2 d2 v2 Hs2 K2 El2 Hio2 Hval2 Hcom2 Hd2.
  krun (acquire_run L_log h2 s2 (in_syscall_notin _ _ _ Hs2)). rewrite bind_modify. set (s3 := set_k_log _ s2).
  destruct (syscall_locked L_log h2 pr Hs2 ltac:(done)) as (Hwf & Hf & Hset & Hp & _).
  pose proof (wakeup_run Ch_log _ s3 Hwf Hf (io_procs _ _ _ _ _ _ Hio2)) as Ew. rewrite Hset, Hp in Ew. krun Ew.
  rewrite (Erel h2 _ Hs2). cbn [wp]. split; [split; [done|right; intros m Hm; rewrite redo_empty by done; by apply Hd2]|].
  pose proof (kept_woken pr Ch_log s3) as K3. apply HQ with v2; [by apply in_syscall_settle| | |done].
  - eapply kept_but_log_relog, kept_but_log_relog, kept_but_log_comp; [exact K2|].
    by eapply kept_but_log_relog, kept_kept_but_log.
  - constructor; simpl; rewrite ?El2; try done; [|by destruct Hlog; constructor; simpl; rewrite ?El2].
    eapply io_same_cache; [by apply io_log, Hio2|exact K3|apply Hio2|done|done|apply Hio2].
Qed.

End op.

(** ** The reservation and the size of the log *)

Lemma log_write_full `{Layout} `{Symbols} `{WaitFuel} pr h s b : in_syscall h pr -> l_size (k_log s) - 1 <= lh_n (k_log s) ->
  log_write b h s = Panic "too big a transaction".
Proof.
  intros Hs Hf. unfold log_write. krun (acquire_run L_log h s (in_syscall_notin _ _ _ Hs)). unfold log_get. rewrite bind_gets. unfold id.
  by rewrite (proj2 (Z.leb_le _ _) Hf), orb_true_r.
Qed.

(** C32: The log has room for one block less than begin_op hands out. Of the LOGSIZE blocks
    of the log area one is the header. With two operations under way and nothing logged
    begin_op still lets a third one in, so that the three may log MAXOPBLOCKS blocks each,
    LOGSIZE in all; but the log_write of the last of these blocks panics. *)
Theorem reservation_exceeds_log `{Layout} `{Symbols} `{WaitFuel} (pr : nat) (h : hart) (s : kernel) :
  in_syscall h pr -> l_size (k_log s) = LOGSIZE -> l_committing (k_log s) = 0 -> l_outstanding (k_log s) = 2 -> lh_n (k_log s) = 0 ->
  begin_op h s = Done tt (settle h) (set_k_log (set_l_outstanding 3 (k_log s)) s) /\
  LOGSIZE - 1 < 3 * MAXOPBLOCKS /\
  forall s1 b, l_size (k_log s1) = l_size (k_log s) -> lh_n (k_log s1) = LOGSIZE - 1 -> log_write b (settle h) s1 = Panic "too big a transaction".
Proof.
  intros Hs Hz Hc Ho Hn. rewrite (begin_op_admits pr), Ho by (rewrite ?Ho, ?Hn; done). split; [done|]. split; [done|].
  intros s1 b E1 E2. apply (log_write_full pr); [by apply in_syscall_settle|]. by rewrite E1, E2, Hz.
Qed.

Definition demo_busy_log : log_t := Log 2 30 2 0 1 0 (replicate 30 0).

Lemma reservation_exceeds_log_witness :
  begin_op demo_user_hart (set_k_log demo_busy_log demo_kernel) =
    Done tt (settle demo_user_hart) (set_k_log (set_l_outstanding 3 demo_busy_log) demo_kernel) /\
  forall s1 b, l_size (k_log s1) = 30 -> lh_n (k_log s1) = 29 -> log_write b (settle demo_user_hart) s1 = Panic "too big a transaction".
Proof.
  destruct (reservation_exceeds_log 0 demo_user_hart (set_k_log demo_busy_log demo_kernel)) as (E & _ & F);
    [split; [reflexivity|split; reflexivity]|reflexivity|reflexivity|reflexivity|reflexivity|].
  split; [exact E|exact F].
Defined.
