(* ===== verification/FsDisk.v ===== *)
(** * FsDisk

    The layout of the file system on the disk: the bitmap of used blocks, the inodes,
    and the blocks of a file. A view of the disk is consistent when no block belongs to
    two files or twice to one, and the blocks of files are marked in the bitmap. *)
From stdpp Require Import base tactics list numbers gmap strings.
From S2P Require Import Prelude Machine Spinlock Printf Bytes Block Queue Kalloc Vm Kernel Proc ProcFacts.
From S2P Require Import Sleeplock Virtio Bio Log Fs Discipline ProcProps BioProps Storage BlockIO.

(** ** Bits *)

Lemma land_bit x k : 0 <= k -> (Z.land x (Z.shiftl 1 k) =? 0) = negb (Z.testbit x k).
Proof.
  intros Hk. rewrite Z.shiftl_1_l. destruct (Z.testbit x k) eqn:E; simpl.
  - apply Z.eqb_neq. intros Hz. assert (Hb : Z.testbit (Z.land x (2 ^ k)) k = true) by (rewrite Z.land_spec, E, Z.pow2_bits_true; done).
    by rewrite Hz, Z.bits_0 in Hb.
  - apply Z.eqb_eq. apply Z.bits_inj'. intros j Hj. rewrite Z.land_spec, Z.bits_0, Z.pow2_bits_eqb by lia.
    destruct (Z.eqb_spec k j) as [->|]; [by rewrite E|apply andb_false_r].
Qed.

Lemma testbit_set x k j : 0 <= k -> 0 <= j -> Z.testbit (Z.lor x (Z.shiftl 1 k)) j = Z.testbit x j || (k =? j).
Proof. intros. by rewrite Z.lor_spec, Z.shiftl_1_l, Z.pow2_bits_eqb by lia. Qed.

Lemma testbit_clear x k j : 0 <= k < 8 -> 0 <= j < 8 ->
  Z.testbit (Z.land x (u8 (Z.lnot (Z.shiftl 1 k)))) j = Z.testbit x j && negb (k =? j).
Proof.
  intros. rewrite Z.land_spec. f_equal. unfold u8. change (2 ^ 8) with (2 ^ 8). rewrite Z.mod_pow2_bits_low by lia.
  by rewrite Z.lnot_spec, Z.shiftl_1_l, Z.pow2_bits_eqb by lia.
Qed.

Lemma byte_at_alter f data i j : 0 <= i < Z.of_nat (length data) -> 0 <= j ->
  byte_at (alter f (Z.to_nat i) data) j = if decide (j = i) then f (byte_at data i) else byte_at data j.
Proof.
  intros Hi Hj. unfold byte_at. case_decide as E.
  - subst. rewrite list_lookup_alter_eq. destruct (lookup_lt_is_Some_2 data (Z.to_nat i) ltac:(lia)) as [x ->]. done.
  - rewrite list_lookup_alter_ne; [done|lia].
Qed.

(** The first clear bit. *)
Lemma scan_bits_spec fuel data b bi size : 0 <= bi -> BPB - bi <= Z.of_nat fuel ->
  match scan_bits fuel data b bi size with
  | Some r => bi <= r < BPB /\ b + r < size /\ Z.testbit (byte_at data (r / 8)) (r mod 8) = false /\
      forall j, bi <= j < r -> Z.testbit (byte_at data (j / 8)) (j mod 8) = true
  | None => forall j, bi <= j < BPB -> b + j < size -> Z.testbit (byte_at data (j / 8)) (j mod 8) = true
  end.
Proof.
  revert bi. induction fuel as [|f IH]; intros bi Hbi Hf; cbn [scan_bits]; [intros; lia|].
  destruct (Z.ltb_spec bi BPB); [|cbn [andb]; intros; lia]. destruct (Z.ltb_spec (b + bi) size); [|cbn [andb]; intros; lia]. cbn [andb].
  unfold bit_mask. rewrite land_bit by zlia. destruct (Z.testbit _ _) eqn:E; simpl; [|split_and!; try lia; done].
  specialize (IH (bi + 1) ltac:(lia) ltac:(lia)).
  assert (Hj : forall j, bi <= j -> (bi + 1 <= j -> Z.testbit (byte_at data (j / 8)) (j mod 8) = true) ->
    Z.testbit (byte_at data (j / 8)) (j mod 8) = true).
  { intros j Hj H'. destruct (decide (j = bi)) as [->|]; [done|apply H'; lia]. }
  destruct (scan_bits f data b (bi + 1) size) as [r|].
  - destruct IH as (? & ? & ? & IH). split_and!; try lia; try done. intros j Hj'. apply Hj; [lia|]. intros. apply IH. lia.
  - intros j ? ?. apply Hj; [lia|]. intros. apply IH; lia.
Qed.

(** ** Inodes on the disk *)

Definition short (x : Z) : Prop := - 2 ^ 15 <= x < 2 ^ 15.

Record dinode_ok (x : dinode) : Prop := {
  do_shorts : short (d_type x) /\ short (d_major x) /\ short (d_minor x) /\ short (d_nlink x);
  do_size : 0 <= d_size x < 2 ^ 32;
  do_len : length (d_addrs x) = S NDIRECT;
  do_addrs : Forall (fun a => 0 <= a < 2 ^ 32) (d_addrs x);
}.

Definition dinode_bytes (x : dinode) : list Z :=
  le_bytes 2 (u16 (d_type x)) ++ le_bytes 2 (u16 (d_major x)) ++ le_bytes 2 (u16 (d_minor x)) ++ le_bytes 2 (u16 (d_nlink x)) ++
  le_bytes 4 (d_size x) ++ flat_map (le_bytes 4) (d_addrs x).

Lemma length_flat_le4 a : length (flat_map (le_bytes 4) a) = (4 * length a)%nat.
Proof. induction a as [|x a IH]; [done|]. cbn [flat_map]. rewrite length_app, length_le_bytes, IH. simpl. lia. Qed.

Lemma length_dinode_bytes x : dinode_ok x -> length (dinode_bytes x) = 64%nat.
Proof. intros [_ _ Hl _]. unfold dinode_bytes. rewrite !length_app, !length_le_bytes, length_flat_le4, Hl. done. Qed.

(** The assignments of iupdate write the structure. *)
Lemma put_dinode_splice l off x : dinode_ok x -> (off + 64 <= length l)%nat -> put_dinode l off x = splice l off (dinode_bytes x).
Proof.
  intros [_ _ Hl _] Ho. unfold put_dinode, put16, put32, put_addrs, putn, dinode_bytes.
  assert (Hnext : forall k l a b, length a = k -> (off + k + length b <= length l)%nat -> splice (splice l off a) (off + k) b = splice l off (a ++ b)).
  { intros k l' a b <- ?. by apply splice_app. }
  assert (HL : length (flat_map (le_bytes 4) (d_addrs x)) = 52%nat) by (by rewrite length_flat_le4, Hl).
  rewrite (Hnext 2%nat), (Hnext 4%nat), (Hnext 6%nat), (Hnext 8%nat), (Hnext 12%nat) by (rewrite ?length_app, ?length_le_bytes, ?HL; lia).
  by rewrite <-!app_assoc.
Qed.

Lemma get_dinode_slice l off : get_dinode l off = get_dinode (slice l off 64) 0.
Proof.
  assert (E2 : forall k, (k + 2 <= 64)%nat -> get16 l (off + k) = get16 (slice l off 64) k) by (intros; by apply getn_slice).
  assert (E4 : forall k, (k + 4 <= 64)%nat -> get32 l (off + k) = get32 (slice l off 64) k) by (intros; by apply getn_slice).
  unfold get_dinode. f_equal; rewrite ?E2, ?E4 by lia; try done.
  - f_equal. rewrite <-(Nat.add_0_r off) at 1. apply E2. lia.
  - apply map_ext_in. intros i Hi%in_seq. unfold NDIRECT in Hi. rewrite <-Nat.add_assoc. apply E4. lia.
Qed.

Lemma get_dinode_bytes x : dinode_ok x -> get_dinode (dinode_bytes x) 0 = x.
Proof.
  intros [(H1 & H2 & H3 & H4) Hs Hl Ha]. destruct x as [ty ma mi nl sz a]. simpl in *. unfold short in *.
  assert (E2 : forall y, - 2 ^ 15 <= y < 2 ^ 15 -> i16 (le_value (le_bytes 2 (u16 y))) = y).
  { intros y Hy. rewrite le_value_le_bytes. change (256 ^ Z.of_nat 2) with (2 ^ 16). unfold i16, u16. rewrite Z.mod_mod by lia. zlia. }
  assert (E4 : forall y, 0 <= y < 2 ^ 32 -> le_value (le_bytes 4 y) = y).
  { intros y Hy. rewrite le_value_le_bytes. by apply Z.mod_small. }
  do 13 (destruct a as [|? a]; [done|]). destruct a; [|done]. rewrite !Forall_cons in Ha.
  unfold get_dinode. f_equal; [by apply E2..|by apply E4|]. unfold upto, NDIRECT. cbn [seq map]. destruct_and! Ha. repeat (f_equal; [apply E4; lia|]). f_equal. apply E4. lia.
Qed.

Section fsdisk.
Context (sb : superblock).
Implicit Types (v : disk) (a : list Z) (b c i j m n : Z).

(** The first data block. *)
Definition dstart : Z := sb_size sb - sb_nblocks sb.

(** The regions follow one another: log, inodes, bitmap, data. *)
Record geometry : Prop := {
  ge_log : 0 <= sb_logstart sb /\ sb_logstart sb + LOGSIZE <= sb_inodestart sb;
  ge_nlog : sb_nlog sb = LOGSIZE;
  ge_inodes : 0 < sb_ninodes sb <= 2 ^ 16 /\ sb_inodestart sb + sb_ninodes sb / IPB < sb_bmapstart sb;
  ge_bitmap : sb_bmapstart sb + sb_size sb / BPB < dstart;
  ge_data : dstart <= sb_size sb < 2 ^ 31;
}.
Context (geom : geometry).

Lemma BBLOCK_eq b : 0 <= b < sb_size sb -> BBLOCK b sb = b / BPB + sb_bmapstart sb /\ sb_bmapstart sb <= BBLOCK b sb < dstart.
Proof.
  intros Hb. destruct geom as [? _ [? ?] ? ?]. unfold BBLOCK. change BPB with 8192 in *. change IPB with 16 in *. change LOGSIZE with 30 in *.
  rewrite u32_id by zlia. zlia.
Qed.

Lemma IBLOCK_eq i : 0 <= i < sb_ninodes sb -> IBLOCK i sb = i / IPB + sb_inodestart sb /\ sb_inodestart sb <= IBLOCK i sb < sb_bmapstart sb.
Proof.
  intros Hi. destruct geom as [? _ [? ?] ? ?]. unfold IBLOCK. change BPB with 8192 in *. change IPB with 16 in *. change LOGSIZE with 30 in *.
  rewrite u32_id by zlia. zlia.
Qed.

(** ** The bitmap *)

Definition used v b : bool := Z.testbit (byte_at (v (BBLOCK b sb)) (b mod BPB / 8)) (b mod 8).

(** Setting and clearing a bit. *)
Definition bmark v b : disk :=
  write_block (BBLOCK b sb) (alter (fun x => Z.lor x (bit_mask (b mod BPB))) (Z.to_nat (b mod BPB / 8)) (v (BBLOCK b sb))) v.
Definition bclear v b : disk :=
  write_block (BBLOCK b sb) (alter (fun x => Z.land x (u8 (Z.lnot (bit_mask (b mod BPB))))) (Z.to_nat (b mod BPB / 8)) (v (BBLOCK b sb))) v.

Lemma same_bit b c : 0 <= b < sb_size sb -> 0 <= c < sb_size sb ->
  BBLOCK b sb = BBLOCK c sb -> b mod BPB / 8 = c mod BPB / 8 -> b mod 8 = c mod 8 -> b = c.
Proof.
  intros Hb Hc. rewrite (proj1 (BBLOCK_eq b Hb)), (proj1 (BBLOCK_eq c Hc)). unfold BPB, BSIZE. change (1024 * 8) with 8192.
  intros E1 E2 E3. zlia.
Qed.

Lemma used_change f v b c : 0 <= b < sb_size sb -> 0 <= c < sb_size sb -> length (v (BBLOCK b sb)) = Z.to_nat BSIZE ->
  used (write_block (BBLOCK b sb) (alter f (Z.to_nat (b mod BPB / 8)) (v (BBLOCK b sb))) v) c =
  if decide (BBLOCK c sb = BBLOCK b sb /\ c mod BPB / 8 = b mod BPB / 8) then Z.testbit (f (byte_at (v (BBLOCK b sb)) (b mod BPB / 8))) (c mod 8)
  else used v c.
Proof.
  intros Hb Hc Hl. unfold used, write_block. destruct (decide (BBLOCK c sb = BBLOCK b sb)) as [E|E].
  - rewrite byte_at_alter by (rewrite ?Hl; unfold BPB, BSIZE; zlia). destruct (decide (c mod BPB / 8 = b mod BPB / 8)) as [E2|E2].
    + by rewrite decide_True.
    + rewrite decide_False by tauto. by rewrite E.
  - by rewrite decide_False by tauto.
Qed.

Lemma mod8 b : (b mod BPB) mod 8 = b mod 8.
Proof. unfold BPB, BSIZE. change (1024 * 8) with 8192. zlia. Qed.

Lemma used_bmark v b c : 0 <= b < sb_size sb -> 0 <= c < sb_size sb -> disk_ok v -> used (bmark v b) c = used v c || bool_decide (c = b).
Proof.
  intros Hb Hc Hv. unfold bmark. rewrite used_change by (try done; apply Hv). unfold bit_mask. rewrite mod8. case_decide as E.
  - destruct E as [E1 E2]. rewrite testbit_set by zlia. unfold used. rewrite E1, E2. f_equal.
    destruct (Z.eqb_spec (b mod 8) (c mod 8)).
    + symmetry. apply bool_decide_eq_true_2. by apply same_bit.
    + symmetry. apply bool_decide_eq_false_2. congruence.
  - rewrite bool_decide_eq_false_2, orb_false_r; [done|]. intros ->. tauto.
Qed.

Lemma used_bclear v b c : 0 <= b < sb_size sb -> 0 <= c < sb_size sb -> disk_ok v -> used (bclear v b) c = used v c && negb (bool_decide (c = b)).
Proof.
  intros Hb Hc Hv. unfold bclear. rewrite used_change by (try done; apply Hv). unfold bit_mask. rewrite mod8. case_decide as E.
  - destruct E as [E1 E2]. rewrite testbit_clear by zlia. unfold used. rewrite E1, E2. f_equal. f_equal.
    destruct (Z.eqb_spec (b mod 8) (c mod 8)).
    + symmetry. apply bool_decide_eq_true_2. by apply same_bit.
    + symmetry. apply bool_decide_eq_false_2. congruence.
  - rewrite bool_decide_eq_false_2, andb_true_r; [done|]. intros ->. tauto.
Qed.

(** Bits are stored in the blocks of the bitmap only. *)
Lemma used_same v v' b : v' (BBLOCK b sb) = v (BBLOCK b sb) -> used v' b = used v b.
Proof. unfold used. by intros ->. Qed.

(** ** The inode table *)

Definition inum_ok i : Prop := 0 <= i < sb_ninodes sb.
Definition inode_at v i : dinode := get_dinode (v (IBLOCK i sb)) (dinode_off i).
Definition inode_put v i (x : dinode) : disk := write_block (IBLOCK i sb) (put_dinode (v (IBLOCK i sb)) (dinode_off i) x) v.

Lemma dinode_off_room v i : disk_ok v -> inum_ok i -> (dinode_off i + 64 <= length (v (IBLOCK i sb)))%nat.
Proof.
  intros Hv Hi. rewrite (Hv _). unfold dinode_off. change (Z.to_nat BSIZE) with 1024%nat. change IPB with 16. change DINODE_SIZE with 64. zlia.
Qed.

Lemma inode_put_ok v i x : disk_ok v -> inum_ok i -> dinode_ok x -> disk_ok (inode_put v i x).
Proof.
  intros Hv Hi Hx. apply disk_ok_write; [done|]. pose proof (dinode_off_room v i Hv Hi) as Hr.
  rewrite put_dinode_splice by done. rewrite length_splice; [apply Hv|]. by rewrite length_dinode_bytes.
Qed.

Lemma inode_at_put v i j x : disk_ok v -> inum_ok i -> inum_ok j -> dinode_ok x ->
  inode_at (inode_put v i x) j = if decide (j = i) then x else inode_at v j.
Proof.
  intros Hv Hi Hj Hx. pose proof (dinode_off_room v i Hv Hi) as Hr. unfold inode_at, inode_put. rewrite put_dinode_splice by done.
  pose proof (length_dinode_bytes x Hx) as El. case_decide as E.
  - subst j. rewrite write_block_eq, get_dinode_slice, <-El, slice_splice by lia. by apply get_dinode_bytes.
  - destruct (decide (IBLOCK j sb = IBLOCK i sb)) as [Eb|Eb]; [|by rewrite write_block_ne].
    rewrite Eb, write_block_eq, get_dinode_slice, slice_splice_other; [by rewrite <-get_dinode_slice|lia|].
    rewrite El. rewrite (proj1 (IBLOCK_eq j Hj)), (proj1 (IBLOCK_eq i Hi)) in Eb. unfold dinode_off. change IPB with 16 in *. change DINODE_SIZE with 64. zlia.
Qed.

Lemma inode_at_same v v' i : v' (IBLOCK i sb) = v (IBLOCK i sb) -> inode_at v' i = inode_at v i.
Proof. unfold inode_at. by intros ->. Qed.

(** ** The blocks of a file *)

(** The address of the indirect block, and of block [bn]; 0 when there is none. *)
Definition ind a : Z := default 0 (a !! NDIRECT).
Definition fblock v a n : Z :=
  if n <? Z.of_nat NDIRECT then default 0 (a !! Z.to_nat n)
  else if ind a =? 0 then 0 else get32 (v (ind a)) (Z.to_nat (4 * (n - Z.of_nat NDIRECT))).

Definition zeros : list Z := replicate (Z.to_nat BSIZE) 0.

(** The contents of block [n] of a file; a block that is missing reads as zeros. *)
Definition fdata v a n : list Z := if fblock v a n =? 0 then zeros else v (fblock v a n).

Definition owns v a b : Prop := b <> 0 /\ (b = ind a \/ exists n, 0 <= n < MAXFILE /\ fblock v a n = b).

Record file_ok v a : Prop := {
  fi_len : length a = S NDIRECT;
  fi_inj : forall m n, 0 <= m < MAXFILE -> 0 <= n < MAXFILE -> fblock v a m <> 0 -> fblock v a m = fblock v a n -> m = n;
  fi_ind : forall n, 0 <= n < MAXFILE -> ind a <> 0 -> fblock v a n <> ind a;
}.

(** Consistency, for the table [t] of block addresses by inode number. *)
Record fs_ok v (t : Z -> list Z) : Prop := {
  fs_file : forall i, inum_ok i -> file_ok v (t i);
  fs_range : forall i b, inum_ok i -> owns v (t i) b -> dstart <= b < sb_size sb /\ used v b = true;
  fs_excl : forall i j b, inum_ok i -> inum_ok j -> owns v (t i) b -> owns v (t j) b -> i = j;
  fs_meta : forall m, 0 <= m < dstart -> used v m = true;
  fs_view : disk_ok v;
}.

Lemma fblock_same v v' a n : (ind a <> 0 -> v' (ind a) = v (ind a)) -> fblock v' a n = fblock v a n.
Proof. unfold fblock. intros E. case_match; [done|]. destruct (Z.eqb_spec (ind a) 0); [done|]. by rewrite E. Qed.

Lemma owns_same v v' a b : (ind a <> 0 -> v' (ind a) = v (ind a)) -> owns v' a b <-> owns v a b.
Proof. intros E. unfold owns. by setoid_rewrite (fblock_same v v' a _ E). Qed.

Lemma file_same v v' a : (ind a <> 0 -> v' (ind a) = v (ind a)) -> file_ok v a -> file_ok v' a.
Proof. intros E [Hl Hi Hn]. constructor; [done|..]; intros *; rewrite !(fblock_same v v' a _ E); auto. Qed.

Lemma owns_ind v a : ind a <> 0 -> owns v a (ind a).
Proof. intros. split; [done|by left]. Qed.

Lemma owns_block v a n : 0 <= n < MAXFILE -> fblock v a n <> 0 -> owns v a (fblock v a n).
Proof. intros. split; [done|right; eauto]. Qed.

Definition unowned v (t : Z -> list Z) b : Prop := forall j, inum_ok j -> ~ owns v (t j) b.

(** The blocks that nobody owns in [t] and file [i] may take. *)
Record spare v t b : Prop := {
  sr_range : dstart <= b < sb_size sb;
  sr_used : used v b = true;
  sr_unowned : unowned v t b;
  sr_zero : v b = zeros;
}.

Lemma dstart_pos : 0 < dstart.
Proof. destruct geom as [? _ [? ?] ? ?]. change LOGSIZE with 30 in *. change BPB with 8192 in *. change IPB with 16 in *. zlia. Qed.

Lemma spare_ne v t b : spare v t b -> b <> 0.
Proof. intros [Hr _ _ _]. pose proof dstart_pos. lia. Qed.

(** One file changes. *)
Lemma fs_step v v' t t' i : fs_ok v t -> inum_ok i -> disk_ok v' -> (forall j, j <> i -> t' j = t j) ->
  (forall j, inum_ok j -> j <> i -> ind (t j) <> 0 -> v' (ind (t j)) = v (ind (t j))) ->
  (forall c, 0 <= c < sb_size sb -> used v c = true -> used v' c = true) ->
  file_ok v' (t' i) ->
  (forall b, owns v' (t' i) b -> owns v (t i) b \/ dstart <= b < sb_size sb /\ used v' b = true /\ unowned v t b) -> fs_ok v' t'.
Proof.
  intros [Hf Hr Hx Hm Hv] Hi Hv' Ht Hind Hu Hfi Hown. pose proof dstart_pos as Hd. pose proof (ge_data geom) as Hge.
  assert (Hsame : forall j b, inum_ok j -> j <> i -> owns v' (t' j) b <-> owns v (t j) b).
  { intros j b Hj Hne. rewrite Ht by done. apply owns_same. auto. }
  constructor; [| | | |done].
  - intros j Hj. destruct (decide (j = i)) as [->|Hne]; [done|]. rewrite Ht by done. eapply file_same; [|by apply Hf]. auto.
  - intros j b Hj Ho. destruct (decide (j = i)) as [->|Hne].
    + destruct (Hown b Ho) as [Ho'|(Hb & Hb' & _)]; [|done]. destruct (Hr i b Hi Ho') as [Hb Hub]. split; [done|]. apply Hu; [lia|done].
    + rewrite Hsame in Ho by done. destruct (Hr j b Hj Ho) as [Hb Hub]. split; [done|]. apply Hu; [lia|done].
  - assert (Hone : forall j b, inum_ok j -> j <> i -> owns v' (t' i) b -> owns v' (t' j) b -> False).
    { intros j b Hj Hne Ho1 Ho2. rewrite Hsame in Ho2 by done. destruct (Hown b Ho1) as [Ho1'|(_ & _ & Hun)]; [|by apply (Hun j)].
      by apply Hne, (Hx j i b). }
    intros j k b Hj Hk Hoj Hok. destruct (decide (j = i)) as [->|Hj'], (decide (k = i)) as [->|Hk']; [done|..].
    + by destruct (Hone k b).
    + by destruct (Hone j b).
    + rewrite Hsame in Hoj, Hok by done. by apply (Hx j k b).
  - intros m Hm'. apply Hu; [lia|]. by apply Hm.
Qed.

Lemma used_data v b x c : dstart <= b -> 0 <= c < sb_size sb -> used (write_block b x v) c = used v c.
Proof. intros Hb Hc. apply used_same, write_block_ne. pose proof (BBLOCK_eq c Hc). lia. Qed.

Lemma fblock_range v t i n : fs_ok v t -> inum_ok i -> 0 <= n < MAXFILE -> fblock v (t i) n <> 0 ->
  dstart <= fblock v (t i) n < sb_size sb /\ used v (fblock v (t i) n) = true.
Proof. intros Hfs Hi Hn Hb. apply (fs_range _ _ Hfs i); [done|]. by apply owns_block. Qed.

(** The indirect blocks are not among the data blocks. *)
Lemma ind_ne_block v t i j n : fs_ok v t -> inum_ok i -> inum_ok j -> 0 <= n < MAXFILE -> fblock v (t i) n <> 0 -> ind (t j) <> 0 ->
  ind (t j) <> fblock v (t i) n.
Proof.
  intros Hfs Hi Hj Hn Hb Hz E. assert (j = i) as ->.
  { apply (fs_excl _ _ Hfs j i (ind (t j)) Hj Hi); [by apply owns_ind|]. rewrite E. by apply owns_block. }
  by apply (fi_ind _ _ (fs_file _ _ Hfs i Hi) n).
Qed.

(** Storing into a data block changes that block of that file. *)
Lemma fs_write_data v t i n x : fs_ok v t -> inum_ok i -> 0 <= n < MAXFILE -> fblock v (t i) n <> 0 -> length x = Z.to_nat BSIZE ->
  let v' := write_block (fblock v (t i) n) x v in
  fs_ok v' t /\ (forall j m, inum_ok j -> fblock v' (t j) m = fblock v (t j) m) /\
  forall j m, inum_ok j -> 0 <= m < MAXFILE -> fdata v' (t j) m = if decide (j = i /\ m = n) then x else fdata v (t j) m.
Proof.
  intros Hfs Hi Hn Hb Hx v'. destruct (fblock_range v t i n Hfs Hi Hn Hb) as [Hr Hu]. pose proof dstart_pos as Hd.
  assert (Hind : forall j, inum_ok j -> ind (t j) <> 0 -> v' (ind (t j)) = v (ind (t j))).
  { intros j Hj Hz. apply write_block_ne. by apply (ind_ne_block v t i j n). }
  assert (Hblk : forall j m, inum_ok j -> fblock v' (t j) m = fblock v (t j) m) by (intros; apply fblock_same; auto).
  split_and!; [|done|].
  - apply (fs_step v v' t t i); try done; auto.
    + apply disk_ok_write; [apply Hfs|done].
    + intros c Hc E. unfold v'. by rewrite used_data by (lia || done).
    + apply (file_same v v'); [auto|by apply Hfs].
    + intros b. rewrite (owns_same v v') by auto. by left.
  - intros j m Hj Hm. unfold fdata. rewrite Hblk by done. destruct (Z.eqb_spec (fblock v (t j) m) 0) as [E|E].
    + rewrite decide_False; [done|]. intros [-> ->]. done.
    + destruct (decide (fblock v (t j) m = fblock v (t i) n)) as [Eb|Eb].
      * assert (j = i) as ->.
        { apply (fs_excl _ _ Hfs j i (fblock v (t j) m) Hj Hi); [by apply owns_block|]. rewrite Eb. by apply owns_block. }
        rewrite decide_True; [unfold v'; by rewrite Eb, write_block_eq|]. split; [done|].
        by apply (fi_inj _ _ (fs_file _ _ Hfs i Hi)).
      * rewrite decide_False; [by apply write_block_ne|]. intros [-> ->]. done.
Qed.

(** Taking a block that is marked free. *)
Lemma fs_alloc v t n : fs_ok v t -> 0 <= n < sb_size sb -> used v n = false -> let v' := write_block n zeros (bmark v n) in
  fs_ok v' t /\ spare v' t n /\
  (forall j m, inum_ok j -> fblock v' (t j) m = fblock v (t j) m) /\
  (forall j b, inum_ok j -> owns v (t j) b -> v' b = v b).
Proof.
  intros Hfs Hn Hu v'. pose proof dstart_pos as Hd. pose proof (BBLOCK_eq n Hn) as [_ HB]. pose proof (ge_data geom) as Hge.
  assert (Hnd : dstart <= n).
  { destruct (decide (n < dstart)); [|lia]. pose proof (fs_meta _ _ Hfs n ltac:(lia)). congruence. }
  assert (Hun : unowned v t n).
  { intros j Hj Ho. destruct (fs_range _ _ Hfs j n Hj Ho) as [_ ?]. congruence. }
  assert (Hkeep : forall j b, inum_ok j -> owns v (t j) b -> v' b = v b).
  { intros j b Hj Ho. destruct (fs_range _ _ Hfs j b Hj Ho) as [Hr _]. unfold v', bmark. rewrite !write_block_ne; [done|lia|].
    intros ->. by apply (Hun j). }
  assert (Hind : forall j, inum_ok j -> ind (t j) <> 0 -> v' (ind (t j)) = v (ind (t j))).
  { intros j Hj Hz. apply (Hkeep j); [done|]. by apply owns_ind. }
  assert (Hused : forall c, 0 <= c < sb_size sb -> used v' c = used v c || bool_decide (c = n)).
  { intros c Hc. unfold v'. rewrite used_data by done. apply used_bmark; [done|done|apply Hfs]. }
  assert (H0 : inum_ok 0) by (pose proof (ge_inodes geom); unfold inum_ok; lia).
  split_and!; [| |intros; apply fblock_same; auto|done].
  - apply (fs_step v v' t t 0); try done; auto.
    + apply disk_ok_write; [|apply length_replicate]. apply disk_ok_write; [apply Hfs|]. rewrite length_alter. apply Hfs.
    + intros c Hc E. by rewrite Hused, E.
    + apply (file_same v v'); [auto|by apply Hfs].
    + intros b. rewrite (owns_same v v') by auto. by left.
  - constructor; [lia|by rewrite Hused, bool_decide_eq_true_2, orb_true_r| |apply write_block_eq].
    intros j Hj. rewrite (owns_same v v') by auto. by apply Hun.
Qed.

Lemma fdata_same v v' a m : 0 <= m < MAXFILE -> fblock v' a m = fblock v a m -> (forall b, owns v a b -> v' b = v b) -> fdata v' a m = fdata v a m.
Proof.
  intros Hm E Hk. unfold fdata. rewrite E. destruct (Z.eqb_spec (fblock v a m) 0); [done|]. apply Hk. by apply owns_block.
Qed.

(** ** Entering a spare block *)

Definition upd (t : Z -> list Z) i a : Z -> list Z := fun j => if decide (j = i) then a else t j.

Lemma upd_eq t i a : upd t i a i = a.
Proof. unfold upd. by rewrite decide_True. Qed.
Lemma upd_ne t i j a : j <> i -> upd t i a j = t j.
Proof. intros. unfold upd. by rewrite decide_False. Qed.

(** The file [a'] is [a] with the spare block [n] as its block [k]. *)
Record extends v v' a a' k n : Prop := {
  ex_len : length a' = S NDIRECT;
  ex_new : fblock v' a' k = n;
  ex_old : forall m, 0 <= m < MAXFILE -> m <> k -> fblock v' a' m = fblock v a m;
  ex_ind : ind a' = ind a;
}.

Lemma extends_fs v v' t i a' k n : fs_ok v t -> inum_ok i -> spare v t n -> 0 <= k < MAXFILE -> fblock v (t i) k = 0 -> extends v v' (t i) a' k n ->
  disk_ok v' -> (forall b, b <> ind (t i) \/ ind (t i) = 0 -> v' b = v b) ->
  fs_ok v' (upd t i a') /\ (forall j m, inum_ok j -> 0 <= m < MAXFILE -> fdata v' (upd t i a' j) m = fdata v (t j) m) /\
  forall j m, inum_ok j -> j <> i -> fblock v' (t j) m = fblock v (t j) m.
Proof.
  intros Hfs Hi Hsp Hk Hz [Hl Hnew Hold Hin] Hv' Hkeep. pose proof (spare_ne v t n Hsp) as Hn0. pose proof dstart_pos as Hd.
  pose proof (fs_file _ _ Hfs i Hi) as [Fl Fj Fi].
  assert (Hind : forall j, inum_ok j -> j <> i -> ind (t j) <> 0 -> v' (ind (t j)) = v (ind (t j))).
  { intros j Hj Hne Hz'. apply Hkeep. destruct (decide (ind (t i) = 0)); [by right|left]. intros E.
    apply Hne, (fs_excl _ _ Hfs j i (ind (t j)) Hj Hi); [by apply owns_ind|]. rewrite E. by apply owns_ind. }
  assert (Hno : forall m, 0 <= m < MAXFILE -> fblock v (t i) m <> n).
  { intros m Hm E. apply (sr_unowned _ _ _ Hsp i Hi). rewrite <-E. apply owns_block; [done|]. by rewrite E. }
  assert (Hni : ind (t i) <> n).
  { intros E. apply (sr_unowned _ _ _ Hsp i Hi). rewrite <-E. apply owns_ind. by rewrite E. }
  split_and!; [| |intros; apply fblock_same; auto].
  - apply (fs_step v v' t (upd t i a') i); try done.
    + intros j. apply upd_ne.
    + intros c Hc E. rewrite <-E. apply used_same, Hkeep. destruct (decide (ind (t i) = 0)); [by right|left].
      destruct (fs_range _ _ Hfs i (ind (t i)) Hi ltac:(by apply owns_ind)) as [? _]. pose proof (BBLOCK_eq c Hc). lia.
    + rewrite upd_eq. constructor; [done| |].
      * intros m m' Hm Hm' Hnz E. destruct (decide (m = k)) as [->|Hmk], (decide (m' = k)) as [->|Hmk']; [done| | |].
        -- rewrite Hnew, Hold in E by done. by destruct (Hno m' Hm').
        -- rewrite Hnew, Hold in E by done. by destruct (Hno m Hm).
        -- rewrite !Hold in * by done. by apply Fj.
      * intros m Hm. rewrite Hin. intros Hz'. destruct (decide (m = k)) as [->|Hmk]; [rewrite Hnew; congruence|].
        rewrite Hold by done. by apply Fi.
    + intros b [Hb0 Hb]. rewrite upd_eq in Hb. destruct Hb as [Hb|(m & Hm & Hb)].
      * left. rewrite Hin in Hb. split; [done|by left].
      * destruct (decide (m = k)) as [->|Hmk]; [|left; rewrite Hold in Hb by done; split; eauto].
        right. rewrite Hnew in Hb. subst b. split; [apply Hsp|]. split; [|apply Hsp]. rewrite <-(sr_used _ _ _ Hsp). apply used_same, Hkeep.
        destruct (decide (ind (t i) = 0)); [by right|left].
        destruct (fs_range _ _ Hfs i (ind (t i)) Hi ltac:(by apply owns_ind)) as [? _].
        pose proof (BBLOCK_eq n ltac:(pose proof (sr_range _ _ _ Hsp); lia)). lia.
  - intros j m Hj Hm. destruct (decide (j = i)) as [->|Hne].
    + rewrite upd_eq. unfold fdata. destruct (decide (m = k)) as [->|Hmk].
      * rewrite Hz, Hnew, (proj2 (Z.eqb_neq _ _)) by done. simpl. rewrite Hkeep by (left; congruence). apply Hsp.
      * rewrite Hold by done. destruct (Z.eqb_spec (fblock v (t i) m) 0); [done|]. apply Hkeep. destruct (decide (ind (t i) = 0)); [by right|left].
        by apply Fi.
    + rewrite upd_ne by done. apply fdata_same; [done|apply fblock_same; auto|]. intros b Ho. apply Hkeep.
      destruct (decide (ind (t i) = 0)); [by right|left]. intros ->. apply Hne, (fs_excl _ _ Hfs j i (ind (t i)) Hj Hi); [done|]. by apply owns_ind.
Qed.

Lemma extends_direct v a k n : length a = S NDIRECT -> 0 <= k < Z.of_nat NDIRECT -> extends v v a (<[Z.to_nat k := n]> a) k n.
Proof.
  intros Hl Hk. unfold NDIRECT in *. assert (Ei : ind (<[Z.to_nat k := n]> a) = ind a) by (unfold ind, NDIRECT; by rewrite list_lookup_insert_ne by lia).
  constructor; [by rewrite length_insert| | |done]; unfold fblock, NDIRECT.
  - rewrite (proj2 (Z.ltb_lt _ _)) by lia. by rewrite list_lookup_insert_eq by lia.
  - intros m Hm Hmk. rewrite Ei. destruct (Z.ltb_spec m (Z.of_nat 12)); [|done]. by rewrite list_lookup_insert_ne by lia.
Qed.

Lemma extends_entry v a k n : length a = S NDIRECT -> ind a <> 0 -> Z.of_nat NDIRECT <= k < MAXFILE -> 0 <= n < 2 ^ 32 -> length (v (ind a)) = Z.to_nat BSIZE ->
  extends v (write_block (ind a) (put32 (v (ind a)) (Z.to_nat (4 * (k - Z.of_nat NDIRECT))) n) v) a a k n.
Proof.
  intros Hl Hz Hk Hn Hv. unfold MAXFILE in Hk. change NINDIRECT with 256 in Hk. change (Z.to_nat BSIZE) with 1024%nat in Hv. unfold NDIRECT in *.
  constructor; [done| | |done]; unfold fblock; change NDIRECT with 12%nat in *; rewrite (proj2 (Z.eqb_neq _ _) Hz), write_block_eq.
  - rewrite (proj2 (Z.ltb_ge _ _)) by lia. apply getn_putn; [lia|done].
  - intros m Hm Hmk. destruct (Z.ltb_spec m (Z.of_nat 12)); [done|]. apply getn_putn_other; lia.
Qed.

Lemma get32_zeros k : get32 zeros k = 0.
Proof.
  assert (E : forall l, Forall (fun x => x = 0) l -> le_value l = 0).
  { induction 1 as [|x l -> _ IH]; [done|]. simpl. rewrite IH. done. }
  apply E. unfold slice. apply Forall_take, Forall_drop, Forall_replicate. done.
Qed.

(** A spare block becomes the indirect block. *)
Lemma fs_set_ind v t i n : fs_ok v t -> inum_ok i -> spare v t n -> ind (t i) = 0 -> let a' := <[NDIRECT := n]> (t i) in
  fs_ok v (upd t i a') /\ ind a' = n /\ forall m, 0 <= m < MAXFILE -> fblock v a' m = fblock v (t i) m.
Proof.
  intros Hfs Hi Hsp Hz a'. pose proof (spare_ne v t n Hsp) as Hn0. pose proof (fs_file _ _ Hfs i Hi) as [Fl Fj Fi]. unfold NDIRECT in *.
  assert (Ei : ind a' = n) by (unfold ind, a', NDIRECT; by rewrite list_lookup_insert_eq by lia).
  assert (Eb : forall m, 0 <= m < MAXFILE -> fblock v a' m = fblock v (t i) m).
  { intros m Hm. unfold fblock. rewrite Ei, Hz, (proj2 (Z.eqb_neq _ _)) by done. simpl. unfold NDIRECT. destruct (Z.ltb_spec m (Z.of_nat 12)).
    - unfold a'. by rewrite list_lookup_insert_ne by lia.
    - rewrite (sr_zero _ _ _ Hsp). apply get32_zeros. }
  split_and!; [|done|done]. apply (fs_step v v t (upd t i a') i); try done; [apply Hfs|by intros; apply upd_ne|..]; rewrite upd_eq.
  - constructor; [unfold a'; by rewrite length_insert| |].
    + intros m m' Hm Hm'. rewrite !Eb by done. by apply Fj.
    + intros m Hm _. rewrite Ei, Eb by done. intros E. apply (sr_unowned _ _ _ Hsp i Hi). rewrite <-E. apply owns_block; [done|congruence].
  - intros b [Hb0 [Hb|(m & Hm & Hb)]].
    + right. rewrite Ei in Hb. subst b. split; [apply Hsp|]. split; apply Hsp.
    + left. rewrite Eb in Hb by done. split; eauto.
Qed.

(** ** Counting free blocks *)

Definition nfree v : nat := length (filter (fun n => used v n = false) (seqZ 0 (sb_size sb))).

Lemma nfree_pos v : (0 < nfree v)%nat -> exists n, 0 <= n < sb_size sb /\ used v n = false.
Proof.
  unfold nfree. intros Hp. destruct (filter _ _) as [|n l] eqn:E; [simpl in Hp; lia|].
  assert (Hn : n ∈ filter (fun n => used v n = false) (seqZ 0 (sb_size sb))) by (rewrite E; by left).
  apply list_elem_of_filter in Hn as [Hu Hn]. apply elem_of_seqZ in Hn. exists n. split; [lia|done].
Qed.

Lemma filter_one_less (p q : Z -> Prop) `{!forall x, Decision (p x)} `{!forall x, Decision (q x)} n l :
  NoDup l -> n ∈ l -> p n -> (forall m, m ∈ l -> q m <-> p m /\ m <> n) -> length (filter p l) = S (length (filter q l)).
Proof.
  intros Hnd Hn Hp Hq. induction l as [|m l IH]; [by apply not_elem_of_nil in Hn|].
  apply NoDup_cons in Hnd as [Hm Hnd]. assert (Hq' : forall m', m' ∈ l -> q m' <-> p m' /\ m' <> n) by (intros; apply Hq; by right).
  destruct (decide (m = n)) as [->|Hne].
  - rewrite filter_cons_True, filter_cons_False; [|rewrite Hq by (by left); tauto|done]. simpl. f_equal.
    f_equal. clear -Hm Hq'. induction l as [|m' l IH]; [done|]. apply not_elem_of_cons in Hm as [Hm1 Hm2].
    assert (Hmm : q m' <-> p m') by (rewrite Hq' by (by left); naive_solver).
    specialize (IH Hm2 ltac:(intros; apply Hq'; by right)). destruct (decide (p m')).
    + rewrite !filter_cons_True by tauto. by rewrite IH.
    + rewrite !filter_cons_False by tauto. done.
  - apply elem_of_cons in Hn as [->|Hn]; [done|]. specialize (IH Hnd Hn Hq'). destruct (decide (p m)).
    + rewrite !filter_cons_True by (try rewrite Hq by (by left); done). simpl. by rewrite IH.
    + rewrite !filter_cons_False by (try rewrite Hq by (by left); tauto). done.
Qed.

Lemma nfree_alloc v n : disk_ok v -> 0 <= n < sb_size sb -> used v n = false -> dstart <= n ->
  nfree v = S (nfree (write_block n zeros (bmark v n))).
Proof.
  intros Hv Hn Hu Hd. apply (filter_one_less _ _ n); [apply NoDup_seqZ|apply elem_of_seqZ; lia|done|].
  intros m Hm%elem_of_seqZ. rewrite used_data, used_bmark by (done || lia). rewrite orb_false_iff, bool_decide_eq_false. tauto.
Qed.

Lemma nfree_same v v' : (forall n, 0 <= n < sb_size sb -> used v' n = used v n) -> nfree v' = nfree v.
Proof.
  intros E. unfold nfree. assert (Hr : forall n, n ∈ seqZ 0 (sb_size sb) -> used v' n = used v n) by (intros n Hn%elem_of_seqZ; apply E; lia).
  f_equal. induction (seqZ 0 (sb_size sb)) as [|n l IH]; [done|]. rewrite !filter_cons. rewrite (Hr n) by (by left).
  rewrite IH by (intros; apply Hr; by right). done.
Qed.

(** Changes below the bitmap do not concern the files. *)
Lemma fs_above v v' t : fs_ok v t -> disk_ok v' -> (forall m, sb_bmapstart sb <= m -> v' m = v m) ->
  fs_ok v' t /\ (forall j m, inum_ok j -> fblock v' (t j) m = fblock v (t j) m) /\
  (forall j m, inum_ok j -> 0 <= m < MAXFILE -> fdata v' (t j) m = fdata v (t j) m).
Proof.
  intros Hfs Hv' Hsame. assert (Hd : sb_bmapstart sb <= dstart).
  { pose proof (ge_bitmap geom). pose proof (ge_data geom). pose proof dstart_pos. change BPB with 8192 in *. zlia. }
  assert (Hown : forall j b, inum_ok j -> owns v (t j) b -> v' b = v b).
  { intros j b Hj Ho. apply Hsame. pose proof (fs_range _ _ Hfs j b Hj Ho). lia. }
  assert (Hind : forall j, inum_ok j -> ind (t j) <> 0 -> v' (ind (t j)) = v (ind (t j))) by (intros j Hj Hz; apply (Hown j); [done|by apply owns_ind]).
  assert (Hblk : forall j m, inum_ok j -> fblock v' (t j) m = fblock v (t j) m) by (intros; apply fblock_same; auto).
  assert (H0 : inum_ok 0) by (pose proof (ge_inodes geom); unfold inum_ok; lia).
  split_and!; [|done|].
  - apply (fs_step v v' t t 0); try done; auto.
    + intros c Hc E. rewrite <-E. apply used_same, Hsame. pose proof (BBLOCK_eq c Hc). lia.
    + apply (file_same v v'); [auto|by apply Hfs].
    + intros b. rewrite (owns_same v v') by auto. by left.
  - intros j m Hj Hm. apply fdata_same; [done|by apply Hblk|]. intros b. by apply Hown.
Qed.

End fsdisk.
