(* ===== verification/FsBlocks.v ===== *)
(** * FsBlocks

    bzero, balloc and bfree of kernel/fs.c, inside a transaction: the bitmap gains or
    loses one bit, and a block that is handed out is the first free one, zeroed. *)
From stdpp Require Import base tactics list numbers gmap strings.
From S2P Require Import Prelude Machine Spinlock Printf Bytes Block Queue Kalloc Vm Kernel Proc ProcFacts.
From S2P Require Import Sleeplock Virtio Bio Log Fs Discipline ProcProps BioProps Storage BlockIO LogProps Transaction FsDisk.

Section blocks.
Context `{Layout} `{Symbols} `{WaitPos} `{DeviceOk} `{DiskDev}.
Context (sb : superblock) (geom : geometry sb).
Context (pr : nat) (C : disk -> Prop) (d : disk) (d_ok : C d).
#[local] Abbreviation start := (sb_logstart sb).
#[local] Abbreviation txn := (txn start pr d).
#[local] Abbreviation used := (used sb).
#[local] Abbreviation dstart := (dstart sb).
Implicit Types (s : kernel) (h : hart) (v : disk) (G : list (nat * Z)) (P : list Z) (b n m : Z).

Lemma past_log n : sb_inodestart sb <= n -> ~ in_log start n.
Proof. unfold in_log. pose proof (ge_log _ geom). lia. Qed.

Lemma in_range n : sb_inodestart sb <= n < sb_size sb -> 0 <= n < 2 ^ 31.
Proof. pose proof (ge_log _ geom). pose proof (ge_data _ geom). unfold LOGSIZE in *. lia. Qed.

Lemma regions : sb_inodestart sb <= sb_bmapstart sb <= dstart /\ dstart <= sb_size sb.
Proof.
  destruct geom as [? _ [? ?] ? ?]. change LOGSIZE with 30 in *. change BPB with 8192 in *. change IPB with 16 in *. zlia.
Qed.

Lemma BBLOCK_ok n : 0 <= n < sb_size sb -> BBLOCK n sb < dstart /\ ~ in_log start (BBLOCK n sb) /\ 0 <= BBLOCK n sb < 2 ^ 31.
Proof.
  intros Hn. pose proof (BBLOCK_eq sb geom n Hn) as [_ HB]. pose proof regions. split_and!; try lia.
  - apply past_log. lia.
  - apply in_range. lia.
  - apply in_range. lia.
Qed.

Lemma bzero_tx {B} (f : unit -> K kernel B) h s v G P n Q : in_syscall h pr -> txn s v G P -> n ∉ G.*2 -> dstart <= n < sb_size sb ->
  (length G + length P < nslots)%nat ->
  (forall h' s', in_syscall h' pr -> kept_but_log pr s s' -> txn s' (write_block n zeros v) G (logged n P) -> wp pr C (f tt h' s') d Q) ->
  wp pr C (bind (bzero disk_dev n) f h s) d Q.
Proof.
  intros Hs Ht Hn Hr Hroom HQ. pose proof regions. apply wp_bind. unfold bzero, nslots, LOGSIZE in *. apply wp_bind.
  eapply bread_tx; try done; [apply in_range; lia|right; unfold NBUF; lia|]. intros b h1 s1 Hs1 K1 Ht1.
  eapply data_set_tx; [exact Ht1|by left|apply length_replicate|]. intros s2 K2 Ht2.
  eapply log_write_tx; [done|exact Ht2|by left|unfold nslots, LOGSIZE; lia|apply past_log; lia|]. intros h3 s3 Hs3 K3 Ht3.
  eapply brelse_tx; try done; [left; apply logged_in|]. intros h4 s4 Hs4 K4 Ht4. apply HQ; [done|kept_chain|done].
Qed.

(** The bits of one block of the bitmap. *)
Lemma used_bit v b bi : b mod BPB = 0 -> 0 <= b -> 0 <= bi < BPB -> b + bi < sb_size sb ->
  (b + bi) mod BPB = bi /\ BBLOCK (b + bi) sb = BBLOCK b sb /\ used v (b + bi) = Z.testbit (byte_at (v (BBLOCK b sb)) (bi / 8)) (bi mod 8).
Proof.
  intros Hb H0' Hbi Hlt. assert (E1 : (b + bi) mod BPB = bi) by (change BPB with 8192 in *; zlia).
  assert (E2 : BBLOCK (b + bi) sb = BBLOCK b sb).
  { rewrite (proj1 (BBLOCK_eq sb geom (b + bi) ltac:(lia))), (proj1 (BBLOCK_eq sb geom b ltac:(lia))). change BPB with 8192 in *. zlia. }
  split_and!; [done|done|]. unfold FsDisk.used. rewrite E1, E2, <-(mod8 (b + bi)), E1. done.
Qed.

Lemma balloc_loop_tx fuel h s v G P b Q : in_syscall h pr -> txn s v G P -> k_sb s = sb ->
  (forall m, 0 <= m < dstart -> used v m = true) -> (exists n, 0 <= n < sb_size sb /\ used v n = false) ->
  (forall m, m ∈ G.*2 -> dstart <= m < sb_size sb /\ used v m = true) -> (length G + length P + 2 <= nslots)%nat ->
  0 <= b -> b mod BPB = 0 -> (forall m, 0 <= m < b -> m < sb_size sb -> used v m = true) -> sb_size sb <= b + Z.of_nat fuel * BPB ->
  (forall n h' s', in_syscall h' pr -> kept_but_log pr s s' -> 0 <= n < sb_size sb -> used v n = false -> (forall m, 0 <= m < n -> used v m = true) ->
    txn s' (write_block n zeros (bmark sb v n)) G (logged n (logged (BBLOCK n sb) P)) -> Q n h' s' d) ->
  wp pr C (balloc_loop fuel disk_dev b h s) d Q.
Proof.
  revert h s b. induction fuel as [|f IH]; intros h s b Hs Ht Hsb Hmeta (n0 & Hn0 & Hfree) HG Hroom H0' Hb Hbelow Hf HQ.
  { exfalso. rewrite Hbelow in Hfree by lia. done. }
  assert (Hlt : b < sb_size sb). { destruct (decide (b < sb_size sb)); [done|]. rewrite Hbelow in Hfree by lia. done. }
  cbn [balloc_loop]. rewrite bind_gets, Hsb, (proj2 (Z.ltb_lt _ _) Hlt). cbn [negb].
  destruct (BBLOCK_ok b ltac:(lia)) as (HB & HnB & HrB). assert (HBG : BBLOCK b sb ∉ G.*2) by (intros Hin; apply HG in Hin; lia).
  pose proof (tx_clean _ _ _ _ _ _ _ _ Ht HBG) as Hcl. unfold nslots, LOGSIZE in *.
  apply wp_bind. eapply bread_tx; try done; [right; unfold NBUF; lia|]. intros bp h1 s1 Hs1 K1 Ht1.
  eapply data_get_tx; [exact Ht1|by left|]. unfold id.
  pose proof (scan_bits_spec (Z.to_nat BPB) (v (BBLOCK b sb)) b 0 (sb_size sb) ltac:(lia) ltac:(change BPB with 8192; lia)) as Hscan.
  destruct (scan_bits _ _ _ _ _) as [bi|].
  - destruct Hscan as (Hbi & Hbs & Hclear & Hset). destruct (used_bit v b bi Hb H0' Hbi Hbs) as (E1 & E2 & E3).
    set (n := b + bi) in *. assert (Hun : used v n = false) by (by rewrite E3).
    assert (Hnr : dstart <= n < sb_size sb) by (split; [|done]; destruct (decide (n < dstart)); [rewrite Hmeta in Hun by lia; done|lia]).
    eapply (data_set_tx _ _ _ _ (alter (fun x => Z.lor x (bit_mask bi)) (Z.to_nat (bi / 8)))); [exact Ht1|by left|rewrite length_alter; apply (tx_block _ _ _ _ _ _ _ _ Ht)|].
    intros s2 K2 Ht2. assert (Ev : write_block (BBLOCK b sb) (alter (fun x => Z.lor x (bit_mask bi)) (Z.to_nat (bi / 8)) (v (BBLOCK b sb))) v = bmark sb v n).
    { unfold bmark. by rewrite E1, E2. }
    rewrite Ev in Ht2.
    eapply log_write_tx; [done|exact Ht2|by left|unfold nslots, LOGSIZE; lia|done|]. intros h3 s3 Hs3 K3 Ht3.
    apply wp_bind. eapply brelse_tx; try done; [left; apply logged_in|]. intros h4 s4 Hs4 K4 Ht4.
    assert (HnG : n ∉ G.*2) by (intros [_ Hin]%HG; congruence). pose proof (logged_len (BBLOCK b sb) P).
    eapply bzero_tx; try done; [unfold nslots, LOGSIZE; lia|]. intros h5 s5 Hs5 K5 Ht5. cbn [ret wp]. split; [done|].
    apply HQ; [done|kept_chain|lia|done| |by rewrite E2].
    intros m Hm. destruct (decide (m < b)); [apply Hbelow; lia|]. destruct (used_bit v b (m - b) Hb H0' ltac:(lia) ltac:(lia)) as (_ & _ & E').
    replace (b + (m - b)) with m in E' by lia. rewrite E'. apply Hset. lia.
  - apply wp_bind. eapply brelse_tx; try done. intros h2 s2 Hs2 K2 Ht2.
    apply (IH h2 s2 (b + BPB)); try done.
    + by rewrite (kp_sb _ _ _ K2), (kp_sb _ _ _ K1).
    + eauto.
    + change BPB with 8192 in *. lia.
    + change BPB with 8192 in *. zlia.
    + intros m Hm Hms. destruct (decide (m < b)); [apply Hbelow; lia|]. destruct (used_bit v b (m - b) Hb H0' ltac:(lia) ltac:(lia)) as (_ & _ & E').
      replace (b + (m - b)) with m in E' by lia. rewrite E'. apply Hscan; lia.
    + change BPB with 8192 in *. lia.
    + intros n h' s' Hs' K' Hn Hu Hl Ht'. apply HQ; try done. kept_chain.
Qed.

(** balloc hands out the first free block. *)
Lemma balloc_tx {B} (f : Z -> K kernel B) h s v G P Q : in_syscall h pr -> txn s v G P -> k_sb s = sb ->
  (forall m, 0 <= m < dstart -> used v m = true) -> (exists n, 0 <= n < sb_size sb /\ used v n = false) ->
  (forall m, m ∈ G.*2 -> dstart <= m < sb_size sb /\ used v m = true) -> (length G + length P + 2 <= nslots)%nat ->
  (forall n h' s', in_syscall h' pr -> kept_but_log pr s s' -> 0 <= n < sb_size sb -> used v n = false -> (forall m, 0 <= m < n -> used v m = true) ->
    txn s' (write_block n zeros (bmark sb v n)) G (logged n (logged (BBLOCK n sb) P)) -> wp pr C (f n h' s') d Q) ->
  wp pr C (bind (balloc disk_dev) f h s) d Q.
Proof.
  intros Hs Ht Hsb Hmeta Hfree HG Hroom HQ. apply wp_bind. unfold balloc. rewrite bind_gets, Hsb. pose proof (ge_data _ geom).
  pose proof regions. pose proof (ge_log _ geom). unfold LOGSIZE in *.
  eapply balloc_loop_tx; try done; [intros; lia|]. change BPB with 8192. zlia.
Qed.

(** bfree clears the bit of a block. *)
Lemma bfree_tx {B} (f : unit -> K kernel B) h s v G P b Q : in_syscall h pr -> txn s v G P -> k_sb s = sb ->
  0 <= b < sb_size sb -> used v b = true -> BBLOCK b sb ∉ G.*2 -> (length G + length P < nslots)%nat ->
  (forall h' s', in_syscall h' pr -> kept_but_log pr s s' -> txn s' (bclear sb v b) G (logged (BBLOCK b sb) P) -> wp pr C (f tt h' s') d Q) ->
  wp pr C (bind (bfree disk_dev b) f h s) d Q.
Proof.
  intros Hs Ht Hsb Hb Hu HG Hroom HQ. apply wp_bind. unfold bfree. rewrite bind_gets, Hsb. destruct (BBLOCK_ok b Hb) as (_ & HnB & HrB).
  unfold nslots, LOGSIZE in *. apply wp_bind. eapply bread_tx; try done; [right; unfold NBUF; lia|]. intros bp h1 s1 Hs1 K1 Ht1.
  eapply data_get_tx; [exact Ht1|by left|]. unfold id, bit_mask at 1. rewrite land_bit by (change BPB with 8192; zlia).
  unfold FsDisk.used in Hu. rewrite mod8, Hu. cbn [negb].
  eapply (data_set_tx _ _ _ _ (alter (fun x => Z.land x (u8 (Z.lnot (bit_mask (b mod BPB))))) (Z.to_nat (b mod BPB / 8))));
    [exact Ht1|by left|rewrite length_alter; apply (tx_block _ _ _ _ _ _ _ _ Ht)|]. intros s2 K2 Ht2.
  eapply log_write_tx; [done|exact Ht2|by left|unfold nslots, LOGSIZE; lia|done|]. intros h3 s3 Hs3 K3 Ht3.
  eapply brelse_tx; try done; [left; apply logged_in|]. intros h4 s4 Hs4 K4 Ht4. apply HQ; [done|kept_chain|done].
Qed.

End blocks.
