(* ===== verification/FsInode.v ===== *)
(** * FsInode

    iupdate and bmap of kernel/fs.c: how an inode in memory, the inode on the disk and
    the blocks of the file change. *)
From stdpp Require Import base tactics list numbers gmap strings.
From S2P Require Import Prelude Machine Spinlock Printf Bytes Block Queue Kalloc Vm Kernel Proc ProcFacts.
From S2P Require Import Sleeplock Virtio Bio Log Fs Discipline ProcProps BioProps Storage BlockIO LogProps Transaction FsDisk FsBlocks.

(** The log and the inodes in memory may have changed. *)
Record kept_fs (pr : nat) (s s' : kernel) : Prop := {
  kf_sb : k_sb s' = k_sb s;
  kf_file : k_file s' = k_file s;
  kf_pm : k_pm s' = k_pm s;
  kf_len : length (k_proc s') = length (k_proc s);
  kf_proc : forall x, k_proc s !! pr = Some x -> exists y, k_proc s' !! pr = Some y /\ same_proc x y;
}.

Lemma kept_fs_refl pr s : kept_fs pr s s.
Proof. constructor; try done. intros x Hx. exists x. split; [done|apply same_proc_refl]. Qed.

Lemma kept_fs_trans pr s s' s'' : kept_fs pr s s' -> kept_fs pr s' s'' -> kept_fs pr s s''.
Proof.
  intros [A1 A2 A3 A4 A5] [B1 B2 B3 B4 B5]. constructor; [congruence..|]. intros x Hx.
  destruct (A5 x Hx) as (y & Hy & Sy). destruct (B5 y Hy) as (z & Hz & Sz). exists z. split; [done|].
  by eapply same_proc_trans.
Qed.

Lemma kept_but_log_fs pr s s' : kept_but_log pr s s' -> kept_fs pr s s' /\ k_inode s' = k_inode s.
Proof. intros []. split; [by constructor|done]. Qed.

(** The memory of process [pr]. *)
Record same_user (pr : nat) (s s' : kernel) : Prop := {
  su_pm : k_pm s' = k_pm s;
  su_proc : forall x, k_proc s !! pr = Some x -> exists y, k_proc s' !! pr = Some y /\ same_proc x y;
}.

Lemma kept_fs_user pr s s' : kept_fs pr s s' -> same_user pr s s'.
Proof. intros []. by constructor. Qed.

Lemma same_user_refl pr s : same_user pr s s.
Proof. apply kept_fs_user, kept_fs_refl. Qed.

Lemma same_user_trans pr s s' s'' : same_user pr s s' -> same_user pr s' s'' -> same_user pr s s''.
Proof.
  intros [A1 A2] [B1 B2]. constructor; [congruence|]. intros x Hx.
  destruct (A2 x Hx) as (y & Hy & Sy). destruct (B2 y Hy) as (z & Hz & Sz). exists z. split; [done|]. by eapply same_proc_trans.
Qed.

Lemma kept_fs_inode pr s s' l : kept_fs pr s s' -> kept_fs pr s (set_k_inode l s').
Proof. intros []. by constructor. Qed.

Lemma alter_insert {A} (f : A -> A) i (l : list A) x : l !! i = Some x -> alter f i l = <[i := f x]> l.
Proof.
  intros E. apply list_eq. intros j. destruct (decide (j = i)) as [->|Hne].
  - rewrite list_lookup_alter_eq, E, list_lookup_insert_eq by (by eapply lookup_lt_Some). done.
  - by rewrite list_lookup_alter_ne, list_lookup_insert_ne.
Qed.

Section inode.
Context `{Layout} `{Symbols} `{WaitPos} `{DeviceOk} `{DiskDev}.
Implicit Types (s : kernel) (h : hart) (d v : disk) (G : list (nat * Z)) (P : list Z) (x : inode) (ip : nat).

Lemma bind_inode_get {A B} (f : inode -> A) (g : A -> K kernel B) ip h s x : k_inode s !! ip = Some x ->
  bind (inode_get ip f) g h s = g (f x) h s.
Proof. intros E. unfold inode_get. rewrite bind_assoc, bind_gets, E. done. Qed.

Lemma bind_inode_set {B} f (g : unit -> K kernel B) ip h s x : k_inode s !! ip = Some x ->
  bind (inode_set ip f) g h s = g tt h (set_k_inode (<[ip := f x]> (k_inode s)) s).
Proof. intros E. unfold inode_set. by rewrite bind_modify, (alter_insert _ _ _ _ E). Qed.

Lemma io_inode pr s d v G P l : io_ok pr s d v G P -> io_ok pr (set_k_inode l s) d v G P.
Proof. intros []. constructor; done. Qed.

Lemma txn_inode start pr s d v G P l : txn start pr d s v G P -> txn start pr d (set_k_inode l s) v G P.
Proof. intros [? [] ? ? ?]. constructor; try done. by apply io_inode. Qed.

End inode.

(** ** Growing a file *)

Section grow.
Context (sb : superblock) (geom : geometry sb).
Implicit Types (v : disk) (t : Z -> list Z) (a P : list Z) (i j m n : Z).

(** What entering a block into the indirect block may still cost: an indirect block of
    its own, and the blocks that are logged for it. *)
Definition icost P a : nat := if ind a =? 0 then 2 else if bool_decide (ind a ∈ P) then 0 else 1.
Definition fcost a : nat := if ind a =? 0 then 1 else 0.

(** File [i] grows by [k] blocks, all zero; no data of any file changes. *)
Record grows (k : nat) i v v' t t' P P' : Prop := {
  gr_fs : fs_ok sb v' t';
  gr_other : forall j, j <> i -> t' j = t j;
  gr_data : forall j m, inum_ok sb j -> 0 <= m < MAXFILE -> fdata v' (t' j) m = fdata v (t j) m;
  gr_oblock : forall j m, inum_ok sb j -> j <> i -> fblock v' (t' j) m = fblock v (t j) m;
  gr_blocks : forall m, 0 <= m < MAXFILE -> fblock v (t i) m <> 0 -> fblock v' (t' i) m = fblock v (t i) m;
  gr_meta : forall m, m < sb_bmapstart sb -> v' m = v m;
  gr_pins : P ⊆ P';
  gr_logged : (length P' + icost P' (t' i) <= length P + icost P (t i) + 2 * k)%nat;
  gr_free : (nfree sb v + fcost (t' i) <= nfree sb v' + fcost (t i) + k)%nat;
}.

Lemma grows_refl i v t P : fs_ok sb v t -> grows 0 i v v t t P P.
Proof. intros Hfs. constructor; try done; lia. Qed.

Lemma grows_trans k1 k2 i v1 v2 v3 t1 t2 t3 P1 P2 P3 : inum_ok sb i -> grows k1 i v1 v2 t1 t2 P1 P2 -> grows k2 i v2 v3 t2 t3 P2 P3 ->
  grows (k1 + k2) i v1 v3 t1 t3 P1 P3.
Proof.
  intros Hi [] []. constructor; try done.
  - intros j Hj. rewrite gr_other1, gr_other0; done.
  - intros j m Hj Hm. rewrite gr_data1, gr_data0; done.
  - intros j m Hj Hm. rewrite gr_oblock1, gr_oblock0; done.
  - intros m Hm Hn. rewrite gr_blocks1, gr_blocks0; try done. by rewrite gr_blocks0.
  - intros m Hm. rewrite gr_meta1, gr_meta0; done.
  - by etrans.
  - lia.
  - lia.
Qed.

Lemma icost_mono P P' a : P ⊆ P' -> (icost P' a <= icost P a)%nat.
Proof.
  intros Hs. unfold icost. destruct (ind a =? 0); [lia|]. case_bool_decide as E1; [lia|]. case_bool_decide as E2; [|lia]. by apply Hs in E2.
Qed.

Lemma logged2 n m P : P ⊆ logged n (logged m P) /\ (length (logged n (logged m P)) <= length P + 2)%nat /\ n ∈ logged n (logged m P).
Proof.
  pose proof (logged_len m P). pose proof (logged_len n (logged m P)). split_and!; [etrans; apply logged_mono|lia|apply logged_in].
Qed.

(** Block [n], just allocated, becomes block [k] of the file. *)
Lemma grows_block v v' t i a' n k P P' : fs_ok sb v t -> inum_ok sb i -> 0 <= n < sb_size sb -> used sb v n = false -> 0 <= k < MAXFILE ->
  let v1 := write_block n zeros (bmark sb v n) in
  fblock v1 (t i) k = 0 -> extends v1 v' (t i) a' k n -> disk_ok v' -> (forall b, b <> ind (t i) \/ ind (t i) = 0 -> v' b = v1 b) ->
  P ⊆ P' -> (length P' + icost P' a' <= length P + icost P (t i) + 2)%nat ->
  grows 1 i v v' t (upd t i a') P P' /\ fblock v' a' k = n.
Proof.
  intros Hfs Hi Hn Hu Hk v1 Hz Hex Hv' Hkeep Hsub Hcost.
  destruct (fs_alloc sb geom v t n Hfs Hn Hu) as (Hfs1 & Hsp & Hblk & Hown). fold v1 in Hfs1, Hsp, Hblk, Hown.
  destruct (extends_fs sb geom v1 v' t i a' k n Hfs1 Hi Hsp Hk Hz Hex Hv' Hkeep) as (Hfs' & Hdata & Hob).
  pose proof (sr_range _ _ _ _ Hsp) as Hnr. pose proof (regions sb geom) as Hreg.
  assert (Hik : ind (t i) <> 0 -> dstart sb <= ind (t i)).
  { intros Hz'. by apply (fs_range _ _ _ Hfs i (ind (t i)) Hi), owns_ind. }
  assert (Hlow : forall m, m < dstart sb -> v' m = v1 m).
  { intros m Hm. apply Hkeep. destruct (decide (ind (t i) = 0)) as [|Hz']; [by right|left]. specialize (Hik Hz'). lia. }
  split; [|apply Hex]. constructor; try done.
  - intros j. apply upd_ne.
  - intros j m Hj Hm. rewrite Hdata by done. apply fdata_same; [done|by apply Hblk|]. intros b. by apply Hown.
  - intros j m Hj Hne. rewrite upd_ne, Hob by done. by apply Hblk.
  - intros m Hm Hnz. rewrite upd_eq. rewrite (ex_old _ _ _ _ _ _ Hex); [by apply Hblk|done|]. intros ->. rewrite Hblk in Hz by done. done.
  - intros m Hm. rewrite Hlow by lia. unfold v1, bmark. pose proof (BBLOCK_eq sb geom n Hn). rewrite !write_block_ne by lia. done.
  - rewrite upd_eq. lia.
  - rewrite upd_eq. unfold fcost. rewrite (ex_ind _ _ _ _ _ _ Hex).
    rewrite (nfree_alloc sb geom v n) by (done || lia || apply Hfs).
    rewrite (nfree_same sb v1 v'); [unfold v1; lia|]. intros m Hm. apply used_same, Hlow. pose proof (BBLOCK_eq sb geom m Hm). lia.
Qed.

(** Block [n], just allocated, becomes the indirect block. *)
Lemma grows_ind v t i n P : fs_ok sb v t -> inum_ok sb i -> 0 <= n < sb_size sb -> used sb v n = false -> ind (t i) = 0 ->
  let v1 := write_block n zeros (bmark sb v n) in
  grows 0 i v v1 t (upd t i (<[NDIRECT := n]> (t i))) P (logged n (logged (BBLOCK n sb) P)) /\ ind (<[NDIRECT := n]> (t i)) = n /\
  n <> 0 /\ forall m, 0 <= m < MAXFILE -> fblock v1 (<[NDIRECT := n]> (t i)) m = fblock v (t i) m.
Proof.
  intros Hfs Hi Hn Hu Hz v1. destruct (fs_alloc sb geom v t n Hfs Hn Hu) as (Hfs1 & Hsp & Hblk & Hown). fold v1 in Hfs1, Hsp, Hblk, Hown.
  destruct (fs_set_ind sb geom v1 t i n Hfs1 Hi Hsp Hz) as (Hfs' & Ei & Hb). pose proof (spare_ne sb geom v1 t n Hsp) as Hn0.
  destruct (logged2 n (BBLOCK n sb) P) as (L1 & L2 & L3). pose proof (sr_range _ _ _ _ Hsp) as Hnr. pose proof (regions sb geom) as Hreg.
  split_and!; [|done|done|intros m Hm; rewrite Hb by done; by apply Hblk]. constructor; try done.
  - intros j. apply upd_ne.
  - intros j m Hj Hm. destruct (decide (j = i)) as [->|Hne].
    + rewrite upd_eq. transitivity (fdata v1 (t i) m); [unfold fdata; by rewrite Hb|].
      apply fdata_same; [done|by apply Hblk|]. intros b. by apply Hown.
    + rewrite upd_ne by done. apply fdata_same; [done|by apply Hblk|]. intros b. by apply Hown.
  - intros j m Hj Hne. rewrite upd_ne by done. by apply Hblk.
  - intros m Hm _. rewrite upd_eq, Hb by done. by apply Hblk.
  - intros m Hm. unfold v1, bmark. pose proof (BBLOCK_eq sb geom n Hn). rewrite !write_block_ne by lia. done.
  - rewrite upd_eq. unfold icost. rewrite Ei, Hz, (proj2 (Z.eqb_neq _ _) Hn0), bool_decide_eq_true_2 by done. simpl. lia.
  - rewrite upd_eq. unfold fcost. rewrite Ei, Hz, (proj2 (Z.eqb_neq _ _) Hn0). simpl.
    rewrite (nfree_alloc sb geom v n) by (done || lia || apply Hfs). fold v1. lia.
Qed.

End grow.

(** ** bmap *)

Section bmap.
Context `{Layout} `{Symbols} `{WaitPos} `{DeviceOk} `{DiskDev}.
Context (sb : superblock) (geom : geometry sb).
Context (pr : nat) (C : disk -> Prop) (d : disk) (d_ok : C d).
#[local] Abbreviation txn := (txn (sb_logstart sb) pr d).
Implicit Types (s : kernel) (h : hart) (v : disk) (t : Z -> list Z) (G : list (nat * Z)) (P : list Z) (x : inode) (ip : nat) (n b m : Z).

(** Inside a transaction, with the inode [x] of a file at index [ip] of the table. *)
Record open_file s v t P ip x : Prop := {
  of_txn : txn s v [] P;
  of_sb : k_sb s = sb;
  of_fs : fs_ok sb v t;
  of_inode : k_inode s !! ip = Some x;
  of_dev : i_dev x = disk_dev;
  of_inum : inum_ok sb (i_inum x);
  of_addrs : t (i_inum x) = i_addrs x;
}.

Lemma set_i_addrs_id x : set_i_addrs (i_addrs x) x = x.
Proof. by destruct x. Qed.

Lemma bind_addr_get {B} (f : Z -> K kernel B) ip i h s x n : k_inode s !! ip = Some x -> i_addrs x !! i = Some n ->
  bind (addr_get ip i) f h s = f n h s.
Proof. intros Hx Hn. unfold addr_get. rewrite bind_assoc, (bind_inode_get _ _ _ _ _ _ Hx), Hn. done. Qed.

Lemma bind_addr_set {B} (f : unit -> K kernel B) ip i n h s x : k_inode s !! ip = Some x ->
  bind (addr_set ip i n) f h s = f tt h (set_k_inode (<[ip := set_i_addrs (<[i := n]> (i_addrs x)) x]> (k_inode s)) s).
Proof. intros Hx. unfold addr_set. by rewrite (bind_inode_set _ _ _ _ _ _ Hx). Qed.

(** The new addresses are stored in the inode. *)
Lemma open_file_addrs s s' v v' t t' P P' ip x : open_file s v t P ip x -> txn s' v' [] P' -> kept_fs pr s s' -> k_inode s' = k_inode s ->
  fs_ok sb v' t' -> 
  open_file (set_k_inode (<[ip := set_i_addrs (t' (i_inum x)) x]> (k_inode s')) s') v' t' P' ip (set_i_addrs (t' (i_inum x)) x).
Proof.
  intros [Ht Hsb Hfs Hx Hd Hi Ha] Ht' K E Hfs'. constructor; simpl; try done.
  - by apply txn_inode.
  - by rewrite (kf_sb _ _ _ K).
  - rewrite E. apply list_lookup_insert_eq. by eapply lookup_lt_Some.
Qed.

(** bmap has found or allocated block [n] of the file. *)
Record mapped s v t P ip x n s' v' t' P' b : Prop := {
  mp_open : open_file s' v' t' P' ip (set_i_addrs (t' (i_inum x)) x);
  mp_kept : kept_fs pr s s';
  mp_inode : k_inode s' = <[ip := set_i_addrs (t' (i_inum x)) x]> (k_inode s);
  mp_grows : grows sb (if fblock v (i_addrs x) n =? 0 then 1 else 0) (i_inum x) v v' t t' P P';
  mp_block : fblock v' (t' (i_inum x)) n = b;
  mp_ne : b <> 0;
  mp_new : fblock v (i_addrs x) n = 0 -> b ∈ P';
}.

Lemma open_file_len s v t P ip x : open_file s v t P ip x -> length (i_addrs x) = S NDIRECT.
Proof. intros Ho. rewrite <-(of_addrs _ _ _ _ _ _ Ho). apply (fs_file _ _ _ (of_fs _ _ _ _ _ _ Ho) _ (of_inum _ _ _ _ _ _ Ho)). Qed.

Lemma mapped_refl s s' v t P ip x n : open_file s v t P ip x -> kept_but_log pr s s' -> txn s' v [] P -> fblock v (i_addrs x) n <> 0 ->
  mapped s v t P ip x n s' v t P (fblock v (i_addrs x) n).
Proof.
  intros Ho K Ht Hn. destruct (kept_but_log_fs _ _ _ K) as [Kf Ei]. pose proof Ho as [_ Hsb Hfs Hx Hd Hi Ha].
  constructor; rewrite ?Ha, ?set_i_addrs_id; try done.
  - constructor; try done; [by rewrite (kf_sb _ _ _ Kf)|by rewrite Ei].
  - by rewrite list_insert_id.
  - rewrite (proj2 (Z.eqb_neq _ _) Hn). by apply grows_refl.
Qed.

Lemma bmap_direct_wp h s v t P ip x n Q : in_syscall h pr -> open_file s v t P ip x -> 0 <= n < Z.of_nat NDIRECT ->
  (fblock v (i_addrs x) n = 0 -> (length P + 2 <= nslots)%nat /\ (0 < nfree sb v)%nat) ->
  (forall b h' s' v' t' P', in_syscall h' pr -> mapped s v t P ip x n s' v' t' P' b -> Q b h' s' d) ->
  wp pr C (bmap ip n h s) d Q.
Proof.
  intros Hs Ho Hn Hroom HQ. pose proof Ho as [Ht Hsb Hfs Hx Hd Hi Ha]. pose proof (open_file_len _ _ _ _ _ _ Ho) as Hl.
  unfold bmap. rewrite (bind_inode_get _ _ _ _ _ _ Hx), (proj2 (Z.ltb_lt _ _)) by lia. rewrite Hd.
  destruct (lookup_lt_is_Some_2 (i_addrs x) (Z.to_nat n)) as [n0 En]; [unfold NDIRECT in *; lia|].
  assert (Eb : fblock v (i_addrs x) n = n0) by (unfold fblock; rewrite (proj2 (Z.ltb_lt _ _)), En by lia; done).
  rewrite (bind_addr_get _ _ _ _ _ _ _ Hx En). destruct (Z.eqb_spec n0 0) as [->|Hne].
  2: { cbn [ret wp]. split; [done|]. rewrite <-Eb. eapply HQ; [done|]. apply mapped_refl; try done; [apply kept_but_log_refl|congruence]. }
  destruct (Hroom Eb) as [Hr Hf].
  eapply balloc_tx; try done; [apply (fs_meta _ _ _ Hfs)|by apply nfree_pos|by intros m Hm%elem_of_nil|].
  intros b h1 s1 Hs1 K1 Hb Hu _ Ht1. destruct (kept_but_log_fs _ _ _ K1) as [Kf Ei].
  rewrite (bind_addr_set _ _ _ _ _ _ x) by (by rewrite Ei). cbn [ret wp]. split; [done|].
  set (v1 := write_block b zeros (bmark sb v b)) in *. set (P1 := logged b _) in *. destruct (logged2 b (BBLOCK b sb) P) as (L1 & L2 & L3). fold P1 in L1, L2, L3.
  assert (Hn' : 0 <= n < MAXFILE) by (unfold MAXFILE; change NINDIRECT with 256; lia).
  destruct (fs_alloc sb geom v t b Hfs Hb Hu) as (Hfs1 & Hsp & Hblk & _). fold v1 in Hfs1, Hsp, Hblk. pose proof (spare_ne sb geom v1 t b Hsp) as Hb0.
  destruct (grows_block sb geom v v1 t (i_inum x) (<[Z.to_nat n := b]> (t (i_inum x))) b n P P1) as [Hg Hnb]; try done.
  { fold v1. by rewrite Hblk, Ha by done. } { apply extends_direct; [by rewrite Ha|done]. } { apply Hfs1. }
  { unfold icost. replace (ind (<[Z.to_nat n := b]> (t (i_inum x)))) with (ind (t (i_inum x)));
      [pose proof (icost_mono P P1 (t (i_inum x)) L1) as Hm; unfold icost in Hm; lia|].
    unfold ind. rewrite list_lookup_insert_ne; [done|]. unfold NDIRECT in *. lia. }
  rewrite <-Ha. set (a' := <[Z.to_nat n := b]> (t (i_inum x))) in *.
  apply (HQ b h1 _ v1 (upd t (i_inum x) a') P1 Hs1).
  pose proof (open_file_addrs s s1 v v1 t (upd t (i_inum x) a') P P1 ip x Ho Ht1 Kf Ei (gr_fs _ _ _ _ _ _ _ _ _ Hg)) as Ho'.
  constructor; rewrite ?upd_eq in *; try done.
  - by apply kept_fs_inode.
  - simpl. by rewrite Ei.
  - by rewrite Eb.
Qed.

(** Block [b], just allocated, has been entered into the indirect block. *)
Lemma mapped_entry s v t P ip x n b s' : open_file s v t P ip x -> Z.of_nat NDIRECT <= n < MAXFILE -> ind (i_addrs x) <> 0 ->
  fblock v (i_addrs x) n = 0 -> 0 <= b < sb_size sb -> used sb v b = false -> kept_but_log pr s s' ->
  let v1 := write_block b zeros (bmark sb v b) in
  let v2 := write_block (ind (i_addrs x)) (put32 (v1 (ind (i_addrs x))) (Z.to_nat (4 * (n - Z.of_nat NDIRECT))) b) v1 in
  let P2 := logged (ind (i_addrs x)) (logged b (logged (BBLOCK b sb) P)) in
  txn s' v2 [] P2 -> mapped s v t P ip x n s' v2 (upd t (i_inum x) (t (i_inum x))) P2 b.
Proof.
  intros Ho. pose proof Ho as [_ Hsb Hfs Hx Hd Hi Ha]. pose proof (open_file_len _ _ _ _ _ _ Ho) as Hl. rewrite <-Ha in Hl |- *.
  intros Hn Hz E0 Hb Hub K v1 v2 P2 Ht'. destruct (fs_alloc sb geom v t b Hfs Hb Hub) as (Hfs1 & Hsp & Hblk & _). fold v1 in Hfs1, Hsp, Hblk.
  pose proof (spare_ne sb geom v1 t b Hsp) as Hb0.
  destruct (logged2 b (BBLOCK b sb) P) as (L1 & L2 & L3). set (P1 := logged b _) in *. set (i := i_inum x) in *.
  pose proof (ge_data _ geom) as Hge. destruct (kept_but_log_fs _ _ _ K) as [Kf Ei].
  assert (Hn' : 0 <= n < MAXFILE) by (unfold NDIRECT in *; lia).
  destruct (grows_block sb geom v v2 t i (t i) b n P P2) as [Hg Hnb]; try done.
  { fold v1. by rewrite Hblk. } { apply extends_entry; [done|done|done|lia|apply Hfs1]. }
  { apply disk_ok_write; [apply Hfs1|]. rewrite length_put32; [done| |apply Hfs1]. unfold MAXFILE in Hn. change NINDIRECT with 256 in *.
    change (Z.to_nat BSIZE) with 1024%nat. unfold NDIRECT in *. lia. }
  { intros m [Hm|Hm]; [|done]. by apply write_block_ne. } { etrans; [exact L1|apply logged_mono]. }
  { unfold icost. rewrite (proj2 (Z.eqb_neq _ _) Hz), bool_decide_eq_true_2 by apply logged_in. case_bool_decide as Hin.
    - unfold P2. rewrite logged_old by (by apply L1). lia.
    - pose proof (logged_len (ind (t i)) P1). unfold P2. lia. }
  assert (Ex : set_i_addrs (t i) x = x) by (rewrite Ha; apply set_i_addrs_id).
  constructor; fold i; rewrite ?upd_eq, ?Ex; try done.
  - constructor; try done; [by rewrite (kf_sb _ _ _ Kf)|apply Hg|by rewrite Ei|by rewrite upd_eq].
  - by rewrite Ei, list_insert_id.
  - by rewrite <-Ha, E0.
  - intros _. by apply logged_mono.
Qed.

(** The entry of the indirect block. *)
Lemma bmap_entry_wp h s v t P ip x n Q : in_syscall h pr -> open_file s v t P ip x -> Z.of_nat NDIRECT <= n < MAXFILE -> ind (i_addrs x) <> 0 ->
  (fblock v (i_addrs x) n = 0 -> (length P + 3 <= nslots)%nat /\ (0 < nfree sb v)%nat) ->
  (forall b h' s' v' t' P', in_syscall h' pr -> mapped s v t P ip x n s' v' t' P' b -> Q b h' s' d) ->
  let k := Z.to_nat (4 * (n - Z.of_nat NDIRECT)) in
  wp pr C ((bp <- bread disk_dev (ind (i_addrs x));;
    addr <- data_get bp (fun a => get32 a k);;
    addr <- (if addr =? 0 then
               addr <- balloc disk_dev;;
               data_set bp (fun a => put32 a k addr);;
               log_write bp;;
               ret addr
             else ret addr);;
    brelse bp;;
    ret addr) h s) d Q.
Proof.
  intros Hs Ho Hn Hz Hroom HQ k. pose proof Ho as [Ht Hsb Hfs Hx Hd Hi Ha]. pose proof (open_file_len _ _ _ _ _ _ Ho) as Hl.
  set (i := i_inum x) in *. pose proof (fs_range _ _ _ Hfs i (ind (i_addrs x)) Hi ltac:(rewrite Ha; by apply owns_ind)) as [Hr Hu].
  pose proof (regions sb geom) as Hreg. pose proof (tx_lg _ _ _ _ _ _ _ Ht) as Hlg. destruct (loggable_len _ _ Hlg) as [HNB _].
  assert (Eb : get32 (v (ind (i_addrs x))) k = fblock v (i_addrs x) n).
  { unfold fblock. by rewrite (proj2 (Z.ltb_ge _ _)), (proj2 (Z.eqb_neq _ _) Hz) by lia. }
  pose proof (tx_clean _ _ _ _ _ _ _ (ind (i_addrs x)) Ht ltac:(apply not_elem_of_nil)) as Hcl.
  apply wp_bind. eapply bread_tx; try done; [apply not_elem_of_nil|apply (in_range sb geom); lia|by right|].
  intros bp h1 s1 Hs1 K1 Ht1. eapply data_get_tx; [exact Ht1|by left|]. rewrite Eb. destruct (Z.eqb_spec (fblock v (i_addrs x) n) 0) as [E0|E0].
  2: { ksimpl. apply wp_bind. eapply brelse_tx; try done. intros h2 s2 Hs2 K2 Ht2. cbn [ret wp]. split; [done|].
    eapply HQ; [done|]. apply mapped_refl; try done. kept_chain. }
  destruct (Hroom E0) as [Hr3 Hfr]. rewrite !bind_assoc.
  eapply balloc_tx; try done; [by rewrite (kp_sb _ _ _ K1)|apply (fs_meta _ _ _ Hfs)|by apply nfree_pos| |simpl; lia|].
  { intros m Hm. apply list_elem_of_singleton in Hm as ->. done. }
  intros b h2 s2 Hs2 K2 Hb Hub _ Ht2. pose proof (logged2 b (BBLOCK b sb) P) as (_ & L2 & _). rewrite !bind_assoc.
  eapply (data_set_tx _ _ _ _ (fun a => put32 a k b)); [exact Ht2|by left| |].
  { rewrite length_put32; [done| |eapply tx_block, Ht2]. unfold k, MAXFILE in *. change NINDIRECT with 256 in *.
    change (Z.to_nat BSIZE) with 1024%nat. unfold NDIRECT in *. lia. }
  intros s3 K3 Ht3. rewrite bind_assoc. eapply log_write_tx; [done|exact Ht3|by left|lia|apply (past_log sb geom); lia|].
  intros h4 s4 Hs4 K4 Ht4. ksimpl. apply wp_bind. eapply brelse_tx; try done; [left; apply logged_in|].
  intros h5 s5 Hs5 K5 Ht5. cbn [ret wp]. split; [done|]. eapply HQ; [done|]. apply mapped_entry; try done. kept_chain.
Qed.

(** After the indirect block has been allocated. *)
Lemma mapped_trans s v t P ip x n s1 v1 a1 P1 s' v' t' P' b : inum_ok sb (i_inum x) -> kept_fs pr s s1 ->
  let t1 := upd t (i_inum x) a1 in let x1 := set_i_addrs a1 x in
  k_inode s1 = <[ip := x1]> (k_inode s) -> grows sb 0 (i_inum x) v v1 t t1 P P1 -> fblock v1 a1 n = fblock v (i_addrs x) n ->
  mapped s1 v1 t1 P1 ip x1 n s' v' t' P' b -> mapped s v t P ip x n s' v' t' P' b.
Proof.
  intros Hi K t1 x1 Ei Hg Eb [M1 M2 M3 M4 M5 M6 M7]. change (i_inum x1) with (i_inum x) in *. change (i_addrs x1) with a1 in *. rewrite Eb in M4, M7.
  assert (Ex : set_i_addrs (t' (i_inum x)) x1 = set_i_addrs (t' (i_inum x)) x) by done. rewrite Ex in M1, M3. constructor; try done.
  - by eapply kept_fs_trans.
  - by rewrite M3, Ei, list_insert_insert_eq.
  - exact (grows_trans sb 0 _ (i_inum x) v v1 v' t t1 t' P P1 P' Hi Hg M4).
Qed.

(** bmap returns the address of block [n] of the file, which it allocates when missing. *)
Lemma bmap_wp h s v t P ip x n Q : in_syscall h pr -> open_file s v t P ip x -> 0 <= n < MAXFILE ->
  (fblock v (i_addrs x) n = 0 -> (length P + icost P (i_addrs x) + 3 <= nslots)%nat /\ (fcost (i_addrs x) < nfree sb v)%nat) ->
  (forall b h' s' v' t' P', in_syscall h' pr -> mapped s v t P ip x n s' v' t' P' b -> Q b h' s' d) ->
  wp pr C (bmap ip n h s) d Q.
Proof.
  intros Hs Ho Hn Hroom HQ. destruct (decide (n < Z.of_nat NDIRECT)) as [Hlt|Hge].
  { eapply bmap_direct_wp; try done; [lia|]. intros E. specialize (Hroom E). lia. }
  pose proof Ho as [Ht Hsb Hfs Hx Hd Hi Ha]. pose proof (open_file_len _ _ _ _ _ _ Ho) as Hl.
  unfold bmap. rewrite (bind_inode_get _ _ _ _ _ _ Hx), (proj2 (Z.ltb_ge _ _)), (proj2 (Z.ltb_lt _ _)) by (unfold MAXFILE in *; lia). rewrite Hd.
  destruct (lookup_lt_is_Some_2 (i_addrs x) NDIRECT) as [n0 En]; [lia|].
  assert (Eind : ind (i_addrs x) = n0) by (unfold ind; by rewrite En).
  rewrite (bind_addr_get _ _ _ _ _ _ _ Hx En). destruct (Z.eqb_spec n0 0) as [->|Hne].
  2: { ksimpl. rewrite <-Eind. eapply bmap_entry_wp; try done; [lia|congruence|]. intros E. specialize (Hroom E). lia. }
  assert (Eb : fblock v (i_addrs x) n = 0) by (unfold fblock; by rewrite (proj2 (Z.ltb_ge _ _)), Eind by lia).
  destruct (Hroom Eb) as [Hr Hf]. unfold icost, fcost in Hr, Hf. rewrite Eind in Hr, Hf. simpl in Hr, Hf. rewrite bind_assoc.
  eapply balloc_tx; try done; [apply (fs_meta _ _ _ Hfs)|apply nfree_pos; lia|by intros m Hm%elem_of_nil|simpl; lia|].
  intros b h1 s1 Hs1 K1 Hb Hu _ Ht1. destruct (kept_but_log_fs _ _ _ K1) as [Kf Ei]. rewrite bind_assoc.
  rewrite (bind_addr_set _ _ _ _ _ _ x) by (by rewrite Ei). ksimpl.
  destruct (grows_ind sb geom v t (i_inum x) b P Hfs Hi Hb Hu ltac:(by rewrite Ha)) as (Hg & Eb1 & Hb0 & Hblk).
  rewrite Ha in Hg, Eb1, Hblk. set (a1 := <[NDIRECT := b]> (i_addrs x)) in *.
  pose proof (open_file_addrs s s1 v _ t (upd t (i_inum x) a1) P _ ip x Ho Ht1 Kf Ei (gr_fs _ _ _ _ _ _ _ _ _ Hg)) as Ho1.
  rewrite upd_eq in Ho1. set (s2 := set_k_inode _ s1) in *. rewrite <-Eb1 at 1. change (ind a1) with (ind (i_addrs (set_i_addrs a1 x))) at 1.
  pose proof (gr_free _ _ _ _ _ _ _ _ _ Hg) as Hgf. pose proof (gr_logged _ _ _ _ _ _ _ _ _ Hg) as Hgl. rewrite upd_eq, Ha in Hgf, Hgl.
  unfold icost, fcost in Hgf, Hgl. rewrite Eind, Eb1, (proj2 (Z.eqb_neq _ _) Hb0) in Hgf, Hgl. simpl in Hgf, Hgl.
  eapply bmap_entry_wp; [done|exact Ho1|lia|simpl; congruence| |].
  { intros _. split; [destruct (bool_decide _) in Hgl; lia|lia]. }
  intros b' h' s' v' t' P' Hs' Hm. eapply HQ; [done|]. eapply mapped_trans; [done| | |exact Hg|by apply Hblk|exact Hm].
  - by apply kept_fs_inode.
  - simpl. by rewrite Ei.
Qed.

End bmap.
