(* ===== verification/FsFile.v ===== *)
(** * FsFile

    readi, writei and iupdate of kernel/fs.c: a file is a sequence of bytes. *)
From stdpp Require Import base tactics list numbers gmap strings.
From S2P Require Import Prelude Machine Spinlock Printf Bytes Block Queue Kalloc Vm Kernel Proc ProcFacts.
From S2P Require Import Sleeplock Virtio Bio Log Fs Discipline ProcProps BioProps Storage BlockIO LogProps Transaction FsDisk FsBlocks FsInode.

(** ** The bytes of a file *)

Section bytes.
Implicit Types (v : disk) (a : list Z) (off n p : Z).

Definition fbyte v a p : Z := byte_at (fdata v a (p / BSIZE)) (p mod BSIZE).
Definition fbytes v a off n : list Z := fbyte v a <$> seqZ off n.

Lemma length_fbytes v a off n : length (fbytes v a off n) = Z.to_nat n.
Proof. unfold fbytes. by rewrite length_fmap, length_seqZ. Qed.

Lemma fbytes_nil v a off n : n <= 0 -> fbytes v a off n = [].
Proof. intros. unfold fbytes. by rewrite seqZ_nil. Qed.

Lemma fbytes_app v a off m n : 0 <= m -> 0 <= n -> fbytes v a off (m + n) = fbytes v a off m ++ fbytes v a (off + m) n.
Proof. intros. unfold fbytes. by rewrite seqZ_app, fmap_app. Qed.

Lemma lookup_fbytes v a off n i : (i < Z.to_nat n)%nat -> fbytes v a off n !! i = Some (fbyte v a (off + Z.of_nat i)).
Proof. intros Hi. unfold fbytes. rewrite list_lookup_fmap, lookup_seqZ_lt by lia. done. Qed.

(** The part that lies in one block. *)
Lemma fbytes_block v a off n : 0 <= off -> 0 <= n -> off mod BSIZE + n <= BSIZE -> length (fdata v a (off / BSIZE)) = Z.to_nat BSIZE ->
  fbytes v a off n = slice (fdata v a (off / BSIZE)) (Z.to_nat (off mod BSIZE)) (Z.to_nat n).
Proof.
  intros Ho Hn Hb Hl. apply list_eq. intros i. unfold slice. destruct (decide (i < Z.to_nat n)%nat) as [Hi|Hi].
  - rewrite lookup_fbytes, lookup_take_lt, lookup_drop by lia. unfold fbyte, byte_at. change BSIZE with 1024 in *.
    replace ((off + Z.of_nat i) / 1024) with (off / 1024) by zlia. replace (Z.to_nat ((off + Z.of_nat i) mod 1024)) with (Z.to_nat (off mod 1024) + i)%nat by zlia.
    destruct (lookup_lt_is_Some_2 (fdata v a (off / 1024)) (Z.to_nat (off mod 1024) + i)) as [c ->]; [zlia|done].
  - rewrite lookup_ge_None_2 by (rewrite length_fbytes; lia). symmetry. apply lookup_take_ge. lia.
Qed.

(** A store into a block, seen by bytes. *)
Lemma byte_at_splice l (off : nat) bs p : (off + length bs <= length l)%nat -> 0 <= p ->
  byte_at (splice l off bs) p = if decide (Z.of_nat off <= p < Z.of_nat (off + length bs)) then byte_at bs (p - Z.of_nat off) else byte_at l p.
Proof.
  intros Hl Hp. unfold byte_at. rewrite lookup_splice by done. do 2 case_decide; try lia. do 2 f_equal. lia.
Qed.

End bytes.

(** ** Reading *)

(** Every block below the size is there. *)
Definition no_holes (v : disk) (a : list Z) (size : Z) : Prop := forall n, 0 <= n -> n * BSIZE < size -> fblock v a n <> 0.

Record readable (v : disk) (a : list Z) (size : Z) : Prop := {
  rd_len : length a = S NDIRECT;
  rd_size : 0 <= size <= MAXFILE * BSIZE;
  rd_full : no_holes v a size;
  rd_range : forall n, 0 <= n < MAXFILE -> 0 <= fblock v a n < 2 ^ 31;
  rd_ind : 0 <= ind a < 2 ^ 31;
  rd_view : disk_ok v;
}.

Section read.
Context `{Layout} `{Symbols} `{WaitPos} `{DeviceOk} `{DiskDev}.
Context (pr : nat) (C : disk -> Prop) (d : disk) (d_ok : C d).
Implicit Types (s : kernel) (h : hart) (v : disk) (P : list Z) (x : inode) (ip : nat) (n b off size : Z).

(** bmap of a block that is there only reads. *)
Lemma bmap_read_wp h s v P ip x n Q : in_syscall h pr -> io_ok pr s d v [] P -> (length P < NBUF)%nat -> k_inode s !! ip = Some x -> i_dev x = disk_dev ->
  length (i_addrs x) = S NDIRECT -> 0 <= ind (i_addrs x) < 2 ^ 31 -> 0 <= n < MAXFILE -> fblock v (i_addrs x) n <> 0 ->
  (forall h' s', in_syscall h' pr -> kept pr s s' -> io_ok pr s' d v [] P -> Q (fblock v (i_addrs x) n) h' s' d) ->
  wp pr C (bmap ip n h s) d Q.
Proof.
  intros Hs Hio HP Hx Hd Hl Hind Hn Hb HQ. unfold bmap. rewrite (bind_inode_get _ _ _ _ _ _ Hx), Hd. unfold fblock in *.
  destruct (Z.ltb_spec n (Z.of_nat NDIRECT)) as [Hlt|Hge].
  - destruct (lookup_lt_is_Some_2 (i_addrs x) (Z.to_nat n)) as [n0 En]; [unfold NDIRECT in *; lia|]. rewrite En in *. simpl in *.
    rewrite (bind_addr_get _ _ _ _ _ _ _ Hx En), (proj2 (Z.eqb_neq _ _) Hb). cbn [ret wp]. split; [done|]. apply HQ; [done|apply kept_refl|done].
  - rewrite (proj2 (Z.ltb_lt _ _)) by (unfold MAXFILE in *; lia). destruct (lookup_lt_is_Some_2 (i_addrs x) NDIRECT) as [n0 En]; [lia|].
    assert (Ei : ind (i_addrs x) = n0) by (unfold ind; by rewrite En). rewrite Ei in *.
    rewrite (bind_addr_get _ _ _ _ _ _ _ Hx En). destruct (Z.eqb_spec n0 0) as [->|Hz]; [done|]. ksimpl.
    apply wp_bind. eapply bread_wp; try done; [apply not_elem_of_nil|by right|]. intros bp h1 s1 Hs1 K1 Hio1.
    eapply wp_data_get; [exact Hio1|by left|]. rewrite (proj2 (Z.eqb_neq _ _) Hb). ksimpl.
    assert (Hcl : n0 ∈ P \/ v n0 = d n0).
    { destruct (decide (n0 ∈ P)); [by left|right]. apply (io_clean _ _ _ _ _ _ Hio); [done|apply not_elem_of_nil]. }
    apply wp_bind. eapply brelse_wp; try done. intros h2 s2 Hs2 K2 Hio2. cbn [ret wp]. split; [done|]. apply HQ; [done| |done].
    by eapply kept_trans.
Qed.

Lemma copyout_local_run bs h s : in_syscall h pr -> either_copyout DLocal bs h s = Done 0 (settle h) s.
Proof. intros Hs. unfold either_copyout. by krun (myproc_run h s (in_syscall_wf _ _ Hs)). Qed.

(** The rounds left for [n] bytes from [off]. *)
Definition enough (fuel : nat) off n : Prop := n <= 0 \/ off mod BSIZE + n <= Z.of_nat fuel * BSIZE.

Lemma enough_step f off n : 0 <= off -> 0 < n -> enough (S f) off n ->
  let m := Z.min n (BSIZE - off mod BSIZE) in 0 < m <= n /\ off mod BSIZE + m <= BSIZE /\ enough f (off + m) (n - m).
Proof. intros Ho Hn He. cbv zeta. unfold enough in *. change BSIZE with 1024 in *. zlia. Qed.

Lemma enough_init off n : 0 <= off -> 0 <= n -> enough (Z.to_nat (n / BSIZE + 2)) off n.
Proof. unfold enough. change BSIZE with 1024. zlia. Qed.

Lemma readi_loop_wp fuel h s v P ip x off n tot Q : in_syscall h pr -> io_ok pr s d v [] P -> (length P < NBUF)%nat -> k_inode s !! ip = Some x ->
  i_dev x = disk_dev -> readable v (i_addrs x) (i_size x) -> 0 <= tot <= n -> 0 <= off -> off + (n - tot) <= i_size x -> enough fuel off (n - tot) ->
  n < 2 ^ 32 ->
  (forall h' s', in_syscall h' pr -> kept pr s s' -> io_ok pr s' d v [] P -> Q (n, fbytes v (i_addrs x) off (n - tot)) h' s' d) ->
  wp pr C (readi_loop fuel ip DLocal off n tot h s) d Q.
Proof.
  revert h s off tot Q. induction fuel as [|f IH]; intros h s off tot Q Hs Hio HP Hx Hd Hrd Htot Hoff Hsz Hf Hn HQ.
  - unfold enough in Hf. change BSIZE with 1024 in Hf. assert (tot = n) as -> by zlia. cbn [readi_loop]. rewrite Z.ltb_irrefl. cbn [negb ret wp].
    split; [done|]. rewrite Z.sub_diag, fbytes_nil in HQ by lia. apply HQ; [done|apply kept_refl|done].
  - cbn [readi_loop]. destruct (Z.ltb_spec tot n) as [Hlt|Hge]; cbn [negb].
    2: { assert (tot = n) as -> by lia. cbn [ret wp]. split; [done|]. rewrite Z.sub_diag, fbytes_nil in HQ by lia. apply HQ; [done|apply kept_refl|done]. }
    destruct (enough_step f off (n - tot) Hoff ltac:(lia) Hf) as (Hm & Hmb & Hf'). set (m := Z.min (n - tot) (BSIZE - off mod BSIZE)) in *.
    destruct Hrd as [Rl Rs Rf Rr Ri Rv] eqn:Erd. clear Erd. set (a := i_addrs x) in *. set (bn := off / BSIZE).
    assert (Hbn : 0 <= bn < MAXFILE) by (unfold bn; change BSIZE with 1024 in *; zlia).
    assert (Hnz : fblock v a bn <> 0) by (apply Rf; [lia|]; unfold bn; change BSIZE with 1024 in *; zlia).
    rewrite (bind_inode_get _ _ _ _ _ _ Hx), Hd.
    apply wp_bind. eapply bmap_read_wp; try done. fold a. intros h1 s1 Hs1 K1 Hio1.
    assert (Hcl : fblock v a bn ∈ P \/ v (fblock v a bn) = d (fblock v a bn)).
    { destruct (decide (fblock v a bn ∈ P)); [by left|right]. apply (io_clean _ _ _ _ _ _ Hio); [done|apply not_elem_of_nil]. }
    apply wp_bind. eapply bread_wp; try done; [apply not_elem_of_nil|by apply Rr|by right|]. intros bp h2 s2 Hs2 K2 Hio2.
    eapply wp_data_get; [exact Hio2|by left|].
    assert (Efd : fdata v a bn = v (fblock v a bn)) by (unfold fdata; by rewrite (proj2 (Z.eqb_neq _ _) Hnz)).
    assert (Eb : slice (v (fblock v a bn)) (Z.to_nat (off mod BSIZE)) (Z.to_nat m) = fbytes v a off m).
    { rewrite fbytes_block by (try lia; fold bn; rewrite Efd; apply Rv). fold bn. by rewrite Efd. }
    rewrite Eb. krun (copyout_local_run (fbytes v a off m) h2 s2 Hs2). cbn [Z.eqb]. apply in_syscall_settle in Hs2 as Hs2'.
    apply wp_bind. eapply brelse_wp; try done. intros h3 s3 Hs3 K3 Hio3. cbn [dst_add].
    assert (Hu : off + m < 2 ^ 32 /\ tot + m < 2 ^ 32) by (unfold MAXFILE in Rs; change NINDIRECT with 256 in Rs; change BSIZE with 1024 in *; unfold NDIRECT in *; lia).
    rewrite !u32_id by lia.
    assert (K03 : kept pr s s3) by (eapply kept_trans; [exact K1|]; by eapply kept_trans).
    apply wp_bind. eapply (IH h3 s3 (off + m) (tot + m)); try done; try lia.
    + by rewrite (kp_inode _ _ _ K03).
    + by replace (n - (tot + m)) with (n - tot - m) by lia.
    + intros h4 s4 Hs4 K4 Hio4. cbn [ret wp fst snd]. split; [done|]. fold a.
      replace (n - (tot + m)) with (n - tot - m) by lia. rewrite <-fbytes_app by lia. replace (m + (n - tot - m)) with (n - tot) by lia.
      apply HQ; [done|by eapply kept_trans|done].
Qed.

(** readi returns the bytes of the file from [off], at most [n] and none beyond the end. *)
Lemma readi_wp h s v P ip x off n Q : in_syscall h pr -> io_ok pr s d v [] P -> (length P < NBUF)%nat -> k_inode s !! ip = Some x ->
  i_dev x = disk_dev -> readable v (i_addrs x) (i_size x) -> 0 <= off -> 0 <= n -> off + n < 2 ^ 32 ->
  let m := Z.max 0 (Z.min n (i_size x - off)) in
  (forall h' s', in_syscall h' pr -> kept pr s s' -> io_ok pr s' d v [] P -> Q (i32 m, fbytes v (i_addrs x) off m) h' s' d) ->
  wp pr C (readi ip DLocal off n h s) d Q.
Proof.
  intros Hs Hio HP Hx Hd Hrd Hoff Hn Hlt m HQ. unfold readi. rewrite (bind_inode_get _ _ _ _ _ _ Hx), (u32_id (off + n)) by lia.
  pose proof (rd_size _ _ _ Hrd) as Hsz. assert (Hmax : i_size x < 2 ^ 31) by (change (MAXFILE * BSIZE) with 274432 in Hsz; lia).
  destruct (Z.ltb_spec (i_size x) off) as [Hend|Hin]; cbn [orb].
  { cbn [ret wp]. split; [done|]. replace m with 0 in HQ by lia. rewrite fbytes_nil in HQ by lia. apply HQ; [done|apply kept_refl|done]. }
  rewrite (proj2 (Z.ltb_ge _ _)) by lia. set (n' := if i_size x <? off + n then _ else n).
  assert (En : n' = m). { unfold n', m. destruct (Z.ltb_spec (i_size x) (off + n)); [rewrite u32_id|]; lia. }
  rewrite En. apply wp_bind. eapply readi_loop_wp; try done; try lia; [rewrite Z.sub_0_r; apply enough_init; lia|].
  rewrite Z.sub_0_r. intros h' s' Hs' K' Hio'. cbn [ret wp fst snd]. split; [done|]. by apply HQ.
Qed.

End read.

(** ** Writing *)

(** The blocks that the bytes from [off] to [off + n] lie in. *)
Definition blocks_of (off n : Z) : list Z := if n <=? 0 then [] else seqZ (off / BSIZE) ((off + n - 1) / BSIZE - off / BSIZE + 1).

Lemma blocks_of_cons off n : 0 <= off -> 0 < n ->
  let m := Z.min n (BSIZE - off mod BSIZE) in blocks_of off n = off / BSIZE :: blocks_of (off + m) (n - m).
Proof.
  intros Ho Hn m. unfold blocks_of. rewrite (proj2 (Z.leb_gt _ _)) by lia. change BSIZE with 1024 in *.
  rewrite seqZ_cons by zlia. f_equal. destruct (Z.leb_spec (n - m) 0).
  - apply seqZ_nil. zlia.
  - f_equal; zlia.
Qed.

Lemma blocks_of_range off n m : 0 <= off -> off + n <= MAXFILE * BSIZE -> m ∈ blocks_of off n -> 0 <= m < MAXFILE.
Proof.
  intros Ho Hn. unfold blocks_of. destruct (Z.leb_spec n 0); [by intros ?%elem_of_nil|]. intros Hm%elem_of_seqZ. change BSIZE with 1024 in *. zlia.
Qed.

(** What writing blocks of a file costs: a missing block is logged with its bitmap. *)
Definition wnew (v : disk) (a : list Z) (l : list Z) : nat := length (filter (fun m => fblock v a m = 0) l).
Definition wcost (v : disk) (a : list Z) (l : list Z) : nat := length l + wnew v a l.

Lemma wnew_mono v v' a a' l : (forall m, m ∈ l -> fblock v a m <> 0 -> fblock v' a' m <> 0) -> (wnew v' a' l <= wnew v a l)%nat.
Proof.
  intros Hm. unfold wnew. induction l as [|m l IH]; [done|]. specialize (IH ltac:(intros; apply Hm; [by right|done])).
  rewrite !filter_cons. pose proof (Hm m ltac:(by left)). repeat case_decide; simpl; (lia || tauto).
Qed.

Lemma wnew_cons v a m l : wnew v a (m :: l) = ((if (fblock v a m =? 0)%Z then 1 else 0) + wnew v a l)%nat.
Proof. unfold wnew. rewrite filter_cons. case_decide as E; [rewrite E; done|]. by rewrite (proj2 (Z.eqb_neq _ _) E). Qed.


Section write.
Context `{Layout} `{Symbols} `{WaitPos} `{DeviceOk} `{DiskDev}.
Context (sb : superblock) (geom : geometry sb).
Context (pr : nat) (C : disk -> Prop) (d : disk) (d_ok : C d).
#[local] Abbreviation txn := (txn (sb_logstart sb) pr d).
#[local] Abbreviation open_file := (open_file sb pr d).
Implicit Types (s : kernel) (h : hart) (v : disk) (t : Z -> list Z) (P l bs : list Z) (x : inode) (ip : nat) (n m b off : Z).

(** The bytes [bs] have been stored from [off] on; [l] are the blocks touched. *)
Record written l s v t P ip x off bs s' v' t' P' : Prop := {
  wr_open : open_file s' v' t' P' ip (set_i_addrs (t' (i_inum x)) x);
  wr_kept : kept_fs pr s s';
  wr_inode : k_inode s' = <[ip := set_i_addrs (t' (i_inum x)) x]> (k_inode s);
  wr_other : forall j, j <> i_inum x -> t' j = t j;
  wr_data : forall j m, inum_ok sb j -> j <> i_inum x -> 0 <= m < MAXFILE -> fdata v' (t' j) m = fdata v (t j) m;
  wr_oblock : forall j m, inum_ok sb j -> j <> i_inum x -> fblock v' (t' j) m = fblock v (t j) m;
  wr_bytes : forall p, 0 <= p < MAXFILE * BSIZE -> fbyte v' (t' (i_inum x)) p =
    if decide (off <= p < off + Z.of_nat (length bs)) then byte_at bs (p - off) else fbyte v (t (i_inum x)) p;
  wr_old : forall m, 0 <= m < MAXFILE -> fblock v (t (i_inum x)) m <> 0 -> fblock v' (t' (i_inum x)) m <> 0;
  wr_new : forall m, m ∈ l -> fblock v' (t' (i_inum x)) m <> 0;
  wr_meta : forall m, m < sb_bmapstart sb -> v' m = v m;
  wr_logged : (length P' + icost P' (t' (i_inum x)) <= length P + icost P (t (i_inum x)) + wcost v (t (i_inum x)) l)%nat;
  wr_free : (nfree sb v + fcost (t' (i_inum x)) <= nfree sb v' + fcost (t (i_inum x)) + wnew v (t (i_inum x)) l)%nat;
}.

Lemma written_refl s v t P ip x off : open_file s v t P ip x -> written [] s v t P ip x off [] s v t P.
Proof.
  intros Ho. pose proof Ho as [_ _ _ Hx _ _ Ha]. assert (Ex : set_i_addrs (t (i_inum x)) x = x) by (rewrite Ha; apply set_i_addrs_id).
  constructor; rewrite ?Ex; try done.
  - apply kept_fs_refl.
  - by rewrite list_insert_id.
  - intros p Hp. rewrite decide_False; [done|]. simpl. lia.
  - by intros m Hm%elem_of_nil.
  - unfold wcost. simpl. lia.
  - lia.
Qed.

Lemma byte_at_app bs1 bs2 p : 0 <= p -> byte_at (bs1 ++ bs2) p =
  if decide (p < Z.of_nat (length bs1)) then byte_at bs1 p else byte_at bs2 (p - Z.of_nat (length bs1)).
Proof.
  intros Hp. unfold byte_at. case_decide; [by rewrite lookup_app_l by lia|]. rewrite lookup_app_r by lia. do 2 f_equal. lia.
Qed.

Lemma written_trans l1 l2 s v t P ip x off bs1 bs2 s1 v1 t1 P1 s2 v2 t2 P2 : let x1 := set_i_addrs (t1 (i_inum x)) x in
  (forall m, m ∈ l1 ++ l2 -> 0 <= m < MAXFILE) -> 0 <= off ->
  written l1 s v t P ip x off bs1 s1 v1 t1 P1 -> written l2 s1 v1 t1 P1 ip x1 (off + Z.of_nat (length bs1)) bs2 s2 v2 t2 P2 ->
  written (l1 ++ l2) s v t P ip x off (bs1 ++ bs2) s2 v2 t2 P2.
Proof.
  intros x1 Hl Hoff [A1 A2 A3 A4 A5 A5b A6 A7 A8 A9 A10 A11] [B1 B2 B3 B4 B5 B5b B6 B7 B8 B9 B10 B11]. change (i_inum x1) with (i_inum x) in *.
  assert (Hmono : (wnew v1 (t1 (i_inum x)) l2 <= wnew v (t (i_inum x)) l2)%nat).
  { apply wnew_mono. intros m Hm. apply A7, Hl, elem_of_app. by right. }
  assert (Happ : forall w a, wnew w a (l1 ++ l2) = (wnew w a l1 + wnew w a l2)%nat) by (intros; unfold wnew; by rewrite filter_app, length_app).
  unfold wcost in *. constructor; try done.
  - by eapply kept_fs_trans.
  - by rewrite B3, A3, list_insert_insert_eq.
  - intros j Hj. by rewrite B4, A4.
  - intros j m Hj Hne Hm. by rewrite B5, A5.
  - intros j m Hj Hne. by rewrite B5b, A5b.
  - intros p Hp. rewrite B6, A6, length_app by done. repeat case_decide; try lia.
    + rewrite byte_at_app, decide_False by lia. f_equal. lia.
    + by rewrite byte_at_app, decide_True by lia.
  - intros m Hm Hz. apply B7; [done|]. by apply A7.
  - intros m [Hm|Hm]%elem_of_app; [|by apply B8]. apply B7; [apply Hl, elem_of_app; by left|by apply A8].
  - intros m Hm. by rewrite B9, A9.
  - unfold wcost. rewrite length_app, Happ. lia.
  - rewrite Happ. lia.
Qed.

(** One block: bmap, then the bytes into its buffer. *)
Lemma written_block s v t P ip x off bs s1 v1 t1 P1 b s2 : open_file s v t P ip x -> 0 <= off -> (0 < length bs)%nat ->
  off mod BSIZE + Z.of_nat (length bs) <= BSIZE -> off / BSIZE < MAXFILE -> mapped sb pr d s v t P ip x (off / BSIZE) s1 v1 t1 P1 b -> kept_but_log pr s1 s2 ->
  let v2 := write_block b (splice (v1 b) (Z.to_nat (off mod BSIZE)) bs) v1 in
  txn s2 v2 [] (logged b P1) -> written [off / BSIZE] s v t P ip x off bs s2 v2 t1 (logged b P1).
Proof.
  intros Ho Hoff Hbs Hroom Hmax Hmp K v2 Ht2. pose proof Hmp as [M1 M2 M3 M4 M5 M6 M7]. pose proof M1 as [_ Hsb Hfs1 Hx1 Hd1 Hi _].
  change (i_inum (set_i_addrs _ x)) with (i_inum x) in *. change (i_dev (set_i_addrs _ x)) with (i_dev x) in *. set (i := i_inum x) in *.
  pose proof (of_addrs _ _ _ _ _ _ _ _ _ Ho) as Ha. fold i in Ha.
  set (bn := off / BSIZE) in *. assert (Hbn : 0 <= bn < MAXFILE) by (unfold bn; change BSIZE with 1024 in *; zlia).
  assert (Hlen : length (v1 b) = 1024%nat) by apply Hfs1. set (o := Z.to_nat (off mod BSIZE)) in *.
  assert (Ho1 : (o + length bs <= length (v1 b))%nat) by (rewrite Hlen; unfold o; change BSIZE with 1024 in *; zlia).
  destruct (fs_write_data sb geom v1 t1 i bn (splice (v1 b) o bs) Hfs1 Hi Hbn ltac:(congruence)) as (Hfs2 & Hblk & Hdata); [by rewrite length_splice|].
  rewrite M5 in Hfs2, Hblk, Hdata. fold v2 in Hfs2, Hblk, Hdata. destruct (kept_but_log_fs _ _ _ K) as [Kf Ei].
  assert (Efd : fdata v1 (t1 i) bn = v1 b) by (unfold fdata; by rewrite M5, (proj2 (Z.eqb_neq _ _) M6)).
  pose proof (fblock_range sb v1 t1 i bn Hfs1 Hi Hbn ltac:(congruence)) as [Hbr _]. rewrite M5 in Hbr. pose proof (regions sb geom) as Hreg.
  constructor; fold i.
  - constructor; try done; [by rewrite (kf_sb _ _ _ Kf)|by rewrite Ei].
  - by eapply kept_fs_trans.
  - by rewrite Ei.
  - apply M4.
  - intros j m Hj Hne Hm. rewrite Hdata, decide_False by (done || tauto). by apply (gr_data _ _ _ _ _ _ _ _ _ M4).
  - intros j m Hj Hne. rewrite Hblk by done. by apply (gr_oblock _ _ _ _ _ _ _ _ _ M4).
  - intros p Hp. unfold fbyte. assert (Hpn : 0 <= p / BSIZE < MAXFILE) by (change BSIZE with 1024 in *; zlia). rewrite Hdata by done.
    destruct (decide (i = i /\ p / BSIZE = bn)) as [[_ E]|E].
    + rewrite byte_at_splice by (done || (change BSIZE with 1024; zlia)). rewrite <-(gr_data _ _ _ _ _ _ _ _ _ M4 i _ Hi Hpn), E, Efd.
      unfold o, bn in *. change BSIZE with 1024 in *. repeat case_decide; try zlia. f_equal. zlia.
    + rewrite (gr_data _ _ _ _ _ _ _ _ _ M4 i _ Hi Hpn), decide_False; [done|]. intros Hin. apply E. split; [done|].
      unfold bn. change BSIZE with 1024 in *. zlia.
  - intros m Hm Hz. rewrite Hblk by done. by rewrite (gr_blocks _ _ _ _ _ _ _ _ _ M4).
  - intros m ->%list_elem_of_singleton. rewrite Hblk by done. congruence.
  - intros m Hm. unfold v2. rewrite write_block_ne by lia. by apply (gr_meta _ _ _ _ _ _ _ _ _ M4).
  - pose proof (gr_logged _ _ _ _ _ _ _ _ _ M4) as Hg. unfold wcost. rewrite wnew_cons. rewrite <-Ha in Hg, M7. simpl.
    destruct (Z.eqb_spec (fblock v (t i) bn) 0) as [E|E].
    + rewrite logged_old by (by apply M7). lia.
    + pose proof (logged_len b P1). pose proof (icost_mono P1 (logged b P1) (t1 i) (logged_mono _ _)). lia.
  - pose proof (gr_free _ _ _ _ _ _ _ _ _ M4) as Hg. rewrite wnew_cons. rewrite <-Ha in Hg. rewrite (nfree_same sb v1 v2); [simpl in *; lia|].
    intros m Hm. apply used_data; [done|lia|done].
Qed.

(** A source that yields the bytes [bs], whatever the file system does in between. *)
Definition src_ok (c : src) : Prop := match c with SUser va => 0 <= va < 2 ^ 64 | SLocal _ => True end.
Definition feeds s (c : src) bs : Prop := forall k m h s', 0 <= k -> 0 <= m -> k + m <= Z.of_nat (length bs) -> in_syscall h pr -> same_user pr s s' ->
  either_copyin (src_add c k) m h s' = Done (0, slice bs (Z.to_nat k) (Z.to_nat m)) (settle h) s'.

Lemma src_add_0 c : src_ok c -> src_add c 0 = c.
Proof. destruct c as [va|bs]; simpl; intros Hc; [|done]. by rewrite Z.add_0_r, u64_id. Qed.

Lemma src_add_add c k m : 0 <= k -> 0 <= m -> src_add (src_add c k) m = src_add c (k + m).
Proof.
  intros Hk Hm. destruct c as [va|bs]; simpl; f_equal; [unfold u64; by rewrite Zplus_mod_idemp_l, Z.add_assoc|]. rewrite drop_drop. f_equal. lia.
Qed.

Lemma src_add_ok c k : src_ok (src_add c k).
Proof. destruct c; simpl; [|done]. unfold u64. apply Z.mod_pos_bound. lia. Qed.

Lemma feeds_step s s' c bs k : feeds s c bs -> same_user pr s s' -> 0 <= k <= Z.of_nat (length bs) -> feeds s' (src_add c k) (drop (Z.to_nat k) bs).
Proof.
  intros Hf K Hk k' m h s2 Hk' Hm Hlen Hs K2. rewrite length_drop in Hlen. rewrite src_add_add by lia.
  rewrite Hf; try done; try lia; [|by eapply same_user_trans]. unfold slice. rewrite drop_drop. do 4 f_equal. lia.
Qed.

Lemma feeds_first s s' c bs m h : src_ok c -> feeds s c bs -> same_user pr s s' -> in_syscall h pr -> 0 <= m <= Z.of_nat (length bs) ->
  either_copyin c m h s' = Done (0, take (Z.to_nat m) bs) (settle h) s'.
Proof.
  intros Hc Hf K Hs Hm. pose proof (Hf 0 m h s' ltac:(lia) ltac:(lia) ltac:(lia) Hs K) as E. by rewrite src_add_0 in E.
Qed.

Lemma feeds_local s bs : feeds s (SLocal bs) bs.
Proof. intros k m h s' Hk Hm Hl Hs K. unfold either_copyin. by krun (myproc_run h s' (in_syscall_wf _ _ Hs)). Qed.

(** Storing one chunk. *)
Lemma write_chunk_wp {B} (f : unit -> K kernel B) (e : nat -> K kernel B) h s s0 v t P ip x c off bs m l Q : l = [off / BSIZE] -> in_syscall h pr -> open_file s v t P ip x ->
  src_ok c -> feeds s0 c bs -> same_user pr s0 s -> 0 <= off -> 0 < m <= Z.of_nat (length bs) -> off mod BSIZE + m <= BSIZE -> off / BSIZE < MAXFILE ->
  (length P + icost P (t (i_inum x)) + wcost v (t (i_inum x)) l + 1 <= nslots)%nat ->
  (fcost (t (i_inum x)) + wnew v (t (i_inum x)) l <= nfree sb v)%nat ->
  (forall h' s' v' t' P', in_syscall h' pr -> written l s v t P ip x off (take (Z.to_nat m) bs) s' v' t' P' -> wp pr C (f tt h' s') d Q) ->
  wp pr C ((addr <- bmap ip (off / BSIZE);;
    bp <- bread disk_dev addr;;
    r <- either_copyin c m;;
    data_set bp (fun l => splice l (Z.to_nat (off mod BSIZE)) r.2);;
    if r.1 =? -1 then e bp else log_write bp;; brelse bp;; f tt) h s) d Q.
Proof.
  intros -> Hs Ho Hc Hf K0 Hoff Hm Hmb Hmax Hr Hfr HQ. pose proof (of_addrs _ _ _ _ _ _ _ _ _ Ho) as Ha. rewrite Ha in *.
  unfold wcost in Hr. rewrite wnew_cons in Hr, Hfr. cbn [length] in Hr. assert (Hbn : 0 <= off / BSIZE < MAXFILE) by (change BSIZE with 1024 in *; zlia).
  apply wp_bind. eapply (bmap_wp sb geom pr C d d_ok); try done.
  { intros E. rewrite E in Hr, Hfr. simpl in Hr, Hfr. lia. }
  intros b h1 s1 v1 t1 P1 Hs1 Hmp. pose proof Hmp as [M1 M2 M3 M4 M5 M6 M7].
  pose proof M1 as [Ht1 Hsb1 Hfs1 _ _ Hi _]. change (i_inum (set_i_addrs _ x)) with (i_inum x) in *.
  pose proof (fblock_range sb v1 t1 _ _ Hfs1 Hi Hbn ltac:(congruence)) as [Hbr _]. rewrite M5 in Hbr. pose proof (regions sb geom) as Hreg.
  destruct (loggable_len _ _ (tx_lg _ _ _ _ _ _ _ Ht1)) as [HNB _].
  apply wp_bind. eapply bread_tx; try done; [apply not_elem_of_nil|apply (in_range sb geom); lia|by right|]. intros bp h2 s2 Hs2 K2 Ht2.
  pose proof (kept_but_log_fs _ _ _ (kept_kept_but_log _ _ _ K2)) as [K2f _].
  assert (K02 : same_user pr s0 s2) by (eapply same_user_trans; [exact K0|]; apply kept_fs_user; by eapply kept_fs_trans).
  krun (feeds_first s0 s2 c bs m h2 Hc Hf K02 Hs2 ltac:(lia)). cbn [fst snd].
  assert (Hlen : length (take (Z.to_nat m) bs) = Z.to_nat m) by (rewrite length_take; lia).
  eapply (data_set_tx _ _ _ _ (fun l => splice l (Z.to_nat (off mod BSIZE)) (take (Z.to_nat m) bs))); [exact Ht2|by left| |].
  { rewrite length_splice; [eapply tx_block, Ht2|]. rewrite (tx_block _ _ _ _ _ _ _ b Ht2), Hlen. change BSIZE with 1024 in *. zlia. }
  intros s3 K3 Ht3. cbn [Z.eqb]. pose proof (gr_logged _ _ _ _ _ _ _ _ _ M4) as Hgl. rewrite Ha in Hgl.
  eapply log_write_tx; [by apply in_syscall_settle|exact Ht3|by left| |apply (past_log sb geom); lia|].
  { destruct (fblock v (i_addrs x) (off / BSIZE) =? 0) in Hr, Hgl; simpl in *; lia. }
  intros h4 s4 Hs4 K4 Ht4. apply wp_bind. eapply brelse_tx; try done; [left; apply logged_in|]. intros h5 s5 Hs5 K5 Ht5.
  eapply HQ; [done|]. eapply written_block; try done; rewrite ?Hlen; try lia. kept_chain.
Qed.

Lemma writei_loop_wp fuel h s v t P ip x c off n tot bs Q : in_syscall h pr -> open_file s v t P ip x -> src_ok c -> feeds s c bs ->
  Z.of_nat (length bs) = n - tot -> 0 <= tot <= n -> n < 2 ^ 32 -> 0 <= off -> off + (n - tot) <= MAXFILE * BSIZE -> enough fuel off (n - tot) ->
  let l := blocks_of off (n - tot) in
  (length P + icost P (t (i_inum x)) + wcost v (t (i_inum x)) l + 1 <= nslots)%nat -> (fcost (t (i_inum x)) + wnew v (t (i_inum x)) l <= nfree sb v)%nat ->
  (forall h' s' v' t' P', in_syscall h' pr -> written l s v t P ip x off bs s' v' t' P' -> Q (n, off + (n - tot)) h' s' d) ->
  wp pr C (writei_loop fuel ip c off n tot h s) d Q.
Proof.
  revert h s v t P x c off tot bs Q. induction fuel as [|f IH]; intros h s v t P x c off tot bs Q Hs Ho Hc Hf Hbs Htot Hn Hoff Hmax Hfu l Hr Hfr HQ;
    cbn [writei_loop]; destruct (Z.ltb_spec tot n) as [Hlt|Hge]; cbn [negb];
    try (assert (tot = n) as -> by lia; destruct bs; [|simpl in Hbs; lia]; unfold l, blocks_of in HQ; rewrite Z.sub_diag, ?Z.add_0_r in HQ;
      cbn [ret wp]; split; [done|]; eapply HQ; [done|by apply written_refl]).
  { exfalso. unfold enough in Hfu. change BSIZE with 1024 in *. zlia. }
  destruct (enough_step f off (n - tot) Hoff ltac:(lia) Hfu) as (Hm & Hmb & Hfu'). pose proof (blocks_of_cons off (n - tot) Hoff ltac:(lia)) as El.
  cbv zeta in El. set (m := Z.min (n - tot) (BSIZE - off mod BSIZE)) in *. set (l' := blocks_of (off + m) (n - tot - m)) in *.
  rewrite (bind_inode_get _ _ _ _ _ _ (of_inode _ _ _ _ _ _ _ _ _ Ho)), (of_dev _ _ _ _ _ _ _ _ _ Ho).
  assert (Hbn : forall q, q ∈ l -> 0 <= q < MAXFILE) by (intros q; apply blocks_of_range; [done|lia]).
  assert (Hwc : wcost v (t (i_inum x)) l = (wcost v (t (i_inum x)) [off / BSIZE]%Z + wcost v (t (i_inum x)) l')%nat).
  { fold l in El. rewrite El. unfold wcost. rewrite !wnew_cons. change (wnew _ _ []) with 0%nat. simpl. lia. }
  assert (Hwn : wnew v (t (i_inum x)) l = (wnew v (t (i_inum x)) [off / BSIZE]%Z + wnew v (t (i_inum x)) l')%nat).
  { fold l in El. rewrite El, !wnew_cons. change (wnew _ _ []) with 0%nat. lia. }
  apply (write_chunk_wp (fun _ => writei_loop f ip (src_add c m) (u32 (off + m)) n (u32 (tot + m))) (fun bp => brelse bp;; ret (tot, off)) h s s v t P ip x c off bs m _ Q eq_refl); try done; try lia.
  { apply same_user_refl. } { apply Hbn. fold l in El. rewrite El. by left. }
  intros h1 s1 v1 t1 P1 Hs1 Hw1. pose proof (wr_logged _ _ _ _ _ _ _ _ _ _ _ _ _ Hw1) as Hwl. pose proof (wr_free _ _ _ _ _ _ _ _ _ _ _ _ _ Hw1) as Hwf.
  assert (Hmono : (wnew v1 (t1 (i_inum x)) l' <= wnew v (t (i_inum x)) l')%nat).
  { apply wnew_mono. intros q Hq. apply (wr_old _ _ _ _ _ _ _ _ _ _ _ _ _ Hw1). apply Hbn. fold l in El. rewrite El. by right. }
  change (MAXFILE * BSIZE) with 274432 in *. rewrite !u32_id by lia.
  assert (Hlen : length (take (Z.to_nat m) bs) = Z.to_nat m) by (rewrite length_take; lia).
  unfold wcost in *. eapply (IH h1 s1 v1 t1 P1 _ (src_add c m) (off + m) (tot + m) (drop (Z.to_nat m) bs));
    [done|apply Hw1|apply src_add_ok|eapply feeds_step; [done|apply kept_fs_user, Hw1|lia]|rewrite length_drop; lia|lia|done|lia|lia|..];
    replace (n - (tot + m)) with (n - tot - m) by lia; [done|..]; fold l'; change (i_inum (set_i_addrs _ x)) with (i_inum x); [lia|lia|].
  intros h2 s2 v2 t2 P2 Hs2 Hw2. replace (off + m + (n - tot - m)) with (off + (n - tot)) by lia. eapply HQ; [done|].
  fold l in El. rewrite El, <-(take_drop (Z.to_nat m) bs). change (off / BSIZE :: l') with ([off / BSIZE] ++ l').
  eapply written_trans; [|done|exact Hw1|]; [by change ([off / BSIZE] ++ l') with (off / BSIZE :: l'); rewrite <-El|].
  rewrite Hlen, Z2Nat.id by lia. done.
Qed.

(** ** iupdate *)

Definition dinode_of x : dinode := Dinode (i_type x) (i_major x) (i_minor x) (i_nlink x) (i_size x) (i_addrs x).

Lemma inode_put_above v i y m : inum_ok sb i -> sb_bmapstart sb <= m -> inode_put sb v i y m = v m.
Proof. intros Hi Hm. apply write_block_ne. pose proof (IBLOCK_eq sb geom i Hi). lia. Qed.

(** iupdate copies the inode to the disk. *)
Lemma iupdate_wp h s v t P ip x Q : in_syscall h pr -> open_file s v t P ip x -> dinode_ok (dinode_of x) -> (length P < nslots)%nat ->
  (forall h' s', in_syscall h' pr -> kept_but_log pr s s' ->
    open_file s' (inode_put sb v (i_inum x) (dinode_of x)) t (logged (IBLOCK (i_inum x) sb) P) ip x -> Q tt h' s' d) ->
  wp pr C (iupdate ip h s) d Q.
Proof.
  intros Hs Ho Hdi Hr HQ. pose proof Ho as [Ht Hsb Hfs Hx Hd Hi Ha]. unfold iupdate. rewrite (bind_inode_get _ _ _ _ _ _ Hx), bind_gets, Hsb. unfold id at 1 2. rewrite Hd.
  pose proof (IBLOCK_eq sb geom _ Hi) as [_ HI]. pose proof (regions sb geom) as Hreg. destruct (loggable_len _ _ (tx_lg _ _ _ _ _ _ _ Ht)) as [HNB _].
  apply wp_bind. eapply bread_tx; try done; [apply not_elem_of_nil|apply (in_range sb geom); unfold id; lia|by right|]. intros bp h1 s1 Hs1 K1 Ht1. unfold id in *.
  rewrite (bind_inode_get _ _ _ _ _ x) by (by rewrite (kp_inode _ _ _ K1)).
  eapply (data_set_tx _ _ _ _ (fun l => put_dinode l (dinode_off (i_inum x)) (dinode_of x))); [exact Ht1|by left| |].
  { pose proof (inode_put_ok sb v (i_inum x) (dinode_of x) (fs_view _ _ _ Hfs) Hi Hdi (IBLOCK (i_inum x) sb)) as E. unfold inode_put in E. by rewrite write_block_eq in E. }
  intros s2 K2 Ht2. eapply log_write_tx; [done|exact Ht2|by left|done|apply (past_log sb geom); lia|]. intros h3 s3 Hs3 K3 Ht3.
  eapply brelse_tx; try done; [left; apply logged_in|]. intros h4 s4 Hs4 K4 Ht4.
  assert (K04 : kept_but_log pr s s4) by kept_chain. destruct (kept_but_log_fs _ _ _ K04) as [Kf Ei]. apply HQ; [done|done|].
  destruct (fs_above sb geom v (inode_put sb v (i_inum x) (dinode_of x)) t Hfs) as (Hfs' & _); [by apply inode_put_ok; [apply Hfs|..]| |].
  { intros m Hm. by apply inode_put_above. }
  constructor; try done; [by rewrite (kf_sb _ _ _ Kf)|by rewrite Ei].
Qed.

End write.
