(* ===== verification/FsProps.v ===== *)
(** * FsProps

    Files of kernel/fs.c as byte strings on a consistent disk: what writei does to them,
    that a write reaches the disk as a whole or not at all, and that it stays within the
    log space that begin_op reserves. *)
From stdpp Require Import base tactics list numbers gmap strings.
From S2P Require Import Prelude Machine Spinlock Printf Bytes Block Queue Kalloc Vm Kernel Proc ProcFacts.
From S2P Require Import Sleeplock Virtio Bio Log Fs Discipline ProcProps BioProps Storage BlockIO LogProps Transaction FsDisk FsBlocks FsInode FsFile.
From S2P Require Import Examples DiskExamples.

Lemma lookup_splice_ext (l bs : list Z) (off i : nat) : (off <= length l)%nat ->
  splice l off bs !! i = if decide (off <= i < off + length bs)%nat then bs !! (i - off)%nat else l !! i.
Proof.
  intros Ho. unfold splice. destruct (decide (i < off)%nat) as [Hi|Hi].
  - rewrite decide_False, lookup_app_l, lookup_take_lt by (rewrite ?length_take; lia). done.
  - rewrite lookup_app_r, length_take, Nat.min_l by (rewrite ?length_take; lia). case_decide.
    + rewrite lookup_app_l by lia. done.
    + rewrite lookup_app_r, lookup_drop by lia. f_equal. lia.
Qed.

Section consistent.
Context (sb : superblock) (geom : geometry sb).
Implicit Types (v : disk) (j n : Z).

Definition table v j : list Z := d_addrs (inode_at sb v j).

(** A disk that mkfs or a sequence of operations may leave. *)
Record consistent v : Prop := {
  cs_fs : fs_ok sb v (table v);
  cs_inode : forall j, inum_ok sb j -> dinode_ok (inode_at sb v j);
  cs_size : forall j, inum_ok sb j -> d_size (inode_at sb v j) <= MAXFILE * BSIZE /\ no_holes v (table v j) (d_size (inode_at sb v j));
}.

(** The bytes of the file with inode number [j]. *)
Definition content v j : list Z := fbytes v (table v j) 0 (d_size (inode_at sb v j)).

Lemma fs_ok_ext v t t' : (forall j, inum_ok sb j -> t' j = t j) -> fs_ok sb v t -> fs_ok sb v t'.
Proof.
  intros E [F1 F2 F3 F4 F5]. constructor; try done.
  - intros i Hi. rewrite E by done. by apply F1.
  - intros i b Hi. rewrite E by done. by apply F2.
  - intros i j b Hi Hj. rewrite !E by done. by apply F3.
Qed.

Lemma addrs_range v t i : fs_ok sb v t -> inum_ok sb i -> Forall (fun a => 0 <= a < 2 ^ 31) (t i).
Proof.
  intros Hfs Hi. pose proof (ge_data _ geom) as Hge. pose proof (dstart_pos sb geom) as Hd. apply Forall_lookup. intros k a Hk.
  destruct (decide (a = 0)) as [->|Ha]; [lia|]. cut (dstart sb <= a < sb_size sb); [lia|]. apply (fs_range _ _ _ Hfs i a Hi).
  split; [done|]. pose proof (lookup_lt_Some _ _ _ Hk) as Hlt. rewrite (fi_len _ _ (fs_file _ _ _ Hfs i Hi)) in Hlt.
  destruct (decide (k = NDIRECT)) as [->|Hne]; [left; unfold ind; by rewrite Hk|right].
  exists (Z.of_nat k). unfold NDIRECT, MAXFILE in *. change NINDIRECT with 256. split; [unfold NDIRECT; lia|]. unfold fblock, NDIRECT.
  rewrite (proj2 (Z.ltb_lt _ _)) by lia. by rewrite Nat2Z.id, Hk.
Qed.

Lemma fblock_in_range v t i n : fs_ok sb v t -> inum_ok sb i -> 0 <= n < MAXFILE -> 0 <= fblock v (t i) n < 2 ^ 31.
Proof.
  intros Hfs Hi Hn. pose proof (ge_data _ geom). pose proof (dstart_pos sb geom). destruct (decide (fblock v (t i) n = 0)) as [->|Hz]; [lia|].
  pose proof (fblock_range sb v t i n Hfs Hi Hn Hz). lia.
Qed.

Lemma consistent_readable v j : consistent v -> inum_ok sb j -> readable v (table v j) (d_size (inode_at sb v j)).
Proof.
  intros [Hfs Hin Hsz] Hj. destruct (Hsz j Hj) as [Hmax Hh]. pose proof (do_size _ (Hin j Hj)) as Hs. constructor; try done; [lia| | |apply Hfs].
  - intros n Hn. by apply fblock_in_range.
  - pose proof (addrs_range v _ j Hfs Hj) as Hr. unfold ind. destruct (_ !! NDIRECT) as [a|] eqn:E; simpl; [|lia].
    exact (proj1 (Forall_lookup _ _) Hr _ _ E).
Qed.

Lemma fbytes_ext v v' a a' off n : (forall p, off <= p < off + n -> fbyte v' a' p = fbyte v a p) -> fbytes v' a' off n = fbytes v a off n.
Proof. intros E. unfold fbytes. apply list_fmap_ext. intros k p [-> Hk]%lookup_seqZ. apply E. lia. Qed.

Lemma fbytes_data v v' a a' n : n <= MAXFILE * BSIZE -> (forall m, 0 <= m < MAXFILE -> fdata v' a' m = fdata v a m) -> fbytes v' a' 0 n = fbytes v a 0 n.
Proof. intros Hn E. apply fbytes_ext. intros p Hp. unfold fbyte. rewrite E; [done|]. change BSIZE with 1024 in *. zlia. Qed.

(** The inode of file [i] is stored after its blocks have changed. *)
Lemma store_inode v v1 t1 i y : consistent v -> inum_ok sb i -> fs_ok sb v1 t1 -> (forall j, j <> i -> t1 j = table v j) ->
  (forall m, m < sb_bmapstart sb -> v1 m = v m) -> (forall j m, inum_ok sb j -> j <> i -> fblock v1 (t1 j) m = fblock v (table v j) m) ->
  (forall j m, inum_ok sb j -> j <> i -> 0 <= m < MAXFILE -> fdata v1 (t1 j) m = fdata v (table v j) m) ->
  d_addrs y = t1 i -> dinode_ok y -> d_size y <= MAXFILE * BSIZE -> no_holes v1 (t1 i) (d_size y) ->
  let v2 := inode_put sb v1 i y in
  consistent v2 /\ inode_at sb v2 i = y /\ content v2 i = fbytes v1 (t1 i) 0 (d_size y) /\
  forall j, inum_ok sb j -> j <> i -> inode_at sb v2 j = inode_at sb v j /\ content v2 j = content v j.
Proof.
  intros [Hfs Hin Hsz] Hi Hfs1 Ht Hmeta Hob Hod Hy Hdy Hys Hyh v2.
  assert (Hat : forall j, inum_ok sb j -> inode_at sb v2 j = if decide (j = i) then y else inode_at sb v j).
  { intros j Hj. unfold v2. rewrite inode_at_put by (done || apply Hfs1). case_decide; [done|]. apply inode_at_same, Hmeta.
    pose proof (IBLOCK_eq sb geom j Hj). lia. }
  assert (Htab : forall j, inum_ok sb j -> table v2 j = t1 j).
  { intros j Hj. unfold table. rewrite Hat by done. case_decide as E; [by subst|]. by rewrite Ht. }
  assert (Hv2 : disk_ok v2) by (apply inode_put_ok; [apply Hfs1|done|done]).
  destruct (fs_above sb geom v1 v2 t1 Hfs1 Hv2) as (Hfs2 & Hblk & Hdata); [intros m Hm; by apply inode_put_above|].
  split_and!.
  - constructor; [by eapply fs_ok_ext|..]; intros j Hj.
    + rewrite Hat by done. case_decide; auto.
    + rewrite Htab, Hat by done. case_decide as E.
      * subst j. split; [done|]. intros m Hm Hm'. rewrite Hblk by done. by apply Hyh.
      * destruct (Hsz j Hj) as [Hm Hh]. split; [done|]. intros m Hm0 Hm'. rewrite Hblk, Hob by done. by apply Hh.
  - rewrite Hat, decide_True by done. done.
  - unfold content. rewrite Htab, Hat, decide_True by done. apply fbytes_data; [done|]. intros m Hm. by apply Hdata.
  - intros j Hj Hne. rewrite Hat, decide_False by done. split; [done|]. unfold content. rewrite Htab, Hat, decide_False by done.
    apply fbytes_data; [by apply Hsz|]. intros m Hm. rewrite Hdata by done. by apply Hod.
Qed.

End consistent.

(** ** writei *)

Section writei.
Context `{Layout} `{Symbols} `{WaitPos} `{DeviceOk} `{DiskDev}.
Context (sb : superblock) (geom : geometry sb).
Context (pr : nat) (C : disk -> Prop) (d : disk) (d_ok : C d).
#[local] Abbreviation txn := (txn (sb_logstart sb) pr d).
#[local] Abbreviation open_file := (open_file sb pr d).
#[local] Abbreviation consistent := (consistent sb).
#[local] Abbreviation content := (content sb).
Implicit Types (s : kernel) (h : hart) (v : disk) (P bs : list Z) (x : inode) (ip : nat) (off : Z).

(** In a transaction on a consistent disk, with an inode in memory that is up to date. *)
Record file_at s v P ip x : Prop := {
  fa_txn : txn s v [] P;
  fa_sb : k_sb s = sb;
  fa_cons : consistent v;
  fa_inode : k_inode s !! ip = Some x;
  fa_dev : i_dev x = disk_dev;
  fa_inum : inum_ok sb (i_inum x);
  fa_disk : dinode_of x = inode_at sb v (i_inum x);
}.

Lemma file_at_open s v P ip x : file_at s v P ip x -> open_file s v (table sb v) P ip x.
Proof. intros [F1 F2 F3 F4 F5 F6 F7]. constructor; try done; [apply F3|]. unfold table. by rewrite <-F7. Qed.

(** File [i] has the bytes [bs] at [off]; the other files are as they were. *)
Record stored v i off bs v' : Prop := {
  st_inode : inode_at sb v' i = Dinode (d_type (inode_at sb v i)) (d_major (inode_at sb v i)) (d_minor (inode_at sb v i)) (d_nlink (inode_at sb v i))
    (Z.max (d_size (inode_at sb v i)) (off + Z.of_nat (length bs))) (table sb v' i);
  st_content : content v' i = splice (content v i) (Z.to_nat off) bs;
  st_others : forall j, inum_ok sb j -> j <> i -> inode_at sb v' j = inode_at sb v j /\ content v' j = content v j;
}.

Lemma open_file_size s v t P ip x n : open_file s v t P ip x ->
  open_file (set_k_inode (<[ip := set_i_size n x]> (k_inode s)) s) v t P ip (set_i_size n x).
Proof.
  intros [Ht Hsb Hfs Hx Hd Hi Ha]. constructor; simpl; try done; [by apply txn_inode|].
  apply list_lookup_insert_eq. by eapply lookup_lt_Some.
Qed.

(** From the loop of writei to the inode on the disk. *)
Lemma written_stored s v P ip x off bs s1 v1 t1 P1 x2 : file_at s v P ip x -> 0 <= off <= i_size x -> off + Z.of_nat (length bs) <= MAXFILE * BSIZE ->
  written sb pr d (blocks_of off (Z.of_nat (length bs))) s v (table sb v) P ip x off bs s1 v1 t1 P1 ->
  x2 = set_i_size (Z.max (i_size x) (off + Z.of_nat (length bs))) (set_i_addrs (t1 (i_inum x)) x) ->
  let v2 := inode_put sb v1 (i_inum x) (dinode_of x2) in
  dinode_ok (dinode_of x2) /\ consistent v2 /\ inode_at sb v2 (i_inum x) = dinode_of x2 /\ stored v (i_inum x) off bs v2.
Proof.
  intros [F1 F2 F3 F4 F5 F6 F7] Hoff Hmax Hw -> v2. set (i := i_inum x) in *. set (n := Z.of_nat (length bs)) in *.
  pose proof (cs_inode _ _ F3 i F6) as Hdi. pose proof (cs_size _ _ F3 i F6) as [Hsz Hh]. rewrite <-F7 in Hdi, Hsz, Hh. simpl in Hsz, Hh.
  pose proof Hw as [W1 W2 W3 W4 W5 W6 W7 W8 W9 W10 W11 W12]. pose proof (of_fs _ _ _ _ _ _ _ _ _ W1) as Hfs1. fold i in W4, W5, W6, W7, W8, W9.
  assert (Hdo : dinode_ok (dinode_of (set_i_size (Z.max (i_size x) (off + n)) (set_i_addrs (t1 i) x)))).
  { destruct Hdi as [D1 D2 D3 D4]. constructor; simpl in *; [done|change (MAXFILE * BSIZE) with 274432 in *; lia|by apply (fs_file _ _ _ Hfs1)|].
    eapply Forall_impl; [by apply (addrs_range sb geom v1 t1 i)|]. simpl. lia. }
  destruct (store_inode sb geom v v1 t1 i (dinode_of (set_i_size (Z.max (i_size x) (off + n)) (set_i_addrs (t1 i) x)))) as (Hc2 & Hi2 & Hct & Hot); try done.
  { simpl. lia. }
  { intros m Hm Hlt. simpl in Hlt. destruct (decide (m * BSIZE < i_size x)).
    - apply W8; [|by apply Hh]. change (MAXFILE * BSIZE) with 274432 in *. change BSIZE with 1024 in *. change MAXFILE with 268. lia.
    - apply W9. unfold blocks_of. change BSIZE with 1024 in *. rewrite (proj2 (Z.leb_gt _ _)) by lia. apply elem_of_seqZ. zlia. }
  split_and!; [done|done|done|]. constructor; [| |done].
  - fold v2 in Hi2. rewrite Hi2, <-F7. unfold table. rewrite Hi2. done.
  - fold v2 in Hct. rewrite Hct. unfold FsProps.content. rewrite <-F7. simpl. apply list_eq. intros k.
    assert (Hlen : length (fbytes v (table sb v i) 0 (i_size x)) = Z.to_nat (i_size x)) by apply length_fbytes.
    pose proof (do_size _ Hdi) as Hpos. simpl in Hpos.
    rewrite lookup_splice_ext by lia. destruct (decide (k < Z.to_nat (Z.max (i_size x) (off + n)))%nat) as [Hk|Hk].
    + rewrite lookup_fbytes, W7 by (done || lia). subst n. rewrite Z.add_0_l.
      destruct (decide (off <= Z.of_nat k < off + Z.of_nat (length bs))) as [Hin|Hin].
      * rewrite decide_True by lia. unfold byte_at. replace (Z.to_nat (Z.of_nat k - off)) with (k - Z.to_nat off)%nat by lia.
        by destruct (lookup_lt_is_Some_2 bs (k - Z.to_nat off)) as [c ->]; [lia|].
      * rewrite decide_False, lookup_fbytes, Z.add_0_l by lia. done.
    + subst n. rewrite lookup_ge_None_2, decide_False, lookup_ge_None_2 by (rewrite ?length_fbytes; lia). done.
Qed.

(** writei stores all bytes, within the log space its blocks need. *)
Lemma writei_wp h s v P ip x c off bs Q : in_syscall h pr -> file_at s v P ip x -> src_ok c -> feeds pr s c bs ->
  0 <= off <= i_size x -> off + Z.of_nat (length bs) <= MAXFILE * BSIZE ->
  let l := blocks_of off (Z.of_nat (length bs)) in
  (length P + icost P (i_addrs x) + wcost v (i_addrs x) l + 1 <= nslots)%nat -> (fcost (i_addrs x) + wnew v (i_addrs x) l <= nfree sb v)%nat ->
  (forall h' s' v' P' x', in_syscall h' pr -> kept_fs pr s s' -> k_inode s' = <[ip := x']> (k_inode s) -> (exists n a, x' = set_i_size n (set_i_addrs a x)) ->
    file_at s' v' P' ip x' -> stored v (i_inum x) off bs v' ->
    (length P' <= length P + icost P (i_addrs x) + wcost v (i_addrs x) l + 1)%nat ->
    (nfree sb v + fcost (i_addrs x') <= nfree sb v' + fcost (i_addrs x) + wnew v (i_addrs x) l)%nat ->
    (forall m, 0 <= m < MAXFILE -> fblock v (i_addrs x) m <> 0 \/ m ∈ l -> fblock v' (i_addrs x') m <> 0) -> Q (Z.of_nat (length bs)) h' s' d) ->
  wp pr C (writei ip c off (Z.of_nat (length bs)) h s) d Q.
Proof.
  intros Hs Hfa Hc Hf Hoff Hmax l Hr Hfr HQ. pose proof (file_at_open _ _ _ _ _ Hfa) as Ho. pose proof (of_addrs _ _ _ _ _ _ _ _ _ Ho) as Ha.
  set (n := Z.of_nat (length bs)) in *. assert (Hn0 : 0 <= n) by (unfold n; lia). rewrite <-Ha in Hr, Hfr, HQ.
  unfold writei. rewrite (bind_inode_get _ _ _ _ _ _ (fa_inode _ _ _ _ _ Hfa)). change (MAXFILE * BSIZE) with 274432 in *.
  rewrite (u32_id (off + n)), (proj2 (Z.ltb_ge _ _)), (proj2 (Z.ltb_ge _ _)), (proj2 (Z.ltb_ge _ _)) by lia. cbn [orb].
  apply wp_bind. eapply (writei_loop_wp sb geom pr C d d_ok); try done; rewrite ?Z.sub_0_r; try done; try lia.
  { apply enough_init; lia. }
  intros h1 s1 v1 t1 P1 Hs1 Hw. fold l in Hw. pose proof (wr_inode _ _ _ _ _ _ _ _ _ _ _ _ _ _ _ _ Hw) as Ei1. pose proof (wr_open _ _ _ _ _ _ _ _ _ _ _ _ _ _ _ _ Hw) as Ho1.
  set (x1 := set_i_addrs (t1 (i_inum x)) x) in *. set (x2 := set_i_size (Z.max (i_size x) (off + n)) x1).
  destruct (written_stored s v P ip x off bs s1 v1 t1 P1 x2 Hfa Hoff Hmax Hw eq_refl) as (Hdo & Hcons & Hat & Hst).
  rewrite (bind_inode_get _ _ _ _ _ _ (of_inode _ _ _ _ _ _ _ _ _ Ho1)). change (i_size x1) with (i_size x).
  pose proof (wr_logged _ _ _ _ _ _ _ _ _ _ _ _ _ _ _ _ Hw) as Hwl.
  assert (Hrest : forall s2, open_file s2 v1 t1 P1 ip x2 -> kept_fs pr s s2 -> k_inode s2 = <[ip := x2]> (k_inode s) ->
    wp pr C ((iupdate ip;; ret (i32 n)) h1 s2) d Q).
  { intros s2 Ho2 K2 E2. apply wp_bind. eapply (iupdate_wp sb geom pr C d d_ok); try done; [lia|].
    change (i_inum x2) with (i_inum x). intros h3 s3 Hs3 K3 Ho3. destruct (kept_but_log_fs _ _ _ K3) as [K3f Ei3].
    cbn [ret wp]. split; [done|]. rewrite i32_id by lia. eapply (HQ h3 s3 _ _ x2); try done.
    - by eapply kept_fs_trans.
    - by rewrite Ei3.
    - unfold x2, x1. eauto.
    - destruct Ho3. by constructor.
    - pose proof (logged_len (IBLOCK (i_inum x) sb) P1). lia.
    - rewrite (nfree_same sb v1 (inode_put sb v1 (i_inum x) (dinode_of x2))); [apply Hw|]. intros m Hm. apply used_same, (inode_put_above sb geom); [apply Hfa|].
      pose proof (BBLOCK_eq sb geom m Hm). lia.
    - intros m Hm. change (i_addrs x2) with (t1 (i_inum x)). rewrite (fblock_same v1 (inode_put sb v1 (i_inum x) (dinode_of x2)) (t1 (i_inum x)) m); [intros [Hb|Hl]; [by apply (wr_old _ _ _ _ _ _ _ _ _ _ _ _ _ _ _ _ Hw)|by apply (wr_new _ _ _ _ _ _ _ _ _ _ _ _ _ _ _ _ Hw)]|].
      intros Hz. apply (inode_put_above sb geom); [apply Hfa|]. pose proof (regions sb geom).
      pose proof (fs_range _ _ _ (of_fs _ _ _ _ _ _ _ _ _ Ho1) (i_inum x) _ ltac:(apply Hfa) (owns_ind v1 _ Hz)). lia. }
  destruct (Z.ltb_spec (i_size x) (off + n)) as [Hg|Hg]; cbn [when].
  - rewrite (bind_inode_set _ _ _ _ _ _ (of_inode _ _ _ _ _ _ _ _ _ Ho1)). replace (off + n) with (Z.max (i_size x) (off + n)) at 1 by lia.
    apply Hrest; [by apply open_file_size|apply kept_fs_inode, Hw|]. simpl. by rewrite Ei1, list_insert_insert_eq.
  - ksimpl. assert (E : x2 = x1). { unfold x2. rewrite Z.max_l by lia. by destruct x. }
    rewrite E in Hrest. apply Hrest; [done|apply Hw|done].
Qed.

End writei.
