(* ===== verification/FsExamples.v ===== *)
(** * FsExamples

    A small disk for the examples about files: one empty file, inode 1, and free data
    blocks. *)
From stdpp Require Import base tactics list numbers gmap strings.
From S2P Require Import Prelude Machine Spinlock Printf Bytes Block Queue Kalloc Vm Kernel Proc ProcFacts.
From S2P Require Import Sleeplock Virtio Bio Log Fs Discipline ProcProps BioProps Storage BlockIO LogProps Transaction FsDisk FsBlocks FsInode FsFile FsProps.

(** The boot block, the superblock, 30 blocks of log, one block of inodes, one of the
    bitmap, 66 of data. *)
Definition demo_sb : superblock := Superblock FSMAGIC 100 66 10 30 2 32 33.

Lemma demo_geometry : geometry demo_sb.
Proof. constructor; unfold dstart; vm_compute; intuition congruence. Qed.

Definition demo_bitmap : list Z := replicate 4 255 ++ [3] ++ replicate 1019 0.
Definition demo_blank : disk := fun m => if m =? 33 then demo_bitmap else zeros.
Definition demo_file : dinode := Dinode T_FILE 0 0 1 0 (replicate 13 0).
Definition demo_img : disk := inode_put demo_sb demo_blank 1 demo_file.

Lemma demo_file_ok : dinode_ok demo_file.
Proof. constructor; [vm_compute; intuition congruence|vm_compute; intuition congruence|done|]. apply Forall_replicate. lia. Qed.

Lemma demo_blank_ok : disk_ok demo_blank.
Proof. intros m. unfold demo_blank. destruct (m =? 33); reflexivity. Qed.

Lemma demo_inodes j : inum_ok demo_sb j -> inode_at demo_sb demo_img j = if decide (j = 1) then demo_file else Dinode 0 0 0 0 0 (replicate 13 0).
Proof.
  intros Hj. unfold demo_img. rewrite (inode_at_put demo_sb demo_geometry); [|apply demo_blank_ok|vm_compute; intuition congruence|done|apply demo_file_ok].
  case_decide; [done|]. unfold inum_ok in Hj. change (sb_ninodes demo_sb) with 10 in Hj.
  assert (Hc : j ∈ seqZ 0 10) by (apply elem_of_seqZ; lia). clear -Hc. revert j Hc.
  assert (F : Forall (fun j => inode_at demo_sb demo_blank j = Dinode 0 0 0 0 0 (replicate 13 0)) (seqZ 0 10)).
  { change (seqZ 0 10) with [0; 1; 2; 3; 4; 5; 6; 7; 8; 9]. repeat (constructor; [vm_compute; reflexivity|]). constructor. }
  intros j Hj. by apply (proj1 (Forall_forall _ _) F).
Qed.

Lemma fblock_empty v n : 0 <= n -> fblock v (replicate 13 0) n = 0.
Proof.
  intros Hn. unfold fblock. destruct (Z.ltb_spec n (Z.of_nat NDIRECT)) as [Hl|Hl]; [|done]. unfold NDIRECT in *.
  rewrite lookup_replicate_2 by lia. done.
Qed.

(** A table of empty files. *)
Lemma empty_fs sb v t : (forall j, inum_ok sb j -> t j = replicate 13 0) -> disk_ok v -> (forall m, 0 <= m < dstart sb -> used sb v m = true) -> fs_ok sb v t.
Proof.
  intros Ht Hv Hm. assert (Hno : forall j b, inum_ok sb j -> ~ owns v (t j) b).
  { intros j b Hj [Hb [E|(n & Hn & E)]]; rewrite Ht in E by done; [by rewrite E in Hb|]. rewrite fblock_empty in E by lia. done. }
  constructor; try done.
  - intros j Hj. rewrite Ht by done. constructor; [done| |done]. intros m n Hm' _. rewrite fblock_empty by lia. done.
  - intros i b Hi Ho. by apply Hno in Ho.
  - intros i j b Hi _ Ho. by apply Hno in Ho.
Qed.

Lemma demo_consistent : consistent demo_sb demo_img.
Proof.
  assert (Ht : forall j, inum_ok demo_sb j -> table demo_sb demo_img j = replicate 13 0) by (intros j Hj; unfold table; rewrite demo_inodes by done; by case_decide).
  constructor.
  - apply empty_fs; [done|apply inode_put_ok; [apply demo_blank_ok|vm_compute; intuition congruence|apply demo_file_ok]|].
    intros m Hm. change (dstart demo_sb) with 34 in Hm.
    assert (F : forallb (used demo_sb demo_img) (seqZ 0 34) = true) by (vm_compute; reflexivity).
    rewrite forallb_forall in F. apply F, list_elem_of_In, elem_of_seqZ. lia.
  - intros j Hj. rewrite demo_inodes by done. case_decide; [apply demo_file_ok|]. constructor; [vm_compute; intuition congruence|vm_compute; intuition congruence|done|].
    apply Forall_replicate. lia.
  - intros j Hj. rewrite demo_inodes by done. split; [case_decide; vm_compute; congruence|]. intros n Hn Hlt. exfalso.
    change BSIZE with 1024 in Hlt. case_decide; simpl in Hlt; lia.
Qed.

Lemma demo_nfree : nfree demo_sb demo_img = 66%nat.
Proof. vm_compute. reflexivity. Qed.

Lemma demo_no_log : log_valid 2 demo_img /\ committed 2 demo_img = [].
Proof.
  assert (E : committed 2 demo_img = []) by (vm_compute; reflexivity). split; [|done]. split; [apply demo_consistent|].
  split; [vm_compute; congruence|]. rewrite E. apply loggable_nil.
Qed.
