(* ===== verification/InodeLock.v ===== *)
(** * InodeLock

    ilock and iunlock of kernel/fs.c: the inode in memory is locked for the process and,
    when ilock returns, agrees with the inode on the disk. *)
From stdpp Require Import base tactics list numbers gmap strings.
From S2P Require Import Prelude Machine Spinlock Printf Bytes Block Queue Kalloc Vm Kernel Proc ProcFacts.
From S2P Require Import Sleeplock Virtio Bio Log Fs Discipline ProcProps BioProps Storage BlockIO LogProps Transaction FsDisk FsBlocks FsInode FsFile FsProps.

Section ilock.
Context `{Layout} `{Symbols} `{WaitPos} `{DeviceOk} `{DiskDev}.
Context (sb : superblock) (geom : geometry sb).
Context (pr : nat) (C : disk -> Prop) (d : disk) (d_ok : C d).
Implicit Types (s : kernel) (h : hart) (v : disk) (P : list Z) (x : inode) (y : proc) (ip : nat).

Definition ilocked (pid : Z) x : inode := set_i_lock (set_sl_pid pid (set_sl_locked 1 (i_lock x))) x.
Definition iunlocked x : inode := set_i_lock (set_sl_pid 0 (set_sl_locked 0 (i_lock x))) x.

Lemma insert_twice {A} ip (a b : A) (l : list A) : <[ip := a]> (<[ip := b]> l) = <[ip := a]> l.
Proof. apply list_insert_insert_eq. Qed.

Lemma inode_at_insert s ip x x' : k_inode s !! ip = Some x -> <[ip := x']> (k_inode s) !! ip = Some x'.
Proof. intros Hx. apply list_lookup_insert_eq. by eapply lookup_lt_Some. Qed.

Lemma acquiresleep_inode_run ip h s x y :
  in_syscall h pr -> k_proc s !! pr = Some y -> k_inode s !! ip = Some x -> sl_locked (i_lock x) = 0 ->
  acquiresleep (SL_inode ip) h s = Done tt (settle h) (set_k_inode (<[ip := ilocked (p_pid y) x]> (k_inode s)) s).
Proof.
  intros Hs Hy Hx Hl. destruct (syscall_locked (L_inode ip) h pr Hs ltac:(done)) as (Hwf & _ & Hset & Hp & _).
  unfold acquiresleep. cbn [sl_lk]. krun (acquire_run (L_inode ip) h s (in_syscall_notin _ _ _ Hs)).
  assert (Ea : forall f, acquiresleep_loop f (SL_inode ip) (locked (L_inode ip) h) s = Done tt (locked (L_inode ip) h) s).
  { intros f. destruct f; cbn [acquiresleep_loop sl_get]; by rewrite (bind_inode_get _ _ _ _ _ _ Hx), Hl. }
  krun (Ea wait_fuel). cbn [sl_set]. rewrite (bind_inode_set _ _ _ _ _ _ Hx). set (s1 := set_k_inode _ s).
  pose proof (curproc_run _ s1 pr Hwf Hp) as Ec. rewrite Hset in Ec. krun Ec. rewrite (bind_pget _ _ _ _ s1 y Hy).
  erewrite (bind_inode_set _ _ _ _ s1) by (by eapply inode_at_insert).
  rewrite (release_run _ h); [|by eapply in_syscall_wf|by eapply in_syscall_notin|apply calm_refl].
  unfold s1. simpl. by rewrite insert_twice.
Qed.

Lemma holdingsleep_inode_run ip h s x y :
  in_syscall h pr -> k_proc s !! pr = Some y -> k_inode s !! ip = Some x -> sl_locked (i_lock x) = 1 -> sl_pid (i_lock x) = p_pid y ->
  holdingsleep (SL_inode ip) h s = Done true (settle h) s.
Proof.
  intros Hs Hy Hx Hl Hpid. destruct (syscall_locked (L_inode ip) h pr Hs ltac:(done)) as (Hwf & _ & Hset & Hp & _).
  unfold holdingsleep. cbn [sl_lk sl_get]. krun (acquire_run (L_inode ip) h s (in_syscall_notin _ _ _ Hs)).
  rewrite (bind_inode_get _ _ _ _ _ _ Hx). unfold id. rewrite Hl. cbn [truthy negb Z.eqb Pos.eqb].
  pose proof (curproc_run _ s pr Hwf Hp) as Ec. rewrite Hset in Ec. rewrite bind_assoc. krun Ec. rewrite bind_assoc, (bind_pget _ _ _ _ s y Hy), Hpid, Z.eqb_refl. ksimpl.
  krun (release_run (L_inode ip) h _ s (in_syscall_wf _ _ Hs) (in_syscall_notin _ _ _ Hs) (calm_refl _)). done.
Qed.

Lemma releasesleep_inode_run ip h s x : in_syscall h pr -> length (k_proc s) = NPROC -> k_inode s !! ip = Some x ->
  releasesleep (SL_inode ip) h s = Done tt (settle h)
    (set_k_proc (woken (Ch_inodelock ip) (Some pr) (k_proc s)) (set_k_inode (<[ip := iunlocked x]> (k_inode s)) s)).
Proof.
  intros Hs Hl Hx. destruct (syscall_locked (L_inode ip) h pr Hs ltac:(done)) as (Hwf & Hf & Hset & Hp & _).
  unfold releasesleep. cbn [sl_lk sl_set sl_chan]. krun (acquire_run (L_inode ip) h s (in_syscall_notin _ _ _ Hs)).
  rewrite (bind_inode_set _ _ _ _ _ _ Hx). set (s1 := set_k_inode _ s).
  erewrite (bind_inode_set _ _ _ _ s1) by (by eapply inode_at_insert). set (s2 := set_k_inode _ s1).
  assert (E2 : s2 = set_k_inode (<[ip := iunlocked x]> (k_inode s)) s) by (unfold s2, s1; simpl; by rewrite insert_twice).
  pose proof (wakeup_run (Ch_inodelock ip) _ s2 Hwf Hf Hl) as Ew. rewrite Hset, Hp in Ew. krun Ew. rewrite E2.
  by rewrite (release_run _ h); [|by eapply in_syscall_wf|by eapply in_syscall_notin|apply calm_refl].
Qed.

(** An inode of the table that is in use. *)
Record inode_ref v x : Prop := {
  ir_ref : 1 <= i_ref x;
  ir_dev : i_dev x = disk_dev;
  ir_inum : inum_ok sb (i_inum x);
  ir_type : d_type (inode_at sb v (i_inum x)) <> 0;
  ir_valid : i_valid x = 0 \/ i_valid x = 1 /\ dinode_of x = inode_at sb v (i_inum x);
}.

(** What ilock leaves in its place. *)
Record inode_held v pid x x' : Prop := {
  ih_ref : i_ref x' = i_ref x;
  ih_dev : i_dev x' = i_dev x;
  ih_inum : i_inum x' = i_inum x;
  ih_valid : i_valid x' = 1;
  ih_disk : dinode_of x' = inode_at sb v (i_inum x);
  ih_lock : sl_locked (i_lock x') = 1 /\ sl_pid (i_lock x') = pid;
}.

(** The fields of the inode, read from the disk. *)
Definition filled (y : dinode) x : inode :=
  set_i_addrs (d_addrs y) (set_i_size (d_size y) (set_i_nlink (d_nlink y) (set_i_minor (d_minor y) (set_i_major (d_major y) (set_i_type (d_type y) x))))).

Lemma io_kept_inode s s' v G P : io_ok pr s d v G P -> k_proc s' = k_proc s -> k_disk s' = k_disk s -> k_bcache s' = k_bcache s -> io_ok pr s' d v G P.
Proof.
  intros [I1 I2 I3 I4 I5 I6 I7 I8 I9 I10] Ep Ed Eb. constructor; rewrite ?Ep, ?Ed, ?Eb; try done.
  - intros b n Hn. unfold buffered. rewrite Eb. by apply I6.
  - intros n Hn. unfold buffered. rewrite Eb. by apply I7.
Qed.

Lemma fill_run {B} (f : unit -> K kernel B) ip (y : dinode) h s x : k_inode s !! ip = Some x ->
  (inode_set ip (set_i_type (d_type y));;
   inode_set ip (set_i_major (d_major y));;
   inode_set ip (set_i_minor (d_minor y));;
   inode_set ip (set_i_nlink (d_nlink y));;
   inode_set ip (set_i_size (d_size y));;
   inode_set ip (set_i_addrs (d_addrs y));; f tt) h s = f tt h (set_k_inode (<[ip := filled y x]> (k_inode s)) s).
Proof.
  intros Hx. unfold inode_set. rewrite !bind_modify. simpl. rewrite !alter_comp. by rewrite (alter_insert _ _ _ _ Hx).
Qed.

Lemma ilock_wp h s v P ip x Q : in_syscall h pr -> io_ok pr s d v [] P -> (length P < NBUF)%nat -> k_sb s = sb -> k_inode s !! ip = Some x ->
  sl_locked (i_lock x) = 0 -> inode_ref v x ->
  (forall h' s' x' y, in_syscall h' pr -> kept_fs pr s s' -> k_log s' = k_log s -> io_ok pr s' d v [] P -> k_inode s' = <[ip := x']> (k_inode s) ->
    k_proc s' !! pr = Some y -> inode_held v (p_pid y) x x' -> Q tt h' s' d) ->
  wp pr C (ilock (Some ip) h s) d Q.
Proof.
  intros Hs Hio HP Hsb Hx Hl [R1 R2 R3 R4 R5] HQ. pose proof Hio as [_ _ _ _ (y & Hy & _) _ _ _ _ _].
  cbn [ilock]. rewrite (bind_inode_get _ _ _ _ _ _ Hx), (proj2 (Z.ltb_ge _ _)) by lia.
  krun (acquiresleep_inode_run ip h s x y Hs Hy Hx Hl). set (x1 := ilocked (p_pid y) x). set (s1 := set_k_inode _ s).
  assert (Hx1 : k_inode s1 !! ip = Some x1) by (by eapply inode_at_insert).
  assert (Hio1 : io_ok pr s1 d v [] P) by (by eapply io_kept_inode). apply in_syscall_settle in Hs as Hs1.
  assert (K1 : kept_fs pr s s1) by (apply kept_fs_inode, kept_fs_refl).
  rewrite (bind_inode_get _ _ _ _ _ _ Hx1). change (id x1) with x1. change (i_valid x1) with (i_valid x). destruct R5 as [E|[E Ed]]; rewrite E; cbn [Z.eqb when].
  2: { cbn [ret wp]. split; [done|]. eapply (HQ (settle h) s1 x1 y); try done. }
  rewrite bind_gets. change (k_sb s1) with (k_sb s). rewrite Hsb. unfold id. change (i_dev x1) with (i_dev x). change (i_inum x1) with (i_inum x). rewrite R2.
  pose proof (IBLOCK_eq sb geom _ R3) as [_ HI]. pose proof (regions sb geom) as Hreg.
  assert (Hcl : IBLOCK (i_inum x) sb ∈ P \/ v (IBLOCK (i_inum x) sb) = d (IBLOCK (i_inum x) sb)).
  { destruct (decide (IBLOCK (i_inum x) sb ∈ P)); [by left|right]. apply (io_clean _ _ _ _ _ _ Hio); [done|apply not_elem_of_nil]. }
  apply wp_bind. eapply bread_wp; try done; [apply not_elem_of_nil|apply (in_range sb geom); lia|by right|]. intros bp h2 s2 Hs2 K2 Hio2.
  eapply wp_data_get; [exact Hio2|by left|]. unfold id. change (get_dinode (v (IBLOCK (i_inum x) sb)) (dinode_off (i_inum x))) with (inode_at sb v (i_inum x)).
  set (di := inode_at sb v (i_inum x)) in *.
  assert (Hx2 : k_inode s2 !! ip = Some x1) by (by rewrite (kp_inode _ _ _ K2)).
  rewrite (fill_run (fun _ => _) _ _ _ _ _ Hx2). set (x2 := filled di x1). set (s3 := set_k_inode _ s2).
  assert (Hio3 : io_ok pr s3 d v [(bp, IBLOCK (i_inum x) sb)] P) by (by eapply io_kept_inode).
  apply wp_bind. eapply brelse_wp; try done. intros h4 s4 Hs4 K4 Hio4.
  assert (Hx4 : k_inode s4 !! ip = Some x2) by (rewrite (kp_inode _ _ _ K4); by eapply inode_at_insert).
  rewrite (bind_inode_set _ _ _ _ _ _ Hx4). set (s5 := set_k_inode _ s4).
  rewrite (bind_inode_get _ _ _ _ s5 (set_i_valid 1 x2)) by (by eapply inode_at_insert). change (i_type (set_i_valid 1 x2)) with (d_type di).
  rewrite (proj2 (Z.eqb_neq _ _) R4). cbn [ret wp]. split; [done|].
  destruct (kept_but_log_fs _ _ _ (kept_kept_but_log _ _ _ K2)) as [K2f E2]. destruct (kept_but_log_fs _ _ _ (kept_kept_but_log _ _ _ K4)) as [K4f E4].
  assert (K : kept_fs pr s s5).
  { apply kept_fs_inode. eapply kept_fs_trans; [exact K1|]. eapply kept_fs_trans; [exact K2f|]. by destruct K4f. }
  destruct (kf_proc _ _ _ K y Hy) as (y' & Hy' & Sy). eapply (HQ h4 s5 (set_i_valid 1 x2) y'); try done.
  - simpl. rewrite (kp_log _ _ _ K4). simpl. by rewrite (kp_log _ _ _ K2).
  - by eapply io_kept_inode.
  - simpl. rewrite E4. simpl. rewrite E2. simpl. by rewrite !insert_twice.
  - constructor; try done. split; [done|]. simpl. by rewrite (sp_pid _ _ Sy).
Qed.

(** iunlock gives the lock back. *)
Lemma iunlock_run h s v P G ip x y : in_syscall h pr -> io_ok pr s d v G P -> k_inode s !! ip = Some x -> k_proc s !! pr = Some y ->
  1 <= i_ref x -> sl_locked (i_lock x) = 1 -> sl_pid (i_lock x) = p_pid y ->
  exists s', iunlock (Some ip) h s = Done tt (settle h) s' /\ kept_fs pr s s' /\ k_log s' = k_log s /\ io_ok pr s' d v G P /\
    k_inode s' = <[ip := iunlocked x]> (k_inode s).
Proof.
  intros Hs Hio Hx Hy Hr Hl Hp. cbn [iunlock]. krun (holdingsleep_inode_run ip h s x y Hs Hy Hx Hl Hp). cbn [negb].
  rewrite (bind_inode_get _ _ _ _ _ _ Hx), (proj2 (Z.ltb_ge _ _)) by lia. apply in_syscall_settle in Hs.
  rewrite (releasesleep_inode_run ip (settle h) s x Hs (io_procs _ _ _ _ _ _ Hio) Hx), settle_idemp.
  set (s1 := set_k_inode _ s). eexists. split; [done|].
  assert (K : kept pr s1 (set_k_proc (woken (Ch_inodelock ip) (Some pr) (k_proc s)) s1)) by apply (kept_woken pr _ s1).
  destruct (kept_but_log_fs _ _ _ (kept_kept_but_log _ _ _ K)) as [Kf _]. split_and!; [|done| |done].
  - eapply kept_fs_trans; [apply kept_fs_inode, kept_fs_refl|exact Kf].
  - assert (Hio1 : io_ok pr s1 d v G P) by (by eapply io_kept_inode). eapply io_same_cache; [exact Hio1|exact K|apply Hio|done|done|apply Hio].
Qed.

End ilock.
