(* ===== verification/FileWrite.v ===== *)
(** * FileWrite

    write() of an open file, from the system call layer to the disk: filewrite of
    kernel/file.c with everything below it. *)
From stdpp Require Import base tactics list numbers gmap strings.
From S2P Require Import Prelude Machine Spinlock Printf Bytes Block Queue Kalloc Vm UserMem UserCopy VmProps Kernel Proc ProcFacts.
From S2P Require Import Sleeplock Virtio Bio Log Fs File Discipline ProcProps BioProps Storage BlockIO LogProps Transaction FsDisk FsBlocks FsInode FsFile FsProps InodeLock.
From S2P Require Import Examples DiskExamples FsExamples.

(** ** Disks that agree outside the log *)

Section agree.
Context (sb : superblock) (geom : geometry sb).
Implicit Types (v : disk) (j m off : Z) (bs : list Z).

Definition agree v v' : Prop := forall m, sb_inodestart sb <= m -> v' m = v m.

Lemma agree_inode v v' j : agree v v' -> inum_ok sb j -> inode_at sb v' j = inode_at sb v j.
Proof. intros Ha Hj. apply inode_at_same, Ha. pose proof (IBLOCK_eq sb geom j Hj). lia. Qed.

Lemma agree_consistent v v' : consistent sb v -> disk_ok v' -> agree v v' ->
  consistent sb v' /\ nfree sb v' = nfree sb v /\
  (forall j m, inum_ok sb j -> fblock v' (table sb v' j) m = fblock v (table sb v j) m) /\
  (forall j, inum_ok sb j -> content sb v' j = content sb v j).
Proof.
  intros [Hfs Hin Hsz] Hv' Ha. pose proof (regions sb geom) as Hreg.
  assert (Hab : forall m, sb_bmapstart sb <= m -> v' m = v m) by (intros m Hm; apply Ha; lia).
  destruct (fs_above sb geom v v' (table sb v) Hfs Hv' Hab) as (Hfs' & Hblk & Hdata).
  assert (Ht : forall j, inum_ok sb j -> table sb v' j = table sb v j) by (intros j Hj; unfold table; by rewrite (agree_inode v v')).
  split_and!.
  - constructor; [by eapply fs_ok_ext|..]; intros j Hj; rewrite (agree_inode v v') by done; [by apply Hin|].
    rewrite Ht by done. destruct (Hsz j Hj) as [H1 H2]. split; [done|]. intros m Hm Hlt. rewrite Hblk by done. by apply H2.
  - apply nfree_same. intros m Hm. apply used_same, Hab. pose proof (BBLOCK_eq sb geom m Hm). lia.
  - intros j m Hj. rewrite Ht by done. by apply Hblk.
  - intros j Hj. unfold content. rewrite Ht, (agree_inode v v') by done. apply fbytes_data; [by apply Hsz|]. intros m Hm. by apply Hdata.
Qed.

Lemma agree_stored v v1 v2 i off bs : inum_ok sb i -> consistent sb v1 -> disk_ok v2 -> agree v1 v2 -> stored sb v i off bs v1 -> stored sb v i off bs v2.
Proof.
  intros Hi Hc Hv2 Ha [S1 S2 S3]. destruct (agree_consistent v1 v2 Hc Hv2 Ha) as (_ & _ & _ & Hct). constructor.
  - rewrite (agree_inode v1 v2), S1 by done. f_equal. unfold table. by rewrite (agree_inode v1 v2).
  - by rewrite Hct.
  - intros j Hj Hne. rewrite (agree_inode v1 v2), Hct by done. by apply S3.
Qed.

(** ** Writes in sequence *)

Lemma stored_nothing v i off : inum_ok sb i -> 0 <= off <= d_size (inode_at sb v i) -> stored sb v i off [] v.
Proof.
  intros Hi Hoff. constructor; [| |done].
  - rewrite Z.max_l by (cbn [length]; lia). unfold table. by destruct (inode_at sb v i).
  - unfold splice. simpl. by rewrite Nat.add_0_r, take_drop.
Qed.

Lemma splice_splice_ext (l a b : list Z) (off : nat) : (off <= length l)%nat -> splice (splice l off a) (off + length a) b = splice l off (a ++ b).
Proof.
  intros Ho. assert (Hl : length (splice l off a) = Nat.max (length l) (off + length a)).
  { unfold splice. rewrite !length_app, length_take, length_drop. lia. }
  apply list_eq. intros i. rewrite !lookup_splice_ext, length_app by lia. repeat case_decide; try lia; try done.
  - rewrite lookup_app_r by lia. f_equal. lia.
  - rewrite lookup_app_l by lia. done.
Qed.

Lemma stored_trans v v1 v2 i off bs1 bs2 : inum_ok sb i -> 0 <= off <= d_size (inode_at sb v i) -> stored sb v i off bs1 v1 ->
  stored sb v1 i (off + Z.of_nat (length bs1)) bs2 v2 -> stored sb v i off (bs1 ++ bs2) v2.
Proof.
  intros Hi Hoff [A1 A2 A3] [B1 B2 B3]. constructor.
  - rewrite B1, A1. simpl. f_equal. rewrite length_app. lia.
  - rewrite B2, A2. rewrite <-splice_splice_ext; [f_equal; lia|]. unfold content. rewrite length_fbytes. lia.
  - intros j Hj Hne. destruct (A3 j Hj Hne) as [E1 E2], (B3 j Hj Hne) as [F1 F2]. by rewrite F1, F2.
Qed.

End agree.

(** ** What a write needs *)

Lemma blocks_of_in off n q : 0 <= off -> q ∈ blocks_of off n <-> 0 < n /\ off / BSIZE <= q <= (off + n - 1) / BSIZE.
Proof.
  intros Ho. unfold blocks_of. destruct (Z.leb_spec n 0) as [Hn|Hn]; [split; [by intros ?%elem_of_nil|lia]|].
  rewrite elem_of_seqZ. lia.
Qed.

Lemma blocks_of_nodup off n : NoDup (blocks_of off n).
Proof. unfold blocks_of. destruct (n <=? 0); [constructor|apply NoDup_seqZ]. Qed.

(** The blocks that two writes in sequence allocate. *)
Lemma wnew_split (v v' : disk) (a a' : list Z) off m n : 0 <= off -> 0 <= m <= n -> off + n <= MAXFILE * BSIZE ->
  (forall q, 0 <= q < MAXFILE -> fblock v a q <> 0 \/ q ∈ blocks_of off m -> fblock v' a' q <> 0) ->
  (wnew v a (blocks_of off m) + wnew v' a' (blocks_of (off + m) (n - m)) <= wnew v a (blocks_of off n))%nat.
Proof.
  intros Ho Hm Hmax Hin. unfold wnew. rewrite <-length_app. apply submseteq_length, NoDup_submseteq.
  - apply NoDup_app. split_and!; [apply NoDup_filter, blocks_of_nodup| |apply NoDup_filter, blocks_of_nodup].
    intros q [_ Hq]%list_elem_of_filter [Hz Hq2]%list_elem_of_filter. apply (Hin q); [|by right|done].
    by apply (blocks_of_range off m q); [|lia|].
  - intros q [[Hz Hq]%list_elem_of_filter|[Hz Hq]%list_elem_of_filter]%elem_of_app; apply list_elem_of_filter;
      rewrite !blocks_of_in in * by lia; change BSIZE with 1024 in *.
    + split; [done|]. zlia.
    + split; [|zlia]. destruct (decide (fblock v a q = 0)) as [|Hne]; [done|]. exfalso. apply (Hin q); [|by left|done].
      change (MAXFILE * 1024) with 274432 in *. change MAXFILE with 268. zlia.
Qed.

Lemma wnew_prefix (v : disk) (a : list Z) off m n : 0 <= off -> m <= n -> (wnew v a (blocks_of off m) <= wnew v a (blocks_of off n))%nat.
Proof.
  intros Ho Hm. apply submseteq_length, NoDup_submseteq; [apply NoDup_filter, blocks_of_nodup|].
  intros q [Hz Hq]%list_elem_of_filter. apply list_elem_of_filter. rewrite !blocks_of_in in * by lia. split; [done|]. change BSIZE with 1024 in *. zlia.
Qed.

Lemma wnew_ext (v v' : disk) (a l : list Z) : (forall q, fblock v' a q = fblock v a q) -> wnew v' a l = wnew v a l.
Proof. intros E. apply Nat.le_antisymm; apply wnew_mono; intros q _; by rewrite E. Qed.

(** A chunk of filewrite touches few blocks; it allocates the first of them only when it
    begins on a block boundary. *)
Lemma chunk_cost (v : disk) (a P : list Z) off n size : no_holes v a size -> 0 <= off <= size -> 0 <= n <= WRITE_MAX ->
  (icost P a + wcost v a (blocks_of off n) + 1 <= Z.to_nat MAXOPBLOCKS)%nat.
Proof.
  intros Hh Ho Hn. change WRITE_MAX with 3072 in Hn. change (Z.to_nat MAXOPBLOCKS) with 10%nat.
  assert (Hi : (icost P a <= 2)%nat) by (unfold icost; destruct (ind a =? 0); [lia|]; destruct (bool_decide _); lia).
  assert (Hle : forall l, (wnew v a l <= length l)%nat) by (intros l; apply length_filter).
  unfold wcost. destruct (decide (0 < n)) as [Hp|Hp].
  2: { unfold blocks_of. rewrite (proj2 (Z.leb_le _ _)) by lia. unfold wnew. simpl. lia. }
  assert (Hlen : Z.of_nat (length (blocks_of off n)) = (off + n - 1) / BSIZE - off / BSIZE + 1).
  { unfold blocks_of. rewrite (proj2 (Z.leb_gt _ _)) by lia. rewrite length_seqZ. change BSIZE with 1024. zlia. }
  change BSIZE with 1024 in *. destruct (decide (off mod 1024 = 0)) as [Hal|Hal]; [specialize (Hle (blocks_of off n)); zlia|].
  pose proof (blocks_of_cons off n ltac:(lia) Hp) as E. cbv zeta in E. rewrite E in *. rewrite wnew_cons. change BSIZE with 1024 in *.
  assert (Hz : fblock v a (off / 1024) <> 0) by (apply Hh; [|change BSIZE with 1024]; zlia).
  rewrite (proj2 (Z.eqb_neq _ _) Hz). cbn [length] in *. match goal with |- context [wnew v a ?l] => specialize (Hle l) end. zlia.
Qed.

(** User memory as the source. *)
Lemma feeds_user `{LayoutOk} pr s va (len : nat) y ps fl n : k_proc s !! pr = Some y -> uspace (k_pm s) (p_pagetable y) ps fl n ->
  0 <= va -> va + Z.of_nat len < 2 ^ 64 -> (forall a, va <= a < va + Z.of_nat len -> accessible (pm_mem (k_pm s)) (p_pagetable y) a = true) ->
  feeds pr s (SUser va) (ubytes (pm_mem (k_pm s)) (p_pagetable y) va len).
Proof.
  intros Hy U Hva Hlen Hacc k m h s' Hk Hm Hkm Hs [Epm Hp]. rewrite length_ubytes in Hkm. destruct (Hp y Hy) as (y' & Hy' & Sy).
  unfold either_copyin. cbn [src_add]. krun (myproc_run h s' (in_syscall_wf _ _ Hs)). rewrite u64_id by lia.
  destruct Hs as (Hpr & Hs). rewrite Hpr. cbn [deref]. ksimpl. rewrite (bind_pget _ _ _ _ _ y' Hy'), (sp_pagetable _ _ Sy).
  rewrite (in_pm_run _ _ _ (0, ubytes (pm_mem (k_pm s)) (p_pagetable y) (va + k) (Z.to_nat m)) (settle h) (k_pm s)).
  - rewrite <-Epm. f_equal; [|by destruct s']. f_equal. apply list_eq. intros i. unfold slice. rewrite lookup_take, lookup_drop. case_decide as Hi.
    + rewrite !lookup_ubytes by lia. f_equal. f_equal. lia.
    + apply lookup_ge_None_2. rewrite length_ubytes. lia.
  - rewrite Epm. unfold copyin. apply (copyin_loop_run _ _ _ _ _ U); try lia. intros a Ha. apply Hacc. lia.
Qed.

(** ** One round of filewrite *)

Section chunk.
Context `{LayoutOk} `{Symbols} `{WaitPos} `{DeviceOk} `{DiskDev}.
Context (sb : superblock) (geom : geometry sb) (pr : nat).
#[local] Abbreviation start := (sb_logstart sb).
Implicit Types (s : kernel) (h : hart) (d v : disk) (P bs : list Z) (x : inode) (ip f : nat) (off : Z) (C : disk -> Prop).

Lemma log_range : 0 <= start /\ start + LOGSIZE < 2 ^ 31.
Proof. pose proof (ge_log _ geom). pose proof (regions sb geom). pose proof (ge_data _ geom). lia. Qed.

(** No operation is under way; file [f] is open at [off] on the inode [x]. *)
Record at_rest s d f ip off x : Prop := {
  ar_quiet : quiet start pr s d d;
  ar_sb : k_sb s = sb;
  ar_cons : consistent sb d;
  ar_file : exists y, k_file s !! f = Some y /\ f_ip y = Some ip /\ f_off y = off;
  ar_inode : k_inode s !! ip = Some x;
  ar_unlocked : sl_locked (i_lock x) = 0;
  ar_ref : inode_ref sb d x;
}.

Lemma quiet_view s d v : quiet start pr s d v -> quiet start pr s d d.
Proof.
  intros [Q1 Q2 Q3 Q4 Q5]. constructor; try done. eapply io_view; [|exact Q1]. intros m.
  symmetry. apply (io_clean _ _ _ _ _ _ Q1); apply not_elem_of_nil.
Qed.

Lemma txn_same_log d s s' v v' G G' P : txn start pr d s v G P -> k_log s' = k_log s -> io_ok pr s' d v' G' P -> txn start pr d s' v' G' P.
Proof. intros [_ [] Hlg Hsz Ho] E Hio. constructor; rewrite ?E; try done. by constructor; rewrite ?E. Qed.

Lemma bind_file_get {A B} (g : file -> A) (k : A -> K kernel B) f h s y : k_file s !! f = Some y -> bind (file_get f g) k h s = k (g y) h s.
Proof. intros E. unfold file_get. rewrite bind_assoc, bind_gets, E. done. Qed.

Lemma feeds_same s s' c bs : same_user pr s s' -> feeds pr s c bs -> feeds pr s' c bs.
Proof. intros K Hf k m h s2 Hk Hm Hl Hs K2. apply Hf; try done. by eapply same_user_trans. Qed.

(** The first half: the file is locked and written inside the transaction. *)
Lemma chunk_write_wp {B} (k : file -> Z -> K kernel B) C h s d f ip off x c bs y Q : C d -> in_syscall h pr -> at_rest s d f ip off x -> src_ok c -> feeds pr s c bs ->
  Z.of_nat (length bs) <= WRITE_MAX -> 0 <= off <= d_size (inode_at sb d (i_inum x)) -> off + Z.of_nat (length bs) <= MAXFILE * BSIZE ->
  let a := table sb d (i_inum x) in let l := blocks_of off (Z.of_nat (length bs)) in
  (fcost a + wnew d a l <= nfree sb d)%nat -> k_file s !! f = Some y -> f_ip y = Some ip -> f_off y = off ->
  (forall h' s' v' P' x' y', in_syscall h' pr -> kept_fs pr s s' -> k_inode s' = <[ip := x']> (k_inode s) -> i_inum x' = i_inum x ->
    1 <= i_ref x' -> i_valid x' = 1 -> k_proc s' !! pr = Some y' -> sl_locked (i_lock x') = 1 -> sl_pid (i_lock x') = p_pid y' ->
    file_at sb pr d s' v' P' ip x' -> stored sb d (i_inum x) off bs v' ->
    (nfree sb d + fcost (table sb v' (i_inum x)) <= nfree sb v' + fcost a + wnew d a l)%nat ->
    (forall m, 0 <= m < MAXFILE -> fblock d a m <> 0 \/ m ∈ l -> fblock v' (table sb v' (i_inum x)) m <> 0) ->
    wp pr C (k y (Z.of_nat (length bs)) h' s') d Q) ->
  wp pr C ((begin_op;;
    z <- file_get f id;;
    ilock (f_ip z);;
    ip <- deref (f_ip z);;
    r <- writei ip c (f_off z) (Z.of_nat (length bs));;
    k z r) h s) d Q.
Proof.
  intros HC Hs [A1 A2 A3 _ A5 A6 A7] Hc Hf Hn Hoff Hmax a l Hfr Hy Eip Eoff HQ. set (i := i_inum x) in *.
  destruct (begin_op_run start pr h s d d Hs A1) as (s1 & E1 & K1 & Ht1). eapply wp_run; [exact E1|]. apply in_syscall_settle in Hs as Hs1.
  destruct (kept_but_log_fs _ _ _ K1) as [K1f Ei1]. rewrite (bind_file_get _ _ _ _ _ y) by (by rewrite (kf_file _ _ _ K1f)). unfold id. rewrite Eip, Eoff.
  apply wp_bind. eapply (ilock_wp sb geom pr C d HC); [done|apply Ht1|simpl; unfold NBUF; lia|by rewrite (kf_sb _ _ _ K1f)|by rewrite Ei1|done|done|].
  intros h2 s2 x2 y2 Hs2 K2 El2 Hio2 Ei2 Hy2 [I1 I2 I3 I4 I5 I6]. cbn [deref]. ksimpl. rewrite Ei1 in Ei2.
  assert (K02 : kept_fs pr s s2) by (by eapply kept_fs_trans).
  assert (Hfa : file_at sb pr d s2 d [] ip x2).
  { constructor; [by eapply txn_same_log|by rewrite (kf_sb _ _ _ K02)|done| |by rewrite I2, (ir_dev _ _ _ A7)|by rewrite I3; apply A7|by rewrite I3].
    rewrite Ei2. by eapply inode_at_insert. }
  assert (Ea : i_addrs x2 = a) by (unfold a, table; fold i in I5; by rewrite <-I5).
  assert (Esz : i_size x2 = d_size (inode_at sb d i)) by (fold i in I5; by rewrite <-I5).
  assert (Hcost : (icost [] a + wcost d a l + 1 <= 10)%nat).
  { apply (chunk_cost d a [] off _ (d_size (inode_at sb d i))); [|done|lia]. by apply (cs_size _ _ A3), A7. }
  apply wp_bind. eapply (writei_wp sb geom pr C d HC); try done.
  { eapply feeds_same, Hf. by apply kept_fs_user. } { by rewrite Esz. } { rewrite Ea. fold l. unfold nslots, LOGSIZE. simpl. lia. } { by rewrite Ea. }
  intros h3 s3 v3 P3 x3 Hs3 K3 Ei3 (sz & a3 & ->) Hfa3 Hst3 _ Hfr3 Hb3. rewrite Ea in Hfr3, Hb3. rewrite I3 in Hst3. fold i l in Hst3, Hfr3, Hb3.
  assert (Ea3 : i_addrs (set_i_size sz (set_i_addrs a3 x2)) = table sb v3 i).
  { pose proof (fa_disk _ _ _ _ _ _ _ _ Hfa3) as E. change (i_inum (set_i_size _ _)) with (i_inum x2) in E. rewrite I3 in E. fold i in E. unfold table. by rewrite <-E. }
  rewrite Ea3 in Hfr3, Hb3. destruct (kf_proc _ _ _ K3 y2 Hy2) as (y3 & Hy3 & Sy3).
  apply (HQ h3 s3 v3 P3 (set_i_size sz (set_i_addrs a3 x2)) y3); try done; simpl.
  - by eapply kept_fs_trans.
  - rewrite Ei3, Ei2. apply insert_twice.
  - rewrite I1. apply A7.
  - apply I6.
  - rewrite (proj2 I6). symmetry. apply Sy3.
Qed.

Lemma outside_log m : sb_inodestart sb <= m -> ~ in_log start m.
Proof. apply (past_log sb geom). Qed.

(** The second half: the offset advances, the lock goes back, the transaction commits. *)
Lemma chunk_commit_wp {B} (k : K kernel B) C h s d v P f ip off n x y fy Q : in_syscall h pr -> log_valid start d /\ committed start d = [] ->
  file_at sb pr d s v P ip x -> d_type (inode_at sb v (i_inum x)) <> 0 -> 1 <= i_ref x -> i_valid x = 1 -> k_proc s !! pr = Some y -> sl_locked (i_lock x) = 1 -> sl_pid (i_lock x) = p_pid y ->
  k_file s !! f = Some fy -> f_ip fy = Some ip -> f_off fy = off -> 0 <= off -> 0 < n -> off + n < 2 ^ 32 ->
  (forall d1, atomic start d v d1 -> C d1) ->
  (forall h' s' d', in_syscall h' pr -> same_user pr s s' -> at_rest s' d' f ip (off + n) (iunlocked x) -> agree sb v d' -> disk_ok d' ->
    (forall g, g <> f -> k_file s' !! g = k_file s !! g) -> wp pr C (k h' s') d' Q) ->
  wp pr C ((when (0 <? n) (file_set f (fun z => set_f_off (u32 (f_off z + n)) z));;
    iunlock (Some ip);;
    end_op;;
    k) h s) d Q.
Proof.
  intros Hs [Hval Hcom] [F1 F2 F3 F4 F5 F6 F7] Hty Hr Hv Hy Hl Hp Hfy Eip Eoff Hoff Hn Hmax HC HQ.
  rewrite (proj2 (Z.ltb_lt _ _)) by lia. cbn [when]. unfold file_set. rewrite bind_modify. set (s1 := set_k_file _ s).
  assert (Ht1 : txn start pr d s1 v [] P) by (eapply txn_same_log; [exact F1|done|]; by eapply io_kept_inode; [apply F1|..]).
  destruct (iunlock_run pr d h s1 v P [] ip x y Hs (tx_io _ _ _ _ _ _ _ Ht1) F4 Hy Hr Hl Hp) as (s2 & E2 & K2 & El2 & Hio2 & Ei2).
  eapply wp_run; [exact E2|]. apply in_syscall_settle in Hs as Hs2.
  assert (Ht2 : txn start pr d s2 v [] P) by (by eapply txn_same_log).
  apply wp_bind. eapply wp_crash; [exact HC|]. eapply (end_op_wp start log_range); try done.
  intros h3 s3 d3 v3 Hs3 K3 Hq Hd3. destruct (kept_but_log_fs _ _ _ K3) as [K3f Ei3].
  assert (Hag : agree sb v d3) by (intros m Hm; by apply Hd3, outside_log).
  assert (Hdk : disk_ok d3) by apply Hq. apply HQ; try done.
  - eapply same_user_trans; [|eapply kept_fs_user, kept_fs_trans; [exact K2|exact K3f]]. constructor; [done|]. intros z Hz. exists z. split; [done|apply same_proc_refl].
  - destruct (agree_consistent sb geom v d3 F3 Hdk Hag) as (Hc3 & _). constructor; try done.
    + by eapply quiet_view.
    + by rewrite (kf_sb _ _ _ K3f), (kf_sb _ _ _ K2).
    + exists (set_f_off (off + n) fy). split_and!; [|done|done]. rewrite (kf_file _ _ _ K3f), (kf_file _ _ _ K2). simpl.
      rewrite list_lookup_alter_eq, Hfy. simpl. by rewrite Eoff, u32_id by lia.
    + rewrite Ei3, Ei2. by eapply (inode_at_insert s1).
    + constructor; try done; change (i_inum (iunlocked x)) with (i_inum x); rewrite (agree_inode sb geom v d3) by done; [done|right; split; [done|]]. by rewrite <-F7.
  - intros g Hg. rewrite (kf_file _ _ _ K3f), (kf_file _ _ _ K2). simpl. by rewrite list_lookup_alter_ne.
Qed.

(** ** The loop *)

(** The disk after a crash: recovery yields a consistent file system in which the first
    [k] bytes have been written, a whole number of chunks or all of them. *)
Definition crash_ok d i off bs (d1 : disk) : Prop :=
  log_valid start d1 /\ consistent sb (redo start d1) /\
  exists k : nat, (k <= length bs)%nat /\ (k = length bs \/ Z.of_nat k mod WRITE_MAX = 0) /\ stored sb d i off (take k bs) (redo start d1).

Lemma redo_ok d1 : log_valid start d1 -> disk_ok (redo start d1).
Proof. intros [Hd _] m. unfold redo. destruct (list_find _ _) as [[j z]|]; apply Hd. Qed.

Lemma crash_here d v i off bs d1 : inum_ok sb i -> consistent sb d -> consistent sb v -> 0 <= off <= d_size (inode_at sb d i) -> stored sb d i off bs v ->
  atomic start d v d1 -> crash_ok d i off bs d1.
Proof.
  intros Hi Hcd Hcv Hoff Hst [Hval Hat]. pose proof (redo_ok d1 Hval) as Hok.
  assert (Hag : forall w, (forall m, ~ in_log start m -> redo start d1 m = w m) -> agree sb w (redo start d1)).
  { intros w Hw m Hm. by apply Hw, outside_log. }
  destruct Hat as [Ho|Hn].
  - apply Hag in Ho. destruct (agree_consistent sb geom d _ Hcd Hok Ho) as (Hc & _). split_and!; [done|done|]. exists 0%nat.
    split_and!; [lia|by right|]. rewrite take_0. eapply (agree_stored sb geom); [done|exact Hcd|done|done|]. by apply stored_nothing.
  - apply Hag in Hn. destruct (agree_consistent sb geom v _ Hcv Hok Hn) as (Hc & _). split_and!; [done|done|]. exists (length bs).
    split_and!; [lia|by left|]. rewrite firstn_all. by eapply (agree_stored sb geom); [|exact Hcv|..].
Qed.

(** A crash in the first chunk. *)
Lemma crash_first d i off bs1 bs2 d1 : bs2 = [] \/ Z.of_nat (length bs1) = WRITE_MAX -> crash_ok d i off bs1 d1 -> crash_ok d i off (bs1 ++ bs2) d1.
Proof.
  intros Hwhole (Hval & Hc & k & Hk & Hkm & Hs). split_and!; [done|done|]. exists k. rewrite length_app, take_app_le by done. split_and!; [lia| |done].
  destruct Hkm as [->|Hkm]; [|by right]. destruct Hwhole as [->|Hw]; [left; simpl; lia|right]. by rewrite Hw.
Qed.

(** A crash in a later chunk. *)
Lemma crash_later d d' i off bs1 bs2 d1 : inum_ok sb i -> 0 <= off <= d_size (inode_at sb d i) -> stored sb d i off bs1 d' ->
  bs2 = [] \/ Z.of_nat (length bs1) = WRITE_MAX -> crash_ok d' i (off + Z.of_nat (length bs1)) bs2 d1 -> crash_ok d i off (bs1 ++ bs2) d1.
Proof.
  intros Hi Hoff Hst Hwhole (Hval & Hc & k & Hk & Hkm & Hs2). split_and!; [done|done|]. exists (length bs1 + k)%nat.
  split_and!; [rewrite length_app; lia| |rewrite take_app_add; by eapply (stored_trans sb)].
  rewrite length_app. destruct Hkm as [->|Hkm]; [by left|]. destruct Hwhole as [->|Hw]; [left; simpl in *; lia|right].
  rewrite Nat2Z.inj_add, Hw. change WRITE_MAX with 3072 in *. zlia.
Qed.

Lemma crash_now d i off bs : inum_ok sb i -> consistent sb d -> log_valid start d -> committed start d = [] -> 0 <= off <= d_size (inode_at sb d i) ->
  crash_ok d i off bs d.
Proof.
  intros Hi Hc Hval Hcom Hoff. destruct (crash_here d d i off [] d Hi Hc Hc Hoff (stored_nothing sb d i off Hi Hoff)) as (_ & Hcr & k & Hk & _ & Hst).
  { split; [done|left]. intros m _. by apply redo_empty. }
  split_and!; [done|done|]. exists 0%nat. split_and!; [lia|by right|]. destruct k; [done|simpl in Hk; lia].
Qed.

Lemma filewrite_loop_wp fuel C h s d f ip off x addr n i bs Q : in_syscall h pr -> at_rest s d f ip off x -> feeds pr s (SUser (u64 (addr + i))) bs ->
  Z.of_nat (length bs) = n - i -> 0 <= i <= n -> 0 <= off <= d_size (inode_at sb d (i_inum x)) -> off + (n - i) <= MAXFILE * BSIZE ->
  (fcost (table sb d (i_inum x)) + wnew d (table sb d (i_inum x)) (blocks_of off (n - i)) <= nfree sb d)%nat -> n - i <= Z.of_nat fuel * WRITE_MAX ->
  (forall d1, crash_ok d (i_inum x) off bs d1 -> C d1) ->
  (forall h' s' d' x', in_syscall h' pr -> at_rest s' d' f ip (off + (n - i)) x' -> i_inum x' = i_inum x -> stored sb d (i_inum x) off bs d' -> Q n h' s' d') ->
  wp pr C (filewrite_loop fuel f addr n i h s) d Q.
Proof.
  revert h s d off x i bs. induction fuel as [|fu IH]; intros h s d off x i bs Hs Har Hf Hlen Hi Hoff Hmax Hfr Hfu HC HQ;
    pose proof (ir_inum _ _ _ (ar_ref _ _ _ _ _ _ Har)) as Hin; pose proof Har as [[_ _ _ _ [Hval Hcom]] _ Hcons (y & Hy & Eip & Eoff) _ _ Href];
    cbn [filewrite_loop]; (destruct (Z.ltb_spec i n) as [Hlt|Hge]; cbn [negb];
    [|assert (i = n) as -> by lia; assert (bs = []) as -> by (destruct bs; [done|simpl in Hlen; lia]); cbn [ret wp]; split;
      [apply HC; by apply crash_now|]; apply (HQ h s d x); try done; [by rewrite Z.sub_diag, Z.add_0_r|by apply stored_nothing]]).
  { change WRITE_MAX with 3072 in *. lia. }
  set (n1 := Z.min (n - i) WRITE_MAX). assert (Hn1 : 0 < n1 <= n - i /\ n1 <= WRITE_MAX) by (unfold n1; change WRITE_MAX with 3072; lia).
  rewrite <-(take_drop (Z.to_nat n1) bs) in HC, HQ. set (bs1 := take (Z.to_nat n1) bs) in *. set (bs2 := drop (Z.to_nat n1) bs) in *.
  assert (L1 : Z.of_nat (length bs1) = n1) by (unfold bs1; rewrite length_take; lia).
  assert (L2 : Z.of_nat (length bs2) = n - (i + n1)) by (unfold bs2; rewrite length_drop; lia).
  assert (Hf1 : feeds pr s (SUser (u64 (addr + i))) bs1).
  { intros k m h' s' Hk Hm Hkm Hs' K'. rewrite Hf by (try done; lia). unfold slice, bs1. do 2 f_equal. rewrite skipn_firstn_comm, take_take. f_equal. lia. }
  assert (Hf2 : forall s', same_user pr s s' -> feeds pr s' (SUser (u64 (addr + (i + n1)))) bs2).
  { intros s' K. pose proof (feeds_step pr s s' _ bs n1 Hf K ltac:(lia)) as E. simpl in E. unfold u64 in *. by rewrite Zplus_mod_idemp_l, <-Z.add_assoc in E. }
  assert (Hwhole : bs2 = [] \/ Z.of_nat (length bs1) = WRITE_MAX).
  { destruct (decide (n - i <= WRITE_MAX)); [left; apply nil_length_inv; lia|right]. lia. }
  clearbody n1 bs1 bs2. subst n1. set (a := table sb d (i_inum x)) in *.
  pose proof (wnew_prefix d a off (Z.of_nat (length bs1)) (n - i) ltac:(lia) ltac:(lia)) as Hpre.
  eapply (chunk_write_wp (fun z r => when (0 <? r) (file_set f (fun z => set_f_off (u32 (f_off z + r)) z));; iunlock (f_ip z);; end_op;;
    if negb (r =? Z.of_nat (length bs1)) then ret i else filewrite_loop fu f addr n (i + r)) C h s d f ip off x (SUser (u64 (addr + i))) bs1 y); try done; try lia.
  { apply HC. by apply crash_now. } { simpl. unfold u64. apply Z.mod_pos_bound. lia. } { fold a. lia. }
  fold a. intros h1 s1 v1 P1 x1 y1 Hs1 K1 Ei1 Ein Hr1 Hv1 Hy1 Hl1 Hp1 Hfa1 Hst1 Hfr1 Hb1. rewrite Eip. pose proof (fa_cons _ _ _ _ _ _ _ _ Hfa1) as Hc1.
  assert (Hmax2 : off + (n - i) < 2 ^ 32) by (change (MAXFILE * BSIZE) with 274432 in Hmax; lia).
  eapply (chunk_commit_wp _ C h1 s1 d v1 P1 f ip off _ x1 y1 y); try done; try lia.
  { rewrite Ein, (st_inode _ _ _ _ _ _ Hst1). apply Href. } { by rewrite (kf_file _ _ _ K1). }
  { intros d1 Hat. apply HC, crash_first; [done|]. by apply (crash_here d v1). }
  intros h2 s2 d2 Hs2 K2 Har2 Hag Hdk _. rewrite Z.eqb_refl. cbn [negb].
  assert (Hst2 : stored sb d (i_inum x) off bs1 d2) by (by eapply (agree_stored sb geom); [|exact Hc1|..]).
  destruct (agree_consistent sb geom v1 d2 Hc1 Hdk Hag) as (_ & En & Eb & _).
  assert (Etab : table sb d2 (i_inum x) = table sb v1 (i_inum x)) by (unfold table; by rewrite (agree_inode sb geom v1 d2)).
  assert (Esz : d_size (inode_at sb d2 (i_inum x)) = Z.max (d_size (inode_at sb d (i_inum x))) (off + Z.of_nat (length bs1))).
  { by rewrite (st_inode _ _ _ _ _ _ Hst2). }
  eapply (IH h2 s2 d2 _ (iunlocked x1) (i + Z.of_nat (length bs1)) bs2); try done; change (i_inum (iunlocked x1)) with (i_inum x1); rewrite ?Ein; try lia.
  - apply Hf2. eapply same_user_trans; [by apply kept_fs_user|done].
  - rewrite Etab, En. assert (Hsp := wnew_split d v1 a (table sb v1 (i_inum x)) off (Z.of_nat (length bs1)) (n - i) ltac:(lia) ltac:(lia) Hmax Hb1).
    rewrite (wnew_ext v1 d2) by (intros q; rewrite <-Etab at 1; by apply Eb). replace (n - (i + Z.of_nat (length bs1))) with (n - i - Z.of_nat (length bs1)) by lia. lia.
  - change WRITE_MAX with 3072 in *. destruct Hwhole as [->|Hw]; [simpl in L2|]; lia.
  - intros d1 Hd1. apply HC. by eapply (crash_later d d2).
  - intros h3 s3 d3 x3 Hs3 Har3 Ex3 Hst3. apply (HQ h3 s3 d3 x3); try done; [|by eapply (stored_trans sb)].
    by replace (off + (n - i)) with (off + Z.of_nat (length bs1) + (n - (i + Z.of_nat (length bs1)))) by lia.
Qed.

Lemma crash_ok_redo d i off bs d1 d2 : inum_ok sb i -> crash_ok d i off bs d1 -> log_valid start d2 ->
  (forall m, ~ in_log start m -> redo start d2 m = redo start d1 m) -> crash_ok d i off bs d2.
Proof.
  intros Hi (Hval & Hc & k & Hk & Hkm & Hst) Hval2 E. pose proof (redo_ok d2 Hval2) as Hok.
  assert (Hag : agree sb (redo start d1) (redo start d2)) by (intros m Hm; by apply E, outside_log).
  destruct (agree_consistent sb geom _ _ Hc Hok Hag) as (Hc2 & _). split_and!; [done|done|]. exists k. split_and!; [done|done|].
  by eapply (agree_stored sb geom); [|exact Hc|..].
Qed.

End chunk.

(** C4: write() to a file. A process writes the [len] bytes at the user address [addr] to
    an open file on a consistent disk with enough free blocks. filewrite returns [len];
    the file then has these bytes at the offset of the descriptor, which has advanced,
    the other files are as before, and the disk is consistent. If the machine stops on
    the way, recovery makes the disk consistent again with a prefix of the bytes written,
    all of them or a whole number of the chunks that filewrite splits them into, and
    nothing else changed; recovery may itself be interrupted. *)
Theorem filewrite_atomic `{LayoutOk} `{Symbols} `{WaitPos} `{DeviceOk} `{DiskDev} (sb : superblock) (pr : nat) (h : hart) (s : kernel) (d : disk)
    (f ip : nat) (off : Z) (x : inode) (y : file) (p : proc) (ps fl : list Z) (np len : nat) (addr : Z) :
  geometry sb -> in_syscall h pr -> at_rest sb pr s d f ip off x ->
  k_file s !! f = Some y -> f_type y = FD_INODE -> f_writable y <> 0 ->
  k_proc s !! pr = Some p -> uspace (k_pm s) (p_pagetable p) ps fl np -> 0 <= addr -> addr + Z.of_nat len < 2 ^ 64 ->
  (forall a, addr <= a < addr + Z.of_nat len -> accessible (pm_mem (k_pm s)) (p_pagetable p) a = true) ->
  0 <= off <= d_size (inode_at sb d (i_inum x)) -> off + Z.of_nat len <= MAXFILE * BSIZE ->
  (fcost (table sb d (i_inum x)) + wnew d (table sb d (i_inum x)) (blocks_of off (Z.of_nat len)) <= nfree sb d)%nat ->
  let bs := ubytes (pm_mem (k_pm s)) (p_pagetable p) addr len in
  wp pr (crash_ok sb d (i_inum x) off bs) (filewrite f addr (Z.of_nat len) h s) d
    (fun r h' s' d' => r = Z.of_nat len /\ in_syscall h' pr /\ (exists x', at_rest sb pr s' d' f ip (off + Z.of_nat len) x') /\
       stored sb d (i_inum x) off bs d') /\
  forall d1, crash_ok sb d (i_inum x) off bs d1 ->
  forall pr0 h0 s0, in_syscall h0 pr0 -> fresh pr0 s0 -> sb_logstart (k_sb s0) = sb_logstart sb -> length (lh_block (k_log s0)) = Z.to_nat LOGSIZE ->
  wp pr0 (crash_ok sb d (i_inum x) off bs) (initlog disk_dev h0 s0) d1
    (fun _ _ _ d2 => consistent sb d2 /\ exists k : nat, (k <= len)%nat /\ (k = len \/ Z.of_nat k mod WRITE_MAX = 0) /\
       stored sb d (i_inum x) off (take k bs) d2).
Proof.
  intros geom Hs Har Hy Hty Hw Hp U Ha Hal Hacc Hoff Hmax Hfr bs. pose proof (ir_inum _ _ _ (ar_ref _ _ _ _ _ _ _ _ Har)) as Hin.
  assert (Hlen : length bs = len) by apply length_ubytes. change (MAXFILE * BSIZE) with 274432 in Hmax. split.
  - unfold filewrite. rewrite (bind_file_get _ _ _ _ _ _ Hy). unfold id. rewrite Hty, (proj2 (Z.eqb_neq _ _) Hw).
    apply wp_bind. eapply (filewrite_loop_wp sb geom pr _ _ h s d f ip off x addr _ 0 bs); try done; rewrite ?Z.sub_0_r, ?Hlen; try done; try lia.
    + rewrite Z.add_0_r, u64_id by lia. by eapply feeds_user.
    + change WRITE_MAX with 3072. zlia.
    + intros h' s' d' x' Hs' Har' Ex Hst. cbn [ret wp]. rewrite Z.eqb_refl. split; [|by eauto].
      destruct (ar_quiet _ _ _ _ _ _ _ _ Har') as [_ _ _ _ [Hval Hcom]].
      apply (crash_here sb geom d d'); try done; [apply Har|apply Har'|]. split; [done|right]. intros m _. by apply redo_empty.
  - intros d1 Hcr pr0 h0 s0 Hs0 Hfresh Hst Hlb. pose proof Hcr as (Hval1 & Hc1 & k & Hk & Hkm & Hst1).
    eapply (initlog_wp (sb_logstart sb) (log_range sb geom) pr0 _ h0 s0 d1 d1); try done; [by apply io_fresh; [|apply Hval1]| |].
    + intros d2 [Hval2 Hr]. by eapply (crash_ok_redo sb geom).
    + intros h' s' d2 v2 _ _ _ Hio2 _ _ Hd2. assert (Hag : agree sb (redo (sb_logstart sb) d1) d2) by (intros m Hm; by apply Hd2, (outside_log sb geom)).
      assert (Hdk : disk_ok d2) by apply Hio2. destruct (agree_consistent sb geom _ d2 Hc1 Hdk Hag) as (Hc2 & _). split; [done|].
      exists k. rewrite Hlen in *. split_and!; [done|done|]. by eapply (agree_stored sb geom); [|exact Hc1|..].
Qed.


(** ** The reservation of an operation *)

(** C7: A chunk of filewrite fits the reservation of its operation: a writei of at most
    WRITE_MAX bytes, to any place of a file and with every block of it to be allocated,
    the indirect block included, returns the number of bytes and has entered at most
    MAXOPBLOCKS blocks into the log. *)
Theorem writei_within_reservation `{LayoutOk} `{Symbols} `{WaitPos} `{DeviceOk} `{DiskDev} (sb : superblock) (pr : nat) (h : hart) (s : kernel) (d v : disk)
    (ip : nat) (x : inode) (c : src) (off : Z) (bs : list Z) :
  geometry sb -> in_syscall h pr -> file_at sb pr d s v [] ip x -> src_ok c -> feeds pr s c bs -> Z.of_nat (length bs) <= WRITE_MAX ->
  0 <= off <= i_size x -> off + Z.of_nat (length bs) <= MAXFILE * BSIZE ->
  (fcost (i_addrs x) + wnew v (i_addrs x) (blocks_of off (Z.of_nat (length bs))) <= nfree sb v)%nat ->
  wp pr (fun d1 => d1 = d) (writei ip c off (Z.of_nat (length bs)) h s) d
    (fun r _ s' d' => r = Z.of_nat (length bs) /\ d' = d /\ lh_n (k_log s') <= MAXOPBLOCKS).
Proof.
  intros geom Hs Hfa Hc Hf Hn Hoff Hmax Hfr. pose proof (fa_disk _ _ _ _ _ _ _ _ Hfa) as Ed.
  assert (Hcost : (icost [] (i_addrs x) + wcost v (i_addrs x) (blocks_of off (Z.of_nat (length bs))) + 1 <= 10)%nat).
  { apply (chunk_cost v (i_addrs x) [] off _ (i_size x)); [|done|lia]. pose proof (cs_size _ _ (fa_cons _ _ _ _ _ _ _ _ Hfa) _ (fa_inum _ _ _ _ _ _ _ _ Hfa)) as Hh.
    unfold table in Hh. rewrite <-Ed in Hh. apply Hh. }
  eapply (writei_wp sb geom pr (fun d1 => d1 = d) d eq_refl); try done; [unfold nslots, LOGSIZE; simpl; lia|].
  intros h' s' v' P' x' _ _ _ _ Hfa' _ HP _ _. split; [done|]. split; [done|].
  rewrite (lo_n _ _ _ (tx_log _ _ _ _ _ _ _ (fa_txn _ _ _ _ _ _ _ _ Hfa'))). unfold MAXOPBLOCKS. simpl in HP. lia.
Qed.

(** ** Example: three bytes to an empty file *)

Definition demo_fd : file := File FD_INODE 1 1 1 0 (Some 0%nat) 0 0.
Definition demo_inode : inode := Inode 1 1 1 zero_sleeplock 0 0 0 0 0 0 (replicate 13 0).
Definition demo_writer : kernel :=
  set_k_file (demo_fd :: replicate 99 zero_file) (set_k_inode (demo_inode :: replicate 49 zero_inode)
    (set_k_log (Log 2 30 0 0 1 0 (replicate 30 0)) (set_k_sb demo_sb (set_k_pm demo_as1
      (set_k_proc (set_p_pagetable demo_page demo_running :: replicate 63 zero_proc) demo_cached))))).

#[local] Opaque demo_bcache demo_as1 demo_img.

Lemma demo_writer_fresh : fresh 0 demo_writer.
Proof.
  constructor.
  - reflexivity.
  - eexists. reflexivity.
  - exact demo_idle.
  - exists (reverse (upto NBUF)). split; [exact demo_lru|apply reverse_Permutation].
  - exact demo_bufs.
Qed.

Lemma demo_at_rest : at_rest demo_sb 0 demo_writer demo_img 0 0 0 demo_inode.
Proof.
  destruct demo_no_log as [Hv Hc]. assert (Hi : inum_ok demo_sb 1) by (unfold inum_ok, demo_sb; simpl; lia). constructor.
  - constructor; [apply io_fresh; [exact demo_writer_fresh|apply Hv]| |reflexivity|split; reflexivity|split; [exact Hv|exact Hc]].
    constructor; reflexivity.
  - reflexivity.
  - exact demo_consistent.
  - exists demo_fd. split_and!; reflexivity.
  - reflexivity.
  - reflexivity.
  - constructor; [simpl; lia|reflexivity|exact Hi| |left; reflexivity].
    change (i_inum demo_inode) with 1. rewrite (demo_inodes 1 Hi). discriminate.
Qed.

Lemma filewrite_atomic_witness :
  let bs := ubytes (pm_mem demo_as1) demo_page 8 3 in
  wp 0 (crash_ok demo_sb demo_img 1 0 bs) (filewrite 0 8 3 demo_user_hart demo_writer) demo_img
    (fun r h' s' d' => r = 3 /\ in_syscall h' 0 /\ (exists x', at_rest demo_sb 0 s' d' 0 0 3 x') /\
       stored demo_sb demo_img 1 0 bs d').
Proof.
  destruct demo_grown as (ps & fl & G). pose proof (gr_space _ _ _ _ _ _ _ _ _ G) as U.
  destruct (filewrite_atomic demo_sb 0 demo_user_hart demo_writer demo_img 0 0 0 demo_inode demo_fd
    (set_p_pagetable demo_page demo_running) ps fl 1 3 8) as [Hc _]; [exact demo_geometry|split; [reflexivity|split; reflexivity]|exact demo_at_rest
    |reflexivity|reflexivity|discriminate|reflexivity|exact U|lia|lia| | | | |exact Hc].
  - intros a Ha. apply demo_accessible. unfold PGSIZE. lia.
  - pose proof (demo_inodes 1 ltac:(unfold inum_ok, demo_sb; simpl; lia)) as E. simpl i_inum. rewrite E. simpl. lia.
  - unfold MAXFILE, BSIZE. vm_compute. discriminate.
  - simpl i_inum. unfold table. rewrite demo_inodes by (unfold inum_ok, demo_sb; simpl; lia). rewrite demo_nfree. vm_compute. lia.
Defined.

(** The same file, locked and inside an operation. *)
Definition demo_held : inode := Inode 1 1 1 (SleepLock 1 7) 1 T_FILE 0 0 1 0 (replicate 13 0).
Definition demo_inside : kernel :=
  set_k_inode (demo_held :: replicate 49 zero_inode) (set_k_log (Log 2 30 1 0 1 0 (replicate 30 0)) demo_writer).

Lemma demo_file_at : file_at demo_sb 0 demo_img demo_inside demo_img [] 0 demo_held.
Proof.
  assert (Hi : inum_ok demo_sb 1) by (unfold inum_ok, demo_sb; simpl; lia). constructor.
  - constructor; [|constructor; reflexivity|apply loggable_nil|reflexivity|split; reflexivity].
    apply io_fresh; [|apply demo_no_log]. constructor; [reflexivity|eexists; reflexivity|exact demo_idle| |exact demo_bufs].
    exists (reverse (upto NBUF)). split; [exact demo_lru|apply reverse_Permutation].
  - reflexivity.
  - exact demo_consistent.
  - reflexivity.
  - reflexivity.
  - exact Hi.
  - change (i_inum demo_held) with 1. rewrite (demo_inodes 1 Hi). reflexivity.
Qed.

Lemma writei_within_reservation_witness :
  wp 0 (fun d1 => d1 = demo_img) (writei 0 (SLocal [104; 105; 33]) 0 3 demo_user_hart demo_inside) demo_img
    (fun r _ s' d' => r = 3 /\ d' = demo_img /\ lh_n (k_log s') <= 10).
Proof.
  pose proof (writei_within_reservation demo_sb 0 demo_user_hart demo_inside demo_img demo_img 0 demo_held (SLocal [104; 105; 33]) 0 [104; 105; 33]) as T.
  apply T; clear T; [exact demo_geometry|split; [reflexivity|split; reflexivity]|exact demo_file_at|exact I|apply feeds_local|vm_compute; discriminate
    |simpl; lia|vm_compute; discriminate|rewrite demo_nfree; vm_compute; lia].
Defined.
