(* ===== verification/UserInit.v ===== *)
(** * UserInit

    The first process: what userinit of kernel/proc.c leaves in memory and in the tables
    of the kernel. *)
From stdpp Require Import base tactics list numbers gmap strings sets.
From S2P Require Import Prelude Machine Spinlock Printf Bytes Block Queue Kalloc Vm Pagetable VmSpec UserMem UserCopy VmProps.
From S2P Require Import Kernel Proc ProcFacts Sleeplock Virtio Bio Log Fs Console Pipe File Fork Discipline Balance KernelInv.
From S2P Require Import Scheduler ProcProps ProcMem.

Section userinit.
Context `{LayoutOk} `{Symbols} `{WaitFuel}.
Implicit Types (s : kernel) (h : hart) (t : pm).

(** ** uvminit *)

Lemma uvminit_run root ps q fl tf src h t :
  kmem_ready h -> pspace t root ps (q :: fl) 0 tf -> (3 < length fl)%nat -> bytes_ok src -> Z.of_nat (length src) < PGSIZE ->
  exists h' t' ps' fl', uvminit root src (Z.of_nat (length src)) h t = Done tt h' t' /\ calm h h' /\
    pspace t' root ps' fl' 1 tf /\ ps' ++ fl' ≡ₚ ps ++ fl /\ ps ⊆ ps' /\ same_outside (q :: ps') (pm_mem t) (pm_mem t') /\
    upages (pm_mem t') root 0 1 = [q] /\
    forall va, 0 <= va < PGSIZE -> umem (pm_mem t') root va = default 0 (src !! Z.to_nat va).
Proof.
  intros Hh [U Htr Htf] Hfl Hb Hsz. unfold uvminit. rewrite (proj2 (Z.leb_gt _ _) Hsz).
  pose proof (us_vm _ _ _ _ _ U) as Hv.
  krun (kalloc_some h t q fl (vs_free _ _ _ _ Hv) (proj1 Hh) (proj2 Hh)). rewrite bind_modify.
  set (m1 := memset (pm_mem (allocd q t)) q 0 PGSIZE). change (Z.lor (Z.lor (Z.lor PTE_W PTE_R) PTE_X) PTE_U) with URWX.
  destruct (uvm_grow_one t root ps q fl 0 m1 URWX (settle h))
    as (r & h1 & t1 & ps1 & fl1 & E1 & Hc1 & Hq & Hqps & Hqfl & Hnew & Hout & _ & Hr); auto.
  { by apply kmem_ready_settle. } { apply memset_page_outside. } { apply memset_ok, allocd_ok, Hv. }
  { rewrite TRAPFRAME_MAXVA, MAXVA_eq. unfold PGSIZE. lia. } all: try apply URWX_range.
  change (Z.of_nat 0 * PGSIZE) with 0 in E1. krun E1.
  destruct Hr as [(-> & U1 & Hup & Hcont & He)|(_ & _ & Hl & _)]; [|lia]. simpl in Hup. rewrite Nat2Z.id, firstn_all.
  set (m2 := write_bytes (pm_mem t1) q src). pose proof (page_ok_pos q Hq) as Hqr. pose proof (eq_refl : PGSIZE = 4096) as Hpg.
  assert (Hm2 : same_outside [q] (pm_mem t1) m2).
  { intros x Hx. unfold m2. apply rd_write_other. specialize (Hx q ltac:(left)). unfold in_page in Hx. lia. }
  destruct (vm_page_write t1 root ps1 fl1 q m2 (us_vm _ _ _ _ _ U1) Hq Hqps Hqfl Hm2) as [Hv2 He2].
  { apply write_bytes_ok, (us_vm _ _ _ _ _ U1). }
  assert (Hup2 : upages m2 root 0 1 = [q]) by (simpl; by rewrite He2).
  pose proof TRAPFRAME_MAXVA as Ht. pose proof MAXVA_eq as Hmax.
  assert (Hhigh : forall va, TRAPFRAME <= va < MAXVA -> entry m2 root va = entry (pm_mem t) root va).
  { intros va Hva. rewrite He2, He by lia. rewrite decide_False; [done|]. clear -Hva Ht Hmax Hpg. rewrite Ht, Hmax, Hpg in *. zlia. }
  assert (Htt : TRAMPOLINE = MAXVA - PGSIZE) by done.
  exists h1, (set_mem m2 t1), ps1, fl1. split_and!; [done|eauto with xv6| | | | |done|].
  - constructor; [|intros va Hva; simpl; rewrite Hhigh by lia; by apply Htr|intros va Hva; simpl; rewrite Hhigh by lia; by apply Htf].
    eapply uspace_ext; [exact U1|exact Hv2|intros; apply He2|]. by apply U1.
  - destruct Hnew as (new & E & Hp). rewrite E, Hp, (Permutation_app_comm new ps), app_assoc. done.
  - destruct Hnew as (new & _ & Hp). intros y Hy. rewrite Hp. apply elem_of_app. by right.
  - eapply same_outside_trans; [exact Hout|]. eapply same_outside_mono; [|exact Hm2]. apply singleton_sub. left.
  - intros va Hva. unfold umem. simpl. rewrite He2, He by lia. rewrite decide_True by (rewrite Hpg in *; zlia).
    rewrite PTE2PA_leaf; [|by apply page_ok_pa|apply URWX_range]. rewrite Z.mod_small by done. unfold m2. rewrite rd_write_bytes.
    case_decide as Hin.
    + replace (q + va - q) with va by lia. destruct (src !! Z.to_nat va) as [b|] eqn:Eb; [|done]. simpl.
      apply u8_id. unfold bytes_ok in Hb. rewrite Forall_forall in Hb. apply Hb. by eapply list_elem_of_lookup_2.
    + rewrite lookup_ge_None_2 by lia. simpl. rewrite Hcont by (unfold in_page; lia). unfold m1. rewrite rd_memset, decide_True; [done|].
      rewrite u32_id by (rewrite Hpg; lia). lia.
Qed.

(** ** The root directory *)

Definition root_ref (x : inode) : inode := set_i_valid 0 (set_i_ref 1 (set_i_inum ROOTINO (set_i_dev ROOTDEV x))).

Lemma iget_scan_empty l i dev inum e : Forall (fun x => i_ref x = 0) l -> iget_scan l i dev inum (Some e) = inr (Some e).
Proof. intros Hl. revert i. induction Hl as [|x l Hx Hl IH]; intros i; [done|]. cbn [iget_scan]. rewrite Hx. simpl. apply IH. Qed.

Lemma iget_root_run h s x l :
  hart_wf h -> L_itable ∉ h_held h -> k_inode s = x :: l -> Forall (fun x => i_ref x = 0) (x :: l) ->
  iget ROOTDEV ROOTINO h s = Done 0%nat (settle h) (set_k_inode (root_ref x :: l) s).
Proof.
  intros Hwf Hn Ei [Hx Hl]%Forall_cons. unfold iget. krun (acquire_run L_itable h s Hn). rewrite bind_gets, Ei.
  cbn [iget_scan]. rewrite Hx. rewrite (bool_decide_eq_true_2 (None = None)) by done. cbn [Z.ltb Z.eqb Z.compare andb]. rewrite iget_scan_empty by done. unfold inode_set. rewrite !bind_modify.
  rewrite (bind_done _ _ _ _ _ _ _ (release_run L_itable h (locked L_itable h) _ Hwf Hn (calm_refl _))).
  simpl. rewrite Ei. reflexivity.
Qed.

Lemma namei_root_run h s x l :
  hart_wf h -> L_itable ∉ h_held h -> k_inode s = x :: l -> Forall (fun x => i_ref x = 0) (x :: l) ->
  namei (str "/") h s = Done (Some 0%nat) (settle h) (set_k_inode (root_ref x :: l) s).
Proof.
  intros Hwf Hn Ei Hl. unfold namei, namex. rewrite bool_decide_eq_true_2 by reflexivity.
  by rewrite bind_assoc, (bind_done _ _ _ _ _ _ _ (iget_root_run h s x l Hwf Hn Ei Hl)).
Qed.

(** ** The trapframe *)

Lemma pspace_store t root ps fl n tf off v :
  pspace t root ps fl n tf -> page_ok tf -> tf ∉ ps -> tf ∉ fl -> tf ∉ upages (pm_mem t) root 0 n -> 0 <= off -> off + 8 <= PGSIZE ->
  let t' := set_mem (store64 (pm_mem t) (tf + off) v) t in
  pspace t' root ps fl n tf /\ upages (pm_mem t') root 0 n = upages (pm_mem t) root 0 n /\
  forall va, 0 <= va < Z.of_nat n * PGSIZE -> umem (pm_mem t') root va = umem (pm_mem t) root va.
Proof.
  intros [U Htr Htf] Hok Hps Hfl Hup Ho1 Ho2 t'. pose proof (store64_page_outside (pm_mem t) tf off v Ho1 Ho2) as Hout.
  destruct (vm_page_write t root ps fl tf _ (us_vm _ _ _ _ _ U) Hok Hps Hfl Hout) as [Hv He]; [apply store64_ok, U|]. split_and!.
  - constructor; [|intros va Hva; simpl; rewrite He; by apply Htr|intros va Hva; simpl; rewrite He; by apply Htf].
    eapply uspace_ext; [exact U|exact Hv|intros; apply He|apply U].
  - apply upages_same; [apply U|intros; apply He].
  - intros va Hva. eapply umem_outside; [exact U|exact Hout|apply He| |done].
    intros q Hq. apply list_elem_of_singleton in Hq as ->. done.
Qed.

(** ** userinit *)

(** The slot of the first process. *)
Definition first_slot (pid ticks tf root : Z) (x : proc) : proc :=
  set_p_state RUNNABLE (set_p_cwd (Some 0%nat) (set_name (str "initcode") (set_p_sz PGSIZE (ready_slot pid ticks tf root x)))).

(** Its image: one page with the code of user/initcode.S, and where it begins. *)
Record first_image (t : pm) (root tf : Z) (ps fl : list Z) : Prop := {
  fi_space : pspace t root ps fl 1 tf;
  fi_code : forall va, 0 <= va < PGSIZE -> umem (pm_mem t) root va = default 0 (initcode !! Z.to_nat va);
  fi_epc : load64 (pm_mem t) (tf + TF_epc) = 0;
  fi_sp : load64 (pm_mem t) (tf + TF_sp) = PGSIZE;
}.

(** The kernel around it: slot 0 is [y], the memory [t], the inode table [ii]. *)
Definition first_state (s : kernel) (t : pm) (ii : list inode) (y : proc) : kernel :=
  set_k_proc (<[0%nat := y]> (k_proc s)) (set_k_inode ii
    (set_k_initproc (Some 0%nat) (set_k_pm t (set_k_nextpid (i32 (k_nextpid s + 1)) s)))).

Lemma first_lookup s t ii x y : k_proc s !! 0%nat = Some x -> k_proc (first_state s t ii y) !! 0%nat = Some y.
Proof. intros Hx. apply list_lookup_insert_eq. by eapply lookup_lt_Some. Qed.

Lemma first_upd F s t ii y : upd_proc 0 F (first_state s t ii y) = first_state s t ii (F y).
Proof.
  assert (E : alter F 0%nat (<[0%nat := y]> (k_proc s)) = <[0%nat := F y]> (k_proc s)) by (by destruct (k_proc s)).
  unfold upd_proc. change (k_proc (first_state s t ii y)) with (<[0%nat := y]> (k_proc s)). by rewrite E.
Qed.

Lemma first_tf_set {B} (k : unit -> K kernel B) s t ii x y off v h : k_proc s !! 0%nat = Some x -> p_trapframe y <> 0 ->
  bind (tf_set 0 off v) k h (first_state s t ii y) =
    k tt h (first_state s (set_mem (store64 (pm_mem t) (p_trapframe y + off) v) t) ii y).
Proof.
  intros Hx Hy. unfold tf_set. rewrite bind_assoc, (bind_pget _ _ _ _ _ _ (first_lookup s t ii x y Hx)).
  by rewrite (proj2 (Z.eqb_neq _ _) Hy), bind_modify.
Qed.

Lemma initcode_ok : bytes_ok initcode /\ Z.of_nat (length initcode) < PGSIZE.
Proof.
  split; [|vm_compute; reflexivity]. unfold bytes_ok, initcode. repeat (constructor; [lia|]). constructor.
Qed.

Lemma userinit_run h s x ip l fl :
  kmem_ready h -> h_held h = [] -> length (k_proc s) = NPROC -> k_proc s !! 0%nat = Some x -> p_state x = UNUSED -> p_pagetable x = 0 ->
  free_list (k_pm s) fl -> mem_ok (pm_mem (k_pm s)) -> (9 <= length fl)%nat ->
  k_inode s = ip :: l -> Forall (fun x => i_ref x = 0) (ip :: l) ->
  exists h' t tf root ps q fl',
    userinit h s = Done tt h' (first_state s t (root_ref ip :: l) (first_slot (k_nextpid s) (k_ticks s) tf root x)) /\ calm h h' /\
    first_image t root tf ps fl' /\ fl ≡ₚ tf :: q :: ps ++ fl' /\ same_outside (tf :: q :: ps) (pm_mem (k_pm s)) (pm_mem t).
Proof.
  intros Hh Hheld Hlen Hx Hst Hpt Hf Hm Hfl Ei Hrefs. pose proof Hh as [Hwf Hk].
  assert (Hn : no_proc_lock h) by (intros i; rewrite Hheld; apply not_elem_of_nil).
  assert (Hfind : List.find (is_unused s) (upto NPROC) = Some 0%nat).
  { unfold upto, NPROC. cbn [seq List.find]. unfold is_unused at 1. rewrite Hx. by rewrite bool_decide_eq_true_2. }
  set (s1 := upd_proc 0 (used_slot (k_nextpid s) (k_ticks s)) (set_k_nextpid (i32 (k_nextpid s + 1)) s)).
  assert (Hx1 : k_proc s1 !! 0%nat = Some (used_slot (k_nextpid s) (k_ticks s) x)) by (by apply upd_proc_lookup).
  destruct (allocproc_rest_run 0 _ h s1 fl Hh (Hn 0%nat) Hx1 Hpt Hf Hm)
    as (r & g & s2 & E & [(-> & Hc & tf & root & ps & fl1 & t1 & -> & Hps & Hlps & Hall & Hr0 & Htf & Ho1)|(_ & Hl4 & _)]); [|lia].
  assert (Ea : allocproc h s = Done (Some 0%nat) g (set_k_initproc (k_initproc s) (first_state s t1 (k_inode s) (ready_slot (k_nextpid s) (k_ticks s) tf root x)))).
  { rewrite (allocproc_split 0 x) by (done || by rewrite Hheld; apply not_elem_of_nil). fold s1. rewrite E. f_equal.
    unfold s1, first_state, upd_proc. destruct s; simpl in *. f_equal. destruct k_proc; [done|]. simpl in *. by injection Hx as ->. }
  unfold userinit. rewrite (bind_done _ _ _ _ _ _ _ Ea), bind_modify. clear Ea E. cbn [deref]. ksimpl.
  change (set_k_initproc _ _) with (first_state s t1 (k_inode s) (ready_slot (k_nextpid s) (k_ticks s) tf root x)).
  rewrite (bind_pget _ _ _ _ _ _ (first_lookup s t1 (k_inode s) x _ Hx)).
  change (p_pagetable (ready_slot (k_nextpid s) (k_ticks s) tf root x)) with root.
  pose proof (Permutation_length Hall) as Hlall. cbn [length] in Hlall. rewrite length_app in Hlall.
  destruct fl1 as [|q fl1]; [cbn [length] in Hlall; lia|]. destruct initcode_ok as [Hib Hil].
  destruct (uvminit_run root ps q fl1 tf initcode g t1) as (g2 & t2 & ps2 & fl2 & E2 & Hc2 & Hps2 & Hp2 & Hsub & Ho2 & Hup2 & Hcode); try done.
  { eapply kmem_ready_calm; [exact Hc|]. split; [by apply wf_locked|]. simpl. rewrite Hheld. set_solver. }
  { cbn [length] in Hlall. lia. }
  krun (in_pm_run _ g (first_state s t1 (k_inode s) (ready_slot (k_nextpid s) (k_ticks s) tf root x)) tt g2 t2 E2).
  change (set_k_pm t2 (first_state _ _ _ ?y)) with (first_state s t2 (k_inode s) y). rewrite bind_pset, first_upd.
  pose proof (page_ok_pos tf Htf) as Htf0. rewrite !(first_tf_set _ s _ _ x) by (done || simpl; lia). simpl p_trapframe.
  pose proof (fl_nodup _ _ Hf) as Hnd. rewrite Hall in Hnd. apply NoDup_cons in Hnd as [Htn Hnd].
  assert (Hall2 : ps ++ q :: fl1 ≡ₚ q :: ps2 ++ fl2) by (by rewrite <-Permutation_middle, Hp2).
  rewrite Hall2 in Htn. apply not_elem_of_cons in Htn as [Htq [Htps Htfl]%not_elem_of_app].
  destruct (pspace_store t2 root ps2 fl2 1 tf TF_epc 0) as (Hps3 & Hup3 & Hm3); try done; [by rewrite Hup2; apply not_elem_of_cons; split; [|apply not_elem_of_nil]|].
  set (t3 := set_mem _ t2) in *.
  destruct (pspace_store t3 root ps2 fl2 1 tf TF_sp PGSIZE) as (Hps4 & Hup4 & Hm4); try done; [by rewrite Hup3, Hup2; apply not_elem_of_cons; split; [|apply not_elem_of_nil]|].
  set (t4 := set_mem _ t3) in *. rewrite bind_pset, first_upd.
  assert (Hc3 : calm (locked (L_proc 0) h) g2) by eauto with xv6. assert (Hwl : hart_wf (locked (L_proc 0) h)) by (by apply wf_locked).
  rewrite (bind_done _ _ _ _ _ _ _ (namei_root_run g2 (first_state s t4 (k_inode s) _) ip l ltac:(by eapply calm_wf) ltac:(eapply calm_notin; [exact Hc3|simpl; rewrite Hheld; set_solver]) Ei Hrefs)).
  change (set_k_inode (root_ref ip :: l) (first_state _ _ _ ?y)) with (first_state s t4 (root_ref ip :: l) y). rewrite !bind_pset, !first_upd.
  rewrite (release_run (L_proc 0) h (settle g2)); [|done|apply Hn|eauto with xv6].
  exists (settle h), t4, tf, root, ps2, q, fl2. split_and!; [reflexivity|apply calm_settle| |by rewrite Hall, Hall2|].
  2: { assert (Hstore : forall t off v, 0 <= off -> off + 8 <= PGSIZE -> same_outside (tf :: q :: ps2) (pm_mem t) (store64 (pm_mem t) (tf + off) v)).
       { intros t0 off v Ho Ho'. eapply same_outside_mono; [|by apply store64_page_outside]. apply singleton_sub. left. }
       eapply same_outside_trans; [|eapply same_outside_trans; [|eapply same_outside_trans; [by apply (Hstore t2 TF_epc 0)|by apply (Hstore t3 TF_sp PGSIZE)]]].
       - eapply same_outside_mono; [|exact Ho1]. intros y [->|Hy]%elem_of_cons; [left|right; right; by apply Hsub].
       - eapply same_outside_mono; [|exact Ho2]. intros y Hy. by right. }
  constructor; [done| | |].
  - intros va Hva. rewrite Hm4, Hm3 by (change (Z.of_nat 1) with 1; lia). by apply Hcode.
  - unfold t4. simpl. rewrite load64_store64_other by (unfold TF_epc, TF_sp; lia). apply load64_store64.
  - unfold t4. simpl. apply load64_store64.
Qed.

End userinit.
