(* ===== verification/Csr.v ===== *)
(** * Csr

    The control and status registers of a hart, the memory-mapped registers of the
    devices, and the state of the machine while it boots. The accessors of kernel/riscv.h
    with the instructions in them. *)
From stdpp Require Import base tactics list numbers gmap strings.
From S2P Require Import Prelude Machine Spinlock Printf Bytes Block Queue Kalloc Vm Kernel Proc File Trap.

(** ** Registers *)

Inductive csr :=
  | Mhartid | Mstatus | Mepc | Medeleg | Mideleg | Mie | Mscratch | Mtvec | Pmpaddr0 | Pmpcfg0
  | Mcounteren | Sstatus | Sip | Sie | Sepc | Stvec | Satp | Sscratch | Scause | Stval.

#[export] Instance csr_eq_dec : EqDecision csr.
Proof. solve_decision. Defined.

Definition csrs : Type := csr -> Z.
Definition csr_put (r : csr) (v : Z) (f : csrs) : csrs := fun r' => if decide (r' = r) then v else f r'.

Lemma csr_put_eq r v f : csr_put r v f r = v.
Proof. unfold csr_put. by rewrite decide_True. Qed.
Lemma csr_put_ne r r' v f : r' <> r -> csr_put r v f r' = f r'.
Proof. intros Hne. unfold csr_put. by rewrite decide_False. Qed.

(** A core: its registers, its program counter when it changes mode, the mode (3 machine,
    1 supervisor, 0 user), and whether its TLB may hold translations of an earlier satp. *)
Record core := Core { co_csr : csrs; co_pc : Z; co_priv : Z; co_stale : bool }.

(** The drivers that devsw[] can name. *)
Inductive driver := D_console.

Record board := Board {
  bd_kernel : kernel;
  bd_kernel_pagetable : Z;
  bd_started : Z;
  bd_devsw : list (option driver);
  bd_timer_scratch : list (list Z);
  bd_core : list core;
  bd_mmio : list (Z * Z);   (* the writes to device registers, the latest first *)
}.

Definition set_bd_kernel (v : kernel) (b : board) : board :=
  Board v (bd_kernel_pagetable b) (bd_started b) (bd_devsw b) (bd_timer_scratch b) (bd_core b) (bd_mmio b).
Definition set_bd_kernel_pagetable (v : Z) (b : board) : board :=
  Board (bd_kernel b) v (bd_started b) (bd_devsw b) (bd_timer_scratch b) (bd_core b) (bd_mmio b).
Definition set_bd_started (v : Z) (b : board) : board :=
  Board (bd_kernel b) (bd_kernel_pagetable b) v (bd_devsw b) (bd_timer_scratch b) (bd_core b) (bd_mmio b).
Definition set_bd_devsw (v : list (option driver)) (b : board) : board :=
  Board (bd_kernel b) (bd_kernel_pagetable b) (bd_started b) v (bd_timer_scratch b) (bd_core b) (bd_mmio b).
Definition set_bd_timer_scratch (v : list (list Z)) (b : board) : board :=
  Board (bd_kernel b) (bd_kernel_pagetable b) (bd_started b) (bd_devsw b) v (bd_core b) (bd_mmio b).
Definition set_bd_core (v : list core) (b : board) : board :=
  Board (bd_kernel b) (bd_kernel_pagetable b) (bd_started b) (bd_devsw b) (bd_timer_scratch b) v (bd_mmio b).
Definition set_bd_mmio (v : list (Z * Z)) (b : board) : board :=
  Board (bd_kernel b) (bd_kernel_pagetable b) (bd_started b) (bd_devsw b) (bd_timer_scratch b) (bd_core b) v.

Definition in_kernel {A} : K kernel A -> K board A := zoom bd_kernel set_bd_kernel.

(** ** Device registers *)

(** What a register of a device reads after the given writes; the devices are not part of
    the program. *)
Class Mmio := mmio : list (Z * Z) -> Z -> Z.

Section devices.
Context `{Mmio}.

Definition mmio_read (w a : Z) : K board Z := gets (fun b => mmio (bd_mmio b) a mod 2 ^ w).
Definition mmio_write (w a v : Z) : K board unit := modify (fun b => set_bd_mmio ((a, v mod 2 ^ w) :: bd_mmio b) b).

End devices.

(** ** riscv.h *)

(** [me] is the hart that runs. *)
Section registers.
Context (me : nat).

Definition core_get {A} (f : core -> A) : K board A := c <- gets (fun b => bd_core b !! me);; c <- deref c;; ret (f c).
Definition core_set (f : core -> core) : K board unit := modify (fun b => set_bd_core (alter f me (bd_core b)) b).
Definition csrr (r : csr) : K board Z := core_get (fun c => co_csr c r).
Definition csrw (r : csr) (v : Z) : K board unit :=
  core_set (fun c => Core (csr_put r v (co_csr c)) (co_pc c) (co_priv c) (co_stale c)).

Definition r_mhartid : K board Z := csrr Mhartid.
Definition r_mstatus : K board Z := csrr Mstatus.
Definition w_mstatus : Z -> K board unit := csrw Mstatus.
Definition w_mepc : Z -> K board unit := csrw Mepc.
Definition r_sie : K board Z := csrr Sie.
Definition w_sie : Z -> K board unit := csrw Sie.
Definition r_mie : K board Z := csrr Mie.
Definition w_mie : Z -> K board unit := csrw Mie.
Definition w_medeleg : Z -> K board unit := csrw Medeleg.
Definition w_mideleg : Z -> K board unit := csrw Mideleg.
Definition w_stvec : Z -> K board unit := csrw Stvec.
Definition w_mtvec : Z -> K board unit := csrw Mtvec.
Definition w_pmpcfg0 : Z -> K board unit := csrw Pmpcfg0.
Definition w_pmpaddr0 : Z -> K board unit := csrw Pmpaddr0.
Definition w_mscratch : Z -> K board unit := csrw Mscratch.

(** A new table, while the TLB still has the old one. *)
Definition w_satp (v : Z) : K board unit :=
  csrw Satp v;;
  core_set (fun c => Core (co_csr c) (co_pc c) (co_priv c) true).
Definition sfence_vma : K board unit := core_set (fun c => Core (co_csr c) (co_pc c) (co_priv c) false).

Definition w_tp (v : Z) : K board unit :=
  h <- get_hart;; put_hart (Hart v (h_proc h) (h_noff h) (h_intena h) (h_sie h) (h_held h)).

(** mret: to the address in mepc and the mode in mstatus.MPP; MIE takes the value of MPIE,
    which becomes 1, and MPP becomes user mode. *)
Definition MSTATUS_MPP_MASK : Z := Z.shiftl 3 11.
Definition MSTATUS_MPP_S : Z := Z.shiftl 1 11.
Definition MSTATUS_MIE : Z := Z.shiftl 1 3.
Definition MSTATUS_MPIE : Z := Z.shiftl 1 7.
Definition mret : K board unit :=
  core_set (fun c =>
    let x := co_csr c Mstatus in
    let y := Z.ldiff x (Z.lor MSTATUS_MIE MSTATUS_MPP_MASK) in
    let y := if Z.testbit x 7 then Z.lor y MSTATUS_MIE else y in
    Core (csr_put Mstatus (Z.lor y MSTATUS_MPIE) (co_csr c)) (co_csr c Mepc) (Z.land (Z.shiftr x 11) 3) (co_stale c)).

End registers.
