(* ===== verification/Boot.v ===== *)
(** * Boot

    From the reset of the machine to scheduler(): kernel/start.c, kernel/main.c,
    kernel/plic.c, and the initialisation of the console, the UART, the disk and the page
    tables. *)
From stdpp Require Import base tactics list numbers gmap strings.
From S2P Require Import Prelude Machine Spinlock Printf Bytes Block Queue Kalloc Vm Kernel Proc.
From S2P Require Import Sleeplock Virtio Bio Log Fs Console Pipe File Fork Trap Csr.

(** Addresses that the linker chooses. *)
Class BootSymbols := {
  sym_main : Z;
  sym_timervec : Z;
  sym_timer_scratch : Z;
  sym_disk_pages : Z;
}.

(** ** memlayout.h *)

Definition CLINT : Z := 0x2000000.
Definition CLINT_MTIMECMP (hartid : Z) : Z := CLINT + 0x4000 + 8 * hartid.
Definition CLINT_MTIME : Z := CLINT + 0xBFF8.
Definition PLIC_SENABLE (hart : Z) : Z := PLIC + 0x2080 + hart * 0x100.
Definition PLIC_SPRIORITY (hart : Z) : Z := PLIC + 0x201000 + hart * 0x2000.
Definition PLIC_SCLAIM (hart : Z) : Z := PLIC + 0x201004 + hart * 0x2000.

Definition NCPU : nat := 8.
Definition SIE_SEIE : Z := Z.shiftl 1 9.
Definition SIE_STIE : Z := Z.shiftl 1 5.
Definition SIE_SSIE : Z := Z.shiftl 1 1.
Definition MIE_MTIE : Z := Z.shiftl 1 7.

(** ** Registers of the devices: uart.c and virtio.h *)

Abbreviation IER := (1)%Z.
Abbreviation IER_RX_ENABLE := (Z.shiftl 1 0)%Z.
Abbreviation IER_TX_ENABLE := (Z.shiftl 1 1)%Z.
Abbreviation FCR := (2)%Z.
Abbreviation FCR_FIFO_ENABLE := (Z.shiftl 1 0)%Z.
Abbreviation FCR_FIFO_CLEAR := (Z.shiftl 3 1)%Z.
Abbreviation LCR := (3)%Z.
Abbreviation LCR_EIGHT_BITS := (Z.shiftl 3 0)%Z.
Abbreviation LCR_BAUD_LATCH := (Z.shiftl 1 7)%Z.

Abbreviation VIRTIO_MMIO_MAGIC_VALUE := (0x000)%Z.
Abbreviation VIRTIO_MMIO_VERSION := (0x004)%Z.
Abbreviation VIRTIO_MMIO_DEVICE_ID := (0x008)%Z.
Abbreviation VIRTIO_MMIO_VENDOR_ID := (0x00c)%Z.
Abbreviation VIRTIO_MMIO_DEVICE_FEATURES := (0x010)%Z.
Abbreviation VIRTIO_MMIO_DRIVER_FEATURES := (0x020)%Z.
Abbreviation VIRTIO_MMIO_GUEST_PAGE_SIZE := (0x028)%Z.
Abbreviation VIRTIO_MMIO_QUEUE_SEL := (0x030)%Z.
Abbreviation VIRTIO_MMIO_QUEUE_NUM_MAX := (0x034)%Z.
Abbreviation VIRTIO_MMIO_QUEUE_NUM := (0x038)%Z.
Abbreviation VIRTIO_MMIO_QUEUE_PFN := (0x040)%Z.
Abbreviation VIRTIO_MMIO_STATUS := (0x070)%Z.
Abbreviation VIRTIO_CONFIG_S_ACKNOWLEDGE := (1)%Z.
Abbreviation VIRTIO_CONFIG_S_DRIVER := (2)%Z.
Abbreviation VIRTIO_CONFIG_S_DRIVER_OK := (4)%Z.
Abbreviation VIRTIO_CONFIG_S_FEATURES_OK := (8)%Z.

Section boot.
Context `{Layout} `{Symbols} `{BootSymbols} `{WaitFuel} `{Mmio} (pol : policy) (me : nat).

(** ** start.c *)

Definition timerinit : K board unit :=
  id <- r_mhartid me;;
  let id := i32 id in
  let interval := 1000000 in
  t <- mmio_read 64 CLINT_MTIME;;
  mmio_write 64 (CLINT_MTIMECMP id) (t + interval);;
  scratch <- gets (fun b => bd_timer_scratch b !! Z.to_nat id);;
  deref scratch;;
  modify (fun b => set_bd_timer_scratch (alter (fun x => <[4%nat := interval]> (<[3%nat := CLINT_MTIMECMP id]> x)) (Z.to_nat id) (bd_timer_scratch b)) b);;
  w_mscratch me (sym_timer_scratch + id * 40);;
  w_mtvec me sym_timervec;;
  x <- r_mstatus me;;
  w_mstatus me (Z.lor x MSTATUS_MIE);;
  x <- r_mie me;;
  w_mie me (Z.lor x MIE_MTIE).

Definition start : K board unit :=
  x <- r_mstatus me;;
  let x := Z.land x (Z.lnot MSTATUS_MPP_MASK) in
  let x := Z.lor x MSTATUS_MPP_S in
  w_mstatus me x;;
  w_mepc me sym_main;;
  w_satp me 0;;
  w_medeleg me 0xffff;;
  w_mideleg me 0xffff;;
  x <- r_sie me;;
  w_sie me (Z.lor (Z.lor (Z.lor x SIE_SEIE) SIE_STIE) SIE_SSIE);;
  w_pmpaddr0 me 0x3fffffffffffff;;
  w_pmpcfg0 me 0xf;;
  timerinit;;
  id <- r_mhartid me;;
  w_tp (i32 id);;
  mret me.

(** ** plic.c *)

Definition plicinit : K board unit :=
  mmio_write 32 (PLIC + UART0_IRQ * 4) 1;;
  mmio_write 32 (PLIC + VIRTIO0_IRQ * 4) 1.

Definition plicinithart : K board unit :=
  hart <- cpuid;;
  mmio_write 32 (PLIC_SENABLE hart) (Z.lor (Z.shiftl 1 UART0_IRQ) (Z.shiftl 1 VIRTIO0_IRQ));;
  mmio_write 32 (PLIC_SPRIORITY hart) 0.

Definition plic_claim : K board Z :=
  hart <- cpuid;;
  irq <- mmio_read 32 (PLIC_SCLAIM hart);;
  ret (i32 irq).

Definition plic_complete (irq : Z) : K board unit :=
  hart <- cpuid;;
  mmio_write 32 (PLIC_SCLAIM hart) irq.

(** ** uart.c, console.c, printf.c *)

Definition WriteReg (reg v : Z) : K board unit := mmio_write 8 (UART0 + reg) v.

(** initlock is left out here and below: a lock begins released. *)
Definition uartinit : K board unit :=
  WriteReg IER 0x00;;
  WriteReg LCR LCR_BAUD_LATCH;;
  WriteReg 0 0x03;;
  WriteReg 1 0x00;;
  WriteReg LCR LCR_EIGHT_BITS;;
  WriteReg FCR (Z.lor FCR_FIFO_ENABLE FCR_FIFO_CLEAR);;
  WriteReg IER (Z.lor IER_TX_ENABLE IER_RX_ENABLE).

Definition consoleinit : K board unit :=
  uartinit;;
  modify (fun b => set_bd_devsw (<[Z.to_nat CONSOLE := Some D_console]> (bd_devsw b)) b).

Definition printfinit : K board unit :=
  in_kernel (in_tty (modify (fun t => Tty (tty_out t) true (panicked t)))).

(** ** vm.c, trap.c *)

Definition kvminit : K board unit :=
  p <- in_kernel (in_pm kvmmake);;
  modify (set_bd_kernel_pagetable p).

Definition kvminithart : K board unit :=
  p <- gets bd_kernel_pagetable;;
  w_satp me (MAKE_SATP p);;
  sfence_vma me.

Definition trapinithart : K board unit := w_stvec me sym_kernelvec.

(** ** virtio_disk.c *)

Definition rd_R (r : Z) : K board Z := mmio_read 32 (VIRTIO0 + r).
Definition wr_R (r v : Z) : K board unit := mmio_write 32 (VIRTIO0 + r) v.

(** [features &= ~(1 << bit)] for the bits of the source, in its order: RO, SCSI,
    CONFIG_WCE, MQ, ANY_LAYOUT, EVENT_IDX, INDIRECT_DESC. *)
Definition virtio_features (features : Z) : Z :=
  foldl (fun f bit => Z.land f (Z.lnot (Z.shiftl 1 bit))) features [5; 7; 11; 12; 27; 29; 28].

(** [memset] of the two pages that hold the descriptors and the rings. *)
Definition clear_pages (k : disk_t) : disk_t :=
  set_d_used_ring (replicate NUM 0) (set_d_used_idx 0 (set_d_avail_ring (replicate NUM 0) (set_d_avail_idx 0
    (set_d_desc (replicate NUM (Desc A_none 0 0 0)) k)))).

Definition virtio_disk_init : K board unit :=
  magic <- rd_R VIRTIO_MMIO_MAGIC_VALUE;;
  version <- rd_R VIRTIO_MMIO_VERSION;;
  device <- rd_R VIRTIO_MMIO_DEVICE_ID;;
  vendor <- rd_R VIRTIO_MMIO_VENDOR_ID;;
  if negb (magic =? 0x74726976) || negb (version =? 1) || negb (device =? 2) || negb (vendor =? 0x554d4551)
  then panic "could not find virtio disk" else
  let status := Z.lor 0 VIRTIO_CONFIG_S_ACKNOWLEDGE in
  wr_R VIRTIO_MMIO_STATUS status;;
  let status := Z.lor status VIRTIO_CONFIG_S_DRIVER in
  wr_R VIRTIO_MMIO_STATUS status;;
  features <- rd_R VIRTIO_MMIO_DEVICE_FEATURES;;
  wr_R VIRTIO_MMIO_DRIVER_FEATURES (virtio_features features);;
  let status := Z.lor status VIRTIO_CONFIG_S_FEATURES_OK in
  wr_R VIRTIO_MMIO_STATUS status;;
  let status := Z.lor status VIRTIO_CONFIG_S_DRIVER_OK in
  wr_R VIRTIO_MMIO_STATUS status;;
  wr_R VIRTIO_MMIO_GUEST_PAGE_SIZE PGSIZE;;
  wr_R VIRTIO_MMIO_QUEUE_SEL 0;;
  max <- rd_R VIRTIO_MMIO_QUEUE_NUM_MAX;;
  if max =? 0 then panic "virtio disk has no queue 0" else
  if max <? Z.of_nat NUM then panic "virtio disk max queue too short" else
  wr_R VIRTIO_MMIO_QUEUE_NUM (Z.of_nat NUM);;
  in_kernel (modify (fun s => set_k_disk (clear_pages (k_disk s)) s));;
  wr_R VIRTIO_MMIO_QUEUE_PFN (Z.shiftr sym_disk_pages 12);;
  in_kernel (forM (upto NUM) (fun i => modify (fun s => set_k_disk (set_d_free (<[i := true]> (d_free (k_disk s))) (k_disk s)) s))).

(** ** main.c *)

(** [while (started == 0);] on a hart of its own: only another hart ends it. *)
Definition wait_started : K board unit :=
  x <- gets bd_started;;
  if x =? 0 then nofuel else ret tt.

Definition nl : string := String (Ascii.ascii_of_nat 10) EmptyString.

(** main up to its call of scheduler. *)
Definition main_init : K board unit :=
  id <- cpuid;;
  if id =? 0 then
    consoleinit;;
    printfinit;;
    in_kernel (kprintf nl []);;
    in_kernel (kprintf ("xv6 kernel is booting" ++ nl) []);;
    in_kernel (kprintf nl []);;
    in_kernel (in_pm kinit);;
    kvminit;;
    kvminithart;;
    in_kernel procinit;;
    trapinithart;;
    plicinit;;
    plicinithart;;
    in_kernel binit;;
    in_kernel iinit;;
    virtio_disk_init;;
    in_kernel userinit;;
    modify (set_bd_started 1)
  else
    wait_started;;
    in_kernel (kprintf ("hart %d starting" ++ nl) [VInt id]);;
    kvminithart;;
    trapinithart;;
    plicinithart.

Definition main (fuel : nat) : K board unit :=
  main_init;;
  in_kernel (scheduler pol fuel).

End boot.
