(* ===== verification/BootProps.v ===== *)
(** * BootProps

    The machine boots: start() brings a hart to main() in supervisor mode, and main()
    establishes the state that the theorems about the kernel begin with. *)
From stdpp Require Import base tactics list numbers gmap strings relations sets.
From S2P Require Import Prelude Machine Spinlock Printf Bytes Block Queue Kalloc Vm Pagetable VmSpec UserMem KernelMap Kernel Proc ProcFacts.
From S2P Require Import Sleeplock Virtio Bio Log Fs Console Pipe File Fork Exec Sysfile Trap Discipline Balance KernelInv.
From S2P Require Import Examples Scheduler ProcProps ProcMem BioProps Storage BlockIO System UserInit Csr Boot.

(** ** Parts of the machine *)

Lemma in_kernel_run {A} (m : K kernel A) h b a h' s' :
  m h (bd_kernel b) = Done a h' s' -> in_kernel m h b = Done a h' (set_bd_kernel s' b).
Proof. intros E. unfold in_kernel, zoom. by rewrite E. Qed.

Lemma bind_cpuid {S A} (f : Z -> K S A) h s : bind cpuid f h s = f (h_tp h) h s.
Proof. done. Qed.

(** ** Loops over the tables *)

Lemma forM_alter {S A} (get : S -> list A) (put : list A -> S -> S) (body : nat -> K S unit) (f : nat -> A -> A) h s :
  (forall s, put (get s) s = s) -> (forall l s, get (put l s) = l) -> (forall l l' s, put l (put l' s) = put l s) ->
  (forall i h s, body i h s = Done tt h (put (alter (f i) i (get s)) s)) ->
  forM (upto (length (get s))) body h s = Done tt h (put (imap f (get s)) s).
Proof.
  intros H1 H2 H3 Hb. unfold upto.
  cut (forall l2 l1 s, get s = l1 ++ l2 -> forM (seq (length l1) (length l2)) body h s = Done tt h (put (l1 ++ imap (fun i => f (length l1 + i)%nat) l2) s)).
  { intros Hc. exact (Hc (get s) [] s eq_refl). }
  clear s. induction l2 as [|x l2 IH]; intros l1 s Es.
  - simpl. by rewrite <-Es, H1.
  - cbn [length seq forM]. rewrite (bind_done _ _ _ _ _ _ _ (Hb _ _ _)).
    assert (Ea : alter (f (length l1)) (length l1) (get s) = (l1 ++ [f (length l1) x]) ++ l2).
    { rewrite Es, alter_app_r_alt, Nat.sub_diag, <-app_assoc by lia. done. }
    pose proof (IH (l1 ++ [f (length l1) x]) (put ((l1 ++ [f (length l1) x]) ++ l2) s) (H2 _ _)) as IH'.
    rewrite length_app, Nat.add_1_r in IH'. rewrite Ea, IH', H3, <-app_assoc. simpl.
    rewrite Nat.add_0_r, (imap_ext _ ((fun i => f (length l1 + i)%nat) ∘ Datatypes.S)); [done|]. intros i y _. simpl. f_equal. lia.
Qed.

Lemma alter_insert_eq {A} (f : A -> A) (i : nat) (l : list A) x : l !! i = Some x -> alter f i l = <[i := f x]> l.
Proof.
  revert i. induction l as [|y l IH]; intros [|i] Hx; simplify_eq/=; [done|]. f_equal. by apply IH.
Qed.

Lemma alter_insert_same {A} (f : A -> A) (i : nat) (l : list A) x : alter f i (<[i := x]> l) = <[i := f x]> l.
Proof. revert l. induction i as [|i IH]; intros [|y l]; simpl; try done. f_equal. apply IH. Qed.

(** ** Properties that a computation keeps when it returns *)

Definition keeps {S A} (P : S -> Prop) (m : K S A) : Prop := forall h s a h' s', m h s = Done a h' s' -> P s -> P s'.

Lemma keeps_ret {S A} (P : S -> Prop) (a : A) : keeps P (ret a).
Proof. intros h s a' h' s' [= <- <- <-]. done. Qed.
Lemma keeps_gets {S A} (P : S -> Prop) (f : S -> A) : keeps P (gets f).
Proof. intros h s a' h' s' [= <- <- <-]. done. Qed.
Lemma keeps_modify {S} (P : S -> Prop) (f : S -> S) : (forall s, P s -> P (f s)) -> keeps P (modify f).
Proof. intros Hf h s a' h' s' [= <- <- <-]. apply Hf. Qed.
Lemma keeps_deref {S A} (P : S -> Prop) (o : option A) : keeps P (deref o).
Proof. destruct o; [apply keeps_ret|]. intros h s a h' s' [=]. Qed.
Lemma keeps_bind {S A B} (P : S -> Prop) (m : K S A) (f : A -> K S B) : keeps P m -> (forall a, keeps P (f a)) -> keeps P (bind m f).
Proof.
  intros Hm Hf h s b h' s' E HP. unfold bind in E. destruct (m h s) as [a h1 s1| | |] eqn:Em; try done. simpl in E.
  eapply Hf; [exact E|]. by eapply Hm.
Qed.
Lemma keeps_forM {S X} (P : S -> Prop) (l : list X) (f : X -> K S unit) : (forall x, keeps P (f x)) -> keeps P (forM l f).
Proof. intros Hf. induction l; [apply keeps_ret|by apply keeps_bind]. Qed.

(** ** The buffer cache is cold *)

Definition cold (s : kernel) : Prop := forall b x, bc_buf (k_bcache s) !! b = Some x ->
  b_disk x = 0 /\ b_dev x = 0 /\ b_refcnt x = 0 /\ sl_locked (b_lock x) = 0.

Lemma cold_alter f b s : cold s ->
  (forall x, b_disk x = 0 /\ b_dev x = 0 /\ b_refcnt x = 0 /\ sl_locked (b_lock x) = 0 ->
     b_disk (f x) = 0 /\ b_dev (f x) = 0 /\ b_refcnt (f x) = 0 /\ sl_locked (b_lock (f x)) = 0) ->
  cold (set_k_bcache (set_bc_buf (alter f b (bc_buf (k_bcache s))) (k_bcache s)) s).
Proof.
  intros Hc Hf b' x' Hx. simpl in Hx. destruct (decide (b' = b)) as [->|Hne].
  - rewrite list_lookup_alter_eq in Hx. destruct (bc_buf (k_bcache s) !! b) as [x|] eqn:E; [|done]. simplify_eq/=. by apply Hf, (Hc b).
  - rewrite list_lookup_alter_ne in Hx by done. by apply (Hc b').
Qed.

Lemma keeps_cold_binit `{Layout} `{Symbols} `{WaitFuel} : keeps cold binit.
Proof.
  assert (Hset : forall n v, keeps cold (bc_set (set_next n v)) /\ keeps cold (bc_set (set_prev n v))).
  { intros n v. unfold bc_set, set_next, set_prev. split; apply keeps_modify; intros s Hc; destruct (n =? NBUF)%nat;
      [exact Hc|apply cold_alter; [done|auto]|exact Hc|apply cold_alter; [done|auto]]. }
  assert (Hget : forall n, keeps cold (get_next n)).
  { intros n. apply keeps_bind; [apply keeps_gets|]. intros o. apply keeps_deref. }
  assert (Hlock : forall b f, (forall x, sl_locked x = 0 -> sl_locked (f x) = 0) -> keeps cold (sl_set (SL_buf b) f)).
  { intros b f Hf. apply keeps_modify. intros s Hc. apply cold_alter; [done|]. intros x (? & ? & ? & ?). simpl. auto. }
  unfold binit, initsleeplock.
  repeat lazymatch goal with
  | |- keeps _ (bind _ _) => apply keeps_bind; [|intros ?]
  | |- keeps _ (forM _ _) => apply keeps_forM; intros ?
  | |- keeps _ (get_next _) => apply Hget
  | |- keeps _ (bc_set _) => apply Hset
  | |- keeps _ (sl_set _ _) => apply Hlock; auto
  end.
Qed.

Section tables.
Context `{Layout} `{Symbols} `{WaitFuel}.

Lemma procinit_run h s : length (k_proc s) = NPROC ->
  procinit h s = Done tt h (set_k_proc (imap (fun i => set_p_kstack (KSTACK (Z.of_nat i))) (k_proc s)) s).
Proof.
  intros Hl. unfold procinit. rewrite <-Hl.
  apply (forM_alter k_proc set_k_proc); [by intros []|done|done|done].
Qed.

Definition unlocked_inode (x : inode) : inode := set_i_lock (SleepLock 0 0) x.

Lemma iinit_run h s : length (k_inode s) = NINODE -> iinit h s = Done tt h (set_k_inode (unlocked_inode <$> k_inode s) s).
Proof.
  intros Hl. unfold iinit. rewrite <-Hl.
  rewrite (forM_alter k_inode set_k_inode _ (fun _ => unlocked_inode)); [|by intros []|done|done|].
  - do 2 f_equal. clear. induction (k_inode s) as [|x l IH]; [done|]. rewrite imap_cons. simpl. f_equal. exact IH.
  - intros i h' s'. unfold initsleeplock, sl_set, inode_set. rewrite bind_modify. unfold modify. simpl. by rewrite alter_comp.
Qed.

Lemma insert_alter {A} (i : nat) (x : A) (l : list A) : <[i := x]> l = alter (fun _ => x) i l.
Proof. revert i. induction l as [|y l IH]; intros [|i]; simpl; try done. f_equal. apply IH. Qed.

Lemma free_all_run h s n : length (d_free (k_disk s)) = n ->
  forM (upto n) (fun i => modify (fun s => set_k_disk (set_d_free (<[i := true]> (d_free (k_disk s))) (k_disk s)) s)) h s =
  Done tt h (set_k_disk (set_d_free (replicate n true) (k_disk s)) s).
Proof.
  intros <-. rewrite (forM_alter (fun s => d_free (k_disk s)) (fun l s => set_k_disk (set_d_free l (k_disk s)) s) _ (fun _ _ => true));
    [|by intros []; simpl; destruct k_disk|done|done|].
  - do 2 f_equal. f_equal. clear. induction (d_free (k_disk s)) as [|x l IH]; [done|]. rewrite imap_cons. simpl. f_equal. exact IH.
  - intros i h' s'. unfold modify. by rewrite insert_alter.
Qed.

End tables.

(** ** The disk *)

(** The virtio block device answers. *)
Class VirtioPresent `{Mmio} : Prop := {
  vp_magic w : mmio w (VIRTIO0 + VIRTIO_MMIO_MAGIC_VALUE) mod 2 ^ 32 = 0x74726976;
  vp_version w : mmio w (VIRTIO0 + VIRTIO_MMIO_VERSION) mod 2 ^ 32 = 1;
  vp_device w : mmio w (VIRTIO0 + VIRTIO_MMIO_DEVICE_ID) mod 2 ^ 32 = 2;
  vp_vendor w : mmio w (VIRTIO0 + VIRTIO_MMIO_VENDOR_ID) mod 2 ^ 32 = 0x554d4551;
  vp_queue w : Z.of_nat NUM <= mmio w (VIRTIO0 + VIRTIO_MMIO_QUEUE_NUM_MAX) mod 2 ^ 32;
}.

(** The writes of virtio_disk_init, the latest first. *)
Definition virtio_writes `{BootSymbols} (features : Z) : list (Z * Z) :=
  [(VIRTIO0 + VIRTIO_MMIO_QUEUE_PFN, Z.shiftr sym_disk_pages 12 mod 2 ^ 32); (VIRTIO0 + VIRTIO_MMIO_QUEUE_NUM, 8);
   (VIRTIO0 + VIRTIO_MMIO_QUEUE_SEL, 0); (VIRTIO0 + VIRTIO_MMIO_GUEST_PAGE_SIZE, 4096);
   (VIRTIO0 + VIRTIO_MMIO_STATUS, 15); (VIRTIO0 + VIRTIO_MMIO_STATUS, 11);
   (VIRTIO0 + VIRTIO_MMIO_DRIVER_FEATURES, virtio_features features mod 2 ^ 32);
   (VIRTIO0 + VIRTIO_MMIO_STATUS, 3); (VIRTIO0 + VIRTIO_MMIO_STATUS, 1)].

Lemma virtio_disk_init_run `{BootSymbols} `{VirtioPresent} h b : length (d_free (k_disk (bd_kernel b))) = NUM ->
  exists features, virtio_disk_init h b = Done tt h (set_bd_kernel (set_k_disk
      (set_d_free (replicate NUM true) (clear_pages (k_disk (bd_kernel b)))) (bd_kernel b))
    (set_bd_mmio (virtio_writes features ++ bd_mmio b) b)).
Proof.
  intros Hl. unfold virtio_disk_init, rd_R, wr_R, mmio_read, mmio_write. rewrite !bind_gets, vp_magic, vp_version, vp_device, vp_vendor.
  cbn [negb orb Z.eqb Pos.eqb]. rewrite !bind_modify, bind_gets, !bind_modify, bind_gets.
  match goal with |- context [mmio ?w (VIRTIO0 + VIRTIO_MMIO_QUEUE_NUM_MAX)] => pose proof (vp_queue w) as Hq end.
  rewrite (proj2 (Z.eqb_neq _ _)), (proj2 (Z.ltb_ge _ _)) by (unfold NUM in *; lia). rewrite bind_modify.
  eexists.
  erewrite (bind_done (in_kernel (modify _))) by reflexivity. rewrite bind_modify.
  erewrite in_kernel_run; [|apply free_all_run; exact Hl].
  cbv [bd_mmio set_bd_mmio bd_kernel set_bd_kernel bd_kernel_pagetable bd_started bd_devsw bd_timer_scratch bd_core].
  unfold virtio_writes. reflexivity.
Qed.

(** ** The phases of main on the first hart *)

Section main.
Context `{LayoutOk} `{Symbols} `{BootSymbols} `{WaitFuel} `{VirtioPresent}.
Implicit Types (s : kernel) (h : hart) (b : board).

(** The initial data of the kernel: all zero, except nextpid. *)
Record static_data s : Prop := {
  sd_mem : mem_ok (pm_mem (k_pm s)) /\ pm_freelist (k_pm s) = 0;
  sd_tty : panicked (k_tty s) = false;
  sd_proc : k_proc s = replicate NPROC zero_proc;
  sd_nextpid : k_nextpid s = 1;
  sd_mlfq : length (k_mlfq s) = NMLFQ;
  sd_buf : bc_buf (k_bcache s) = replicate NBUF zero_buf;
  sd_log : log_wf (k_log s);
  sd_inode : k_inode s = replicate NINODE zero_inode;
  sd_file : length (k_file s) = NFILE;
  sd_pipe : k_pipe s = ∅;
  sd_cons : cons_wf (k_cons s) /\ uart_wf (k_uart s);
  sd_disk : disk_wf (k_disk s) /\ d_seen_idx (k_disk s) = 0;
}.

(** A hart that runs kernel code without locks and with interrupts off. *)
Record bare h : Prop := { ba_wf : hart_wf h; ba_held : h_held h = []; ba_noff : h_noff h = 0; ba_sie : h_sie h = false }.

Lemma bare_notin h lk : bare h -> lk ∉ h_held h.
Proof. intros Hb. rewrite (ba_held _ Hb). apply not_elem_of_nil. Qed.

Lemma bare_calm h h' : bare h -> calm h h' -> bare h' /\ h_tp h' = h_tp h.
Proof.
  intros [Hwf Hh Hn Hs] Hc. assert (Hwf' : hart_wf h') by (by eapply calm_wf).
  destruct Hc as [-> | ->]; [done|]. unfold settle in *. rewrite Hn in *. by split; [constructor|].
Qed.

Lemma bare_ready h : bare h -> kmem_ready h.
Proof. intros Hb. split; [apply Hb|by apply bare_notin]. Qed.

(** The writes of uartinit. *)
Definition uart_writes : list (Z * Z) :=
  [(UART0 + IER, 3); (UART0 + FCR, 7); (UART0 + LCR, 3); (UART0 + 1, 0); (UART0, 3); (UART0 + LCR, 128); (UART0 + IER, 0)].

Lemma boot_console {B} (k : K board B) h b : bare h -> panicked (k_tty (bd_kernel b)) = false ->
  exists t h', (consoleinit;; printfinit;; in_kernel (kprintf nl []);; in_kernel (kprintf ("xv6 kernel is booting" ++ nl) []);; in_kernel (kprintf nl []);; k) h b =
    k h' (set_bd_kernel (set_k_tty t (bd_kernel b)) (set_bd_devsw (<[Z.to_nat CONSOLE := Some D_console]> (bd_devsw b)) (set_bd_mmio (uart_writes ++ bd_mmio b) b))) /\
    calm h h' /\ panicked t = false.
Proof.
  intros Hb Hp.
  set (b1 := set_bd_devsw (<[Z.to_nat CONSOLE := Some D_console]> (bd_devsw b)) (set_bd_mmio (uart_writes ++ bd_mmio b) b)).
  assert (Ec : consoleinit h b = Done tt h b1) by reflexivity. rewrite (bind_done _ _ _ _ _ _ _ Ec). clear Ec. set (t1 := Tty (tty_out (k_tty (bd_kernel b))) true (panicked (k_tty (bd_kernel b)))).
  assert (E0 : printfinit h b1 = Done tt h (set_bd_kernel (set_k_tty t1 (bd_kernel b1)) b1)) by reflexivity. rewrite (bind_done _ _ _ _ _ _ _ E0).
  destruct (kprintf_run nl [] h (set_k_tty t1 (bd_kernel b1))) as (bs1 & h1 & E1 & Hc1); [done|apply Hb|done|by apply bare_notin|].
  rewrite (bind_done _ _ _ _ _ _ _ (in_kernel_run _ _ (set_bd_kernel _ _) _ _ _ E1)). destruct (bare_calm _ _ Hb Hc1) as [Hb1 _].
  match goal with |- context [bind _ _ h1 ?b2] => destruct (kprintf_run ("xv6 kernel is booting" ++ nl) [] h1 (bd_kernel b2)) as (bs2 & h2 & E2 & Hc2); [done|apply Hb1|done|by apply bare_notin|] end.
  rewrite (bind_done _ _ _ _ _ _ _ (in_kernel_run _ _ _ _ _ _ E2)). destruct (bare_calm _ _ Hb1 Hc2) as [Hb2 _].
  match goal with |- context [bind _ _ h2 ?b2] => destruct (kprintf_run nl [] h2 (bd_kernel b2)) as (bs3 & h3 & E3 & Hc3); [done|apply Hb2|done|by apply bare_notin|] end.
  rewrite (bind_done _ _ _ _ _ _ _ (in_kernel_run _ _ _ _ _ _ E3)).
  eexists _, h3. split; [reflexivity|]. split; [eauto with xv6|done].
Qed.

(** Paging is on with table [root], and traps in the kernel go to kernelvec. *)
Definition paging (root : Z) (c : core) : core := Core (csr_put Satp (MAKE_SATP root) (co_csr c)) (co_pc c) (co_priv c) false.
Definition trapping (c : core) : core := Core (csr_put Stvec sym_kernelvec (co_csr c)) (co_pc c) (co_priv c) (co_stale c).

Lemma kvminithart_run me h b : kvminithart me h b = Done tt h (set_bd_core (alter (paging (bd_kernel_pagetable b)) me (bd_core b)) b).
Proof.
  unfold kvminithart, w_satp, csrw, sfence_vma, core_set. rewrite bind_gets, bind_assoc, !bind_modify. unfold modify. simpl.
  by rewrite !alter_comp.
Qed.

(** The pages the boot uses. *)
Definition BOOTPAGES : Z := 150.

Lemma all_free_nodup : NoDup all_free.
Proof.
  unfold all_free. generalize (Z.to_nat ((PHYSTOP - PGROUNDUP l_end) / PGSIZE)). intros n. generalize (PGROUNDUP l_end). induction n as [|n IH]; intros p; simpl; [constructor|].
  apply NoDup_app. split; [apply IH|]. split; [|apply NoDup_singleton]. intros x (i & _ & ->)%elem_of_pages_down Hx%list_elem_of_singleton. unfold PGSIZE in Hx. lia.
Qed.

Lemma length_pages_down p n : length (pages_down p n) = n.
Proof. revert p. induction n as [|n IH]; intros p; [done|]. simpl. rewrite length_app, IH. simpl. lia. Qed.

Lemma enough_pages : l_end <= PHYSTOP - BOOTPAGES * PGSIZE -> (150 <= length all_free)%nat.
Proof.
  intros Hr. unfold all_free. rewrite length_pages_down. unfold BOOTPAGES in Hr. rewrite roundup_end. unfold PHYSTOP, KERNBASE, PGSIZE in *. zlia.
Qed.

Lemma boot_memory {B} me (k : K board B) h b : bare h -> mem_ok (pm_mem (k_pm (bd_kernel b))) -> pm_freelist (k_pm (bd_kernel b)) = 0 ->
  l_end <= PHYSTOP - BOOTPAGES * PGSIZE ->
  exists h' t root kps ks fl, (in_kernel (in_pm kinit);; kvminit;; kvminithart me;; k) h b =
      k h' (set_bd_core (alter (paging root) me (bd_core b)) (set_bd_kernel_pagetable root (set_bd_kernel (set_k_pm t (bd_kernel b)) b))) /\ calm h h' /\
    vm_state t root kps fl /\ all_free ≡ₚ kps ++ ks ++ fl /\ length ks = NPROC /\ (length kps <= KTABLES)%nat /\
    forall va, 0 <= va < MAXVA -> entry (pm_mem t) root va = kspace ks va.
Proof.
  intros Hb Hm Hf Hroom. pose proof (enough_pages Hroom) as Hn.
  destruct (kinit_list h (k_pm (bd_kernel b)) (ba_wf _ Hb) (bare_notin _ _ Hb) Hf) as (h1 & t1 & E1 & Hc1 & Hfl & Hm1).
  rewrite (bind_done _ _ _ _ _ _ _ (in_kernel_run _ _ _ _ _ _ (in_pm_run _ _ _ _ _ _ E1))). destruct (bare_calm _ _ Hb Hc1) as [Hb1 _].
  set (b1 := set_bd_kernel _ _).
  destruct (kvmmake_run all_free h1 t1) as (root & h2 & t2 & kps & fl & ks & E2 & Hc2 & Hv & Hp & Hlk & Hlt & He);
    [by apply bare_ready|done|by apply Hm1|unfold KTABLES, NPROC; lia|].
  unfold kvminit. rewrite bind_assoc, (bind_done _ _ _ _ _ _ _ (in_kernel_run _ h1 b1 _ _ _ (in_pm_run _ h1 (bd_kernel b1) _ _ _ E2))), bind_modify.
  rewrite (bind_done _ _ _ _ _ _ _ (kvminithart_run _ _ _)).
  exists h2, t2, root, kps, ks, fl. split; [reflexivity|]. split; [eauto with xv6|done].
Qed.

(** The writes of plicinit and plicinithart. *)
Definition plic_hart_writes (hart : Z) : list (Z * Z) := [(PLIC_SPRIORITY hart, 0); (PLIC_SENABLE hart, 1026)].
Definition plic_writes : list (Z * Z) := [(PLIC + VIRTIO0_IRQ * 4, 1); (PLIC + UART0_IRQ * 4, 1)].

Lemma boot_tables {B} me (k : K board B) h b : let s := bd_kernel b in
  bare h -> length (k_proc s) = NPROC -> bc_buf (k_bcache s) = replicate NBUF zero_buf -> length (k_inode s) = NINODE -> disk_wf (k_disk s) ->
  exists c features,
    (in_kernel procinit;; trapinithart me;; plicinit;; plicinithart;; in_kernel binit;; in_kernel iinit;; virtio_disk_init;; k) h b =
    k h (set_bd_core (alter trapping me (bd_core b))
      (set_bd_kernel (set_k_disk (set_d_free (replicate NUM true) (clear_pages (k_disk s))) (set_k_inode (unlocked_inode <$> k_inode s)
         (set_k_bcache c (set_k_proc (imap (fun i => set_p_kstack (KSTACK (Z.of_nat i))) (k_proc s)) s))))
      (set_bd_mmio (virtio_writes features ++ plic_hart_writes (h_tp h) ++ plic_writes ++ bd_mmio b) b))) /\
    lru c (reverse (upto NBUF)) /\ cold (set_k_bcache c s).
Proof.
  intros s Hb Hlp Hbuf Hli Hd.
  rewrite (bind_done _ _ _ _ _ _ _ (in_kernel_run _ _ _ _ _ _ (procinit_run h s Hlp))). set (s1 := set_k_proc _ _).
  rewrite (bind_done (trapinithart me) _ h _ tt h _ eq_refl), (bind_done plicinit _ h _ tt h _ eq_refl), (bind_done plicinithart _ h _ tt h _ eq_refl).
  destruct (binit_run h s1) as (c & E2 & Hlru).
  { change (length (bc_buf (k_bcache s)) = NBUF). by rewrite Hbuf, length_replicate. }
  match goal with |- context [bind (in_kernel binit) _ h ?b2] => rewrite (bind_done _ _ _ _ _ _ _ (in_kernel_run binit h b2 tt h _ E2)) end.
  match goal with |- context [bind (in_kernel iinit) _ h ?b2] =>
    rewrite (bind_done _ _ _ _ _ _ _ (in_kernel_run iinit h b2 tt h _ (iinit_run h (set_k_bcache c s1) Hli))) end.
  match goal with |- context [bind virtio_disk_init _ h ?b2] => destruct (virtio_disk_init_run h b2) as (features & E3); [apply Hd|] end.
  rewrite (bind_done _ _ _ _ _ _ _ E3). exists c, features. split; [reflexivity|]. split; [done|].
  assert (Hc : cold s1).
  { intros i x Hx. change (bc_buf (k_bcache s) !! i = Some x) in Hx. rewrite Hbuf in Hx. apply lookup_replicate in Hx as [-> _]. split_and!; reflexivity. }
  exact (keeps_cold_binit h s1 tt h _ E2 Hc).
Qed.

(** ** What main establishes *)

Record booted b : Prop := {
  bt_wf : kwf (bd_kernel b);
  bt_fresh : fresh 0 (bd_kernel b);
  bt_states : k_states (bd_kernel b) = RUNNABLE :: replicate 63 UNUSED;
  bt_memory : exists y kps ks ps q fl, k_proc (bd_kernel b) !! 0%nat = Some y /\
    first_image (k_pm (bd_kernel b)) (p_pagetable y) (p_trapframe y) ps fl /\ length ks = NPROC /\
    pt_own (pm_mem (k_pm (bd_kernel b))) (bd_kernel_pagetable b) kps /\
    (forall va, 0 <= va < MAXVA -> entry (pm_mem (k_pm (bd_kernel b))) (bd_kernel_pagetable b) va = kspace ks va) /\
    all_free ≡ₚ kps ++ ks ++ p_trapframe y :: q :: ps ++ fl;
  bt_first : k_initproc (bd_kernel b) = Some 0%nat /\ p_cwd <$> k_proc (bd_kernel b) !! 0%nat = Some (Some 0%nat) /\
    exists ip, k_inode (bd_kernel b) !! 0%nat = Some ip /\ i_dev ip = ROOTDEV /\ i_inum ip = ROOTINO /\ i_ref ip = 1;
  bt_started : bd_started b = 1;
}.

Definition kernel_procs : list proc := imap (fun i => set_p_kstack (KSTACK (Z.of_nat i))) (replicate NPROC zero_proc).

Lemma kernel_procs_wf : length kernel_procs = NPROC /\ Forall proc_wf kernel_procs /\ p_state <$> kernel_procs = replicate NPROC UNUSED.
Proof.
  unfold kernel_procs. split; [by rewrite length_imap, length_replicate|]. split; [|vm_compute; reflexivity].
  apply Forall_forall. intros x Hx. apply list_elem_of_lookup in Hx as [i Hi]. rewrite list_lookup_imap in Hi.
  destruct (replicate NPROC zero_proc !! i) as [z|] eqn:E; [|done]. apply lookup_replicate in E as [-> _]. injection Hi as <-. by constructor.
Qed.

(** The kernel before userinit, and after it. *)
Lemma userinit_booted s h fl root kps ks :
  bare h -> k_proc s = kernel_procs -> k_inode s = replicate NINODE zero_inode -> kwf s -> (9 <= length fl)%nat -> k_nextpid s = 1 ->
  vm_state (k_pm s) root kps fl -> (forall va, 0 <= va < MAXVA -> entry (pm_mem (k_pm s)) root va = kspace ks va) ->
  drv_idle (k_disk s) -> lru (k_bcache s) (reverse (upto NBUF)) -> cold s -> length ks = NPROC -> all_free ≡ₚ kps ++ ks ++ fl ->
  exists h' s', userinit h s = Done tt h' s' /\ calm h h' /\ k_tty s' = k_tty s /\
    forall b, bd_kernel_pagetable b = root -> booted (set_bd_started 1 (set_bd_kernel s' b)).
Proof.
  intros Hb Hp Hi Hk Hl Hpid Hv He Hd Hlru Hcold Hlk Hall. destruct kernel_procs_wf as (Hlp & Hpw & Hst).
  destruct (userinit_run h s (set_p_kstack (KSTACK 0) zero_proc) zero_inode (replicate 49 zero_inode) fl)
    as (h' & t & tf & proot & ps & q & fl' & E & Hc & Him & Hfl & Ho);
    [by apply bare_ready|apply Hb|by rewrite Hp|rewrite Hp; reflexivity|reflexivity|reflexivity|apply Hv|apply Hv|done|exact Hi
    |change (zero_inode :: replicate 49 zero_inode) with (replicate 50 zero_inode); by apply Forall_replicate|].
  set (y := first_slot (k_nextpid s) (k_ticks s) tf proot (set_p_kstack (KSTACK 0) zero_proc)) in *.
  set (s' := first_state s t (root_ref zero_inode :: replicate 49 zero_inode) y) in *.
  assert (Hy : k_proc s' !! 0%nat = Some y) by (apply (first_lookup s t _ (set_p_kstack (KSTACK 0) zero_proc)); rewrite Hp; reflexivity).
  assert (Hyw : proc_wf y) by (constructor; reflexivity || (split; vm_compute; congruence)).
  exists h', s'. split; [exact E|]. split; [exact Hc|]. split; [reflexivity|]. intros b Hr. constructor.
  - destruct Hk. constructor; try done; change (bd_kernel (set_bd_started 1 (set_bd_kernel s' b))) with s'.
    + change (k_proc s') with (<[0%nat := y]> (k_proc s)). by rewrite length_insert.
    + change (k_proc s') with (<[0%nat := y]> (k_proc s)). by apply Forall_insert.
    + change (k_inode s') with (root_ref zero_inode :: replicate 49 zero_inode). constructor; [reflexivity|]. by apply Forall_replicate.
  - constructor; [|by exists y|exact Hd|exists (reverse (upto NBUF)); split; [exact Hlru|apply reverse_Permutation]|exact Hcold].
    change (length (<[0%nat := y]> (k_proc s)) = NPROC). by rewrite length_insert, Hp.
  - change (p_state <$> <[0%nat := y]> (k_proc s) = RUNNABLE :: replicate 63 UNUSED). rewrite list_fmap_insert, Hp, Hst. reflexivity.
  - assert (Hsame : forall p x, p ∈ kps -> in_page p x -> rd (pm_mem t) x = rd (pm_mem (k_pm s)) x).
    { intros p x Hpk. assert (Hin : forall z, z ∈ tf :: q :: ps -> z ∈ fl) by (intros z Hz; rewrite Hfl; apply elem_of_app with (l1 := tf :: q :: ps); by left).
      eapply outside_in_page; [exact Ho|exact Hpk| |apply Hv|].
      - intros z Hz Hzk. by apply (vs_disj _ _ _ _ Hv z Hzk), Hin.
      - pose proof (linked_pages _ _ _ (fl_linked _ _ (vs_free _ _ _ _ Hv))) as Hf. rewrite Forall_forall in Hf. apply Forall_forall. auto. }
    exists y, kps, ks, ps, q, fl'. split; [exact Hy|]. split; [exact Him|]. split; [done|]. split; [|split].
    + simpl. rewrite Hr. eapply pt_own_same; [apply Hv|exact Hsame].
    + intros va Hva. simpl. rewrite Hr, <-He by done. apply (entry_same _ _ _ kps); [apply Hv|exact Hsame].
    + by rewrite Hall, Hfl.
  - split; [reflexivity|]. split; [|exists (root_ref zero_inode); split_and!; reflexivity].
    simpl. change (p_cwd <$> k_proc s' !! 0%nat = Some (Some 0%nat)). by rewrite Hy.
  - reflexivity.
Qed.

(** The last value written to a register. *)
Definition last_write (w : list (Z * Z)) (a : Z) : option Z := snd <$> List.find (fun x => x.1 =? a) w.

(** The UART, the disk and hart [c] of the interrupt controller are set up. *)
Record devices_on (w : list (Z * Z)) (c : Z) : Prop := {
  dv_uart : last_write w (UART0 + IER) = Some (Z.lor IER_TX_ENABLE IER_RX_ENABLE);
  dv_plic : last_write w (PLIC + UART0_IRQ * 4) = Some 1 /\ last_write w (PLIC + VIRTIO0_IRQ * 4) = Some 1;
  dv_hart : last_write w (PLIC_SENABLE c) = Some (Z.lor (Z.shiftl 1 UART0_IRQ) (Z.shiftl 1 VIRTIO0_IRQ)) /\ last_write w (PLIC_SPRIORITY c) = Some 0;
  dv_disk : last_write w (VIRTIO0 + VIRTIO_MMIO_STATUS) = Some 15 /\ last_write w (VIRTIO0 + VIRTIO_MMIO_QUEUE_NUM) = Some (Z.of_nat NUM) /\
    last_write w (VIRTIO0 + VIRTIO_MMIO_QUEUE_PFN) = Some (u32 (Z.shiftr sym_disk_pages 12));
}.

(** The registers of a hart in scheduler(). *)
Record in_supervisor (root : Z) (c : core) : Prop := {
  sv_satp : co_csr c Satp = MAKE_SATP root;
  sv_stvec : co_csr c Stvec = sym_kernelvec;
  sv_tlb : co_stale c = false;
}.

Lemma in_supervisor_core root c : in_supervisor root (trapping (paging root c)).
Proof. constructor; reflexivity. Qed.

Lemma main_first_run h b c :
  bare h -> h_tp h = 0 -> static_data (bd_kernel b) -> l_end <= PHYSTOP - BOOTPAGES * PGSIZE -> bd_core b !! 0%nat = Some c ->
  exists h' b', main_init 0 h b = Done tt h' b' /\ calm h h' /\ booted b' /\ panicked (k_tty (bd_kernel b')) = false /\
    devices_on (bd_mmio b') 0 /\ bd_devsw b' = <[1%nat := Some D_console]> (bd_devsw b) /\
    exists c', bd_core b' = <[0%nat := c']> (bd_core b) /\ in_supervisor (bd_kernel_pagetable b') c'.
Proof.
  intros Hb Htp [[Hm Hf] Htty Hp Hpid Hq Hbuf Hlog Hino Hfile Hpipe [Hcons Huart] [Hdisk Hseen]] Hroom Hcore.
  unfold main_init. rewrite bind_cpuid, Htp. cbn [Z.eqb].
  edestruct (boot_console (B := unit)) as (t1 & h1 & E1 & Hc1 & Ht1); [exact Hb|exact Htty|]. rewrite E1. clear E1. destruct (bare_calm _ _ Hb Hc1) as [Hb1 Htp1].
  lazymatch goal with |- context [bind (in_kernel (in_pm kinit)) (fun _ => bind kvminit (fun _ => bind (kvminithart 0) (fun _ => ?k))) h1 ?b2] =>
    set (b1 := b2) in *; destruct (boot_memory 0 k h1 b1) as (h2 & t2 & root & kps & ks & fl & E2 & Hc2 & Hv & Hall & Hlk & Hlt & He) end;
    [exact Hb1|exact Hm|exact Hf|exact Hroom|]. rewrite E2. clear E2. destruct (bare_calm _ _ Hb1 Hc2) as [Hb2 Htp2].
  lazymatch goal with |- context [bind (in_kernel procinit) (fun _ => bind (trapinithart 0) (fun _ => bind plicinit (fun _ => bind plicinithart
      (fun _ => bind (in_kernel binit) (fun _ => bind (in_kernel iinit) (fun _ => bind virtio_disk_init (fun _ => ?k))))))) h2 ?b3] =>
    set (b2 := b3) in *; destruct (boot_tables 0 k h2 b2) as (cc & features & E3 & Hlru & Hcold) end;
    [exact Hb2|simpl; rewrite Hp; apply length_replicate|exact Hbuf|simpl; rewrite Hino; apply length_replicate|exact Hdisk|]. rewrite E3. clear E3.
  match goal with |- context [bind (in_kernel userinit) _ h2 ?b4] => set (b3 := b4) in * end.
  assert (Ep : k_proc (bd_kernel b3) = kernel_procs) by (change (imap (fun i => set_p_kstack (KSTACK (Z.of_nat i))) (k_proc (bd_kernel b)) = kernel_procs); by rewrite Hp).
  assert (Ei : k_inode (bd_kernel b3) = replicate NINODE zero_inode).
  { change (unlocked_inode <$> k_inode (bd_kernel b) = replicate NINODE zero_inode). rewrite Hino, fmap_replicate. reflexivity. }
  assert (Hlfl : (9 <= length fl)%nat).
  { pose proof (enough_pages Hroom) as Hn. rewrite Hall, !length_app, Hlk in Hn. unfold KTABLES, NPROC in *. lia. }
  destruct (userinit_booted (bd_kernel b3) h2 fl root kps ks) as (h4 & s4 & E4 & Hc4 & Et4 & Hbt);
    [exact Hb2|exact Ep|exact Ei| |exact Hlfl|exact Hpid|exact Hv|exact He| |exact Hlru|exact Hcold|exact Hlk|exact Hall|].
  { destruct kernel_procs_wf as (Hlp & Hpw & _). constructor; rewrite ?Ep, ?Ei; [done|done|exact Hq|apply Hlru|apply length_replicate
      |apply Forall_replicate; reflexivity|exact Hfile|simpl; rewrite Hpipe; apply map_Forall_empty|exact Hlog|exact Hcons|exact Huart|].
    destruct Hdisk. constructor; simpl; rewrite ?length_replicate; done. }
  { destruct Hdisk. constructor; simpl; rewrite ?length_replicate; try done. }
  rewrite (bind_done _ _ _ _ _ _ _ (in_kernel_run _ _ _ _ _ _ E4)).
  exists h4, (set_bd_started 1 (set_bd_kernel s4 b3)). split; [reflexivity|]. split; [eauto with xv6|]. split; [by apply Hbt|].
  split; [simpl; by rewrite Et4|]. split; [|split; [reflexivity|]].
  - simpl. rewrite Htp2, Htp1, Htp. constructor; [|split|split|split_and!]; reflexivity.
  - exists (trapping (paging root c)). split; [|apply in_supervisor_core]. change (alter trapping 0%nat (alter (paging root) 0%nat (bd_core b)) = <[0%nat := trapping (paging root c)]> (bd_core b)).
    by rewrite alter_comp, (alter_insert_eq _ _ _ c).
Qed.

(** ** The other harts *)

Lemma main_waits me h b : h_tp h <> 0 -> bd_started b = 0 -> main_init me h b = NoFuel.
Proof.
  intros Htp Hs. unfold main_init, wait_started. rewrite bind_cpuid.
  rewrite (proj2 (Z.eqb_neq _ _) Htp), bind_assoc, bind_gets, Hs. done.
Qed.

Lemma main_other_run me h b c :
  bare h -> h_tp h <> 0 -> bd_started b <> 0 -> panicked (k_tty (bd_kernel b)) = false -> bd_core b !! me = Some c ->
  exists h' t c', main_init me h b = Done tt h' (set_bd_mmio (plic_hart_writes (h_tp h) ++ bd_mmio b)
      (set_bd_core (<[me := c']> (bd_core b)) (set_bd_kernel (set_k_tty t (bd_kernel b)) b))) /\ calm h h' /\
    panicked t = false /\ in_supervisor (bd_kernel_pagetable b) c'.
Proof.
  intros Hb Htp Hs Hp Hc. unfold main_init, wait_started. rewrite bind_cpuid.
  rewrite (proj2 (Z.eqb_neq _ _) Htp), bind_assoc, bind_gets, (proj2 (Z.eqb_neq _ _) Hs). unfold bind at 1, ret at 1. cbn [obind].
  destruct (kprintf_run ("hart %d starting" ++ nl) [VInt (h_tp h)] h (bd_kernel b)) as (bs & h1 & E1 & Hc1); [done|apply Hb|done|by apply bare_notin|].
  rewrite (bind_done _ _ _ _ _ _ _ (in_kernel_run _ _ _ _ _ _ E1)), (bind_done _ _ _ _ _ _ _ (kvminithart_run _ _ _)).
  destruct (bare_calm _ _ Hb Hc1) as [_ Ht1]. rewrite (bind_done (trapinithart me) _ h1 _ tt h1 _ eq_refl).
  exists h1, (emit bs (k_tty (bd_kernel b))), (trapping (paging (bd_kernel_pagetable b) c)). split; [|split; [done|split; [done|apply in_supervisor_core]]].
  transitivity (Done tt h1 (set_bd_mmio (plic_hart_writes (h_tp h1) ++ bd_mmio b) (set_bd_core
    (alter trapping me (alter (paging (bd_kernel_pagetable b)) me (bd_core b))) (set_bd_kernel (set_k_tty (emit bs (k_tty (bd_kernel b))) (bd_kernel b)) b)))).
  - reflexivity.
  - rewrite Ht1, alter_comp, (alter_insert_eq _ _ _ c) by done. reflexivity.
Qed.

Lemma booted_other b w cs t : booted b -> booted (set_bd_mmio w (set_bd_core cs (set_bd_kernel (set_k_tty t (bd_kernel b)) b))).
Proof. intros [[] [] B3 B4 B5 B6]. constructor; [by constructor|by constructor|exact B3|exact B4|exact B5|exact B6]. Qed.

(** ** start *)

(** The hart as mret leaves it. *)
Record in_main (id : Z) (c : core) (h : hart) : Prop := {
  im_mode : co_priv c = 1 /\ co_pc c = sym_main /\ co_csr c Satp = 0;
  im_delegated : co_csr c Medeleg = 0xffff /\ co_csr c Mideleg = 0xffff;
  im_enabled : Z.testbit (co_csr c Sie) 9 = true /\ Z.testbit (co_csr c Sie) 5 = true /\ Z.testbit (co_csr c Sie) 1 = true /\
    Z.testbit (co_csr c Mie) 7 = true;
  im_memory : co_csr c Pmpaddr0 = 0x3fffffffffffff /\ co_csr c Pmpcfg0 = 0xf;
  im_timer : co_csr c Mtvec = sym_timervec /\ co_csr c Mscratch = sym_timer_scratch + 40 * id;
  im_tp : h_tp h = id;
}.

Lemma mpp_supervisor x : Z.land (Z.shiftr (Z.lor (Z.lor (Z.land x (Z.lnot MSTATUS_MPP_MASK)) MSTATUS_MPP_S) MSTATUS_MIE) 11) 3 = 1.
Proof.
  apply Z.bits_inj'. intros n Hn. rewrite Z.land_spec, Z.shiftr_spec, !Z.lor_spec, Z.land_spec, Z.lnot_spec by lia.
  unfold MSTATUS_MPP_MASK, MSTATUS_MPP_S, MSTATUS_MIE. rewrite !Z.shiftl_spec by lia. rewrite Z.add_simpl_r.
  destruct (decide (n = 0)) as [->|]; [change (Z.testbit 1 0) with true; by rewrite orb_true_r|]. destruct (decide (n = 1)) as [->|].
  - change (Z.testbit 3 1) with true. simpl. rewrite andb_false_r. reflexivity.
  - rewrite (Z.bits_above_log2 3 n), (Z.bits_above_log2 1 n); [by rewrite andb_false_r|lia|simpl; lia|lia|simpl; lia].
Qed.

(** The board with [c] as the running core. *)
Definition at_core (me : nat) (c : core) (b : board) : board := set_bd_core (<[me := c]> (bd_core b)) b.
Definition put_csr (r : csr) (v : Z) (c : core) : core := Core (csr_put r v (co_csr c)) (co_pc c) (co_priv c) (co_stale c).

Lemma at_core_id me c b : bd_core b !! me = Some c -> b = at_core me c b.
Proof. intros Hc. unfold at_core. rewrite list_insert_id by done. by destruct b. Qed.

Lemma at_core_set me f c b h : core_set me f h (at_core me c b) = Done tt h (at_core me (f c) b).
Proof. unfold core_set, modify, at_core. simpl. by rewrite alter_insert_same. Qed.

Lemma at_core_csrw {B} me r v (k : unit -> K board B) c b h : bind (csrw me r v) k h (at_core me c b) = k tt h (at_core me (put_csr r v c) b).
Proof. unfold csrw. by rewrite (bind_done _ _ _ _ _ _ _ (at_core_set me _ c b h)). Qed.

Lemma at_core_csrr {B} me r (k : Z -> K board B) c b h : (me < length (bd_core b))%nat ->
  bind (csrr me r) k h (at_core me c b) = k (co_csr c r) h (at_core me c b).
Proof.
  intros Hl. unfold csrr, core_get. rewrite !bind_assoc, bind_gets. simpl. by rewrite list_lookup_insert_eq.
Qed.

Lemma timerinit_run me h b c id row :
  (me < length (bd_core b))%nat -> co_csr c Mhartid = id -> 0 <= id < 8 -> bd_timer_scratch b !! Z.to_nat id = Some row ->
  let t := mmio (bd_mmio b) CLINT_MTIME mod 2 ^ 64 in
  timerinit me h (at_core me c b) = Done tt h (at_core me
    (put_csr Mie (Z.lor (co_csr c Mie) MIE_MTIE) (put_csr Mstatus (Z.lor (co_csr c Mstatus) MSTATUS_MIE)
      (put_csr Mtvec sym_timervec (put_csr Mscratch (sym_timer_scratch + id * 40) c))))
    (set_bd_timer_scratch (alter (fun x => <[4%nat := 1000000]> (<[3%nat := CLINT_MTIMECMP id]> x)) (Z.to_nat id) (bd_timer_scratch b))
      (set_bd_mmio ((CLINT_MTIMECMP id, (t + 1000000) mod 2 ^ 64) :: bd_mmio b) b))).
Proof.
  intros Hl Hid Hr Hrow t. unfold timerinit, r_mhartid, w_mscratch, w_mtvec, r_mstatus, w_mstatus, r_mie, w_mie, mmio_read, mmio_write.
  rewrite at_core_csrr, Hid, i32_id by (done || lia). rewrite bind_gets, bind_modify, bind_gets. simpl bd_timer_scratch. rewrite Hrow. cbn [deref].
  unfold bind at 1, ret at 1. cbn [obind]. rewrite bind_modify.
  match goal with |- context [bind (csrw me Mscratch _) _ h ?b1] => change b1 with (at_core me c
    (set_bd_timer_scratch (alter (fun x => <[4%nat := 1000000]> (<[3%nat := CLINT_MTIMECMP id]> x)) (Z.to_nat id) (bd_timer_scratch b))
      (set_bd_mmio ((CLINT_MTIMECMP id, (t + 1000000) mod 2 ^ 64) :: bd_mmio b) b))) end.
  rewrite !at_core_csrw, at_core_csrr by done. rewrite at_core_csrw, at_core_csrr by done. unfold csrw. by rewrite at_core_set.
Qed.

Lemma start_run me h b c id row :
  bd_core b !! me = Some c -> co_csr c Mhartid = id -> 0 <= id < 8 -> bd_timer_scratch b !! Z.to_nat id = Some row ->
  exists h' c' row' b', start me h b = Done tt h' b' /\ bd_core b' = <[me := c']> (bd_core b) /\ in_main id c' h' /\
    h' = Hart id (h_proc h) (h_noff h) (h_intena h) (h_sie h) (h_held h) /\
    bd_kernel b' = bd_kernel b /\ bd_started b' = bd_started b /\ bd_kernel_pagetable b' = bd_kernel_pagetable b /\ bd_devsw b' = bd_devsw b /\ bd_timer_scratch b' !! Z.to_nat id = Some row' /\
    row' = <[4%nat := 1000000]> (<[3%nat := CLINT_MTIMECMP id]> row) /\
    last_write (bd_mmio b') (CLINT_MTIMECMP id) = Some (u64 (mmio (bd_mmio b) CLINT_MTIME mod 2 ^ 64 + 1000000)).
Proof.
  intros Hc Hid Hr Hrow. assert (Hl : (me < length (bd_core b))%nat) by (by eapply lookup_lt_Some).
  assert (Es : start me h b = start me h (at_core me c b)) by (by rewrite <-at_core_id). rewrite Es. clear Es. unfold start, r_mstatus, w_mstatus, w_mepc, w_satp, w_medeleg, w_mideleg, r_sie, w_sie, w_pmpaddr0, w_pmpcfg0, r_mhartid.
  rewrite at_core_csrr by done. rewrite !at_core_csrw, bind_assoc, at_core_csrw, (bind_done _ _ _ _ _ _ _ (at_core_set _ _ _ _ _)), !at_core_csrw, at_core_csrr, !at_core_csrw by done.
  match goal with |- context [at_core me ?x b] => set (c1 := x) end. pose proof (timerinit_run me h b c1 id row Hl Hid Hr Hrow) as Et.
  cbv zeta in Et. rewrite (bind_done _ _ _ _ _ _ _ Et). clear Et. match goal with |- context [at_core me ?x ?y] => set (c2 := x); set (b2 := y) end.
  rewrite at_core_csrr by done. assert (E2 : i32 (co_csr c2 Mhartid) = id) by (rewrite <-Hid; apply i32_id; change (co_csr c2 Mhartid) with (co_csr c Mhartid); lia).
  rewrite E2. unfold w_tp. rewrite bind_assoc. unfold bind at 1, get_hart at 1. cbn [obind]. unfold bind at 1, put_hart at 1. cbn [obind].
  unfold mret. rewrite at_core_set. do 4 eexists. split; [reflexivity|]. split; [reflexivity|]. split; [|split_and!; try reflexivity].
  - assert (Em : co_csr c2 Mstatus = Z.lor (Z.lor (Z.land (co_csr c Mstatus) (Z.lnot MSTATUS_MPP_MASK)) MSTATUS_MPP_S) MSTATUS_MIE) by reflexivity.
    constructor; [split; [|split; reflexivity]|split; reflexivity| |split; reflexivity|split; [reflexivity|]|reflexivity].
    + cbn [co_priv]. rewrite Em. apply mpp_supervisor.
    + assert (E3 : co_csr c2 Sie = Z.lor (Z.lor (Z.lor (co_csr c Sie) SIE_SEIE) SIE_STIE) SIE_SSIE) by reflexivity.
      assert (E4 : co_csr c2 Mie = Z.lor (co_csr c Mie) MIE_MTIE) by reflexivity.
      cbn [co_csr]. rewrite !csr_put_ne, E3, E4, !Z.lor_spec by done. unfold SIE_SEIE, SIE_STIE, SIE_SSIE, MIE_MTIE.
      split_and!; simpl; by rewrite ?orb_true_r.
    + cbn [co_csr]. rewrite csr_put_ne by done. change (co_csr c2 Mscratch) with (sym_timer_scratch + id * 40). lia.
  - simpl. rewrite list_lookup_alter_eq, Hrow. reflexivity.
  - unfold last_write. simpl. by rewrite Z.eqb_refl.
Qed.

Lemma bare_tp h id : bare h -> bare (Hart id (h_proc h) (h_noff h) (h_intena h) (h_sie h) (h_held h)).
Proof. intros [[W1 W2 W3] Hh Hn Hs]. by constructor; [constructor| | |]. Qed.

(** ** Boot *)

(** Hart [me] goes from reset to scheduler(): start() leaves it in main() in supervisor
    mode, and main() leaves it without locks on the kernel page table. *)
Definition boots (me : nat) (h : hart) (b : board) (h' : hart) (b' : board) : Prop :=
  exists h1 b1 c1 c', start me h b = Done tt h1 b1 /\ bd_core b1 !! me = Some c1 /\ in_main (Z.of_nat me) c1 h1 /\
    main_init me h1 b1 = Done tt h' b' /\ bd_core b' = <[me := c']> (bd_core b) /\
    in_supervisor (bd_kernel_pagetable b') c' /\ bare h' /\ booted b' /\ panicked (k_tty (bd_kernel b')) = false.

(** What qemu gives hart [me] at reset. *)
Record at_reset (me : nat) (h : hart) (b : board) : Prop := {
  ar_hart : bare h;
  ar_core : exists c, bd_core b !! me = Some c /\ co_csr c Mhartid = Z.of_nat me;
  ar_scratch : exists row, bd_timer_scratch b !! me = Some row;
}.

(** The first hart. *)
Lemma boot_first h b :
  at_reset 0 h b -> static_data (bd_kernel b) -> l_end <= PHYSTOP - BOOTPAGES * PGSIZE ->
  exists h' b', boots 0 h b h' b' /\ devices_on (bd_mmio b') 0 /\ bd_devsw b' = <[1%nat := Some D_console]> (bd_devsw b).
Proof.
  intros [Hb (c & Hc & Hid) (row & Hrow)] Hs Hroom.
  destruct (start_run 0 h b c 0 row Hc Hid ltac:(lia) Hrow) as (h1 & c1 & row1 & b1 & E1 & Ec1 & Him & Eh1 & Ek & _ & _ & Ed & _).
  assert (Hb1 : bare h1) by (rewrite Eh1; by apply bare_tp).
  assert (Hc1 : bd_core b1 !! 0%nat = Some c1) by (rewrite Ec1; apply list_lookup_insert_eq; by eapply lookup_lt_Some).
  destruct (main_first_run h1 b1 c1) as (h' & b' & E2 & Hc2 & Hbt & Hp & Hd & Edev & c' & Ec' & Hsv); [done|by rewrite Eh1|by rewrite Ek|done|done|].
  exists h', b'. split; [|split; [done|by rewrite Edev, Ed]]. exists h1, b1, c1, c'. split_and!; try done; [|by eapply bare_calm].
  by rewrite Ec', Ec1, list_insert_insert_eq.
Qed.

(** The others, once the first has set started. *)
Lemma boot_other me h b :
  at_reset me h b -> booted b -> panicked (k_tty (bd_kernel b)) = false -> (0 < me < 8)%nat -> exists h' b', boots me h b h' b'.
Proof.
  intros [Hb (c & Hc & Hid) (row & Hrow)] Hbt Hp Hme.
  destruct (start_run me h b c (Z.of_nat me) row Hc Hid ltac:(lia)) as (h1 & c1 & row1 & b1 & E1 & Ec1 & Him & Eh1 & Ek & Est & Epg & Ed & _); [by rewrite Nat2Z.id|].
  assert (Hb1 : bare h1) by (rewrite Eh1; by apply bare_tp).
  assert (Hc1 : bd_core b1 !! me = Some c1) by (rewrite Ec1; apply list_lookup_insert_eq; by eapply lookup_lt_Some).
  destruct (main_other_run me h1 b1 c1) as (h' & t & c' & E2 & Hc2 & Ht & Hsv);
    [done|rewrite Eh1; simpl; lia|rewrite Est, (bt_started _ Hbt); lia|by rewrite Ek|done|].
  eexists h', _, h1, b1, c1, c'. split_and!; [done|done|done|exact E2|..]; try done; [simpl; by rewrite Ec1, list_insert_insert_eq|by eapply bare_calm|].
  destruct Hbt as [[] [] B3 B4 B5 B6]. constructor; [constructor; simpl; rewrite ?Ek; done|constructor; simpl; rewrite ?Ek; done| | | |];
    simpl; rewrite ?Ek, ?Epg, ?Est; done.
Qed.

(** A hart that has entered scheduler(). *)
Definition scheduling (h : hart) : cpu := Cpu (set_h_proc None h) Idle.

Lemma booted_initial b hs : booted b -> Forall bare hs -> initial (System (bd_kernel b) (scheduling <$> hs) ∅).
Proof.
  intros Hb Hhs. split_and!; [apply Hb|done|intros c x Hx|intros p Hp]; simpl in *.
  - apply list_lookup_fmap_Some in Hx as (h & -> & Hh). rewrite Forall_lookup in Hhs. destruct (Hhs _ _ Hh). by repeat split.
  - rewrite (bt_states b Hb) in Hp. apply lookup_cons_Some in Hp as [[_ Hp]|[_ Hp]]; [done|]. by apply lookup_replicate in Hp as [? _].
Qed.


End main.

(** ** Example *)

(** The machine at reset, with a kernel of 156 KB and qemu's disk. *)
Module reset.

Definition layout : Layout := {| l_etext := KERNBASE + 0x8000; l_end := KERNBASE + 0x27000; l_trampoline := KERNBASE + 0x7000 |}.

Lemma reset_ok : @LayoutOk layout.
Proof. by constructor. Qed.

Definition symbols : Symbols :=
  {| sym_forkret := 0x80001000; sym_usertrap := 0x80002000; sym_kernelvec := 0x80005000;
     sym_uservec := 0x80007000; sym_userret := 0x80007090 |}.
Definition boot_symbols : BootSymbols :=
  {| sym_main := 0x80000e00; sym_timervec := 0x80005100; sym_timer_scratch := 0x80009000; sym_disk_pages := 0x80025000 |}.

Definition qemu : Mmio := fun _ a =>
  if a =? VIRTIO0 + VIRTIO_MMIO_MAGIC_VALUE then 0x74726976
  else if a =? VIRTIO0 + VIRTIO_MMIO_VERSION then 1
  else if a =? VIRTIO0 + VIRTIO_MMIO_DEVICE_ID then 2
  else if a =? VIRTIO0 + VIRTIO_MMIO_VENDOR_ID then 0x554d4551
  else if a =? VIRTIO0 + VIRTIO_MMIO_QUEUE_NUM_MAX then 1024 else 0.

Lemma qemu_disk : @VirtioPresent qemu.
Proof. by constructor. Qed.

Definition hart0 : hart := Hart 0 None 0 false false [].
Definition core0 (id : Z) : core := Core (fun r => if decide (r = Mhartid) then id else 0) 0x1000 3 false.
Definition machine : board :=
  Board (boot_kernel (Pm ∅ 0) (replicate NPROC zero_proc)) 0 0 (replicate 10 None) (replicate 8 (replicate 5 0)) [core0 0; core0 1; core0 2] [].

Lemma machine_data : static_data (bd_kernel machine).
Proof. constructor; try done; split; done. Qed.

Lemma hart0_bare : bare hart0.
Proof. constructor; [constructor; simpl; [lia|lia|constructor]|done..]. Qed.

End reset.

