(* ===== verification/Asm.v ===== *)
(** * Asm

    The assembly of the kernel, instruction by instruction: swtch.S, trampoline.S,
    kernelvec.S, entry.S and user/initcode.S, on a core with its registers, its control
    registers, address translation and physical memory. *)
From stdpp Require Import base tactics list numbers gmap strings.
From S2P Require Import Prelude Machine Spinlock Bytes Queue Kalloc Vm Pagetable VmSpec UserMem VmProps KernelMap Kernel Proc ProcMem Fork Trap Csr.

(** ** The instructions *)

Inductive reg :=
  | Ra | Sp | Gp | Tp | T0 | T1 | T2 | S0 | S1 | A0 | A1 | A2 | A3 | A4 | A5 | A6 | A7
  | S2 | S3 | S4 | S5 | S6 | S7 | S8 | S9 | S10 | S11 | T3 | T4 | T5 | T6.

#[export] Instance reg_eq_dec : EqDecision reg.
Proof. solve_decision. Defined.

(** [La] and [Call] carry the address of the symbol they name. *)
Inductive instr :=
  | Sd (src : reg) (off : Z) (base : reg)
  | Ld (dst : reg) (off : Z) (base : reg)
  | Li (dst : reg) (v : Z)
  | La (dst : reg) (a : Z)
  | Addi (dst src : reg) (v : Z)
  | Add (dst r1 r2 : reg)
  | Mul (dst r1 r2 : reg)
  | Csrr (dst : reg) (c : csr)
  | Csrw (c : csr) (src : reg)
  | Csrrw (dst : reg) (c : csr) (src : reg)
  | SfenceVma
  | Call (f : Z)
  | Jr (r : reg)
  | Sret
  | Mret.

(** ** The core *)

(** [a_old] is the satp before the last write, while the TLB may still hold its
    translations. *)
Record asm := Asm {
  a_reg : reg -> Z;
  a_csr : csrs;
  a_pc : Z;
  a_priv : Z;
  a_old : option Z;
  a_mem : mem;
}.

Definition put (r : reg) (v : Z) (s : asm) : asm :=
  Asm (fun r' => if decide (r' = r) then v else a_reg s r') (a_csr s) (a_pc s) (a_priv s) (a_old s) (a_mem s).
Definition put_mem (m : mem) (s : asm) : asm := Asm (a_reg s) (a_csr s) (a_pc s) (a_priv s) (a_old s) m.
Definition put_csr (c : csr) (v : Z) (s : asm) : asm :=
  Asm (a_reg s) (csr_put c v (a_csr s)) (a_pc s) (a_priv s) (if decide (c = Satp) then Some (a_csr s Satp) else a_old s) (a_mem s).
Definition put_pc (v : Z) (s : asm) : asm := Asm (a_reg s) (a_csr s) v (a_priv s) (a_old s) (a_mem s).

(** *** Address translation *)

(** satp: no translation, or the table whose page number it holds. Outside user mode a
    page that user mode may use is refused. *)
Definition satp_root (satp : Z) : Z := Z.shiftl (satp mod 2 ^ 44) 12.
Definition translate (satp : Z) (m : mem) (perm va : Z) : option Z :=
  if satp =? 0 then Some va
  else if bool_decide (0 <= va < MAXVA) then
    let e := entry m (satp_root satp) va in
    if has e PTE_V && has e perm && negb (has e PTE_U) then Some (PTE2PA e + va mod PGSIZE) else None
  else None.

(** In machine mode addresses are physical. While the TLB may hold an old translation the
    access is defined only if both agree. *)
Definition mmu (priv satp : Z) (old : option Z) (m : mem) (perm va : Z) : option Z :=
  if priv =? 3 then Some va else
  pa ← translate satp m perm va;
  match old with
  | None => Some pa
  | Some o => if decide (translate o m perm va = Some pa) then Some pa else None
  end.
Definition access (s : asm) : Z -> Z -> option Z := mmu (a_priv s) (a_csr s Satp) (a_old s) (a_mem s).

(** *** Execution *)

Section exec.
(** The C functions, by address. *)
Context (callee : Z -> asm -> option asm).

Definition SSTATUS_SIE : Z := Z.shiftl 1 1.

(** The previous mode and interrupt bit of sstatus come back. *)
Definition sret_status (x : Z) : Z :=
  let y := Z.lor (Z.ldiff x (Z.lor SSTATUS_SIE SSTATUS_SPP)) SSTATUS_SPIE in
  if Z.testbit x 5 then Z.lor y SSTATUS_SIE else y.

Definition mret_status (x : Z) : Z :=
  let y := Z.lor (Z.ldiff x (Z.lor MSTATUS_MIE MSTATUS_MPP_MASK)) MSTATUS_MPIE in
  if Z.testbit x 7 then Z.lor y MSTATUS_MIE else y.

(** Loads and stores are aligned, so they stay in a page. *)
Definition aligned (va : Z) : option Z := if va mod 8 =? 0 then Some va else None.

Definition exec1 (i : instr) (s : asm) : option asm :=
  match i with
  | Sd src off base =>
      va ← aligned (u64 (a_reg s base + off));
      pa ← access s PTE_W va;
      Some (put_mem (store64 (a_mem s) pa (a_reg s src)) s)
  | Ld dst off base =>
      va ← aligned (u64 (a_reg s base + off));
      pa ← access s PTE_R va;
      Some (put dst (load64 (a_mem s) pa) s)
  | Li dst v | La dst v => Some (put dst (u64 v) s)
  | Addi dst src v => Some (put dst (u64 (a_reg s src + v)) s)
  | Add dst r1 r2 => Some (put dst (u64 (a_reg s r1 + a_reg s r2)) s)
  | Mul dst r1 r2 => Some (put dst (u64 (a_reg s r1 * a_reg s r2)) s)
  | Csrr dst c => Some (put dst (a_csr s c) s)
  | Csrw c src => Some (put_csr c (a_reg s src) s)
  | Csrrw dst c src => Some (put dst (a_csr s c) (put_csr c (a_reg s src) s))
  | SfenceVma => Some (Asm (a_reg s) (a_csr s) (a_pc s) (a_priv s) None (a_mem s))
  | Call f => callee f s
  | Jr r => Some (put_pc (a_reg s r) s)
  | Sret =>
      let x := a_csr s Sstatus in
      Some (Asm (a_reg s) (csr_put Sstatus (sret_status x) (a_csr s)) (a_csr s Sepc)
              (if Z.testbit x 8 then 1 else 0) (a_old s) (a_mem s))
  | Mret =>
      let x := a_csr s Mstatus in
      Some (Asm (a_reg s) (csr_put Mstatus (mret_status x) (a_csr s)) (a_csr s Mepc)
              (Z.land (Z.shiftr x 11) 3) (a_old s) (a_mem s))
  end.

(** Straight-line code at virtual address [va], loaded at physical address [pa]; each
    instruction comes with its offset, and must be fetched from where it was loaded. *)
Fixpoint exec (va pa : Z) (l : list (Z * instr)) (s : asm) : option asm :=
  match l with
  | [] => Some s
  | (o, i) :: l' =>
      if decide (access s PTE_X (va + o) = Some (pa + o)) then s' ← exec1 i s; exec va pa l' s' else None
  end.

End exec.

(** ** The programs *)

(** swtch.S *)
Definition swtch : list instr :=
  [Sd Ra 0 A0; Sd Sp 8 A0; Sd S0 16 A0; Sd S1 24 A0; Sd S2 32 A0; Sd S3 40 A0; Sd S4 48 A0;
   Sd S5 56 A0; Sd S6 64 A0; Sd S7 72 A0; Sd S8 80 A0; Sd S9 88 A0; Sd S10 96 A0; Sd S11 104 A0;
   Ld Ra 0 A1; Ld Sp 8 A1; Ld S0 16 A1; Ld S1 24 A1; Ld S2 32 A1; Ld S3 40 A1; Ld S4 48 A1;
   Ld S5 56 A1; Ld S6 64 A1; Ld S7 72 A1; Ld S8 80 A1; Ld S9 88 A1; Ld S10 96 A1; Ld S11 104 A1;
   Jr Ra].

(** trampoline.S *)
Definition uservec : list instr :=
  [Csrrw A0 Sscratch A0; Sd Ra 40 A0; Sd Sp 48 A0; Sd Gp 56 A0; Sd Tp 64 A0; Sd T0 72 A0;
   Sd T1 80 A0; Sd T2 88 A0; Sd S0 96 A0; Sd S1 104 A0; Sd A1 120 A0; Sd A2 128 A0;
   Sd A3 136 A0; Sd A4 144 A0; Sd A5 152 A0; Sd A6 160 A0; Sd A7 168 A0; Sd S2 176 A0;
   Sd S3 184 A0; Sd S4 192 A0; Sd S5 200 A0; Sd S6 208 A0; Sd S7 216 A0; Sd S8 224 A0;
   Sd S9 232 A0; Sd S10 240 A0; Sd S11 248 A0; Sd T3 256 A0; Sd T4 264 A0; Sd T5 272 A0;
   Sd T6 280 A0; Csrr T0 Sscratch; Sd T0 112 A0; Ld Sp 8 A0; Ld Tp 32 A0; Ld T0 16 A0;
   Ld T1 0 A0; Csrw Satp T1; SfenceVma; Jr T0].

(** userret of trampoline.S *)
Definition userret_asm : list instr :=
  [Csrw Satp A1; SfenceVma; Ld T0 112 A0; Csrw Sscratch T0; Ld Ra 40 A0; Ld Sp 48 A0; Ld Gp 56 A0;
   Ld Tp 64 A0; Ld T0 72 A0; Ld T1 80 A0; Ld T2 88 A0; Ld S0 96 A0; Ld S1 104 A0; Ld A1 120 A0;
   Ld A2 128 A0; Ld A3 136 A0; Ld A4 144 A0; Ld A5 152 A0; Ld A6 160 A0; Ld A7 168 A0;
   Ld S2 176 A0; Ld S3 184 A0; Ld S4 192 A0; Ld S5 200 A0; Ld S6 208 A0; Ld S7 216 A0;
   Ld S8 224 A0; Ld S9 232 A0; Ld S10 240 A0; Ld S11 248 A0; Ld T3 256 A0; Ld T4 264 A0;
   Ld T5 272 A0; Ld T6 280 A0; Csrrw A0 Sscratch A0; Sret].

(** Addresses that the assembly takes from the linker. *)
Class AsmSymbols := {
  sym_kerneltrap : Z;
  sym_stack0 : Z;
  sym_start : Z;
}.

(** kernelvec.S *)
Definition kernelvec `{AsmSymbols} : list instr :=
  [Addi Sp Sp (-256); Sd Ra 0 Sp; Sd Sp 8 Sp; Sd Gp 16 Sp; Sd Tp 24 Sp; Sd T0 32 Sp; Sd T1 40 Sp;
   Sd T2 48 Sp; Sd S0 56 Sp; Sd S1 64 Sp; Sd A0 72 Sp; Sd A1 80 Sp; Sd A2 88 Sp; Sd A3 96 Sp;
   Sd A4 104 Sp; Sd A5 112 Sp; Sd A6 120 Sp; Sd A7 128 Sp; Sd S2 136 Sp; Sd S3 144 Sp;
   Sd S4 152 Sp; Sd S5 160 Sp; Sd S6 168 Sp; Sd S7 176 Sp; Sd S8 184 Sp; Sd S9 192 Sp;
   Sd S10 200 Sp; Sd S11 208 Sp; Sd T3 216 Sp; Sd T4 224 Sp; Sd T5 232 Sp; Sd T6 240 Sp;
   Call sym_kerneltrap; Ld Ra 0 Sp; Ld Sp 8 Sp; Ld Gp 16 Sp; Ld T0 32 Sp; Ld T1 40 Sp;
   Ld T2 48 Sp; Ld S0 56 Sp; Ld S1 64 Sp; Ld A0 72 Sp; Ld A1 80 Sp; Ld A2 88 Sp; Ld A3 96 Sp;
   Ld A4 104 Sp; Ld A5 112 Sp; Ld A6 120 Sp; Ld A7 128 Sp; Ld S2 136 Sp; Ld S3 144 Sp;
   Ld S4 152 Sp; Ld S5 160 Sp; Ld S6 168 Sp; Ld S7 176 Sp; Ld S8 184 Sp; Ld S9 192 Sp;
   Ld S10 200 Sp; Ld S11 208 Sp; Ld T3 216 Sp; Ld T4 224 Sp; Ld T5 232 Sp; Ld T6 240 Sp;
   Addi Sp Sp 256; Sret].

(** timervec of kernelvec.S *)
Definition timervec : list instr :=
  [Csrrw A0 Mscratch A0; Sd A1 0 A0; Sd A2 8 A0; Sd A3 16 A0; Ld A1 24 A0; Ld A2 32 A0; Ld A3 0 A1;
   Add A3 A3 A2; Sd A3 0 A1; Li A1 2; Csrw Sip A1; Ld A3 16 A0; Ld A2 8 A0; Ld A1 0 A0;
   Csrrw A0 Mscratch A0; Mret].

(** entry.S up to the call of start() *)
Definition entry_asm `{AsmSymbols} : list instr :=
  [La Sp sym_stack0; Li A0 (1024 * 4); Csrr A1 Mhartid; Addi A1 A1 1; Mul A0 A0 A1; Add Sp Sp A0;
   Call sym_start].

(** ** user/initcode.S *)

Module Initcode.

(** Instruction words: auipc, addi, ecall and jal, and bytes of 32-bit words. *)
Definition auipc (rd imm : Z) : Z := Z.lor (Z.shiftl imm 12) (Z.lor (Z.shiftl rd 7) 0x17).
Definition addi (rd rs imm : Z) : Z := Z.lor (Z.shiftl (imm mod 2 ^ 12) 20) (Z.lor (Z.shiftl rs 15) (Z.lor (Z.shiftl rd 7) 0x13)).
Definition ecall : Z := 0x73.
Definition jal (rd off : Z) : Z :=
  let bits hi lo := Z.land (Z.shiftr off lo) (Z.ones (hi - lo + 1)) in
  Z.lor (Z.shiftl (bits 20 20) 31) (Z.lor (Z.shiftl (bits 10 1) 21) (Z.lor (Z.shiftl (bits 11 11) 20)
    (Z.lor (Z.shiftl (bits 19 12) 12) (Z.lor (Z.shiftl rd 7) 0x6f)))).

Definition x_ra : Z := 1.
Definition x_a0 : Z := 10.
Definition x_a1 : Z := 11.
Definition x_a7 : Z := 17.

(** [la] at address [pc], for a symbol less than 2 KB away; [li] of a small number. *)
Definition la (rd pc sym : Z) : list Z := [auipc rd 0; addi rd rd (sym - pc)].
Definition li (rd v : Z) : list Z := [addi rd 0 v].

Definition init : Z := 0x24.

(** The words of the text, then the bytes of the string and, at [argv], the array. *)
Definition text (argv : Z) : list Z :=
  la x_a0 0 init ++ la x_a1 8 argv ++ li x_a7 7 ++ [ecall] ++ li x_a7 2 ++ [ecall; jal x_ra (0x18 - 0x20)].
Definition assemble (argv : Z) : list Z :=
  (text argv ≫= le_bytes 4) ++ [0x2f; 0x69; 0x6e; 0x69; 0x74; 0; 0] ++
  replicate (Z.to_nat (argv - 0x2b)) 0 ++ le_bytes 4 init ++ le_bytes 4 0.

(** initcode[] of kernel/proc.c is this program with argv directly behind the string, and a
    zero byte. *)
Lemma initcode_assembled : initcode = assemble 0x2b ++ [0].
Proof. reflexivity. Qed.

(** The file asks for an aligned argv; the array was not made from it. *)
Lemma initcode_not_aligned : forall l, initcode <> assemble 0x2c ++ l.
Proof. intros l. discriminate. Qed.

End Initcode.
