(* ===== verification/AsmProps.v ===== *)
(** * AsmProps

    The assembly of the kernel saves and restores what it says: a context switch, the way
    into the kernel and back through the trampoline, the kernel's own interrupt vector and
    the timer vector. *)
From stdpp Require Import base tactics list numbers gmap strings.
From S2P Require Import Prelude Machine Spinlock Bytes Queue Kalloc Vm Pagetable VmSpec UserMem VmProps KernelMap Kernel Proc ProcMem Trap UserInit Csr Boot BootProps Asm.

(** ** Tables of registers *)

(** Offsets of the fields that hold registers. *)
Definition regtable : Type := list (reg * Z).

Definition sds (b : reg) (t : regtable) : list instr := (fun '(r, o) => Sd r o b) <$> t.
Definition lds (b : reg) (t : regtable) : list instr := (fun '(r, o) => Ld r o b) <$> t.

Definition stores (f : reg -> Z) (pa : Z) (t : regtable) (m : mem) : mem :=
  foldl (fun m '(r, o) => store64 m (pa + o) (f r)) m t.
Definition loads (m : mem) (pa : Z) (t : regtable) (s : asm) : asm :=
  foldl (fun s '(r, o) => put r (load64 m (pa + o)) s) s t.

(** The fields are words of [len] bytes, each with one register. *)
Record table_ok (t : regtable) (len : Z) : Prop := {
  to_regs : NoDup t.*1;
  to_offs : NoDup t.*2;
  to_range : forall o, o ∈ t.*2 -> 0 <= o /\ o + 8 <= len /\ o mod 8 = 0;
}.

Lemma offset_in (t : regtable) r o : (r, o) ∈ t -> o ∈ t.*2.
Proof. intros Hin. apply list_elem_of_fmap. by exists (r, o). Qed.

Lemma reg_in (t : regtable) r o : (r, o) ∈ t -> r ∈ t.*1.
Proof. intros Hin. apply list_elem_of_fmap. by exists (r, o). Qed.

(** Memories that agree outside [len] bytes at [pa]. *)
Definition agree (pa len : Z) (m m' : mem) : Prop := forall x, ~ (pa <= x < pa + len) -> rd m' x = rd m x.

Lemma agree_refl pa len m : agree pa len m m.
Proof. by intros x _. Qed.
Lemma agree_trans pa len m1 m2 m3 : agree pa len m1 m2 -> agree pa len m2 m3 -> agree pa len m1 m3.
Proof. intros H1 H2 x Hx. by rewrite H2, H1. Qed.
Lemma agree_store pa len m o v : 0 <= o -> o + 8 <= len -> agree pa len m (store64 m (pa + o) v).
Proof. intros Ho Hl x Hx. apply rd_store64_other. lia. Qed.

Lemma agree_stores pa len f t m : (forall o, o ∈ t.*2 -> 0 <= o /\ o + 8 <= len /\ o mod 8 = 0) -> agree pa len m (stores f pa t m).
Proof.
  revert m. induction t as [|[r o] t IH]; intros m Ht; [apply agree_refl|]. simpl.
  destruct (Ht o) as (Ho & Hl & _); [by left|].
  eapply agree_trans; [by apply (agree_store pa len m o (f r))|]. apply IH. intros o' Ho'. apply Ht. by right.
Qed.

Lemma stores_other f pa t m b : (forall o, o ∈ t.*2 -> b + 8 <= pa + o \/ pa + o + 8 <= b) -> load64 (stores f pa t m) b = load64 m b.
Proof.
  revert m. induction t as [|[r o] t IH]; intros m Ht; [done|]. simpl.
  rewrite IH by (intros o' Ho'; apply Ht; by right). apply load64_store64_other.
  destruct (Ht o); [by left|lia|lia].
Qed.

Lemma stores_lookup f pa len t m r o : table_ok t len -> (r, o) ∈ t -> load64 (stores f pa t m) (pa + o) = u64 (f r).
Proof.
  revert m. induction t as [|[r' o'] t IH]; intros m [Hr Ho Hl] Hin; [by apply elem_of_nil in Hin|]. simpl in *.
  apply NoDup_cons in Hr as [Hr' Hr]. apply NoDup_cons in Ho as [Ho' Ho].
  apply elem_of_cons in Hin as [[= -> ->]|Hin].
  - rewrite stores_other; [apply load64_store64|]. intros o2 Ho2.
    destruct (Hl o') as (_ & _ & M1); [by left|]. destruct (Hl o2) as (_ & _ & M2); [by right|].
    assert (o2 <> o') by (intros ->; done). zlia.
  - apply IH; [|done]. constructor; [done|done|]. intros o2 Ho2. apply Hl. by right.
Qed.

Lemma stores_ext f g pa t m : (forall r, r ∈ t.*1 -> f r = g r) -> stores f pa t m = stores g pa t m.
Proof.
  revert m. induction t as [|[r o] t IH]; intros m Hfg; [done|]. simpl. rewrite (Hfg r) by (by left). apply IH. intros r' Hr'. apply Hfg. by right.
Qed.

Lemma loads_frame m pa t s : exists f, loads m pa t s = Asm f (a_csr s) (a_pc s) (a_priv s) (a_old s) (a_mem s).
Proof.
  revert s. induction t as [|[r o] t IH]; intros s; [exists (a_reg s); by destruct s|]. simpl. destruct (IH (put r (load64 m (pa + o)) s)) as (f & E). by exists f.
Qed.

Lemma loads_other m pa t s r : r ∉ t.*1 -> a_reg (loads m pa t s) r = a_reg s r.
Proof.
  revert s. induction t as [|[r' o] t IH]; intros s Hr; [done|]. simpl in *. rewrite not_elem_of_cons in Hr. destruct Hr as [Hne Hr].
  rewrite IH by done. simpl. by rewrite decide_False.
Qed.

Lemma loads_lookup m pa t s r o : NoDup t.*1 -> (r, o) ∈ t -> a_reg (loads m pa t s) r = load64 m (pa + o).
Proof.
  revert s. induction t as [|[r' o'] t IH]; intros s Hn Hin; [by apply elem_of_nil in Hin|]. simpl in *. apply NoDup_cons in Hn as [Hr Hn].
  apply elem_of_cons in Hin as [[= -> ->]|Hin]; [|by apply IH]. rewrite loads_other by done. simpl. by rewrite decide_True.
Qed.

Lemma reg_put_eq r v s : a_reg (put r v s) r = v.
Proof. simpl. by rewrite decide_True. Qed.
Lemma reg_put_ne r r' v s : r' <> r -> a_reg (put r v s) r' = a_reg s r'.
Proof. intros. simpl. by rewrite decide_False. Qed.

(** ** Running tables *)

(** Code [l] for the instructions [p], in [sz] bytes. *)
Record placed (sz : Z) (l : list (Z * instr)) (p : list instr) : Prop := {
  pl_code : l.*2 = p;
  pl_offs : Forall (fun x => 0 <= x.1 < sz) l;
}.

Lemma placed_app sz l p q : placed sz l (p ++ q) -> exists l1 l2, l = l1 ++ l2 /\ placed sz l1 p /\ placed sz l2 q.
Proof.
  intros [Hc Ho]. apply fmap_app_inv in Hc as (l1 & l2 & -> & -> & ->). apply Forall_app in Ho as [H1 H2].
  exists l1, l2. by split_and!.
Qed.

Lemma placed_cons sz l i q : placed sz l (i :: q) -> exists o l', l = (o, i) :: l' /\ 0 <= o < sz /\ placed sz l' q.
Proof.
  intros [Hc Ho]. destruct l as [|[o i'] l]; [done|]. injection Hc as -> Hc. apply Forall_cons in Ho as [H1 H2]. by exists o, l.
Qed.

Lemma placed_nil sz l : placed sz l [] -> l = [].
Proof. intros [Hc _]. by apply fmap_nil_inv in Hc. Qed.

Section run.
Context (callee : Z -> asm -> option asm) (va pa sz : Z).

Lemma exec_app l1 l2 s s' : exec callee va pa l1 s = Some s' -> exec callee va pa (l1 ++ l2) s = exec callee va pa l2 s'.
Proof.
  revert s. induction l1 as [|[o i] l1 IH]; intros s; simpl; [by intros [= ->]|]. case_decide; [|done].
  destruct (exec1 callee i s); [apply IH|done].
Qed.

(** What the code can fetch. *)
Definition fetches (s : asm) : Prop := forall o, 0 <= o < sz -> access s PTE_X (va + o) = Some (pa + o).

Lemma exec_step l i q s s' r :
  placed sz l (i :: q) -> fetches s -> exec1 callee i s = Some s' ->
  (forall l', placed sz l' q -> exec callee va pa l' s' = r) -> exec callee va pa l s = r.
Proof.
  intros Hp Hf He Hk. apply placed_cons in Hp as (o & l' & -> & Ho & Hp). simpl. rewrite decide_True by (by apply Hf). rewrite He. by apply Hk.
Qed.

(** The [len] bytes of data at [base], which are at [d] in memory, can be used whatever
    they hold, and so can the code. *)
Record window (s : asm) (base d len : Z) : Prop := {
  wi_fetch : forall m, agree d len (a_mem s) m -> fetches (put_mem m s);
  wi_data : forall m perm o, agree d len (a_mem s) m -> perm = PTE_R \/ perm = PTE_W -> 0 <= o -> o + 8 <= len ->
    o mod 8 = 0 -> access (put_mem m s) perm (base + o) = Some (d + o);
  wi_range : 0 <= base /\ base + len <= 2 ^ 64 /\ base mod 8 = 0;
}.

(** It does not depend on the registers. *)
Lemma window_same s s' base d len :
  window s base d len -> a_csr s' Satp = a_csr s Satp -> a_priv s' = a_priv s -> a_old s' = a_old s ->
  agree d len (a_mem s) (a_mem s') -> window s' base d len.
Proof.
  intros [Wf Wd Wr] Es Ep Eo Em.
  assert (Ha : forall m, access (put_mem m s') = access (put_mem m s)) by (intros m; unfold access; simpl; by rewrite Es, Ep, Eo).
  constructor; [| |done].
  - intros m Hm o Ho. rewrite Ha. apply Wf; [by eapply agree_trans|done].
  - intros m perm o Hm. rewrite Ha. apply Wd. by eapply agree_trans.
Qed.

Lemma put_mem_id s : put_mem (a_mem s) s = s.
Proof. by destruct s. Qed.

Lemma window_fetches s base d len : window s base d len -> fetches s.
Proof. intros W. rewrite <-(put_mem_id s). apply (wi_fetch _ _ _ _ W), agree_refl. Qed.

Lemma window_access s base d len perm o : window s base d len -> perm = PTE_R \/ perm = PTE_W -> 0 <= o -> o + 8 <= len -> o mod 8 = 0 ->
  aligned (u64 (base + o)) = Some (base + o) /\ access s perm (base + o) = Some (d + o).
Proof.
  intros W Hp H0 Hl Hm. destruct (wi_range _ _ _ _ W) as (? & ? & ?). split.
  - rewrite u64_id by lia. unfold aligned. assert (((base + o) mod 8 =? 0) = true) as -> by (apply Z.eqb_eq; zlia). done.
  - rewrite <-(put_mem_id s). apply (wi_data _ _ _ _ W); auto using agree_refl.
Qed.

Lemma exec1_sd s base d len r o b : window s base d len -> a_reg s b = base -> 0 <= o -> o + 8 <= len -> o mod 8 = 0 ->
  exec1 callee (Sd r o b) s = Some (put_mem (store64 (a_mem s) (d + o) (a_reg s r)) s).
Proof.
  intros W Hb H0 Hl Hm. destruct (window_access s base d len PTE_W o W) as [E1 E2]; auto. simpl. rewrite Hb, E1. simpl. by rewrite E2.
Qed.

Lemma exec1_ld s base d len r o b : window s base d len -> a_reg s b = base -> 0 <= o -> o + 8 <= len -> o mod 8 = 0 ->
  exec1 callee (Ld r o b) s = Some (put r (load64 (a_mem s) (d + o)) s).
Proof.
  intros W Hb H0 Hl Hm. destruct (window_access s base d len PTE_R o W) as [E1 E2]; auto. simpl. rewrite Hb, E1. simpl. by rewrite E2.
Qed.

Lemma exec_sds t b base d len s l :
  placed sz l (sds b t) -> window s base d len -> a_reg s b = base -> (forall o, o ∈ t.*2 -> 0 <= o /\ o + 8 <= len /\ o mod 8 = 0) ->
  exec callee va pa l s = Some (put_mem (stores (a_reg s) d t (a_mem s)) s).
Proof.
  revert s l. induction t as [|[r o] t IH]; intros s l Hp W Hb Ht.
  - apply placed_nil in Hp as ->. simpl. by rewrite put_mem_id.
  - destruct (Ht o) as (H0 & Hl & Hm); [by left|]. eapply exec_step; [exact Hp|by eapply window_fetches|by eapply exec1_sd|].
    intros l' Hp'. rewrite IH; [done|done| |done|].
    + eapply window_same; [exact W|done..|]. by apply agree_store.
    + intros o' Ho'. apply Ht. by right.
Qed.

(** A table may reload the base register with its value. *)
Lemma exec_lds t b base d len s l :
  placed sz l (lds b t) -> window s base d len -> a_reg s b = base -> (forall o, o ∈ t.*2 -> 0 <= o /\ o + 8 <= len /\ o mod 8 = 0) ->
  (forall o, (b, o) ∈ t -> load64 (a_mem s) (d + o) = base) ->
  exec callee va pa l s = Some (loads (a_mem s) d t s).
Proof.
  revert s l. induction t as [|[r o] t IH]; intros s l Hp W Hb Ht Hr.
  - by apply placed_nil in Hp as ->.
  - destruct (Ht o) as (H0 & Hl & Hm); [by left|]. eapply exec_step; [exact Hp|by eapply window_fetches|by eapply exec1_ld|].
    intros l' Hp'. rewrite IH; [done|done| | | |].
    + eapply window_same; [exact W|done..|]. apply agree_refl.
    + simpl. case_decide as Hbr; [|done]. subst r. apply Hr. by left.
    + intros o' Ho'. apply Ht. by right.
    + intros o' Ho'. apply Hr. by right.
Qed.

(** The code runs to the end, in a state with [Q]. *)
Definition runs (l : list (Z * instr)) (s : asm) (Q : asm -> Prop) : Prop := exists s', exec callee va pa l s = Some s' /\ Q s'.

Lemma runs_nil l s (Q : asm -> Prop) : placed sz l [] -> Q s -> runs l s Q.
Proof. intros Hp HQ. apply placed_nil in Hp as ->. by exists s. Qed.

Lemma runs_step l i q s s' Q :
  placed sz l (i :: q) -> fetches s -> exec1 callee i s = Some s' -> (forall l', placed sz l' q -> runs l' s' Q) -> runs l s Q.
Proof.
  intros Hp Hf He Hk. apply placed_cons in Hp as (o & l' & -> & Ho & Hp). destruct (Hk l' Hp) as (s2 & E & HQ).
  exists s2. split; [|done]. simpl. rewrite decide_True by (by apply Hf). by rewrite He.
Qed.

Lemma runs_app l p q s s' Q :
  placed sz l (p ++ q) -> (forall l1, placed sz l1 p -> exec callee va pa l1 s = Some s') -> (forall l2, placed sz l2 q -> runs l2 s' Q) -> runs l s Q.
Proof.
  intros Hp He Hk. apply placed_app in Hp as (l1 & l2 & -> & Hp1 & Hp2). destruct (Hk l2 Hp2) as (s2 & E & HQ).
  exists s2. split; [|done]. by rewrite (exec_app l1 l2 s s') by (by apply He).
Qed.

End run.

Lemma table_ok_check t len :
  bool_decide (NoDup t.*1 /\ NoDup t.*2 /\ Forall (fun o => 0 <= o /\ o + 8 <= len /\ o mod 8 = 0) t.*2) = true -> table_ok t len.
Proof. intros H. apply bool_decide_eq_true in H as (H1 & H2 & H3). rewrite Forall_forall in H3. by constructor. Qed.

(** ** The page tables *)

Section tables.
Context `{LayoutOk}.

Lemma MAKE_SATP_root root : page_ok root -> satp_root (MAKE_SATP root) = root /\ MAKE_SATP root <> 0.
Proof.
  intros [Hm Hr]. pose proof end_pos. unfold satp_root, MAKE_SATP, SATP_SV39. unfold PHYSTOP, KERNBASE, PGSIZE in *.
  assert (Hs : 0 <= Z.shiftr root 12 < 2 ^ 44) by (rewrite Z.shiftr_div_pow2 by lia; zlia).
  assert (E : Z.lor (Z.shiftl 8 60) (Z.shiftr root 12) = 8 * 2 ^ 60 + Z.shiftr root 12).
  { rewrite Z.shiftl_mul_pow2 by lia. replace (8 * 2 ^ 60) with (2 ^ 19 * 2 ^ 44) by lia. rewrite lor_add by lia. done. }
  rewrite E. split; [|lia].
  replace ((8 * 2 ^ 60 + Z.shiftr root 12) mod 2 ^ 44) with (Z.shiftr root 12) by zlia.
  rewrite Z.shiftl_mul_pow2, Z.shiftr_div_pow2 by lia. change 4096 with (2 ^ 12) in Hm. zlia.
Qed.

Lemma MAKE_SATP_range root : page_ok root -> 0 <= MAKE_SATP root < 2 ^ 64.
Proof.
  intros [Hm Hr]. pose proof end_pos. unfold MAKE_SATP, SATP_SV39, PHYSTOP, KERNBASE, PGSIZE in *. apply lor_range; [lia|by vm_compute|].
  rewrite Z.shiftr_div_pow2 by lia. zlia.
Qed.

(** An address that a table maps outside user mode. *)
Lemma translate_leaf root m perm va q f :
  page_ok root -> entry m root va = leaf q f -> 0 <= va < MAXVA -> pa_ok q -> 0 <= f < 2 ^ 10 -> 0 <= perm < 2 ^ 10 ->
  has (Z.lor f PTE_V) perm = true -> has (Z.lor f PTE_V) PTE_U = false ->
  translate (MAKE_SATP root) m perm va = Some (q + va mod PGSIZE).
Proof.
  intros Hr He Hva Hq Hf Hp Hperm Hu. destruct (MAKE_SATP_root root Hr) as [E1 E2]. unfold translate.
  rewrite (proj2 (Z.eqb_neq _ _)) by done. rewrite bool_decide_true, E1, He by done.
  rewrite has_V_leaf, !has_leaf, Hperm, Hu, PTE2PA_leaf by (auto; done). done.
Qed.

(** The hart runs in the kernel, on the table that kvmmake built. *)
Record kernel_on (root : Z) (kps ks : list Z) (s : asm) : Prop := {
  ko_mode : a_priv s = 1 /\ a_csr s Satp = MAKE_SATP root /\ a_old s = None;
  ko_own : pt_own (a_mem s) root kps;
  ko_entry : forall va, 0 <= va < MAXVA -> entry (a_mem s) root va = kspace ks va;
}.

(** Memory outside the table. *)
Definition clear_of (d len : Z) (ps : list Z) : Prop := forall p, p ∈ ps -> d + len <= p \/ p + PGSIZE <= d.

Lemma agree_tables d len ps m m' p x : agree d len m m' -> clear_of d len ps -> p ∈ ps -> in_page p x -> rd m' x = rd m x.
Proof. intros Ha Hc Hp Hx. apply Ha. unfold in_page in Hx. destruct (Hc p Hp); lia. Qed.

Lemma kernel_on_same root kps ks s s' d len :
  kernel_on root kps ks s -> a_priv s' = a_priv s -> a_csr s' Satp = a_csr s Satp -> a_old s' = a_old s ->
  agree d len (a_mem s) (a_mem s') -> clear_of d len kps -> kernel_on root kps ks s'.
Proof.
  intros [Hm Ho He] E1 E2 E3 Ha Hc. constructor.
  - by rewrite E1, E2, E3.
  - eapply pt_own_same; [exact Ho|]. intros p x. by eapply agree_tables.
  - intros va Hva. rewrite <-He by done. eapply entry_same; [exact Ho|]. intros p x. by eapply agree_tables.
Qed.

Lemma kernel_root root kps ks s : kernel_on root kps ks s -> page_ok root.
Proof. intros [_ Ho _]. exact (po_page _ _ _ [] root Ho vpath_nil eq_refl). Qed.

Lemma kernel_access root kps ks s perm va q f :
  kernel_on root kps ks s -> kspace ks va = leaf q f -> 0 <= va < MAXVA -> pa_ok q -> 0 <= f < 2 ^ 10 -> 0 <= perm < 2 ^ 10 ->
  has (Z.lor f PTE_V) perm = true -> has (Z.lor f PTE_V) PTE_U = false -> access s perm va = Some (q + va mod PGSIZE).
Proof.
  intros Hk Hs Hva Hq Hf Hp H1 H2. pose proof (kernel_root _ _ _ _ Hk). destruct Hk as [(E1 & E2 & E3) Ho He].
  unfold access, mmu. rewrite E1, E2, E3. simpl. erewrite translate_leaf by (try done; by rewrite He). done.
Qed.

Lemma page_of_ok va : 0 <= va < 2 ^ 38 -> pa_ok (page_of va) /\ page_of va + va mod PGSIZE = va.
Proof. intros Hva. unfold page_of, pa_ok, PGSIZE. split; [split|]; zlia. Qed.

(** Kernel text is fetched from where it is. *)
Lemma kernel_text root kps ks s va sz : kernel_on root kps ks s -> KERNBASE <= va -> va + sz <= l_etext -> fetches va va sz s.
Proof.
  intros Hk H1 H2 o Ho. pose proof l_end_range. pose proof MAXVA_eq as HM. destruct PERM_range as [Hrx Hrw]. unfold PHYSTOP, KERNBASE in *.
  destruct (page_of_ok (va + o)) as [Hq E]; [lia|].
  rewrite <-E at 2. apply (kernel_access root kps ks s PTE_X (va + o) (page_of (va + o)) PERM_RX); [done| |lia|done|done|done|done|done].
  unfold kspace. rewrite decide_False, decide_True; [done|unfold KERNBASE; lia|]. unfold UART0, VIRTIO0, PLIC, PGSIZE. lia.
Qed.

(** A window on kernel data, where it is, and one on the stack of process [i]. *)
Lemma kernel_data_window root kps ks s va sz d len :
  kernel_on root kps ks s -> KERNBASE <= va -> va + sz <= l_etext -> l_etext <= d -> d + len <= PHYSTOP -> d mod 8 = 0 ->
  clear_of d len kps -> window va va sz s d d len.
Proof.
  intros Hk Hv Hsz Hd Hl Hm Hc. pose proof MAXVA_eq as HM. pose proof l_etext_range. destruct PERM_range as [Hrx Hrw].
  assert (Hkm : forall m, agree d len (a_mem s) m -> kernel_on root kps ks (put_mem m s)) by (intros m Hag; by eapply kernel_on_same).
  constructor.
  - intros m Hag. eapply kernel_text; [by apply Hkm|done|done].
  - intros m perm o Hag Hp Ho1 Ho Hal. unfold PHYSTOP, KERNBASE in *. destruct (page_of_ok (d + o)) as [Hq E]; [lia|].
    rewrite <-E at 2. eapply kernel_access; [by apply Hkm| |lia|done|exact Hrw| | |done]; [|by destruct Hp as [-> | ->]..].
    unfold kspace. rewrite decide_False, decide_False, decide_True; [done|..]; unfold UART0, VIRTIO0, PLIC, PGSIZE, PHYSTOP, KERNBASE; lia.
  - unfold PHYSTOP, KERNBASE in *. lia.
Qed.

Lemma kernel_stack_window root kps ks s va sz i k base len :
  kernel_on root kps ks s -> KERNBASE <= va -> va + sz <= l_etext -> (length ks <= NPROC)%nat -> ks !! i = Some k -> page_ok k -> k ∉ kps ->
  KSTACK (Z.of_nat i) <= base -> base + len <= KSTACK (Z.of_nat i) + PGSIZE -> 0 < len -> base mod 8 = 0 ->
  window va va sz s base (k + (base - KSTACK (Z.of_nat i))) len.
Proof.
  intros Hk Hv Hsz Hn Hi Hok Hnk Hb Hl Hlen Hm. pose proof MAXVA_eq as HM. destruct PERM_range as [Hrx Hrw].
  assert (Hc : clear_of (k + (base - KSTACK (Z.of_nat i))) len kps).
  { intros p Hp. pose proof (po_ok _ _ _ (ko_own _ _ _ _ Hk)) as Hps. rewrite Forall_forall in Hps. destruct (Hps p Hp) as [Hp1 _]. destruct Hok as [Hk1 _].
    assert (p <> k) by (intros ->; done). unfold PGSIZE in *. zlia. }
  assert (Hkm : forall m, agree _ len (a_mem s) m -> kernel_on root kps ks (put_mem m s)) by (intros m Hag; by eapply kernel_on_same).
  apply lookup_lt_Some in Hi as Hlt. rewrite KSTACK_eq in *. unfold NPROC in Hn. constructor.
  - intros m Hag. eapply kernel_text; [by apply Hkm|done|done].
  - intros m perm o Hag Hp Ho1 Ho Hal.
    assert (E : k + (base + o) mod PGSIZE = k + (base - (MAXVA - PGSIZE - (Z.of_nat i + 1) * 8192)) + o) by (rewrite HM in *; unfold PGSIZE in *; zlia).
    rewrite <-E. eapply kernel_access; [by apply Hkm| | |by apply page_ok_pa|exact Hrw| | |done]; [|unfold PGSIZE in *; lia|by destruct Hp as [-> | ->]..].
    apply (kspace_kstack ks i); [unfold NPROC; lia|done|]. rewrite KSTACK_eq. lia.
  - unfold PGSIZE in *. lia.
Qed.

End tables.

(** ** Context switches *)

(** struct context *)
Definition context_regs : regtable :=
  [(Ra, 0); (Sp, 8); (S0, 16); (S1, 24); (S2, 32); (S3, 40); (S4, 48); (S5, 56); (S6, 64); (S7, 72); (S8, 80); (S9, 88); (S10, 96); (S11, 104)].

Lemma context_ok : table_ok context_regs 112.
Proof. by apply table_ok_check. Qed.

Lemma swtch_parts : swtch = sds A0 context_regs ++ lds A1 context_regs ++ [Jr Ra].
Proof. reflexivity. Qed.

(** The registers are machine words. *)
Definition regs_ok (s : asm) : Prop := forall r, 0 <= a_reg s r < 2 ^ 64.

Lemma swtch_run callee va sz l s old new :
  placed sz l swtch -> a_reg s A0 = old -> a_reg s A1 = new -> window va va sz s old old 112 ->
  (forall m, agree old 112 (a_mem s) m -> window va va sz (put_mem m s) new new 112) -> (new + 112 <= old \/ old + 112 <= new) ->
  runs callee va va l s (fun s' => a_mem s' = stores (a_reg s) old context_regs (a_mem s) /\ a_pc s' = load64 (a_mem s) new /\
    (forall r o, (r, o) ∈ context_regs -> a_reg s' r = load64 (a_mem s) (new + o)) /\
    (forall r, r ∉ context_regs.*1 -> a_reg s' r = a_reg s r) /\
    a_csr s' = a_csr s /\ a_priv s' = a_priv s /\ a_old s' = a_old s).
Proof.
  intros Hp Ha0 Ha1 W1 W2 Hd. pose proof context_ok as Hok. rewrite swtch_parts in Hp.
  eapply runs_app; [exact Hp|intros l1 Hl1; by apply (exec_sds callee va va sz context_regs A0 old old 112 s l1 Hl1 W1 Ha0 (to_range _ _ Hok))|].
  clear l Hp. intros l Hp. set (m1 := stores _ _ _ _). assert (Hag : agree old 112 (a_mem s) m1) by apply agree_stores, Hok.
  eapply runs_app; [exact Hp| |].
  { intros l2 Hl2. apply (exec_lds callee va va sz context_regs A1 new new 112 (put_mem m1 s) l2); [done|by apply W2|done|apply Hok|].
    intros o Ho%reg_in. exfalso. clear -Ho. revert Ho. by apply (bool_decide_unpack _). }
  clear l Hp. intros l Hp. change (a_mem (put_mem m1 s)) with m1. destruct (loads_frame m1 new context_regs (put_mem m1 s)) as (f & Ef).
  assert (Hin : forall r o, (r, o) ∈ context_regs -> a_reg (loads m1 new context_regs (put_mem m1 s)) r = load64 (a_mem s) (new + o)).
  { intros r o Ho. rewrite (loads_lookup _ _ _ _ r o (to_regs _ _ Hok) Ho). apply stores_other. intros o' Ho'. apply offset_in in Ho.
    destruct (to_range _ _ Hok o Ho) as (? & ? & _). destruct (to_range _ _ Hok o' Ho') as (? & ? & _). lia. }
  eapply runs_step; [exact Hp| |reflexivity|].
  { eapply (window_fetches _ _ _ _ new new 112), window_same; [by apply (W2 m1)|..]; rewrite Ef; [done..|]. apply agree_refl. }
  intros l' Hl'. apply (runs_nil _ _ _ sz); [done|]. cbn [put_pc a_reg a_mem a_pc a_csr a_priv a_old]. split_and!; try by rewrite Ef.
  - rewrite (Hin Ra 0) by (by left). by rewrite Z.add_0_r.
  - exact Hin.
  - intros r Hr. by rewrite loads_other.
Qed.

Section switch.
Context `{LayoutOk} (callee : Z -> asm -> option asm) (root : Z) (kps ks : list Z).

(** A struct context in the kernel's data. *)
Definition is_context (c : Z) : Prop := l_etext <= c /\ c + 112 <= l_end /\ c mod 8 = 0.

Lemma context_window s va sz c : kernel_on root kps ks s -> KERNBASE <= va -> va + sz <= l_etext -> is_context c ->
  window va va sz s c c 112 /\ clear_of c 112 kps.
Proof.
  intros Hk Hv Hsz (H1 & H2 & H3). pose proof l_end_range. assert (Hc : clear_of c 112 kps).
  { intros p Hp. pose proof (po_ok _ _ _ (ko_own _ _ _ _ Hk)) as Hps. rewrite Forall_forall in Hps. destruct (Hps p Hp). lia. }
  split; [|done]. apply (kernel_data_window root kps ks); auto. lia.
Qed.

Lemma swtch_kernel va sz l s old new :
  placed sz l swtch -> KERNBASE <= va -> va + sz <= l_etext -> kernel_on root kps ks s -> a_reg s A0 = old -> a_reg s A1 = new ->
  is_context old -> is_context new -> (new + 112 <= old \/ old + 112 <= new) ->
  exists s', exec callee va va l s = Some s' /\ a_mem s' = stores (a_reg s) old context_regs (a_mem s) /\ a_pc s' = load64 (a_mem s) new /\
    (forall r o, (r, o) ∈ context_regs -> a_reg s' r = load64 (a_mem s) (new + o)) /\
    (forall r, r ∉ context_regs.*1 -> a_reg s' r = a_reg s r) /\ kernel_on root kps ks s'.
Proof.
  intros Hp Hv Hsz Hk Ha0 Ha1 Ho Hn Hd. destruct (context_window s va sz old Hk Hv Hsz Ho) as [W1 C1].
  destruct (swtch_run callee va sz l s old new Hp Ha0 Ha1 W1) as (s' & E & Em & Ep & Hin & Hout & Ec & Epr & Eo); [|done|].
  { intros m Hm. apply context_window; [|done..]. by eapply kernel_on_same. }
  exists s'. split_and!; try done. eapply kernel_on_same; [exact Hk|done|by rewrite Ec|done| |exact C1].
  rewrite Em. apply agree_stores, context_ok.
Qed.

(** C17: swtch saves the registers that a function must preserve, with the return address
    and the stack pointer, in the context of the thread that calls it, loads those of the
    other context and returns there; it leaves the other registers, all other memory and
    the page table. Whenever the kernel, on this or another hart, later switches to the
    saved context, the first thread returns from its own call of swtch with exactly the
    registers it had. *)
Theorem swtch_switches va sz l s old new :
  placed sz l swtch -> KERNBASE <= va -> va + sz <= l_etext -> kernel_on root kps ks s -> regs_ok s ->
  a_reg s A0 = old -> a_reg s A1 = new -> is_context old -> is_context new -> (new + 112 <= old \/ old + 112 <= new) ->
  exists s1, exec callee va va l s = Some s1 /\ kernel_on root kps ks s1 /\ agree old 112 (a_mem s) (a_mem s1) /\
    a_pc s1 = load64 (a_mem s) new /\ (forall r o, (r, o) ∈ context_regs -> a_reg s1 r = load64 (a_mem s) (new + o)) /\
    (forall r, r ∉ context_regs.*1 -> a_reg s1 r = a_reg s r) /\
    forall s2 cur, kernel_on root kps ks s2 -> a_reg s2 A0 = cur -> a_reg s2 A1 = old -> is_context cur -> (old + 112 <= cur \/ cur + 112 <= old) ->
      (forall o, o ∈ context_regs.*2 -> load64 (a_mem s2) (old + o) = load64 (a_mem s1) (old + o)) ->
      exists s3, exec callee va va l s2 = Some s3 /\ kernel_on root kps ks s3 /\ a_pc s3 = a_reg s Ra /\
        forall r, r ∈ context_regs.*1 -> a_reg s3 r = a_reg s r.
Proof.
  intros Hp Hv Hsz Hk Hr Ha0 Ha1 Ho Hn Hd.
  destruct (swtch_kernel va sz l s old new Hp Hv Hsz Hk Ha0 Ha1 Ho Hn Hd) as (s1 & E & Em & Ep & Hin & Hout & Hk1).
  exists s1. split_and!; try done; [rewrite Em; apply agree_stores, context_ok|]. intros s2 cur Hk2 Hc0 Hc1 Hc Hd2 Hsame.
  destruct (swtch_kernel va sz l s2 cur old Hp Hv Hsz Hk2 Hc0 Hc1 Hc Ho Hd2) as (s3 & E3 & _ & Ep3 & Hin3 & _ & Hk3).
  assert (Hall : forall r o, (r, o) ∈ context_regs -> load64 (a_mem s2) (old + o) = a_reg s r).
  { intros r o Hro. rewrite Hsame, Em by (by eapply offset_in). rewrite (stores_lookup _ _ _ _ _ _ _ context_ok Hro). by apply u64_id. }
  exists s3. split_and!; try done.
  - rewrite Ep3, <-(Hall Ra 0) by (by left). by rewrite Z.add_0_r.
  - intros r Hrin. apply list_elem_of_fmap in Hrin as ([r' o] & -> & Hro). cbn [fst]. by rewrite (Hin3 _ _ Hro), (Hall _ _ Hro).
Qed.

End switch.

(** ** The trampoline *)

(** The user registers in struct trapframe, and all but a0 of them. *)
Definition trap_regs : regtable :=
  [(Ra, 40); (Sp, 48); (Gp, 56); (Tp, 64); (T0, 72); (T1, 80); (T2, 88); (S0, 96); (S1, 104); (A1, 120); (A2, 128); (A3, 136);
   (A4, 144); (A5, 152); (A6, 160); (A7, 168); (S2, 176); (S3, 184); (S4, 192); (S5, 200); (S6, 208); (S7, 216); (S8, 224); (S9, 232);
   (S10, 240); (S11, 248); (T3, 256); (T4, 264); (T5, 272); (T6, 280)].
Definition frame_regs : regtable := trap_regs ++ [(A0, 112)].
Definition kernel_fields : regtable := [(Sp, 8); (Tp, 32); (T0, 16); (T1, 0)].

Lemma trap_regs_ok : table_ok trap_regs PGSIZE.
Proof. by apply table_ok_check. Qed.
Lemma frame_regs_ok : table_ok frame_regs PGSIZE.
Proof. by apply table_ok_check. Qed.
Lemma kernel_fields_ok : table_ok kernel_fields PGSIZE.
Proof. by apply table_ok_check. Qed.

(** Every register of the machine is in the trapframe. *)
Lemma frame_regs_all r : exists o, (r, o) ∈ frame_regs.
Proof.
  assert (Hr : r ∈ frame_regs.*1) by (destruct r; by apply (bool_decide_unpack _)).
  apply list_elem_of_fmap in Hr as ([r' o] & -> & Hr). by exists o.
Qed.

Lemma uservec_parts : uservec =
  [Csrrw A0 Sscratch A0] ++ sds A0 trap_regs ++ [Csrr T0 Sscratch; Sd T0 112 A0] ++ lds A0 kernel_fields ++ [Csrw Satp T1; SfenceVma; Jr T0].
Proof. reflexivity. Qed.
Lemma userret_parts : userret_asm =
  [Csrw Satp A1; SfenceVma; Ld T0 112 A0; Csrw Sscratch T0] ++ lds A0 trap_regs ++ [Csrrw A0 Sscratch A0; Sret].
Proof. reflexivity. Qed.

Section trampoline.
Context `{LayoutOk} (uroot tf kroot : Z) (ups kps ks : list Z).

(** The process's page table and the kernel's, in memory [m]: both have the trampoline at
    the same address, and the process's the trapframe below it. *)
Record trap_tables (m : mem) : Prop := {
  tt_user : pt_own m uroot ups;
  tt_kernel : pt_own m kroot kps;
  tt_page : page_ok tf /\ (tf ∉ ups) /\ tf ∉ kps;
  tt_tramp : forall va, TRAMPOLINE <= va < MAXVA -> entry m uroot va = leaf l_trampoline PERM_RX;
  tt_frame : forall va, TRAPFRAME <= va < TRAMPOLINE -> entry m uroot va = leaf tf PERM_RW;
  tt_entry : forall va, 0 <= va < MAXVA -> entry m kroot va = kspace ks va;
}.

Lemma tf_clear m ps root : pt_own m root ps -> page_ok tf -> tf ∉ ps -> clear_of tf PGSIZE ps.
Proof.
  intros Ho [Ht _] Hn p Hp. pose proof (po_ok _ _ _ Ho) as Hps. rewrite Forall_forall in Hps. destruct (Hps p Hp) as [Hp1 _].
  assert (p <> tf) by (intros ->; done). unfold PGSIZE in *. zlia.
Qed.

Lemma trap_tables_same m m' : trap_tables m -> agree tf PGSIZE m m' -> trap_tables m'.
Proof.
  intros [Hu Hk (Ht & Hnu & Hnk) Htr Hfr He] Ha. pose proof (tf_clear m ups uroot Hu Ht Hnu) as Cu. pose proof (tf_clear m kps kroot Hk Ht Hnk) as Ck.
  assert (Eu : forall va, entry m' uroot va = entry m uroot va) by (intros va; apply (entry_same m m' uroot ups); [done|]; intros p x; by eapply agree_tables).
  assert (Ek : forall va, entry m' kroot va = entry m kroot va) by (intros va; apply (entry_same m m' kroot kps); [done|]; intros p x; by eapply agree_tables).
  constructor; [eapply pt_own_same; [done|]; intros p x; by eapply agree_tables|eapply pt_own_same; [done|]; intros p x; by eapply agree_tables|done|..];
    intros va Hva; rewrite ?Eu, ?Ek; auto.
Qed.

Lemma own_root m root ps : pt_own m root ps -> page_ok root.
Proof. intros Ho. exact (po_page _ _ _ [] root Ho vpath_nil eq_refl). Qed.

(** The trampoline is fetched through either table. *)
Lemma tramp_fetch m satp o : trap_tables m -> satp = MAKE_SATP uroot \/ satp = MAKE_SATP kroot -> 0 <= o < PGSIZE ->
  translate satp m PTE_X (TRAMPOLINE + o) = Some (l_trampoline + o).
Proof.
  intros Ht Hs Ho. pose proof MAXVA_eq as HM. destruct PERM_range as [Hrx Hrw]. change TRAMPOLINE with (MAXVA - PGSIZE).
  assert (E : (MAXVA - PGSIZE + o) mod PGSIZE = o) by (rewrite HM; unfold PGSIZE in *; zlia). rewrite <-E at 2.
  assert (Hr : 0 <= MAXVA - PGSIZE + o < MAXVA) by (rewrite HM; unfold PGSIZE in *; lia).
  destruct Hs as [-> | ->].
  - apply (translate_leaf uroot m PTE_X _ l_trampoline PERM_RX); [by eapply own_root, Ht|apply (tt_tramp _ Ht); change TRAMPOLINE with (MAXVA - PGSIZE); lia|done|apply pa_ok_trampoline|done..].
  - apply (translate_leaf kroot m PTE_X _ l_trampoline PERM_RX); [by eapply own_root, Ht| |done|apply pa_ok_trampoline|done..].
    rewrite (tt_entry _ Ht) by done. pose proof l_end_range. unfold kspace, UART0, VIRTIO0, PLIC, PHYSTOP, KERNBASE in *. change TRAMPOLINE with (MAXVA - PGSIZE).
    rewrite HM in *. unfold PGSIZE in *. do 3 rewrite decide_False by lia. by rewrite decide_True by lia.
Qed.

Lemma tramp_fetches s : trap_tables (a_mem s) -> a_priv s = 1 -> a_csr s Satp = MAKE_SATP uroot \/ a_csr s Satp = MAKE_SATP kroot ->
  match a_old s with None => True | Some x => x = MAKE_SATP uroot \/ x = MAKE_SATP kroot end -> fetches TRAMPOLINE l_trampoline PGSIZE s.
Proof.
  intros Ht Hp Hs Ho o Hoff. unfold access, mmu. rewrite Hp. simpl. rewrite (tramp_fetch _ _ _ Ht Hs Hoff). simpl.
  destruct (a_old s) as [x|]; [|done]. by rewrite decide_True by (by apply tramp_fetch).
Qed.

(** With the user table, the trapframe can be used at TRAPFRAME. *)
Lemma frame_window s : trap_tables (a_mem s) -> a_priv s = 1 -> a_csr s Satp = MAKE_SATP uroot -> a_old s = None ->
  window TRAMPOLINE l_trampoline PGSIZE s TRAPFRAME tf PGSIZE.
Proof.
  intros Ht Hp Hs Ho. pose proof MAXVA_eq as HM. destruct PERM_range as [Hrx Hrw]. pose proof TRAPFRAME_MAXVA as HT.
  constructor.
  - intros m Hm. apply tramp_fetches; [by eapply trap_tables_same|done|by left|by simpl; rewrite Ho].
  - intros m perm o Hm Hperm H1 H2 H3. apply trap_tables_same with (m' := m) in Ht; [|done]. unfold access, mmu. simpl. rewrite Hp, Hs, Ho. simpl.
    assert (E : (TRAPFRAME + o) mod PGSIZE = o) by (rewrite HT, HM; unfold PGSIZE in *; zlia).
    rewrite (translate_leaf uroot m perm (TRAPFRAME + o) tf PERM_RW);
      [by rewrite E|by eapply own_root, Ht| | |apply page_ok_pa, Ht|done|by destruct Hperm as [-> | ->]..|done].
    + apply (tt_frame _ Ht). change TRAMPOLINE with (MAXVA - PGSIZE). rewrite HT. unfold PGSIZE in *. lia.
    + rewrite HT, HM. unfold PGSIZE in *. lia.
  - rewrite HT, HM. unfold PGSIZE. split_and!; [lia|lia|done].
Qed.

Context (callee : Z -> asm -> option asm).

Lemma uservec_run l s :
  placed PGSIZE l uservec -> trap_tables (a_mem s) -> a_priv s = 1 -> a_csr s Satp = MAKE_SATP uroot -> a_old s = None ->
  a_csr s Sscratch = TRAPFRAME -> load64 (a_mem s) tf = MAKE_SATP kroot ->
  runs callee TRAMPOLINE l_trampoline l s (fun s' => a_mem s' = stores (a_reg s) tf frame_regs (a_mem s) /\
    a_pc s' = load64 (a_mem s) (tf + 16) /\ a_reg s' Sp = load64 (a_mem s) (tf + 8) /\ a_reg s' Tp = load64 (a_mem s) (tf + 32) /\
    a_csr s' = csr_put Satp (MAKE_SATP kroot) (csr_put Sscratch (a_reg s A0) (a_csr s)) /\ a_priv s' = 1 /\ a_old s' = None).
Proof.
  intros Hp Ht Hpr Hs Ho Hsc Hks. rewrite uservec_parts in Hp. pose proof (frame_window s Ht Hpr Hs Ho) as W.
  eapply runs_step; [exact Hp|by eapply window_fetches|reflexivity|]. clear l Hp. intros l Hp. set (s1 := put A0 _ _).
  assert (W1 : window TRAMPOLINE l_trampoline PGSIZE s1 TRAPFRAME tf PGSIZE) by (eapply window_same; [exact W|done..|apply agree_refl]).
  assert (Ha0 : a_reg s1 A0 = TRAPFRAME) by done.
  eapply runs_app; [exact Hp|intros l1 Hl1; exact (exec_sds callee _ _ PGSIZE trap_regs A0 TRAPFRAME tf PGSIZE s1 l1 Hl1 W1 Ha0 (to_range _ _ trap_regs_ok))|].
  clear l Hp. intros l Hp. set (m1 := stores _ _ _ _). set (s2 := put_mem m1 s1).
  assert (Hag : agree tf PGSIZE (a_mem s) m1) by (apply agree_stores, trap_regs_ok).
  assert (W2 : window TRAMPOLINE l_trampoline PGSIZE s2 TRAPFRAME tf PGSIZE) by (eapply window_same; [exact W|done..|exact Hag]).
  eapply runs_step; [exact Hp|by eapply window_fetches|reflexivity|]. clear l Hp. intros l Hp. set (s3 := put T0 _ _).
  assert (W3 : window TRAMPOLINE l_trampoline PGSIZE s3 TRAPFRAME tf PGSIZE) by (eapply window_same; [exact W|done..|exact Hag]).
  eapply runs_step; [exact Hp|by eapply window_fetches|eapply exec1_sd; [exact W3|done|done|done|done]|].
  clear l Hp. intros l Hp. set (m2 := store64 _ _ _). set (s4 := put_mem m2 s3).
  assert (Em : m2 = stores (a_reg s) tf frame_regs (a_mem s)).
  { unfold frame_regs, stores. rewrite foldl_app. change (foldl _ (a_mem s) trap_regs) with (stores (a_reg s) tf trap_regs (a_mem s)).
    cbn [foldl]. rewrite (stores_ext (a_reg s) (a_reg s1)); [done|]. intros r Hr. cbn. rewrite decide_False; [done|].
    intros ->. clear -Hr. revert Hr. by apply (bool_decide_unpack _). }
  assert (Hag2 : agree tf PGSIZE (a_mem s) m2) by (rewrite Em; apply agree_stores, frame_regs_ok).
  assert (W4 : window TRAMPOLINE l_trampoline PGSIZE s4 TRAPFRAME tf PGSIZE) by (eapply window_same; [exact W|done..|exact Hag2]).
  assert (Hk : forall o, o ∈ kernel_fields.*2 -> load64 m2 (tf + o) = load64 (a_mem s) (tf + o)).
  { intros o Hko. rewrite Em. apply stores_other. intros o' Ho'. assert (o <= 32) by (clear -Hko; revert o Hko; apply Forall_forall; by apply (bool_decide_unpack _)).
    assert (40 <= o'); [|lia]. clear -Ho'. revert o' Ho'. apply Forall_forall. by apply (bool_decide_unpack _). }
  eapply runs_app; [exact Hp|intros l1 Hl1; apply (exec_lds callee _ _ PGSIZE kernel_fields A0 TRAPFRAME tf PGSIZE s4 l1 Hl1 W4);
    [done|apply kernel_fields_ok|intros o Hko%reg_in; exfalso; clear -Hko; revert Hko; by apply (bool_decide_unpack _)]|].
  clear l Hp. intros l Hp. change (a_mem s4) with m2. set (s5 := loads _ _ _ _).
  assert (Hf : a_csr s5 = a_csr s4 /\ a_priv s5 = 1 /\ a_old s5 = None /\ a_mem s5 = m2).
  { unfold s5. destruct (loads_frame m2 tf kernel_fields s4) as (f & ->). by split_and!. }
  assert (Hr : forall r o, (r, o) ∈ kernel_fields -> a_reg s5 r = load64 (a_mem s) (tf + o)).
  { intros r o Hro. unfold s5. rewrite (loads_lookup _ _ _ _ r o (to_regs _ _ kernel_fields_ok) Hro). apply Hk. by eapply offset_in. }
  clearbody s5. destruct Hf as (Ec & Ep & Eo & Em5).
  assert (Ht2 : trap_tables m2) by (by eapply trap_tables_same).
  assert (Es : a_csr s5 Satp = MAKE_SATP uroot) by (rewrite Ec; exact Hs).
  assert (E1 : a_reg s5 T1 = MAKE_SATP kroot) by (rewrite (Hr T1 0) by (by do 3 right; left); by rewrite Z.add_0_r).
  eapply runs_step; [exact Hp|apply tramp_fetches; [by rewrite Em5|done|by left|by rewrite Eo]|reflexivity|]. clear l Hp. intros l Hp. set (s6 := put_csr _ _ _).
  assert (E6 : a_csr s6 Satp = MAKE_SATP kroot) by (cbn; by rewrite csr_put_eq).
  assert (Eo6 : a_old s6 = Some (MAKE_SATP uroot)) by (cbn; by rewrite Es).
  eapply runs_step; [exact Hp|apply tramp_fetches; [cbn; by rewrite Em5|done|by right|rewrite Eo6; by left]|reflexivity|].
  clear l Hp. intros l Hp. set (s7 := Asm _ _ _ _ _ _).
  eapply runs_step; [exact Hp|apply tramp_fetches; [cbn; by rewrite Em5|done|by right|done]|reflexivity|].
  clear l Hp. intros l Hp. apply (runs_nil _ _ _ PGSIZE); [done|]. cbn. split_and!; [by rewrite Em5|apply (Hr T0 16)|apply (Hr Sp 8)|apply (Hr Tp 32)|..|done|done].
  - by do 2 right; left.
  - by left.
  - by right; left.
  - by rewrite E1, Ec.
Qed.

Lemma userret_run l s :
  placed PGSIZE l userret_asm -> trap_tables (a_mem s) -> a_priv s = 1 -> a_csr s Satp = MAKE_SATP kroot -> a_old s = None ->
  a_reg s A0 = TRAPFRAME -> a_reg s A1 = MAKE_SATP uroot ->
  runs callee TRAMPOLINE l_trampoline l s (fun s' => a_mem s' = a_mem s /\ a_pc s' = a_csr s Sepc /\
    (forall r o, (r, o) ∈ frame_regs -> a_reg s' r = load64 (a_mem s) (tf + o)) /\ a_csr s' Satp = MAKE_SATP uroot /\
    a_csr s' Sscratch = TRAPFRAME /\ a_csr s' Sstatus = sret_status (a_csr s Sstatus) /\ a_priv s' = (if Z.testbit (a_csr s Sstatus) 8 then 1 else 0) /\ a_old s' = None).
Proof.
  intros Hp Ht Hpr Hs Ho Ha0 Ha1. rewrite userret_parts in Hp.
  eapply runs_step; [exact Hp|apply tramp_fetches; [done|done|by right|by rewrite Ho]|reflexivity|]. clear l Hp. intros l Hp. set (s1 := put_csr _ _ _).
  assert (E1 : a_csr s1 Satp = MAKE_SATP uroot) by (cbn; by rewrite csr_put_eq).
  assert (Eo1 : a_old s1 = Some (MAKE_SATP kroot)) by (cbn; by rewrite Hs).
  eapply runs_step; [exact Hp|apply tramp_fetches; [done|done|by left|rewrite Eo1; by right]|reflexivity|]. clear l Hp. intros l Hp. set (s2 := Asm _ _ _ _ _ _).
  assert (W2 : window TRAMPOLINE l_trampoline PGSIZE s2 TRAPFRAME tf PGSIZE) by (by apply frame_window).
  eapply runs_step; [exact Hp|by eapply window_fetches|eapply exec1_ld; [exact W2|exact Ha0|done|done|done]|]. clear l Hp. intros l Hp. set (s3 := put _ _ _).
  assert (W3 : window TRAMPOLINE l_trampoline PGSIZE s3 TRAPFRAME tf PGSIZE) by (eapply window_same; [exact W2|done..|apply agree_refl]).
  eapply runs_step; [exact Hp|by eapply window_fetches|reflexivity|]. clear l Hp. intros l Hp. set (s4 := put_csr _ _ _).
  assert (W4 : window TRAMPOLINE l_trampoline PGSIZE s4 TRAPFRAME tf PGSIZE) by (eapply window_same; [exact W2|done..|apply agree_refl]).
  eapply runs_app; [exact Hp|intros l1 Hl1; apply (exec_lds callee _ _ PGSIZE trap_regs A0 TRAPFRAME tf PGSIZE s4 l1 Hl1 W4);
    [exact Ha0|apply trap_regs_ok|intros o Hko%reg_in; exfalso; clear -Hko; revert Hko; by apply (bool_decide_unpack _)]|].
  clear l Hp. intros l Hp. change (a_mem s4) with (a_mem s). set (s5 := loads _ _ _ _).
  assert (Hf : a_csr s5 = a_csr s4 /\ a_priv s5 = 1 /\ a_old s5 = None /\ a_mem s5 = a_mem s).
  { unfold s5. destruct (loads_frame (a_mem s) tf trap_regs s4) as (f & ->). by split_and!. }
  assert (Hr : forall r o, (r, o) ∈ trap_regs -> a_reg s5 r = load64 (a_mem s) (tf + o)).
  { intros r o Hro. unfold s5. by rewrite (loads_lookup _ _ _ _ r o (to_regs _ _ trap_regs_ok) Hro). }
  assert (Ha5 : a_reg s5 A0 = TRAPFRAME).
  { unfold s5. rewrite loads_other; [exact Ha0|]. by apply (bool_decide_unpack _). }
  clearbody s5. destruct Hf as (Ec & Ep & Eo & Em5).
  assert (W5 : window TRAMPOLINE l_trampoline PGSIZE s5 TRAPFRAME tf PGSIZE).
  { apply frame_window; [by rewrite Em5|done|by rewrite Ec|done]. }
  eapply runs_step; [exact Hp|by eapply window_fetches|reflexivity|]. clear l Hp. intros l Hp. set (s6 := put _ _ _).
  assert (W6 : window TRAMPOLINE l_trampoline PGSIZE s6 TRAPFRAME tf PGSIZE) by (eapply window_same; [exact W5|done..|apply agree_refl]).
  eapply runs_step; [exact Hp|by eapply window_fetches|reflexivity|]. clear l Hp. intros l Hp. apply (runs_nil _ _ _ PGSIZE); [done|].
  assert (Es : a_csr s6 Sscratch = TRAPFRAME) by (cbn; by rewrite csr_put_eq).
  cbn [a_mem a_pc a_reg a_csr a_priv a_old]. rewrite !csr_put_ne by done. split_and!.
  - exact Em5.
  - cbn. rewrite csr_put_ne, Ec by done. done.
  - intros r o Hro. unfold frame_regs in Hro. apply elem_of_app in Hro as [Hro|Hro].
    + cbn. rewrite decide_False; [by apply Hr|]. intros ->. apply reg_in in Hro. clear -Hro. revert Hro. by apply (bool_decide_unpack _).
    + apply elem_of_cons in Hro as [[= -> ->]|Hro]; [|by apply elem_of_nil in Hro]. cbn. rewrite Ec. cbn. by rewrite csr_put_eq.
  - cbn. rewrite csr_put_ne, Ec by done. done.
  - exact Es.
  - rewrite csr_put_eq. cbn. rewrite csr_put_ne, Ec by done. done.
  - cbn. rewrite csr_put_ne, Ec by done. done.
  - exact Eo.
Qed.

(** C15: a trap from user space through uservec arrives at the kernel entry that the
    trapframe names, on the kernel's page table, stack and hart id, with every user register
    saved in the trapframe page and no other memory changed, although the code changes the
    page table under itself: the trampoline is at the same address in both tables, and no
    stale translation is used. Later, userret on any hart returns to sepc on the process's
    page table, in the mode that sstatus gives, with sscratch ready for the next trap; if the
    saved registers are unchanged, every register of the process is what it was, and if the
    kernel changed some (a0, for a system call), these have the new values. *)
Theorem trap_roundtrip lv lr s :
  placed PGSIZE lv uservec -> placed PGSIZE lr userret_asm -> trap_tables (a_mem s) -> a_priv s = 1 ->
  a_csr s Satp = MAKE_SATP uroot -> a_old s = None -> a_csr s Sscratch = TRAPFRAME -> load64 (a_mem s) (tf + TF_kernel_satp) = MAKE_SATP kroot ->
  regs_ok s ->
  exists s1, exec callee TRAMPOLINE l_trampoline lv s = Some s1 /\ a_pc s1 = load64 (a_mem s) (tf + TF_kernel_trap) /\
    a_reg s1 Sp = load64 (a_mem s) (tf + TF_kernel_sp) /\ a_reg s1 Tp = load64 (a_mem s) (tf + TF_kernel_hartid) /\
    kernel_on kroot kps ks s1 /\ agree tf PGSIZE (a_mem s) (a_mem s1) /\
    (forall r o, (r, o) ∈ frame_regs -> load64 (a_mem s1) (tf + o) = a_reg s r) /\
    forall s2, trap_tables (a_mem s2) -> kernel_on kroot kps ks s2 -> a_reg s2 A0 = TRAPFRAME -> a_reg s2 A1 = MAKE_SATP uroot ->
      exists s3, exec callee TRAMPOLINE l_trampoline lr s2 = Some s3 /\ a_mem s3 = a_mem s2 /\ a_pc s3 = a_csr s2 Sepc /\
        a_csr s3 Satp = MAKE_SATP uroot /\ a_old s3 = None /\ a_csr s3 Sscratch = TRAPFRAME /\
        a_priv s3 = (if Z.testbit (a_csr s2 Sstatus) 8 then 1 else 0) /\
        (forall r o, (r, o) ∈ frame_regs -> a_reg s3 r = load64 (a_mem s2) (tf + o)) /\
        forall r o, (r, o) ∈ frame_regs -> load64 (a_mem s2) (tf + o) = load64 (a_mem s1) (tf + o) -> a_reg s3 r = a_reg s r.
Proof.
  intros Hv Hr Ht Hp Hs Ho Hsc Hks Hreg. rewrite Z.add_0_r in Hks.
  destruct (uservec_run lv s Hv Ht Hp Hs Ho Hsc Hks) as (s1 & E & Em & Epc & Esp & Etp & Ec & Ep & Eo).
  assert (Hag : agree tf PGSIZE (a_mem s) (a_mem s1)) by (rewrite Em; apply agree_stores, frame_regs_ok).
  assert (Hsave : forall r o, (r, o) ∈ frame_regs -> load64 (a_mem s1) (tf + o) = a_reg s r).
  { intros r o Hro. rewrite Em, (stores_lookup _ _ _ _ _ _ _ frame_regs_ok Hro). by apply u64_id. }
  assert (Ht1 : trap_tables (a_mem s1)) by (by eapply trap_tables_same).
  exists s1. split_and!; try done.
  - constructor; [split_and!; [done|by rewrite Ec, csr_put_eq|done]|apply Ht1|apply Ht1].
  - intros s2 Ht2 [(Ep2 & Es2 & Eo2) _ _] Ha0 Ha1.
    destruct (userret_run lr s2 Hr Ht2 Ep2 Es2 Eo2 Ha0 Ha1) as (s3 & E3 & Em3 & Epc3 & Hr3 & Es3 & Esc3 & _ & Ep3 & Eo3).
    exists s3. split_and!; try done. intros r o Hro Hsame. by rewrite (Hr3 _ _ Hro), Hsame, (Hsave _ _ Hro).
Qed.

End trampoline.

(** ** Interrupts in the kernel *)

(** The frame of kernelvec, and what it restores. *)
Definition vec_regs : regtable :=
  [(Ra, 0); (Sp, 8); (Gp, 16); (Tp, 24); (T0, 32); (T1, 40); (T2, 48); (S0, 56); (S1, 64); (A0, 72); (A1, 80); (A2, 88); (A3, 96);
   (A4, 104); (A5, 112); (A6, 120); (A7, 128); (S2, 136); (S3, 144); (S4, 152); (S5, 160); (S6, 168); (S7, 176); (S8, 184); (S9, 192);
   (S10, 200); (S11, 208); (T3, 216); (T4, 224); (T5, 232); (T6, 240)].
Definition vec_restored : regtable := filter (fun x => x.1 <> Tp) vec_regs.

Lemma vec_regs_ok : table_ok vec_regs 256.
Proof. by apply table_ok_check. Qed.
Lemma vec_restored_ok : table_ok vec_restored 256.
Proof. by apply table_ok_check. Qed.

Lemma vec_restored_all r : r <> Tp -> exists o, (r, o) ∈ vec_restored.
Proof.
  intros Hr. assert (Hin : r ∈ vec_restored.*1) by (destruct r; try done; by apply (bool_decide_unpack _)).
  apply list_elem_of_fmap in Hin as ([r' o] & -> & Hin). by exists o.
Qed.

Lemma kernelvec_parts `{AsmSymbols} : kernelvec =
  [Addi Sp Sp (-256)] ++ sds Sp vec_regs ++ [Call sym_kerneltrap] ++ lds Sp vec_restored ++ [Addi Sp Sp 256; Sret].
Proof. reflexivity. Qed.

Section kernelvec.
Context `{LayoutOk} `{AsmSymbols} (callee : Z -> asm -> option asm) (root : Z) (kps ks : list Z).

(** [len] bytes of stack at [base], which are at [d] in memory: on the boot stack of a hart,
    in the kernel's data, or on the stack of a process. *)
Definition stack_at (base len d : Z) : Prop :=
  0 < len /\ base mod 8 = 0 /\
  ((d = base /\ l_etext <= base /\ base + len <= l_end) \/
   exists i k, ks !! i = Some k /\ page_ok k /\ (k ∉ kps) /\ KSTACK (Z.of_nat i) <= base /\ base + len <= KSTACK (Z.of_nat i) + PGSIZE /\
     d = k + (base - KSTACK (Z.of_nat i))).

Lemma stack_window s va sz base len d :
  kernel_on root kps ks s -> KERNBASE <= va -> va + sz <= l_etext -> (length ks <= NPROC)%nat -> stack_at base len d ->
  window va va sz s base d len /\ clear_of d len kps.
Proof.
  intros Hk Hv Hsz Hn (Hlen & Hm & [(-> & H1' & H2')|(i & k & Hi & Hok & Hnk & Hb & Hl & ->)]).
  - pose proof l_end_range. assert (Hc : clear_of base len kps).
    { intros p Hp. pose proof (po_ok _ _ _ (ko_own _ _ _ _ Hk)) as Hps. rewrite Forall_forall in Hps. destruct (Hps p Hp). lia. }
    split; [|done]. apply (kernel_data_window root kps ks); auto. lia.
  - split; [by eapply kernel_stack_window|]. intros p Hp. pose proof (po_ok _ _ _ (ko_own _ _ _ _ Hk)) as Hps. rewrite Forall_forall in Hps.
    destruct (Hps p Hp) as [Hp1 _]. destruct Hok as [Hk1 _]. assert (p <> k) by (intros ->; done). unfold PGSIZE in *. zlia.
Qed.

(** What a C function that is called with its caller's frame at [d] leaves: the stack
    pointer, the frame, and the kernel's page table. *)
Record returns (d : Z) (s s' : asm) : Prop := {
  rt_sp : a_reg s' Sp = a_reg s Sp;
  rt_frame : forall o, 0 <= o -> o + 8 <= 256 -> load64 (a_mem s') (d + o) = load64 (a_mem s) (d + o);
  rt_kernel : kernel_on root kps ks s';
}.

(** The second half: from the return of kerneltrap(), with the frame of [f] at [d]. *)
Lemma kernelvec_restore va sz l s2 d f :
  placed sz l (lds Sp vec_restored ++ [Addi Sp Sp 256; Sret]) -> KERNBASE <= va -> va + sz <= l_etext -> (length ks <= NPROC)%nat ->
  kernel_on root kps ks s2 -> a_reg s2 Sp = f Sp -> stack_at (f Sp) 256 d -> f Sp + 256 < 2 ^ 64 ->
  (forall r o, (r, o) ∈ vec_restored -> load64 (a_mem s2) (d + o) = f r) ->
  runs callee va va l s2 (fun s' => (forall r, r <> Tp -> r <> Sp -> a_reg s' r = f r) /\ a_reg s' Sp = f Sp + 256 /\ a_reg s' Tp = a_reg s2 Tp /\
    a_mem s' = a_mem s2 /\ a_pc s' = a_csr s2 Sepc /\ a_priv s' = (if Z.testbit (a_csr s2 Sstatus) 8 then 1 else 0) /\
    a_csr s' = csr_put Sstatus (sret_status (a_csr s2 Sstatus)) (a_csr s2)).
Proof.
  intros Hp Hv Hsz Hn Rk Rsp Hst Hlim Hload. destruct (stack_window s2 va sz (f Sp) 256 d Rk Hv Hsz Hn Hst) as [W2 _].
  destruct (wi_range _ _ _ _ _ _ _ W2) as (H0' & _ & _).
  eapply runs_app; [exact Hp|intros l1 Hl1; apply (exec_lds callee _ _ sz vec_restored Sp (f Sp) d 256 s2 l1 Hl1 W2 Rsp);
    [apply vec_restored_ok|intros o Ho; by rewrite (Hload _ _ Ho)]|].
  clear l Hp. intros l Hp. set (s3 := loads _ _ _ _).
  assert (Hr3 : forall r o, (r, o) ∈ vec_restored -> a_reg s3 r = f r).
  { intros r o Hro. unfold s3. by rewrite (loads_lookup _ _ _ _ r o (to_regs _ _ vec_restored_ok) Hro), (Hload _ _ Hro). }
  assert (Htp : a_reg s3 Tp = a_reg s2 Tp) by (unfold s3; apply loads_other; by apply (bool_decide_unpack _)).
  assert (Hf : a_csr s3 = a_csr s2 /\ a_priv s3 = a_priv s2 /\ a_old s3 = a_old s2 /\ a_mem s3 = a_mem s2).
  { unfold s3. destruct (loads_frame (a_mem s2) d vec_restored s2) as (g & ->). by split_and!. }
  clearbody s3. destruct Hf as (Ec & Ep & Eo & Em).
  assert (W3 : window va va sz s3 (f Sp) d 256) by (eapply window_same; [exact W2|by rewrite Ec|done|done|rewrite Em; apply agree_refl]).
  eapply runs_step; [exact Hp|by eapply window_fetches|reflexivity|]. clear l Hp. intros l Hp. set (s4 := put _ _ _).
  assert (W4 : window va va sz s4 (f Sp) d 256) by (eapply window_same; [exact W3|done..|apply agree_refl]).
  eapply runs_step; [exact Hp|by eapply window_fetches|reflexivity|]. clear l Hp. intros l Hp. apply (runs_nil _ _ _ sz); [done|].
  cbn [a_reg a_mem a_pc a_priv a_csr]. change (a_csr s4) with (a_csr s3). rewrite Ec. split_and!; [|..|done|exact Em|done|done|done].
  - intros r Hr Hrs. destruct (vec_restored_all r Hr) as (o & Ho). cbn. by rewrite decide_False, (Hr3 r o Ho) by done.
  - change (a_reg s4 Sp) with (u64 (a_reg s3 Sp + 256)). rewrite (Hr3 Sp 8) by (by apply (bool_decide_unpack _)). apply u64_id. lia.
Qed.

(** C16: an interrupt or exception in the kernel, through kernelvec, is invisible to the
    interrupted code. kernelvec calls kerneltrap() below the interrupted stack frame and
    with all registers saved there; when kerneltrap() returns, every register but tp is
    restored (the thread may have moved to another hart), sret resumes at sepc in the mode
    that sstatus gives, and memory is as kerneltrap() left it. Of kerneltrap() the code
    relies only on its return with the stack pointer, the frame and the page table. *)
Theorem kernelvec_transparent va sz l s d :
  placed sz l kernelvec -> KERNBASE <= va -> va + sz <= l_etext -> kernel_on root kps ks s -> regs_ok s -> (length ks <= NPROC)%nat ->
  256 <= a_reg s Sp -> stack_at (a_reg s Sp - 256) 256 d ->
  (forall s1, kernel_on root kps ks s1 -> a_reg s1 Sp = a_reg s Sp - 256 -> a_csr s1 = a_csr s -> a_reg s1 Tp = a_reg s Tp ->
     exists s2, callee sym_kerneltrap s1 = Some s2 /\ returns d s1 s2) ->
  exists s1 s2 s', callee sym_kerneltrap s1 = Some s2 /\ kernel_on root kps ks s1 /\ agree d 256 (a_mem s) (a_mem s1) /\ a_csr s1 = a_csr s /\
    exec callee va va l s = Some s' /\ (forall r, r <> Tp -> a_reg s' r = a_reg s r) /\ a_reg s' Tp = a_reg s2 Tp /\ a_mem s' = a_mem s2 /\
    a_pc s' = a_csr s2 Sepc /\ a_priv s' = (if Z.testbit (a_csr s2 Sstatus) 8 then 1 else 0) /\
    a_csr s' = csr_put Sstatus (sret_status (a_csr s2 Sstatus)) (a_csr s2).
Proof.
  intros Hp Hv Hsz Hk Hreg Hn Hsp Hst Hcall. rewrite kernelvec_parts in Hp. pose proof (Hreg Sp) as Hrsp. set (sp := a_reg s Sp - 256) in *.
  destruct (stack_window s va sz sp 256 d Hk Hv Hsz Hn Hst) as [W C]. set (s0 := put Sp (u64 (a_reg s Sp + -256)) s).
  assert (E0 : a_reg s0 Sp = sp) by (change (a_reg s0 Sp) with (u64 (a_reg s Sp + -256)); rewrite u64_id; unfold sp in *; lia).
  assert (W0 : window va va sz s0 sp d 256) by (eapply window_same; [exact W|done..|apply agree_refl]).
  set (m1 := stores (a_reg s0) d vec_regs (a_mem s0)). set (s1 := put_mem m1 s0).
  assert (Hag : agree d 256 (a_mem s) m1) by apply agree_stores, vec_regs_ok.
  assert (Hk1 : kernel_on root kps ks s1) by (by eapply kernel_on_same).
  destruct (Hcall s1 Hk1 E0 eq_refl eq_refl) as (s2 & Ecall & [Rsp Rfr Rk]).
  cut (runs callee va va l s (fun s' => (forall r, r <> Tp -> r <> Sp -> a_reg s' r = a_reg s0 r) /\ a_reg s' Sp = a_reg s0 Sp + 256 /\
    a_reg s' Tp = a_reg s2 Tp /\ a_mem s' = a_mem s2 /\ a_pc s' = a_csr s2 Sepc /\ a_priv s' = (if Z.testbit (a_csr s2 Sstatus) 8 then 1 else 0) /\
    a_csr s' = csr_put Sstatus (sret_status (a_csr s2 Sstatus)) (a_csr s2))).
  { intros (s' & E & Hr & Hrs & Hrest). exists s1, s2, s'. split_and!; try done; try apply Hrest.
    intros r Htp. destruct (decide (r = Sp)) as [->|Hne]; [rewrite Hrs, E0; unfold sp; lia|]. rewrite Hr by done. cbn. by rewrite decide_False. }
  eapply runs_step; [exact Hp|by eapply window_fetches|reflexivity|]. fold s0. clear l Hp. intros l Hp.
  eapply runs_app; [exact Hp|intros l1 Hl1; exact (exec_sds callee _ _ sz vec_regs Sp sp d 256 s0 l1 Hl1 W0 E0 (to_range _ _ vec_regs_ok))|].
  fold m1 s1. clear l Hp. intros l Hp.
  eapply runs_step; [exact Hp|by eapply kernel_text|exact Ecall|]. clear l Hp. intros l Hp.
  apply (kernelvec_restore va sz l s2 d (a_reg s0)); auto; rewrite ?E0; [done|unfold sp; lia|].
  intros r o Hro. destruct (to_range _ _ vec_restored_ok o (offset_in _ _ _ Hro)) as (? & ? & _). rewrite Rfr by done.
  unfold vec_restored in Hro. apply list_elem_of_filter in Hro as [_ Hro]. change (a_mem s1) with m1. unfold m1.
  rewrite (stores_lookup _ _ _ _ _ _ _ vec_regs_ok Hro). apply u64_id. cbn. case_decide; [apply Z.mod_pos_bound; lia|apply Hreg].
Qed.

End kernelvec.

(** ** Machine mode *)

(** Addresses are physical. *)
Lemma machine_window va sz s base len : a_priv s = 3 -> 0 <= base -> base + len <= 2 ^ 64 -> base mod 8 = 0 -> window va va sz s base base len.
Proof. intros Hp H1 H2 H3. constructor; [intros m _ o _|intros m perm o _ _ _ _ _|done]; unfold access, mmu; simpl; by rewrite Hp. Qed.

Definition timer_save : regtable := [(A1, 0); (A2, 8); (A3, 16)].
Definition timer_read : regtable := [(A1, 24); (A2, 32)].
Definition timer_load : regtable := [(A3, 16); (A2, 8); (A1, 0)].

Lemma timer_ok : table_ok timer_save 40 /\ table_ok timer_read 40 /\ table_ok timer_load 40.
Proof. split_and!; by apply table_ok_check. Qed.

Lemma timervec_parts : timervec =
  [Csrrw A0 Mscratch A0] ++ sds A0 timer_save ++ lds A0 timer_read ++ [Ld A3 0 A1; Add A3 A3 A2; Sd A3 0 A1; Li A1 2; Csrw Sip A1] ++
  lds A0 timer_load ++ [Csrrw A0 Mscratch A0; Mret].
Proof. reflexivity. Qed.

Section timer.
Context (callee : Z -> asm -> option asm) (va sz sc cmp : Z).
Context (Hs0 : 0 <= sc) (Hs1 : sc + 40 <= 2 ^ 64) (Hs2 : sc mod 8 = 0) (Hc0 : 0 <= cmp) (Hc1 : cmp + 8 <= 2 ^ 64) (Hc2 : cmp mod 8 = 0).
Context (Hd : cmp + 8 <= sc \/ sc + 40 <= cmp).

Lemma timer_windows s : a_priv s = 3 -> window va va sz s sc sc 40 /\ window va va sz s cmp cmp 8 /\ fetches va va sz s.
Proof. intros Hp. split_and!; [by apply machine_window..|]. eapply window_fetches. by apply machine_window. Qed.

Definition scratch_regs : list reg := [A0; A1; A2; A3].

(** Up to the reads of the scratch area. *)
Lemma timer_enter l q s Q :
  placed sz l ([Csrrw A0 Mscratch A0] ++ sds A0 timer_save ++ lds A0 timer_read ++ q) -> a_priv s = 3 -> a_csr s Mscratch = sc ->
  load64 (a_mem s) (sc + 24) = cmp ->
  (forall l' s3, placed sz l' q -> a_reg s3 A0 = sc -> a_reg s3 A1 = cmp -> a_reg s3 A2 = load64 (a_mem s) (sc + 32) ->
     (forall r, r ∉ scratch_regs -> a_reg s3 r = a_reg s r) -> a_csr s3 = csr_put Mscratch (a_reg s A0) (a_csr s) -> a_priv s3 = 3 ->
     a_mem s3 = stores (a_reg s) sc timer_save (a_mem s) -> runs callee va va l' s3 Q) ->
  runs callee va va l s Q.
Proof.
  intros Hp Hpr Hsc Hcmp Hk. destruct timer_ok as (T1 & T2 & T3).
  eapply runs_step; [exact Hp|by apply timer_windows|reflexivity|]. clear l Hp. intros l Hp. set (s1 := put A0 _ _).
  eapply runs_app; [exact Hp|intros l1 Hl1; apply (exec_sds callee _ _ sz timer_save A0 sc sc 40 s1 l1 Hl1); [by apply timer_windows|done|apply T1]|].
  clear l Hp. intros l Hp. set (m1 := stores _ _ _ _). set (s2 := put_mem m1 s1).
  eapply runs_app; [exact Hp|intros l1 Hl1; apply (exec_lds callee _ _ sz timer_read A0 sc sc 40 s2 l1 Hl1); [by apply timer_windows|done|apply T2|];
    intros o Ho%reg_in; exfalso; clear -Ho; revert Ho; by apply (bool_decide_unpack _)|].
  clear l Hp. intros l Hp. change (a_mem s2) with m1.
  assert (Hm1 : forall o, 24 <= o -> load64 m1 (sc + o) = load64 (a_mem s) (sc + o)).
  { intros o Ho. apply stores_other. intros o' Ho'. assert (o' <= 16); [|lia]. clear -Ho'. revert o' Ho'. apply Forall_forall. by apply (bool_decide_unpack _). }
  apply Hk; [done|exact Hsc|..].
  - rewrite (loads_lookup _ _ timer_read s2 A1 24 (to_regs _ _ T2)) by (by left). by rewrite Hm1.
  - rewrite (loads_lookup _ _ timer_read s2 A2 32 (to_regs _ _ T2)) by (by right; left). by rewrite Hm1.
  - intros r Hr. unfold scratch_regs in Hr. rewrite !not_elem_of_cons in Hr. destruct Hr as (R0 & R1 & R2 & R3 & _). rewrite loads_other.
    + change (a_reg s2 r) with (a_reg s1 r). unfold s1. by rewrite reg_put_ne.
    + simpl. by rewrite !not_elem_of_cons; split_and!; [..|apply not_elem_of_nil].
  - done.
  - done.
  - reflexivity.
Qed.

(** From the restoring of the registers, with the saved ones of [f] in memory. *)
Lemma timer_leave l s8 f :
  placed sz l (lds A0 timer_load ++ [Csrrw A0 Mscratch A0; Mret]) -> a_priv s8 = 3 -> a_reg s8 A0 = sc -> a_csr s8 Mscratch = f A0 ->
  (forall r o, (r, o) ∈ timer_load -> load64 (a_mem s8) (sc + o) = f r) -> (forall r, r ∉ scratch_regs -> a_reg s8 r = f r) ->
  runs callee va va l s8 (fun s' => (forall r, a_reg s' r = f r) /\ a_mem s' = a_mem s8 /\ a_pc s' = a_csr s8 Mepc /\
    a_csr s' = csr_put Mstatus (mret_status (a_csr s8 Mstatus)) (csr_put Mscratch sc (a_csr s8))).
Proof.
  intros Hp Hpr Ha0 Hms Hl Ho. destruct timer_ok as (T1 & T2 & T3).
  eapply runs_app; [exact Hp|intros l1 Hl1; apply (exec_lds callee _ _ sz timer_load A0 sc sc 40 s8 l1 Hl1); [by apply timer_windows|done|apply T3|];
    intros o Hi%reg_in; exfalso; clear -Hi; revert Hi; by apply (bool_decide_unpack _)|].
  clear l Hp. intros l Hp. set (s9 := loads _ _ _ _).
  assert (E9 : forall r, r <> A0 -> a_reg s9 r = f r).
  { intros r Hr. destruct (decide (r ∈ timer_load.*1)) as [Hin|Hin]; unfold s9.
    - apply list_elem_of_fmap in Hin as ([r' o] & -> & Hin). rewrite (loads_lookup _ _ _ _ _ o (to_regs _ _ T3) Hin). by apply Hl.
    - rewrite loads_other by done. apply Ho. simpl in Hin. rewrite !not_elem_of_cons in Hin. destruct Hin as (R3 & R2 & R1 & _).
      unfold scratch_regs. rewrite !not_elem_of_cons. split_and!; [done..|apply not_elem_of_nil]. }
  assert (E90 : a_reg s9 A0 = sc) by (unfold s9; rewrite loads_other by (by apply (bool_decide_unpack _)); exact Ha0).
  assert (Hf9 : a_csr s9 = a_csr s8 /\ a_priv s9 = 3 /\ a_mem s9 = a_mem s8).
  { unfold s9. destruct (loads_frame (a_mem s8) sc timer_load s8) as (g & ->). by split_and!. }
  clearbody s9. destruct Hf9 as (Ec9 & Ep9 & Em9).
  eapply runs_step; [exact Hp|by apply timer_windows|reflexivity|]. clear l Hp. intros l Hp.
  eapply runs_step; [exact Hp|by apply timer_windows|reflexivity|]. clear l Hp. intros l Hp. apply (runs_nil _ _ _ sz); [done|].
  cbn [a_csr a_pc a_mem]. split_and!; [|exact Em9|cbn; by rewrite csr_put_ne, Ec9|cbn; by rewrite csr_put_ne, E90, Ec9].
  intros r. cbn [a_reg]. destruct (decide (r = A0)) as [->|Hne]; [rewrite reg_put_eq, Ec9; exact Hms|rewrite reg_put_ne by done; by apply E9].
Qed.

(** The timer vector asks for the next interrupt, [interval] later, and raises a software
    interrupt for the kernel; the interrupted code keeps all its registers, and mscratch its
    area. *)
Lemma timervec_rearms l s interval :
  placed sz l timervec -> a_priv s = 3 -> regs_ok s -> a_csr s Mscratch = sc -> load64 (a_mem s) (sc + 24) = cmp -> load64 (a_mem s) (sc + 32) = interval ->
  runs callee va va l s (fun s' => (forall r, a_reg s' r = a_reg s r) /\ a_csr s' Mscratch = sc /\ a_csr s' Sip = 2 /\ a_pc s' = a_csr s Mepc /\
    load64 (a_mem s') cmp = u64 (load64 (a_mem s) cmp + interval) /\ load64 (a_mem s') (sc + 24) = cmp /\ load64 (a_mem s') (sc + 32) = interval /\
    forall x, ~ (sc <= x < sc + 24) -> ~ (cmp <= x < cmp + 8) -> rd (a_mem s') x = rd (a_mem s) x).
Proof.
  intros Hp Hpr Hreg Hsc Hcmp Hint. rewrite timervec_parts in Hp. destruct timer_ok as (T1 & T2 & T3).
  eapply timer_enter; [exact Hp|done|done|done|]. clear l Hp. intros l s3 Hp E0 E1 E2 Eo3 Ec3 Ep3 Em3. rewrite Hint in E2. set (m1 := stores _ _ _ _) in Em3.
  eapply runs_step; [exact Hp|by apply timer_windows|eapply exec1_ld; [by apply timer_windows|done|done|done|done]|]. clear l Hp. intros l Hp.
  eapply runs_step; [exact Hp|by apply timer_windows|reflexivity|]. clear l Hp. intros l Hp. set (s5 := put A3 (u64 _) _).
  eapply runs_step; [exact Hp|by apply timer_windows|eapply (exec1_sd _ va va sz s5 cmp cmp 8); [by apply timer_windows|done|done|done|done]|]. clear l Hp. intros l Hp.
  set (m2 := store64 _ _ _).
  assert (Em2 : m2 = store64 m1 cmp (u64 (load64 m1 cmp + interval))).
  { unfold m2, s5. rewrite !reg_put_eq, reg_put_ne, E2 by done. cbn [a_mem put]. by rewrite !Z.add_0_r, Em3. }
  eapply runs_step; [exact Hp|by apply timer_windows|reflexivity|]. clear l Hp. intros l Hp.
  eapply runs_step; [exact Hp|by apply timer_windows|reflexivity|]. clear l Hp. intros l Hp. set (s8 := put_csr _ _ _).
  assert (Hm2 : forall b, sc <= b -> b + 8 <= sc + 40 -> load64 m2 b = load64 m1 b) by (intros b B1 B2; rewrite Em2; apply load64_store64_other; lia).
  assert (Hm1 : forall b, b + 8 <= sc \/ sc + 24 <= b -> load64 m1 b = load64 (a_mem s) b).
  { intros b Hb. apply stores_other. intros o' Ho'. assert (0 <= o' <= 16); [|lia]. clear -Ho'. revert o' Ho'. apply Forall_forall. by apply (bool_decide_unpack _). }
  assert (Hag : agree sc 24 (a_mem s) m1).
  { apply agree_stores. apply Forall_forall. by apply (bool_decide_unpack _). }
  destruct (timer_leave l s8 (a_reg s) Hp Ep3 E0) as (s' & E & Hr & Em & Epc & Ec).
  - cbn. rewrite csr_put_ne, Ec3 by done. apply csr_put_eq.
  - intros r o Hro. assert (Hs : (r, o) ∈ timer_save) by (clear -Hro; revert Hro; apply (proj1 (Forall_forall (fun x => x ∈ timer_save) timer_load)); by apply (bool_decide_unpack _)).
    change (a_mem s8) with m2. destruct (to_range _ _ T3 o (offset_in _ _ _ Hro)) as (? & ? & _). rewrite Hm2 by lia. unfold m1.
    rewrite (stores_lookup _ _ _ _ _ _ _ T1 Hs). by apply u64_id.
  - intros r Hr. rewrite <-Eo3 by done. unfold scratch_regs in Hr. rewrite !not_elem_of_cons in Hr. destruct Hr as (R0 & R1 & R2 & R3 & _). cbn. by rewrite !decide_False.
  - exists s'. rewrite Ec, Em, Epc. change (a_mem s8) with m2. change (a_csr s8) with (csr_put Sip 2 (a_csr s3)). rewrite Ec3. split_and!; try done.
    + rewrite Em2, load64_store64, Hm1 by lia. apply u64_id, u64_range.
    + rewrite Hm2, Hm1 by lia. done.
    + rewrite Hm2, Hm1 by lia. done.
    + intros x X1 X2. rewrite Em2, rd_store64_other by lia. by apply Hag.
Qed.

End timer.

(** ** Reset *)

(** entry.S calls start() with a stack of 4096 bytes for each hart: hart [id] has the bytes
    from [sym_stack0 + 4096 * id] on. *)
Lemma entry_stack `{AsmSymbols} callee va sz l s id :
  placed sz l entry_asm -> a_priv s = 3 -> a_csr s Mhartid = id -> 0 <= id < 8 -> 0 <= sym_stack0 -> sym_stack0 + 8 * 4096 < 2 ^ 64 ->
  exists s', exec callee va va l s = callee sym_start s' /\ a_reg s' Sp = sym_stack0 + 4096 * (id + 1) /\ a_csr s' = a_csr s /\ a_mem s' = a_mem s.
Proof.
  intros Hp Hpr Hid Hr H0 H1.
  assert (Hft : forall s', a_priv s' = 3 -> fetches va va sz s') by (intros s' Hs' o _; unfold access, mmu; by rewrite Hs').
  assert (Hb : forall c : option asm, (s' ← c; Some s') = c) by (by intros []).
  eexists. split.
  - do 6 (eapply exec_step; [exact Hp|by apply Hft|reflexivity|]; clear l Hp; intros l Hp).
    apply placed_cons in Hp as (o & l' & -> & Ho & Hp). apply placed_nil in Hp as ->. cbn [exec exec1]. rewrite decide_True by (by apply Hft). apply Hb.
  - split; [|by split]. rewrite !reg_put_eq. repeat (rewrite !reg_put_eq || rewrite !reg_put_ne by done). cbn [a_csr put]. rewrite Hid.
    rewrite (u64_id sym_stack0), (u64_id (1024 * 4)), (u64_id (id + 1)), (u64_id (1024 * 4 * (id + 1))) by lia. rewrite u64_id; lia.
Qed.

(** ** Examples *)

Section booted.
Context `{LayoutOk}.

(** The first process and the kernel after boot. *)
Lemma booted_trap_tables b : booted b -> exists uroot tf ups kps ks, length ks = NPROC /\ page_ok tf /\
  trap_tables uroot tf (bd_kernel_pagetable b) ups kps ks (pm_mem (k_pm (bd_kernel b))).
Proof.
  intros Hb. destruct (bt_memory b Hb) as (y & kps & ks & ps & q & fl & Hy & Him & Hl & Hown & He & Hall). destruct (fi_space _ _ _ _ _ Him) as [Hu Htr Htf].
  assert (Hnd : NoDup (kps ++ ks ++ p_trapframe y :: q :: ps ++ fl)) by (rewrite <-Hall; apply all_free_nodup).
  assert (Hok : page_ok (p_trapframe y)) by (apply elem_of_all_free; rewrite Hall, !elem_of_app; right; right; by left).
  apply NoDup_app in Hnd as (_ & Hk & Hnd). apply NoDup_app in Hnd as (_ & _ & Hnd). apply NoDup_cons in Hnd as [Hnt _].
  exists (p_pagetable y), (p_trapframe y), ps, kps, ks. split; [done|]. split; [done|]. constructor; try done.
  - apply Hu.
  - split_and!; [done| |].
    + intros Hin. apply Hnt. right. apply elem_of_app. by left.
    + intros Hin. apply (Hk _ Hin). rewrite elem_of_app. right. by left.
Qed.

End booted.

(** The first process at its first system call, with a kernel that only returns. *)
Module first_trap.

Definition code (p : list instr) : list (Z * instr) := imap (fun i x => (4 * Z.of_nat i, x)) p.

Lemma code_placed p : (length p <= 100)%nat -> placed 400 (code p) p /\ placed PGSIZE (code p) p.
Proof.
  intros Hl. assert (Ho : forall x, x ∈ code p -> 0 <= x.1 < 400).
  { intros x Hx. apply list_elem_of_lookup in Hx as [i Hi]. unfold code in Hi. rewrite list_lookup_imap in Hi.
    destruct (p !! i) eqn:E; [|done]. injection Hi as <-. apply lookup_lt_Some in E. simpl. lia. }
  assert (Hc : (code p).*2 = p) by (unfold code; rewrite fmap_imap; apply list_eq; intros i; rewrite list_lookup_imap; by destruct (p !! i)).
  split; (constructor; [done|]); apply Forall_forall; intros x Hx; pose proof (Ho x Hx); unfold PGSIZE; lia.
Qed.

Definition symbols : AsmSymbols := {| sym_kerneltrap := 0x80002600; sym_stack0 := 0x80008a00; sym_start := 0x80000100 |}.

Abbreviation tables := (@trap_tables reset.layout).
Abbreviation kernel_state := (@kernel_on reset.layout).

(** The machine after boot. *)
Lemma machine : exists uroot tf kroot ups kps ks m, length ks = NPROC /\ @page_ok reset.layout tf /\ tables uroot tf kroot ups kps ks m.
Proof.
  destruct (@boot_first reset.layout reset.reset_ok reset.symbols reset.boot_symbols 5%nat reset.qemu reset.qemu_disk reset.hart0 reset.machine)
    as (h' & b' & (h1 & b1 & c1 & c' & _ & _ & _ & _ & _ & _ & _ & Hb & _) & _).
  - constructor; [exact reset.hart0_bare|by exists (reset.core0 0)|by exists (replicate 5 0)].
  - exact reset.machine_data.
  - by vm_compute.
  - destruct (@booted_trap_tables reset.layout reset.reset_ok b' Hb) as (uroot & tf & ups & kps & ks & Hl & Hok & Ht).
    by exists uroot, tf, (bd_kernel_pagetable b'), ups, kps, ks, (pm_mem (k_pm (bd_kernel b'))).
Qed.

(** A hart on the kernel's table with registers [f]. *)
Definition core (f : reg -> Z) (satp scratch : Z) (m : mem) : asm :=
  Asm f (csr_put Satp satp (csr_put Sscratch scratch (fun _ => 0))) 0 1 None m.

Lemma core_kernel uroot tf kroot ups kps ks m f x : tables uroot tf kroot ups kps ks m -> kernel_state kroot kps ks (core f (MAKE_SATP kroot) x m).
Proof. intros Ht. constructor; [by split_and!|apply (tt_kernel _ _ _ _ _ _ _ Ht)|apply (tt_entry _ _ _ _ _ _ _ Ht)]. Qed.

End first_trap.

Lemma trap_roundtrip_witness :
  exists uroot tf kroot ups kps ks s s1, first_trap.tables uroot tf kroot ups kps ks (a_mem s) /\
    exec (fun _ _ => None) TRAMPOLINE (@l_trampoline reset.layout) (first_trap.code uservec) s = Some s1 /\ first_trap.kernel_state kroot kps ks s1.
Proof.
  destruct first_trap.machine as (uroot & tf & kroot & ups & kps & ks & m & Hl & Hok & Ht).
  assert (Ht' : first_trap.tables uroot tf kroot ups kps ks (store64 m (tf + 0) (MAKE_SATP kroot))).
  { apply (trap_tables_same uroot tf kroot ups kps ks m); [exact Ht|]. apply agree_store; [lia|done]. }
  set (s := first_trap.core (fun _ => 7) (MAKE_SATP uroot) TRAPFRAME (store64 m (tf + 0) (MAKE_SATP kroot))).
  destruct (@trap_roundtrip reset.layout reset.reset_ok uroot tf kroot ups kps ks (fun _ _ => None) (first_trap.code uservec) (first_trap.code userret_asm) s)
    as (s1 & E & _ & _ & _ & Hk & _).
  - apply first_trap.code_placed. apply Nat.leb_le. reflexivity.
  - apply first_trap.code_placed. apply Nat.leb_le. reflexivity.
  - exact Ht'.
  - reflexivity.
  - reflexivity.
  - reflexivity.
  - reflexivity.
  - change (load64 (store64 m (tf + 0) (MAKE_SATP kroot)) (tf + 0) = MAKE_SATP kroot). rewrite load64_store64. apply u64_id.
    pose proof (own_root _ _ _ (tt_kernel _ _ _ _ _ _ _ Ht)) as Hr. by apply (@MAKE_SATP_range reset.layout reset.reset_ok).
  - intros r. simpl. lia.
  - exists uroot, tf, kroot, ups, kps, ks, s, s1. split; [exact Ht'|]. split; [exact E|exact Hk].
Defined.

Lemma swtch_switches_witness :
  exists kroot kps ks s s1, first_trap.kernel_state kroot kps ks s /\
    exec (fun _ _ => None) KERNBASE KERNBASE (first_trap.code swtch) s = Some s1 /\ a_pc s1 = load64 (a_mem s) (KERNBASE + 0x8070).
Proof.
  destruct first_trap.machine as (uroot & tf & kroot & ups & kps & ks & m & Hl & Hok & Ht).
  set (s := first_trap.core (fun r => if decide (r = A0) then KERNBASE + 0x8000 else KERNBASE + 0x8070) (MAKE_SATP kroot) 0 m).
  assert (Hk : first_trap.kernel_state kroot kps ks s) by exact (first_trap.core_kernel _ _ _ _ _ _ _ _ _ Ht).
  destruct (@swtch_switches reset.layout reset.reset_ok (fun _ _ => None) kroot kps ks KERNBASE 400 (first_trap.code swtch) s (KERNBASE + 0x8000) (KERNBASE + 0x8070))
    as (s1 & E & _ & _ & Epc & _).
  - apply first_trap.code_placed. apply Nat.leb_le. reflexivity.
  - lia.
  - by vm_compute.
  - exact Hk.
  - intros r. simpl. unfold KERNBASE. case_decide; lia.
  - reflexivity.
  - reflexivity.
  - by vm_compute.
  - by vm_compute.
  - right. by vm_compute.
  - exists kroot, kps, ks, s, s1. split; [exact Hk|]. split; [exact E|exact Epc].
Defined.

Lemma kernelvec_transparent_witness :
  exists kroot kps ks s s', first_trap.kernel_state kroot kps ks s /\
    exec (fun _ x => Some x) KERNBASE KERNBASE (first_trap.code (@kernelvec first_trap.symbols)) s = Some s' /\
    a_reg s' Ra = a_reg s Ra.
Proof.
  destruct first_trap.machine as (uroot & tf & kroot & ups & kps & ks & m & Hl & Hok & Ht).
  set (s := first_trap.core (fun _ => KERNBASE + 0x9000) (MAKE_SATP kroot) 0 m).
  assert (Hk : first_trap.kernel_state kroot kps ks s) by exact (first_trap.core_kernel _ _ _ _ _ _ _ _ _ Ht).
  destruct (@kernelvec_transparent reset.layout reset.reset_ok first_trap.symbols (fun _ x => Some x) kroot kps ks
    KERNBASE 400 (first_trap.code (@kernelvec first_trap.symbols)) s (KERNBASE + 0x9000 - 256)) as (s1 & s2 & s' & _ & _ & _ & _ & E & Hr & _).
  - apply first_trap.code_placed. apply Nat.leb_le. reflexivity.
  - lia.
  - by vm_compute.
  - exact Hk.
  - intros r. simpl. unfold KERNBASE. lia.
  - rewrite Hl. lia.
  - by vm_compute.
  - split; [lia|]. split; [reflexivity|]. left. split; [reflexivity|]. by vm_compute.
  - intros s3 Hk3 _ _ _. exists s3. split; [reflexivity|]. by constructor.
  - exists kroot, kps, ks, s, s'. split; [exact Hk|]. split; [exact E|]. by apply Hr.
Defined.
